(* ===== verification/_CoqProject ===== *)
-Q . S2P
Prelude.v
OMap.v
Timer.v
Float64.v
Config.v
Channel.v
Identity.v
VehicleData.v
Cam.v
Ldm.v
Middleware.v
CaService.v
Sampling.v
DenMemory.v
DenService.v
StoryCondition.v
Storyboard.v
TraciCache.v
TraciNodes.v
Storage.v
TraciClient.v
TraciReports.v
TraciScopes.v
EventSet.v
Runtime.v
Radio.v
Networking.v
Testbed.v
Asio.v
Transfusion.v
Station.v
EnvGlobal.v
EnvDetect.v
EnvLocal.v
Gemv2Index.v
Gemv2Vehicles.v
Gemv2Foliage.v
Gemv2Buildings.v
Inet.v
Mobility.v
Launcher.v
Facilities.v
Dcc.v
FlowControl.v
LocationTable.v
ChannelSharing.v
GeoBuffer.v
GeoHeaders.v
GeoRouter.v
GeoNetwork.v
Btp.v
