(* ===== verification/Prelude.v ===== *)
(** * Artery V2X simulation framework: a verification development

    Artery simulates cooperative vehicles: a traffic simulator (SUMO) moves the
    vehicles, a network simulator (OMNeT++ with INET or Veins) transmits their
    packets, and Artery connects the two.  Every vehicle that enters the traffic
    becomes a node with a mobility module, a middleware with its services, a
    position provider, a DCC entity, routers and radios.  This development models
    the code under [src/src/artery] and [src/src/traci] together with the parts of
    vanetza ([src/extern/vanetza]) and INET ([src/extern/inet]) whose behaviour that
    code depends on, and proves what each part promises to the others.

    ** How the program's parts fit together

    One step of the simulation runs like this, and the files follow it:
    the TraCI core ([Core::handleMessage]) asks the simulator for a step through
    the client (TraciClient, over Storage's wire format) and announces it; the
    subscription manager (TraciCache) refills the caches of the vehicles; the node
    manager (TraciNodes) creates, updates and removes nodes and emits a signal for
    each; what listens to them follows: mobility (Mobility), the global environment
    model (EnvGlobal), the vehicle index of the path loss model (Gemv2Index), the
    storyboard (Storyboard).  Then every middleware (Middleware) updates its own
    data (VehicleData, Identity), its local maps (Ldm, EnvLocal) and its services
    (CaService, DenService).  A request of a service goes through the middleware to
    the router of a channel (Networking), and past flow control (FlowControl),
    which the channel load that the radio measures (Radio) restrains by way of
    congestion control (Dcc), to the medium, whose path loss is GEMV2's; at the
    other station it goes through the dispatcher to the services listening (Station).
    Instead of the kernel's scheduler one of two schedulers that follow
    the wall clock may run the simulation (Asio, Testbed).

    ** The files and what they model

    Foundations.
    - Prelude: results and faults ([res], [fault]), traversals in the error monad,
      automation, machine integers, lemmas on lists.
    - OMap: [std::map] and [std::set] as sorted association lists, for any key with
      [KeyOrder] and [KeyOrderLaws].
    - Float64: [double] as binary64 with rounding, NaN and infinities.
    - Config: the XML elements a component is configured by.
    - EventSet: the kernel's future event set as an interface.

    Stations ([artery/application], [artery/utility]).
    - Timer ([Timer.cc]), Channel ([Channel.cc], [XmlMultiChannelPolicy.cc]),
      Identity ([Identity.cc], [IdentityRegistry.cc], [FilterRules.cc]),
      Facilities ([Facilities.h]).
    - VehicleData ([VehicleDataProvider.cc]), Cam and CaService ([CaService.cc]),
      Ldm ([LocalDynamicMap.cc]).
    - Sampling ([SampleBuffer.h], [Sampling.h]), DenMemory ([den/Memory.cc]),
      DenService ([DenService.cc], [den/*UseCase.cc]).
    - Middleware ([Middleware.cc], [TransportDispatcher.cc], [ItsG5BaseService.cc]).

    Networking ([artery/networking], [artery/nic], [artery/inet], [artery/veins]).
    - Runtime ([Runtime.cc] over vanetza's [manual_runtime.cpp]).
    - Radio ([ChannelLoadMeasurements.cc], [VanetRx.cc], both radio drivers).
    - Networking ([Router.cc], [GeoNetPacket.cc], [*DccEntity.cc],
      [SecurityEntity.cc]).
    - Dcc and FlowControl (vanetza's [dcc/]).
    - LocationTable, GeoBuffer (vanetza's [geonet/]: [location_table.cpp] with the
      headers' time stamps and sequence numbers, [packet_buffer.cpp],
      [cbf_packet_buffer.cpp]) and ChannelSharing ([dcc_information_sharing.cpp],
      [cbr_aggregator.cpp] under [DccEntityBase.cc]).
    - GeoHeaders (areas, requests, headers and PDUs: [areas.cpp], [mib.hpp],
      [data_request.cpp], [basic_header.cpp], [common_header.cpp],
      [gbc_gac_header.cpp], ...), GeoRouter (vanetza's [geonet/router.cpp] with
      [repeater.cpp] and [indication_context.cpp], over the files above) and
      GeoNetwork (routers that hear each other in any order).
    - Btp (vanetza's [btp/]: headers, indications and the port dispatcher; with it the
      way of a message of Transfusion from station to station).
    - Station: services, middleware, routers and dispatchers composed.
    - Inet ([DistanceSwitchPathLoss.cc], [VanetNakagamiFading.cc] and the functions
      of INET they and GEMV2 call), Mobility ([MobilityBase.cc],
      [InetMobility.cc], [VeinsMobility.cc], [AntennaMobility.cc], the vehicle
      controller and the position providers).
    - Gemv2Index, Gemv2Vehicles, Gemv2Foliage, Gemv2Buildings ([inet/gemv2]).

    Environment and storyboard ([artery/envmod], [artery/storyboard]).
    - EnvGlobal, EnvDetect, EnvLocal; StoryCondition, Storyboard.

    Traffic simulator ([traci]).
    - Storage ([tcpip/storage.cpp], [tcpip/socket.cpp]), TraciClient, TraciReports
      and TraciScopes ([TraCIAPI.cpp], [API.cc]).
    - TraciCache ([VariableCache.cc], [BasicSubscriptionManager.cc]), TraciNodes
      ([*ModuleMapper.cc], [*NodeManager.cc], [Core.cc]), Launcher
      ([PosixLauncher.cc], [ConnectLauncher.cc], [Listener.cc]).

    Real time ([artery/utility], [artery/testbed], [artery/transfusion]).
    - Asio ([AsioScheduler.cc], [AsioTask.cc]), Testbed ([TestbedScheduler.cc],
      [OtaIndicationQueue.cc], [OtaInterface*.cc]), Transfusion
      ([TransfusionService.cc]).

    Each file opens with what it holds.  State is a [Record] with the members of the
    class as its fields, under the names of the source where the language allows it;
    an operation is a function on it, under the name of the method; an operation
    that can throw returns [res], with the fault in place of the exception.

    ** What is proved

    - Services: when CAMs are triggered and how far apart they are (CaService), what
      they contain (Cam) and when the receiver stores them (Ldm, Timer); numbering
      of DENMs (DenService) and the memory of them (DenMemory); the estimate of the
      curvature stays in its domain (VehicleData).
    - Delivery: a received packet reaches exactly the services registered for it
      (Middleware), and a request reaches the services of another station over the
      configured channels (Station).
    - Traffic: the client returns what the simulator sent or throws the exception of
      its answer (TraciClient), subscriptions and settings cross the wire intact
      (TraciReports, TraciScopes), caches are as subscribed (TraciCache), nodes follow
      departures and arrivals for any module mapper, and the core's cycle goes on as
      long as it should (TraciNodes).
    - Refinements of the node manager's signals: mobility modules (Mobility), global
      environment model (EnvGlobal) and vehicle index (Gemv2Index) mirror its nodes.
    - Perception: what radars detect, with any preselection that keeps its promise
      (EnvDetect), and what the local model tracks (EnvLocal).
    - Storyboard: the stories on a vehicle are exactly those whose condition held, and
      the commands given when a story comes or goes, down to the maximum speeds in force,
      are those of its effects (Storyboard).
    - Propagation: the model of a link's class (Gemv2Index), the hull of obstacles
      (Gemv2Vehicles), the union of foliage segments (Gemv2Foliage), the free paths
      behind buildings (Gemv2Buildings).
    - Time: the runtime runs due callbacks at their deadline and always returns
      (Runtime); both real-time schedulers return the earliest event when it is due
      (Asio, Testbed), and packets from the radio's thread keep their order (Testbed).
    - Channel load: the two measurements are one (Radio), state machines and LIMERIC
      stay in their limits over any history (Dcc), stations combine the loads they share
      as specified (ChannelSharing), and flow control accounts for every packet with any
      lawful rate control (FlowControl).
    - GeoNetworking: the table of stations refines a record per station
      (LocationTable), contending packets leave when their timer ends (GeoBuffer), and
      in a network of routers every broadcast comes from a request over a chain of
      stations, each of which took one from the hop limit, and reaches applications only
      inside of the requested destination (GeoNetwork).  What external software sends through
      one station comes back at another, through both routers and the dispatcher (Btp).

    ** Interfaces

    Clients are proved against classes, implementations discharge their laws:
    [KeyOrderLaws] (keys of maps), [StdSortSpec] (what [std::sort] guarantees),
    [ModuleMapper] and [NodeManager] (traffic to nodes), [PreselectionLaws] (objects
    for sensors), [FutureEventSetLaws] (the kernel's events), [GeoLaws] (what is used
    of Boost.Geometry), [MobilityLaws] (mobility modules), [RateControlLaws]
    (rate controls for flow control) and [PendingLaws] (packets in buffers).  GeoRouter
    reads [Geography] (projection and distance on the ellipsoid) and [Surroundings]
    (sizes of data, random draws, security services) without a law about them.

    ** Parameters and hypotheses

    Not part of the sources, and therefore arguments of the definitions: the
    simulator's answers (bytes a socket delivers, or [LiteAPI]'s values), geometry
    (Boost.Geometry), the mathematical library, random numbers (indexed by the draw),
    regular expressions and number parsing, generated codecs (ASN.1, protobuf), module
    creation and events of the kernel, the wall clock, the other threads and the
    operating system's answers.  Hypotheses about them state what their documentation
    promises - a varint is read back, a range query returns the values that meet it, a
    created node is new, a socket that flows delivers each piece - and every theorem
    that has one has a witness with a concrete instance.

    ** Fuel and bounds

    Loops of the source without a bound of their own run on fuel, and the theorem of
    the component says which fuel is enough, as a function of the input:
    [Runtime.steps] (the queue and what callbacks still do), [Testbed.take_loop] and
    [peek_loop] (the packets the radio has left), [Asio.dwadle] (handlers until the
    deadline), [Storage.receive_loop] and [send_loop] (bytes missing),
    [TraciScopes.skip_value] (the length of the input),
    [Gemv2Vehicles.main_loop] (the number of obstacles), [LocationTable.drop_loop] (the
    size of the heap), [Launcher.connect_loop] (the ten attempts of the source).  Integers have their width where it matters: the
    16-bit generation time and sequence numbers, 32-bit counters of the radio, 64-bit
    simulation time, signed bytes and lengths on the wire.

    ** Not modelled

    - Drawing ([Visualizer], canvas figures, plotting of the storyboard) and logging:
      they have no effect on the simulation.
    - The Python bindings ([storyboard/Binding.cc]): they only construct the objects
      Storyboard models.
    - Demonstration services ([ItsG5Service.cc], [EnvmodPrinter.cc]), Veins adapters
      that forward ([VeinsConnectionManager.cc], [VeinsObstacleControl.cc]), the start-up of
      [InetRadioDriver], input and output without logic of its own ([GpsdServer.cc],
      [OtaInterfaceStub.cc], [TransfusionLoopback.cc]).
    - The rest of INET, Veins, SimuLTE and vanetza: third-party frameworks, of which
      only what the modelled code calls is translated.  Of vanetza's GeoNetworking what
      is left out is the reading and writing of its header bytes (a received packet is what
      the parser read of it; those of BTP are in Btp), the security services and unicast,
      which its router refuses; Networking and Station take the router as a parameter. *)

From stdpp Require Export prelude strings gmap list sorting.
From Stdlib Require Export ZArith Lia Bool Sorted.

#[global] Set Default Goal Selector "!".
#[global] Open Scope Z_scope.

Declare Scope artery_scope.
Delimit Scope artery_scope with artery.
#[global] Open Scope artery_scope.

(** ** Faults

    What ends an operation abnormally: an exception of the simulation kernel
    ([cRuntimeError], [cComponent::error]), an exception of the C++ standard
    library or Boost, a failed [assert]/[ASSERT], or an access the C++ standard
    leaves undefined. *)
Inductive fault : Type :=
| RuntimeError (what : string)
| StdException (what : string)
| AssertFailed (what : string)
| Undefined (what : string)
| Terminated (what : string).  (** [cTerminationException]: the run is over *)

Inductive res (A : Type) : Type :=
| Ok (a : A)
| Fail (f : fault).
Arguments Ok {A} a.
Arguments Fail {A} f.

#[export] Instance res_ret : MRet res := fun A a => Ok a.
#[export] Instance res_bind : MBind res := fun A B f m =>
  match m with Ok a => f a | Fail e => Fail e end.
#[export] Instance res_fmap : FMap res := fun A B f m =>
  match m with Ok a => Ok (f a) | Fail e => Fail e end.
#[export] Instance fault_eq_dec : EqDecision fault.
Proof. solve_decision. Defined.
#[export] Instance res_eq_dec `{EqDecision A} : EqDecision (res A).
Proof. solve_decision. Defined.

(** The C++ [assert] macro and OMNeT++'s [ASSERT]. *)
Definition assert_ (what : string) (b : bool) : res unit :=
  if b then Ok tt else Fail (AssertFailed what).

Definition is_ok {A} (r : res A) : bool :=
  match r with Ok _ => true | Fail _ => false end.

(** Fold of a fallible operation over a list, stopping at the first fault. *)
Fixpoint res_fold {A S} (f : S -> A -> res S) (l : list A) (s : S) : res S :=
  match l with
  | [] => Ok s
  | x :: l' => s' ← f s x; res_fold f l' s'
  end.

(** ** Machine integers *)
Definition wrap (w : Z) (z : Z) : Z := z `mod` 2 ^ w.
Definition u16 (z : Z) : Z := wrap 16 z.
Definition u32 (z : Z) : Z := wrap 32 z.
Definition u64 (z : Z) : Z := wrap 64 z.
(** Conversion to a signed [w]-bit integer (two's complement). *)
Definition swrap (w : Z) (z : Z) : Z :=
  (z + 2 ^ (w - 1)) `mod` 2 ^ w - 2 ^ (w - 1).

(** ** Simulation time

    [omnetpp::SimTime] is a 64-bit count of ticks; the default resolution, which
    no configuration of the framework's scenarios changes, is one picosecond. *)
Abbreviation simtime := Z (only parsing).
Definition SIMTIME_US (n : Z) : simtime := n * 10 ^ 6.
Definition SIMTIME_MS (n : Z) : simtime := n * 10 ^ 9.
Definition SIMTIME_S (n : Z) : simtime := n * 10 ^ 12.
Definition simtime_max : simtime := 2 ^ 63 - 1.
(** [SimTime::inUnit], which truncates. *)
Definition inUnit_US (t : simtime) : Z := Z.quot t (10 ^ 6).
Definition inUnit_MS (t : simtime) : Z := Z.quot t (10 ^ 9).

(** ** Automation *)
(** Case analysis on every boolean comparison of integers in the goal and the
    hypotheses, turning each into the proposition it decides. *)
Ltac zcases :=
  repeat match goal with
  | |- context [Z.ltb ?a ?b] => destruct (Z.ltb_spec a b)
  | |- context [Z.leb ?a ?b] => destruct (Z.leb_spec a b)
  | |- context [Z.eqb ?a ?b] => destruct (Z.eqb_spec a b)
  | H : context [Z.ltb ?a ?b] |- _ => destruct (Z.ltb_spec a b)
  | H : context [Z.leb ?a ?b] |- _ => destruct (Z.leb_spec a b)
  | H : context [Z.eqb ?a ?b] |- _ => destruct (Z.eqb_spec a b)
  end.

(** Inverts equations between results. *)
Ltac res_inv :=
  repeat match goal with
  | H : Ok _ = Ok _ |- _ => injection H as H
  | H : Ok _ = Fail _ |- _ => discriminate H
  | H : Fail _ = Ok _ |- _ => discriminate H
  | H : Fail _ = Fail _ |- _ => injection H as H
  | H : mret _ = _ |- _ => progress unfold mret, res_ret in H
  | H : assert_ _ ?b = Ok _ |- _ => destruct b eqn:?; simpl in H
  end; simplify_eq.

Create HintDb artery.

(** Injectivity without simplification of the sides. *)
Lemma Ok_inj {A} (a b : A) : Ok a = Ok b -> a = b.
Proof. by intros [= ->]. Qed.

Lemma bind_Ok {A B} (m : res A) (f : A -> res B) (b : B) :
  (m ≫= f) = Ok b <-> exists a, m = Ok a /\ f a = Ok b.
Proof. destruct m; cbn; naive_solver. Qed.

Lemma fmap_Ok {A B} (m : res A) (f : A -> B) (b : B) :
  (f <$> m) = Ok b <-> exists a, m = Ok a /\ f a = b.
Proof. destruct m; cbn; naive_solver. Qed.

Lemma res_fold_app {A S} (f : S -> A -> res S) l1 l2 s :
  res_fold f (l1 ++ l2) s = (s' ← res_fold f l1 s; res_fold f l2 s').
Proof.
  revert s; induction l1 as [|x l1 IH]; intros s; cbn; [done|].
  destruct (f s x); cbn; [apply IH | done].
Qed.

(** An invariant kept by every step is kept by the fold. *)
Lemma res_fold_inv {A S} (P : S -> Prop) (f : S -> A -> res S) l s s' :
  (forall x t t', x ∈ l -> P t -> f t x = Ok t' -> P t') ->
  P s -> res_fold f l s = Ok s' -> P s'.
Proof.
  revert s; induction l as [|x l IH]; intros s Hstep Hs; cbn [res_fold].
  - by intros [= <-].
  - rewrite bind_Ok. intros (t & Ht & Hf).
    eapply IH; [|eapply Hstep; [constructor|exact Hs|exact Ht]|exact Hf].
    intros y u u' Hy; apply Hstep; by right.
Qed.
Lemma wrap_range w z : 0 <= w -> 0 <= wrap w z < 2 ^ w.
Proof. intros; apply Z.mod_pos_bound; lia. Qed.

Lemma wrap_small w z : 0 <= z < 2 ^ w -> wrap w z = z.
Proof. apply Z.mod_small. Qed.

Lemma u32_small z : 0 <= z < 2 ^ 32 -> u32 z = z.
Proof. apply wrap_small. Qed.

Lemma wrap_wrap w z : 0 <= w -> wrap w (wrap w z) = wrap w z.
Proof. intros; apply wrap_small, wrap_range; done. Qed.

Lemma swrap_small w z : 0 < w -> - 2 ^ (w - 1) <= z < 2 ^ (w - 1) -> swrap w z = z.
Proof.
  intros Hw Hz; unfold swrap.
  assert (2 ^ w = 2 * 2 ^ (w - 1)) as ->.
  { rewrite <- Z.pow_succ_r by lia. f_equal; lia. }
  rewrite Z.mod_small by lia; lia.
Qed.

#[export] Hint Resolve wrap_range wrap_small swrap_small : artery.

(** ** Lists *)
Lemma filter_ext_in {A} (P Q : A -> Prop) `{!forall x, Decision (P x), !forall x, Decision (Q x)}
    (l : list A) :
  (forall x, x ∈ l -> P x <-> Q x) -> filter P l = filter Q l.
Proof.
  induction l as [|x l IH]; intros Hin; [done|]. rewrite !filter_cons.
  rewrite IH by (intros; apply Hin; by right).
  destruct (decide (P x)) as [Hp|Hp], (decide (Q x)) as [Hq|Hq]; try done;
    exfalso; pose proof (Hin x (list_elem_of_here _ _)); tauto.
Qed.

Lemma filter_all {A} (P : A -> Prop) `{!forall x, Decision (P x)} (l : list A) :
  (forall x, x ∈ l -> P x) -> filter P l = l.
Proof.
  induction l as [|x l IH]; intros Hin; [done|].
  rewrite filter_cons_True by (apply Hin; left). f_equal. apply IH. intros; apply Hin; by right.
Qed.

(** A function without repeated values on a list is injective there. *)
Lemma NoDup_fmap_filter {A B} (f : A -> B) (P : A -> Prop) `{forall x, Decision (P x)} l :
  NoDup (f <$> l) -> NoDup (f <$> filter P l).
Proof.
  induction l as [|x l IH]; [done|]. cbn [fmap list_fmap]. intros [Hx Hl]%NoDup_cons.
  destruct (decide (P x)) as [HP|HP]; [rewrite filter_cons_True by done|
    rewrite filter_cons_False by done; by apply IH].
  cbn. apply NoDup_cons; split; [|by apply IH]. intros (y & Hy & Hin)%list_elem_of_fmap.
  apply list_elem_of_filter in Hin as [_ Hin]. apply Hx, list_elem_of_fmap; eauto.
Qed.

Lemma NoDup_fmap_inj_in {A B} (f : A -> B) (l : list A) x y :
  NoDup (f <$> l) -> x ∈ l -> y ∈ l -> f x = f y -> x = y.
Proof.
  induction l as [|z l IH]; cbn; intros Hnd Hx Hy Hf; [by apply not_elem_of_nil in Hx|].
  inversion_clear Hnd as [|? ? Hz Hnd'].
  apply elem_of_cons in Hx as [->|Hx], Hy as [->|Hy]; auto.
  - exfalso. apply Hz. rewrite Hf. by apply list_elem_of_fmap_2.
  - exfalso. apply Hz. rewrite <- Hf. by apply list_elem_of_fmap_2.
Qed.
