(* ===== verification/OMap.v ===== *)
(** * Ordered associative containers

    [std::map], [std::set] and the ordered indices of a Boost multi-index
    container iterate in key order, and the framework relies on it (the
    storyboard tests its vehicles in the order of their names, the subscription
    manager merges sorted variable lists).  A map is an association list whose
    keys are strictly increasing ([om_wf]); every operation keeps it so, and the
    lookup lemmas are those of a finite map. *)

From Stdlib Require OrdersEx.
From S2P Require Import Prelude.

(** ** Key order: the promise a key type makes to the containers *)
Class KeyOrder (K : Type) := key_ltb : K -> K -> bool.

Class KeyOrderLaws (K : Type) `{!KeyOrder K, !EqDecision K} : Prop := {
  key_ltb_irrefl : forall x : K, key_ltb x x = false;
  key_ltb_trans : forall x y z : K,
    key_ltb x y = true -> key_ltb y z = true -> key_ltb x z = true;
  key_ltb_total : forall x y : K,
    key_ltb x y = true \/ x = y \/ key_ltb y x = true
}.

Lemma key_ltb_ne {K} `{KeyOrderLaws K} (k k' : K) : key_ltb k k' = true -> k <> k'.
Proof. intros Hlt ->. by rewrite key_ltb_irrefl in Hlt. Qed.

#[export] Instance Z_key_order : KeyOrder Z := Z.ltb.
#[export] Instance nat_key_order : KeyOrder nat := Nat.ltb.
#[export] Instance string_key_order : KeyOrder string := String.ltb.
#[export] Instance pair_key_order {A B} `{!EqDecision A, !KeyOrder A, !KeyOrder B} :
  KeyOrder (A * B) := fun x y =>
  if decide (x.1 = y.1) then key_ltb x.2 y.2 else key_ltb x.1 y.1.

#[export] Instance Z_key_order_laws : KeyOrderLaws Z.
Proof. split; unfold key_ltb, Z_key_order; intros; zcases; try done; lia. Qed.
#[export] Instance nat_key_order_laws : KeyOrderLaws nat.
Proof.
  split; unfold key_ltb, nat_key_order; intros *; rewrite ?Nat.ltb_lt, ?Nat.ltb_ge; lia.
Qed.

#[export] Instance string_key_order_laws : KeyOrderLaws string.
Proof.
  split; unfold key_ltb, string_key_order, String.ltb; intros *.
  - destruct (String.compare x x) eqn:E; try done.
    by destruct (StrictOrder_Irreflexive (R := OrdersEx.String_as_OT.lt) x).
  - destruct (String.compare x y) eqn:E1, (String.compare y z) eqn:E2; try done.
    intros _ _. pose proof (StrictOrder_Transitive (R := OrdersEx.String_as_OT.lt) x y z E1 E2) as Hxz.
    change (String.compare x z = Lt) in Hxz. by rewrite Hxz.
  - rewrite (String.compare_antisym y x).
    destruct (String.compare x y) eqn:E; cbn; eauto using String.compare_eq_iff.
Qed.
Lemma pair_key_ltb {A B} `{!EqDecision A, !KeyOrder A, !KeyOrder B} (a1 a2 : A) (b1 b2 : B) :
  key_ltb (a1, b1) (a2, b2) = if decide (a1 = a2) then key_ltb b1 b2 else key_ltb a1 a2.
Proof. done. Qed.

#[export] Instance pair_key_order_laws {A B} `{KeyOrderLaws A, KeyOrderLaws B} :
  KeyOrderLaws (A * B).
Proof.
  split.
  - intros [a b]. rewrite pair_key_ltb, decide_True by done. apply key_ltb_irrefl.
  - intros [a1 b1] [a2 b2] [a3 b3]. rewrite !pair_key_ltb.
    destruct (decide (a1 = a2)) as [->|N1], (decide (a2 = a3)) as [->|N2]; intros Hl Hr.
    + eapply key_ltb_trans; eassumption.
    + done.
    + by rewrite decide_False.
    + pose proof (key_ltb_trans _ _ _ Hl Hr) as Ht.
      rewrite decide_False; [done|]. by apply key_ltb_ne.
  - intros [a1 b1] [a2 b2]. rewrite !pair_key_ltb.
    destruct (decide (a1 = a2)) as [->|Hne].
    + rewrite (decide_True _ _ (eq_refl a2)).
      destruct (key_ltb_total b1 b2) as [|[->|]]; auto.
    + rewrite decide_False by congruence.
      destruct (key_ltb_total a1 a2) as [|[|]]; auto; congruence.
Qed.

Section Operations.
Context {K V : Type} `{!EqDecision K, !KeyOrder K}.

(** [find] *)
Fixpoint om_find (k : K) (m : list (K * V)) : option V :=
  match m with
  | [] => None
  | (k', v) :: m' => if decide (k = k') then Some v else om_find k m'
  end.

(** [m[k] = v]: insert, or overwrite the mapped value. *)
Fixpoint om_set (k : K) (v : V) (m : list (K * V)) : list (K * V) :=
  match m with
  | [] => [(k, v)]
  | (k', v') :: m' =>
      if decide (k = k') then (k, v) :: m'
      else if key_ltb k k' then (k, v) :: m
      else (k', v') :: om_set k v m'
  end.

(** [emplace]/[insert]: no effect when the key is present. *)
Definition om_emplace (k : K) (v : V) (m : list (K * V)) : list (K * V) :=
  match om_find k m with Some _ => m | None => om_set k v m end.

(** [erase(key)] *)
Definition om_erase (k : K) (m : list (K * V)) : list (K * V) :=
  filter (fun p => p.1 <> k) m.

Definition om_keys (m : list (K * V)) : list K := m.*1.

Definition om_wf (m : list (K * V)) : Prop :=
  StronglySorted (fun x y => key_ltb x y = true) (om_keys m).
End Operations.

Section SetOperations.
Context {K : Type} `{!EqDecision K, !KeyOrder K}.

(** [std::set<K>::insert] *)
Fixpoint os_insert (k : K) (s : list K) : list K :=
  match s with
  | [] => [k]
  | k' :: s' =>
      if decide (k = k') then s
      else if key_ltb k k' then k :: s
      else k' :: os_insert k s'
  end.

Definition os_wf (s : list K) : Prop :=
  StronglySorted (fun x y => key_ltb x y = true) s.
End SetOperations.

(** ** Laws of the map *)
Section Laws.
Context {K V : Type} `{!EqDecision K, !KeyOrder K, !KeyOrderLaws K}.
Implicit Types (m : list (K * V)) (k : K) (v : V).

Lemma om_find_set_eq k v m : om_find k (om_set k v m) = Some v.
Proof.
  induction m as [|[k' v'] m IH]; cbn; [by rewrite decide_True|].
  destruct (decide (k = k')); cbn; [by rewrite decide_True|].
  destruct (key_ltb k k'); cbn; [by rewrite decide_True|].
  by rewrite decide_False.
Qed.

Lemma om_find_set_ne k k' v m : k <> k' -> om_find k (om_set k' v m) = om_find k m.
Proof.
  intros Hne. induction m as [|[k0 v0] m IH]; cbn; [by rewrite decide_False|].
  destruct (decide (k' = k0)) as [->|]; cbn; [by rewrite !decide_False|].
  destruct (key_ltb k' k0); cbn; [by rewrite (decide_False (P := k = k'))|].
  by rewrite IH.
Qed.

Lemma om_find_set k k' v m :
  om_find k (om_set k' v m) = if decide (k = k') then Some v else om_find k m.
Proof.
  case_decide as H; [subst; apply om_find_set_eq | by apply om_find_set_ne].
Qed.

Lemma om_find_erase_eq k m : om_find k (om_erase k m) = None.
Proof.
  unfold om_erase. induction m as [|[k' v'] m IH]; [done|].
  rewrite filter_cons. case_decide as H; cbn in H; [cbn [om_find]|done].
  rewrite decide_False; [done|]. naive_solver.
Qed.

Lemma om_find_erase_ne k k' m : k <> k' -> om_find k (om_erase k' m) = om_find k m.
Proof.
  unfold om_erase. intros Hne. induction m as [|[k0 v0] m IH]; [done|].
  rewrite filter_cons. case_decide as H; cbn in H; cbn [om_find]; [by rewrite IH|].
  rewrite decide_False; [done|]. destruct (decide (k0 = k')); congruence.
Qed.

Lemma om_find_erase k k' m :
  om_find k (om_erase k' m) = if decide (k = k') then None else om_find k m.
Proof.
  case_decide; [subst; apply om_find_erase_eq | by apply om_find_erase_ne].
Qed.

Lemma om_find_elem k v m : om_find k m = Some v -> (k, v) ∈ m.
Proof.
  induction m as [|[k' v'] m IH]; cbn; [done|].
  case_decide as H; [intros [= ->]; subst; left | intros; right; auto].
Qed.

Lemma om_find_None k m : om_find k m = None <-> k ∉ om_keys m.
Proof.
  unfold om_keys. induction m as [|[k' v'] m IH]; cbn; [set_solver|].
  case_decide as H; set_solver.
Qed.

Lemma om_find_is_Some k m : is_Some (om_find k m) <-> k ∈ om_keys m.
Proof.
  rewrite <- not_eq_None_Some, om_find_None. split; [apply dec_stable|naive_solver].
Qed.

Lemma om_keys_set k k' v m : k ∈ om_keys (om_set k' v m) <-> k = k' \/ k ∈ om_keys m.
Proof.
  rewrite <- !om_find_is_Some, om_find_set. case_decide; naive_solver.
Qed.

Lemma om_keys_erase k k' m : k ∈ om_keys (om_erase k' m) <-> k <> k' /\ k ∈ om_keys m.
Proof.
  rewrite <- !om_find_is_Some, om_find_erase.
  case_decide; [rewrite is_Some_alt|]; naive_solver.
Qed.

Lemma om_wf_nil : om_wf (@nil (K * V)).
Proof. constructor. Qed.

Lemma om_wf_cons k v m :
  om_wf ((k, v) :: m) <-> (forall k', k' ∈ om_keys m -> key_ltb k k' = true) /\ om_wf m.
Proof.
  unfold om_wf; cbn. split.
  - inversion 1; subst. rewrite Forall_forall in *. auto.
  - intros []. constructor; [done|]. by apply Forall_forall.
Qed.

Lemma om_wf_set k v m : om_wf m -> om_wf (om_set k v m).
Proof.
  induction m as [|[k0 v0] m IH]; cbn; [intros; repeat constructor|].
  rewrite om_wf_cons. intros [Hlt Hwf].
  destruct (decide (k = k0)) as [->|Hne]; [by apply om_wf_cons|].
  destruct (key_ltb k k0) eqn:Hk.
  - apply om_wf_cons. split; [|by apply om_wf_cons].
    cbn. intros k' [->|Hin]%elem_of_cons; [done|]. eauto using key_ltb_trans.
  - apply om_wf_cons. split; [|auto].
    intros k' [->|Hin]%om_keys_set; [|auto].
    destruct (key_ltb_total k k0) as [|[|]]; congruence.
Qed.

Lemma om_wf_filter (P : K * V -> Prop) `{!forall x, Decision (P x)} m :
  om_wf m -> om_wf (filter P m).
Proof.
  induction m as [|[k v] m IH]; [done|]. rewrite om_wf_cons. intros [Hlt Hwf].
  rewrite filter_cons. case_decide; [|auto].
  apply om_wf_cons; split; [|auto]. intros k' Hk'. apply Hlt.
  unfold om_keys in *. apply list_elem_of_fmap in Hk' as (x & -> & Hx).
  apply list_elem_of_filter in Hx as [_ Hx]. apply list_elem_of_fmap. eauto.
Qed.

Lemma om_wf_erase k m : om_wf m -> om_wf (om_erase k m).
Proof. apply om_wf_filter. Qed.

Lemma om_wf_emplace k v m : om_wf m -> om_wf (om_emplace k v m).
Proof. unfold om_emplace. destruct (om_find k m); [done|apply om_wf_set]. Qed.

Lemma om_wf_NoDup m : om_wf m -> NoDup (om_keys m).
Proof.
  induction m as [|[k v] m IH]; [constructor|]. rewrite om_wf_cons. intros [Hlt Hwf].
  constructor; [|by apply IH]. intros Hin%Hlt. by rewrite key_ltb_irrefl in Hin.
Qed.

(** Inserting behind all keys; a map from its items in order. *)
Lemma om_set_last k v m : (forall k', k' ∈ om_keys m -> key_ltb k' k = true) -> om_set k v m = m ++ [(k, v)].
Proof.
  induction m as [|[k0 v0] m IH]; intros Hlt; [done|]. cbn [om_set app].
  assert (key_ltb k0 k = true) as H0 by (apply Hlt; cbn; set_solver).
  rewrite decide_False by (intros ->; by rewrite key_ltb_irrefl in H0).
  destruct (key_ltb k k0) eqn:Hk.
  - pose proof (key_ltb_trans _ _ _ H0 Hk) as H. by rewrite key_ltb_irrefl in H.
  - rewrite IH; [done|]. intros k' Hin. apply Hlt. cbn. set_solver.
Qed.
Lemma om_of_list m : om_wf m -> foldl (fun m p => om_set p.1 p.2 m) [] m = m.
Proof.
  enough (forall acc, om_wf (acc ++ m) -> foldl (fun m p => om_set p.1 p.2 m) acc m = acc ++ m) as H
    by apply (H []).
  induction m as [|[k v] m IH]; intros acc Hwf; [by rewrite app_nil_r|]. cbn [foldl fst snd].
  rewrite om_set_last.
  - rewrite IH; rewrite <- app_assoc; done.
  - intros k' Hin. unfold om_wf, om_keys in *. rewrite fmap_app in Hwf. cbn in Hwf.
    clear IH. induction acc as [|[k0 v0] acc IHa]; [set_solver|]. cbn in *.
    apply StronglySorted_inv in Hwf as [Hwf Hall]. apply elem_of_cons in Hin as [->|Hin]; [|by apply IHa].
    apply Forall_app in Hall as [_ Hall]. by apply Forall_cons in Hall as [? _].
Qed.

Lemma om_wf_find k v m : om_wf m -> om_find k m = Some v <-> (k, v) ∈ m.
Proof.
  intros Hwf. split; [apply om_find_elem|].
  induction m as [|[k0 v0] m IH]; [by intros ?%elem_of_nil|].
  apply om_wf_cons in Hwf as [Hlt Hwf]. cbn.
  intros [[= -> ->]|Hin]%elem_of_cons; [by rewrite decide_True|].
  rewrite decide_False; [auto|]. intros ->.
  assert (key_ltb k0 k0 = true) as H; [|by rewrite key_ltb_irrefl in H].
  apply Hlt. apply list_elem_of_fmap. by exists (k0, v).
Qed.

(** Looking up in a filtered map: the entry is kept when the predicate holds. *)
Lemma om_find_filter (P : K * V -> Prop) `{!forall x, Decision (P x)} k m :
  om_wf m ->
  om_find k (filter P m) =
    match om_find k m with
    | Some v => if decide (P (k, v)) then Some v else None
    | None => None
    end.
Proof.
  intros Hwf. destruct (om_find k (filter P m)) as [v|] eqn:Hf.
  - apply om_wf_find in Hf; [|by apply om_wf_filter].
    apply list_elem_of_filter in Hf as [HP Hin].
    apply om_wf_find in Hin; [|done]. rewrite Hin. by rewrite decide_True.
  - destruct (om_find k m) as [v|] eqn:Hm; [|done].
    case_decide as HP; [|done]. exfalso.
    apply om_find_elem in Hm. apply om_find_None in Hf. apply Hf.
    apply list_elem_of_fmap. exists (k, v). split; [done|].
    by apply list_elem_of_filter.
Qed.

Lemma om_erase_absent k m : om_find k m = None -> om_erase k m = m.
Proof.
  intros Hk%om_find_None. unfold om_erase, om_keys in *.
  induction m as [|[k' v] m IH]; [done|]. cbn in Hk. rewrite filter_cons_True; [|set_solver].
  f_equal. apply IH. set_solver.
Qed.
End Laws.

Section SetLaws.
Context {K : Type} `{!EqDecision K, !KeyOrder K, !KeyOrderLaws K}.
Implicit Types (s : list K) (k : K).

Lemma elem_of_os_insert k k' s : k ∈ os_insert k' s <-> k = k' \/ k ∈ s.
Proof.
  induction s as [|k0 s IH]; cbn; [set_solver|].
  destruct (decide (k' = k0)) as [->|]; [set_solver|].
  destruct (key_ltb k' k0); set_solver.
Qed.

Lemma os_wf_insert k s : os_wf s -> os_wf (os_insert k s).
Proof.
  unfold os_wf. induction s as [|k0 s IH]; cbn; [intros; repeat constructor|].
  inversion 1 as [|? ? Hwf Hlt]; subst.
  destruct (decide (k = k0)) as [->|Hne]; [done|].
  destruct (key_ltb k k0) eqn:Hk.
  - constructor; [done|]. constructor; [done|].
    eapply Forall_impl; [exact Hlt|]. eauto using key_ltb_trans.
  - constructor; [auto|]. apply Forall_forall. intros k' [->|Hin]%elem_of_os_insert.
    + destruct (key_ltb_total k k0) as [|[|]]; congruence.
    + by eapply Forall_forall in Hlt.
Qed.

Lemma os_wf_NoDup s : os_wf s -> NoDup s.
Proof.
  induction 1 as [|k s Hwf IH Hlt]; [constructor|]. constructor; [|done].
  intros Hin. eapply Forall_forall in Hlt; [|exact Hin]. cbn in Hlt.
  by rewrite key_ltb_irrefl in Hlt.
Qed.
End SetLaws.

#[export] Hint Resolve om_wf_nil om_wf_set om_wf_erase om_wf_emplace om_wf_filter
  os_wf_insert : artery.
