(* ===== verification/Timer.v ===== *)
(** * Timer: simulation time and TAI

    [src/src/artery/application/Timer.{h,cc}] and [utility/simtime_cast.h].  A
    [vanetza::Clock::time_point] is a signed 64-bit count of microseconds since
    2004-01-01 (the TAI epoch of ITS); the timer adds a time base to the
    simulation clock.  Received CAMs carry only the low 16 bits of the
    millisecond count, from which [reconstructMilliseconds] recovers the full
    value closest to the current time. *)

From S2P Require Import Prelude.

Abbreviation time_point := Z (only parsing).

Record Timer := mkTimer { mTimebase : time_point }.

(** [setTimebase]: [tb] is the parsed date, in microseconds since the epoch
    (parsing is Boost.DateTime's). *)
Definition setTimebase (tb : time_point) : Timer := mkTimer tb.

Definition getTimeFor (t : Timer) (st : simtime) : time_point :=
  mTimebase t + inUnit_US st.

Definition getCurrentTime (t : Timer) (now : simtime) : time_point := getTimeFor t now.

Definition getSimTimeFor (t : Timer) (tai : time_point) : simtime :=
  let diff := tai - mTimebase t in
  if diff <? 0 then 0 else SIMTIME_US diff.

(** [duration_cast<milliseconds>] truncates; the count is returned as [uint64_t]. *)
Definition countTaiMilliseconds (tp : time_point) : Z := u64 (Z.quot tp 1000).

Definition milliseconds_tp (ms : Z) : time_point := ms * 1000.

(** The body of [reconstructMilliseconds] after reading the clock; [uint64_t]
    arithmetic wraps, and the two assertions check the distance. *)
Definition reconstruct_from (tai_now ms16 : Z) : res Z :=
  let tai_now_msb := Z.land tai_now (u64 (- 65536)) in
  let tai_rec := Z.lor tai_now_msb ms16 in
  if u64 (tai_rec + 0x7fff) <? tai_now then
    let tai_rec := u64 (tai_rec + 0x10000) in
    _ ← assert_ "tai_rec - tai_now <= 0x7fff" (u64 (tai_rec - tai_now) <=? 0x7fff);
    Ok tai_rec
  else if u64 (tai_now + 0x7fff) <? tai_rec then
    let tai_rec := u64 (tai_rec - 0x10000) in
    _ ← assert_ "tai_now - tai_rec <= 0x7fff" (u64 (tai_now - tai_rec) <=? 0x7fff);
    Ok tai_rec
  else Ok tai_rec.

Definition reconstructMilliseconds (t : Timer) (now : simtime) (ms16 : Z) : res time_point :=
  tai_rec ← reconstruct_from (countTaiMilliseconds (getCurrentTime t now)) ms16;
  Ok (milliseconds_tp tai_rec).

(** [simtime_unit] names the unit of a duration's period.  The simulation clock
    counts picoseconds: a count of femtoseconds is rounded by OMNeT++, whose
    rounding is the parameter [round_fs]; every coarser unit is exact. *)
Inductive chrono_period := seconds | milli | micro | nano | pico | femto.
Inductive SimTimeUnit := UNIT_S | UNIT_MS | UNIT_US | UNIT_NS | UNIT_PS | UNIT_FS.
Definition simtime_unit (p : chrono_period) : SimTimeUnit :=
  match p with
  | seconds => UNIT_S | milli => UNIT_MS | micro => UNIT_US
  | nano => UNIT_NS | pico => UNIT_PS | femto => UNIT_FS
  end.
Definition simtime_of (round_fs : Z -> simtime) (count : Z) (u : SimTimeUnit) : simtime :=
  match u with
  | UNIT_S => SIMTIME_S count | UNIT_MS => SIMTIME_MS count | UNIT_US => SIMTIME_US count
  | UNIT_NS => count * 10 ^ 3 | UNIT_PS => count | UNIT_FS => round_fs count
  end.
Definition simtime_cast (round_fs : Z -> simtime) (count : Z) (p : chrono_period) : simtime :=
  simtime_of round_fs count (simtime_unit p).

(** ** Bits *)
Lemma testbit_above w x n : 0 <= x < 2 ^ w -> 0 <= w <= n -> Z.testbit x n = false.
Proof.
  intros Hx Hn. rewrite <- (Z.mod_small x (2 ^ w)) by done.
  apply Z.mod_pow2_bits_high; lia.
Qed.

Lemma land_msb x : 0 <= x < 2 ^ 64 -> Z.land x (u64 (- 65536)) = x - x `mod` 2 ^ 16.
Proof.
  intros Hx. assert (x - x `mod` 2 ^ 16 = Z.shiftl (Z.shiftr x 16) 16) as ->.
  { rewrite Z.shiftl_mul_pow2, Z.shiftr_div_pow2 by lia.
    pose proof (Z.div_mod x (2 ^ 16)); lia. }
  change (-65536) with (Z.shiftl (-1) 16).
  apply Z.bits_inj'; intros n Hn. unfold u64, wrap.
  rewrite Z.land_spec, Z.testbit_mod_pow2, !Z.shiftl_spec by lia.
  destruct (Z.ltb_spec n 64); cbn.
  - destruct (Z.lt_ge_cases n 16).
    + by rewrite !(Z.testbit_neg_r _ (n - 16)), andb_false_r by lia.
    + rewrite Z.bits_m1, Z.shiftr_spec, andb_true_r by lia. f_equal; lia.
  - rewrite andb_false_r, Z.shiftr_spec by lia. symmetry.
    apply (testbit_above 64); lia.
Qed.

Lemma lor_low w m y : 0 <= w -> 0 <= y < 2 ^ w -> Z.lor (m * 2 ^ w) y = m * 2 ^ w + y.
Proof.
  intros Hw Hy. assert (Z.land (m * 2 ^ w) y = 0) as H0.
  { rewrite <- Z.shiftl_mul_pow2 by lia. apply Z.bits_inj'; intros n Hn.
    rewrite Z.land_spec, Z.shiftl_spec, Z.bits_0 by lia.
    destruct (Z.lt_ge_cases n w).
    - by rewrite Z.testbit_neg_r by lia.
    - by rewrite (testbit_above w y) by lia; rewrite andb_false_r. }
  pose proof (Z.add_lor_land (m * 2 ^ w) y). lia.
Qed.

(** The candidate the code starts from: the current upper 48 bits with the
    received lower 16. *)
Lemma tai_rec_value now ms :
  0 <= now < 2 ^ 64 -> 0 <= ms < 2 ^ 16 ->
  Z.lor (Z.land now (u64 (- 65536))) ms = now - now `mod` 2 ^ 16 + ms.
Proof.
  intros Hnow Hms. rewrite land_msb by done.
  assert (now - now `mod` 2 ^ 16 = now / 2 ^ 16 * 2 ^ 16) as ->.
  { pose proof (Z.div_mod now (2 ^ 16)); lia. }
  by apply (lor_low 16).
Qed.

(** Wrap-around of 64-bit arithmetic, for values in range. *)
Lemma u64_small z : 0 <= z < 2 ^ 64 -> u64 z = z.
Proof. apply wrap_small. Qed.
#[export] Hint Resolve u64_small : artery.

Ltac u64_small := repeat rewrite (u64_small (_ + _)) by lia;
  repeat rewrite (u64_small (_ - _)) by lia.

(** Reconstruction of a truncated millisecond time stamp
    ([Timer::reconstructMilliseconds]): for every current time of at least one
    16-bit period after the epoch, and every received 16-bit value, either the
    function returns the unique time stamp that agrees with the received value
    modulo 2^16 and is at most 32767 ms away from the current time, or the
    received value is exactly half a period (32768 ms) away and the function's
    own assertion fails. *)
Theorem reconstruct_closest now ms :
  2 ^ 16 <= now < 2 ^ 63 -> 0 <= ms < 2 ^ 16 ->
  match reconstruct_from now ms with
  | Ok t => t `mod` 2 ^ 16 = ms /\ Z.abs (t - now) <= 0x7fff
  | Fail f => (now - ms) `mod` 2 ^ 16 = 0x8000 /\ exists w, f = AssertFailed w
  end.
Proof.
  intros Hnow Hms. unfold reconstruct_from. rewrite tai_rec_value by lia.
  pose proof (Z.div_mod now (2 ^ 16)) as Hdm.
  pose proof (Z.mod_pos_bound now (2 ^ 16)) as Hb.
  set (q := now / 2 ^ 16) in *. set (r := now `mod` 2 ^ 16) in *.
  assert (1 <= q) by (subst q; apply Z.div_le_lower_bound; lia).
  replace (now - r + ms) with (q * 2 ^ 16 + ms) by lia.
  u64_small. destruct (Z.ltb_spec (q * 2 ^ 16 + ms + 0x7fff) now);
    [|destruct (Z.ltb_spec (now + 0x7fff) (q * 2 ^ 16 + ms))].
  - u64_small. zcases; cbn.
    + split; [|lia]. symmetry. apply Z.mod_unique with (q + 1); lia.
    + split; [|eauto]. symmetry. apply Z.mod_unique with q; lia.
  - u64_small. zcases; cbn.
    + split; [|lia]. symmetry. apply Z.mod_unique with (q - 1); lia.
    + split; [|eauto]. symmetry. apply Z.mod_unique with (q - 1); lia.
  - split; [|lia]. symmetry. apply Z.mod_unique with q; lia.
Qed.

Theorem reconstruct_closest_witness :
  2 ^ 16 <= 500000000000 < 2 ^ 63 /\ 0 <= 0x7123 < 2 ^ 16 /\
  match reconstruct_from 500000000000 0x7123 with
  | Ok t => t `mod` 2 ^ 16 = 0x7123 /\ Z.abs (t - 500000000000) <= 0x7fff
  | Fail f => (500000000000 - 0x7123) `mod` 2 ^ 16 = 0x8000 /\ exists w, f = AssertFailed w
  end.
Proof. split; [lia|split; [lia|]]. apply (reconstruct_closest 500000000000 0x7123); lia. Defined.

(** Everything the reconstruction can return lies within the window. *)
Lemma reconstruct_unique now t :
  2 ^ 16 <= now < 2 ^ 63 -> Z.abs (t - now) <= 0x7fff ->
  reconstruct_from now (u16 t) = Ok t.
Proof.
  intros Hnow Ht. unfold u16, wrap, reconstruct_from.
  pose proof (Z.mod_pos_bound t (2 ^ 16)) as Hbt. rewrite tai_rec_value by lia.
  pose proof (Z.div_mod now (2 ^ 16)) as Hdm. pose proof (Z.div_mod t (2 ^ 16)) as Hdt.
  pose proof (Z.mod_pos_bound now (2 ^ 16)) as Hb.
  assert (1 <= now / 2 ^ 16) by (apply Z.div_le_lower_bound; lia).
  u64_small.
  destruct (Z.ltb_spec (now - now `mod` 2 ^ 16 + t `mod` 2 ^ 16 + 0x7fff) now);
    [|destruct (Z.ltb_spec (now + 0x7fff) (now - now `mod` 2 ^ 16 + t `mod` 2 ^ 16))].
  - u64_small. zcases; cbn; [f_equal|]; lia.
  - u64_small. zcases; cbn; [f_equal|]; lia.
  - f_equal. lia.
Qed.

Lemma getSimTimeFor_getTimeFor t us :
  0 <= us -> getSimTimeFor t (getTimeFor t (SIMTIME_US us)) = SIMTIME_US us.
Proof.
  intros Hus. unfold getSimTimeFor, getTimeFor, inUnit_US, SIMTIME_US.
  rewrite Z.quot_mul by lia. zcases; lia.
Qed.

(** [C6] The time stamp round trip between two stations that share a time base:
    a station stamps a message with the low 16 bits of its millisecond count
    ([CaService::sendCam]); a station receiving it within +-32767 ms (and not
    within the first 66 s after the epoch) reconstructs exactly the generation
    time, rounded down to the millisecond. *)
Theorem timestamp_roundtrip (t : Timer) (gen now : simtime) :
  let g := countTaiMilliseconds (getTimeFor t gen) in
  let n := countTaiMilliseconds (getCurrentTime t now) in
  2 ^ 16 <= n < 2 ^ 63 -> Z.abs (g - n) <= 0x7fff ->
  reconstructMilliseconds t now (u16 g) = Ok (milliseconds_tp g).
Proof.
  intros g n Hn Hg. unfold reconstructMilliseconds. fold n.
  by rewrite (reconstruct_unique n g).
Qed.

Theorem timestamp_roundtrip_witness :
  reconstructMilliseconds (mkTimer (300 * 10 ^ 12)) (SIMTIME_MS 12345)
    (u16 (countTaiMilliseconds (getTimeFor (mkTimer (300 * 10 ^ 12)) (SIMTIME_MS 12299))))
  = Ok (milliseconds_tp 300000012299).
Proof.
  apply (timestamp_roundtrip (mkTimer (300 * 10 ^ 12)) (SIMTIME_MS 12299) (SIMTIME_MS 12345));
    vm_compute; repeat split; congruence.
Defined.
