(* ===== verification/Float64.v ===== *)
(** * Binary64 floating point

    The framework computes speeds, headings and positions in [double].  They are
    modelled as IEEE 754 binary64 numbers with the executable specification of
    the standard library ([SpecFloat], 53 bits of precision, round to nearest
    even), so that comparisons with NaN, signed zeros and rounding behave as in
    the program. *)

From Stdlib Require Export SpecFloat.
From S2P Require Import Prelude.

Abbreviation double := spec_float (only parsing).

Definition dprec : Z := 53.
Definition demax : Z := 1024.
Definition dadd (x y : double) : double := SFadd dprec demax x y.
Definition dsub (x y : double) : double := SFsub dprec demax x y.
Definition dmul (x y : double) : double := SFmul dprec demax x y.
Definition ddiv (x y : double) : double := SFdiv dprec demax x y.
Definition d_sqrt (x : double) : double := SFsqrt dprec demax x.
Definition dopp (x : double) : double := SFopp x.
Definition dabs (x : double) : double := SFabs x.
Definition dltb (x y : double) : bool := SFltb x y.
Definition dleb (x y : double) : bool := SFleb x y.
Definition deqb (x y : double) : bool := SFeqb x y.

(** An integer literal or a converted integer, rounded to nearest. *)
Definition d_of_Z (z : Z) : double := binary_normalize dprec demax z 0 false.
(** The literal [n / 10^k] (both exactly representable, so this is the correctly
    rounded decimal). *)
Definition d_lit (n : Z) (den : Z) : double := ddiv (d_of_Z n) (d_of_Z den).
Definition d_zero : double := S754_zero false.
Definition d_inf : double := S754_infinity false.
Definition d_neg_inf : double := S754_infinity true.
Definition d_nan : double := S754_nan.
(** [boost::math::constants::pi<double>()], [M_PI]: 0x1.921fb54442d18p+1. *)
Definition d_pi : double := S754_finite false 7074237752028440 (-51).

Definition d_is_nan (x : double) : bool :=
  match x with S754_nan => true | _ => false end.

(** Magnitude [m * 2^e] truncated, rounded up, and rounded half away from zero. *)
Definition mag_trunc (m : positive) (e : Z) : Z :=
  if 0 <=? e then Z.pos m * 2 ^ e else Z.pos m / 2 ^ (- e).
Definition mag_ceil (m : positive) (e : Z) : Z :=
  if 0 <=? e then Z.pos m * 2 ^ e else - ((- Z.pos m) / 2 ^ (- e)).
Definition mag_round (m : positive) (e : Z) : Z :=
  if 0 <=? e then Z.pos m * 2 ^ e else (Z.pos m + 2 ^ (- e - 1)) / 2 ^ (- e).

Definition apply_sign (s : bool) (z : Z) : Z := if s then - z else z.

(** [std::floor] and [std::ceil]. *)
Definition d_floor (x : double) : double :=
  match x with
  | S754_finite s m e =>
      if 0 <=? e then x
      else binary_normalize dprec demax
             (apply_sign s (if s then mag_ceil m e else mag_trunc m e)) 0 s
  | _ => x
  end.
Definition d_ceil (x : double) : double :=
  match x with
  | S754_finite s m e =>
      if 0 <=? e then x
      else binary_normalize dprec demax
             (apply_sign s (if s then mag_trunc m e else mag_ceil m e)) 0 s
  | _ => x
  end.

(** Conversion of a [double] to a 64-bit [long]: truncation, undefined when the
    value is out of range. *)
Definition to_long (z : Z) : res Z :=
  if (- 2 ^ 63 <=? z) && (z <? 2 ^ 63) then Ok z
  else Fail (Undefined "double to long: out of range").
Definition d_to_long (x : double) : res Z :=
  match x with
  | S754_zero _ => Ok 0
  | S754_finite s m e => to_long (apply_sign s (mag_trunc m e))
  | _ => Fail (Undefined "double to long: not a finite number")
  end.
(** [long r = std::round(x)]: round half away from zero, then convert. *)
Definition d_round_long (x : double) : res Z :=
  match x with
  | S754_zero _ => Ok 0
  | S754_finite s m e => to_long (apply_sign s (mag_round m e))
  | _ => Fail (Undefined "double to long: not a finite number")
  end.

(** [std::fmod]: the exact remainder, with the sign of the dividend. *)
Definition d_fmod (x y : double) : double :=
  match x, y with
  | S754_nan, _ | _, S754_nan | S754_infinity _, _ | _, S754_zero _ => S754_nan
  | S754_zero _, _ => x
  | _, S754_infinity _ => x
  | S754_finite s mx ex, S754_finite _ my ey =>
      let e := Z.min ex ey in
      let X := Z.pos mx * 2 ^ (ex - e) in
      let Y := Z.pos my * 2 ^ (ey - e) in
      binary_normalize dprec demax (apply_sign s (X `mod` Y)) e s
  end.

(** [std::min(a, b)] and [std::max(a, b)] on doubles. *)
Definition d_min (a b : double) : double := if dltb b a then b else a.
Definition d_max (a b : double) : double := if dltb a b then b else a.

#[export] Instance spec_float_eq_dec : EqDecision spec_float.
Proof. solve_decision. Defined.

Example d_lit_tenth : d_lit 1 10 = S754_finite false 7205759403792794 (-56).
Proof. vm_compute. reflexivity. Qed.
Example d_round_half : d_round_long (d_lit (-5) 2) = Ok (-3).
Proof. vm_compute. reflexivity. Qed.
Example d_floor_neg : d_floor (d_lit (-5) 2) = d_of_Z (-3).
Proof. vm_compute. reflexivity. Qed.
Example d_fmod_75 : d_fmod (d_lit 75 10) (d_of_Z 2) = d_lit 15 10.
Proof. vm_compute. reflexivity. Qed.

(** ** Comparisons *)
Lemma SFcompare_refl x : d_is_nan x = false -> SFcompare x x = Some Eq.
Proof.
  destruct x as [[]|[]| |s m e]; cbn; try done. intros _.
  destruct s; rewrite Z.compare_refl; change (Pos.compare_cont Eq m m) with (Pos.compare m m);
    by rewrite Pos.compare_refl.
Qed.

Lemma dltb_irrefl x : dltb x x = false.
Proof.
  unfold dltb, SFltb. destruct (d_is_nan x) eqn:Hx; [by destruct x|].
  by rewrite SFcompare_refl.
Qed.

Lemma dleb_refl x : d_is_nan x = false -> dleb x x = true.
Proof. intros Hx. unfold dleb, SFleb. by rewrite SFcompare_refl. Qed.

Lemma SFcompare_swap x y :
  SFcompare y x = match SFcompare x y with Some c => Some (CompOpp c) | None => None end.
Proof.
  destruct x as [[]|[]| |[] m e], y as [[]|[]| |[] m' e']; cbn; try done.
  all: rewrite (Z.compare_antisym e e'); destruct (Z.compare e e'); cbn; try done.
  all: change (Pos.compare_cont Eq m' m) with (Pos.compare m' m);
    change (Pos.compare_cont Eq m m') with (Pos.compare m m');
    rewrite (Pos.compare_antisym m m'); by destruct (Pos.compare m m').
Qed.

Lemma SFcompare_None x y : SFcompare x y = None <-> d_is_nan x = true \/ d_is_nan y = true.
Proof.
  destruct x as [[]|[]| |[] m e], y as [[]|[]| |[] m' e']; cbn; try naive_solver.
  all: try (destruct (Z.compare e e'); naive_solver).
Qed.

(** Without NaN, the two comparisons are complementary. *)
Lemma dltb_dleb_false x y :
  d_is_nan x = false -> d_is_nan y = false -> dltb x y = negb (dleb y x).
Proof.
  intros Hx Hy. unfold dltb, dleb, SFltb, SFleb. rewrite (SFcompare_swap x y).
  destruct (SFcompare x y) as [c|] eqn:Hc; [by destruct c|].
  apply SFcompare_None in Hc. destruct Hc; congruence.
Qed.

Lemma dltb_dleb x y : dltb x y = true -> dleb x y = true.
Proof. unfold dltb, dleb, SFltb, SFleb. by destruct (SFcompare x y) as [[]|]. Qed.

Lemma dltb_trans x y z : dltb x y = true -> dltb y z = true -> dltb x z = true.
Proof.
  unfold dltb, SFltb.
  destruct x as [sx|[]| |[] mx ex], y as [sy|[]| |[] my ey], z as [sz|[]| |[] mz ez]; cbn; try done;
    repeat match goal with
    | |- context [Pos.compare_cont Eq ?a ?b] => change (Pos.compare_cont Eq a b) with (Pos.compare a b)
    end;
    destruct (Z.compare_spec ex ey), (Z.compare_spec ey ez), (Z.compare_spec ex ez); try done; try lia;
    destruct (Pos.compare_spec mx my), (Pos.compare_spec my mz), (Pos.compare_spec mx mz);
    cbn; try done; lia.
Qed.

Lemma dle_lt_trans x y z : dleb x y = true -> dltb y z = true -> dltb x z = true.
Proof.
  unfold dleb, dltb, SFleb, SFltb.
  destruct x as [sx|[]| |[] mx ex], y as [sy|[]| |[] my ey], z as [sz|[]| |[] mz ez]; cbn; try done;
    repeat match goal with
    | |- context [Pos.compare_cont Eq ?a ?b] => change (Pos.compare_cont Eq a b) with (Pos.compare a b)
    end;
    destruct (Z.compare_spec ex ey), (Z.compare_spec ey ez), (Z.compare_spec ex ez); try done; try lia;
    destruct (Pos.compare_spec mx my), (Pos.compare_spec my mz), (Pos.compare_spec mx mz);
    cbn; try done; lia.
Qed.

Lemma dltb_not_nan x y : dltb x y = true -> d_is_nan x = false /\ d_is_nan y = false.
Proof. by destruct x as [sx|[]| |[] mx ex], y as [sy|[]| |[] my ey]. Qed.

(** Numbers that are not below a bound are passed by whatever passes the bound. *)
Lemma dltb_false_trans x y z : dltb y x = false -> d_is_nan x = false -> dltb y z = true -> dltb x z = true.
Proof.
  intros H Hx Hz. destruct (dltb_not_nan _ _ Hz) as [Hy _].
  apply (dle_lt_trans _ y); [|done]. rewrite dltb_dleb_false in H by done. by destruct (dleb x y).
Qed.

Lemma dltb_dleb_antisym x y : dltb x y = true -> dleb y x = false.
Proof.
  unfold dltb, dleb, SFltb, SFleb. rewrite (SFcompare_swap x y).
  by destruct (SFcompare x y) as [[]|].
Qed.

Lemma dleb_not_nan x y : dleb x y = true -> d_is_nan x = false /\ d_is_nan y = false.
Proof. by destruct x as [sx|[]| |[] mx ex], y as [sy|[]| |[] my ey]. Qed.
Lemma dltb_false x y : d_is_nan x = false -> d_is_nan y = false -> dltb x y = false -> dleb y x = true.
Proof. intros Hx Hy H. rewrite dltb_dleb_false in H by done. by destruct (dleb y x). Qed.
Lemma dleb_trans x y z : dleb x y = true -> dleb y z = true -> dleb x z = true.
Proof.
  intros Hxy Hyz. destruct (dleb_not_nan _ _ Hxy), (dleb_not_nan _ _ Hyz). apply dltb_false; [done..|].
  apply not_true_iff_false. intros Hzx. pose proof (dltb_dleb_antisym _ _ (dle_lt_trans _ _ _ Hyz Hzx)). congruence.
Qed.
Lemma dlt_le_trans x y z : dltb x y = true -> dleb y z = true -> dltb x z = true.
Proof.
  intros Hxy Hyz. destruct (dltb_not_nan _ _ Hxy), (dleb_not_nan _ _ Hyz). rewrite dltb_dleb_false by done.
  destruct (dleb z x) eqn:Hzx; [|done]. apply dltb_dleb_antisym in Hxy.
  by rewrite (dleb_trans _ _ _ Hyz Hzx) in Hxy.
Qed.

(** ** Sign *)
(** The sign bit is clear (or the value is NaN). *)
Definition d_pos (x : double) : Prop :=
  match x with
  | S754_zero s | S754_infinity s | S754_finite s _ _ => s = false
  | S754_nan => True
  end.

Lemma d_pos_abs x : d_pos (dabs x).
Proof. by destruct x. Qed.

Lemma d_pos_round m e l : d_pos (binary_round_aux dprec demax false m e l).
Proof.
  unfold binary_round_aux. destruct (shr_fexp _ _ _ _ _) as [mrs e'].
  destruct (shr_fexp _ _ _ _ _) as [mrs' e'']. destruct (shr_m mrs'); cbn; try done.
  by destruct (e'' <=? _).
Qed.

Lemma d_pos_of_Z p : d_pos (d_of_Z (Z.pos p)).
Proof.
  unfold d_of_Z, binary_normalize, binary_round. destruct (shl_align _ _ _).
  apply d_pos_round.
Qed.

Lemma d_pos_mul x y : d_pos x -> d_pos y -> d_pos (dmul x y).
Proof.
  unfold dmul. destruct x as [s|s| |s m e], y as [s'|s'| |s' m' e'];
    cbn [d_pos SFmul]; intros; subst; try done.
  apply d_pos_round.
Qed.

Lemma d_to_long_nonneg x v : d_pos x -> d_to_long x = Ok v -> 0 <= v.
Proof.
  destruct x as [s|s| |s m e]; cbn; intros Hp; try done; [by intros [= <-]|].
  subst s. unfold to_long, apply_sign. destruct (_ && _); [|done]. intros [= <-].
  unfold mag_trunc. zcases; [apply Z.mul_nonneg_nonneg; [lia|apply Z.pow_nonneg; lia]|].
  apply Z.div_pos; [lia|]. apply Z.pow_pos_nonneg; lia.
Qed.

(** ** Rounding

    The quotient of two counts is rounded to a number of at most one: what the
    channel-load ratios need. *)
Lemma digits_bounds m : 2 ^ (Z.pos (digits2_pos m) - 1) <= Z.pos m < 2 ^ Z.pos (digits2_pos m).
Proof.
  induction m as [m IH|m IH|]; cbn [digits2_pos]; [| |done];
    rewrite Pos2Z.inj_succ; replace (Z.succ (Z.pos (digits2_pos m)) - 1) with (Z.succ (Z.pos (digits2_pos m) - 1)) by lia;
    rewrite !Z.pow_succ_r by lia; lia.
Qed.

Lemma digits_unique m d : 0 < d -> 2 ^ (d - 1) <= Z.pos m < 2 ^ d -> Z.pos (digits2_pos m) = d.
Proof.
  intros Hd [H1 H2]. pose proof (digits_bounds m) as [H3 H4]. set (k := Z.pos (digits2_pos m)) in *.
  destruct (Z.lt_trichotomy k d) as [Hlt|[?|Hgt]]; [|done|].
  - assert (2 ^ k <= 2 ^ (d - 1)) by (apply Z.pow_le_mono_r; lia). lia.
  - assert (2 ^ d <= 2 ^ (k - 1)) by (apply Z.pow_le_mono_r; lia). lia.
Qed.

(** Exponents at which nothing is subnormal or overflows. *)
Definition e_normal (e : Z) : Prop := -1000 <= e <= 900.

Lemma shr_fexp_53 m e l : 2 ^ 52 <= Z.pos m < 2 ^ 53 -> e_normal e ->
  shr_fexp dprec demax (Z.pos m) e l = (shr_record_of_loc (Z.pos m) l, e).
Proof.
  intros Hm He. unfold shr_fexp. cbn [Zdigits2]. rewrite (digits_unique m 53) by (done || lia).
  unfold fexp, emin, dprec, demax, e_normal in *. replace (Z.max (53 + e - 53) (3 - 1024 - 53) - e) with 0 by lia. done.
Qed.

Lemma shr_fexp_54 m e l : 2 ^ 53 <= Z.pos m < 2 ^ 54 -> e_normal e ->
  shr_fexp dprec demax (Z.pos m) e l = (shr_1 (shr_record_of_loc (Z.pos m) l), e + 1).
Proof.
  intros Hm He. unfold shr_fexp. cbn [Zdigits2]. rewrite (digits_unique m 54) by (done || lia).
  unfold fexp, emin, dprec, demax, e_normal in *. replace (Z.max (54 + e - 53) (3 - 1024 - 53) - e) with 1 by lia. done.
Qed.

Lemma round_nearest_cases m l : round_nearest_even m l = m \/ (round_nearest_even m l = m + 1 /\ l <> loc_Exact).
Proof. destruct l as [|[]]; cbn; auto. destruct (Z.even m); auto; by right. Qed.

Lemma shr_m_of_loc m l : shr_m (shr_record_of_loc m l) = m.
Proof. by destruct l as [|[]]. Qed.
Lemma loc_of_shr_of_loc m l : loc_of_shr_record (shr_record_of_loc m l) = l.
Proof. by destruct l as [|[]]. Qed.

(** The second step of rounding, where the mantissa may have got one bit more. *)
Lemma renormalise m e : 2 ^ 52 <= m <= 2 ^ 53 -> e_normal e ->
  let '(mrs, e') := shr_fexp dprec demax m e loc_Exact in
  (match shr_m mrs with
   | Z0 => S754_zero false
   | Zpos m => if e' <=? demax - dprec then S754_finite false m e' else S754_infinity false
   | _ => S754_nan end) =
  (if m =? 2 ^ 53 then S754_finite false (2 ^ 52) (e + 1) else S754_finite false (Z.to_pos m) e).
Proof.
  intros Hm He. destruct m as [|m|m]; try lia. destruct (Z.eqb_spec (Z.pos m) (2 ^ 53)) as [Heq|Hne].
  - rewrite shr_fexp_54 by (done || lia). assert (m = (2 ^ 53)%positive) as -> by (injection Heq; done).
    cbn. unfold e_normal, demax, dprec in *. by rewrite (proj2 (Z.leb_le _ _)) by lia.
  - rewrite shr_fexp_53 by (done || lia). cbn. unfold e_normal, demax, dprec in *.
    by rewrite (proj2 (Z.leb_le _ _)) by lia.
Qed.

(** A rounded number of at most one: its exponent is small, or it is one. *)
Definition at_most_one (x : double) : Prop :=
  exists m e, x = S754_finite false m e /\ 2 ^ 52 <= Z.pos m < 2 ^ 53 /\ (e <= -53 \/ (e = -52 /\ Z.pos m = 2 ^ 52)).

Lemma round_at_most_one m e l :
  e_normal (e + 1) -> e_normal e ->
  (2 ^ 52 <= Z.pos m < 2 ^ 53 /\ e <= -53) \/
  (2 ^ 53 <= Z.pos m < 2 ^ 54 /\ (e <= -54 \/ (e = -53 /\ Z.pos m = 2 ^ 53 /\ l = loc_Exact))) ->
  at_most_one (binary_round_aux dprec demax false (Z.pos m) e l).
Proof.
  intros He1 He Hm. unfold binary_round_aux. destruct Hm as [[Hm Hle]|[Hm Hle]].
  - rewrite shr_fexp_53 by done. rewrite shr_m_of_loc, loc_of_shr_of_loc.
    set (m' := round_nearest_even (Z.pos m) l). assert (2 ^ 52 <= m' <= 2 ^ 53) as Hm'
      by (destruct (round_nearest_cases (Z.pos m) l) as [?|[? _]]; unfold m'; lia).
    pose proof (renormalise m' e Hm' He) as H. destruct (shr_fexp dprec demax m' e loc_Exact) as [mrs e']. rewrite H.
    destruct (Z.eqb_spec m' (2 ^ 53)) as [Heq|Hne].
    + exists (2 ^ 52)%positive, (e + 1). split; [done|]. split; [lia|]. lia.
    + exists (Z.to_pos m'), e. split; [done|]. rewrite Z2Pos.id by lia. lia.
  - rewrite shr_fexp_54 by done.
    assert (exists l', shr_1 (shr_record_of_loc (Z.pos m) l) = shr_record_of_loc (Z.pos m / 2) l' /\
      (Z.even (Z.pos m) = true -> l = loc_Exact -> l' = loc_Exact)) as (l' & -> & Hl').
    { destruct m as [m|m|]; [| |lia].
      - assert (Z.pos m~1 / 2 = Z.pos m) as -> by (symmetry; apply (Z.div_unique _ _ _ 1); lia).
        destruct l as [|[]]; cbn; [exists (loc_Inexact Eq)|exists (loc_Inexact Gt)|exists (loc_Inexact Gt)|exists (loc_Inexact Gt)]; done.
      - assert (Z.pos m~0 / 2 = Z.pos m) as -> by (symmetry; apply (Z.div_unique _ _ _ 0); lia).
        destruct l as [|[]]; cbn; [exists loc_Exact|exists (loc_Inexact Lt)|exists (loc_Inexact Lt)|exists (loc_Inexact Lt)]; done. }
    rewrite shr_m_of_loc, loc_of_shr_of_loc. set (m' := round_nearest_even (Z.pos m / 2) l').
    assert (2 ^ 52 <= Z.pos m / 2 < 2 ^ 53) as Hh.
    { split; [apply Z.div_le_lower_bound; lia|apply Z.div_lt_upper_bound; lia]. }
    assert (2 ^ 52 <= m' <= 2 ^ 53) as Hm'
      by (destruct (round_nearest_cases (Z.pos m / 2) l') as [?|[? _]]; unfold m'; lia).
    pose proof (renormalise m' (e + 1) Hm' He1) as H. destruct (shr_fexp dprec demax m' (e + 1) loc_Exact) as [mrs e']. rewrite H.
    destruct Hle as [Hle|(-> & Heq & ->)].
    + destruct (Z.eqb_spec m' (2 ^ 53)) as [Heq|Hne].
      * exists (2 ^ 52)%positive, (e + 1 + 1). split; [done|]. split; [lia|]. lia.
      * exists (Z.to_pos m'), (e + 1). split; [done|]. rewrite Z2Pos.id by lia. lia.
    + assert (l' = loc_Exact) as -> by (apply Hl'; [by rewrite Heq|done]).
      assert (m' = 2 ^ 52) as -> by (unfold m'; rewrite Heq; reflexivity). cbn. exists (2 ^ 52)%positive, (-52). split; [done|]. split; [lia|]. by right.
Qed.

Lemma d_of_Z_pos p : Z.pos p < 2 ^ 53 ->
  exists m d, d_of_Z (Z.pos p) = S754_finite false m (d - 53) /\ 1 <= d <= 53 /\ 2 ^ (d - 1) <= Z.pos p < 2 ^ d /\
    Z.pos m = Z.pos p * 2 ^ (53 - d) /\ 2 ^ 52 <= Z.pos m < 2 ^ 53.
Proof.
  intros Hp. set (d := Z.pos (digits2_pos p)). pose proof (digits_bounds p) as Hb. fold d in Hb.
  assert (0 < d) by done. assert (d <= 53).
  { destruct (Z.le_gt_cases d 53); [done|]. assert (2 ^ 53 <= 2 ^ (d - 1)) by (apply Z.pow_le_mono_r; lia). lia. }
  assert (exists mz, shl_align p 0 (d - 53) = (mz, d - 53) /\ Z.pos mz = Z.pos p * 2 ^ (53 - d)) as (mz & Hal & Hmz).
  { unfold shl_align. rewrite Z.sub_0_r. destruct (d - 53) as [|k|k] eqn:E; [|lia|].
    - exists p. split; [done|]. replace (53 - d) with 0 by lia. lia.
    - exists (Pos.iter xO p k). split; [done|]. replace (53 - d) with (Z.pos k) by lia.
      rewrite <- (Pos2Z.inj_pow 2 k), <- Pos2Z.inj_mul. f_equal.
      clear. induction k as [|k IH] using Pos.peano_ind; [cbn; lia|]. rewrite Pos.iter_succ, IH, Pos.pow_succ_r. lia. }
  assert (2 ^ 52 <= Z.pos mz < 2 ^ 53) as Hr.
  { rewrite Hmz. replace (2 ^ 52) with (2 ^ (d - 1) * 2 ^ (53 - d)) by (rewrite <- Z.pow_add_r by lia; f_equal; lia).
    replace (2 ^ 53) with (2 ^ d * 2 ^ (53 - d)) by (rewrite <- Z.pow_add_r by lia; f_equal; lia).
    assert (0 < 2 ^ (53 - d)) by (apply Z.pow_pos_nonneg; lia). nia. }
  exists mz, d. split; [|split_and!; lia]. unfold d_of_Z, binary_normalize, binary_round.
  assert (fexp dprec demax (Z.pos (digits2_pos p) + 0) = d - 53) as ->
    by (unfold fexp, emin, dprec, demax; fold d; lia).
  rewrite Hal. unfold binary_round_aux. assert (e_normal (d - 53)) by (unfold e_normal; lia).
  rewrite shr_fexp_53 by done. cbn [shr_record_of_loc shr_m loc_of_shr_record round_nearest_even].
  pose proof (renormalise (Z.pos mz) (d - 53) ltac:(lia) ltac:(done)) as Hn.
  destruct (shr_fexp dprec demax (Z.pos mz) (d - 53) loc_Exact) as [mrs e']. rewrite Hn.
  by rewrite (proj2 (Z.eqb_neq _ _)) by lia.
Qed.

Lemma d_ratio_at_most_one n k : 0 < n <= k -> k < 2 ^ 40 -> at_most_one (ddiv (d_of_Z n) (d_of_Z k)).
Proof.
  intros Hn Hk. destruct n as [|n|n], k as [|k|k]; try lia.
  destruct (d_of_Z_pos n ltac:(lia)) as (m1 & d1 & -> & Hd1 & Hb1 & Hm1 & Hr1).
  destruct (d_of_Z_pos k ltac:(lia)) as (m2 & d2 & -> & Hd2 & Hb2 & Hm2 & Hr2).
  assert (d1 <= d2) as Hle.
  { destruct (Z.le_gt_cases d1 d2); [done|]. assert (2 ^ d2 <= 2 ^ (d1 - 1)) by (apply Z.pow_le_mono_r; lia). lia. }
  unfold ddiv, SFdiv, SFdiv_core_binary. cbn [Zdigits2 xorb].
  rewrite (digits_unique m1 53), (digits_unique m2 53) by (done || lia).
  assert (Z.min (fexp dprec demax (53 + (d1 - 53) - (53 + (d2 - 53)))) (d1 - 53 - (d2 - 53)) = d1 - d2 - 53) as ->
    by (unfold fexp, emin, dprec, demax; lia).
  replace (d1 - 53 - (d2 - 53) - (d1 - d2 - 53)) with 53 by lia.
  rewrite Z.shiftl_mul_pow2 by lia. pose proof (Z_div_mod (Z.pos m1 * 2 ^ 53) (Z.pos m2) ltac:(lia)) as Hdiv.
  destruct (Z.div_eucl (Z.pos m1 * 2 ^ 53) (Z.pos m2)) as [q r]. destruct Hdiv as [Hq Hr].
  assert (2 ^ 52 <= q) as Hq1 by nia. assert (q < 2 ^ 54) as Hq2 by nia.
  destruct q as [|q|q]; try lia. unfold e_normal.
  apply round_at_most_one; [unfold e_normal; lia|unfold e_normal; lia|].
  destruct (Z.lt_ge_cases (Z.pos q) (2 ^ 53)) as [Hlt|Hge]; [left; lia|right]. split; [lia|].
  destruct (decide (d1 = d2)) as [->|Hne]; [|left; lia]. right.
  assert (Z.pos m1 <= Z.pos m2) as Hmm.
  { rewrite Hm1, Hm2. apply Z.mul_le_mono_nonneg_r; [apply Z.pow_nonneg; lia|lia]. }
  assert (Z.pos q = 2 ^ 53 /\ r = 0) as [Hq3 ->] by nia. split_and!; [lia|done|].
  unfold new_location, new_location_even, new_location_odd. by destruct (Z.even _).
Qed.

Lemma at_most_one_compare x : at_most_one x -> dleb (d_of_Z 0) x = true /\ dleb x (d_of_Z 1) = true.
Proof.
  intros (m & e & -> & Hm & He). split; [done|]. unfold dleb, SFleb.
  change (d_of_Z 1) with (S754_finite false (2 ^ 52) (-52)). cbn [SFcompare].
  destruct He as [He|[-> He]].
  - by rewrite (proj2 (Z.compare_lt_iff e (-52))) by lia.
  - rewrite Z.compare_refl. assert (m = (2 ^ 52)%positive) as -> by (injection He; done). done.
Qed.

(** ** Arithmetic that is a number

    Rounding gives a number; so do sums that are not of opposite infinities and products
    that are not of zero and an infinity. *)
Lemma shr_1_nonneg r : 0 <= shr_m r -> 0 <= shr_m (shr_1 r).
Proof. destruct r as [[|[]|p] ? ?]; cbn; lia. Qed.
Lemma iter_nonneg p : forall r, 0 <= shr_m r -> 0 <= shr_m (SpecFloat.iter_pos shr_1 p r).
Proof. induction p as [p IH|p IH|]; intros r Hr; cbn; auto using shr_1_nonneg. Qed.
Lemma shr_fexp_nonneg m e l : 0 <= m -> 0 <= shr_m (shr_fexp dprec demax m e l).1.
Proof. intros Hm. unfold shr_fexp, shr. case_match; cbn [fst]; rewrite ?shr_m_of_loc; try done. apply iter_nonneg. by rewrite shr_m_of_loc. Qed.
Lemma round_aux_number s m e l : 0 <= m -> d_is_nan (binary_round_aux dprec demax s m e l) = false.
Proof.
  intros Hm. unfold binary_round_aux. pose proof (shr_fexp_nonneg m e l Hm) as H. destruct (shr_fexp _ _ m e l) as [r e']. cbn [fst] in H.
  assert (Hr : 0 <= round_nearest_even (shr_m r) (loc_of_shr_record r)) by (destruct (round_nearest_cases (shr_m r) (loc_of_shr_record r)) as [->|[-> _]]; lia).
  pose proof (shr_fexp_nonneg _ e' loc_Exact Hr) as H'. destruct (shr_fexp _ _ _ _ _) as [r' e'']. cbn [fst] in H'.
  destruct (shr_m r'); [done| |lia]. by destruct (_ <=? _).
Qed.
Lemma round_number s m e : d_is_nan (binary_round dprec demax s m e) = false.
Proof. unfold binary_round. destruct (shl_align _ _ _). by apply round_aux_number. Qed.
Lemma normalize_number m e s : d_is_nan (binary_normalize dprec demax m e s) = false.
Proof. destruct m; [done|apply round_number..]. Qed.
Lemma d_of_Z_number z : d_is_nan (d_of_Z z) = false.
Proof. apply normalize_number. Qed.

Definition d_finite (x : double) : bool := match x with S754_zero _ | S754_finite _ _ _ => true | _ => false end.
(** A number other than minus infinity. *)
Definition d_above (x : double) : Prop := d_is_nan x = false /\ x <> d_neg_inf.
Lemma d_finite_above x : d_finite x = true -> d_above x.
Proof. by destruct x. Qed.
Lemma d_pos_above x : d_pos x -> d_is_nan x = false -> d_above x.
Proof. destruct x as [[]|[]| |[]]; done. Qed.
Lemma dadd_number x y : d_above x -> d_above y -> d_is_nan (dadd x y) = false.
Proof.
  intros [Hx Hx'] [Hy Hy']. destruct x as [[]|[]| |s m e], y as [[]|[]| |s' m' e']; try done. unfold dadd, SFadd. apply normalize_number.
Qed.
Lemma dsub_number x y : d_finite x = true -> d_is_nan y = false -> d_is_nan (dsub x y) = false.
Proof.
  intros Hx Hy. destruct x as [[]|[]| |s m e], y as [[]|[]| |s' m' e']; try done. unfold dsub, SFsub. apply normalize_number.
Qed.
Lemma dmul_number x y : d_finite x = true -> d_finite y = true -> d_is_nan (dmul x y) = false.
Proof.
  intros Hx Hy. destruct x as [[]|[]| |s m e], y as [[]|[]| |s' m' e']; try done. unfold dmul, SFmul. by apply round_aux_number.
Qed.
Lemma dmul_nonzero_number s m e y : d_is_nan y = false -> d_is_nan (dmul (S754_finite s m e) y) = false.
Proof. intros Hy. destruct y as [[]|[]| |s' m' e']; try done. unfold dmul, SFmul. by apply round_aux_number. Qed.
Lemma d_finite_mul_zero x s : d_finite x = true -> d_finite (dmul x (S754_zero s)) = true.
Proof. by destruct x. Qed.
Lemma shiftl_nonneg m s : 0 <= m -> 0 <= match s with Z0 => m | Zpos _ => Z.shiftl m s | Zneg _ => 0 end.
Proof. intros Hm. destruct s; try lia. rewrite Z.shiftl_nonneg. lia. Qed.
Lemma ddiv_number x s m e : d_is_nan x = false -> d_is_nan (ddiv x (S754_finite s m e)) = false.
Proof.
  intros Hx. destruct x as [[]|[]| |s' m' e']; try done. unfold ddiv, SFdiv, SFdiv_core_binary.
  match goal with |- context [Z.div_eucl ?a ?b] => pose proof (Z_div_mod a b) as Hd; destruct (Z.div_eucl a b) as [q r] end.
  destruct (Hd ltac:(done)) as [Heq Hr]. apply round_aux_number.
  match type of Heq with ?a = _ => assert (0 <= a) by (apply shiftl_nonneg; lia) end. nia.
Qed.
Lemma d_pos_binary_round m e : d_pos (binary_round dprec demax false m e).
Proof. unfold binary_round. destruct (shl_align _ _ _). apply d_pos_round. Qed.
Lemma d_pos_add x y : d_pos x -> d_pos y -> d_pos (dadd x y).
Proof.
  unfold dadd. destruct x as [s|s| |s m e], y as [s'|s'| |s' m' e']; cbn [d_pos SFadd]; intros; subst; try done.
  unfold cond_Zopp, binary_normalize. destruct (_ + _) eqn:E; [done|apply d_pos_binary_round|lia].
Qed.
