(* ===== verification/Config.v ===== *)
(** * Configuration elements

    The framework is configured by XML elements (services, filters, channel
    policy).  [cXMLElement] belongs to the simulation kernel; the model is the
    tree it exposes: tag, attributes and child elements in document order.
    Numbers are read with [boost::lexical_cast]. *)

From S2P Require Import Prelude.

Inductive cXMLElement : Type :=
| XElem (tag : string) (attrs : list (string * string)) (children : list cXMLElement).

Definition getTagName (x : cXMLElement) : string := let 'XElem t _ _ := x in t.
Definition children (x : cXMLElement) : list cXMLElement := let 'XElem _ _ c := x in c.
(** [getAttribute]: [None] stands for the null pointer. *)
Definition getAttribute (x : cXMLElement) (name : string) : option string :=
  let 'XElem _ a _ := x in snd <$> List.find (fun p => String.eqb p.1 name) a.
Definition getChildrenByTagName (x : cXMLElement) (tag : string) : list cXMLElement :=
  List.filter (fun c => String.eqb (getTagName c) tag) (children x).
Definition getFirstChildWithTag (x : cXMLElement) (tag : string) : option cXMLElement :=
  head (getChildrenByTagName x tag).

(** A string matched by the regular expression ["[0-9]+"]. *)
Definition is_digit (c : Ascii.ascii) : bool :=
  (48 <=? Z.of_N (Ascii.N_of_ascii c)) && (Z.of_N (Ascii.N_of_ascii c) <=? 57).
Fixpoint all_digits (s : string) : bool :=
  match s with
  | EmptyString => true
  | String c s' => is_digit c && all_digits s'
  end.
Definition is_number (s : string) : bool :=
  match s with EmptyString => false | _ => all_digits s end.

(** [boost::lexical_cast] of a digit string to an unsigned type of [w] bits:
    throws [bad_lexical_cast] when the value does not fit. *)
Fixpoint digits_value (s : string) (acc : Z) : Z :=
  match s with
  | EmptyString => acc
  | String c s' => digits_value s' (10 * acc + (Z.of_N (Ascii.N_of_ascii c) - 48))
  end.
Definition lexical_cast_unsigned (w : Z) (s : string) : res Z :=
  if is_number s && (digits_value s 0 <? 2 ^ w) then Ok (digits_value s 0)
  else Fail (StdException "bad_lexical_cast").

Lemma digits_value_nonneg s acc : all_digits s = true -> 0 <= acc -> 0 <= digits_value s acc.
Proof.
  revert acc; induction s as [|c s IH]; cbn; intros acc; [done|].
  unfold is_digit.
  intros [[Hc%Z.leb_le _]%andb_prop Hs]%andb_prop Ha. apply IH; [done|lia].
Qed.

Lemma lexical_cast_range w s z : lexical_cast_unsigned w s = Ok z -> 0 <= z < 2 ^ w.
Proof.
  unfold lexical_cast_unsigned. destruct (is_number s) eqn:Hn; cbn; [|done].
  zcases; [intros [= <-]|done]. split; [|done].
  apply digits_value_nonneg; [|lia]. by destruct s.
Qed.
