(* ===== verification/Channel.v ===== *)
(** * Channels and channel policy

    [src/src/artery/utility/Channel.{h,cc}], [application/MultiChannelPolicy.cc],
    [application/XmlMultiChannelPolicy.cc] and
    [application/NetworkInterfaceTable.cc]: which radio channels the messages of
    an ITS application are sent on, and which network interface serves a
    channel. *)

From stdpp Require Import sorting.
From S2P Require Import Prelude OMap Config.

(** ** Channel numbers *)
Abbreviation ChannelNumber := Z (only parsing).
Abbreviation ItsAid := Z (only parsing).

Definition CCH : ChannelNumber := 180.
Definition SCH0 : ChannelNumber := CCH.
Definition SCH1 : ChannelNumber := 176.
Definition SCH2 : ChannelNumber := 178.
Definition SCH3 : ChannelNumber := 174.
Definition SCH4 : ChannelNumber := 172.
Definition SCH5 : ChannelNumber := 182.
Definition SCH6 : ChannelNumber := 184.

Definition parseChannelNumber (str : string) : res ChannelNumber :=
  if is_number str then lexical_cast_unsigned 32 str
  else if String.eqb str "CCH" || String.eqb str "SCH0" then Ok CCH
  else if String.eqb str "SCH1" then Ok SCH1
  else if String.eqb str "SCH2" then Ok SCH2
  else if String.eqb str "SCH3" then Ok SCH3
  else if String.eqb str "SCH4" then Ok SCH4
  else if String.eqb str "SCH5" then Ok SCH5
  else if String.eqb str "SCH6" then Ok SCH6
  else Ok 0.

Definition unsigned_max : Z := 2 ^ 32 - 1.

Definition getChannelRank (ch : ChannelNumber) : Z :=
  if ch =? CCH then 0
  else if ch =? SCH1 then 1
  else if ch =? SCH2 then 2
  else if ch =? SCH3 then 3
  else if ch =? SCH4 then 4
  else if ch =? SCH5 then 5
  else if ch =? SCH6 then 6
  else unsigned_max.

Definition ChannelRankCompare (a b : ChannelNumber) : bool :=
  getChannelRank a <? getChannelRank b.

(** ** XmlMultiChannelPolicy *)
Record MultiChannelPolicy := mkPolicy {
  mDefaultChannel : ChannelNumber;
  mApplicationMapping : list (ItsAid * list ChannelNumber)
}.

Section Policy.
(** [boost::lexical_cast<vanetza::ItsAid>]; any parser of the attribute. *)
Variable lexical_cast_aid : string -> res ItsAid.

(** One [<application>] element: [mApplicationMapping[aid].insert(channel)]. *)
Definition read_application (p : MultiChannelPolicy) (app : cXMLElement) : res MultiChannelPolicy :=
  match getAttribute app "id" with
  | None => Fail (RuntimeError "XML MCO configuration contains application tag without id attribute")
  | Some id_attr =>
    match getAttribute app "channel" with
    | None => Fail (RuntimeError "XML MCO configuration contains application tag without channel attribute")
    | Some ch_attr =>
        aid ← lexical_cast_aid id_attr;
        channel ← parseChannelNumber ch_attr;
        let old := default [] (om_find aid (mApplicationMapping p)) in
        Ok (mkPolicy (mDefaultChannel p)
              (om_set aid (os_insert channel old) (mApplicationMapping p)))
    end
  end.

Definition read_policy (cfg : option cXMLElement) : res MultiChannelPolicy :=
  match cfg with
  | Some cfg =>
      if String.eqb (getTagName cfg) "mco" then
        def ← match getAttribute cfg "default" with
              | Some a => parseChannelNumber a
              | None => Ok 0
              end;
        res_fold read_application (getChildrenByTagName cfg "application") (mkPolicy def [])
      else Fail (RuntimeError "XML MCO configuration does not start with mco tag")
  | None => Fail (RuntimeError "XML MCO configuration does not start with mco tag")
  end.
End Policy.

Definition allChannels (p : MultiChannelPolicy) (aid : ItsAid) : list ChannelNumber :=
  match om_find aid (mApplicationMapping p) with
  | Some chs => chs
  | None => if negb (mDefaultChannel p =? 0) then [mDefaultChannel p] else []
  end.

(** ** Primary channel

    [std::sort] promises a permutation ordered by the comparison, which has to be
    a strict weak ordering; the order of channels of equal rank is not
    specified. *)
Class StdSort := std_sort : forall {A}, (A -> A -> bool) -> list A -> list A.

Definition strict_weak {A} (lt : A -> A -> bool) : Prop :=
  (forall x, lt x x = false) /\
  (forall x y z, lt x y = true -> lt y z = true -> lt x z = true) /\
  (forall x y z, lt x y = false -> lt y x = false -> lt y z = false -> lt z y = false ->
     lt x z = false /\ lt z x = false).

Class StdSortSpec `{StdSort} : Prop := {
  std_sort_perm : forall {A} (lt : A -> A -> bool) l,
    strict_weak lt -> std_sort lt l ≡ₚ l;
  std_sort_sorted : forall {A} (lt : A -> A -> bool) l,
    strict_weak lt -> StronglySorted (fun x y => lt y x = false) (std_sort lt l)
}.

Definition primaryChannel `{StdSort} (p : MultiChannelPolicy) (aid : ItsAid) : ChannelNumber :=
  match std_sort ChannelRankCompare (allChannels p aid) with
  | [] => 0
  | ch :: _ => ch
  end.

(** ** NetworkInterfaceTable

    The table is an [unordered_set] of pointers; the list is its iteration
    order, which the program does not control.  The channel of an interface is
    mutable ([Router::handleMessage]), so it is read through [chan]. *)
Abbreviation ifcid := nat (only parsing).

Fixpoint select (chan : ifcid -> ChannelNumber) (t : list ifcid) (ch : ChannelNumber) :
    option ifcid :=
  match t with
  | [] => None
  | i :: t' => if chan i =? ch then Some i else select chan t' ch
  end.

Definition table_insert (t : list ifcid) (i : ifcid) : list ifcid :=
  if decide (i ∈ t) then t else i :: t.

(** ** Properties of the policy *)
Definition policy_wf (p : MultiChannelPolicy) : Prop :=
  om_wf (mApplicationMapping p) /\
  forall aid chs, om_find aid (mApplicationMapping p) = Some chs -> os_wf chs /\ chs <> [].

Lemma ChannelRankCompare_strict_weak : strict_weak ChannelRankCompare.
Proof.
  unfold ChannelRankCompare. split; [|split]; intros *; zcases; try done; try lia.
Qed.

Lemma rank_nonneg ch : 0 <= getChannelRank ch.
Proof. unfold getChannelRank, unsigned_max. zcases; lia. Qed.

Lemma rank_zero ch : getChannelRank ch = 0 <-> ch = CCH.
Proof. unfold getChannelRank, unsigned_max. zcases; split; subst; try done; lia. Qed.

Lemma os_insert_nonempty {K} `{!EqDecision K, !KeyOrder K} (k : K) s : os_insert k s <> [].
Proof. destruct s; cbn; [done|]. case_decide; [done|]. by destruct (key_ltb k k0). Qed.

Lemma read_application_wf cast p app p' :
  policy_wf p -> read_application cast p app = Ok p' -> policy_wf p'.
Proof.
  intros [Hwf Hchs]. unfold read_application.
  destruct (getAttribute app "id") as [i|]; [|done].
  destruct (getAttribute app "channel") as [c|]; [|done].
  rewrite bind_Ok. intros (aid & _ & H). apply bind_Ok in H as (ch & _ & H).
  res_inv. split; cbn; [by apply om_wf_set|].
  intros a chs. rewrite om_find_set. case_decide; [|apply Hchs].
  intros [= <-]. split; [|apply os_insert_nonempty].
  apply os_wf_insert. destruct (om_find aid _) eqn:E; cbn; [by apply Hchs in E as []|constructor].
Qed.

Lemma read_policy_wf cast cfg p : read_policy cast cfg = Ok p -> policy_wf p.
Proof.
  unfold read_policy. destruct cfg as [cfg|]; [|done].
  destruct (String.eqb _ _); [|done]. rewrite bind_Ok. intros (def & _ & H).
  assert (policy_wf (mkPolicy def [])) as H0 by (split; cbn; [constructor|done]).
  refine (res_fold_inv policy_wf _ _ _ _ _ H0 H).
  intros; by eapply read_application_wf.
Qed.

(** The primary channel is the best ranked of an application's channels,
    whatever order [std::sort] gives to channels of equal rank: it is one of
    [allChannels], no channel ranks before it, the control channel is chosen
    whenever it is among them, and the result is 0 exactly when the application
    has no channel (or is explicitly mapped to channel 0). *)
Theorem primaryChannel_best `{StdSortSpec} p aid :
  (allChannels p aid = [] -> primaryChannel p aid = 0) /\
  (allChannels p aid <> [] ->
     primaryChannel p aid ∈ allChannels p aid /\
     (forall ch, ch ∈ allChannels p aid ->
        getChannelRank (primaryChannel p aid) <= getChannelRank ch) /\
     (CCH ∈ allChannels p aid -> primaryChannel p aid = CCH)).
Proof.
  unfold primaryChannel.
  pose proof (std_sort_perm ChannelRankCompare (allChannels p aid)
    ChannelRankCompare_strict_weak) as Hp.
  pose proof (std_sort_sorted ChannelRankCompare (allChannels p aid)
    ChannelRankCompare_strict_weak) as Hs.
  destruct (std_sort _ _) as [|ch l].
  - apply Permutation_nil in Hp. rewrite Hp. done.
  - split; [intros Hnil; rewrite Hnil in Hp; by apply Permutation_nil_r in Hp|].
    intros _. inversion Hs as [|? ? _ Hall]; subst.
    assert (forall c, c ∈ allChannels p aid -> getChannelRank ch <= getChannelRank c) as Hmin.
    { intros c. rewrite <- Hp. intros [->|Hin]%elem_of_cons; [lia|].
      eapply Forall_forall in Hall; [|exact Hin]. unfold ChannelRankCompare in Hall.
      by apply Z.ltb_ge in Hall. }
    split; [rewrite <- Hp; left|]. split; [exact Hmin|].
    intros Hcch%Hmin. apply rank_zero. pose proof (rank_nonneg ch).
    change (getChannelRank CCH) with 0 in Hcch. lia.
Qed.

(** A sort that keeps the promise, for concrete evaluation: insertion sort. *)
Fixpoint insertion {A} (lt : A -> A -> bool) (x : A) (l : list A) : list A :=
  match l with
  | [] => [x]
  | y :: l' => if lt y x then y :: insertion lt x l' else x :: l
  end.
Definition insertion_sort : StdSort := fun A lt l => foldr (insertion lt) [] l.

Lemma insertion_perm {A} (lt : A -> A -> bool) x l : insertion lt x l ≡ₚ x :: l.
Proof.
  induction l as [|y l IH]; cbn; [done|]. destruct (lt y x); [|done].
  rewrite IH. apply Permutation_swap.
Qed.

Lemma insertion_sorted {A} (lt : A -> A -> bool) x l :
  strict_weak lt -> StronglySorted (fun a b => lt b a = false) l ->
  StronglySorted (fun a b => lt b a = false) (insertion lt x l).
Proof.
  intros (Hirr & Htr & Hinc) Hs.
  assert (forall a b, lt a b = true -> lt b a = false) as Hasym.
  { intros a b Hab. destruct (lt b a) eqn:Hba; [|done].
    by rewrite <- (Hirr a), (Htr a b a Hab Hba). }
  assert (forall a b c, lt b a = false -> lt c b = false -> lt c a = false) as Hge.
  { intros a b c Hba Hcb. destruct (lt c a) eqn:Hca; [|done].
    destruct (lt a b) eqn:Hab; [by rewrite (Htr c a b Hca Hab) in Hcb|].
    destruct (lt b c) eqn:Hbc; [by rewrite (Htr b c a Hbc Hca) in Hba|].
    destruct (Hinc a b c) as [_ ?]; congruence. }
  induction Hs as [|y l Hs IH Hall]; cbn; [repeat constructor|].
  destruct (lt y x) eqn:Hyx.
  - constructor; [done|]. apply Forall_forall. intros z. rewrite insertion_perm.
    intros [->|Hin]%elem_of_cons; [by apply Hasym|]. by eapply Forall_forall in Hall.
  - constructor; [by constructor|]. constructor; [done|].
    eapply Forall_impl; [exact Hall|]. intros z Hz; cbn in Hz. eauto.
Qed.

Lemma insertion_sort_spec : @StdSortSpec insertion_sort.
Proof.
  split; intros A lt l Hlt; unfold std_sort, insertion_sort.
  - induction l as [|x l IH]; cbn; [done|]. by rewrite insertion_perm, IH.
  - induction l as [|x l IH]; cbn; [constructor|]. by apply insertion_sorted.
Qed.

Theorem primaryChannel_best_witness :
  allChannels (mkPolicy 0 [(36, [174; 176; 184])]) 36 = [174; 176; 184] /\
  @primaryChannel insertion_sort (mkPolicy 0 [(36, [174; 176; 184])]) 36 = SCH1 /\
  forall ch, ch ∈ [174; 176; 184] ->
    getChannelRank (@primaryChannel insertion_sort (mkPolicy 0 [(36, [174; 176; 184])]) 36)
      <= getChannelRank ch.
Proof.
  split; [reflexivity|split; [reflexivity|]].
  pose proof (@primaryChannel_best insertion_sort insertion_sort_spec
    (mkPolicy 0 [(36, [174; 176; 184])]) 36) as [_ H].
  apply H; discriminate.
Defined.
