(* ===== verification/Identity.v ===== *)
(** * Identities, identity registry and filter rules

    [src/src/artery/utility/Identity.{h,cc}], [IdentityRegistry.{h,cc}] and
    [FilterRules.{h,cc}].  Every middleware describes its station by an
    [Identity]; the registry indexes all identities by TraCI id and by station
    id; the filter rules decide from an identity (and random draws) whether a
    service is instantiated on a station. *)

From S2P Require Import Prelude OMap Float64 Config.

(** ** Identity *)
Abbreviation ifc_ptr := nat (only parsing).
Abbreviation gn_address := Z (only parsing).

Record Identity := mkIdentity {
  host : option string;  (** full name of the host module's type; [None]: null *)
  traci : string;
  application : Z;
  geonet : list (ifc_ptr * gn_address)
}.

#[export] Instance Identity_eq_dec : EqDecision Identity.
Proof. solve_decision. Defined.

Definition ChangeNone : Z := 0.
Definition ChangeTraCI : Z := 1.
Definition ChangeStationId : Z := 2.
Definition ChangeGeoNetAddress : Z := 4.

(** [geonet.insert(first, last)]: present keys keep their value. *)
Definition geonet_insert (dst src : list (ifc_ptr * gn_address)) : list (ifc_ptr * gn_address) :=
  foldl (fun m p => om_emplace p.1 p.2 m) dst src.

Definition has_change (changes bit : Z) : bool := negb (Z.land changes bit =? 0).

Definition identity_update (self update : Identity) (changes : Z) : Identity * bool :=
  let '(self, changed) := (self, false) in
  let '(self, changed) :=
    if has_change changes ChangeTraCI then
      (mkIdentity (host self) (traci update) (application self) (geonet self), true)
    else (self, changed) in
  let '(self, changed) :=
    if has_change changes ChangeStationId then
      (mkIdentity (host self) (traci self) (application update) (geonet self), true)
    else (self, changed) in
  if has_change changes ChangeGeoNetAddress then
    (mkIdentity (host self) (traci self) (application self)
       (geonet_insert (geonet self) (geonet update)), true)
  else (self, changed).

(** ** IdentityRegistry

    The container is unique in its [traci] index, hence a map from TraCI ids. *)
Abbreviation registry := (list (string * Identity)) (only parsing).

Inductive registry_signal := updateSignal | removeSignal | otherSignal.

(** [obj] is [None] when the signal's object is not an [Identity]. *)
Definition registry_receiveSignal (r : registry) (signal : registry_signal)
    (obj : option Identity) : res registry :=
  match signal with
  | updateSignal =>
      match obj with
      | None => Fail (RuntimeError "check_and_cast: cannot cast to Identity")
      | Some ident =>
          match om_find (traci ident) r with
          | Some _ => Ok (om_set (traci ident) ident r)
          | None => Ok (om_emplace (traci ident) ident r)
          end
      end
  | removeSignal =>
      match obj with
      | Some ident => Ok (om_erase (traci ident) r)
      | None => Ok r
      end
  | otherSignal => Ok r
  end.

Definition lookup_traci (r : registry) (value : string) : option Identity :=
  om_find value r.

(** [lookup<application>]: the station id index is not unique; [find] returns
    one of the equal elements, which one is the container's affair ([pick]). *)
Definition lookup_application (pick : list Identity -> option Identity)
    (r : registry) (value : Z) : option Identity :=
  pick (filter (fun i => application i = value) (r.*2)).

Definition registry_run (r : registry) (l : list (registry_signal * option Identity)) :
    res registry :=
  res_fold (fun r p => registry_receiveSignal r p.1 p.2) l r.

(** ** FilterRules *)
Section FilterRules.
(** [std::regex]: construction may throw [regex_error]; [regex_match] matches
    the whole string. *)
Variable regex : string -> res (string -> bool).
(** [boost::lexical_cast<double>]. *)
Variable lexical_cast_double : string -> res double.
(** The random number generator: the [n]-th draw of [uniform(rng, 0.0, 1.0)]. *)
Variable uniform : nat -> double.

(** The closures the code builds, as data. *)
Inductive Filter :=
| NameFilter (name_regex : string -> bool) (inverse : bool)
| PenetrationFilter (penetration_rate : double)
| TypeFilter (type_rate : double) (type_regex : string -> bool) (inverse : bool).

Definition is_inverse (cfg : cXMLElement) : bool :=
  match getAttribute cfg "match" with
  | Some m => String.eqb m "inverse"
  | None => false
  end.

Definition createFilterNamePattern (cfg : cXMLElement) : res Filter :=
  match getAttribute cfg "pattern" with
  | None => Fail (RuntimeError "Required pattern attribute is missing for name filter")
  | Some name_pattern =>
      name_regex ← regex name_pattern; Ok (NameFilter name_regex (is_inverse cfg))
  end.

Definition rate_out_of_range (rate : double) : bool :=
  dltb (d_of_Z 1) rate || dltb rate d_zero.

Definition createFilterPenetrationRate (cfg : cXMLElement) : res Filter :=
  match getAttribute cfg "rate" with
  | None => Fail (RuntimeError "Required rate attribute is missing for penetration filter")
  | Some s =>
      penetration_rate ← lexical_cast_double s;
      if rate_out_of_range penetration_rate
      then Fail (RuntimeError "Penetration rate is out of range [0.0, 1.0]")
      else Ok (PenetrationFilter penetration_rate)
  end.

Definition createFilterTypePattern (cfg : cXMLElement) : res Filter :=
  match getAttribute cfg "pattern" with
  | None => Fail (RuntimeError "Required pattern attribute is missing for type filter")
  | Some type_pattern =>
      type_rate ← match getAttribute cfg "rate" with
                  | Some s => lexical_cast_double s
                  | None => Ok (d_of_Z 1)
                  end;
      if rate_out_of_range type_rate
      then Fail (RuntimeError "Type penetration rate is out of range [0.0, 1.0]")
      else type_regex ← regex type_pattern; Ok (TypeFilter type_rate type_regex (is_inverse cfg))
  end.

(** Calling a filter; [n] draws have been made so far. *)
Definition run_filter (id : Identity) (f : Filter) (n : nat) : res (bool * nat) :=
  match f with
  | NameFilter name_regex inverse => Ok (xorb (name_regex (traci id)) inverse, n)
  | PenetrationFilter rate => Ok (dleb (uniform n) rate, S n)
  | TypeFilter rate type_regex inverse =>
      let rate_predicate := dleb (uniform n) rate in
      match host id with
      | None => Fail (RuntimeError "notNullPtr")
      | Some type => Ok (xorb (type_regex type && rate_predicate) inverse, S n)
      end
  end.

Fixpoint any_of (id : Identity) (fs : list Filter) (n : nat) : res (bool * nat) :=
  match fs with
  | [] => Ok (false, n)
  | f :: fs' =>
      r ← run_filter id f n;
      if (r : bool * nat).1 then Ok (true, r.2) else any_of id fs' r.2
  end.

Fixpoint all_of (id : Identity) (fs : list Filter) (n : nat) : res (bool * nat) :=
  match fs with
  | [] => Ok (true, n)
  | f :: fs' =>
      r ← run_filter id f n;
      if (r : bool * nat).1 then all_of id fs' r.2 else Ok (false, r.2)
  end.

(** [filters.emplace_back] for each element, stopping at the first exception. *)
Definition collect (create : cXMLElement -> res Filter) (l : list cXMLElement)
    (fs : list Filter) : res (list Filter) :=
  res_fold (fun fs cfg => f ← create cfg; Ok (fs ++ [f])) l fs.

Definition create_filters (filter_cfg : cXMLElement) : res (list Filter) :=
  fs ← collect createFilterNamePattern (getChildrenByTagName filter_cfg "name") [];
  fs ← match getFirstChildWithTag filter_cfg "penetration" with
       | Some cfg => f ← createFilterPenetrationRate cfg; Ok (fs ++ [f])
       | None => Ok fs
       end;
  collect createFilterTypePattern (getChildrenByTagName filter_cfg "type") fs.

Definition run_filters (id : Identity) (op : option string) (fs : list Filter) (n : nat) :
    res (bool * nat) :=
  match fs with
  | [] => Ok (true, n)
  | _ =>
      let filter_operator := default "or" op in
      if String.eqb filter_operator "or" then any_of id fs n
      else if String.eqb filter_operator "and" then all_of id fs n
      else Fail (RuntimeError "Unsupported filter operator")
  end.

Definition applyFilterConfig (id : Identity) (filter_cfg : cXMLElement) (n : nat) :
    res (bool * nat) :=
  filters ← create_filters filter_cfg;
  run_filters id (getAttribute filter_cfg "operator") filters n.

(** *** Specification: every filter's verdict with its own draw *)
Definition draws (f : Filter) : nat :=
  match f with NameFilter _ _ => 0%nat | _ => 1%nat end.

Fixpoint verdicts (type : string) (id : Identity) (fs : list Filter) (n : nat) : list bool :=
  match fs with
  | [] => []
  | f :: fs' =>
      match f with
      | NameFilter re inverse => xorb (re (traci id)) inverse
      | PenetrationFilter rate => dleb (uniform n) rate
      | TypeFilter rate re inverse => xorb (re type && dleb (uniform n) rate) inverse
      end :: verdicts type id fs' (n + draws f)
  end.

Lemma any_of_verdicts id type fs n :
  host id = Some type ->
  exists k, any_of id fs n = Ok (existsb (fun b => b) (verdicts type id fs n), k).
Proof.
  intros Hh. revert n. induction fs as [|f fs IH]; intros n; cbn; [eauto|].
  destruct f as [re inv|rate|rate re inv]; cbn; rewrite ?Hh; cbn;
    rewrite ?Nat.add_0_r, ?Nat.add_1_r;
    match goal with |- context [if ?b then _ else _] => destruct b end; cbn; eauto.
Qed.

Lemma all_of_verdicts id type fs n :
  host id = Some type ->
  exists k, all_of id fs n = Ok (forallb (fun b => b) (verdicts type id fs n), k).
Proof.
  intros Hh. revert n. induction fs as [|f fs IH]; intros n; cbn; [eauto|].
  destruct f as [re inv|rate|rate re inv]; cbn; rewrite ?Hh; cbn;
    rewrite ?Nat.add_0_r, ?Nat.add_1_r;
    match goal with |- context [if ?b then _ else _] => destruct b end; cbn; eauto.
Qed.

(** Filter rules: for a station whose host is known, the verdict of a
    configuration whose filters could be built is the disjunction (operator "or",
    the default) or conjunction ("and") of the verdicts of all its filters, each
    with a random draw of its own, although the code stops at the first decisive
    filter; a configuration without filters accepts, whatever its operator; any
    other operator is an error. *)
Theorem applyFilterConfig_spec id type cfg fs n :
  host id = Some type -> create_filters cfg = Ok fs ->
  fst <$> applyFilterConfig id cfg n =
    match fs with
    | [] => Ok true
    | _ =>
        let op := default "or" (getAttribute cfg "operator") in
        if decide (op = "or") then Ok (existsb (fun b => b) (verdicts type id fs n))
        else if decide (op = "and") then Ok (forallb (fun b => b) (verdicts type id fs n))
        else Fail (RuntimeError "Unsupported filter operator")
    end.
Proof.
  intros Hh Hfs. unfold applyFilterConfig. rewrite Hfs. cbn [mbind res_bind].
  destruct fs as [|f fs']; [done|]. set (l := f :: fs'). cbn zeta. unfold run_filters. subst l.
  cbv beta iota zeta. set (op := default "or" _).
  destruct (String.eqb_spec op "or") as [->|Hor]; [rewrite decide_True by done|
    rewrite decide_False by done].
  - destruct (any_of_verdicts id type (f :: fs') n Hh) as [k ->]. done.
  - destruct (String.eqb_spec op "and") as [->|Hand]; [rewrite decide_True by done|
      by rewrite decide_False by done].
    destruct (all_of_verdicts id type (f :: fs') n Hh) as [k ->]. done.
Qed.
End FilterRules.

(** ** Registry properties *)
Definition registry_wf (r : registry) : Prop :=
  om_wf r /\ forall k i, om_find k r = Some i -> traci i = k.

Lemma registry_receiveSignal_wf r s o r' :
  registry_wf r -> registry_receiveSignal r s o = Ok r' -> registry_wf r'.
Proof.
  intros [Hwf Hk]. destruct s, o as [i|]; cbn; intros Heq; res_inv; try done.
  - assert (r' = om_set (traci i) i r) as ->.
    { unfold om_emplace in Heq. destruct (om_find (traci i) r); by res_inv. }
    split; [by apply om_wf_set|]. intros k j. rewrite om_find_set.
    case_decide; [by intros [= <-]|apply Hk].
  - split; [by apply om_wf_erase|]. intros k j. rewrite om_find_erase.
    case_decide; [done|apply Hk].
Qed.

Lemma registry_receiveSignal_find r s i r' k :
  registry_receiveSignal r s (Some i) = Ok r' ->
  lookup_traci r' k =
    match s with
    | updateSignal => if decide (k = traci i) then Some i else lookup_traci r k
    | removeSignal => if decide (k = traci i) then None else lookup_traci r k
    | otherSignal => lookup_traci r k
    end.
Proof.
  unfold lookup_traci. destruct s; cbn.
  - destruct (om_find (traci i) r) eqn:E; intros [= <-]; unfold om_emplace; rewrite ?E;
      apply om_find_set.
  - intros [= <-]. apply om_find_erase.
  - by intros [= <-].
Qed.

(** The last signal about a TraCI id decides. *)
Definition last_known (l : list (registry_signal * Identity)) (k : string) : option Identity :=
  foldl (fun acc p =>
    match p.1 with
    | updateSignal => if decide (k = traci p.2) then Some p.2 else acc
    | removeSignal => if decide (k = traci p.2) then None else acc
    | otherSignal => acc
    end) None l.

Definition to_obj (p : registry_signal * Identity) : registry_signal * option Identity :=
  (p.1, Some p.2).

Lemma registry_run_snoc r l p :
  registry_run r (l ++ [p]) = (r' ← registry_run r l; registry_receiveSignal r' p.1 p.2).
Proof.
  unfold registry_run. rewrite res_fold_app. destruct (res_fold _ l r); cbn; [|done].
  by destruct (registry_receiveSignal _ _ _).
Qed.

Lemma registry_run_exists l : exists r, registry_run [] (to_obj <$> l) = Ok r.
Proof.
  induction l as [|p l [r IH]] using rev_ind; [by exists []|].
  rewrite fmap_app; cbn [fmap list_fmap]. rewrite registry_run_snoc, IH. cbn.
  destruct p as [[] i]; cbn; try destruct (om_find _ r); eauto.
Qed.

Lemma registry_run_wf l r : registry_run [] (to_obj <$> l) = Ok r -> registry_wf r.
Proof.
  apply res_fold_inv; [|split; [constructor|done]].
  intros p t t' _. apply registry_receiveSignal_wf.
Qed.

(** The identity registry: whatever update and remove signals have been
    emitted, none of them fails; a lookup by TraCI id returns exactly the
    identity of the last signal about that id (nothing when that was a removal),
    and a lookup by station id returns an identity with that station id that is
    currently registered, and fails only when there is none. *)
Theorem registry_tracks_signals l pick :
  (forall c, match pick c with Some i => i ∈ c | None => c = [] end) ->
  exists r, registry_run [] (to_obj <$> l) = Ok r /\
    (forall k, lookup_traci r k = last_known l k) /\
    (forall v, match lookup_application pick r v with
               | Some i => application i = v /\ last_known l (traci i) = Some i
               | None => forall k i, last_known l k = Some i -> application i <> v
               end).
Proof.
  intros Hpick. destruct (registry_run_exists l) as [r Hr]. exists r. split; [done|].
  assert (forall k, lookup_traci r k = last_known l k) as Hl.
  { intros k. revert r Hr. induction l as [|p l IH] using rev_ind; intros r.
    - intros [= <-]. done.
    - rewrite fmap_app; cbn [fmap list_fmap]. rewrite registry_run_snoc, bind_Ok.
      intros (r0 & Hr0 & Hp). apply (registry_receiveSignal_find _ _ _ _ k) in Hp. rewrite Hp.
      unfold last_known. rewrite foldl_app. cbn. fold (last_known l k).
      rewrite (IH r0 Hr0). by destruct p as [[] i]. }
  split; [done|]. intros v. unfold lookup_application.
  pose proof (registry_run_wf l r Hr) as [Hwf Hkey].
  specialize (Hpick (filter (fun i => application i = v) (r.*2))).
  destruct (pick _) as [i|].
  - apply list_elem_of_filter in Hpick as [Hv Hi]. split; [done|].
    apply list_elem_of_fmap in Hi as ([k j] & -> & Hkj). cbn.
    apply om_wf_find in Hkj; [|done]. rewrite <- Hl. unfold lookup_traci.
    by rewrite (Hkey _ _ Hkj).
  - intros k i Hi Hv. rewrite <- Hl in Hi. apply om_find_elem in Hi.
    assert (i ∈ filter (fun i => application i = v) (r.*2)) as Hin.
    { apply list_elem_of_filter. split; [done|]. apply list_elem_of_fmap. by exists (k, i). }
    rewrite Hpick in Hin. by apply not_elem_of_nil in Hin.
Qed.

(** ** Witnesses *)
Definition ex_filters : cXMLElement :=
  XElem "filters" [("operator", "and")]
    [XElem "name" [("pattern", "veh"); ("match", "inverse")] [];
     XElem "penetration" [("rate", "0.5")] []].

Theorem applyFilterConfig_spec_witness :
  fst <$> applyFilterConfig (fun p => Ok (String.eqb p)) (fun _ => Ok (d_lit 1 2))
    (fun _ => d_lit 1 4) (mkIdentity (Some "Car") "car.1" 7 []) ex_filters 0 = Ok true.
Proof.
  rewrite (applyFilterConfig_spec (fun p => Ok (String.eqb p)) (fun _ => Ok (d_lit 1 2))
    (fun _ => d_lit 1 4) (mkIdentity (Some "Car") "car.1" 7 []) "Car" ex_filters
    [NameFilter (String.eqb "veh") true; PenetrationFilter (d_lit 1 2)] 0
    eq_refl eq_refl).
  vm_compute. reflexivity.
Defined.

Theorem registry_tracks_signals_witness :
  let i := mkIdentity None "veh.0" 5 [] in
  exists r, registry_run [] (to_obj <$> [(updateSignal, i)]) = Ok r /\
    lookup_traci r "veh.0" = Some i.
Proof.
  intros i.
  destruct (registry_tracks_signals [(updateSignal, i)] head) as (r & Hr & Hl & _).
  - intros [|j c]; [done|left].
  - exists r. split; [exact Hr|]. rewrite Hl. reflexivity.
Defined.
