(* ===== verification/VehicleData.v ===== *)
(** * Vehicle data provider

    [src/src/artery/application/VehicleDataProvider.{h,cc}]: the state of the own
    vehicle as the facilities see it, derived from the readings of the vehicle
    controller: speed, acceleration, heading, yaw rate, the low-pass filtered
    curvature and its confidence.  Physical quantities are [double]s in SI base
    units, which is how Boost.Units stores them. *)

From S2P Require Import Prelude Float64.

(** [Position] and [GeoPosition] of [utility/Geometry.h]. *)
Record Position := mkPosition { pos_x : double; pos_y : double }.
Record GeoPosition := mkGeoPosition { latitude : double; longitude : double }.

#[export] Instance Position_eq_dec : EqDecision Position.
Proof. solve_decision. Defined.

(** What the provider reads from [traci::VehicleController]; the heading is in
    radians, counter-clockwise from east. *)
Record controller_reading := mkReading {
  getSpeed : double;
  getHeading : double;
  getPosition : Position;
  getGeoPosition : GeoPosition
}.

Definition two_pi : double := dmul (d_of_Z 2) d_pi.
Definition half_pi : double := dmul (d_lit 1 2) d_pi.

Definition convertMobilityAngle (angle : double) : res double :=
  let angle := dmul angle (d_of_Z (-1)) in
  let angle := dadd angle half_pi in
  let angle := dsub angle (dmul two_pi (d_floor (ddiv angle two_pi))) in
  _ ← assert_ "angle.value >= 0.0" (dleb d_zero angle);
  _ ← assert_ "angle.value < 2.0 * pi" (dltb angle two_pi);
  Ok angle.

(** [mConfidenceTable], in key order (degrees per second squared; the keys are
    stored in radians per second squared through Boost.Units' conversion). *)
Section Provider.
(** [AngularAcceleration(k * degree_per_second_squared)]. *)
Variable from_degrees : double -> double.

Definition mConfidenceTable : list (double * double) :=
  [(from_degrees d_zero, d_of_Z 1);
   (from_degrees (d_lit 1 2), d_lit 9 10);
   (from_degrees (d_of_Z 1), d_lit 8 10);
   (from_degrees (d_lit 3 2), d_lit 7 10);
   (from_degrees (d_of_Z 2), d_lit 6 10);
   (from_degrees (d_lit 5 2), d_lit 1 2);
   (from_degrees (d_of_Z 5), d_lit 4 10);
   (from_degrees (d_of_Z 10), d_lit 3 10);
   (from_degrees (d_of_Z 15), d_lit 2 10);
   (from_degrees (d_of_Z 20), d_lit 1 10);
   (from_degrees (d_of_Z 25), d_zero);
   (from_degrees d_inf, d_zero)].

(** [lower_bound]: the first entry whose key is not less than [x]. *)
Fixpoint lower_bound (x : double) (m : list (double * double)) : option (double * double) :=
  match m with
  | [] => None
  | (k, v) :: m' => if dltb k x then lower_bound x m' else Some (k, v)
  end.

Definition mapOntoConfidence (x : double) : res double :=
  match lower_bound x mConfidenceTable with
  | None => Fail (StdException "domain_error")
  | Some (_, v) => Ok v
  end.

Record VehicleDataProvider := mkVdp {
  mStationId : Z;
  mPosition : Position;
  mGeoPosition : GeoPosition;
  mSpeed : double;
  mAccel : double;
  mHeading : double;
  mYawRate : double;
  mCurvature : double;
  mConfidence : double;
  mLastUpdate : simtime;
  mCurvatureOutput : list double;            (** circular buffer of capacity 2 *)
  mCurvatureConfidenceOutput : list double;  (** circular buffer of capacity 2 *)
  mCurvatureConfidenceInput : double
}.

(** [push_front] on a full circular buffer drops the last element. *)
Definition push_front (x : double) (l : list double) : list double := take 2 (x :: l).
Definition full (l : list double) : bool := Nat.eqb (length l) 2.

(** The constructor; quantities are zero-initialised. *)
Definition vdp_create (id : Z) : VehicleDataProvider :=
  mkVdp id (mkPosition d_zero d_zero) (mkGeoPosition d_zero d_zero)
    d_zero d_zero d_zero d_zero d_zero d_zero simtime_max [] [d_zero; d_zero] d_zero.

Definition f_cut : double := d_lit 33 100.
Definition t_sample : double := d_lit 1 10.
Definition lower_threshold : double := ddiv (d_of_Z 1) (d_of_Z 2500).
Definition upper_threshold : double := d_of_Z 1.
Definition omega (f : double) : double := dmul two_pi f.

(** [2.0 * omega * damping * t] and [omega * omega * t * t], with damping 1. *)
Definition damping_term (w t : double) : double :=
  dmul (dmul (dmul (d_of_Z 2) w) (d_of_Z 1)) t.
Definition omega2_t2 (w t : double) : double := dmul (dmul (dmul w w) t) t.

Definition straight_or_clamped (c : double) : double :=
  if dltb (dabs c) lower_threshold then d_zero
  else if dltb upper_threshold (dabs c) then upper_threshold
  else c.

(** The new curvature and curvature buffer. *)
Definition calculateCurvature (speed yaw : double) (out : list double) : double * list double :=
  if dltb (dabs speed) (d_of_Z 1) then (d_zero, out)
  else
    let c := ddiv yaw speed in
    match out with
    | [c0; c1] =>
        let w := omega f_cut in
        let c := dadd (dadd (dopp c1)
                   (dmul (dadd (d_of_Z 2) (damping_term w t_sample)) c0))
                   (dmul (omega2_t2 w t_sample) c) in
        let c := ddiv c (dadd (dadd (d_of_Z 1) (damping_term w t_sample))
                   (omega2_t2 w t_sample)) in
        (straight_or_clamped c, push_front c out)
    | _ => (d_zero, push_front c out)
    end.

Definition f_cut_confidence : double := d_of_Z 1.
Definition t_sample_confidence : double := d_of_Z 100.

(** The new confidence and filter output buffer; the yaw rate becomes the next
    filter input. *)
Definition calculateCurvatureConfidence (yaw input : double) (out : list double) :
    res (double * list double) :=
  _ ← assert_ "mCurvatureConfidenceOutput.full()" (full out);
  let o0 := default d_zero (out !! 0%nat) in
  let o1 := default d_zero (out !! 1%nat) in
  let w := omega f_cut_confidence in
  let t := t_sample_confidence in
  let w2t := dmul (dmul w w) t in
  let filter :=
    dsub (dadd (dadd (dopp o1) (dmul (dadd (d_of_Z 2) (damping_term w t)) o0))
            (dmul w2t yaw)) (dmul w2t input) in
  let filter := ddiv filter (dadd (dadd (d_of_Z 1) (damping_term w t)) (omega2_t2 w t)) in
  conf ← mapOntoConfidence (dabs filter);
  Ok (conf, push_front filter out).

(** Difference of headings, normalised to half a turn; left turn positive. *)
Definition heading_difference (old new : double) : double :=
  let diff := dsub old new in
  if dltb d_pi diff then dsub diff two_pi
  else if dltb diff (dopp d_pi) then dadd diff two_pi
  else diff.

(** [inUnit(SIMTIME_MS) * milli * seconds]: whole milliseconds, in seconds. *)
Definition update_delta_ms (v : VehicleDataProvider) (now : simtime) : Z :=
  inUnit_MS (now - mLastUpdate v).
Definition seconds_of_ms (ms : Z) : double := dmul (d_of_Z ms) (d_lit 1 1000).

(** The tail of [update]: position, geo position, time stamp, curvature. *)
Definition update_tail (v : VehicleDataProvider) (now : simtime) (c : controller_reading)
    (speed accel heading yaw : double) : res VehicleDataProvider :=
  let '(curv, curv_out) := calculateCurvature speed yaw (mCurvatureOutput v) in
  r ← calculateCurvatureConfidence yaw (mCurvatureConfidenceInput v)
        (mCurvatureConfidenceOutput v);
  let '(conf, conf_out) := r : double * list double in
  Ok (mkVdp (mStationId v) (getPosition c) (getGeoPosition c) speed accel heading yaw
        curv conf now curv_out conf_out yaw).

Definition vdp_update (v : VehicleDataProvider) (now : simtime) (c : controller_reading) :
    res VehicleDataProvider :=
  let ms := update_delta_ms v now in
  if 0 <? ms then
    let delta := seconds_of_ms ms in
    let new_speed := getSpeed c in
    let accel := ddiv (dsub new_speed (mSpeed v)) delta in
    new_heading ← convertMobilityAngle (getHeading c);
    let yaw := ddiv (heading_difference (mHeading v) new_heading) delta in
    update_tail v now c new_speed accel new_heading yaw
  else if ms <? 0 then
    heading ← convertMobilityAngle (getHeading c);
    update_tail v now c (getSpeed c) (mAccel v) heading (mYawRate v)
  else Ok v.

#[local] Opaque dadd dsub dmul ddiv.

(** ** Properties *)
Definition vdp_wf (v : VehicleDataProvider) : Prop :=
  (length (mCurvatureOutput v) <= 2)%nat /\
  length (mCurvatureConfidenceOutput v) = 2%nat /\
  dltb upper_threshold (dabs (mCurvature v)) = false /\
  (mCurvature v = d_zero \/ dltb (dabs (mCurvature v)) lower_threshold = false) /\
  (mLastUpdate v = simtime_max \/ mConfidence v ∈ mConfidenceTable.*2).

Lemma push_front_length x l : (length (push_front x l) <= 2)%nat.
Proof. unfold push_front. rewrite length_take. lia. Qed.

Lemma straight_or_clamped_range c :
  dltb upper_threshold (dabs (straight_or_clamped c)) = false /\
  (straight_or_clamped c = d_zero \/
   dltb (dabs (straight_or_clamped c)) lower_threshold = false).
Proof.
  unfold straight_or_clamped. destruct (dltb (dabs c) lower_threshold) eqn:E1; [by split; [|left]|].
  destruct (dltb upper_threshold (dabs c)) eqn:E2; [|by split; [|right]].
  split; [reflexivity|right; reflexivity].
Qed.

Lemma calculateCurvature_range speed yaw out :
  (length out <= 2)%nat ->
  let '(c, out') := calculateCurvature speed yaw out in
  (length out' <= 2)%nat /\ dltb upper_threshold (dabs c) = false /\
  (c = d_zero \/ dltb (dabs c) lower_threshold = false).
Proof.
  intros Hl. unfold calculateCurvature.
  destruct (dltb (dabs speed) _); [by split; [|split; [|left]]|].
  destruct out as [|c0 [|c1 [|]]]; cbv zeta; cbn [fst snd].
  3: { split; [apply push_front_length|apply straight_or_clamped_range]. }
  all: split; [apply push_front_length|by split; [|left]].
Qed.

Lemma lower_bound_elem x m k v : lower_bound x m = Some (k, v) -> v ∈ m.*2.
Proof.
  induction m as [|[k' v'] m IH]; cbn; [done|].
  destruct (dltb k' x); [right; auto|]. intros [= -> ->]. left.
Qed.

Lemma mapOntoConfidence_range x c : mapOntoConfidence x = Ok c -> c ∈ mConfidenceTable.*2.
Proof.
  unfold mapOntoConfidence. destruct (lower_bound x _) as [[k v]|] eqn:E; [|done].
  intros [= <-]. by eapply lower_bound_elem.
Qed.

Lemma update_tail_wf v now c speed accel heading yaw v' :
  vdp_wf v -> update_tail v now c speed accel heading yaw = Ok v' ->
  vdp_wf v' /\ mLastUpdate v' = now.
Proof.
  intros (Hc & Hf & _). unfold update_tail.
  pose proof (calculateCurvature_range speed yaw _ Hc) as Hr.
  destruct (calculateCurvature _ _ _) as [curv co]. destruct Hr as (Hco & Hup & Hlo).
  rewrite bind_Ok. intros ([conf fo] & Hconf & [= <-]).
  unfold calculateCurvatureConfidence in Hconf. apply bind_Ok in Hconf as (_ & _ & Hconf).
  apply bind_Ok in Hconf as (conf' & Hm & [= -> <-]).
  split; [|done]. unfold vdp_wf; cbn [mCurvatureOutput mCurvatureConfidenceOutput mCurvature
    mLastUpdate mConfidence]. split; [done|split; [|split; [done|split; [done|]]]].
  - unfold push_front. rewrite length_take. cbn [length]. lia.
  - right. by eapply mapOntoConfidence_range.
Qed.

Lemma vdp_update_wf v now c v' : vdp_wf v -> vdp_update v now c = Ok v' -> vdp_wf v'.
Proof.
  intros Hwf. unfold vdp_update. zcases; [| |by intros [= <-]].
  all: rewrite bind_Ok; intros (h & _ & Htl); by eapply update_tail_wf in Htl as [].
Qed.

Definition vdp_run (v : VehicleDataProvider) (l : list (simtime * controller_reading)) :
    res VehicleDataProvider :=
  res_fold (fun v p => vdp_update v p.1 p.2) l v.

Lemma vdp_create_wf id : vdp_wf (vdp_create id).
Proof.
  unfold vdp_wf, vdp_create. cbn [mCurvatureOutput mCurvatureConfidenceOutput mCurvature
    mLastUpdate length].
  split; [lia|split; [done|split; [vm_compute; reflexivity|split; by left]]].
Qed.

(** [C7] Type invariant of the vehicle data: after any sequence of updates the
    filter buffers keep their capacity (so the assertion of the confidence filter
    never fails and its indices are in range), the magnitude of the curvature is
    never above the threshold of 1/m and, unless exactly zero, never below
    1/2500 m, and the confidence is an entry of the confidence table. *)
Theorem vdp_invariant id l v :
  vdp_run (vdp_create id) l = Ok v ->
  vdp_wf v /\ full (mCurvatureConfidenceOutput v) = true /\ mStationId v = id.
Proof.
  intros Hr.
  assert (vdp_wf v /\ mStationId v = id) as [Hwf Hid].
  { revert Hr. apply (res_fold_inv (fun v => vdp_wf v /\ mStationId v = id)).
    - intros p t t' _ [Ht Hi] Hu. split; [by eapply vdp_update_wf|].
      revert Hu. unfold vdp_update. zcases; [| |by intros [= <-]].
          all: rewrite bind_Ok; intros (h & _ & Htl); unfold update_tail in Htl;
        destruct (calculateCurvature _ _ _); apply bind_Ok in Htl as ([] & _ & [= <-]); done.
    - split; [apply vdp_create_wf|done]. }
  split; [done|]. destruct Hwf as (_ & Hl & _). unfold full. by rewrite Hl.
Qed.

(** The heading conversion either fails an assertion or returns an angle in
    [[0, 2 pi[]. *)
Lemma convertMobilityAngle_Ok a h :
  convertMobilityAngle a = Ok h -> dleb d_zero h = true /\ dltb h two_pi = true.
Proof.
  unfold convertMobilityAngle. cbv zeta. set (x := dsub _ _).
  rewrite bind_Ok. intros ([] & H1 & H). apply bind_Ok in H as ([] & H2 & [= <-]).
  unfold assert_ in *. destruct (dleb d_zero x), (dltb x two_pi); done.
Qed.

(** One update per time step: once an update at [now] has succeeded, any
    further update in the same millisecond of simulation time (in particular at
    [now] itself) leaves every field as it is, whatever the controller reports;
    an update a millisecond or more later stores the new reading. *)
Theorem vdp_update_once v now c v' now2 c2 :
  0 <= now < simtime_max -> now <= now2 ->
  vdp_update v now c = Ok v' -> update_delta_ms v now <> 0 ->
  mLastUpdate v' = now /\ mSpeed v' = getSpeed c /\ mPosition v' = getPosition c /\
  (now2 < now + SIMTIME_MS 1 -> vdp_update v' now2 c2 = Ok v') /\
  (now + SIMTIME_MS 1 <= now2 -> forall v'', vdp_update v' now2 c2 = Ok v'' ->
     mLastUpdate v'' = now2 /\ mSpeed v'' = getSpeed c2 /\
     mAccel v'' = ddiv (dsub (getSpeed c2) (getSpeed c)) (seconds_of_ms (inUnit_MS (now2 - now)))).
Proof.
  intros Hnow Hle Hu Hne.
  assert (forall v v' t c s a h y, update_tail v t c s a h y = Ok v' ->
    mLastUpdate v' = t /\ mSpeed v' = s /\ mPosition v' = getPosition c /\ mAccel v' = a) as Htail.
  { intros w w' t r s a h y. unfold update_tail. destruct (calculateCurvature _ _ _).
    rewrite bind_Ok. intros ([] & _ & [= <-]). done. }
  assert (mLastUpdate v' = now /\ mSpeed v' = getSpeed c /\ mPosition v' = getPosition c)
    as (Hl & Hs & Hp).
  { revert Hu. unfold vdp_update. zcases; [| |lia].
      all: rewrite bind_Ok; intros (h & _ & Htl); apply Htail in Htl as (? & ? & ? & _); done. }
  split; [done|split; [done|split; [done|]]].
  unfold vdp_update, update_delta_ms. rewrite Hl, Hs. unfold inUnit_MS, SIMTIME_MS.
  split; intros Hn.
  - rewrite Z.quot_small by lia. done.
  - intros v''. assert (0 < (now2 - now) ÷ 10 ^ 9) as Hd.
    { apply Z.quot_str_pos. lia. }
    destruct (Z.ltb_spec 0 ((now2 - now) ÷ 10 ^ 9)); [|lia].
    rewrite bind_Ok. intros (h & _ & H2). apply Htail in H2 as (? & ? & _ & ?). done.
Qed.
End Provider.

(** ** Concrete values *)
(** The final clamp loses the sign: a sharp right turn (negative curvature
    beyond -1/m) is reported as a sharp left turn. *)
Example clamp_loses_sign : straight_or_clamped (d_of_Z (-2)) = d_of_Z 1.
Proof. vm_compute. reflexivity. Qed.

(** Directly north of the conversion's branch cut rounding yields exactly
    2 pi, which the code's own assertion excludes: [x] is the double following
    pi/2. *)
Example convertMobilityAngle_rounds_up :
  convertMobilityAngle half_pi = Ok d_zero /\
  convertMobilityAngle (dadd half_pi (ddiv (d_of_Z 1) (d_of_Z (2 ^ 52))))
    = Fail (AssertFailed "angle.value < 2.0 * pi").
Proof. vm_compute. split; reflexivity. Qed.

(** Radians per degree, for evaluation. *)
Definition degrees_to_radians (d : double) : double := ddiv (dmul d d_pi) (d_of_Z 180).

Definition ex_reading : controller_reading :=
  mkReading (d_of_Z 10) (d_of_Z 1) (mkPosition d_zero d_zero) (mkGeoPosition d_zero d_zero).

Theorem vdp_invariant_witness :
  exists v, vdp_run degrees_to_radians (vdp_create 7)
      [(0, ex_reading); (SIMTIME_MS 100, ex_reading)] = Ok v /\ vdp_wf degrees_to_radians v.
Proof.
  destruct (vdp_run degrees_to_radians (vdp_create 7)
    [(0, ex_reading); (SIMTIME_MS 100, ex_reading)]) as [v|] eqn:E.
  - exists v. split; [done|].
    exact (proj1 (vdp_invariant degrees_to_radians 7 _ v E)).
  - exfalso. revert E. vm_compute. discriminate.
Defined.

Theorem vdp_update_once_witness :
  exists v, vdp_update degrees_to_radians (vdp_create 7) 0 ex_reading = Ok v /\
    vdp_update degrees_to_radians v 5 ex_reading = Ok v.
Proof.
  destruct (vdp_update degrees_to_radians (vdp_create 7) 0 ex_reading) as [v|] eqn:E.
  - exists v. split; [done|].
    assert (0 <= 0 < simtime_max) as H1 by (vm_compute; split; congruence).
    assert (update_delta_ms (vdp_create 7) 0 <> 0) as H2 by (vm_compute; discriminate).
    destruct (vdp_update_once degrees_to_radians (vdp_create 7) 0 ex_reading v 5 ex_reading
      H1 ltac:(lia) E H2) as (_ & _ & _ & H & _).
    apply H. vm_compute. reflexivity.
  - exfalso. revert E. vm_compute. discriminate.
Defined.
