(* ===== verification/Cam.v ===== *)
(** * Cooperative awareness messages

    The message data of [src/src/artery/application/CaService.cc]:
    [createCooperativeAwarenessMessage] and [addLowFrequencyContainer] fill the
    ASN.1 structure (integer fields; the generated constants appear as numbers
    with their names in comments). *)

From S2P Require Import Prelude Float64 VehicleData.

Record HighFrequencyContainer := mkHfc {
  headingValue : Z;
  headingConfidence : Z;
  speedValue : Z;
  speedConfidence : Z;
  driveDirection : Z;
  longitudinalAccelerationValue : Z;
  longitudinalAccelerationConfidence : Z;
  curvatureValue : Z;
  curvatureConfidence : Z;
  curvatureCalculationMode : Z;
  yawRateValue : Z;
  vehicleLengthValue : Z;
  vehicleLengthConfidenceIndication : Z;
  vehicleWidth : Z
}.

Record LowFrequencyContainer := mkLfc {
  vehicleRole : Z;
  exteriorLights : list Z  (** octets *)
}.

Record BasicContainer := mkBasic {
  stationType : Z;
  altitudeValue : Z;
  altitudeConfidence : Z;
  ref_longitude : Z;
  ref_latitude : Z;
  semiMajorOrientation : Z;
  semiMajorConfidence : Z;
  semiMinorConfidence : Z
}.

Record Cam := mkCam {
  protocolVersion : Z;
  messageID : Z;
  stationID : Z;
  generationDeltaTime : Z;
  basicContainer : BasicContainer;
  highFrequencyContainer : HighFrequencyContainer;
  lowFrequencyContainer : option LowFrequencyContainer
}.

#[export] Instance Hfc_eq_dec : EqDecision HighFrequencyContainer.
Proof. solve_decision. Defined.
#[export] Instance Lfc_eq_dec : EqDecision LowFrequencyContainer.
Proof. solve_decision. Defined.
#[export] Instance Basic_eq_dec : EqDecision BasicContainer.
Proof. solve_decision. Defined.
#[export] Instance Cam_eq_dec : EqDecision Cam.
Proof. solve_decision. Defined.

Definition CurvatureValue_max : Z := 1023.
Definition YawRateValue_unavailable : Z := 32767.
Definition LongitudinalAccelerationValue_unavailable : Z := 161.

(** [0x80 >> 4]: daytime running lights are bit 4 of the bit string. *)
Definition ExteriorLights_daytimeRunningLightsOn : Z := 4.

(** The units the code converts to before rounding. *)
Inductive cam_unit := microdegree | decidegree | centimeter_per_second | degree_per_second.

Section Message.
(** Boost.Units' conversion of a quantity (stored in its SI or degree base unit)
    to another unit. *)
Variable quantity_cast : cam_unit -> double -> double.
(** The generated ASN.1 constraint check ([asn1c]). *)
Variable validate : Cam -> bool.

(** [round(q, unit)] of the anonymous template: [long round(...)]. *)
Definition round_to (q : double) (u : cam_unit) : res Z := d_round_long (quantity_cast u q).

Definition longitudinal_acceleration (lonAccelValue : double) : res Z :=
  if dleb (d_of_Z (-160)) lonAccelValue && dleb lonAccelValue (d_of_Z 161) then
    d_to_long (dmul lonAccelValue (d_of_Z 1))  (* pointOneMeterPerSecSquaredForward = 1 *)
  else Ok LongitudinalAccelerationValue_unavailable.

Definition curvature_value (curvature : double) : res Z :=
  v ← d_to_long (dmul (dabs curvature) (d_of_Z 10000));
  Ok (if CurvatureValue_max <=? v then CurvatureValue_max else v).

(** [round(...) * 1 * 100.0]: the product with a [double], converted to [long]. *)
Definition yaw_rate_value (yaw : double) : res Z :=
  r ← round_to yaw degree_per_second;
  v ← d_to_long (dmul (d_of_Z (r * 1)) (d_of_Z 100));
  Ok (if YawRateValue_unavailable <=? Z.abs v then YawRateValue_unavailable else v).

Definition createCooperativeAwarenessMessage (vdp : VehicleDataProvider) (genDeltaTime : Z) :
    res Cam :=
  lon ← round_to (longitude (mGeoPosition vdp)) microdegree;
  lat ← round_to (latitude (mGeoPosition vdp)) microdegree;
  heading ← round_to (mHeading vdp) decidegree;
  speed ← round_to (mSpeed vdp) centimeter_per_second;
  accel ← longitudinal_acceleration (mAccel vdp);
  curv ← curvature_value (mCurvature vdp);
  yaw ← yaw_rate_value (mYawRate vdp);
  let message :=
    mkCam 1 2 (mStationId vdp) (genDeltaTime * 1)
      (mkBasic 5                (* StationType_passengerCar *)
         800001 15              (* altitude unavailable *)
         (lon * 10) (lat * 10)
         3601 4095 4095)        (* confidence ellipse unavailable *)
      (mkHfc heading 10 (speed * 1) (1 * 3)
         (if dleb d_zero (mSpeed vdp) then 0 else 1)
         accel 102 curv 7 0 yaw 1023 0 62)
      None in
  if validate message then Ok message
  else Fail (RuntimeError "Invalid High Frequency CAM").

(** [addLowFrequencyContainer]; [allocate] clears the octet. *)
Definition addLowFrequencyContainer (message : Cam) : res Cam :=
  let lights := Z.lor 0 (Z.shiftl 1 (7 - ExteriorLights_daytimeRunningLightsOn)) in
  let m :=
    mkCam (protocolVersion message) (messageID message) (stationID message)
      (generationDeltaTime message) (basicContainer message) (highFrequencyContainer message)
      (Some (mkLfc 0 [lights])) in
  if validate m then Ok m else Fail (RuntimeError "Invalid Low Frequency CAM").

#[local] Opaque dmul dadd dsub ddiv dleb.

Lemma curvature_value_range c v : curvature_value c = Ok v -> 0 <= v <= CurvatureValue_max.
Proof.
  unfold curvature_value, CurvatureValue_max. rewrite bind_Ok. intros (w & Hw & [= <-]).
  apply d_to_long_nonneg in Hw; [zcases; lia|].
  apply d_pos_mul; [apply d_pos_abs|apply d_pos_of_Z].
Qed.

Lemma yaw_rate_value_range y v : yaw_rate_value y = Ok v -> Z.abs v <= YawRateValue_unavailable.
Proof.
  unfold yaw_rate_value, YawRateValue_unavailable. rewrite bind_Ok. intros (r & _ & H).
  apply bind_Ok in H as (w & _ & [= <-]). zcases; lia.
Qed.

(** Contents of a created message: it has passed the constraint check; its
    header and time stamp are the given ones; the curvature lies in the field's
    range (magnitude only, saturated at 1023), the yaw rate is saturated to
    "unavailable"; the longitudinal acceleration is "unavailable" exactly when the
    value is outside [-160, 161] or not a number, and otherwise the vehicle's
    acceleration in metres per second squared, truncated (although the field
    counts tenths); there is no low frequency container. *)
Theorem created_cam_fields vdp dt m :
  createCooperativeAwarenessMessage vdp dt = Ok m ->
  validate m = true /\ protocolVersion m = 1 /\ messageID m = 2 /\
  stationID m = mStationId vdp /\ generationDeltaTime m = dt /\
  lowFrequencyContainer m = None /\
  0 <= curvatureValue (highFrequencyContainer m) <= CurvatureValue_max /\
  Z.abs (yawRateValue (highFrequencyContainer m)) <= YawRateValue_unavailable /\
  (if dleb (d_of_Z (-160)) (mAccel vdp) && dleb (mAccel vdp) (d_of_Z 161)
   then d_to_long (dmul (mAccel vdp) (d_of_Z 1))
        = Ok (longitudinalAccelerationValue (highFrequencyContainer m))
   else longitudinalAccelerationValue (highFrequencyContainer m)
        = LongitudinalAccelerationValue_unavailable).
Proof.
  unfold createCooperativeAwarenessMessage. do 4 (rewrite bind_Ok; intros (? & _ & H); revert H).
  rewrite bind_Ok; intros (accel & Ha & H). apply bind_Ok in H as (curv & Hc & H).
  apply bind_Ok in H as (yaw & Hy & H). cbv zeta in H.
  destruct (validate _) eqn:Hv; [|done]. injection H as <-.
  cbn [protocolVersion messageID stationID generationDeltaTime lowFrequencyContainer
    highFrequencyContainer curvatureValue yawRateValue longitudinalAccelerationValue].
  apply curvature_value_range in Hc. apply yaw_rate_value_range in Hy.
  do 4 (split; [done|]). split; [lia|]. do 3 (split; [done|]).
  unfold longitudinal_acceleration in Ha. destruct (_ && _); [done|]. by injection Ha.
Qed.

Lemma addLowFrequencyContainer_fields m m' :
  addLowFrequencyContainer m = Ok m' ->
  lowFrequencyContainer m' = Some (mkLfc 0 [0x08]) /\
  stationID m' = stationID m /\ generationDeltaTime m' = generationDeltaTime m /\
  highFrequencyContainer m' = highFrequencyContainer m /\ validate m' = true.
Proof.
  unfold addLowFrequencyContainer. destruct (validate _) eqn:Hv; [|done].
  intros [= <-]. done.
Qed.
End Message.

(** Conversion factors of the units, for evaluation. *)
Definition ex_quantity_cast (u : cam_unit) (x : double) : double :=
  match u with
  | microdegree => dmul x (d_of_Z 1000000)
  | decidegree => ddiv (dmul x (d_of_Z 1800)) d_pi
  | centimeter_per_second => dmul x (d_of_Z 100)
  | degree_per_second => ddiv (dmul x (d_of_Z 180)) d_pi
  end.

(** A vehicle braking with 3.5 m/s^2. *)
Definition ex_vdp : VehicleDataProvider :=
  mkVdp 7 (mkPosition d_zero d_zero) (mkGeoPosition (d_of_Z 48) (d_of_Z 11))
    (d_of_Z 20) (d_lit (-7) 2) (d_of_Z 1) d_zero (d_lit 1 100) d_zero 0 [] [] d_zero.

(** The longitudinal acceleration field counts 0.1 m/s^2, yet braking with
    3.5 m/s^2 is encoded as -3, that is -0.3 m/s^2. *)
Theorem created_cam_fields_witness :
  exists m, createCooperativeAwarenessMessage ex_quantity_cast (fun _ => true) ex_vdp 1234 = Ok m /\
    stationID m = 7 /\
    longitudinalAccelerationValue (highFrequencyContainer m) = -3.
Proof.
  destruct (createCooperativeAwarenessMessage ex_quantity_cast (fun _ => true) ex_vdp 1234)
    as [m|] eqn:E; [|exfalso; revert E; vm_compute; discriminate].
  exists m. split; [done|].
  pose proof (created_cam_fields ex_quantity_cast (fun _ => true) ex_vdp 1234 m E)
    as (_ & _ & _ & Hid & _ & _ & _ & _ & Ha).
  split; [exact Hid|]. vm_compute in Ha. injection Ha as Ha. symmetry. exact Ha.
Defined.
