(* ===== verification/Ldm.v ===== *)
(** * Local dynamic map

    [src/src/artery/application/LocalDynamicMap.{h,cc}]: the last CAM received
    from every station, kept until 1100 ms after its generation. *)

From S2P Require Import Prelude OMap Timer Float64 VehicleData Cam.

Record AwarenessEntry := mkEntry { expiry : simtime; object : Cam }.

(** [std::map<StationID, AwarenessEntry>], ordered by station id. *)
Abbreviation ldm := (list (Z * AwarenessEntry)) (only parsing).

Definition lifetime : simtime := SIMTIME_MS 1100.

Definition updateAwareness (mTimer : Timer) (now : simtime) (m : ldm) (msg : Cam) : res ldm :=
  tai ← reconstructMilliseconds mTimer now (generationDeltaTime msg);
  let exp := getSimTimeFor mTimer tai + lifetime in
  if (exp <? now) || (now + 2 * lifetime <? exp) then Ok m
  else
    let entry := mkEntry exp msg in
    Ok (match om_find (stationID msg) m with
        | Some _ => om_set (stationID msg) entry m
        | None => om_emplace (stationID msg) entry m
        end).

(** The erasing loop of [dropExpired]. *)
Fixpoint dropExpired (now : simtime) (m : ldm) : ldm :=
  match m with
  | [] => []
  | (id, e) :: m' => if expiry e <? now then dropExpired now m' else (id, e) :: dropExpired now m'
  end.

Definition count (predicate : Cam -> bool) (m : ldm) : Z :=
  Z.of_nat (length (List.filter (fun p => predicate (object p.2)) m)).

(** ** Specification: a finite map of unexpired entries *)
Lemma dropExpired_filter now m :
  dropExpired now m = filter (fun p => now <= expiry p.2) m.
Proof.
  induction m as [|[id e] m IH]; [done|]. rewrite filter_cons. cbn [dropExpired].
  destruct (Z.ltb_spec (expiry e) now).
  - by rewrite decide_False by (cbn; lia).
  - by rewrite decide_True, IH by (cbn; lia).
Qed.

Lemma dropExpired_find now m id :
  om_wf m ->
  om_find id (dropExpired now m) =
    match om_find id m with
    | Some e => if decide (now <= expiry e) then Some e else None
    | None => None
    end.
Proof. intros Hm. rewrite dropExpired_filter. by rewrite om_find_filter. Qed.

Lemma dropExpired_wf now m : om_wf m -> om_wf (dropExpired now m).
Proof. rewrite dropExpired_filter. apply om_wf_filter. Qed.

(** The entry is written in both branches of [updateAwareness]. *)
Lemma ldm_store (id : Z) (e : AwarenessEntry) m :
  match om_find id m with
  | Some _ => om_set id e m
  | None => om_emplace id e m
  end = om_set id e m.
Proof. unfold om_emplace. by destruct (om_find id m). Qed.

Lemma updateAwareness_store t now m msg tai :
  reconstructMilliseconds t now (generationDeltaTime msg) = Ok tai ->
  let exp := getSimTimeFor t tai + lifetime in
  updateAwareness t now m msg =
    Ok (if decide (now <= exp <= now + 2 * lifetime)
        then om_set (stationID msg) (mkEntry exp msg) m else m).
Proof.
  intros Ht exp. unfold updateAwareness. rewrite Ht. cbn [mbind res_bind]. fold exp.
  destruct (Z.ltb_spec exp now), (Z.ltb_spec (now + 2 * lifetime) exp); cbn [orb].
  4: { rewrite decide_True by lia. by rewrite ldm_store. }
  all: by rewrite decide_False by lia.
Qed.

(** ** Histories *)
Inductive ldm_op := Receive (msg : Cam) | Drop.

Definition ldm_step (t : Timer) (m : ldm) (op : simtime * ldm_op) : res ldm :=
  match op.2 with
  | Receive msg => updateAwareness t op.1 m msg
  | Drop => Ok (dropExpired op.1 m)
  end.

Definition ldm_run (t : Timer) (l : list (simtime * ldm_op)) : res ldm :=
  res_fold (ldm_step t) l [].

Definition ldm_inv (now : simtime) (m : ldm) : Prop :=
  om_wf m /\
  forall id e, om_find id m = Some e ->
    stationID (object e) = id /\ expiry e <= now + 2 * lifetime.

Lemma updateAwareness_inv t now now' m msg m' :
  ldm_inv now m -> now <= now' -> updateAwareness t now' m msg = Ok m' -> ldm_inv now' m'.
Proof.
  intros [Hwf He] Hle Hu.
  destruct (reconstructMilliseconds t now' (generationDeltaTime msg)) as [tai|] eqn:Ht;
    [|unfold updateAwareness in Hu; by rewrite Ht in Hu].
  rewrite (updateAwareness_store _ _ _ _ _ Ht) in Hu. injection Hu as <-.
  case_decide as Hd; [|split; [done|]; intros id e Hf; apply He in Hf; lia].
  split; [by apply om_wf_set|]. intros id e. rewrite om_find_set.
  case_decide; [intros [= <-]; cbn; lia|]. intros Hf; apply He in Hf; lia.
Qed.

Lemma dropExpired_inv now now' m :
  ldm_inv now m -> now <= now' -> ldm_inv now' (dropExpired now' m).
Proof.
  intros [Hwf He] Hle. split; [by apply dropExpired_wf|]. intros id e.
  rewrite dropExpired_find by done. destruct (om_find id m) eqn:Hf; [|done].
  case_decide; [|done]. intros [= <-]. apply He in Hf. lia.
Qed.

Lemma ldm_run_inv t l m now :
  StronglySorted Z.le (l.*1) -> Forall (fun p => p.1 <= now) l ->
  ldm_run t l = Ok m -> ldm_inv now m.
Proof.
  revert m now. induction l as [|[tm op] l IH] using rev_ind; intros m now Hs Hle.
  - intros [= <-]. split; [constructor|done].
  - unfold ldm_run. rewrite res_fold_app, bind_Ok. intros (m0 & Hm0 & Hop).
    cbn in Hop. apply bind_Ok in Hop as (m1 & Hm1 & [= <-]).
    apply Forall_app in Hle as [_ Hle]. inversion_clear Hle as [|? ? Htm _]. cbn in Htm.
    assert (ldm_inv tm m0) as Hinv.
    { apply IH; [| |done].
      - rewrite fmap_app in Hs. by eapply StronglySorted_app_1_l.
      - rewrite fmap_app in Hs. apply Forall_forall. intros x Hx.
        eapply StronglySorted_app_1_elem_of; [exact Hs| |left].
        apply list_elem_of_fmap; eauto. }
    assert (ldm_inv tm m1) as [Hwf He].
    { unfold ldm_step in Hm1. cbn in Hm1. destruct op as [msg|].
      - by eapply updateAwareness_inv in Hm1.
      - injection Hm1 as <-. by eapply dropExpired_inv. }
    split; [done|]. intros id e Hf. apply He in Hf. lia.
Qed.

(** Invariant of the local dynamic map: whatever messages are received and
    whenever expired entries are dropped (in the order of simulation time), the
    map has one entry per station, filed under the id of its message, no entry
    outlives the present by more than two lifetimes (2200 ms); right after
    dropping, no entry is expired, and [count] counts stations. *)
Theorem ldm_bounded_lifetime t l m now :
  StronglySorted Z.le (l.*1) -> Forall (fun p => p.1 <= now) l -> ldm_run t l = Ok m ->
  NoDup (om_keys m) /\
  (forall id e, om_find id m = Some e ->
     stationID (object e) = id /\ expiry e <= now + 2 * lifetime) /\
  (forall id e, om_find id (dropExpired now m) = Some e <->
     om_find id m = Some e /\ now <= expiry e) /\
  count (fun _ => true) m = Z.of_nat (length (om_keys m)).
Proof.
  intros Hs Hle Hr. destruct (ldm_run_inv _ _ _ _ Hs Hle Hr) as [Hwf He].
  split; [by apply om_wf_NoDup|split; [done|split]].
  - intros id e. rewrite dropExpired_find by done.
    destruct (om_find id m) as [e'|]; [|naive_solver]. case_decide; naive_solver.
  - unfold count, om_keys. rewrite length_fmap. do 2 f_equal.
    clear. induction m as [|p m IH]; cbn; [done|by rewrite IH].
Qed.

(** ** Awareness of a station *)
Lemma quot_ms us : SIMTIME_MS us ÷ 10 ^ 6 = us * 1000.
Proof.
  unfold SIMTIME_MS. replace (us * 10 ^ 9) with (us * 1000 * 10 ^ 6) by lia.
  apply Z.quot_mul; lia.
Qed.

Lemma tai_of_gen t g :
  0 <= g -> 0 <= mTimebase t -> mTimebase t `rem` 1000 = 0 ->
  mTimebase t + g * 1000 < 2 ^ 64 ->
  countTaiMilliseconds (getTimeFor t (SIMTIME_MS g)) = Z.quot (mTimebase t) 1000 + g /\
  getSimTimeFor t (milliseconds_tp (Z.quot (mTimebase t) 1000 + g)) = SIMTIME_MS g.
Proof.
  intros Hg Htb Hrem Hlt. pose proof (Z.quot_rem' (mTimebase t) 1000) as Hq.
  pose proof (Z.quot_pos (mTimebase t) 1000 Htb ltac:(lia)) as Hpos.
  unfold countTaiMilliseconds, getTimeFor, inUnit_US. rewrite quot_ms. split.
  - replace (mTimebase t + g * 1000) with ((mTimebase t ÷ 1000 + g) * 1000) by lia.
    rewrite Z.quot_mul by lia. apply u64_small. lia.
  - unfold getSimTimeFor, milliseconds_tp, SIMTIME_US, SIMTIME_MS. zcases; lia.
Qed.

(** [C5] Awareness: let a CAM carry the time stamp of a moment [g] (in
    milliseconds of simulation time, with a common time base of whole
    milliseconds).  A station receiving it at [now], at most 32767 ms apart,
    stores it exactly when [now] is within 1100 ms of [g], with expiry
    [g] + 1100 ms, replacing what it knew of that station and nothing else; and
    unless another message of the station arrives, it is still there after
    dropping at a later time exactly when that time is not after the expiry. *)
Theorem ldm_awareness t m msg g now :
  0 <= g -> 0 <= mTimebase t -> mTimebase t `rem` 1000 = 0 ->
  2 ^ 16 <= countTaiMilliseconds (getCurrentTime t now) < 2 ^ 63 ->
  mTimebase t + g * 1000 < 2 ^ 64 ->
  Z.abs (countTaiMilliseconds (getTimeFor t (SIMTIME_MS g))
         - countTaiMilliseconds (getCurrentTime t now)) <= 0x7fff ->
  generationDeltaTime msg = u16 (countTaiMilliseconds (getTimeFor t (SIMTIME_MS g))) ->
  om_wf m ->
  exists m', updateAwareness t now m msg = Ok m' /\ om_wf m' /\
    (forall id, id <> stationID msg -> om_find id m' = om_find id m) /\
    om_find (stationID msg) m' =
      (if decide (Z.abs (now - SIMTIME_MS g) <= SIMTIME_MS 1100)
       then Some (mkEntry (SIMTIME_MS (g + 1100)) msg) else om_find (stationID msg) m) /\
    (Z.abs (now - SIMTIME_MS g) <= SIMTIME_MS 1100 ->
     forall later, om_find (stationID msg) (dropExpired later m') =
       if decide (later <= SIMTIME_MS (g + 1100))
       then Some (mkEntry (SIMTIME_MS (g + 1100)) msg) else None).
Proof.
  intros Hg Htb Hrem Hnow Hlt Habs Hdt Hwf.
  destruct (tai_of_gen t g Hg Htb Hrem Hlt) as [Hc Hs].
  assert (reconstructMilliseconds t now (generationDeltaTime msg) =
    Ok (milliseconds_tp (mTimebase t ÷ 1000 + g))) as Hr.
  { rewrite Hdt, <- Hc. unfold reconstructMilliseconds. by rewrite (reconstruct_unique _ _ Hnow Habs). }
  pose proof (updateAwareness_store t now m msg _ Hr) as Hu. cbv zeta in Hu. rewrite Hs in Hu.
  replace (SIMTIME_MS g + lifetime) with (SIMTIME_MS (g + 1100)) in Hu
    by (unfold SIMTIME_MS, lifetime, SIMTIME_MS; lia).
  assert (now <= SIMTIME_MS (g + 1100) <= now + 2 * lifetime <->
    Z.abs (now - SIMTIME_MS g) <= SIMTIME_MS 1100) as Hiff
    by (unfold SIMTIME_MS, lifetime, SIMTIME_MS; lia).
  destruct (decide (Z.abs (now - SIMTIME_MS g) <= SIMTIME_MS 1100)) as [Hd|Hd].
  - rewrite decide_True in Hu by tauto. eexists; split; [exact Hu|].
    split; [by apply om_wf_set|]. split; [intros; by apply om_find_set_ne|].
    split; [apply om_find_set_eq|]. intros _ later.
    rewrite dropExpired_find by (by apply om_wf_set). by rewrite om_find_set_eq.
  - rewrite decide_False in Hu by tauto. exists m. by rewrite Hu.
Qed.

(** ** Witnesses *)
Definition ex_cam (id dt : Z) : Cam :=
  mkCam 1 2 id dt (mkBasic 5 800001 15 0 0 3601 4095 4095)
    (mkHfc 0 10 0 3 0 0 102 0 7 0 0 1023 0 62) None.

Definition ex_timer : Timer := mkTimer (400 * 10 ^ 12).

Theorem ldm_bounded_lifetime_witness :
  exists m, ldm_run ex_timer
      [(SIMTIME_MS 50, Receive (ex_cam 7 (u16 (400 * 10 ^ 9 + 20)))); (SIMTIME_MS 60, Drop)] = Ok m /\
    count (fun _ => true) m = 1.
Proof.
  destruct (ldm_run ex_timer
    [(SIMTIME_MS 50, Receive (ex_cam 7 (u16 (400 * 10 ^ 9 + 20)))); (SIMTIME_MS 60, Drop)])
    as [m|] eqn:E; [|exfalso; revert E; vm_compute; discriminate].
  exists m. split; [done|].
  assert (count (λ _, true) m = Z.of_nat (length (om_keys m))) as Hc.
  { refine (proj2 (proj2 (proj2 (ldm_bounded_lifetime ex_timer _ m (SIMTIME_MS 60) _ _ E)))).
    - repeat constructor. vm_compute. congruence.
    - repeat constructor; vm_compute; congruence. }
  rewrite Hc. revert E. vm_compute. by intros [= <-].
Defined.

Theorem ldm_awareness_witness :
  exists m', updateAwareness ex_timer (SIMTIME_MS 50) [] (ex_cam 7 (u16 (400 * 10 ^ 9 + 20))) = Ok m' /\
    om_find 7 m' = Some (mkEntry (SIMTIME_MS 1120) (ex_cam 7 (u16 (400 * 10 ^ 9 + 20)))).
Proof.
  destruct (ldm_awareness ex_timer [] (ex_cam 7 (u16 (400 * 10 ^ 9 + 20))) 20 (SIMTIME_MS 50))
    as (m' & Hm' & _ & _ & Hf & _); try (vm_compute; repeat split; congruence).
  - constructor.
  - exists m'. split; [exact Hm'|]. refine (eq_trans Hf _). vm_compute. reflexivity.
Defined.
