(* ===== verification/Middleware.v ===== *)
(** * Middleware: dispatch of packets to and from services

    [src/src/artery/application/TransportDispatcher.{h,cc}], [Middleware.cc],
    [VehicleMiddleware.cc], [ItsG5BaseService.cc], [NetworkInterface.cc] and
    [TransportDescriptor.h].  Objects shared by pointer are identified by their
    address (a number); [std::set]s of pointers are ordered by it. *)

From S2P Require Import Prelude OMap Float64 Config Timer Channel VehicleData Cam Ldm Identity.

Abbreviation PortNumber := Z (only parsing).
Abbreviation svcid := nat (only parsing).
Abbreviation TransportDescriptor := (Z * Z)%type (only parsing).
Definition td_channel (td : TransportDescriptor) : ChannelNumber := td.1.
Definition td_port (td : TransportDescriptor) : PortNumber := td.2.

(** ** TransportDispatcher *)
Record TransportDispatcher := mkDispatcher {
  mListeners : list (TransportDescriptor * list svcid);
  mPromiscuousListeners : list (ChannelNumber * list svcid)
}.

Definition dispatcher_empty : TransportDispatcher := mkDispatcher [] [].

(** [None] is the null pointer. *)
Definition addListener (d : TransportDispatcher) (ifc : option svcid) (td : TransportDescriptor) :
    TransportDispatcher :=
  match ifc with
  | Some i =>
      mkDispatcher (om_set td (os_insert i (default [] (om_find td (mListeners d)))) (mListeners d))
        (mPromiscuousListeners d)
  | None => d
  end.

Definition addPromiscuousListener (d : TransportDispatcher) (ifc : option svcid)
    (ch : ChannelNumber) : TransportDispatcher :=
  match ifc with
  | Some i =>
      mkDispatcher (mListeners d)
        (om_set ch (os_insert i (default [] (om_find ch (mPromiscuousListeners d))))
           (mPromiscuousListeners d))
  | None => d
  end.

Inductive UpperProtocol := Unknown | BTP_A | BTP_B | IPv6.

(** The calls a dispatch makes, in order; a listener owns the packet it gets. *)
Inductive delivery (P : Type) :=
| Tap (listener : svcid) (packet : P)
| Indicate (listener : svcid) (packet : P).
Arguments Tap {P} listener packet.
Arguments Indicate {P} listener packet.

Section Dispatch.
Context {P : Type}.
(** Vanetza's BTP parser: destination port, and the packet without the header. *)
Variable parse_btp_b : P -> PortNumber * P.

(** The loop over the regular listeners; [packet] is the [unique_ptr], null once
    it has been moved from. *)
Fixpoint indicate_loop (ls : list svcid) (pending : Z) (packet : option P) :
    res (list (delivery P)) :=
  match ls with
  | [] => Ok []
  | l :: ls' =>
      match packet with
      | None => Fail (Undefined "dereference of a moved packet")
      | Some p =>
          rest ← indicate_loop ls' (u32 (pending - 1)) (if 1 <? pending then packet else None);
          Ok (Indicate l p :: rest)
      end
  end.

(** [TransportDispatcher::indicate], called by the transport handler of a network
    interface with channel [channel]. *)
Definition dispatcher_indicate (d : TransportDispatcher) (upper_protocol : UpperProtocol)
    (packet : option P) (channel : ChannelNumber) : res (list (delivery P)) :=
  match upper_protocol, packet with
  | BTP_B, Some p =>
      let '(destination_port, p) := parse_btp_b p in
      let taps := match om_find channel (mPromiscuousListeners d) with
                  | Some ls => (fun l => Tap l p) <$> ls
                  | None => []
                  end in
      regular ← match om_find (channel, destination_port) (mListeners d) with
                | Some ls => indicate_loop ls (u32 (Z.of_nat (length ls))) (Some p)
                | None => Ok []
                end;
      Ok (taps ++ regular)
  | _, _ => Ok []
  end.
End Dispatch.

(** ** Middleware *)
Definition getChannel (cfg : cXMLElement) : res ChannelNumber :=
  channel ← match getAttribute cfg "channel" with
            | Some ch_attr => parseChannelNumber ch_attr
            | None => Ok 0
            end;
  Ok (if channel =? 0 then CCH else channel).

(** What the middleware asks of a service's module type. *)
Record ModuleType := mkModuleType {
  mt_name : string;
  is_service : bool;          (** derives from [ItsG5BaseService] *)
  is_promiscuous : bool;      (** derives from [ItsG5PromiscuousService] *)
  requiresListener : bool
}.

Inductive mw_event :=
| Created (svc : svcid) (name : string)
| Initialized (svc : svcid) (stage : nat)
| Triggered (svc : svcid)
| Scheduled (at_ : simtime).

Record Middleware := mkMiddleware {
  mTransportDispatcher : TransportDispatcher;
  mServices : list svcid;
  m_listeners : list (svcid * list TransportDescriptor);  (** of every service *)
  created : nat;
  rng_draws : nat;
  mLocalDynamicMap : list (Z * AwarenessEntry);
  mUpdateInterval : simtime;
  log : list mw_event
}.

Definition addTransportDescriptor (m : Middleware) (svc : svcid) (td : TransportDescriptor) :
    Middleware :=
  mkMiddleware (mTransportDispatcher m) (mServices m)
    (om_set svc (os_insert td (default [] (om_find svc (m_listeners m)))) (m_listeners m))
    (created m) (rng_draws m) (mLocalDynamicMap m) (mUpdateInterval m) (log m).

Definition set_dispatcher (m : Middleware) (d : TransportDispatcher) : Middleware :=
  mkMiddleware d (mServices m) (m_listeners m) (created m) (rng_draws m)
    (mLocalDynamicMap m) (mUpdateInterval m) (log m).
Definition log_event (m : Middleware) (e : mw_event) : Middleware :=
  mkMiddleware (mTransportDispatcher m) (mServices m) (m_listeners m) (created m) (rng_draws m)
    (mLocalDynamicMap m) (mUpdateInterval m) (log m ++ [e]).
Definition set_rng (m : Middleware) (n : nat) : Middleware :=
  mkMiddleware (mTransportDispatcher m) (mServices m) (m_listeners m) (created m) n
    (mLocalDynamicMap m) (mUpdateInterval m) (log m).
Definition add_service (m : Middleware) (svc : svcid) : Middleware :=
  mkMiddleware (mTransportDispatcher m) (os_insert svc (mServices m)) (m_listeners m) (created m)
    (rng_draws m) (mLocalDynamicMap m) (mUpdateInterval m) (log m).
Definition create_module (m : Middleware) (svc : svcid) (name : string) : Middleware :=
  mkMiddleware (mTransportDispatcher m) (mServices m) (m_listeners m) (S (created m))
    (rng_draws m) (mLocalDynamicMap m) (mUpdateInterval m) (log m ++ [Created svc name]).

(** [ItsG5BaseService::getPortNumber] *)
Fixpoint port_of_channel (l : list TransportDescriptor) (ch : ChannelNumber) : PortNumber :=
  match l with
  | [] => 0
  | td :: l' => if td_channel td =? ch then td_port td else port_of_channel l' ch
  end.
Definition getPortNumber (m : Middleware) (svc : svcid) (ch : ChannelNumber) : PortNumber :=
  port_of_channel (default [] (om_find svc (m_listeners m))) ch.

Section Initialize.
(** [cModuleType::get], [boost::lexical_cast<PortNumber>], the filter rules'
    parameters, the address of the n-th created module, and whether a module has
    a further initialisation stage ([callInitialize]'s result). *)
Variable cModuleType_get : option string -> res ModuleType.
Variable lexical_cast_port : string -> res PortNumber.
Variable regex : string -> res (string -> bool).
Variable lexical_cast_double : string -> res double.
Variable uniform : nat -> double.
Variable address : nat -> svcid.
Variable callInitialize : ModuleType -> nat -> bool.
Variable mIdentity : Identity.

(** One [<listener>] element; the counters are [unsigned]. *)
Definition configure_listener (mt : ModuleType) (svc : svcid)
    (st : Middleware * Z * Z) (listener : cXMLElement) : res (Middleware * Z * Z) :=
  let '(m, ports, channels) := st in
  match getAttribute listener "port" with
  | Some p =>
      port ← lexical_cast_port p;
      ch ← getChannel listener;
      let td := (ch, port) in
      let m := set_dispatcher m (addListener (mTransportDispatcher m) (Some svc) td) in
      let m := addTransportDescriptor m svc td in
      Ok (m, u32 (ports + 1), channels)
  | None =>
      if is_promiscuous mt && bool_decide (is_Some (getAttribute listener "channel")) then
        channel ← getChannel listener;
        let m := set_dispatcher m
          (addPromiscuousListener (mTransportDispatcher m) (Some svc) channel) in
        Ok (m, ports, u32 (channels + 1))
      else Ok (m, ports, channels)
  end.

(** [for (int i = 0; i <= stage; ++i) if (!module->callInitialize(i)) break;] *)
Fixpoint finalize_loop (mt : ModuleType) (svc : svcid) (i : nat) (remaining : nat)
    (m : Middleware) : Middleware :=
  match remaining with
  | O => m
  | S n =>
      let m := log_event m (Initialized svc i) in
      if callInitialize mt i then finalize_loop mt svc (S i) n m else m
  end.

(** Attaching an applicable service to the middleware. *)
Definition attach_service (stage : nat) (mt : ModuleType) (service_cfg : cXMLElement)
    (m : Middleware) : res Middleware :=
  let service_name := default (mt_name mt) (getAttribute service_cfg "name") in
  let svc := address (created m) in
  let m := create_module m svc service_name in
  if is_service mt then
    r ← res_fold (configure_listener mt svc) (getChildrenByTagName service_cfg "listener")
          (m, 0, 0);
    let '(m, ports, channels) := r : Middleware * Z * Z in
    if (ports =? 0) && negb (is_promiscuous mt) && requiresListener mt then
      Fail (RuntimeError "Listening ports are required but none have been specified")
    else
      let m :=
        if is_promiscuous mt && (channels =? 0) then
          set_dispatcher m (addPromiscuousListener (mTransportDispatcher m) (Some svc) CCH)
        else m in
      Ok (finalize_loop mt svc 0 (S stage) (add_service m svc))
  else Fail (RuntimeError "module is not of type ItsG5BaseService").

Definition initialize_service (stage : nat) (m : Middleware) (service_cfg : cXMLElement) :
    res Middleware :=
  mt ← cModuleType_get (getAttribute service_cfg "type");
  r ← match getFirstChildWithTag service_cfg "filters" with
      | Some service_filters =>
          applyFilterConfig regex lexical_cast_double uniform mIdentity service_filters (rng_draws m)
      | None => Ok (true, rng_draws m)
      end;
  let '(service_applicable, draws) := r : bool * nat in
  let m := set_rng m draws in
  if service_applicable then attach_service stage mt service_cfg m else Ok m.

Definition initializeServices (config : cXMLElement) (stage : nat) (m : Middleware) :
    res Middleware :=
  res_fold (initialize_service stage) (getChildrenByTagName config "service") m.
End Initialize.

(** [updateServices]: expired awareness entries go first, then every service is
    triggered (in address order), then the next update is scheduled. *)
Definition updateServices (now : simtime) (m : Middleware) : Middleware :=
  mkMiddleware (mTransportDispatcher m) (mServices m) (m_listeners m) (created m) (rng_draws m)
    (dropExpired now (mLocalDynamicMap m)) (mUpdateInterval m)
    (log m ++ (Triggered <$> mServices m) ++ [Scheduled (now + mUpdateInterval m)]).

(** [handleMessage]: only the own update message is expected. *)
Definition middleware_handleMessage (now : simtime) (is_update : bool) (m : Middleware) :
    res Middleware :=
  if is_update then Ok (updateServices now m)
  else Fail (RuntimeError "Middleware cannot handle message").

(** [receiveSignal(Identity::changeSignal)]: the new identity and whether the
    registry is notified. *)
Definition middleware_identityChanged (self other : Identity) (changes : Z) : Identity * bool :=
  identity_update self other changes.

(** ** Transmission *)
Section Transmission.
Context {P : Type}.
(** Channel of every registered interface and the table's iteration order. *)
Variable chan : ifcid -> ChannelNumber.
Variable table : list ifcid.

(** The loop of [requestTransmission]; the accumulated calls of
    [Router::request] with the packet each gets. *)
Fixpoint transmit_loop (channels : list ChannelNumber) (size : Z) (pass : Z) (packet : option P) :
    res (list (ifcid * P) * Z) :=
  match channels with
  | [] => Ok ([], pass)
  | channel :: channels' =>
      match select chan table channel with
      | Some netifc =>
          let pass := u32 (pass + 1) in
          match packet with
          | None => Fail (Undefined "dereference of a moved packet")
          | Some p =>
              r ← transmit_loop channels' size pass (if pass <? size then packet else None);
              Ok ((netifc, p) :: (r : list (ifcid * P) * Z).1, r.2)
          end
      | None => transmit_loop channels' size pass packet
      end
  end.

Definition requestTransmission (policy : MultiChannelPolicy) (its_aid : ItsAid) (packet : P) :
    res (list (ifcid * P) * Z) :=
  let channels := allChannels policy its_aid in
  transmit_loop channels (Z.of_nat (length channels)) 0 (Some packet).

(** The overload with an explicit interface, and [ItsG5BaseService::request]
    choosing between the two. *)
Definition requestTransmission_on (netifc : ifcid) (packet : P) : list (ifcid * P) :=
  [(netifc, packet)].

Definition service_request (middleware : option MultiChannelPolicy) (its_aid : ItsAid)
    (packet : P) (interface : option ifcid) : res (list (ifcid * P)) :=
  match middleware with
  | None => Fail (AssertFailed "m_middleware")
  | Some policy =>
      match interface with
      | Some netifc => Ok (requestTransmission_on netifc packet)
      | None => fst <$> requestTransmission policy its_aid packet
      end
  end.

(** *** Properties *)
Definition served (channels : list ChannelNumber) : list ifcid :=
  omap (select chan table) channels.

Lemma served_length l : (length (served l) <= length l)%nat.
Proof. unfold served. induction l as [|c l IH]; cbn; [done|]. destruct (select _ _ c); cbn; lia. Qed.

Lemma served_cons c l :
  served (c :: l) = match select chan table c with Some i => i :: served l | None => served l end.
Proof. done. Qed.

Lemma transmit_loop_spec channels size pass p :
  0 <= pass -> pass + Z.of_nat (length channels) <= size -> size < 2 ^ 32 ->
  transmit_loop channels size pass (Some p) =
    Ok ((fun i => (i, p)) <$> served channels, pass + Z.of_nat (length (served channels))).
Proof.
  revert pass. induction channels as [|c cs IH]; intros pass H0 Hs Hm; cbn [transmit_loop].
  - by rewrite Z.add_0_r.
  - cbn [length] in Hs. rewrite served_cons. destruct (select chan table c) as [i|].
    + assert (u32 (pass + 1) = pass + 1) as -> by (apply wrap_small; lia).
      destruct (Z.ltb_spec (pass + 1) size) as [Hlt|Hge].
      * rewrite IH by lia. cbn [mbind res_bind fst snd fmap list_fmap length].
        do 2 f_equal. lia.
      * assert (cs = []) as -> by (destruct cs; [done|cbn [length] in Hs; lia]).
        cbn. do 2 f_equal.
    + apply IH; lia.
Qed.

(** A transmission request reaches every radio channel of the application
    once: for each of the channels the policy gives for the ITS-AID, in ascending
    channel order, the interface serving it (if any) is handed the packet, with
    the original contents; no packet is used after it has been moved to the last
    interface, and the number of passed interfaces is counted exactly. *)
Theorem requestTransmission_each_channel policy aid p :
  Z.of_nat (length (allChannels policy aid)) < 2 ^ 32 ->
  requestTransmission policy aid p =
    Ok ((fun i => (i, p)) <$> served (allChannels policy aid),
        Z.of_nat (length (served (allChannels policy aid)))).
Proof.
  intros Hl. unfold requestTransmission. rewrite transmit_loop_spec by lia. done.
Qed.

Lemma service_request_cases policy aid p ifc :
  Z.of_nat (length (allChannels policy aid)) < 2 ^ 32 ->
  service_request (Some policy) aid p ifc =
    Ok match ifc with
       | Some i => [(i, p)]
       | None => (fun i => (i, p)) <$> served (allChannels policy aid)
       end.
Proof.
  intros Hl. unfold service_request, requestTransmission. destruct ifc; [done|].
  by rewrite transmit_loop_spec by lia.
Qed.
End Transmission.

Theorem requestTransmission_each_channel_witness :
  requestTransmission (fun i => if decide (i = 1%nat) then 180 else 176) [1%nat; 2%nat]
    (mkPolicy 0 [(36, [174; 176; 180])]) 36 "cam" =
  Ok ([(2%nat, "cam"); (1%nat, "cam")], 2).
Proof.
  rewrite requestTransmission_each_channel; [reflexivity|].
  vm_compute. reflexivity.
Defined.

(** ** Dispatch properties *)
Definition listeners_of (d : TransportDispatcher) (td : TransportDescriptor) : list svcid :=
  default [] (om_find td (mListeners d)).
Definition taps_of (d : TransportDispatcher) (ch : ChannelNumber) : list svcid :=
  default [] (om_find ch (mPromiscuousListeners d)).
Definition descriptors_of (m : Middleware) (svc : svcid) : list TransportDescriptor :=
  default [] (om_find svc (m_listeners m)).

Lemma indicate_loop_spec {P} (ls : list svcid) (p : P) :
  Z.of_nat (length ls) < 2 ^ 32 ->
  indicate_loop ls (u32 (Z.of_nat (length ls))) (Some p) = Ok ((fun l => Indicate l p) <$> ls).
Proof.
  induction ls as [|l ls IH]; [done|]. intros Hl. cbn [length] in Hl. cbn [indicate_loop length].
  rewrite (u32_small (Z.of_nat (S (length ls)))) by lia.
  replace (Z.of_nat (S (length ls)) - 1) with (Z.of_nat (length ls)) by lia.
  destruct (Z.ltb_spec 1 (Z.of_nat (S (length ls)))) as [Hgt|Hle].
  - rewrite IH by lia. done.
  - assert (ls = []) as -> by (destruct ls; [done|cbn [length] in Hle; lia]). done.
Qed.

Lemma dispatcher_indicate_spec {P} parse (d : TransportDispatcher) (p p' : P) port ch :
  parse p = (port, p') -> Z.of_nat (length (listeners_of d (ch, port))) < 2 ^ 32 ->
  dispatcher_indicate parse d BTP_B (Some p) ch =
    Ok (((fun l => Tap l p') <$> taps_of d ch) ++
        ((fun l => Indicate l p') <$> listeners_of d (ch, port))).
Proof.
  intros Hp Hl. unfold dispatcher_indicate, taps_of, listeners_of in *. rewrite Hp.
  destruct (om_find (ch, port) (mListeners d)) as [ls|].
  - rewrite indicate_loop_spec by exact Hl. by destruct (om_find ch _).
  - by destruct (om_find ch _).
Qed.

(** The dispatcher and the services agree about the descriptors. *)
Definition mw_inv (m : Middleware) : Prop :=
  (forall td, os_wf (listeners_of (mTransportDispatcher m) td)) /\
  (forall ch, os_wf (taps_of (mTransportDispatcher m) ch)) /\
  (forall svc, os_wf (descriptors_of m svc)) /\
  (forall svc td, svc ∈ listeners_of (mTransportDispatcher m) td <-> td ∈ descriptors_of m svc).

Lemma listeners_of_add d i td td' :
  listeners_of (addListener d (Some i) td) td' =
    if decide (td' = td) then os_insert i (listeners_of d td) else listeners_of d td'.
Proof. unfold listeners_of; cbn. rewrite om_find_set. by case_decide. Qed.

Lemma taps_of_add d i ch ch' :
  taps_of (addPromiscuousListener d (Some i) ch) ch' =
    if decide (ch' = ch) then os_insert i (taps_of d ch) else taps_of d ch'.
Proof. unfold taps_of; cbn. rewrite om_find_set. by case_decide. Qed.

Lemma descriptors_of_add m svc td svc' :
  descriptors_of (addTransportDescriptor m svc td) svc' =
    if decide (svc' = svc) then os_insert td (descriptors_of m svc) else descriptors_of m svc'.
Proof. unfold descriptors_of; cbn. rewrite om_find_set. by case_decide. Qed.

Lemma mw_inv_listener m svc td :
  mw_inv m ->
  mw_inv (addTransportDescriptor
    (set_dispatcher m (addListener (mTransportDispatcher m) (Some svc) td)) svc td).
Proof.
  intros (Hl & Ht & Hd & Hiff). split; [|split; [exact Ht|split]].
  - intros td'. cbn [mTransportDispatcher addTransportDescriptor set_dispatcher].
    rewrite listeners_of_add. case_decide; [by apply os_wf_insert|done].
  - intros s. rewrite descriptors_of_add. case_decide; [by apply os_wf_insert; apply Hd|apply Hd].
  - intros s td'. cbn [mTransportDispatcher addTransportDescriptor set_dispatcher].
    rewrite listeners_of_add, descriptors_of_add.
    change (descriptors_of (set_dispatcher m _)) with (descriptors_of m).
    destruct (decide (td' = td)) as [->|], (decide (s = svc)) as [->|];
      rewrite ?elem_of_os_insert, ?Hiff; naive_solver.
Qed.

Lemma mw_inv_tap m svc ch :
  mw_inv m ->
  mw_inv (set_dispatcher m (addPromiscuousListener (mTransportDispatcher m) (Some svc) ch)).
Proof.
  intros (Hl & Ht & Hd & Hiff). split; [exact Hl|split; [|split; [exact Hd|exact Hiff]]].
  intros ch'. cbn [mTransportDispatcher set_dispatcher]. rewrite taps_of_add.
  case_decide; [by apply os_wf_insert|done].
Qed.

Lemma finalize_loop_fields ci mt svc i n m :
  let m' := finalize_loop ci mt svc i n m in
  mTransportDispatcher m' = mTransportDispatcher m /\ m_listeners m' = m_listeners m /\
  mServices m' = mServices m /\ mLocalDynamicMap m' = mLocalDynamicMap m /\
  (forall s name, Created s name ∈ log m' <-> Created s name ∈ log m).
Proof.
  revert i m. induction n as [|n IH]; intros i m; cbn [finalize_loop]; [done|].
  destruct (ci mt i).
  - destruct (IH (S i) (log_event m (Initialized svc i))) as (-> & -> & -> & -> & Hc).
    do 4 (split; [done|]). intros s name. rewrite Hc. cbn [log_event log]. set_solver.
  - do 4 (split; [done|]). intros s name. cbn [log_event log]. set_solver.
Qed.

(** What attaching services keeps: the invariant, and that the attached services
    are the created ones. *)
Definition mw_inv_services (m : Middleware) : Prop :=
  mw_inv m /\ os_wf (mServices m) /\
  (forall s, s ∈ mServices m <-> exists name, Created s name ∈ log m).

Section InitializeProperties.
Context (cModuleType_get : option string -> res ModuleType)
  (lexical_cast_port : string -> res PortNumber)
  (regex : string -> res (string -> bool)) (lexical_cast_double : string -> res double)
  (uniform : nat -> double) (address : nat -> svcid) (callInitialize : ModuleType -> nat -> bool)
  (mIdentity : Identity).

Lemma configure_listener_inv mt svc m ports channels x m' ports' channels' :
  configure_listener lexical_cast_port mt svc (m, ports, channels) x = Ok (m', ports', channels') ->
  (mw_inv m -> mw_inv m') /\
  mServices m' = mServices m /\ log m' = log m /\ mLocalDynamicMap m' = mLocalDynamicMap m /\
  ((ports <> 0 -> descriptors_of m svc <> []) -> ports' <> 0 -> descriptors_of m' svc <> []).
Proof.
  unfold configure_listener. destruct (getAttribute x "port") as [p|].
  - rewrite bind_Ok. intros (port & _ & H). apply bind_Ok in H as (ch & _ & [= <- <- <-]).
    split; [apply mw_inv_listener|]. do 3 (split; [done|]). intros _ _.
    rewrite descriptors_of_add, decide_True by done. apply os_insert_nonempty.
  - destruct (is_promiscuous mt && _).
    + rewrite bind_Ok. intros (ch & _ & [= <- <- <-]). split; [apply mw_inv_tap|]. done.
    + by intros [= <- <- <-].
Qed.

Lemma configure_listeners_inv mt svc l m m' ports' channels' :
  res_fold (configure_listener lexical_cast_port mt svc) l (m, 0, 0) = Ok (m', ports', channels') ->
  mw_inv m ->
  mw_inv m' /\ mServices m' = mServices m /\ log m' = log m /\
  mLocalDynamicMap m' = mLocalDynamicMap m /\
  (ports' <> 0 -> descriptors_of m' svc <> []).
Proof.
  intros Hr Hinv.
  set (Q := fun st : Middleware * Z * Z =>
    mw_inv st.1.1 /\ mServices st.1.1 = mServices m /\ log st.1.1 = log m /\
    mLocalDynamicMap st.1.1 = mLocalDynamicMap m /\
    (st.1.2 <> 0 -> descriptors_of st.1.1 svc <> [])).
  refine (res_fold_inv Q _ l (m, 0, 0) (m', ports', channels') _ _ Hr); unfold Q; [|cbn; done].
  intros x [[t pt] ct] [[t' pt'] ct'] _ (Hi & Hs & Hl & Hm & Hd) Hx; cbn in *.
  apply configure_listener_inv in Hx as (Hi' & -> & -> & -> & Hd'). auto 6.
Qed.

(** One more service: its id joins [mServices], its creation the log. *)
Lemma attach_service_inv stage mt cfg m m' :
  attach_service lexical_cast_port address callInitialize stage mt cfg m = Ok m' ->
  mw_inv_services m ->
  mw_inv_services m' /\ mLocalDynamicMap m' = mLocalDynamicMap m /\ is_service mt = true /\
  (requiresListener mt = true -> is_promiscuous mt = false ->
     descriptors_of m' (address (created m)) <> []).
Proof.
  unfold attach_service. set (svc := address (created m)). set (m1 := create_module _ _ _).
  destruct (is_service mt); [|done]. rewrite bind_Ok. intros ([[m2 ports] channels] & Hr & H).
  intros (Hinv & Hs & Hlog). assert (mw_inv m1) as Hm1 by exact Hinv.
  apply configure_listeners_inv in Hr as (Hi2 & Hs2 & Hl2 & Hm2 & Hd2); [|exact Hm1].
  destruct (_ && requiresListener mt) eqn:Hreq; [done|]. apply Ok_inj in H as <-.
  set (m3 := if is_promiscuous mt && (channels =? 0) then _ else _).
  assert (mw_inv m3 /\ mServices m3 = mServices m /\ log m3 = log m1 /\
    mLocalDynamicMap m3 = mLocalDynamicMap m /\ descriptors_of m3 svc = descriptors_of m2 svc)
    as (Hi3 & Hs3 & Hl3 & Hm3 & Hd3).
  { subst m3. destruct (is_promiscuous mt && _); [split; [by apply mw_inv_tap|]|]; done. }
  destruct (finalize_loop_fields callInitialize mt svc 0 (S stage) (add_service m3 svc))
    as (Hd & Hlst & Hserv & Hldm & Hc). fold svc.
  set (m4 := finalize_loop _ _ _ _ _ _) in *.
  assert (mLocalDynamicMap m4 = mLocalDynamicMap m) as Hm4.
  { transitivity (mLocalDynamicMap m3); [exact Hldm|done]. }
  split; [split; [|split]|split; [exact Hm4|split; [done|]]].
  - unfold mw_inv, descriptors_of. rewrite Hd, Hlst. exact Hi3.
  - rewrite Hserv. cbn [add_service mServices]. rewrite Hs3. by apply os_wf_insert.
  - intros s. rewrite Hserv. cbn [add_service mServices]. rewrite elem_of_os_insert, Hs3, Hlog.
    setoid_rewrite Hc. cbn [add_service log]. rewrite Hl3. subst m1. cbn [create_module log].
    setoid_rewrite elem_of_app. setoid_rewrite list_elem_of_singleton.
    split; [intros [->|[name Hn]]; eauto|intros (name & [Hn|[= -> ->]]); eauto].
  - intros Hq Hp. unfold descriptors_of. rewrite Hlst. cbn [add_service m_listeners].
    fold (descriptors_of m3 svc). rewrite Hd3. apply Hd2. intros ->.
    rewrite Hq, Hp in Hreq. done.
Qed.

Abbreviation init_services :=
  (initializeServices cModuleType_get lexical_cast_port regex lexical_cast_double uniform
     address callInitialize mIdentity).

Lemma init_services_inv config stage m m' :
  init_services config stage m = Ok m' ->
  mw_inv_services m -> mw_inv_services m' /\ mLocalDynamicMap m' = mLocalDynamicMap m.
Proof.
  intros Hr Hinv.
  refine (res_fold_inv
    (fun t => mw_inv_services t /\ mLocalDynamicMap t = mLocalDynamicMap m) _ _ m m' _ _ Hr); [|done].
  intros x t t' _ [Ht Hm] Hx. unfold initialize_service in Hx.
  apply bind_Ok in Hx as (mt & _ & Hx). apply bind_Ok in Hx as ([app draws] & _ & Hx).
  destruct app; [|by injection Hx as <-].
  apply attach_service_inv in Hx as (Hi & Hl & _); [|exact Ht].
  split; [exact Hi|]. by rewrite Hl.
Qed.

Definition middleware_fresh (interval : simtime) : Middleware :=
  mkMiddleware dispatcher_empty [] [] 0 0 [] interval [].

Lemma middleware_fresh_inv interval : mw_inv_services (middleware_fresh interval).
Proof.
  split; [split; [|split; [|split]]|split]; try (intros; constructor).
  - intros H. by apply not_elem_of_nil in H.
  - intros H. by apply not_elem_of_nil in H.
  - intros H. by apply not_elem_of_nil in H.
  - intros [name H]. by apply not_elem_of_nil in H.
Qed.

(** [C3] Dispatch of received packets: once the services have been configured,
    a BTP-B packet arriving on a channel is handed to exactly the services whose
    transport descriptors contain (channel, destination port), to each of them
    once and with the same contents (no listener gets a moved packet), after each
    promiscuous listener of the channel has tapped it once; other protocols reach
    nobody. *)
Theorem dispatch_exactly_registered {P} (parse : P -> PortNumber * P)
    config stage interval m ch port p p' proto :
  init_services config stage (middleware_fresh interval) = Ok m ->
  parse p = (port, p') ->
  Z.of_nat (length (listeners_of (mTransportDispatcher m) (ch, port))) < 2 ^ 32 ->
  exists taps regular,
    dispatcher_indicate parse (mTransportDispatcher m) proto (Some p) ch =
      Ok (match proto with
          | BTP_B => ((fun l => Tap l p') <$> taps) ++ ((fun l => Indicate l p') <$> regular)
          | _ => []
          end) /\
    NoDup taps /\ NoDup regular /\
    (forall svc, svc ∈ regular <-> (ch, port) ∈ descriptors_of m svc).
Proof.
  intros Hr Hp Hl. apply init_services_inv in Hr as [((Hw & Ht & Hd & Hiff) & _) _];
    [|apply middleware_fresh_inv].
  exists (taps_of (mTransportDispatcher m) ch), (listeners_of (mTransportDispatcher m) (ch, port)).
  split; [destruct proto; try done; by apply dispatcher_indicate_spec|].
  split; [by apply os_wf_NoDup|split; [by apply os_wf_NoDup|]]. intros svc. apply Hiff.
Qed.

(** The update cycle: after initialisation, the update message triggers
    every attached service, which are exactly the created ones, once; before that
    the local dynamic map is purged of expired entries, and the next update is
    scheduled one interval later; any other message is an error. *)
Theorem update_cycle config stage interval m now m' is_update :
  init_services config stage (middleware_fresh interval) = Ok m ->
  middleware_handleMessage now is_update m = Ok m' ->
  is_update = true /\
  NoDup (mServices m) /\
  (forall s, s ∈ mServices m <-> exists name, Created s name ∈ log m) /\
  log m' = log m ++ (Triggered <$> mServices m) ++ [Scheduled (now + mUpdateInterval m)] /\
  (forall id e, om_find id (mLocalDynamicMap m') = Some e -> now <= expiry e).
Proof.
  intros Hr Hh. apply init_services_inv in Hr as [(_ & Hs & Hc) Hldm];
    [|apply middleware_fresh_inv].
  destruct is_update; [|done]. injection Hh as <-. split; [done|].
  split; [by apply os_wf_NoDup|split; [exact Hc|split; [done|]]].
  intros id e. cbn [updateServices mLocalDynamicMap]. rewrite Hldm. done.
Qed.
End InitializeProperties.

(** ** VehicleMiddleware *)
Inductive StationType :=
| ST_Unknown | Pedestrian | Cyclist | Moped | Motorcycle | Passenger_Car | Bus | Light_Truck
| Heavy_Truck | Trailer | Special_Vehicle | Tram.

Definition station_type_of (vclass : string) : StationType :=
  let is_ s := String.eqb vclass s in
  if is_ "passenger" || is_ "private" || is_ "taxi" then Passenger_Car
  else if is_ "coach" || is_ "delivery" then Light_Truck
  else if is_ "truck" then Heavy_Truck
  else if is_ "trailer" then Trailer
  else if is_ "bus" then Bus
  else if is_ "emergency" || is_ "authority" then Special_Vehicle
  else if is_ "moped" then Moped
  else if is_ "motorcycle" then Motorcycle
  else if is_ "tram" then Tram
  else if is_ "bicycle" then Cyclist
  else if is_ "pedestrian" then Pedestrian
  else ST_Unknown.

(** The identity change emitted by [VehicleMiddleware::initialize]. *)
Definition vehicle_identity (traci_id : string) (vdp : VehicleDataProvider) : Identity * Z :=
  (mkIdentity None traci_id (mStationId vdp) [], Z.lor ChangeTraCI ChangeStationId).

(** ** Witnesses *)
Definition ex_services : cXMLElement :=
  XElem "services" []
    [XElem "service" [("type", "artery.application.CaService")]
       [XElem "listener" [("port", "2001")] []];
     XElem "service" [("type", "artery.application.DenService")]
       [XElem "listener" [("port", "2002"); ("channel", "SCH1")] [];
        XElem "listener" [("port", "2001")] []]].

Definition ex_init (interval : simtime) : res Middleware :=
  initializeServices (fun _ => Ok (mkModuleType "svc" true false true))
    (lexical_cast_unsigned 16) (fun p => Ok (String.eqb p)) (fun _ => Ok d_zero) (fun _ => d_zero)
    (fun n => (100 - n)%nat) (fun _ _ => true) (mkIdentity None "v" 1 [])
    ex_services 1 (middleware_fresh interval).

Definition ex_mw : Middleware :=
  match ex_init 1 with Ok m => m | Fail _ => middleware_fresh 1 end.
Lemma ex_mw_init : ex_init 1 = Ok ex_mw.
Proof. vm_compute. reflexivity. Qed.

Theorem dispatch_exactly_registered_witness :
  dispatcher_indicate (fun p : Z => (2001, p)) (mTransportDispatcher ex_mw) BTP_B (Some 5) CCH =
    Ok [Indicate 99%nat 5; Indicate 100%nat 5] /\
  exists taps regular,
    [Indicate 99%nat 5; Indicate 100%nat 5] =
      ((fun l => Tap l 5) <$> taps) ++ ((fun l => Indicate l 5) <$> regular) /\
    forall svc, svc ∈ regular <-> (CCH, 2001) ∈ descriptors_of ex_mw svc.
Proof.
  assert (dispatcher_indicate (fun p : Z => (2001, p)) (mTransportDispatcher ex_mw) BTP_B (Some 5) CCH =
    Ok [Indicate 99%nat 5; Indicate 100%nat 5]) as Hres by (vm_compute; reflexivity).
  split; [exact Hres|].
  assert (Z.of_nat (length (listeners_of (mTransportDispatcher ex_mw) (CCH, 2001))) < 2 ^ 32) as Hl
    by (vm_compute; reflexivity).
  destruct (dispatch_exactly_registered _ _ _ _ _ _ _ _ (fun p : Z => (2001, p)) _ _ _ ex_mw
    CCH 2001 5 5 BTP_B ex_mw_init eq_refl Hl) as (taps & regular & Hd & _ & _ & Hiff).
  exists taps, regular. split; [|exact Hiff]. rewrite Hres in Hd. by apply Ok_inj in Hd.
Defined.

Theorem update_cycle_witness :
  middleware_handleMessage 10 true ex_mw = Ok (updateServices 10 ex_mw) /\
  log (updateServices 10 ex_mw) =
    log ex_mw ++ [Triggered 99%nat; Triggered 100%nat; Scheduled 11].
Proof.
  split; [reflexivity|].
  destruct (update_cycle _ _ _ _ _ _ _ _ _ _ _ ex_mw 10 (updateServices 10 ex_mw) true
    ex_mw_init eq_refl) as (_ & _ & _ & Hlog & _).
  refine (eq_trans Hlog _). vm_compute. reflexivity.
Defined.
