(* ===== verification/CaService.v ===== *)
(** * CA service: generation of cooperative awareness messages

    [src/src/artery/application/CaService.{h,cc}]: the triggering conditions of
    EN 302 637-2 and the sending of CAMs; [similar_heading] is
    [src/extern/vanetza/vanetza/facilities/cam_functions.cpp]. *)

From S2P Require Import Prelude OMap Timer Float64 Channel VehicleData Cam Ldm.

(** ** Heading similarity *)
Definition similar_heading (a b limit : double) : bool :=
  let abs_diff := d_fmod (dabs (dsub a b)) two_pi in
  dleb abs_diff limit || dleb (dsub two_pi limit) abs_diff.

(** ** State *)
Record CaService := mkCa {
  mPrimaryChannel : ChannelNumber;
  mGenCamMin : simtime;
  mGenCamMax : simtime;
  mGenCam : simtime;
  mGenCamLowDynamicsCounter : Z;
  mGenCamLowDynamicsLimit : Z;
  mLastCamPosition : Position;
  mLastCamSpeed : double;
  mLastCamHeading : double;
  mLastCamTimestamp : simtime;
  mLastLowCamTimestamp : simtime;
  mHeadingDelta : double;   (** radians *)
  mPositionDelta : double;
  mSpeedDelta : double;
  mDccRestriction : bool;
  mFixedRate : bool
}.

Definition scLowFrequencyContainerInterval : simtime := simtime_cast (fun fs => Z.quot fs 1000) 500 milli.

(** The constructor. *)
Definition ca_construct : CaService :=
  mkCa CCH (SIMTIME_MS 100) (SIMTIME_MS 1000) (SIMTIME_MS 1000) 0 3
    (mkPosition d_zero d_zero) d_zero d_zero 0 0 d_zero d_zero d_zero false false.

(** Module parameters (the heading delta already converted to radians). *)
Record CaParams := mkCaParams {
  minInterval : simtime; maxInterval : simtime;
  headingDelta : double; positionDelta : double; speedDelta : double;
  withDccRestriction : bool; fixedRate : bool
}.

(** [initialize]; the channel looked up from the policy is stored in a local
    variable of the same name, so the member keeps its value. *)
Definition ca_initialize `{StdSort} (p : CaParams) (policy : MultiChannelPolicy) (now : simtime)
    (s : CaService) : CaService :=
  let mPrimaryChannel_local := primaryChannel policy 36 (* aid::CA *) in
  mkCa (mPrimaryChannel s) (minInterval p) (maxInterval p) (mGenCam s)
    (mGenCamLowDynamicsCounter s) (mGenCamLowDynamicsLimit s)
    (mLastCamPosition s) (mLastCamSpeed s) (mLastCamHeading s)
    now (now - scLowFrequencyContainerInterval)
    (headingDelta p) (positionDelta p) (speedDelta p)
    (withDccRestriction p) (fixedRate p).

(** What a trigger reads from the rest of the station: the vehicle data, and the
    registered interfaces with the delay (microseconds) their transmit rate
    throttle asks for, if they have one. *)
Record ca_env := mkEnv {
  env_now : simtime;
  env_vdp : VehicleDataProvider;
  env_chan : ifcid -> ChannelNumber;
  env_table : list ifcid;
  env_throttle : ifcid -> option Z
}.

Section Service.
Variable quantity_cast : cam_unit -> double -> double.
Variable validate : Cam -> bool.
(** [boost::geometry::distance] of two points. *)
Variable distance : Position -> Position -> double.
Variable mTimer : Timer.

Definition genCamDcc (s : CaService) (e : ca_env) : res simtime :=
  let trc := netifc ← select (env_chan e) (env_table e) (mPrimaryChannel s);
             env_throttle e netifc in
  match trc with
  | None => Fail (RuntimeError "No DCC TRC found for CA's primary channel")
  | Some delay =>
      let dcc := SIMTIME_MS (Z.quot delay 1000) in
      Ok (Z.min (mGenCamMax s) (Z.max (mGenCamMin s) dcc))
  end.

Definition checkHeadingDelta (s : CaService) (v : VehicleDataProvider) : bool :=
  negb (similar_heading (mLastCamHeading s) (mHeading v) (mHeadingDelta s)).
Definition checkPositionDelta (s : CaService) (v : VehicleDataProvider) : bool :=
  dltb (mPositionDelta s) (distance (mLastCamPosition s) (mPosition v)).
Definition checkSpeedDelta (s : CaService) (v : VehicleDataProvider) : bool :=
  dltb (mSpeedDelta s) (dabs (dsub (mLastCamSpeed s) (mSpeed v))).

(** [sendCam]: the new state and the message handed to the middleware. *)
Definition sendCam (s : CaService) (v : VehicleDataProvider) (T_now : simtime) :
    res (CaService * Cam) :=
  let genDeltaTimeMod := u16 (countTaiMilliseconds (getTimeFor mTimer (mLastUpdate v))) in
  cam ← createCooperativeAwarenessMessage quantity_cast validate v genDeltaTimeMod;
  let low := scLowFrequencyContainerInterval <=? T_now - mLastLowCamTimestamp s in
  cam ← (if low then addLowFrequencyContainer validate cam else Ok cam);
  Ok (mkCa (mPrimaryChannel s) (mGenCamMin s) (mGenCamMax s) (mGenCam s)
        (mGenCamLowDynamicsCounter s) (mGenCamLowDynamicsLimit s)
        (mPosition v) (mSpeed v) (mHeading v) T_now
        (if low then T_now else mLastLowCamTimestamp s)
        (mHeadingDelta s) (mPositionDelta s) (mSpeedDelta s)
        (mDccRestriction s) (mFixedRate s), cam).

Definition set_GenCam (s : CaService) (t : simtime) (counter : Z) : CaService :=
  mkCa (mPrimaryChannel s) (mGenCamMin s) (mGenCamMax s) t counter
    (mGenCamLowDynamicsLimit s) (mLastCamPosition s) (mLastCamSpeed s) (mLastCamHeading s)
    (mLastCamTimestamp s) (mLastLowCamTimestamp s) (mHeadingDelta s) (mPositionDelta s)
    (mSpeedDelta s) (mDccRestriction s) (mFixedRate s).

Definition checkTriggeringConditions (s : CaService) (e : ca_env) :
    res (CaService * option Cam) :=
  let T_now := env_now e in
  let v := env_vdp e in
  T_GenCamDcc ← (if mDccRestriction s then genCamDcc s e else Ok (mGenCamMin s));
  let T_elapsed := T_now - mLastCamTimestamp s in
  if T_GenCamDcc <=? T_elapsed then
    if mFixedRate s then
      r ← sendCam s v T_now; Ok ((r : CaService * Cam).1, Some r.2)
    else if checkHeadingDelta s v || checkPositionDelta s v || checkSpeedDelta s v then
      r ← sendCam s v T_now;
      Ok (set_GenCam (r : CaService * Cam).1 (Z.min T_elapsed (mGenCamMax s)) 0, Some r.2)
    else if mGenCam s <=? T_elapsed then
      r ← sendCam s v T_now;
      let counter := u32 (mGenCamLowDynamicsCounter (r : CaService * Cam).1 + 1) in
      Ok (set_GenCam r.1
            (if mGenCamLowDynamicsLimit r.1 <=? counter then mGenCamMax r.1 else mGenCam r.1)
            counter, Some r.2)
    else Ok (s, None)
  else Ok (s, None).

(** [trigger] *)
Definition ca_trigger (s : CaService) (e : ca_env) : res (CaService * option Cam) :=
  checkTriggeringConditions s e.

(** [indicate]: [decoded] is the message the visitor extracted, if any. *)
Definition ca_indicate (now : simtime) (decoded : option Cam) (m : list (Z * AwarenessEntry)) :
    res (list (Z * AwarenessEntry)) :=
  match decoded with
  | Some cam => if validate cam then updateAwareness mTimer now m cam else Ok m
  | None => Ok m
  end.

(** ** The triggering rule *)
Definition dynamic (s : CaService) (v : VehicleDataProvider) : bool :=
  checkHeadingDelta s v || checkPositionDelta s v || checkSpeedDelta s v.

Definition T_GenCamDcc_of (s : CaService) (e : ca_env) : res simtime :=
  if mDccRestriction s then genCamDcc s e else Ok (mGenCamMin s).

Lemma sendCam_fields s v now s' cam :
  sendCam s v now = Ok (s', cam) ->
  mPrimaryChannel s' = mPrimaryChannel s /\
  mGenCamMin s' = mGenCamMin s /\ mGenCamMax s' = mGenCamMax s /\ mGenCam s' = mGenCam s /\
  mGenCamLowDynamicsCounter s' = mGenCamLowDynamicsCounter s /\
  mGenCamLowDynamicsLimit s' = mGenCamLowDynamicsLimit s /\
  mDccRestriction s' = mDccRestriction s /\ mFixedRate s' = mFixedRate s /\
  mLastCamTimestamp s' = now /\ mLastCamPosition s' = mPosition v /\
  mLastCamSpeed s' = mSpeed v /\ mLastCamHeading s' = mHeading v /\
  (is_Some (lowFrequencyContainer cam) <->
     scLowFrequencyContainerInterval <= now - mLastLowCamTimestamp s) /\
  mLastLowCamTimestamp s' =
    (if decide (is_Some (lowFrequencyContainer cam)) then now else mLastLowCamTimestamp s) /\
  generationDeltaTime cam = u16 (countTaiMilliseconds (getTimeFor mTimer (mLastUpdate v))) /\
  stationID cam = mStationId v.
Proof.
  unfold sendCam. rewrite bind_Ok. intros (c0 & Hc & H). cbv zeta in H.
  apply bind_Ok in H as (c1 & Hl & H). apply Ok_inj in H. injection H as <- <-.
  apply created_cam_fields in Hc as (_ & _ & _ & Hid & Hdt & Hnone & _).
  cbn [mPrimaryChannel mGenCamMin mGenCamMax mGenCam mGenCamLowDynamicsCounter
    mGenCamLowDynamicsLimit mDccRestriction mFixedRate mLastCamTimestamp mLastCamPosition
    mLastCamSpeed mLastCamHeading mLastLowCamTimestamp].
  do 12 (split; [done|]).
  destruct (Z.leb_spec scLowFrequencyContainerInterval (now - mLastLowCamTimestamp s)).
  - apply addLowFrequencyContainer_fields in Hl as (Hlf & Hid' & Hdt' & _).
    rewrite Hlf, Hdt', Hid'. rewrite decide_True by eauto. split; [|done].
    split; [done|eauto].
  - injection Hl as <-. rewrite Hnone. rewrite decide_False by (by intros []).
    split; [|done]. split; [by intros []|lia].
Qed.

(** What no trigger changes. *)
Definition settings (s : CaService) :=
  (mPrimaryChannel s, mGenCamMin s, mGenCamMax s, mGenCamLowDynamicsLimit s, mHeadingDelta s, mPositionDelta s,
   mSpeedDelta s, mDccRestriction s, mFixedRate s).
Lemma sendCam_rest s v now s' cam : sendCam s v now = Ok (s', cam) ->
  settings s' = settings s /\
  mLastLowCamTimestamp s' =
    (if scLowFrequencyContainerInterval <=? now - mLastLowCamTimestamp s then now else mLastLowCamTimestamp s).
Proof.
  unfold sendCam. rewrite bind_Ok. intros (c0 & _ & H). apply bind_Ok in H as (c1 & _ & H).
  by apply Ok_inj in H as [= <- <-].
Qed.

Lemma trigger_cases s e s' o :
  checkTriggeringConditions s e = Ok (s', o) ->
  exists dcc, T_GenCamDcc_of s e = Ok dcc /\
  let elapsed := env_now e - mLastCamTimestamp s in
  match o with
  | None => s' = s /\
      (elapsed < dcc \/
       mFixedRate s = false /\ dynamic s (env_vdp e) = false /\ elapsed < mGenCam s)
  | Some cam => dcc <= elapsed /\
      exists s1, sendCam s (env_vdp e) (env_now e) = Ok (s1, cam) /\
        ((mFixedRate s = true /\ s' = s1) \/
         (mFixedRate s = false /\ dynamic s (env_vdp e) = true /\
            s' = set_GenCam s1 (Z.min elapsed (mGenCamMax s)) 0) \/
         (mFixedRate s = false /\ dynamic s (env_vdp e) = false /\ mGenCam s <= elapsed /\
            s' = set_GenCam s1
              (if mGenCamLowDynamicsLimit s <=? u32 (mGenCamLowDynamicsCounter s + 1)
               then mGenCamMax s else mGenCam s)
              (u32 (mGenCamLowDynamicsCounter s + 1))))
  end.
Proof.
  unfold checkTriggeringConditions. fold (T_GenCamDcc_of s e) (dynamic s (env_vdp e)).
  rewrite bind_Ok. intros (dcc & Hdcc & H). exists dcc. split; [done|]. cbv zeta in *.
  destruct (Z.leb_spec dcc (env_now e - mLastCamTimestamp s)) as [Hle|Hlt].
  2: { apply Ok_inj in H. injection H as <- <-. auto. }
  destruct (mFixedRate s) eqn:Hfix; [|destruct (dynamic s (env_vdp e)) eqn:Hdyn;
    [|destruct (Z.leb_spec (mGenCam s) (env_now e - mLastCamTimestamp s))]].
  4: { apply Ok_inj in H. injection H as <- <-. auto. }
  all: apply bind_Ok in H as ([s1 cam] & Hsend & H); apply Ok_inj in H; cbn [fst snd] in H;
    pose proof (sendCam_fields _ _ _ _ _ Hsend) as Hf;
    destruct Hf as (_ & _ & Hmax & Hgen & Hcnt & Hlim & _);
    rewrite ?Hmax, ?Hgen, ?Hcnt, ?Hlim in H;
    injection H as Hs <-; (split; [exact Hle|]); exists s1; (split; [exact Hsend|]); eauto 8.
Qed.

(** [C1] The CAM triggering rule (EN 302 637-2, 6.1.3): at a trigger, with
    T_GenCamDcc the minimum interval (or, with DCC, the throttle's delay clamped
    between minimum and maximum interval), a message is sent exactly when at least
    T_GenCamDcc has elapsed since the last one and the rate is fixed, or heading,
    position or speed changed by more than their thresholds, or T_GenCam has
    elapsed; if not, the state is unchanged; if so, the reference position, speed,
    heading and time are those of this trigger, the time stamp is that of the
    vehicle data, the low-frequency container is in the message exactly when its
    interval is over, which then starts anew, and the settings stay.  At a fixed rate
    T_GenCam and the low-dynamics counter stay as well; a dynamics-triggered message
    shortens T_GenCam to the elapsed time (at most the maximum) and clears the counter;
    another one counts, and at the limit T_GenCam returns to the maximum. *)
Theorem cam_trigger_rule s e s' o :
  checkTriggeringConditions s e = Ok (s', o) ->
  exists dcc, T_GenCamDcc_of s e = Ok dcc /\
    let elapsed := env_now e - mLastCamTimestamp s in
    (is_Some o <-> dcc <= elapsed /\
       (mFixedRate s = true \/ dynamic s (env_vdp e) = true \/ mGenCam s <= elapsed)) /\
    (o = None -> s' = s) /\
    (forall cam, o = Some cam ->
       mLastCamTimestamp s' = env_now e /\ mLastCamPosition s' = mPosition (env_vdp e) /\
       mLastCamSpeed s' = mSpeed (env_vdp e) /\ mLastCamHeading s' = mHeading (env_vdp e) /\
       stationID cam = mStationId (env_vdp e) /\
       generationDeltaTime cam =
         u16 (countTaiMilliseconds (getTimeFor mTimer (mLastUpdate (env_vdp e)))) /\
       (is_Some (lowFrequencyContainer cam) <->
          scLowFrequencyContainerInterval <= env_now e - mLastLowCamTimestamp s) /\
       mLastLowCamTimestamp s' =
         (if scLowFrequencyContainerInterval <=? env_now e - mLastLowCamTimestamp s
          then env_now e else mLastLowCamTimestamp s) /\
       settings s' = settings s /\
       (mFixedRate s = true ->
          mGenCam s' = mGenCam s /\ mGenCamLowDynamicsCounter s' = mGenCamLowDynamicsCounter s) /\
       (mFixedRate s = false -> dynamic s (env_vdp e) = true ->
          mGenCam s' = Z.min elapsed (mGenCamMax s) /\ mGenCamLowDynamicsCounter s' = 0) /\
       (mFixedRate s = false -> dynamic s (env_vdp e) = false ->
          mGenCamLowDynamicsCounter s' = u32 (mGenCamLowDynamicsCounter s + 1) /\
          mGenCam s' = if mGenCamLowDynamicsLimit s <=? mGenCamLowDynamicsCounter s'
                       then mGenCamMax s else mGenCam s)).
Proof.
  intros H. apply trigger_cases in H as (dcc & Hdcc & H). exists dcc. split; [done|].
  cbv zeta in *. destruct o as [cam|].
  - destruct H as (Hle & s1 & Hsend & Hcase).
    pose proof (sendCam_fields _ _ _ _ _ Hsend) as
      (_ & _ & Hmax & Hgen & Hcnt & _ & _ & _ & Ht & Hp & Hs & Hh & Hlow & _ & Hdt & Hid).
    pose proof (sendCam_rest _ _ _ _ _ Hsend) as [Hset Hlast].
    split; [split; [intros _; split; [done|]; naive_solver|eauto]|]. split; [done|].
    intros c [= <-]. destruct Hcase as [[Hfix ->]|[(Hfix & Hdyn & ->)|(Hfix & Hdyn & Hel & ->)]];
      cbn [set_GenCam mLastCamTimestamp mLastCamPosition mLastCamSpeed mLastCamHeading mGenCam
        mGenCamLowDynamicsCounter mLastLowCamTimestamp]; do 9 (split; [done|]);
      repeat split; intros; congruence.
  - destruct H as [-> Hno]. split; [|done]. split; [by intros []|].
    intros [Hle Hor]. exfalso. destruct Hno as [Hlt|(Hf & Hd & Hg)]; [lia|].
    destruct Hor as [|[|]]; [congruence|congruence|lia].
Qed.

(** ** Runs *)
(** A run of triggers, with the messages sent and their times. *)
Definition ca_step (st : CaService * list (simtime * Cam)) (e : ca_env) :
    res (CaService * list (simtime * Cam)) :=
  r ← ca_trigger st.1 e;
  let '(s', o) := r : CaService * option Cam in
  Ok (s', st.2 ++ match o with Some cam => [(env_now e, cam)] | None => [] end).

Definition ca_run (s : CaService) (l : list ca_env) : res (CaService * list (simtime * Cam)) :=
  res_fold ca_step l (s, []).

Lemma ca_run_snoc s l e :
  ca_run s (l ++ [e]) = (st ← ca_run s l; ca_step st e).
Proof.
  unfold ca_run. rewrite res_fold_app. destruct (res_fold _ _ _) as [st|]; cbn; [|done].
  by destruct (ca_step st e).
Qed.

(** Interval bounds hold from initialisation on. *)
Definition ca_bound (s : CaService) : simtime := Z.max (SIMTIME_MS 1000) (mGenCamMax s).

Definition ca_inv (s : CaService) : Prop :=
  mGenCamMin s <= mGenCamMax s /\
  Z.min (SIMTIME_MS 1000) (mGenCamMin s) <= mGenCam s <= ca_bound s.

Lemma genCamDcc_range s e dcc :
  mGenCamMin s <= mGenCamMax s -> T_GenCamDcc_of s e = Ok dcc ->
  mGenCamMin s <= dcc <= mGenCamMax s.
Proof.
  intros Hle. unfold T_GenCamDcc_of, genCamDcc. destruct (mDccRestriction s).
  - destruct (_ ≫= _) as [d|]; [|done]. intros [= <-]. lia.
  - intros [= <-]. lia.
Qed.

Lemma ca_step_inv s out e s' out' :
  ca_inv s -> ca_step (s, out) e = Ok (s', out') ->
  ca_inv s' /\ mGenCamMin s' = mGenCamMin s /\ mGenCamMax s' = mGenCamMax s /\
  ((out' = out /\ s' = s /\ env_now e - mLastCamTimestamp s < ca_bound s) \/
   (exists cam, out' = out ++ [(env_now e, cam)] /\
      mGenCamMin s <= env_now e - mLastCamTimestamp s /\ mLastCamTimestamp s' = env_now e /\
      (is_Some (lowFrequencyContainer cam) <->
         scLowFrequencyContainerInterval <= env_now e - mLastLowCamTimestamp s) /\
      mLastLowCamTimestamp s' =
        (if decide (is_Some (lowFrequencyContainer cam)) then env_now e
         else mLastLowCamTimestamp s))).
Proof.
  intros [Hmm Hg]. unfold ca_step, ca_trigger. cbn [fst snd]. rewrite bind_Ok.
  intros ([s1 o] & Ht & H). apply Ok_inj in H. injection H as -> <-.
  apply trigger_cases in Ht as (dcc & Hdcc & Ht). cbv zeta in Ht.
  apply genCamDcc_range in Hdcc; [|done]. destruct o as [cam|].
  - destruct Ht as (Hle & s1 & Hsend & Hcase).
    pose proof (sendCam_fields _ _ _ _ _ Hsend) as
      (_ & Hmin & Hmax & Hgen & _ & _ & _ & _ & Htm & _ & _ & _ & Hlf & Hlow & _).
    assert (mGenCamMin s' = mGenCamMin s /\ mGenCamMax s' = mGenCamMax s /\
      mLastCamTimestamp s' = env_now e /\ mLastLowCamTimestamp s' = mLastLowCamTimestamp s1 /\
      Z.min (SIMTIME_MS 1000) (mGenCamMin s) <= mGenCam s' <= ca_bound s)
      as (Hmin' & Hmax' & Htm' & Hlow' & Hg').
    { destruct Hcase as [[_ ->]|[(_ & _ & ->)|(_ & _ & _ & ->)]]; cbn [set_GenCam mGenCamMin
        mGenCamMax mLastCamTimestamp mLastLowCamTimestamp mGenCam]; do 4 (split; [done|]);
        unfold ca_bound in *; zcases; lia. }
    unfold ca_inv, ca_bound in *. rewrite Hmin', Hmax'. split; [done|]. do 2 (split; [done|]).
    right. exists cam. split; [done|]. split; [lia|]. split; [done|]. split; [done|].
    by rewrite Hlow'.
  - destruct Ht as [-> Hno]. split; [done|]. do 2 (split; [done|]). left.
    rewrite app_nil_r. do 2 (split; [done|]). unfold ca_bound in *. lia.
Qed.

(** Times of a list of sent messages, after an initial time. *)
Fixpoint spaced (lo hi prev : Z) (l : list (simtime * Cam)) : Prop :=
  match l with
  | [] => True
  | (t, _) :: l' => lo <= t - prev < hi /\ spaced lo hi t l'
  end.

(** The low frequency container rule along the sent messages. *)
Fixpoint lfc_rule (last_low : Z) (l : list (simtime * Cam)) : Prop :=
  match l with
  | [] => True
  | (t, cam) :: l' =>
      (is_Some (lowFrequencyContainer cam) <-> scLowFrequencyContainerInterval <= t - last_low) /\
      lfc_rule (if decide (is_Some (lowFrequencyContainer cam)) then t else last_low) l'
  end.

(** The last element of the chain each rule threads. *)
Definition last_time (prev : Z) (l : list (simtime * Cam)) : Z := foldl (fun _ p => p.1) prev l.
Definition last_low_time (prev : Z) (l : list (simtime * Cam)) : Z :=
  foldl (fun acc p => if decide (is_Some (lowFrequencyContainer p.2)) then p.1 else acc) prev l.

Lemma spaced_snoc lo hi prev l t cam :
  spaced lo hi prev (l ++ [(t, cam)]) <->
  spaced lo hi prev l /\ lo <= t - last_time prev l < hi.
Proof.
  revert prev. induction l as [|[t' c'] l IH]; intros prev; cbn; [tauto|].
  rewrite IH. unfold last_time. tauto.
Qed.

Lemma lfc_rule_snoc prev l t cam :
  lfc_rule prev (l ++ [(t, cam)]) <->
  lfc_rule prev l /\
  (is_Some (lowFrequencyContainer cam) <->
     scLowFrequencyContainerInterval <= t - last_low_time prev l).
Proof.
  revert prev. induction l as [|[t' c'] l IH]; intros prev; cbn; [tauto|].
  rewrite IH. unfold last_low_time. tauto.
Qed.

(** Trigger times that do not go back and are less than [period] apart. *)
Fixpoint periodic (period prev : Z) (l : list ca_env) : Prop :=
  match l with
  | [] => True
  | e :: l' => prev <= env_now e <= prev + period /\ periodic period (env_now e) l'
  end.
Definition last_trigger (prev : Z) (l : list ca_env) : Z := foldl (fun _ e => env_now e) prev l.

Lemma periodic_snoc period prev l e :
  periodic period prev (l ++ [e]) <->
  periodic period prev l /\ last_trigger prev l <= env_now e <= last_trigger prev l + period.
Proof.
  revert prev. induction l as [|e' l IH]; intros prev; cbn; [tauto|].
  rewrite IH. unfold last_trigger. tauto.
Qed.

Lemma ca_run_inv s l s' out period :
  ca_inv s -> 0 <= period -> 0 < mGenCamMin s -> mLastCamTimestamp s = mLastCamTimestamp s ->
  periodic period (mLastCamTimestamp s) l ->
  ca_run s l = Ok (s', out) ->
  ca_inv s' /\ mGenCamMin s' = mGenCamMin s /\ mGenCamMax s' = mGenCamMax s /\
  mLastCamTimestamp s' = last_time (mLastCamTimestamp s) out /\
  mLastLowCamTimestamp s' = last_low_time (mLastLowCamTimestamp s) out /\
  last_trigger (mLastCamTimestamp s) l - mLastCamTimestamp s' < ca_bound s /\
  spaced (mGenCamMin s) (ca_bound s + period) (mLastCamTimestamp s) out /\
  lfc_rule (mLastLowCamTimestamp s) out.
Proof.
  intros Hinv Hper Hpos _. revert s' out.
  induction l as [|e l IH] using rev_ind; intros s' out Hp Hr.
  - injection Hr as <- <-. cbn. unfold ca_bound, SIMTIME_MS. do 5 (split; [done|]).
    split; [lia|done].
  - apply periodic_snoc in Hp as [Hp He]. rewrite ca_run_snoc, bind_Ok in Hr.
    destruct Hr as ([s1 out1] & Hr1 & Hstep).
    destruct (IH s1 out1 Hp Hr1) as (Hi1 & Hmin & Hmax & Ht & Hlow & Hlast & Hsp & Hlfc).
    assert (ca_bound s1 = ca_bound s) as Hb by (unfold ca_bound; by rewrite Hmax).
    apply ca_step_inv in Hstep as (Hi' & Hmin' & Hmax' & Hcase); [|done].
    split; [done|]. split; [congruence|]. split; [congruence|].
    unfold last_trigger. rewrite foldl_app. cbn [foldl].
    destruct Hcase as [(-> & -> & Hlt)|(cam & -> & Hle & Ht' & Hlf & Hlow')].
    + rewrite Hb in Hlt. do 2 (split; [done|]). split; [lia|done].
    + rewrite spaced_snoc, lfc_rule_snoc. unfold last_time, last_low_time in *.
      rewrite !foldl_app. cbn [foldl fst snd]. rewrite <- Ht, <- Hlow.
      split; [done|]. split; [done|]. split; [unfold ca_bound, SIMTIME_MS; lia|].
      unfold last_trigger in *. split; [split; [done|lia]|done].
Qed.

(** [C2] Spacing and liveness of CAMs: from initialisation on, with the service
    triggered at least every [period], any two consecutive messages (and the first
    one and the initialisation) are at least the minimum interval apart and less
    than max(1 s, maximum interval) + [period]; and at no trigger is the last
    message older than max(1 s, maximum interval).  (The 1 s stays in the bound
    because [mGenCam] is never reset to a configured smaller maximum.) *)
Theorem cam_spacing `{StdSort} p policy t0 period l s' out :
  0 < minInterval p <= maxInterval p -> minInterval p <= SIMTIME_MS 1000 -> 0 <= period ->
  periodic period t0 l ->
  ca_run (ca_initialize p policy t0 ca_construct) l = Ok (s', out) ->
  let bound := Z.max (SIMTIME_MS 1000) (maxInterval p) in
  spaced (minInterval p) (bound + period) t0 out /\
  last_trigger t0 l - last_time t0 out < bound /\
  minInterval p <= mGenCam s' <= bound.
Proof.
  intros [Hmin Hmm] H1 Hper Hp Hr bound.
  set (s := ca_initialize p policy t0 ca_construct) in *.
  assert (ca_inv s) as Hinv.
  { unfold ca_inv, ca_bound. subst s. cbn. unfold SIMTIME_MS in *. lia. }
  destruct (ca_run_inv s l s' out period Hinv Hper Hmin eq_refl Hp Hr)
    as ((_ & Hg) & Hmin' & Hmax' & Ht & _ & Hl & Hsp & _).
  assert (ca_bound s = bound) as Hb by reflexivity. rewrite Hb in *.
  split; [exact Hsp|]. rewrite Ht in Hl. split; [exact Hl|].
  unfold ca_bound in Hg. rewrite Hmax', Hmin' in Hg.
  change (mGenCamMin s) with (minInterval p) in Hg. change (mGenCamMax s) with (maxInterval p) in Hg.
  fold bound in Hg. lia.
Qed.

(** The low frequency container: the first message carries it, and after
    that a message carries it exactly when at least 500 ms have passed since the
    last message that did. *)
Theorem cam_low_frequency_container `{StdSort} p policy t0 period l s' out :
  0 < minInterval p <= maxInterval p -> minInterval p <= SIMTIME_MS 1000 -> 0 <= period ->
  periodic period t0 l ->
  ca_run (ca_initialize p policy t0 ca_construct) l = Ok (s', out) ->
  lfc_rule (t0 - SIMTIME_MS 500) out /\
  (forall t cam rest, out = (t, cam) :: rest -> is_Some (lowFrequencyContainer cam)).
Proof.
  intros [Hmin Hmm] H1 Hper Hp Hr.
  set (s := ca_initialize p policy t0 ca_construct) in *.
  assert (ca_inv s) as Hinv.
  { unfold ca_inv, ca_bound. subst s. cbn. unfold SIMTIME_MS in *. lia. }
  destruct (ca_run_inv s l s' out period Hinv Hper Hmin eq_refl Hp Hr)
    as (_ & _ & _ & _ & _ & _ & Hsp & Hlfc).
  split; [exact Hlfc|]. intros t cam rest ->. destruct Hlfc as [Hc _]. apply Hc.
  destruct Hsp as [Ht _]. cbn in Ht. change (mGenCamMin s) with (minInterval p) in Ht.
  change (mLastLowCamTimestamp s) with (t0 - SIMTIME_MS 500). unfold scLowFrequencyContainerInterval,
    simtime_cast, simtime_of, SIMTIME_MS. cbn. lia.
Qed.
End Service.

(** ** Concrete runs *)
Definition ex_params : CaParams :=
  mkCaParams (SIMTIME_MS 100) (SIMTIME_MS 500) (d_lit 7 100) (d_of_Z 4) (d_lit 1 2) false false.
Definition ex_policy : MultiChannelPolicy := mkPolicy 0 [(36, [SCH1])].
(** Distance along the x axis. *)
Definition ex_distance (a b : Position) : double := dabs (dsub (pos_x a) (pos_x b)).
Definition ex_env (ms : Z) (v : VehicleDataProvider) : ca_env :=
  mkEnv (SIMTIME_MS ms) v (fun _ => SCH1) [1%nat] (fun _ => Some 0).
Definition ex_still : VehicleDataProvider :=
  mkVdp 7 (mkPosition d_zero d_zero) (mkGeoPosition d_zero d_zero)
    d_zero d_zero d_zero d_zero d_zero d_zero 0 [] [] d_zero.

Definition ex_ca0 : CaService :=
  @ca_initialize insertion_sort ex_params ex_policy 0 ca_construct.
Definition ex_run (l : list ca_env) : res (CaService * list (simtime * Cam)) :=
  ca_run ex_quantity_cast (fun _ => true) ex_distance ex_timer ex_ca0 l.
Definition ex_times (l : list ca_env) : res (list simtime) := (fun r => r.2.*1) <$> ex_run l.

(** The policy's primary channel SCH1 is ignored: the member stays CCH, and with
    DCC no rate control is found on an interface operating on SCH1. *)
Example primary_channel_shadowed :
  @primaryChannel insertion_sort ex_policy 36 = SCH1 /\ mPrimaryChannel ex_ca0 = CCH /\
  genCamDcc ex_ca0 (ex_env 100 ex_still)
    = Fail (RuntimeError "No DCC TRC found for CA's primary channel").
Proof. vm_compute. repeat split. Qed.

(** A standing vehicle with a configured maximum interval of 500 ms sends its
    first CAMs one second apart; only after the third does the maximum apply. *)
Example first_interval_ignores_maximum :
  ex_times ((fun k => ex_env (100 * Z.of_nat k) ex_still) <$> seq 1 40)
  = Ok (SIMTIME_MS <$> [1000; 2000; 3000; 3500; 4000]).
Proof. vm_compute. reflexivity. Qed.

Definition ex_moving : list ca_env :=
  [ex_env 100 ex_vdp; ex_env 200 ex_vdp; ex_env 300 ex_still; ex_env 400 ex_still;
   ex_env 500 ex_vdp; ex_env 600 ex_still].

Lemma ex_min_pos : 0 < minInterval ex_params <= maxInterval ex_params.
Proof. vm_compute. split; congruence. Qed.
Lemma ex_min_le : minInterval ex_params <= SIMTIME_MS 1000.
Proof. vm_compute. congruence. Qed.
Lemma ex_period_nonneg : 0 <= SIMTIME_MS 100.
Proof. vm_compute. congruence. Qed.
Lemma ex_moving_periodic : periodic (SIMTIME_MS 100) 0 ex_moving.
Proof. vm_compute. repeat split; congruence. Qed.

Theorem cam_trigger_rule_witness :
  exists s' cam,
    checkTriggeringConditions ex_quantity_cast (fun _ => true) ex_distance ex_timer ex_ca0
      (ex_env 100 ex_vdp) = Ok (s', Some cam) /\
    mGenCam s' = SIMTIME_MS 100 /\ mLastCamTimestamp s' = SIMTIME_MS 100.
Proof.
  destruct (checkTriggeringConditions ex_quantity_cast (fun _ => true) ex_distance ex_timer ex_ca0
    (ex_env 100 ex_vdp)) as [[s' [cam|]]|] eqn:E;
    [|exfalso; revert E; vm_compute; discriminate|exfalso; revert E; vm_compute; discriminate].
  exists s', cam. split; [done|].
  destruct (cam_trigger_rule _ _ _ _ _ _ _ _ E) as (dcc & _ & _ & _ & Hs).
  destruct (Hs cam eq_refl) as (Ht & _ & _ & _ & _ & _ & _ & _ & _ & _ & Hd & _).
  destruct Hd as [Hg _]; [reflexivity|vm_compute; reflexivity|].
  split; [refine (eq_trans Hg _); vm_compute; reflexivity|exact Ht].
Defined.

Definition ex_out : CaService * list (simtime * Cam) :=
  match ex_run ex_moving with Ok r => r | Fail _ => (ex_ca0, []) end.
Lemma ex_run_out :
  ca_run ex_quantity_cast (fun _ => true) ex_distance ex_timer
    (@ca_initialize insertion_sort ex_params ex_policy 0 ca_construct) ex_moving
  = Ok (ex_out.1, ex_out.2).
Proof. vm_compute. reflexivity. Qed.

Theorem cam_spacing_witness :
  ex_out.2.*1 = SIMTIME_MS <$> [100; 200; 300; 400; 500; 600] /\
  spaced (minInterval ex_params)
    (Z.max (SIMTIME_MS 1000) (maxInterval ex_params) + SIMTIME_MS 100) 0 ex_out.2.
Proof.
  split; [vm_compute; reflexivity|].
  exact (proj1 (cam_spacing ex_quantity_cast (fun _ => true) ex_distance ex_timer
    (H := insertion_sort) ex_params ex_policy 0 (SIMTIME_MS 100) ex_moving ex_out.1 ex_out.2
    ex_min_pos ex_min_le ex_period_nonneg ex_moving_periodic ex_run_out)).
Defined.

Theorem cam_low_frequency_container_witness :
  (fun p : simtime * Cam => match lowFrequencyContainer p.2 with Some _ => true | None => false end)
    <$> ex_out.2 = [true; false; false; false; false; true] /\
  lfc_rule (0 - SIMTIME_MS 500) ex_out.2.
Proof.
  split; [vm_compute; reflexivity|].
  exact (proj1 (cam_low_frequency_container ex_quantity_cast (fun _ => true) ex_distance ex_timer
    (H := insertion_sort) ex_params ex_policy 0 (SIMTIME_MS 100) ex_moving ex_out.1 ex_out.2
    ex_min_pos ex_min_le ex_period_nonneg ex_moving_periodic ex_run_out)).
Defined.
