(* ===== verification/Sampling.v ===== *)
(** * Sample buffers and samplers

    [src/src/artery/application/SampleBuffer.h], [SampleBufferAlgorithm.h] and
    [Sampling.h]: ring buffers of time-stamped samples, newest first, and the
    samplers that feed them at a minimum interval. *)

From S2P Require Import Prelude Float64.

(** ** SampleBuffer *)
Record Sample (A : Type) := mkSample { value : A; timestamp : simtime }.
Arguments mkSample {A} value timestamp.
Arguments value {A} s.
Arguments timestamp {A} s.

Record SampleBuffer (A : Type) := mkBuffer { capacity : nat; items : list (Sample A) }.
Arguments mkBuffer {A} capacity items.
Arguments capacity {A} s.
Arguments items {A} s.

Section Buffer.
Context {A : Type}.
Implicit Types b : SampleBuffer A.

(** [boost::circular_buffer::set_capacity] drops the last elements. *)
Definition set_capacity (n : nat) b : SampleBuffer A := mkBuffer n (take n (items b)).
Definition buffer_empty b : bool := match items b with [] => true | _ => false end.
Definition latest b : option (Sample A) := head (items b).
Definition buffer_clear b : SampleBuffer A := mkBuffer (capacity b) [].

(** [insert_impl]: [push_front] overwrites the oldest sample of a full buffer. *)
Definition insert_impl (sample : A) (ts : simtime) b : res (SampleBuffer A) :=
  match items b with
  | s :: _ =>
      if timestamp s <? ts
      then Ok (mkBuffer (capacity b) (take (capacity b) (mkSample sample ts :: items b)))
      else Fail (StdException "chronological order of samples violated")
  | [] => Ok (mkBuffer (capacity b) (take (capacity b) [mkSample sample ts]))
  end.

(** [not_before]: from the newest up to the lower bound of [limit]. *)
Fixpoint upto_lower_bound (limit : simtime) (l : list (Sample A)) : list (Sample A) :=
  match l with
  | [] => []
  | s :: l' => if limit <? timestamp s then s :: upto_lower_bound limit l' else []
  end.
Definition not_before (limit : simtime) b : list (Sample A) := upto_lower_bound limit (items b).

(** [range::duration] *)
Definition range_duration (r : list (Sample A)) : simtime :=
  match r, last r with
  | s :: _ :: _, Some e => timestamp s - timestamp e
  | _, _ => 0
  end.
End Buffer.

(** ** Algorithms on samples of quantities *)
Section Algorithm.
(** [SimTime::dbl]. *)
Variable dbl : simtime -> double.

Definition duration (from to : Sample double) : double := dbl (timestamp to - timestamp from).

Definition differentiate (from to : Sample double) : res double :=
  let d := duration from to in
  _ ← assert_ "d.value() != 0.0" (negb (deqb d d_zero));
  Ok (ddiv (dsub (value to) (value from)) d).

Definition average (r : list (Sample double)) : double :=
  match r with
  | [] => d_zero
  | _ => ddiv (foldl (fun sum s => dadd sum (value s)) d_zero r)
              (d_of_Z (Z.of_nat (length r)))
  end.
End Algorithm.

(** ** Samplers *)
Record IntervalSampler (A : Type) := mkSampler {
  m_buffer : SampleBuffer A;
  m_interval : simtime;
  m_duration : simtime
}.
Arguments mkSampler {A} m_buffer m_interval m_duration.
Arguments m_buffer {A} i.
Arguments m_interval {A} i.
Arguments m_duration {A} i.

Section Sampler.
Context {A : Type}.
Implicit Types s : IntervalSampler A.

Definition sampler_create : IntervalSampler A := mkSampler (mkBuffer 0 []) 0 0.

(** [std::ceil(m_duration / m_interval)]; the quotient of two [SimTime]s is a
    [double]. *)
Definition setCapacity s : res (IntervalSampler A) :=
  samples ← (if m_interval s =? 0 then Ok 0
             else d_to_long (d_ceil (ddiv (d_of_Z (m_duration s)) (d_of_Z (m_interval s)))));
  Ok (mkSampler (set_capacity (Z.to_nat samples) (m_buffer s)) (m_interval s) (m_duration s)).

Definition setDuration (d : simtime) s : res (IntervalSampler A) :=
  setCapacity (mkSampler (m_buffer s) (m_interval s) (Z.max d 0)).

Definition setInterval (interval : simtime) s : res (IntervalSampler A) :=
  let b := if m_interval s =? interval then m_buffer s else buffer_clear (m_buffer s) in
  setCapacity (mkSampler b (Z.max interval 0) (m_duration s)).

Definition offset (now : simtime) s : simtime :=
  match latest (m_buffer s) with
  | Some l => now - (timestamp l + m_interval s)
  | None => 0
  end.

Definition with_buffer s (b : SampleBuffer A) : IntervalSampler A :=
  mkSampler b (m_interval s) (m_duration s).

(** [StrictSampler::feed] *)
Definition strict_feed (sample : A) (ts : simtime) s : res (IntervalSampler A) :=
  let off := offset ts s in
  if off =? 0 then b ← insert_impl sample ts (m_buffer s); Ok (with_buffer s b)
  else if off <? 0 then Fail (StdException "oversampling_error")
  else Fail (StdException "undersampling_error").

(** [SkipEarlySampler::feed] *)
Definition skip_early_feed (sample : A) (ts : simtime) s : res (IntervalSampler A) :=
  if 0 <=? offset ts s then b ← insert_impl sample ts (m_buffer s); Ok (with_buffer s b)
  else Ok s.
End Sampler.

(** ** Properties *)
Lemma StronglySorted_take {B} (R : relation B) n k : StronglySorted R k -> StronglySorted R (take n k).
Proof.
  intros Hs. rewrite <- (take_drop n k) in Hs. by apply StronglySorted_app_1_l in Hs.
Qed.

Section Properties.
Context {A : Type}.
Implicit Types (b : SampleBuffer A) (s : IntervalSampler A).

(** Adjacent samples, newest first, are at least [gap] apart. *)
Definition gaps (gap : Z) (l : list (Sample A)) : Prop :=
  StronglySorted (fun x y => timestamp y + gap <= timestamp x) l.

Definition buffer_wf (gap : Z) b : Prop := gaps gap (items b) /\ (length (items b) <= capacity b)%nat.

Lemma gaps_cons gap x l :
  0 <= gap -> gaps gap l -> (forall y, head l = Some y -> timestamp y + gap <= timestamp x) ->
  gaps gap (x :: l).
Proof.
  intros Hg Hs Hh. constructor; [done|]. destruct l as [|y l]; [constructor|].
  specialize (Hh y eq_refl). inversion Hs as [|? ? _ Hall]; subst.
  constructor; [done|]. eapply Forall_impl; [exact Hall|]. cbn. intros z Hz. lia.
Qed.

Lemma insert_impl_wf gap x ts b b' :
  0 <= gap -> buffer_wf gap b ->
  (forall y, latest b = Some y -> timestamp y + gap <= ts) ->
  insert_impl x ts b = Ok b' -> buffer_wf gap b' /\ capacity b' = capacity b.
Proof.
  intros Hg [Hs Hl] Hh Hi.
  assert (b' = mkBuffer (capacity b) (take (capacity b) (mkSample x ts :: items b))) as ->.
  { unfold insert_impl in Hi. destruct (items b) as [|s l] eqn:E.
    - by apply Ok_inj in Hi.
    - destruct (timestamp s <? ts); [by apply Ok_inj in Hi|done]. }
  split; [|done]. split; cbn [items capacity].
  - apply StronglySorted_take, gaps_cons; [done|done|exact Hh].
  - rewrite length_take. lia.
Qed.

Lemma skip_early_feed_Ok s x ts :
  0 < m_interval s -> exists s', skip_early_feed x ts s = Ok s'.
Proof.
  intros Hp. unfold skip_early_feed, offset, latest, insert_impl.
  destruct (items (m_buffer s)) as [|y l]; cbn [head].
  - eauto.
  - zcases; cbn; eauto; lia.
Qed.

Lemma skip_early_feed_wf s x ts s' :
  0 <= m_interval s -> buffer_wf (m_interval s) (m_buffer s) ->
  skip_early_feed x ts s = Ok s' ->
  buffer_wf (m_interval s') (m_buffer s') /\ m_interval s' = m_interval s /\
  m_duration s' = m_duration s /\ capacity (m_buffer s') = capacity (m_buffer s).
Proof.
  intros Hp Hwf. unfold skip_early_feed. destruct (Z.leb_spec 0 (offset ts s)) as [Hoff|].
  - rewrite bind_Ok. intros (b & Hb & [= <-]). cbn.
    apply (insert_impl_wf (m_interval s)) in Hb as [Hb Hc]; auto.
    unfold offset in Hoff. intros y Hy. rewrite Hy in Hoff. lia.
  - by intros [= <-].
Qed.

Definition feed_all s (l : list (A * simtime)) : res (IntervalSampler A) :=
  res_fold (fun s p => skip_early_feed p.1 p.2 s) l s.

Lemma upto_lower_bound_filter limit l :
  gaps 0 l -> upto_lower_bound limit l = filter (fun x => limit < timestamp x) l.
Proof.
  unfold gaps. induction l as [|x l IH]; intros Hs; [done|].
  inversion Hs as [|? ? Hs' Hall]; subst. cbn [upto_lower_bound]. rewrite filter_cons.
  destruct (Z.ltb_spec limit (timestamp x)).
  - rewrite decide_True by done. by rewrite IH.
  - rewrite decide_False by lia. clear IH Hs Hs'.
    induction Hall as [|y l Hy Hall IH]; [done|].
    rewrite filter_cons_False by (cbn in Hy; lia). exact IH.
Qed.

Lemma buffer_wf_gap0 gap b : 0 <= gap -> buffer_wf gap b -> gaps 0 (items b).
Proof.
  intros Hg [Hs _]. unfold gaps in *. induction Hs as [|x l Hs IH Hall]; constructor; [done|].
  eapply Forall_impl; [exact Hall|]. cbn. intros y Hy. lia.
Qed.

Lemma feed_all_inv s l :
  0 < m_interval s -> buffer_wf (m_interval s) (m_buffer s) ->
  exists s', feed_all s l = Ok s' /\ buffer_wf (m_interval s) (m_buffer s') /\
    m_interval s' = m_interval s /\ m_duration s' = m_duration s /\
    capacity (m_buffer s') = capacity (m_buffer s).
Proof.
  revert s. induction l as [|[x t] l IH]; intros s Hp Hwf; [by exists s|].
  unfold feed_all; cbn [res_fold]. destruct (skip_early_feed_Ok s x t Hp) as [s1 H1].
  cbn [fst snd]. rewrite H1. cbn [mbind res_bind].
  apply skip_early_feed_wf in H1 as (Hwf1 & Hi1 & Hd1 & Hc1); [|lia|done].
  destruct (IH s1) as (s' & Hs' & Hwf' & Hi' & Hd' & Hc'); [lia|done|].
  exists s'. rewrite Hi1 in *. rewrite Hd1 in *. rewrite Hc1 in *. done.
Qed.

(** Samplers that skip early samples: fed with any samples at any times, a
    sampler with a positive interval never throws; its buffer never exceeds its
    capacity, holds its samples newest first and at least the interval apart, and
    [not_before] yields exactly the samples strictly after the limit. *)
Theorem sampler_spacing s l limit :
  0 < m_interval s -> items (m_buffer s) = [] ->
  exists s', feed_all s l = Ok s' /\
    gaps (m_interval s) (items (m_buffer s')) /\
    (length (items (m_buffer s')) <= capacity (m_buffer s))%nat /\
    not_before limit (m_buffer s') = filter (fun x => limit < timestamp x) (items (m_buffer s')).
Proof.
  intros Hp He.
  destruct (feed_all_inv s l Hp) as (s' & Hs' & Hwf & _ & _ & Hc).
  { split; rewrite He; [constructor|cbn; lia]. }
  exists s'. split; [done|]. destruct Hwf as [Hg Hl]. rewrite Hc in Hl. split; [done|].
  split; [done|]. apply upto_lower_bound_filter.
  apply (buffer_wf_gap0 (m_interval s)); [lia|]. split; [exact Hg|by rewrite Hc].
Qed.
End Properties.

(** A sampler of 300 ms at 100 ms: the sample 50 ms after its predecessor is
    skipped, the oldest is overwritten, and a sample at the limit is excluded. *)
Definition ex_sampler : res (IntervalSampler Z) :=
  s ← setDuration (SIMTIME_MS 300) sampler_create; setInterval (SIMTIME_MS 100) s.
Definition ex_sampler_ok : IntervalSampler Z :=
  mkSampler (mkBuffer 3 []) (SIMTIME_MS 100) (SIMTIME_MS 300).
Example ex_sampler_init : ex_sampler = Ok ex_sampler_ok.
Proof. vm_compute. reflexivity. Qed.

Theorem sampler_spacing_witness :
  exists s', feed_all ex_sampler_ok ((fun ms => (ms, SIMTIME_MS ms)) <$> [10; 110; 160; 210; 400])
      = Ok s' /\
    value <$> items (m_buffer s') = [400; 210; 110] /\
    not_before (SIMTIME_MS 210) (m_buffer s') =
      filter (fun x => SIMTIME_MS 210 < timestamp x) (items (m_buffer s')) /\
    value <$> not_before (SIMTIME_MS 210) (m_buffer s') = [400].
Proof.
  destruct (sampler_spacing ex_sampler_ok
    ((fun ms => (ms, SIMTIME_MS ms)) <$> [10; 110; 160; 210; 400]) (SIMTIME_MS 210))
    as (s' & Hs' & _ & _ & Hn); [vm_compute; reflexivity|reflexivity|].
  exists s'. split; [exact Hs'|].
  assert (s' = mkSampler (mkBuffer 3 [mkSample 400 (SIMTIME_MS 400); mkSample 210 (SIMTIME_MS 210);
    mkSample 110 (SIMTIME_MS 110)]) (SIMTIME_MS 100) (SIMTIME_MS 300)) as ->.
  { apply Ok_inj. rewrite <- Hs'. vm_compute. reflexivity. }
  split; [reflexivity|]. split; [exact Hn|reflexivity].
Defined.
