(* ===== verification/DenMemory.v ===== *)
(** * Decentralised environmental notifications: messages and memory

    [src/src/artery/application/den/Memory.{h,cc}], [DenmObject.cc] and
    [CauseCode.h]: DENMs and the memory of received DENMs, which keeps the newest
    message of every event until it expires. *)

From S2P Require Import Prelude OMap Timer.

(** ** Messages *)
Record ManagementContainer := mkManagement {
  actionID : Z * Z;                 (** originating station, sequence number *)
  detectionTime : Z;                (** INTEGER, decoded *)
  referenceTime : Z;
  eventLongitude : Z;
  eventLatitude : Z;
  relevanceDistance : option Z;
  relevanceTrafficDirection : option Z;
  validityDuration : option Z;
  denm_stationType : Z
}.
Record SituationContainer := mkSituation {
  informationQuality : Z; causeCode : Z; subCauseCode : Z
}.
Record LocationContainer := mkLocation { eventSpeed : Z; eventPositionHeading : Z }.
Record ImpactReductionContainer := mkImpact {
  heightLonCarr : Z * Z; posLonCarr : Z * Z; positionOfPillars : list Z; posCentMass : Z;
  wheelBaseVehicle : Z; turningRadius : Z; positionOfOccupants : list Z; posFrontAx : Z;
  vehicleMass : Z; requestResponseIndication : Z
}.
Record Denm := mkDenm {
  denm_stationID : Z;
  management : ManagementContainer;
  situation : option SituationContainer;
  location : option LocationContainer;
  impactReduction : option ImpactReductionContainer
}.

(** Cause codes the use cases mention. *)
Definition TrafficCondition : Z := 1.
Definition DangerousEndOfQueue : Z := 27.
Definition CollisionRisk : Z := 97.

(** [DenmObject::situation_cause_code] and [operator&(DenmObject, CauseCode)]. *)
Definition situation_cause_code (d : Denm) : option Z := causeCode <$> situation d.
Definition denm_has_cause (d : Denm) (cause : Z) : bool :=
  match situation_cause_code d with Some c => c =? cause | None => false end.

(** ** Reception *)
(** [asn_INTEGER2long] and [asn_INTEGER2ulong] fail out of range. *)
Definition asn_INTEGER2long (z : Z) : option Z :=
  if (- 2 ^ 63 <=? z) && (z <? 2 ^ 63) then Some z else None.
Definition asn_INTEGER2ulong (z : Z) : option Z :=
  if (0 <=? z) && (z <? 2 ^ 64) then Some z else None.

(** [operator<(INTEGER_t, INTEGER_t)] *)
Definition integer_less (lhs rhs : Z) : res bool :=
  match asn_INTEGER2long lhs with
  | None => Fail (StdException "lhs value cannot be converted to long")
  | Some l =>
      match asn_INTEGER2long rhs with
      | None => Fail (StdException "rhs value cannot be converted to long")
      | Some r => Ok (l <? r)
      end
  end.

Record Reception := mkReception { rec_timestamp : simtime; message : Denm }.

(** Microseconds since the epoch. *)
Definition reception_expiry (r : Reception) : res time_point :=
  let m := management (message r) in
  match asn_INTEGER2ulong (detectionTime m) with
  | None => Fail (StdException "DENM detectionTime cannot be converted to unsigned long")
  | Some detectionTimeRaw =>
      let validity := match validityDuration m with
                      | Some v => Z.quot v 1 * 1000000
                      | None => 600 * 1000000
                      end in
      Ok (detectionTimeRaw * 1000 + validity)
  end.

Definition reception_cause_code (r : Reception) : Z := default 0 (situation_cause_code (message r)).

(** ** Memory

    The multi-index container is unique in the action id, hence a map; inserting
    or replacing evaluates the expiry key. *)
Abbreviation memory := (list ((Z * Z) * Reception)) (only parsing).

Definition memory_store (now : simtime) (denm : Denm) (m : memory) : res memory :=
  let r := mkReception now denm in
  _ ← reception_expiry r;
  Ok (om_set (actionID (management denm)) r m).

Definition memory_received (now : simtime) (denm : Denm) (m : memory) : res memory :=
  match om_find (actionID (management denm)) m with
  | None => memory_store now denm m
  | Some found =>
      is_newer ← integer_less (referenceTime (management (message found)))
                (referenceTime (management denm));
      if (is_newer : bool) then memory_store now denm m else Ok m
  end.

(** The expiry index holds every entry; those whose key is less than the current
    time are erased.  Every stored entry's expiry is defined. *)
Definition expired (now_tai : time_point) (r : Reception) : bool :=
  match reception_expiry r with Ok e => e <? now_tai | Fail _ => false end.

Definition memory_drop (t : Timer) (now : simtime) (m : memory) : memory :=
  filter (fun p => expired (getCurrentTime t now) p.2 = false) m.

Definition memory_count (cause : Z) (m : memory) : Z :=
  Z.of_nat (length (filter (fun p => reception_cause_code p.2 = cause) m)).

(** ** Properties *)
Definition memory_wf (m : memory) : Prop :=
  om_wf m /\ forall id r, om_find id m = Some r ->
    actionID (management (message r)) = id /\ is_ok (reception_expiry r) = true.

(** Received messages whose times are in the range of the conversions: that is
    every message with a valid ITS time stamp. *)
Definition times_valid (d : Denm) : Prop :=
  0 <= detectionTime (management d) < 2 ^ 42 /\ 0 <= referenceTime (management d) < 2 ^ 42.

Lemma reception_expiry_valid now d :
  times_valid d -> exists e, reception_expiry (mkReception now d) = Ok e.
Proof.
  intros [Hd _]. unfold reception_expiry, asn_INTEGER2ulong. cbn [message].
  destruct (Z.leb_spec 0 (detectionTime (management d))); [|lia].
  destruct (Z.ltb_spec (detectionTime (management d)) (2 ^ 64)); [|lia]. cbn. eauto.
Qed.

Lemma integer_less_valid a b :
  0 <= a < 2 ^ 42 -> 0 <= b < 2 ^ 42 -> integer_less a b = Ok (a <? b).
Proof.
  intros Ha Hb. unfold integer_less, asn_INTEGER2long.
  destruct (Z.leb_spec (- 2 ^ 63) a); [|lia]. destruct (Z.ltb_spec a (2 ^ 63)); [|lia].
  destruct (Z.leb_spec (- 2 ^ 63) b); [|lia]. destruct (Z.ltb_spec b (2 ^ 63)); [|lia]. done.
Qed.

(** The newest message of an event among those received: the first one with the
    greatest reference time. *)
Definition newest (id : Z * Z) (l : list (simtime * Denm)) : option Reception :=
  foldl (fun acc p =>
    if decide (actionID (management p.2) = id) then
      match acc with
      | Some r => if referenceTime (management (message r)) <? referenceTime (management p.2)
                  then Some (mkReception p.1 p.2) else acc
      | None => Some (mkReception p.1 p.2)
      end
    else acc) None l.

Definition memory_run (l : list (simtime * Denm)) : res memory :=
  res_fold (fun m p => memory_received p.1 p.2 m) l [].

Lemma newest_valid id l r :
  Forall (fun p => times_valid p.2) l -> newest id l = Some r ->
  times_valid (message r) /\ actionID (management (message r)) = id.
Proof.
  unfold newest. induction l as [|p l IH] using rev_ind; [done|].
  rewrite foldl_app, Forall_app. intros [Hl Hp]. inversion_clear Hp as [|? ? Hv _]. cbn [foldl].
  set (acc := foldl _ None l) in *. case_decide as Hid; [|by apply IH].
  destruct acc as [r'|]; [|by intros [= <-]].
  destruct (_ <? _); [by intros [= <-]|by apply IH].
Qed.

Lemma memory_received_newest l :
  Forall (fun p => times_valid p.2) l ->
  exists m, memory_run l = Ok m /\ memory_wf m /\ forall id, om_find id m = newest id l.
Proof.
  induction l as [|p l IH] using rev_ind.
  - intros _. exists []. split; [done|split; [split; [constructor|done]|done]].
  - rewrite Forall_app. intros [Hl Hp]. inversion_clear Hp as [|? ? Hv _].
    destruct (IH Hl) as (m & Hm & [Hwf Hk] & Hf).
    set (id := actionID (management p.2)).
    assert (exists m', memory_received p.1 p.2 m = Ok m' /\
      (m' = m /\ newest id (l ++ [p]) = newest id l \/
       m' = om_set id (mkReception p.1 p.2) m /\
       newest id (l ++ [p]) = Some (mkReception p.1 p.2))) as (m' & Hm' & Hcase).
    { unfold memory_received. fold id. rewrite Hf. unfold newest. rewrite foldl_app. cbn [foldl].
      rewrite decide_True by done. fold (newest id l).
      destruct (reception_expiry_valid p.1 p.2 Hv) as [e He].
      assert (memory_store p.1 p.2 m = Ok (om_set id (mkReception p.1 p.2) m)) as Hst
        by (unfold memory_store; by rewrite He).
      destruct (newest id l) as [r|] eqn:Hr; [|eauto].
      apply newest_valid in Hr as [[_ Hr] _]; [|done].
      rewrite integer_less_valid by (try apply Hv; done). cbn [mbind res_bind].
      destruct (_ <? _); eauto. }
    exists m'. unfold memory_run in *. rewrite res_fold_app, Hm. cbn [mbind res_bind res_fold].
    rewrite Hm'. split; [done|].
    assert (forall id', id' <> id -> newest id' (l ++ [p]) = newest id' l) as Hother.
    { intros id' Hne. unfold newest. rewrite foldl_app. cbn. by rewrite decide_False. }
    destruct Hcase as [[-> Hn]|[-> Hn]].
    + split; [done|]. intros id'. destruct (decide (id' = id)) as [->|Hne].
      * by rewrite Hn.
      * by rewrite Hother.
    + split; [split; [by apply om_wf_set|]|].
      * intros id' r. rewrite om_find_set. case_decide as Hid; [|apply Hk].
        intros [= <-]. split; [done|].
        destruct (reception_expiry_valid p.1 p.2 Hv) as [e ->]. done.
      * intros id'. rewrite om_find_set. case_decide as Hid; [by subst|].
        by rewrite Hother.
Qed.

(** [C9] The memory of received DENMs: whatever valid messages arrive in
    whatever order, storing never fails and the memory holds, for every action id,
    exactly the message with the greatest reference time (the first of equals);
    after expired entries have been dropped it holds exactly those whose detection
    time plus validity (600 s unless given) is not before the current time, and
    the count of a cause is the number of such events with that cause. *)
Theorem memory_keeps_newest t now l :
  Forall (fun p => times_valid p.2) l ->
  exists m, memory_run l = Ok m /\
    (forall id, om_find id m = newest id l) /\
    (forall id r, om_find id (memory_drop t now m) = Some r <->
       newest id l = Some r /\ exists e, reception_expiry r = Ok e /\ getCurrentTime t now <= e) /\
    (forall cause, exists ids, NoDup ids /\
       memory_count cause (memory_drop t now m) = Z.of_nat (length ids) /\
       forall id, id ∈ ids <-> exists r, om_find id (memory_drop t now m) = Some r /\
                                 reception_cause_code r = cause).
Proof.
  intros Hv. destruct (memory_received_newest l Hv) as (m & Hm & [Hwf Hk] & Hf).
  exists m. split; [done|split; [done|split]].
  - intros id r. unfold memory_drop. rewrite om_find_filter by done. rewrite <- Hf.
    destruct (om_find id m) as [r'|] eqn:Hr; [|naive_solver].
    destruct (Hk _ _ Hr) as [_ Hok]. cbn [snd]. unfold expired.
    destruct (reception_expiry r') as [e|] eqn:He; [|done].
    destruct (Z.ltb_spec e (getCurrentTime t now)) as [Hlt|Hge].
    + rewrite decide_False by done. split; [done|]. intros ([= ->] & e' & He' & Hle).
      rewrite He in He'. injection He' as <-. lia.
    + rewrite decide_True by done. split; [|by intros ([= ->] & _)].
      intros [= ->]. eauto.
  - intros cause. set (d := memory_drop t now m).
    assert (om_wf d) as Hd by (by apply om_wf_filter).
    set (f := filter (fun p : (Z * Z) * Reception => reception_cause_code p.2 = cause) d).
    assert (om_wf f) as Hff by (by apply om_wf_filter).
    exists (om_keys f). split; [by apply om_wf_NoDup|]. split.
    + unfold memory_count, om_keys. fold f. by rewrite length_fmap.
    + intros id. rewrite <- om_find_is_Some. subst f. rewrite om_find_filter by done.
      destruct (om_find id d) as [r|]; [|split; [by intros []|by intros (? & ? & _)]].
      cbn [snd]. case_decide as Hc.
      * split; [eauto|]. intros _. by exists r.
      * split; [by intros []|]. intros (r' & [= ->] & Hc'). done.
Qed.

(** ** Witness *)
Definition ex_denm (station seq ref : Z) (cause : Z) : Denm :=
  mkDenm station
    (mkManagement (station, seq) (400 * 10 ^ 9) ref 0 0 None None (Some 20) 0)
    (Some (mkSituation 1 cause 0)) None None.

Lemma ex_denm_valid l :
  Forall (fun p : simtime * Denm => times_valid p.2) ((fun x : simtime * (Z * Z) =>
    (x.1, ex_denm x.2.1 1 (400 * 10 ^ 9 + x.2.2) DangerousEndOfQueue)) <$> l) <->
  Forall (fun x => 0 <= 400 * 10 ^ 9 + x.2.2 < 2 ^ 42) l.
Proof.
  rewrite Forall_fmap. apply Forall_iff. intros [t [st r]]. unfold times_valid; cbn. lia.
Qed.

Theorem memory_keeps_newest_witness :
  exists m, memory_run ((fun x : simtime * (Z * Z) =>
      (x.1, ex_denm x.2.1 1 (400 * 10 ^ 9 + x.2.2) DangerousEndOfQueue))
        <$> [(1, (5, 10)); (2, (6, 0)); (3, (5, 7))]) = Ok m /\
    om_find (5, 1) m = Some (mkReception 1 (ex_denm 5 1 (400 * 10 ^ 9 + 10) DangerousEndOfQueue)) /\
    memory_count DangerousEndOfQueue m = 2.
Proof.
  destruct (memory_keeps_newest (mkTimer (400 * 10 ^ 12)) 0 ((fun x : simtime * (Z * Z) =>
      (x.1, ex_denm x.2.1 1 (400 * 10 ^ 9 + x.2.2) DangerousEndOfQueue))
        <$> [(1, (5, 10)); (2, (6, 0)); (3, (5, 7))])) as (m & Hm & Hf & _).
  { apply ex_denm_valid. repeat constructor; cbn; lia. }
  exists m. split; [exact Hm|]. split; [rewrite Hf; reflexivity|].
  assert (forall m', memory_run ((fun x : simtime * (Z * Z) =>
      (x.1, ex_denm x.2.1 1 (400 * 10 ^ 9 + x.2.2) DangerousEndOfQueue))
        <$> [(1, (5, 10)); (2, (6, 0)); (3, (5, 7))]) = Ok m' ->
      memory_count DangerousEndOfQueue m' = 2) as H.
  { intros m' H'. vm_compute in H'. apply Ok_inj in H' as <-. vm_compute. reflexivity. }
  by apply H.
Defined.
