(* ===== verification/DenService.v ===== *)
(** * DEN service and its use cases

    [src/src/artery/application/DenService.{h,cc}], [den/UseCase.cc],
    [den/SuspendableUseCase.cc], [den/TrafficJamUseCase.cc] and
    [den/ImpactReductionUseCase.cc]: detection of traffic jams from the own speed
    and received messages, the exchange of impact reduction containers, and the
    numbering and sending of DENMs. *)

From S2P Require Import Prelude OMap Timer Float64 VehicleData Cam Ldm CaService Sampling DenMemory.

(** ** Requests *)
Record DataRequestB := mkRequest {
  destination_port : Z;
  its_aid : Z;
  is_gbc : bool;              (** transport type GBC and profile ITS-G5 are set *)
  tc_id : Z;
  maximum_hop_limit : option Z;
  repetition_interval : double;
  repetition_maximum : double;
  radius : double;
  destination_latitude : double;
  destination_longitude : double
}.

Definition fillRequest (r : DataRequestB) : DataRequestB :=
  mkRequest 2002 37 true (tc_id r) (maximum_hop_limit r) (repetition_interval r)
    (repetition_maximum r) (radius r) (destination_latitude r) (destination_longitude r).

(** ** Use cases *)
Record TrafficJam := mkTrafficJam {
  mNonUrbanEnvironment : bool;
  mVelocitySampler : IntervalSampler double;
  mDetectionBlockingInterval : simtime;
  mDetectionBlockingSince : option simtime
}.
Inductive jam_kind := EndOfQueue | JamAhead.
Inductive UseCase :=
| TrafficJamUseCase (kind : jam_kind) (s : TrafficJam)
| ImpactReductionContainerExchange (mPendingRequest : bool).

(** [SuspendableUseCase] *)
Definition setDetectionBlockingInterval (block : simtime) (s : TrafficJam) : TrafficJam :=
  mkTrafficJam (mNonUrbanEnvironment s) (mVelocitySampler s) (Z.max 0 block)
    (mDetectionBlockingSince s).
Definition suspendable_initialize (detectionBlockingInterval : simtime) (s : TrafficJam) :
    TrafficJam := setDetectionBlockingInterval detectionBlockingInterval s.
Definition set_since (o : option simtime) (s : TrafficJam) : TrafficJam :=
  mkTrafficJam (mNonUrbanEnvironment s) (mVelocitySampler s) (mDetectionBlockingInterval s) o.
Definition isDetectionBlocked (now : simtime) (s : TrafficJam) : bool * TrafficJam :=
  match mDetectionBlockingSince s with
  | Some since =>
      if since + mDetectionBlockingInterval s <? now then (false, set_since None s)
      else (true, s)
  | None => (false, s)
  end.
Definition blockDetection (now : simtime) (s : TrafficJam) : TrafficJam := set_since (Some now) s.
Definition set_sampler (sm : IntervalSampler double) (s : TrafficJam) : TrafficJam :=
  mkTrafficJam (mNonUrbanEnvironment s) sm (mDetectionBlockingInterval s)
    (mDetectionBlockingSince s).

(** The freshly constructed module, and [initialize(0)] of both traffic jam use
    cases: it calls [UseCase::initialize], so the parameter
    [detectionBlockingInterval] is not read and the interval keeps its zero. *)
Definition jam_construct : TrafficJam := mkTrafficJam false sampler_create 0 None.
Record jam_params := mkJamParams {
  nonUrbanEnvironment : bool; sampleDuration : simtime; sampleInterval : simtime;
  detectionBlockingInterval : simtime
}.
Definition jam_initialize (p : jam_params) (s : TrafficJam) : res TrafficJam :=
  sm ← setDuration (sampleDuration p) (mVelocitySampler s);
  sm ← setInterval (sampleInterval p) sm;
  Ok (mkTrafficJam (nonUrbanEnvironment p) sm (mDetectionBlockingInterval s)
        (mDetectionBlockingSince s)).

(** What a use case reads besides its own state. *)
Record den_env := mkDenEnv {
  den_now : simtime;
  den_vdp : VehicleDataProvider;
  den_ldm : list (Z * AwarenessEntry)
}.

(** [v * km_per_hour] as a velocity in metres per second. *)
Definition km_per_hour (v : Z) : double :=
  dmul (dmul (d_of_Z v) (ddiv (d_of_Z 1) (d_of_Z 3600))) (d_of_Z 1000).

Section Den.
Variable quantity_cast : cam_unit -> double -> double.
(** [SimTime::dbl]. *)
Variable dbl : simtime -> double.
(** [vanetza::facilities::distance] of a reference position and a geo position
    (NaN when the position is unavailable). *)
Variable distance_ref : BasicContainer -> double -> double -> double.
(** Degrees to radians. *)
Variable degrees : double -> double.
Variable mTimer : Timer.

(** *** Message skeleton *)
Definition createMessageSkeleton (v : VehicleDataProvider) (action_id : Z * Z) : res Denm :=
  let taiTime := countTaiMilliseconds (getTimeFor mTimer (mLastUpdate v)) in
  lon ← round_to quantity_cast (longitude (mGeoPosition v)) microdegree;
  lat ← round_to quantity_cast (latitude (mGeoPosition v)) microdegree;
  speed ← round_to quantity_cast (mSpeed v) centimeter_per_second;
  heading ← round_to quantity_cast (mHeading v) decidegree;
  Ok (mkDenm (mStationId v)
        (mkManagement action_id (swrap 64 taiTime) (swrap 64 taiTime) (lon * 10) (lat * 10)
           None None None 0)
        None (Some (mkLocation (Z.abs speed * 1) heading)) None).

Definition with_situation (msg : Denm) (distance direction validity cause : Z) : Denm :=
  let m := management msg in
  mkDenm (denm_stationID msg)
    (mkManagement (actionID m) (detectionTime m) (referenceTime m) (eventLongitude m)
       (eventLatitude m) (Some distance) (Some direction) (Some validity) 0)
    (Some (mkSituation 1 cause 0)) (location msg) (impactReduction msg).

(** *** Traffic jam *)
Definition jam_createMessage (kind : jam_kind) (v : VehicleDataProvider) (id : Z * Z) : res Denm :=
  msg ← createMessageSkeleton v id;
  Ok (match kind with
      | EndOfQueue => with_situation msg 4 1 20 DangerousEndOfQueue
      | JamAhead => with_situation msg 4 1 60 TrafficCondition
      end).

Definition jam_createRequest (kind : jam_kind) (v : VehicleDataProvider) : DataRequestB :=
  let '(interval, maximum) :=
    match kind with
    | EndOfQueue => (d_lit 1 2, d_of_Z 20)
    | JamAhead => (d_of_Z 1, d_of_Z 60)
    end in
  mkRequest 0 0 false 1 None interval maximum (d_of_Z 1000)
    (latitude (mGeoPosition v)) (longitude (mGeoPosition v)).

(** [std::find_if] over the samples after the latest. *)
Definition find_initial (l : list (Sample double)) : option (Sample double) :=
  List.find (fun s => dleb (km_per_hour 80) (value s)) l.

Definition checkEgoDeceleration (samples : SampleBuffer double) : res bool :=
  match items samples with
  | [] => Ok false
  | l :: rest =>
      if dleb (value l) (km_per_hour 30) then
        match find_initial rest with
        | None => Ok false
        | Some initialVelocity =>
            _ ← assert_ "duration(*initialVelocity, velocitySamples.latest()) < instantDecelDuration"
                  (dltb (duration dbl initialVelocity l) (d_of_Z 10));
            d ← differentiate dbl initialVelocity l;
            Ok (dltb d (d_lit (-35) 10))
        end
      else Ok false
  end.

Definition checkEndOfQueueReceived (m : list ((Z * Z) * Reception)) : bool :=
  1 <=? memory_count DangerousEndOfQueue m.
Definition checkJamAheadReceived (m : list ((Z * Z) * Reception)) : bool :=
  5 <=? memory_count TrafficCondition m.

Definition checkLowAverageEgoVelocity (now : simtime) (samples : SampleBuffer double) : bool :=
  let speedSamples := not_before (now - SIMTIME_S 120) samples in
  if SIMTIME_S 10 <=? range_duration speedSamples then
    let speedAvg := average speedSamples in
    dleb speedAvg (km_per_hour 30) && dltb (km_per_hour 0) speedAvg
  else false.

Definition checkStationaryEgo (now : simtime) (samples : SampleBuffer double) : bool :=
  let speedSamples := not_before (now - SIMTIME_S 30) samples in
  if SIMTIME_S 10 <=? range_duration speedSamples
  then dleb (average speedSamples) (km_per_hour 0) else false.

Definition checkTrafficJamAheadReceived (m : list ((Z * Z) * Reception)) : bool :=
  1 <=? memory_count TrafficCondition m.

(** The predicate on CAMs (all with the basic vehicle container). *)
Definition slow_vehicle (v : VehicleDataProvider) (msg : Cam) : bool :=
  let bvc := highFrequencyContainer msg in
  if (speedValue bvc =? 16383) || (833 * 1 <? speedValue bvc) then false
  else if negb (if headingValue bvc =? 3601 then false
                else similar_heading (degrees (ddiv (d_of_Z (headingValue bvc)) (d_of_Z 10)))
                       (mHeading v) (degrees (d_of_Z 10))) then false
  else negb (dltb (d_of_Z 100) (distance_ref (basicContainer msg) (latitude (mGeoPosition v))
                                  (longitude (mGeoPosition v)))).

Definition checkSlowVehiclesAheadByV2X (e : den_env) : bool :=
  5 <=? count (slow_vehicle (den_vdp e)) (den_ldm e).

(** [checkConditions]: the conditions the simulation cannot observe are false. *)
Definition checkConditions (kind : jam_kind) (e : den_env) (m : list ((Z * Z) * Reception))
    (samples : SampleBuffer double) : res bool :=
  match kind with
  | EndOfQueue =>
      tc0 ← checkEgoDeceleration samples;
      Ok (tc0 && (checkEndOfQueueReceived m || checkJamAheadReceived m))
  | JamAhead =>
      Ok (checkLowAverageEgoVelocity (den_now e) samples ||
          (checkStationaryEgo (den_now e) samples &&
           (checkTrafficJamAheadReceived m || checkSlowVehiclesAheadByV2X e)))
  end.

(** *** Service *)
Record DenService := mkDenService {
  mSequenceNumber : Z;
  mMemory : list ((Z * Z) * Reception);
  mUseCases : list UseCase
}.

(** [requestActionID]: pre-increment of a 16-bit counter. *)
Definition requestActionID (e : den_env) (seq : Z) : Z * (Z * Z) :=
  let seq := u16 (seq + 1) in (seq, (mStationId (den_vdp e), seq)).

(** [sendDenm]: the filled request with its message. *)
Definition sendDenm (msg : Denm) (r : DataRequestB) : Denm * DataRequestB := (msg, fillRequest r).

Abbreviation outcome := (Z * UseCase * list (Denm * DataRequestB))%type (only parsing).

Definition jam_check (kind : jam_kind) (e : den_env) (m : list ((Z * Z) * Reception)) (seq : Z)
    (s : TrafficJam) : res (Z * TrafficJam * list (Denm * DataRequestB)) :=
  sm ← skip_early_feed (mSpeed (den_vdp e)) (mLastUpdate (den_vdp e)) (mVelocitySampler s);
  let s := set_sampler sm s in
  let '(blocked, s) := isDetectionBlocked (den_now e) s in
  if blocked then Ok (seq, s, [])
  else if mNonUrbanEnvironment s then
    cond ← checkConditions kind e m (m_buffer (mVelocitySampler s));
    if cond : bool then
      let s := blockDetection (den_now e) s in
      let '(seq, id) := requestActionID e seq in
      msg ← jam_createMessage kind (den_vdp e) id;
      Ok (seq, s, [sendDenm msg (jam_createRequest kind (den_vdp e))])
    else Ok (seq, s, [])
  else Ok (seq, s, []).

(** *** Impact reduction *)
Definition irc_createMessage (v : VehicleDataProvider) (id : Z * Z) (ind : Z) : res Denm :=
  msg ← createMessageSkeleton v id;
  let msg := with_situation msg 1 0 2 CollisionRisk in
  let occupants :=
    [Z.lor 0 (Z.shiftl 1 (7 - 0));
     Z.lor (Z.lor 0 (Z.shiftl 1 (15 - 8))) (Z.shiftl 1 (15 - 14));
     Z.lor 0 (Z.shiftl 1 (23 - 19))] in
  Ok (mkDenm (denm_stationID msg) (management msg) (situation msg) (location msg)
        (Some (mkImpact (100, 100) (127, 127) [30] 63 127 255 occupants 20 1024 ind))).

Definition irc_createRequest (v : VehicleDataProvider) : DataRequestB :=
  mkRequest 0 0 false 0 (Some 1) (d_lit 1 10) (d_lit 3 10) (d_of_Z 100)
    (latitude (mGeoPosition v)) (longitude (mGeoPosition v)).

Definition IRC_request : Z := 0.
Definition IRC_response : Z := 1.

Definition transmitMessage (e : den_env) (seq : Z) (ind : Z) :
    res (Z * (Denm * DataRequestB)) :=
  let '(seq, id) := requestActionID e seq in
  msg ← irc_createMessage (den_vdp e) id ind;
  Ok (seq, sendDenm msg (irc_createRequest (den_vdp e))).

Definition irc_check (e : den_env) (seq : Z) (pending : bool) :
    res (Z * bool * list (Denm * DataRequestB)) :=
  if pending then
    r ← transmitMessage e seq IRC_request;
    let '(seq, d) := r : Z * (Denm * DataRequestB) in Ok (seq, false, [d])
  else Ok (seq, false, []).

Definition irc_indicate (e : den_env) (seq : Z) (denm : Denm) :
    res (Z * list (Denm * DataRequestB)) :=
  if denm_has_cause denm CollisionRisk then
    match impactReduction denm with
    | Some irc =>
        if requestResponseIndication irc =? IRC_request then
          r ← transmitMessage e seq IRC_response;
          let '(seq, d) := r : Z * (Denm * DataRequestB) in Ok (seq, [d])
        else Ok (seq, [])
    | None => Ok (seq, [])
    end
  else Ok (seq, []).

(** *** Virtual calls on a use case *)
Definition use_case_check (e : den_env) (m : list ((Z * Z) * Reception)) (seq : Z) (u : UseCase) :
    res outcome :=
  match u with
  | TrafficJamUseCase kind s =>
      r ← jam_check kind e m seq s;
      let '(seq, s, out) := r : Z * TrafficJam * list (Denm * DataRequestB) in
      Ok (seq, TrafficJamUseCase kind s, out)
  | ImpactReductionContainerExchange pending =>
      r ← irc_check e seq pending;
      let '(seq, pending, out) := r : Z * bool * list (Denm * DataRequestB) in
      Ok (seq, ImpactReductionContainerExchange pending, out)
  end.

Definition use_case_indicate (e : den_env) (denm : Denm) (seq : Z) (u : UseCase) : res outcome :=
  match u with
  | TrafficJamUseCase _ _ => Ok (seq, u, [])
  | ImpactReductionContainerExchange _ =>
      r ← irc_indicate e seq denm;
      let '(seq, out) := r : Z * list (Denm * DataRequestB) in Ok (seq, u, out)
  end.

Definition use_case_storyboard (cause : string) (u : UseCase) : UseCase :=
  match u with
  | TrafficJamUseCase _ _ => u
  | ImpactReductionContainerExchange pending =>
      ImpactReductionContainerExchange (if String.eqb cause "irc" then true else pending)
  end.

(** The loops over [mUseCases]. *)
Fixpoint each_use_case (f : Z -> UseCase -> res outcome) (seq : Z) (us : list UseCase) :
    res (Z * list UseCase * list (Denm * DataRequestB)) :=
  match us with
  | [] => Ok (seq, [], [])
  | u :: us' =>
      r ← f seq u;
      let '(seq, u, out) := r : outcome in
      r ← each_use_case f seq us';
      let '(seq, us', out') := r : Z * list UseCase * list (Denm * DataRequestB) in
      Ok (seq, u :: us', out ++ out')
  end.

Definition den_trigger (e : den_env) (s : DenService) :
    res (DenService * list (Denm * DataRequestB)) :=
  let m := memory_drop mTimer (den_now e) (mMemory s) in
  r ← each_use_case (use_case_check e m) (mSequenceNumber s) (mUseCases s);
  let '(seq, us, out) := r : Z * list UseCase * list (Denm * DataRequestB) in
  Ok (mkDenService seq m us, out).

(** [indicate] of a decoded message, if any. *)
Definition den_indicate (e : den_env) (denm : option Denm) (s : DenService) :
    res (DenService * list (Denm * DataRequestB)) :=
  match denm with
  | Some d =>
      if negb (denm_stationID d =? mStationId (den_vdp e)) then
        m ← memory_received (den_now e) d (mMemory s);
        r ← each_use_case (use_case_indicate e d) (mSequenceNumber s) (mUseCases s);
        let '(seq, us, out) := r : Z * list UseCase * list (Denm * DataRequestB) in
        Ok (mkDenService seq m us, out)
      else Ok (s, [])
  | None => Ok (s, [])
  end.

(** [receiveSignal(storyboardSignal)] *)
Definition den_storyboard (cause : string) (s : DenService) : DenService :=
  mkDenService (mSequenceNumber s) (mMemory s) (use_case_storyboard cause <$> mUseCases s).

(** Use cases are added at the front of the list. *)
Definition den_add_use_case (u : UseCase) (s : DenService) : DenService :=
  mkDenService (mSequenceNumber s) (mMemory s) (u :: mUseCases s).
Definition den_construct : DenService := mkDenService 0 [] [].

(** ** Numbering of messages *)
Definition filled (r : DataRequestB) : Prop :=
  destination_port r = 2002 /\ its_aid r = 37 /\ is_gbc r = true.

(** The messages sent from counter [seq] on carry consecutive numbers and leave
    the counter at [seq']. *)
Fixpoint numbered (seq : Z) (out : list (Denm * DataRequestB)) (seq' : Z) : Prop :=
  match out with
  | [] => seq' = seq
  | (msg, r) :: out' =>
      (actionID (management msg)).2 = u16 (seq + 1) /\ filled r /\
      numbered (u16 (seq + 1)) out' seq'
  end.

Lemma numbered_app seq out1 mid out2 seq' :
  numbered seq out1 mid -> numbered mid out2 seq' -> numbered seq (out1 ++ out2) seq'.
Proof.
  revert seq. induction out1 as [|[m r] out1 IH]; intros seq; cbn; [by intros ->|].
  intros (? & ? & ?) ?. split; [done|split; [done|auto]].
Qed.

Lemma skeleton_actionID v id m :
  createMessageSkeleton v id = Ok m ->
  actionID (management m) = id /\ denm_stationID m = mStationId v.
Proof.
  unfold createMessageSkeleton. rewrite bind_Ok. intros (? & _ & H).
  do 3 (apply bind_Ok in H as (? & _ & H)). by apply Ok_inj in H as <-.
Qed.

Lemma jam_check_cases kind e m seq s seq' s' out :
  jam_check kind e m seq s = Ok (seq', s', out) ->
  exists sm, skip_early_feed (mSpeed (den_vdp e)) (mLastUpdate (den_vdp e)) (mVelocitySampler s)
      = Ok sm /\
  let s1 := set_sampler sm s in
  let '(blocked, s2) := isDetectionBlocked (den_now e) s1 in
  match out with
  | [] => seq' = seq /\ s' = s2 /\
      (blocked = true \/ mNonUrbanEnvironment s2 = false \/
       checkConditions kind e m (m_buffer (mVelocitySampler s2)) = Ok false)
  | [(msg, r)] => blocked = false /\ mNonUrbanEnvironment s2 = true /\
      checkConditions kind e m (m_buffer (mVelocitySampler s2)) = Ok true /\
      seq' = u16 (seq + 1) /\ s' = blockDetection (den_now e) s2 /\
      jam_createMessage kind (den_vdp e) (mStationId (den_vdp e), u16 (seq + 1)) = Ok msg /\
      r = fillRequest (jam_createRequest kind (den_vdp e))
  | _ => False
  end.
Proof.
  unfold jam_check. rewrite bind_Ok. intros (sm & Hsm & H). exists sm. split; [done|].
  cbv zeta in *. destruct (isDetectionBlocked _ _) as [[] s2].
  - apply Ok_inj in H. injection H as <- <- <-. auto.
  - destruct (mNonUrbanEnvironment s2) eqn:Hn.
    + apply bind_Ok in H as (c & Hc & H). destruct c.
      * apply bind_Ok in H as (msg & Hmsg & H). apply Ok_inj in H.
        injection H as <- <- <-. unfold sendDenm. done.
      * apply Ok_inj in H. injection H as <- <- <-. auto.
    + apply Ok_inj in H. injection H as <- <- <-. auto.
Qed.

Lemma transmitMessage_numbered e seq ind seq' d :
  transmitMessage e seq ind = Ok (seq', d) ->
  seq' = u16 (seq + 1) /\ (actionID (management d.1)).2 = seq' /\ filled d.2 /\
  (exists irc, impactReduction d.1 = Some irc /\ requestResponseIndication irc = ind) /\
  denm_has_cause d.1 CollisionRisk = true /\ denm_stationID d.1 = mStationId (den_vdp e).
Proof.
  unfold transmitMessage, requestActionID. rewrite bind_Ok. intros (msg & Hmsg & H).
  apply Ok_inj in H. injection H as <- <-. unfold irc_createMessage in Hmsg.
  apply bind_Ok in Hmsg as (sk & Hsk & Hmsg). apply Ok_inj in Hmsg as <-.
  apply skeleton_actionID in Hsk as [Hid Hst]. split; [done|].
  split; [cbn; by rewrite Hid|]. split; [done|]. split; [eauto|]. done.
Qed.

Lemma use_case_check_numbered e m seq u seq' u' out :
  use_case_check e m seq u = Ok (seq', u', out) -> numbered seq out seq'.
Proof.
  destruct u as [kind s|pending]; cbn [use_case_check].
  - rewrite bind_Ok. intros ([[seq1 s1] out1] & Hc & H). apply Ok_inj in H.
    injection H as <- <- <-. apply jam_check_cases in Hc as (sm & _ & Hc). cbv zeta in Hc.
    destruct (isDetectionBlocked _ _) as [b s2]. destruct out1 as [|[msg r] [|]]; [|
      |done].
    + by destruct Hc as [-> _].
    + destruct Hc as (_ & _ & _ & -> & _ & Hmsg & ->). cbn. split; [|by repeat split].
      unfold jam_createMessage in Hmsg. apply bind_Ok in Hmsg as (sk & Hsk & Hmsg).
      apply skeleton_actionID in Hsk as [Hid _]. apply Ok_inj in Hmsg as <-.
      by destruct kind; cbn; rewrite Hid.
  - rewrite bind_Ok. intros ([[seq1 p1] out1] & Hc & H). apply Ok_inj in H.
    injection H as <- <- <-. unfold irc_check in Hc. destruct pending.
    + apply bind_Ok in Hc as ([seq2 d] & Ht & Hc). apply Ok_inj in Hc. injection Hc as <- <- <-.
      apply transmitMessage_numbered in Ht as (-> & Hid & Hf & _). destruct d. cbn in *. done.
    + apply Ok_inj in Hc. by injection Hc as <- <- <-.
Qed.

Lemma irc_indicate_cases e seq denm seq' out :
  irc_indicate e seq denm = Ok (seq', out) ->
  (out = [] /\ seq' = seq /\
     (denm_has_cause denm CollisionRisk = true -> forall irc, impactReduction denm = Some irc ->
        requestResponseIndication irc <> IRC_request)) \/
  (exists d irc, out = [d] /\ denm_has_cause denm CollisionRisk = true /\
     impactReduction denm = Some irc /\ requestResponseIndication irc = IRC_request /\
     transmitMessage e seq IRC_response = Ok (seq', d)).
Proof.
  unfold irc_indicate. destruct (denm_has_cause denm CollisionRisk).
  2: { intros H. apply Ok_inj in H. injection H as <- <-. by left. }
  destruct (impactReduction denm) as [irc|].
  2: { intros H. apply Ok_inj in H. injection H as <- <-. by left. }
  destruct (Z.eqb_spec (requestResponseIndication irc) IRC_request).
  - rewrite bind_Ok. intros ([seq1 d] & Ht & H). apply Ok_inj in H. injection H as <- <-.
    right. eauto 8.
  - intros H. apply Ok_inj in H. injection H as <- <-. left. do 2 (split; [done|]).
    by intros _ irc' [= <-].
Qed.

Lemma use_case_indicate_numbered e d seq u seq' u' out :
  use_case_indicate e d seq u = Ok (seq', u', out) -> numbered seq out seq'.
Proof.
  destruct u as [kind s|pending]; cbn [use_case_indicate].
  - intros H. apply Ok_inj in H. by injection H as <- <- <-.
  - rewrite bind_Ok. intros ([seq1 out1] & Hc & H). apply Ok_inj in H. injection H as <- <- <-.
    apply irc_indicate_cases in Hc as [(-> & -> & _)|([msg r] & irc & -> & _ & _ & _ & Ht)]; [done|].
    apply transmitMessage_numbered in Ht as (-> & Hid & Hf & _). done.
Qed.

Lemma each_use_case_numbered f seq us seq' us' out :
  (forall seq u seq' u' out, f seq u = Ok (seq', u', out) -> numbered seq out seq') ->
  each_use_case f seq us = Ok (seq', us', out) -> numbered seq out seq'.
Proof.
  intros Hf. revert seq us' out. induction us as [|u us IH]; intros seq us' out; cbn [each_use_case].
  - intros H. apply Ok_inj in H. by injection H as <- <- <-.
  - rewrite bind_Ok. intros ([[seq1 u1] out1] & H1 & H).
    apply bind_Ok in H as ([[seq2 us2] out2] & H2 & H). apply Ok_inj in H. injection H as <- <- <-.
    eapply numbered_app; eauto.
Qed.

(** Histories of the service. *)
Inductive den_op :=
| Trigger (e : den_env)
| IndicateDenm (e : den_env) (denm : option Denm)
| Storyboard (cause : string).

Definition den_step (st : DenService * list (Denm * DataRequestB)) (op : den_op) :
    res (DenService * list (Denm * DataRequestB)) :=
  match op with
  | Trigger e => r ← den_trigger e st.1; Ok ((r : DenService * _).1, st.2 ++ r.2)
  | IndicateDenm e d => r ← den_indicate e d st.1; Ok ((r : DenService * _).1, st.2 ++ r.2)
  | Storyboard cause => Ok (den_storyboard cause st.1, st.2)
  end.
Definition den_run (s : DenService) (l : list den_op) :
    res (DenService * list (Denm * DataRequestB)) := res_fold den_step l (s, []).

Lemma den_step_numbered seq0 s out op s' out' :
  numbered seq0 out (mSequenceNumber s) -> den_step (s, out) op = Ok (s', out') ->
  numbered seq0 out' (mSequenceNumber s').
Proof.
  intros Hn. destruct op as [e|e d|c]; cbn [den_step].
  - rewrite bind_Ok. intros ([s1 o1] & H1 & H). apply Ok_inj in H. injection H as <- <-.
    unfold den_trigger in H1. apply bind_Ok in H1 as ([[seq us] o] & Ho & H1).
    apply Ok_inj in H1. injection H1 as <- <-. eapply numbered_app; [exact Hn|].
    eapply each_use_case_numbered; [|exact Ho]. apply use_case_check_numbered.
  - rewrite bind_Ok. intros ([s1 o1] & H1 & H). apply Ok_inj in H. injection H as <- <-.
    cbn [fst snd] in *. unfold den_indicate in H1.
    destruct d as [d|]; [|apply Ok_inj in H1; injection H1 as <- <-; by rewrite app_nil_r].
    destruct (negb _); [|apply Ok_inj in H1; injection H1 as <- <-; by rewrite app_nil_r].
    apply bind_Ok in H1 as (m & _ & H1). apply bind_Ok in H1 as ([[seq us] o] & Ho & H1).
    apply Ok_inj in H1. injection H1 as <- <-. eapply numbered_app; [exact Hn|].
    eapply each_use_case_numbered; [|exact Ho]. apply use_case_indicate_numbered.
  - intros H. apply Ok_inj in H. by injection H as <- <-.
Qed.

Lemma u16_succ a : u16 (u16 a + 1) = u16 (a + 1).
Proof. unfold u16, wrap. rewrite Zplus_mod_idemp_l. done. Qed.

Lemma numbered_closed a out seq' :
  numbered (u16 a) out seq' ->
  (fun p : Denm * DataRequestB => (actionID (management p.1)).2) <$> out =
    (fun i => u16 (a + Z.of_nat i)) <$> seq 1 (length out) /\
  Forall (fun p => filled p.2) out.
Proof.
  revert a. induction out as [|[m r] out IH]; intros a; cbn; [done|].
  intros (Hid & Hf & Hn). rewrite u16_succ in *. destruct (IH (a + 1) Hn) as [He Hall].
  split; [|by constructor]. rewrite Hid. f_equal. rewrite He.
  rewrite <- (fmap_S_seq 1), <- list_fmap_compose. apply list_fmap_ext.
  intros _ i _. cbn. f_equal. lia.
Qed.

Lemma u16_seq_NoDup n :
  Z.of_nat n <= 2 ^ 16 -> NoDup ((fun i => u16 (Z.of_nat i)) <$> seq 1 n).
Proof.
  intros Hn. apply NoDup_fmap_2_strong; [|apply NoDup_seq].
  intros i j Hi Hj Heq. apply elem_of_seq in Hi, Hj. unfold u16, wrap in Heq.
  pose proof (Z.div_mod (Z.of_nat i) (2 ^ 16)). pose proof (Z.div_mod (Z.of_nat j) (2 ^ 16)). lia.
Qed.

(** [C8] Action ids: in every history of triggers, received messages and
    storyboard signals, for any use cases, the i-th DENM sent carries the sequence
    number i modulo 2^16, so that up to 65536 messages of a station have distinct
    action ids, and every request goes to the DENM port with the DEN application
    id, GeoBroadcast. *)
Theorem den_sequence_numbers us l s' out :
  den_run (mkDenService 0 [] us) l = Ok (s', out) ->
  (fun p => (actionID (management p.1)).2) <$> out =
    (fun i => u16 (Z.of_nat i)) <$> seq 1 (length out) /\
  (Z.of_nat (length out) <= 2 ^ 16 ->
     NoDup ((fun p => (actionID (management p.1)).2) <$> out)) /\
  Forall (fun p => filled p.2) out.
Proof.
  intros Hr.
  assert (numbered (u16 0) out (mSequenceNumber s')) as Hn.
  { refine (res_fold_inv (fun st => numbered 0 st.2 (mSequenceNumber st.1)) den_step l
      (mkDenService 0 [] us, []) (s', out) _ _ Hr); [|done].
    intros op [t o] [t' o'] _ Ht Hs. by eapply den_step_numbered. }
  apply numbered_closed in Hn as [He Hf].
  assert ((fun p : Denm * DataRequestB => (actionID (management p.1)).2) <$> out =
    (fun i => u16 (Z.of_nat i)) <$> seq 1 (length out)) as He' by exact He.
  split; [done|]. split; [|done]. rewrite He'. apply u16_seq_NoDup.
Qed.

(** ** Spacing of jam detections *)
(** Repeated checks of one use case; [(time, message)] of each detection. *)
Definition jam_step (kind : jam_kind) (st : Z * TrafficJam * list (simtime * Denm))
    (x : den_env * list ((Z * Z) * Reception)) : res (Z * TrafficJam * list (simtime * Denm)) :=
  let '(seq, s, out) := st in
  r ← jam_check kind x.1 x.2 seq s;
  let '(seq, s, sent) := r : Z * TrafficJam * list (Denm * DataRequestB) in
  Ok (seq, s, out ++ ((fun p : Denm * DataRequestB => (den_now x.1, p.1)) <$> sent)).
Definition jam_run (kind : jam_kind) (seq : Z) (s : TrafficJam)
    (l : list (den_env * list ((Z * Z) * Reception))) :=
  res_fold (jam_step kind) l (seq, s, []).

Definition jam_inv (I : simtime) (now : simtime) (s : TrafficJam)
    (out : list (simtime * Denm)) : Prop :=
  mDetectionBlockingInterval s = I /\
  StronglySorted (fun a b => a + I < b) (out.*1) /\
  Forall (fun t => t <= now) (out.*1) /\
  match mDetectionBlockingSince s with
  | Some since => last (out.*1) = Some since
  | None => Forall (fun t => t + I < now) (out.*1)
  end.

Lemma StronglySorted_snoc {A} (R : relation A) l x :
  StronglySorted R l -> Forall (fun y => R y x) l -> StronglySorted R (l ++ [x]).
Proof.
  intros Hs Hf. apply StronglySorted_app. split; [|split; [done|repeat constructor]].
  intros x1 x2 H1 H2. apply list_elem_of_singleton in H2 as ->. by eapply Forall_forall in Hf.
Qed.

Lemma sorted_last I l since now :
  StronglySorted (fun a b => a + I < b) l -> last l = Some since -> 0 <= I -> since + I < now ->
  Forall (fun t => t + I < now) l.
Proof.
  intros Hs Hl HI Hn. apply last_Some in Hl as [l' ->].
  apply Forall_app. split; [|by repeat constructor].
  apply Forall_forall. intros t Ht.
  pose proof (StronglySorted_app_1_elem_of _ _ _ _ _ Hs Ht (list_elem_of_here _ _)) as Hlt. cbn in Hlt. lia.
Qed.

Lemma jam_step_inv kind I now seq s out x seq' s' out' :
  0 <= I -> now <= den_now x.1 -> jam_inv I now s out ->
  jam_step kind (seq, s, out) x = Ok (seq', s', out') ->
  jam_inv I (den_now x.1) s' out'.
Proof.
  intros HI Hnow (Hi & Hs & Hle & Hlast). unfold jam_step. rewrite bind_Ok.
  intros ([[seq1 s1] sent] & Hc & H). apply Ok_inj in H. injection H as <- <- <-.
  apply jam_check_cases in Hc as (sm & _ & Hc). cbv zeta in Hc.
  assert (Forall (fun t => t <= den_now x.1) (out.*1)) as Hle'
    by (eapply Forall_impl; [exact Hle|]; cbn; lia).
  (* the state after looking at the block *)
  destruct (isDetectionBlocked (den_now x.1) (set_sampler sm s)) as [blocked s2] eqn:Hb.
  assert (jam_inv I (den_now x.1) s2 out /\
    (blocked = false -> Forall (fun t => t + I < den_now x.1) (out.*1))) as [Hinv Hfree].
  { unfold isDetectionBlocked in Hb. cbn [set_sampler mDetectionBlockingSince
      mDetectionBlockingInterval] in Hb.
    destruct (mDetectionBlockingSince s) as [since|] eqn:Hsince.
    - rewrite Hi in Hb. destruct (Z.ltb_spec (since + I) (den_now x.1)) as [Hlt|Hge].
      + injection Hb as <- <-. pose proof (sorted_last _ _ _ _ Hs Hlast HI Hlt) as Hf.
        split; [|done]. done.
      + injection Hb as <- <-. split; [|done]. repeat split; try done.
        cbn [set_sampler mDetectionBlockingSince]. by rewrite Hsince.
    - injection Hb as <- <-.
      assert (Forall (fun t => t + I < den_now x.1) (out.*1)) as Hf
        by (eapply Forall_impl; [exact Hlast|]; cbn; lia).
      split; [|done]. repeat split; try done.
      cbn [set_sampler mDetectionBlockingSince]. by rewrite Hsince. }
  destruct sent as [|[msg r] [|]]; [| |done].
  - destruct Hc as (_ & -> & _). cbn. by rewrite app_nil_r.
  - destruct Hc as (-> & _ & _ & _ & -> & _). specialize (Hfree eq_refl).
    destruct Hinv as (Hi2 & _). unfold jam_inv. rewrite fmap_app. cbn [fmap list_fmap fst].
    split; [exact Hi2|]. split; [by apply StronglySorted_snoc|].
    split; [apply Forall_app; split; [done|repeat constructor; done]|].
    cbn [blockDetection set_since mDetectionBlockingSince]. by rewrite last_snoc.
Qed.

(** Traffic jam detections are suspended for the blocking interval: over any
    sequence of checks at times that do not go back, with any messages received,
    any two consecutive detections of a use case are more than
    [mDetectionBlockingInterval] apart. *)
Theorem jam_detections_spaced kind seq s l seq' s' out :
  0 <= mDetectionBlockingInterval s -> mDetectionBlockingSince s = None ->
  StronglySorted (fun a b => a <= b) ((fun x => den_now x.1) <$> l) ->
  jam_run kind seq s l = Ok (seq', s', out) ->
  StronglySorted (fun a b => a + mDetectionBlockingInterval s < b) (out.*1).
Proof.
  intros HI Hnone Hsort Hr. set (I := mDetectionBlockingInterval s) in *.
  assert (forall l, StronglySorted (fun a b => a <= b) ((fun x => den_now x.1) <$> l) ->
    forall seq' s' out, jam_run kind seq s l = Ok (seq', s', out) ->
    forall now, Forall (fun t => t <= now) ((fun x => den_now x.1) <$> l) ->
    jam_inv I now s' out) as Hmain.
  2: { destruct l as [|x l] using rev_ind.
       - apply Ok_inj in Hr. injection Hr as <- <- <-. constructor.
       - refine (proj1 (proj2 (Hmain _ Hsort _ _ _ Hr (den_now x.1) _))).
         rewrite fmap_app in *. apply Forall_app. split; [|repeat constructor; done].
         apply Forall_forall. intros t Ht.
         exact (StronglySorted_app_1_elem_of _ _ _ _ _ Hsort Ht (list_elem_of_here _ _)). }
  clear l Hsort Hr seq' s' out. induction l as [|x l IH] using rev_ind.
  - intros _ seq' s' out H now _. apply Ok_inj in H. injection H as <- <- <-.
    unfold jam_inv. rewrite Hnone. repeat split; constructor.
  - intros Hsort seq' s' out Hr now Hle. unfold jam_run in Hr. rewrite res_fold_app in Hr.
    apply bind_Ok in Hr as ([[seq1 s1] out1] & H1 & Hr). cbn [res_fold] in Hr.
    apply bind_Ok in Hr as ([[seq2 s2] out2] & H2 & Hr). apply Ok_inj in Hr.
    injection Hr as <- <- <-. rewrite fmap_app in Hsort, Hle.
    assert (Forall (fun t => t <= den_now x.1) ((fun x => den_now x.1) <$> l)) as Hall.
    { apply Forall_forall. intros t Ht.
      exact (StronglySorted_app_1_elem_of _ _ _ _ _ Hsort Ht (list_elem_of_here _ _)). }
    pose proof (IH (StronglySorted_app_1_l _ _ _ Hsort) _ _ _ H1 _ Hall) as Hinv.
    apply (jam_step_inv _ _ _ _ _ _ _ _ _ _ HI (Z.le_refl _) Hinv) in H2.
    apply Forall_app in Hle as [_ Hle]. inversion_clear Hle as [|? ? Hx _].
    destruct H2 as (Hi & Hs & Hf & Hl). repeat split; try done.
    + eapply Forall_impl; [exact Hf|]. cbn. lia.
    + destruct (mDetectionBlockingSince s2); [done|]. eapply Forall_impl; [exact Hl|]. cbn. lia.
Qed.

(** ** Impact reduction *)
(** Exchange of impact reduction containers: a storyboard signal with cause
    "irc" makes the next check send exactly one request (further checks send
    nothing); another station receiving it answers with exactly one response; and
    no station answers a response, so the exchange ends. *)
Theorem irc_exchange e seq out pending' seq' e2 seq2 e3 seq3 :
  irc_check e seq true = Ok (seq', pending', out) ->
  exists request, out = [request] /\ pending' = false /\
    irc_check e seq' pending' = Ok (seq', false, []) /\
    forall seq2' answers, irc_indicate e2 seq2 request.1 = Ok (seq2', answers) ->
    exists response, answers = [response] /\
      irc_indicate e3 seq3 response.1 = Ok (seq3, []).
Proof.
  unfold irc_check. rewrite bind_Ok. intros ([seq1 d] & Ht & H). apply Ok_inj in H.
  injection H as <- <- <-. exists d. do 3 (split; [done|]).
  apply transmitMessage_numbered in Ht as (_ & _ & _ & (irc & Hirc & Hreq) & Hcause & _).
  intros seq2' answers Hi. apply irc_indicate_cases in Hi as [(_ & _ & Hno)|Hyes].
  - exfalso. by apply (Hno Hcause irc).
  - destruct Hyes as (r & irc' & -> & _ & _ & _ & Hr). exists r. split; [done|].
    apply transmitMessage_numbered in Hr as (_ & _ & _ & (irc2 & Hirc2 & Hresp) & Hc2 & _).
    unfold irc_indicate. by rewrite Hc2, Hirc2, Hresp.
Qed.

(** ** Ego deceleration *)
(** The assertion of [checkEgoDeceleration] ("only 10 s are buffered") holds
    whenever the buffer indeed spans less than ten seconds, for samples in strictly
    chronological order and a [SimTime::dbl] that maps positive times below ten
    seconds to numbers below ten and unequal zero; the check then decides exactly:
    current speed at most 30 km/h and, with respect to the newest earlier sample of
    at least 80 km/h, a deceleration stronger than 3.5 m/s^2. *)
Theorem ego_deceleration_decides samples :
  (forall t, 0 < t < SIMTIME_S 10 -> dltb (dbl t) (d_of_Z 10) = true /\ deqb (dbl t) d_zero = false) ->
  gaps 1 (items samples) -> range_duration (items samples) < SIMTIME_S 10 ->
  checkEgoDeceleration samples =
    Ok match items samples with
       | [] => false
       | l :: rest =>
           dleb (value l) (km_per_hour 30) &&
           match find_initial rest with
           | Some s0 => dltb (ddiv (dsub (value l) (value s0)) (duration dbl s0 l)) (d_lit (-35) 10)
           | None => false
           end
       end.
Proof.
  intros Hdbl Hg Hd. unfold checkEgoDeceleration.
  destruct (items samples) as [|l rest] eqn:E; [done|].
  destruct (dleb (value l) (km_per_hour 30)); [|done]. cbn [andb].
  destruct (find_initial rest) as [s0|] eqn:Hf; [|done].
  assert (s0 ∈ rest) as Hin.
  { unfold find_initial in Hf. apply find_some in Hf as [Hf _]. by apply list_elem_of_In. }
  inversion Hg as [|? ? Hg' Hall]; subst.
  pose proof (proj1 (Forall_forall _ _) Hall s0 Hin) as H1. cbn in H1.
  assert (timestamp l - timestamp s0 < SIMTIME_S 10) as H2.
  { destruct rest as [|y rest]; [by apply not_elem_of_nil in Hin|].
    unfold range_duration in Hd. rewrite last_cons_cons in Hd.
    destruct (last (y :: rest)) as [z|] eqn:Hz; [|by apply last_None in Hz].
    apply last_Some in Hz as [pre Hpre]. rewrite Hpre in *.
    apply elem_of_app in Hin as [Hin|Hin%list_elem_of_singleton]; [|subst; lia].
    pose proof (StronglySorted_app_1_elem_of _ _ _ _ _ Hg' Hin (list_elem_of_here _ _)). cbn in *. lia. }
  destruct (Hdbl (timestamp l - timestamp s0)) as [Hlt Hne]; [lia|].
  unfold duration at 1. rewrite Hlt. cbn [assert_ mbind res_bind].
  unfold differentiate, duration. by rewrite Hne.
Qed.
End Den.

(** ** Concrete runs *)
Definition ex_dbl (t : simtime) : double := ddiv (d_of_Z t) (d_of_Z (10 ^ 12)).
Definition ex_vdp_at (t : simtime) (speed : Z) : VehicleDataProvider :=
  mkVdp 7 (mkPosition d_zero d_zero) (mkGeoPosition d_zero d_zero)
    (d_of_Z speed) d_zero d_zero d_zero d_zero d_zero t [] [] d_zero.
Definition ex_den_env (s : Z) (speed : Z) : den_env :=
  mkDenEnv (SIMTIME_S s) (ex_vdp_at (SIMTIME_S s) speed) [].
Definition ex_distance_ref (_ : BasicContainer) (_ _ : double) : double := d_zero.

(** With the default parameters (10 s, 100 ms) but vehicle data updated once per
    second, the buffer spans more than 10 s: a vehicle that was at 23 m/s eleven
    seconds ago and now drives 8 m/s makes the assertion fail. *)
Definition ex_slow_updates : res (IntervalSampler double) :=
  s ← setDuration (SIMTIME_S 10) sampler_create;
  s ← setInterval (SIMTIME_MS 100) s;
  feed_all s ((fun k => (d_of_Z (if Nat.eqb k 0 then 23 else 8), SIMTIME_S (Z.of_nat k))) <$> seq 0 12).
Example ego_deceleration_assertion_fails :
  (s ← ex_slow_updates; checkEgoDeceleration ex_dbl (m_buffer s)) =
    Fail (AssertFailed "duration(*initialVelocity, velocitySamples.latest()) < instantDecelDuration").
Proof. vm_compute. reflexivity. Qed.

(** The blocking interval stays zero although the parameter asks for 60 s. *)
Definition ex_jam : TrafficJam :=
  match jam_initialize (mkJamParams true (SIMTIME_S 120) (SIMTIME_S 1) (SIMTIME_S 60)) jam_construct with
  | Ok s => s | Fail _ => jam_construct end.
Definition ex_jam_checks : list (den_env * list ((Z * Z) * Reception)) :=
  (fun k => (ex_den_env (Z.of_nat k) 5, [])) <$> seq 0 14.
Definition ex_jam_run := jam_run ex_quantity_cast ex_dbl ex_distance_ref degrees_to_radians ex_timer
  JamAhead 0 ex_jam ex_jam_checks.
Definition ex_jam_out : Z * TrafficJam * list (simtime * Denm) :=
  match ex_jam_run with Ok r => r | Fail _ => (0, ex_jam, []) end.
Lemma ex_jam_run_out : ex_jam_run = Ok (ex_jam_out.1.1, ex_jam_out.1.2, ex_jam_out.2).
Proof. vm_compute. reflexivity. Qed.

Example blocking_interval_not_read :
  mDetectionBlockingInterval ex_jam = 0 /\
  ex_jam_out.2.*1 = SIMTIME_S <$> [10; 11; 12; 13] /\
  mDetectionBlockingInterval (suspendable_initialize (SIMTIME_S 60) ex_jam) = SIMTIME_S 60.
Proof. vm_compute. repeat split. Qed.

Theorem jam_detections_spaced_witness :
  StronglySorted (fun a b => a + mDetectionBlockingInterval ex_jam < b) (ex_jam_out.2.*1).
Proof.
  refine (jam_detections_spaced ex_quantity_cast ex_dbl ex_distance_ref degrees_to_radians ex_timer
    JamAhead 0 ex_jam ex_jam_checks _ _ _ _ _ _ ex_jam_run_out).
  - vm_compute. congruence.
  - vm_compute. reflexivity.
  - vm_compute. repeat constructor; congruence.
Defined.

Definition ex_den_ops : list den_op :=
  [Storyboard "irc"; Trigger (ex_den_env 1 5); Trigger (ex_den_env 2 5); Storyboard "irc";
   Trigger (ex_den_env 3 5)].
Definition ex_den_run := den_run ex_quantity_cast ex_dbl ex_distance_ref degrees_to_radians ex_timer
  (mkDenService 0 [] [ImpactReductionContainerExchange false]) ex_den_ops.
Definition ex_den_out : DenService * list (Denm * DataRequestB) :=
  match ex_den_run with Ok r => r | Fail _ => (den_construct, []) end.
Lemma ex_den_run_out : ex_den_run = Ok (ex_den_out.1, ex_den_out.2).
Proof. vm_compute. reflexivity. Qed.

Theorem den_sequence_numbers_witness :
  (fun p => (actionID (management p.1)).2) <$> ex_den_out.2 = [1; 2] /\
  Forall (fun p => filled p.2) ex_den_out.2.
Proof.
  destruct (den_sequence_numbers _ _ _ _ _ _ _ _ _ ex_den_run_out) as (Hs & _ & Hf).
  split; [|exact Hf]. refine (eq_trans Hs _). vm_compute. reflexivity.
Defined.

Definition ex_irc_out : Z * bool * list (Denm * DataRequestB) :=
  match irc_check ex_quantity_cast ex_timer (ex_den_env 1 5) 4 true with
  | Ok r => r | Fail _ => (0, true, []) end.
Lemma ex_irc_check :
  irc_check ex_quantity_cast ex_timer (ex_den_env 1 5) 4 true
    = Ok (ex_irc_out.1.1, ex_irc_out.1.2, ex_irc_out.2).
Proof. vm_compute. reflexivity. Qed.

Theorem irc_exchange_witness :
  exists request, ex_irc_out.2 = [request] /\
    irc_check ex_quantity_cast ex_timer (ex_den_env 1 5) ex_irc_out.1.1 ex_irc_out.1.2
      = Ok (ex_irc_out.1.1, false, []).
Proof.
  destruct (irc_exchange _ _ _ _ _ _ _ (ex_den_env 1 5) 9 (ex_den_env 1 5) 4 ex_irc_check)
    as (request & Ho & _ & Hc & _).
  exists request. split; [exact Ho|exact Hc].
Defined.

(** A [SimTime::dbl] with a resolution of 0.1 s, for evaluation. *)
Definition ex_dbl_coarse (t : simtime) : double := d_lit (Z.max 1 (t / 10 ^ 11)) 10.
Lemma ex_dbl_coarse_spec t :
  0 < t < SIMTIME_S 10 ->
  dltb (ex_dbl_coarse t) (d_of_Z 10) = true /\ deqb (ex_dbl_coarse t) d_zero = false.
Proof.
  intros Ht. unfold ex_dbl_coarse, SIMTIME_S in *.
  assert (1 <= Z.max 1 (t / 10 ^ 11) <= 99) as Hn.
  { split; [lia|]. assert (t / 10 ^ 11 < 100) by (apply Z.div_lt_upper_bound; lia). lia. }
  assert (forallb (fun n => dltb (d_lit (Z.of_nat n) 10) (d_of_Z 10) &&
    negb (deqb (d_lit (Z.of_nat n) 10) d_zero)) (seq 1 99) = true) as Hall
    by (vm_compute; reflexivity).
  rewrite forallb_forall in Hall. specialize (Hall (Z.to_nat (Z.max 1 (t / 10 ^ 11)))).
  rewrite Z2Nat.id in Hall by lia. apply andb_prop in Hall as [H1 H2].
  - split; [exact H1|]. by apply negb_true_iff in H2.
  - apply in_seq. lia.
Qed.

Definition ex_samples : SampleBuffer double :=
  mkBuffer 100 [mkSample (d_of_Z 5) (SIMTIME_S 5); mkSample (d_of_Z 20) (SIMTIME_S 3);
                mkSample (d_of_Z 25) (SIMTIME_S 1)].
Theorem ego_deceleration_decides_witness :
  checkEgoDeceleration ex_dbl_coarse ex_samples = Ok true.
Proof.
  rewrite (ego_deceleration_decides ex_dbl_coarse ex_samples ex_dbl_coarse_spec).
  - vm_compute. reflexivity.
  - unfold gaps, ex_samples. cbn [items]. repeat constructor; cbn [timestamp]; unfold SIMTIME_S; lia.
  - vm_compute. reflexivity.
Defined.
