(* ===== verification/StoryCondition.v ===== *)
(** * Storyboard conditions

    [src/src/artery/storyboard/*Condition*.cc]: what a story tests for a vehicle.
    Vehicles are identified by their address in the storyboard's [m_vehicles]
    (condition results are sets of pointers).  [LimitCondition] objects, which
    scripts may share between stories, live in a store.  Drawing is not modelled. *)

From S2P Require Import Prelude OMap Float64 VehicleData.

Abbreviation vaddr := nat (only parsing).
Abbreviation story_id := nat (only parsing).

(** ** Condition results *)
Inductive ConditionResult :=
| RBool (b : bool)
| RSet (s : list vaddr).  (** [std::set<const Vehicle*>] *)

Definition is_true (r : ConditionResult) : bool :=
  match r with RBool b => b | RSet s => match s with [] => false | _ => true end end.

Definition set_intersection (l r : list vaddr) : list vaddr := filter (fun x => x ∈ r) l.
Definition set_union (l r : list vaddr) : list vaddr := foldl (fun s x => os_insert x s) l r.

Definition AndVisitor (lhs rhs : ConditionResult) : ConditionResult :=
  match lhs, rhs with
  | RBool l, RBool r => RBool (l && r)
  | RSet l, RBool r => if negb r then RBool false else RSet l
  | RBool l, RSet r => if negb l then RBool false else RSet r
  | RSet l, RSet r => RSet (set_intersection l r)
  end.

Definition OrVisitor (lhs rhs : ConditionResult) : ConditionResult :=
  match lhs, rhs with
  | RBool l, RBool r => RBool (l || r)
  | RSet l, RBool r => match l with [] => RBool r | _ => RSet l end
  | RBool l, RSet r => match r with [] => RBool l | _ => RSet r end
  | RSet l, RSet r => RSet (set_union l r)
  end.

(** ** Vehicles *)
(** What conditions see of a vehicle: its id, its data provider (speed, heading,
    curvature, yaw rate) and its controller (speed, position, dimensions). *)
Record VehicleView := mkView {
  veh_id : string;
  vdp_speed : double;
  vdp_heading : double;
  vdp_curvature : double;
  vdp_yaw_rate : double;
  ctl_speed : double;
  ctl_position : Position;
  ctl_length : double;
  ctl_width : double
}.

Abbreviation views := (list (vaddr * VehicleView)) (only parsing).
(** [m_vehicles]: vehicle ids in order, with addresses. *)
Abbreviation vehicle_map := (list (string * vaddr)) (only parsing).

(** ** Time to collision *)
Section Ttc.
(** [std::sin], [std::cos], [boost::geometry::distance] and
    [boost::geometry::intersects] of the polygons with the given corners. *)
Variable sin cos : double -> double.
Variable distance : Position -> Position -> double.
Variable intersects : list Position -> list Position -> bool.

Definition m_pi_2 : double := ddiv d_pi (d_of_Z 2).

Definition getShape (pos : Position) (angle length width : double) : list Position :=
  let halfLength := dmul length (d_lit 1 2) in
  let halfWidth := dmul width (d_lit 1 2) in
  let heading := dsub m_pi_2 angle in
  let sinH := sin heading in
  let cosH := cos heading in
  let shift x y p := mkPosition (dadd x (pos_x p)) (dadd y (pos_y p)) in
  let fm := shift (dmul cosH halfLength) (dmul (dopp sinH) halfLength) pos in
  let fl := shift (dmul (dopp sinH) halfWidth) (dmul (dopp cosH) halfWidth) fm in
  let fr := shift (dmul sinH halfWidth) (dmul cosH halfWidth) fm in
  let rm := shift (dmul (dopp cosH) halfLength) (dmul sinH halfLength) pos in
  let rr := shift (dmul sinH halfWidth) (dmul cosH halfWidth) rm in
  let rl := shift (dmul (dopp sinH) halfWidth) (dmul (dopp cosH) halfWidth) rm in
  [fr; rr; rl; fl].

(** The loop for a turning vehicle; [carHeading] is carried along. *)
Fixpoint turning_shapes (n : nat) (carHeading angleG radius : double) (curveCenter : Position)
    (length width : double) : list (list Position) :=
  match n with
  | O => []
  | S n' =>
      let angleD := dsub carHeading angleG in
      let nextPosition := mkPosition (dadd (dmul radius (cos angleD)) (pos_x curveCenter))
                            (dadd (dmul radius (sin angleD)) (pos_y curveCenter)) in
      let carHeading := dsub carHeading angleG in
      getShape nextPosition carHeading length width ::
        turning_shapes n' carHeading angleG radius curveCenter length width
  end.

Definition calculateRoute (car : VehicleView) (steps : Z) (dt : double) : list (list Position) :=
  let width := ctl_width car in
  let length := ctl_length car in
  let carHeading := vdp_heading car in
  let carPosition := ctl_position car in
  let carCenter := mkPosition
    (dadd (ddiv (dmul (dopp (cos (dsub m_pi_2 carHeading))) length) (d_of_Z 2)) (pos_x carPosition))
    (dadd (ddiv (dmul (sin (dsub m_pi_2 carHeading)) length) (d_of_Z 2)) (pos_y carPosition)) in
  if dltb (dmul d_zero (d_of_Z 1)) (dabs (vdp_curvature car)) then
    let radius := ddiv (d_of_Z 1) (vdp_curvature car) in
    let curveCenter := mkPosition
      (dadd (dmul (dopp radius) (cos carHeading)) (pos_x carCenter))
      (dadd (dmul (dopp radius) (sin carHeading)) (pos_y carCenter)) in
    let angleG := dmul (vdp_yaw_rate car) dt in
    turning_shapes (Z.to_nat steps) carHeading angleG radius curveCenter length width
  else
    let heading := dsub m_pi_2 (vdp_heading car) in
    let sinH := sin heading in
    let cosH := cos heading in
    (fun i =>
       let distance := dmul (vdp_speed car) dt in
       let m := mkPosition
         (dadd (dmul (dmul cosH (d_of_Z i)) distance) (pos_x carCenter))
         (dadd (dmul (dmul (dopp sinH) (d_of_Z i)) distance) (pos_y carCenter)) in
       getShape m (vdp_heading car) length width) <$> seqZ 1 steps.

Definition calculateTimeDelta (car1 car2 : VehicleView) : double :=
  let dT1 := ddiv (ctl_length car1) (vdp_speed car1) in
  let dT2 := ddiv (ctl_length car2) (vdp_speed car2) in
  d_min dT1 dT2.

Definition calculateIntersect (shape1 shape2 : list Position) : bool := intersects shape1 shape2.

(** [boost::range::equal] with a predicate. *)
Fixpoint range_equal {A} (p : A -> A -> bool) (l1 l2 : list A) : bool :=
  match l1, l2 with
  | [], [] => true
  | x :: l1', y :: l2' => p x y && range_equal p l1' l2'
  | _, _ => false
  end.

(** [int steps = ceil(..)]: undefined when the value is not an [int]. *)
Definition int_of_double (x : double) : res Z :=
  z ← d_to_long x;
  if (- 2 ^ 31 <=? z) && (z <? 2 ^ 31) then Ok z
  else Fail (Undefined "double to int: out of range").

Definition intersect (m_ttc m_ttcDistanceThreshold : double) (car1 car2 : VehicleView) : res bool :=
  if dleb (distance (ctl_position car1) (ctl_position car2)) m_ttcDistanceThreshold then
    let dt := calculateTimeDelta car1 car2 in
    steps ← int_of_double (d_ceil (ddiv m_ttc dt));
    let mEgoRoute := calculateRoute car1 steps dt in
    let other := calculateRoute car2 steps dt in
    Ok (negb (range_equal (fun s1 s2 => negb (calculateIntersect s1 s2)) mEgoRoute other))
  else Ok false.
End Ttc.

(** ** Conditions *)
Inductive Condition :=
| AndCondition (left right : Condition)
| OrCondition (left right : Condition)
| CarSetCondition (m_cars : list string)
| LimitCondition (object : nat) (m_limit : Z)
| PolygonCondition (m_vertices : list Position)
| SpeedConditionLess (m_speed : double)
| SpeedConditionGreater (m_speed : double)
| SpeedDifferenceConditionFaster (mSpeedDifference : double)
| SpeedDifferenceConditionSlower (mSpeedDifference : double)
| TimeCondition (m_begin m_end : simtime)
| TtcCondition (m_ttc m_ttcDistanceThreshold : double).

(** [m_count] of every [LimitCondition] object. *)
Abbreviation limit_store := (list (nat * list vaddr)) (only parsing).

Section Conditions.
(** [boost::geometry::within] and the parameters of the previous section. *)
Variable within : Position -> list Position -> bool.
Variable sin cos : double -> double.
Variable distance : Position -> Position -> double.
Variable intersects : list Position -> list Position -> bool.
Variable now : simtime.
Variable w : views.
Variable vehicles : vehicle_map.

Definition lookup_vehicle (car : vaddr) : res VehicleView :=
  match om_find car w with
  | Some v => Ok v
  | None => Fail (Undefined "dangling vehicle pointer")
  end.

(** [PolygonCondition]'s constructor ([front] and [back] of an empty vector are
    undefined); [boost::geometry::correct] closes and orients the polygon. *)
Definition PolygonCondition_create (correct : list Position -> list Position)
    (vertices : list Position) : res Condition :=
  match vertices, last vertices with
  | first :: _, Some l =>
      if deqb (pos_x first) (pos_x l) && deqb (pos_y first) (pos_y l) then
        Fail (RuntimeError "PolygonCondition vector must not contain the first point as end point")
      else if (length vertices <=? 3)%nat then
        Fail (RuntimeError "PolygonCondition vector must contain at least 3 points")
      else Ok (PolygonCondition (correct vertices))
  | _, _ => Fail (Undefined "front of an empty vector")
  end.

(** The loop over all vehicles of the difference and time-to-collision conditions;
    the result is a set of pointers. *)
Fixpoint affected_by (test : string * vaddr -> VehicleView -> res bool) (l : vehicle_map) :
    res (list vaddr) :=
  match l with
  | [] => Ok []
  | (id, a) :: l' =>
      v ← lookup_vehicle a;
      hit ← test (id, a) v;
      rest ← affected_by test l';
      Ok (if hit : bool then os_insert a rest else rest)
  end.

Definition CarSetCondition_test (m_cars : list string) (car : vaddr) : res ConditionResult :=
  v ← lookup_vehicle car; Ok (RBool (bool_decide (veh_id v ∈ m_cars))).

Definition LimitCondition_test (object : nat) (m_limit : Z) (car : vaddr) (st : limit_store) :
    limit_store * ConditionResult :=
  let m_count := default [] (om_find object st) in
  if bool_decide (car ∈ m_count) then (st, RBool true)
  else if Z.of_nat (length m_count) <? m_limit
  then (om_set object (os_insert car m_count) st, RBool true)
  else (st, RBool false).

Definition PolygonCondition_test (m_vertices : list Position) (car : vaddr) : res ConditionResult :=
  v ← lookup_vehicle car; Ok (RBool (within (ctl_position v) m_vertices)).

Definition SpeedCondition_test (m_comp : double -> double -> bool) (m_speed : double) (car : vaddr) :
    res ConditionResult :=
  v ← lookup_vehicle car; Ok (RBool (m_comp (vdp_speed v) m_speed)).

Definition SpeedDifferenceConditionFaster_test (mSpeedDifference : double) (car : vaddr) :
    res ConditionResult :=
  v ← lookup_vehicle car;
  affected ← affected_by (fun _ other =>
      Ok (dltb mSpeedDifference (dsub (ctl_speed v) (ctl_speed other)))) vehicles;
  Ok (RSet affected).

Definition SpeedDifferenceConditionSlower_test (mSpeedDifference : double) (car : vaddr) :
    res ConditionResult :=
  v ← lookup_vehicle car;
  affected ← affected_by (fun _ other =>
      Ok (dltb mSpeedDifference (dsub (ctl_speed other) (ctl_speed v)))) vehicles;
  Ok (RSet affected).

Definition TimeCondition_test (m_begin m_end : simtime) : ConditionResult :=
  RBool ((m_begin <=? now) && (now <=? m_end)).

Definition TtcCondition_test (m_ttc m_ttcDistanceThreshold : double) (car : vaddr) :
    res ConditionResult :=
  v ← lookup_vehicle car;
  affected ← affected_by (fun testCar other =>
      if negb (String.eqb testCar.1 (veh_id v))
      then intersect sin cos distance intersects m_ttc m_ttcDistanceThreshold v other
      else Ok false) vehicles;
  Ok (RSet affected).

Definition stateless (r : res ConditionResult) (st : limit_store) :
    res (limit_store * ConditionResult) :=
  (fun x => (st, x)) <$> r.

Fixpoint testCondition (c : Condition) (car : vaddr) (st : limit_store) :
    res (limit_store * ConditionResult) :=
  match c with
  | AndCondition m_left m_right =>
      x ← testCondition m_left car st;
      let '(st, lhs) := x : limit_store * ConditionResult in
      if is_true lhs then
        y ← testCondition m_right car st;
        let '(st, rhs) := y : limit_store * ConditionResult in
        Ok (st, AndVisitor lhs rhs)
      else Ok (st, lhs)
  | OrCondition m_left m_right =>
      x ← testCondition m_left car st;
      let '(st, lhs) := x : limit_store * ConditionResult in
      if negb (is_true lhs) then
        y ← testCondition m_right car st;
        let '(st, rhs) := y : limit_store * ConditionResult in
        Ok (st, OrVisitor lhs rhs)
      else Ok (st, lhs)
  | CarSetCondition cars => stateless (CarSetCondition_test cars car) st
  | LimitCondition o limit => Ok (LimitCondition_test o limit car st)
  | PolygonCondition vertices => stateless (PolygonCondition_test vertices car) st
  | SpeedConditionLess s => stateless (SpeedCondition_test dltb s car) st
  | SpeedConditionGreater s => stateless (SpeedCondition_test (fun x y => dltb y x) s car) st
  | SpeedDifferenceConditionFaster d => stateless (SpeedDifferenceConditionFaster_test d car) st
  | SpeedDifferenceConditionSlower d => stateless (SpeedDifferenceConditionSlower_test d car) st
  | TimeCondition b e => Ok (st, TimeCondition_test b e)
  | TtcCondition ttc threshold => stateless (TtcCondition_test ttc threshold car) st
  end.

(** ** What a test depends on *)
Fixpoint limit_free (c : Condition) : Prop :=
  match c with
  | AndCondition l r | OrCondition l r => limit_free l /\ limit_free r
  | LimitCondition _ _ => False
  | _ => True
  end.

Lemma test_limit_free c car st st' r :
  limit_free c -> testCondition c car st = Ok (st', r) ->
  forall st2, testCondition c car st2 = Ok (st2, r).
Proof.
  revert st st' r. induction c as [l IHl r IHr|l IHl r IHr| | | | | | | | |];
    intros st st' res; cbn [limit_free testCondition]; try done.
  3-10: intros _.
  9: { intros H st2. apply Ok_inj in H. by injection H as _ <-. }
  3-9: unfold stateless; rewrite fmap_Ok; intros (x & -> & [= _ ->]) st2; done.
  all: intros [Hl Hr]; rewrite bind_Ok; intros ([s1 lhs] & Ha & H) st2;
    rewrite (IHl _ _ _ Hl Ha); cbn; cbn in H.
  - destruct (is_true lhs); [|by apply Ok_inj in H; injection H as _ <-].
    apply bind_Ok in H as ([s2 rhs] & Hb & H). apply Ok_inj in H. injection H as _ <-.
    by rewrite (IHr _ _ _ Hr Hb).
  - destruct (negb _); [|by apply Ok_inj in H; injection H as _ <-].
    apply bind_Ok in H as ([s2 rhs] & Hb & H). apply Ok_inj in H. injection H as _ <-.
    by rewrite (IHr _ _ _ Hr Hb).
Qed.

(** ** Conjunction and disjunction *)
Lemma OrVisitor_true lhs rhs : is_true lhs = false -> is_true (OrVisitor lhs rhs) = is_true rhs.
Proof.
  destruct lhs as [[]|[]], rhs as [[]|r]; cbn; try done.
  - by destruct r.
  - intros _. unfold set_union. destruct r as [|x r]; [done|]. cbn [foldl].
    assert (forall (l s : list vaddr), s <> [] -> foldl (fun s x => os_insert x s) s l <> []) as Hf.
    { induction l as [|y l IH]; intros s Hs; [done|]. cbn. apply IH.
      destruct s as [|z s]; [done|]. cbn. repeat case_match; done. }
    destruct (foldl _ _ r) eqn:E; [|done]. exfalso. by apply (Hf r (os_insert x [])) in E.
Qed.

(** Vehicles a result is about, if it is about a set of them. *)
Definition compatible (lhs rhs : ConditionResult) : Prop :=
  match lhs, rhs with RSet l, RSet r => exists x, x ∈ l /\ x ∈ r | _, _ => True end.

Lemma AndVisitor_true lhs rhs :
  is_true (AndVisitor lhs rhs) = true <->
  is_true lhs = true /\ is_true rhs = true /\ compatible lhs rhs.
Proof.
  destruct lhs as [[]|l], rhs as [[]|r]; cbn; try (intuition (done || congruence)).
  unfold set_intersection. split.
    + destruct (filter _ l) as [|x m] eqn:E; [done|]. intros _.
      assert (x ∈ filter (fun y => y ∈ r) l) as Hx by (rewrite E; left).
      apply list_elem_of_filter in Hx as [Hr Hl].
      split; [by destruct l; [apply not_elem_of_nil in Hl|]|].
      split; [by destruct r; [apply not_elem_of_nil in Hr|]|eauto].
    + intros (_ & _ & x & Hl & Hr).
      assert (x ∈ filter (fun y => y ∈ r) l) as Hx by (apply list_elem_of_filter; done).
      by destruct (filter _ l); [apply not_elem_of_nil in Hx|].
Qed.

(** ** Sharing a limited condition *)
(** Tests of one condition for one vehicle after the other, with the results. *)
Fixpoint test_each (c : Condition) (cars : list vaddr) (st : limit_store) :
    res (limit_store * list bool) :=
  match cars with
  | [] => Ok (st, [])
  | car :: cars' =>
      x ← testCondition c car st;
      let '(st, r) := x : limit_store * ConditionResult in
      y ← test_each c cars' st;
      let '(st, rs) := y : limit_store * list bool in
      Ok (st, is_true r :: rs)
  end.

(** Conjunctions and disjunctions.  An [OrCondition] holds exactly when its left
    operand holds or, evaluated afterwards, its right operand does; an
    [AndCondition] holds exactly when both operands hold and, if both name sets of
    vehicles, those sets have a vehicle in common.  In both cases the right operand
    is not evaluated (it cannot use up a [LimitCondition]) when the left decides. *)
Theorem composite_conditions l r car st st1 lhs :
  testCondition l car st = Ok (st1, lhs) ->
  (is_true lhs = true -> testCondition (OrCondition l r) car st = Ok (st1, lhs)) /\
  (is_true lhs = false -> testCondition (AndCondition l r) car st = Ok (st1, lhs)) /\
  (forall st2 rhs, testCondition r car st1 = Ok (st2, rhs) ->
     (is_true lhs = false -> exists res,
        testCondition (OrCondition l r) car st = Ok (st2, res) /\ is_true res = is_true rhs) /\
     (is_true lhs = true -> exists res,
        testCondition (AndCondition l r) car st = Ok (st2, res) /\
        (is_true res = true <-> is_true rhs = true /\ compatible lhs rhs))).
Proof.
  intros Hl. cbn [testCondition]. rewrite Hl. cbn.
  split; [by intros ->|]. split; [by intros ->|]. intros st2 rhs Hr.
  split; intros Ht; rewrite Ht; cbn; rewrite Hr; cbn.
  - eexists. split; [done|]. by apply OrVisitor_true.
  - eexists. split; [done|]. rewrite AndVisitor_true. naive_solver.
Qed.

(** The members of [cars] that are not known, in order of first appearance. *)
Fixpoint newcomers (known cars : list vaddr) : list vaddr :=
  match cars with
  | [] => []
  | c :: cars' =>
      if decide (c ∈ known) then newcomers known cars' else c :: newcomers (c :: known) cars'
  end.

Lemma newcomers_ext known known' cars :
  (forall x, x ∈ known <-> x ∈ known') -> newcomers known cars = newcomers known' cars.
Proof.
  revert known known'. induction cars as [|c cars IH]; intros k k' Hk; cbn; [done|].
  rewrite (decide_ext _ (c ∈ k')) by apply Hk. case_decide; [by apply IH|]. f_equal. apply IH.
  intros x. rewrite !elem_of_cons, Hk. done.
Qed.

Lemma length_os_insert_new (k : vaddr) s : k ∉ s -> length (os_insert k s) = S (length s).
Proof.
  induction s as [|x s IH]; [done|]. intros Hn. cbn. rewrite decide_False by set_solver.
  case_match; [done|]. cbn. rewrite IH; [done|set_solver].
Qed.

(** One test of a limited condition. *)
Lemma limit_step o limit car st :
  let m_count := default [] (om_find o st) in
  exists st' b, testCondition (LimitCondition o limit) car st = Ok (st', RBool b) /\
    let m_count' := default [] (om_find o st') in
    (if b then car ∈ m_count' /\
       m_count' = (if decide (car ∈ m_count) then m_count else os_insert car m_count)
     else m_count' = m_count) /\
    (car ∉ m_count -> b = (Z.of_nat (length m_count) <? limit)) /\
    (car ∈ m_count -> b = true) /\
    (forall o', o' <> o -> om_find o' st' = om_find o' st).
Proof.
  cbn. unfold LimitCondition_test. case_bool_decide as Hin.
  - exists st, true. rewrite decide_True by done. repeat split; done.
  - destruct (Z.ltb_spec (Z.of_nat (length (default [] (om_find o st)))) limit) as [Hl|Hl].
    + eexists _, true. split; [done|]. rewrite om_find_set_eq, decide_False by done. cbn.
      split; [split; [apply elem_of_os_insert; by left|done]|].
      split; [done|]. split; [done|]. intros o' Ho. by apply om_find_set_ne.
    + exists st, false. repeat split; done.
Qed.

Lemma elem_of_foldl_insert (l s : list vaddr) x :
  x ∈ foldl (fun s c => os_insert c s) s l <-> x ∈ s \/ x ∈ l.
Proof.
  revert s. induction l as [|c l IH]; intros s; cbn; [set_solver|].
  rewrite IH, elem_of_os_insert. set_solver.
Qed.

(** A limited condition holds for at most [limit] vehicles ever: those it
    holds for already and the first newcomers among the vehicles it is tested for,
    up to the limit.  Once it holds for a vehicle it keeps holding, and once it has
    refused one it keeps refusing it.  Testing it touches no other limited
    condition. *)
Theorem limit_first_come o limit cars st :
  let m_count := default [] (om_find o st) in
  os_wf m_count -> Z.of_nat (length m_count) <= limit ->
  exists st' results, test_each (LimitCondition o limit) cars st = Ok (st', results) /\
    let m_count' := default [] (om_find o st') in
    m_count' = foldl (fun s c => os_insert c s) m_count
                 (take (Z.to_nat limit - length m_count) (newcomers m_count cars)) /\
    os_wf m_count' /\ Z.of_nat (length m_count') <= limit /\
    results = (fun car => bool_decide (car ∈ m_count')) <$> cars /\
    (forall o', o' <> o -> om_find o' st' = om_find o' st).
Proof.
  cbn. revert st. induction cars as [|car cars IH]; intros st Hwf Hlen.
  - exists st, []. cbn. by destruct (_ - _)%nat.
  - destruct (limit_step o limit car st) as (st1 & b & Ht & Hb & Hnew & Hold & Hother).
    set (m := default [] (om_find o st)) in *. set (m1 := default [] (om_find o st1)) in *.
    assert (os_wf m1 /\ Z.of_nat (length m1) <= limit) as [Hwf1 Hlen1].
    { destruct b; [destruct Hb as [_ ->]|by rewrite Hb]. case_decide as Hm; [done|].
      split; [by apply os_wf_insert|]. rewrite length_os_insert_new by done.
      pose proof (Hnew Hm). destruct (Z.ltb_spec (Z.of_nat (length m)) limit); [lia|done]. }
    destruct (IH st1 Hwf1 Hlen1) as (st' & rs & Hts & Hfin & Hwf' & Hle & Hrs & Hother').
    fold m1 in Hfin. set (m' := default [] (om_find o st')) in *.
    exists st', (b :: rs). cbn [test_each]. rewrite Ht. cbn -[testCondition]. rewrite Hts. cbn.
    fold m'. split; [done|]. split; [|split; [done|split; [done|split]]].
    + rewrite Hfin. case_decide as Hm.
      { rewrite (Hold Hm) in Hb. by destruct Hb as [_ ->]. }
      rewrite (Hnew Hm) in Hb. destruct (Z.ltb_spec (Z.of_nat (length m)) limit) as [Hl|Hl].
      * destruct Hb as [_ Hb]. rewrite Hb.
        rewrite length_os_insert_new by done.
        replace (Z.to_nat limit - length m)%nat with (S (Z.to_nat limit - S (length m)))%nat by lia.
        cbn. rewrite (newcomers_ext (os_insert car m) (car :: m)); [done|].
        intros x. rewrite elem_of_os_insert, elem_of_cons. done.
      * rewrite Hb. replace (Z.to_nat limit - length m)%nat with O by lia. done.
    + rewrite Hrs. cbn. f_equal. destruct b.
      * destruct Hb as [Hb _]. symmetry. apply bool_decide_eq_true_2.
        rewrite Hfin. apply elem_of_foldl_insert. by left.
      * symmetry. apply bool_decide_eq_false_2. rewrite Hfin, Hb.
        assert (car ∉ m) as Hm by (intros Hm; by apply Hold in Hm).
        pose proof (Hnew Hm). destruct (Z.ltb_spec (Z.of_nat (length m)) limit); [done|].
        replace (Z.to_nat limit - length m)%nat with O by lia. done.
    + intros o' Ho. rewrite Hother' by done. by apply Hother.
Qed.
End Conditions.

(** ** Witnesses *)
Definition ex_within (_ : Position) (_ : list Position) := false.
Definition ex_trig (x : double) := x.
Definition ex_distance (_ _ : Position) := d_zero.
Definition ex_meet (_ _ : list Position) := true.
Definition ex_view (id : string) (v : Z) :=
  mkView id (d_of_Z v) d_zero d_zero d_zero (d_of_Z v) (mkPosition d_zero d_zero) (d_of_Z 4) (d_of_Z 2).
Definition ex_views := [(1%nat, ex_view "a" 10); (2%nat, ex_view "b" 20); (3%nat, ex_view "c" 5)].
Definition ex_vehicles := [("a"%string, 1%nat); ("b"%string, 2%nat); ("c"%string, 3%nat)].

(** Cars slower than car 1 by 3, and cars faster by 3: no car is both. *)
Lemma composite_conditions_witness :
  exists lhs, is_true lhs = true /\
    testCondition ex_within ex_trig ex_trig ex_distance ex_meet 0 ex_views ex_vehicles
      (SpeedDifferenceConditionFaster (d_of_Z 3)) 1 [] = Ok ([], lhs) /\
    exists res, testCondition ex_within ex_trig ex_trig ex_distance ex_meet 0 ex_views ex_vehicles
      (AndCondition (SpeedDifferenceConditionFaster (d_of_Z 3))
         (SpeedDifferenceConditionSlower (d_of_Z 3))) 1 [] = Ok ([], res) /\
      (is_true res = true <-> is_true (RSet [2%nat]) = true /\ compatible lhs (RSet [2%nat])).
Proof.
  exists (RSet [3%nat]). split; [reflexivity|]. split; [vm_compute; reflexivity|].
  apply (composite_conditions ex_within ex_trig ex_trig ex_distance ex_meet 0 ex_views ex_vehicles
           (SpeedDifferenceConditionFaster (d_of_Z 3)) (SpeedDifferenceConditionSlower (d_of_Z 3))
           1 [] [] (RSet [3%nat])); vm_compute; reflexivity.
Defined.

Lemma limit_first_come_witness :
  exists st' results,
    test_each ex_within ex_trig ex_trig ex_distance ex_meet 0 ex_views ex_vehicles (LimitCondition 7 2) [3; 1; 3; 2; 1]%nat []
      = Ok (st', results) /\
    results = [true; true; true; false; true].
Proof.
  destruct (limit_first_come ex_within ex_trig ex_trig ex_distance ex_meet 0 ex_views ex_vehicles 7 2 [3; 1; 3; 2; 1]%nat [])
    as (st' & results & Hrun & Hfin & _ & _ & Hres & _); [constructor|cbn; lia|].
  exists st', results. split; [exact Hrun|]. rewrite Hres, Hfin. vm_compute. reflexivity.
Defined.

(** Two cars 10 m/s apart on the same spot: the polygons are asked. *)
Example ttc_example :
  intersect ex_trig ex_trig ex_distance ex_meet (d_of_Z 2) (d_of_Z 100) (ex_view "a" 10) (ex_view "b" 20) = Ok true.
Proof. vm_compute. reflexivity. Qed.

(** The constructor refuses triangles, although its message asks for at least
    three points. *)
Example triangle_refused :
  PolygonCondition_create id [mkPosition d_zero d_zero; mkPosition (d_of_Z 1) d_zero;
                              mkPosition d_zero (d_of_Z 1)]
    = Fail (RuntimeError "PolygonCondition vector must contain at least 3 points").
Proof. vm_compute. reflexivity. Qed.
