(* ===== verification/Storyboard.v ===== *)
(** * Storyboard: effects and their application to vehicles

    [src/src/artery/storyboard/]: a story applies its effects to every vehicle for
    which its condition holds and withdraws them when it no longer does.  Conditions,
    effects and the table of affected cars hold pointers to vehicles; effects have
    an identity of their own.  Logging is not modelled: what lines at debug level would
    evaluate (such as another read of the maximum speed) is not evaluated. *)

From S2P Require Import Prelude OMap Float64 VehicleData StoryCondition.

(** ** Vehicles *)
(** What conditions see of a vehicle, and its maximum speed as the traffic
    simulator has it and as the controller's cache has it, if it has been read
    since the last reset of the cache. *)
Record VehicleState := mkVehicle {
  veh_view : VehicleView;
  sumo_max_speed : double;
  cached_max_speed : option double
}.

Abbreviation world := (list (vaddr * VehicleState)) (only parsing).

(** ** Effects *)
Inductive effect_kind :=
| SpeedEffect (m_speed m_current : double)
| StopEffect
| SignalEffect (mTriggerCause : string) (mResult : ConditionResult).

(** [ef_id] is the effect object's identity. *)
Record Effect := mkEffect { ef_id : nat; ef_story : story_id; ef_car : vaddr; ef_kind : effect_kind }.

(** Commands to the traffic simulator and emitted signals. *)
Inductive command :=
| SetMaxSpeed (car : vaddr) (v : double)
| SetSpeed (car : vaddr) (v : double)
| EmitSignal (car : vaddr) (story : story_id) (cause : string) (others : list vaddr).

(** World and log of the commands given. *)
Abbreviation stage := (list (vaddr * VehicleState) * list command)%type (only parsing).

Definition on_vehicle (car : vaddr) (f : VehicleState -> VehicleState) (c : command) (s : stage) :
    res stage :=
  match om_find car s.1 with
  | Some v => Ok (om_set car (f v) s.1, s.2 ++ [c])
  | None => Fail (Undefined "dangling vehicle pointer")
  end.

(** [VehicleController::setMaxSpeed] goes to the simulator and does not touch the
    cache; [getMaxSpeed] reads through the cache.  [setSpeed] asks for a speed in the
    simulator's next step, whereas conditions read the results of its last one: the
    view stays. *)
Definition setMaxSpeed (car : vaddr) (v : double) (s : stage) : res stage :=
  on_vehicle car (fun x => mkVehicle (veh_view x) v (cached_max_speed x)) (SetMaxSpeed car v) s.
Definition setSpeed (car : vaddr) (v : double) (s : stage) : res stage :=
  on_vehicle car (fun x => x) (SetSpeed car v) s.
Definition getMaxSpeed (car : vaddr) (s : stage) : res (double * stage) :=
  match om_find car s.1 with
  | Some x =>
      let v := default (sumo_max_speed x) (cached_max_speed x) in
      Ok (v, (om_set car (mkVehicle (veh_view x) (sumo_max_speed x) (Some v)) s.1, s.2))
  | None => Fail (Undefined "dangling vehicle pointer")
  end.

Definition with_kind (e : Effect) (k : effect_kind) : Effect :=
  mkEffect (ef_id e) (ef_story e) (ef_car e) k.

Definition applyEffect (e : Effect) (s : stage) : res (Effect * stage) :=
  match ef_kind e with
  | SpeedEffect m_speed _ =>
      r ← getMaxSpeed (ef_car e) s;
      let '(m_current, s) := r : double * stage in
      s ← setMaxSpeed (ef_car e) m_speed s;
      Ok (with_kind e (SpeedEffect m_speed m_current), s)
  | StopEffect => s ← setSpeed (ef_car e) d_zero s; Ok (e, s)
  | SignalEffect cause result =>
      let others := match result with RBool _ => [] | RSet l => l end in
      s ← on_vehicle (ef_car e) (fun x => x) (EmitSignal (ef_car e) (ef_story e) cause others) s;
      Ok (e, s)
  end.

Definition removeEffect_of (e : Effect) (s : stage) : res stage :=
  match ef_kind e with
  | SpeedEffect _ m_current => setMaxSpeed (ef_car e) m_current s
  | StopEffect => setSpeed (ef_car e) (d_of_Z (-1)) s
  | SignalEffect _ _ => Ok s
  end.

Definition reapplyEffect (e : Effect) (s : stage) : res (Effect * stage) :=
  match ef_kind e with
  | SignalEffect _ _ => Ok (e, s)
  | _ => applyEffect e s
  end.

(** ** EffectStack: bottom first *)
Abbreviation EffectStack := (list Effect) (only parsing).

Definition stack_addEffect (e : Effect) (stack : EffectStack) (s : stage) :
    res (EffectStack * stage) :=
  if existsb (fun x => Nat.eqb (ef_id x) (ef_id e)) stack then Ok (stack, s)
  else
    r ← applyEffect e s;
    let '(e, s) := r : Effect * stage in Ok (stack ++ [e], s).

(** The first loop, from the top (the reversed stack) down to the effect: the rest
    of the reversed stack, the reversed list of effects passed, whether the effect
    was found. *)
Fixpoint remove_loop (id : nat) (rev_stack passed : list Effect) (s : stage) :
    res (list Effect * list Effect * bool * stage) :=
  match rev_stack with
  | [] => Ok ([], passed, false, s)
  | e :: rest =>
      s ← removeEffect_of e s;
      if Nat.eqb (ef_id e) id then Ok (rest, passed, true, s)
      else remove_loop id rest (e :: passed) s
  end.

Fixpoint reapply_all (stack : list Effect) (s : stage) : res (list Effect * stage) :=
  match stack with
  | [] => Ok ([], s)
  | e :: rest =>
      r ← reapplyEffect e s;
      let '(e, s) := r : Effect * stage in
      r ← reapply_all rest s;
      let '(rest, s) := r : list Effect * stage in Ok (e :: rest, s)
  end.

(** The second loop never advances [effectCount], so the test is that of its
    first iteration, for every effect. *)
Definition removeFromMiddle (id : nat) (stack : EffectStack) (s : stage) :
    res (EffectStack * stage) :=
  r ← remove_loop id (rev stack) [] s;
  let '(rest, passed, _, s) := r : list Effect * list Effect * bool * stage in
  let m_effects := rev rest ++ passed in
  let removedEffects := u32 (Z.of_nat (length passed)) in
  let effectCount := 0 in
  if u64 (Z.of_nat (length m_effects) - removedEffects) <=? effectCount
  then reapply_all m_effects s
  else Ok (m_effects, s).

Definition stack_removeEffect (id : nat) (stack : EffectStack) (s : stage) :
    res (EffectStack * stage) :=
  match last stack with
  | Some e =>
      if Nat.eqb (ef_id e) id then
        s ← removeEffect_of e s; Ok (removelast stack, s)
      else removeFromMiddle id stack s
  | None => removeFromMiddle id stack s
  end.

Definition removeEffectsByStory (story : story_id) (stack : EffectStack) (s : stage) :
    res (EffectStack * stage) :=
  let tmp := ef_id <$> List.filter (fun e => Nat.eqb (ef_story e) story) stack in
  res_fold (fun (x : EffectStack * stage) id => stack_removeEffect id x.1 x.2) tmp (stack, s).

Definition isStoryOnStack (story : story_id) (stack : EffectStack) : bool :=
  existsb (fun e => Nat.eqb (ef_story e) story) stack.

(** ** Storyboard *)
Inductive EffectFactory :=
| SpeedEffectFactory (m_speed : double)
| StopEffectFactory
| SignalEffectFactory (mTriggerCause : string).

Record Story := mkStory {
  st_id : story_id;
  m_condition : Condition;
  m_factories : list EffectFactory
}.

(** [create]: a new effect object; [m_current] is not initialised before it is
    applied. *)
Definition factory_create (f : EffectFactory) (id : nat) (car : vaddr) (story : story_id)
    (result : ConditionResult) : Effect :=
  mkEffect id story car
    match f with
    | SpeedEffectFactory v => SpeedEffect v S754_nan
    | StopEffectFactory => StopEffect
    | SignalEffectFactory cause => SignalEffect cause result
    end.

Record Storyboard := mkStoryboard {
  m_stories : list Story;
  m_affectedCars : list (vaddr * list Effect);
  m_vehicles : list (string * vaddr);
  limits : list (nat * list vaddr);
  next_effect : nat;
  board_stage : list (vaddr * VehicleState) * list command
}.

Definition registerStory (s : Story) (b : Storyboard) : Storyboard :=
  mkStoryboard (m_stories b ++ [s]) (m_affectedCars b) (m_vehicles b) (limits b) (next_effect b)
    (board_stage b).

(** [traci.node.add]: [addr] is where the map node is allocated; nodes without
    middleware are skipped. *)
Definition storyboard_addNode (nodeId : string) (has_middleware : bool) (addr : vaddr)
    (b : Storyboard) : Storyboard :=
  if has_middleware then
    mkStoryboard (m_stories b) (m_affectedCars b) (om_emplace nodeId addr (m_vehicles b))
      (limits b) (next_effect b) (board_stage b)
  else b.

(** [traci.node.remove] *)
Definition storyboard_removeNode (nodeId : string) (b : Storyboard) : Storyboard :=
  mkStoryboard (m_stories b) (m_affectedCars b) (om_erase nodeId (m_vehicles b)) (limits b)
    (next_effect b) (board_stage b).

Definition storyApplied (car : vaddr) (story : story_id) (b : Storyboard) : bool :=
  match om_find car (m_affectedCars b) with
  | None => false
  | Some stack => isStoryOnStack story stack
  end.

Definition set_stack (car : vaddr) (stack : EffectStack) (s : stage) (b : Storyboard) : Storyboard :=
  mkStoryboard (m_stories b) (om_set car stack (m_affectedCars b)) (m_vehicles b) (limits b)
    (next_effect b) s.

Definition stack_of (car : vaddr) (b : Storyboard) : list Effect :=
  default [] (om_find car (m_affectedCars b)).

(** The loop of [addEffect] over the effects of one story and car. *)
Definition add_effects (car : vaddr) (effects : list Effect) (b : Storyboard) : res Storyboard :=
  res_fold (fun b e =>
    r ← stack_addEffect e (stack_of car b) (board_stage b);
    let '(stack, s) := r : EffectStack * stage in Ok (set_stack car stack s b)) effects b.

Definition addEffect (effects : list Effect) (b : Storyboard) : res Storyboard :=
  match effects with
  | [] => Fail (Undefined "front of an empty vector")
  | e :: _ =>
      let car := ef_car e in
      let story := ef_story e in
      if bool_decide (om_find car (m_affectedCars b) = None) ||
         negb (isStoryOnStack story (stack_of car b))
      then add_effects car effects b
      else Fail (RuntimeError "It's not allowed to add effects from a Story twice")
  end.

Definition removeStory (car : vaddr) (story : story_id) (b : Storyboard) : res Storyboard :=
  r ← removeEffectsByStory story (stack_of car b) (board_stage b);
  let '(stack, s) := r : EffectStack * stage in Ok (set_stack car stack s b).

(** The effects of a story, created one after the other. *)
Fixpoint create_effects (fs : list EffectFactory) (id : nat) (car : vaddr) (story : story_id)
    (result : ConditionResult) : list Effect :=
  match fs with
  | [] => []
  | f :: fs' => factory_create f id car story result :: create_effects fs' (S id) car story result
  end.

Definition checkCar (car : vaddr) (conditionResult : ConditionResult) (story : Story)
    (b : Storyboard) : res Storyboard :=
  if storyApplied car (st_id story) b then
    if negb (is_true conditionResult) then removeStory car (st_id story) b else Ok b
  else if is_true conditionResult then
    let effects := create_effects (m_factories story) (next_effect b) car (st_id story)
                     conditionResult in
    let b := mkStoryboard (m_stories b) (m_affectedCars b) (m_vehicles b) (limits b)
               (next_effect b + length effects) (board_stage b) in
    addEffect effects b
  else Ok b.

Section Update.
Variable within : Position -> list Position -> bool.
Variable sin cos : double -> double.
Variable distance : Position -> Position -> double.
Variable intersects : list Position -> list Position -> bool.
Variable now : simtime.

(** What the conditions of a story see. *)
Definition board_views (b : Storyboard) : list (vaddr * VehicleView) :=
  prod_map id veh_view <$> (board_stage b).1.

Definition story_test (b : Storyboard) (story : Story) (car : vaddr)
    (lim : list (nat * list vaddr)) : res (list (nat * list vaddr) * ConditionResult) :=
  testCondition within sin cos distance intersects now (board_views b) (m_vehicles b)
    (m_condition story) car lim.

(** The body of the nested loops of [updateStoryboard]. *)
Definition update_pair (b : Storyboard) (p : vaddr * Story) : res Storyboard :=
  r ← story_test b p.2 p.1 (limits b);
  let '(lim, conditionTest) := r : list (nat * list vaddr) * ConditionResult in
  checkCar p.1 conditionTest p.2
    (mkStoryboard (m_stories b) (m_affectedCars b) (m_vehicles b) lim (next_effect b)
       (board_stage b)).

(** The nested loops: vehicles in the order of their ids, for each every story. *)
Definition update_pairs (b : Storyboard) : list (vaddr * Story) :=
  v ← (m_vehicles b).*2; (fun s => (v, s)) <$> m_stories b.

Definition updateStoryboard (b : Storyboard) : res Storyboard :=
  res_fold update_pair (update_pairs b) b.
End Update.

(** ** Stacks up to the saved speeds *)
Definition skel (l : list Effect) : list (nat * story_id) := (fun e => (ef_id e, ef_story e)) <$> l.

Lemma skel_app l1 l2 : skel (l1 ++ l2) = skel l1 ++ skel l2.
Proof. apply fmap_app. Qed.

Lemma skel_cons e l : skel (e :: l) = (ef_id e, ef_story e) :: skel l.
Proof. done. Qed.

Lemma skel_ids l : (skel l).*1 = ef_id <$> l.
Proof. unfold skel. by rewrite <- list_fmap_compose. Qed.

Lemma isStoryOnStack_skel story l : isStoryOnStack story l = true <-> exists id, (id, story) ∈ skel l.
Proof.
  unfold isStoryOnStack, skel. rewrite existsb_exists. setoid_rewrite list_elem_of_fmap.
  setoid_rewrite <- list_elem_of_In. split.
  - intros (e & He & Hs%Nat.eqb_eq). exists (ef_id e), e. by subst.
  - intros (id & e & [= -> ->] & He). exists e. split; [done|]. by apply Nat.eqb_eq.
Qed.

Lemma applyEffect_skel e s e' s' :
  applyEffect e s = Ok (e', s') -> ef_id e' = ef_id e /\ ef_story e' = ef_story e.
Proof.
  unfold applyEffect. destruct (ef_kind e).
  - rewrite bind_Ok. intros ([c s1] & _ & H). apply bind_Ok in H as (s2 & _ & H).
    apply Ok_inj in H. by injection H as <- <-.
  - rewrite bind_Ok. intros (s1 & _ & H). apply Ok_inj in H. by injection H as <- <-.
  - rewrite bind_Ok. intros (s1 & _ & H). apply Ok_inj in H. by injection H as <- <-.
Qed.

Lemma reapply_all_skel l s l' s' : reapply_all l s = Ok (l', s') -> skel l' = skel l.
Proof.
  revert s l' s'. induction l as [|e l IH]; intros s l' s'; cbn [reapply_all].
  - intros H. apply Ok_inj in H. by injection H as <- <-.
  - rewrite bind_Ok. intros ([e1 s1] & He & H). apply bind_Ok in H as ([l1 s2] & Hl & H).
    apply Ok_inj in H. injection H as <- <-. rewrite !skel_cons, (IH _ _ _ Hl).
    assert (ef_id e1 = ef_id e /\ ef_story e1 = ef_story e) as [-> ->]; [|done].
    unfold reapplyEffect in He. destruct (ef_kind e);
      [by apply applyEffect_skel in He|by apply applyEffect_skel in He|].
    apply Ok_inj in He. by injection He as <- <-.
Qed.

Lemma remove_loop_spec id rs passed s rest passed' found s' :
  remove_loop id rs passed s = Ok (rest, passed', found, s') ->
  if found then (exists above e, rs = above ++ (e :: rest) /\ ef_id e = id /\
                   (id ∉ (ef_id <$> above)) /\ passed' = rev above ++ passed)
  else rest = [] /\ passed' = rev rs ++ passed /\ id ∉ (ef_id <$> rs).
Proof.
  revert passed s. induction rs as [|e rs IH]; intros passed s; cbn [remove_loop].
  - intros H. apply Ok_inj in H. injection H as <- <- <- <-.
    split; [done|split; [done|apply not_elem_of_nil]].
  - rewrite bind_Ok. intros (s1 & _ & H). destruct (Nat.eqb_spec (ef_id e) id) as [Hid|Hid].
    + apply Ok_inj in H. injection H as <- <- <- <-. exists [], e. repeat split; try done.
      apply not_elem_of_nil.
    + apply IH in H. destruct found.
      * destruct H as (above & x & -> & Hx & Hn & ->). exists (e :: above), x.
        repeat split; try done; [cbn; set_solver|]. cbn. by rewrite <- app_assoc.
      * destruct H as (-> & -> & Hn). split; [done|]. split; [cbn; by rewrite <- app_assoc|].
        cbn. set_solver.
Qed.

Lemma elem_of_fmap_rev {A B} (f : A -> B) (l : list A) y : y ∈ (f <$> rev l) <-> y ∈ (f <$> l).
Proof.
  rewrite !list_elem_of_fmap. setoid_rewrite list_elem_of_In. by setoid_rewrite <- in_rev.
Qed.

Lemma filter_skel_without id l :
  id ∉ (ef_id <$> l) -> filter (fun p => p.1 <> id) (skel l) = skel l.
Proof.
  induction l as [|e l IH]; [done|]. rewrite fmap_cons, skel_cons. intros Hn.
  rewrite filter_cons_True by (cbn; set_solver). f_equal. apply IH. set_solver.
Qed.

Lemma filter_skel_split id below e above :
  NoDup (ef_id <$> below ++ e :: above) -> ef_id e = id ->
  filter (fun p => p.1 <> id) (skel (below ++ e :: above)) = skel (below ++ above).
Proof.
  intros Hnd <-. rewrite fmap_app in Hnd. cbn in Hnd.
  apply NoDup_app in Hnd as (_ & Hb & Ha). inversion_clear Ha as [|? ? Hna _].
  rewrite !skel_app, skel_cons, filter_app, filter_cons_False by (cbn; naive_solver).
  rewrite !filter_skel_without; [done|done|].
  intros Hin. apply (Hb _ Hin). left.
Qed.

(** Removing an effect removes just it, whatever happens to the others' commands. *)
Lemma removeFromMiddle_skel id stack s stack' s' :
  NoDup (ef_id <$> stack) -> removeFromMiddle id stack s = Ok (stack', s') ->
  skel stack' = filter (fun p => p.1 <> id) (skel stack).
Proof.
  intros Hnd. unfold removeFromMiddle. rewrite bind_Ok.
  intros ([[[rest passed] found] s1] & Hloop & H). apply remove_loop_spec in Hloop. cbv zeta in H.
  assert (skel stack' = skel (rev rest ++ passed)) as ->.
  { destruct (_ <=? 0); [by apply reapply_all_skel in H|]. apply Ok_inj in H. by injection H as <- <-. }
  destruct found.
  - destruct Hloop as (above & e & Hrev & Hid & _ & ->).
    assert (stack = rev rest ++ e :: rev above) as ->.
    { rewrite <- (rev_involutive stack), Hrev, rev_app_distr. cbn. by rewrite <- app_assoc. }
    rewrite app_nil_r. symmetry. by apply filter_skel_split.
  - destruct Hloop as (-> & -> & Hn). cbn. rewrite rev_involutive, app_nil_r.
    symmetry. apply filter_skel_without. by rewrite elem_of_fmap_rev in Hn.
Qed.

Lemma stack_removeEffect_skel id stack s stack' s' :
  NoDup (ef_id <$> stack) -> stack_removeEffect id stack s = Ok (stack', s') ->
  skel stack' = filter (fun p => p.1 <> id) (skel stack).
Proof.
  intros Hnd. unfold stack_removeEffect. destruct (last stack) as [e|] eqn:Hlast;
    [|by apply removeFromMiddle_skel].
  destruct (Nat.eqb_spec (ef_id e) id) as [Hid|_]; [|by apply removeFromMiddle_skel].
  rewrite bind_Ok. intros (s1 & _ & H). apply Ok_inj in H. injection H as <- <-.
  apply last_Some in Hlast as [l ->]. rewrite removelast_last.
  rewrite <- (app_nil_r l) at 1. symmetry. by apply filter_skel_split.
Qed.

Lemma removeEffectsByStory_skel story stack s stack' s' :
  NoDup (ef_id <$> stack) -> removeEffectsByStory story stack s = Ok (stack', s') ->
  skel stack' = filter (fun p => p.2 <> story) (skel stack).
Proof.
  intros Hnd Hr. unfold removeEffectsByStory in Hr.
  set (tmp := ef_id <$> List.filter _ stack) in *.
  assert (forall ids st s st' s', NoDup (ef_id <$> st) ->
    res_fold (fun (x : list Effect * stage) id => stack_removeEffect id x.1 x.2) ids (st, s)
      = Ok (st', s') -> skel st' = filter (fun p => p.1 ∉ ids) (skel st)) as Hfold.
  { clear. induction ids as [|id ids IH]; intros st s st' s' Hnd H.
    - apply Ok_inj in H. injection H as <- <-. symmetry. apply filter_all.
      intros x _. apply not_elem_of_nil.
    - cbn [res_fold] in H. apply bind_Ok in H as ([st1 s1] & H1 & H).
      apply stack_removeEffect_skel in H1; [|done].
      apply IH in H.
      2: { rewrite <- skel_ids in *. rewrite H1. by apply NoDup_fmap_filter. }
      rewrite H, H1, list_filter_filter. apply filter_ext_in. intros x _. set_solver. }
  rewrite (Hfold _ _ _ _ _ Hnd Hr). apply filter_ext_in. intros [id st] Hin.
  apply list_elem_of_fmap in Hin as (e & [= -> ->] & He). cbn.
  split; intros Hn Heq; apply Hn.
  - subst tmp. apply list_elem_of_fmap_2, list_elem_of_In, filter_In.
    split; [by apply list_elem_of_In|by apply Nat.eqb_eq].
  - subst tmp. apply list_elem_of_fmap in Heq as (e' & Hid & He').
    apply list_elem_of_In, filter_In in He' as [He' Hst%Nat.eqb_eq].
    apply list_elem_of_In in He'. by rewrite (NoDup_fmap_inj_in _ _ _ _ Hnd He He' Hid).
Qed.

(** ** The board *)
Definition board_inv (b : Storyboard) : Prop :=
  forall car stack, om_find car (m_affectedCars b) = Some stack ->
    NoDup (ef_id <$> stack) /\ Forall (fun e => (ef_id e < next_effect b)%nat) stack.

Lemma stack_of_inv car b :
  board_inv b -> NoDup (ef_id <$> stack_of car b) /\
    Forall (fun e => (ef_id e < next_effect b)%nat) (stack_of car b).
Proof.
  intros Hb. unfold stack_of. destruct (om_find car _) as [st|] eqn:E; [by apply Hb in E|].
  split; constructor.
Qed.

Lemma storyApplied_skel car story b :
  storyApplied car story b = true <-> exists id, (id, story) ∈ skel (stack_of car b).
Proof.
  unfold storyApplied, stack_of. destruct (om_find car _) as [st|]; [apply isStoryOnStack_skel|].
  split; [done|]. intros [id H]. by apply not_elem_of_nil in H.
Qed.

Lemma stack_of_set car stack s b car' :
  stack_of car' (set_stack car stack s b) = if decide (car' = car) then stack else stack_of car' b.
Proof. unfold stack_of, set_stack; cbn. rewrite om_find_set. by case_decide. Qed.

(** What a check of one car and one story changes: nothing but the presence of
    that story on that car. *)
Definition changes_only (car : vaddr) (story : story_id) (b b' : Storyboard) : Prop :=
  m_stories b' = m_stories b /\ m_vehicles b' = m_vehicles b /\
  forall c st, (c, st) <> (car, story) -> storyApplied c st b' = storyApplied c st b.

Lemma storyApplied_ext c st b b' :
  (forall id, (id, st) ∈ skel (stack_of c b') <-> (id, st) ∈ skel (stack_of c b)) ->
  storyApplied c st b' = storyApplied c st b.
Proof.
  intros H. apply eq_true_iff_eq. rewrite !storyApplied_skel. by setoid_rewrite H.
Qed.

Lemma removeStory_spec car story b b' :
  board_inv b -> removeStory car story b = Ok b' ->
  board_inv b' /\ storyApplied car story b' = false /\ changes_only car story b b'.
Proof.
  intros Hb. unfold removeStory. rewrite bind_Ok. intros ([stack s] & Hr & H).
  apply Ok_inj in H as <-. destruct (stack_of_inv car b Hb) as [Hnd Hlt].
  apply removeEffectsByStory_skel in Hr; [|done].
  assert (forall x, x ∈ skel stack -> x ∈ skel (stack_of car b)) as Hsub.
  { intros x. rewrite Hr. intros Hx. by apply list_elem_of_filter in Hx as [_ Hx]. }
  split; [|split].
  - intros c st. cbn. rewrite om_find_set. case_decide as Hc; [|apply Hb].
    intros [= <-]. split.
    + rewrite <- skel_ids in *. rewrite Hr. by apply NoDup_fmap_filter.
    + apply Forall_forall. intros e He.
      assert ((ef_id e, ef_story e) ∈ skel stack) as Hin
        by (unfold skel; apply list_elem_of_fmap; eauto).
      apply Hsub in Hin. apply list_elem_of_fmap in Hin as (e' & [= -> _] & He').
      by eapply Forall_forall in Hlt.
  - apply not_true_is_false. rewrite storyApplied_skel, stack_of_set, decide_True by done.
    intros [id Hid]. rewrite Hr in Hid. apply list_elem_of_filter in Hid as [Hn _]. by apply Hn.
  - split; [done|split; [done|]]. intros c st Hne. apply storyApplied_ext. intros id.
    rewrite stack_of_set. case_decide as Hc; [|done]. subst c. rewrite Hr, list_elem_of_filter.
    cbn. naive_solver.
Qed.

Lemma stack_addEffect_skel e stack s stack' s' :
  ef_id e ∉ (ef_id <$> stack) -> stack_addEffect e stack s = Ok (stack', s') ->
  skel stack' = skel stack ++ [(ef_id e, ef_story e)].
Proof.
  intros Hn. unfold stack_addEffect. destruct (existsb _ stack) eqn:Hx.
  - apply existsb_exists in Hx as (x & Hin & Heq%Nat.eqb_eq). exfalso. apply Hn.
    rewrite <- Heq. by apply list_elem_of_fmap_2, list_elem_of_In.
  - rewrite bind_Ok. intros ([e' s1] & He & H). apply Ok_inj in H. injection H as <- <-.
    apply applyEffect_skel in He as [Hi Hs]. rewrite skel_app. cbn. by rewrite Hi, Hs.
Qed.

Lemma add_effects_spec car effects b b' :
  NoDup (ef_id <$> stack_of car b) ->
  NoDup (ef_id <$> effects) -> (forall e, e ∈ effects -> ef_id e ∉ (ef_id <$> stack_of car b)) ->
  add_effects car effects b = Ok b' ->
  skel (stack_of car b') = skel (stack_of car b) ++ skel effects /\
  (forall c, c <> car -> stack_of c b' = stack_of c b) /\
  m_stories b' = m_stories b /\ m_vehicles b' = m_vehicles b /\
  next_effect b' = next_effect b /\
  (forall c st, c <> car -> om_find c (m_affectedCars b') = Some st ->
     om_find c (m_affectedCars b) = Some st).
Proof.
  revert b. induction effects as [|e effects IH]; intros b Hnd Hnde Hdis H.
  - apply Ok_inj in H as <-. rewrite app_nil_r. done.
  - unfold add_effects in H. cbn [res_fold] in H. apply bind_Ok in H as (b1 & H1 & H).
    apply bind_Ok in H1 as ([stack s] & Ha & H1). apply Ok_inj in H1 as <-.
    assert (ef_id e ∉ (ef_id <$> stack_of car b)) as Hne by (apply Hdis; left).
    apply stack_addEffect_skel in Ha; [|done].
    cbn in Hnde. inversion_clear Hnde as [|? ? Hn Hnde'].
    set (b1 := set_stack car stack s b) in *.
    assert (stack_of car b1 = stack) as Hs1 by (subst b1; rewrite stack_of_set; by rewrite decide_True).
    assert (ef_id <$> stack = (ef_id <$> stack_of car b) ++ [ef_id e]) as Hids.
    { rewrite <- !skel_ids, Ha, fmap_app. done. }
    destruct (IH b1) as (Hsk & Hother & Hst & Hv & Hnx & Hfind); rewrite ?Hs1, ?Hids.
    + apply NoDup_app. split; [done|]. split; [|apply NoDup_singleton]. set_solver.
    + done.
    + intros x Hx. rewrite elem_of_app, list_elem_of_singleton. intros [Hin|Hin].
      * by apply (Hdis x); [right|].
      * apply Hn. rewrite <- Hin. by apply list_elem_of_fmap_2.
    + exact H.
    + split; [|split; [|split; [done|split; [done|split; [done|]]]]].
      * rewrite Hsk, Hs1, Ha, <- app_assoc. done.
      * intros c Hc. rewrite Hother by done. subst b1. rewrite stack_of_set. by rewrite decide_False.
      * intros c st Hc Hf. apply Hfind in Hf; [|done]. subst b1. cbn in Hf.
        by rewrite om_find_set_ne in Hf.
Qed.

Lemma create_effects_spec fs id car story r :
  (forall e, e ∈ create_effects fs id car story r ->
     (id <= ef_id e < id + length fs)%nat /\ ef_story e = story /\ ef_car e = car) /\
  NoDup (ef_id <$> create_effects fs id car story r) /\
  length (create_effects fs id car story r) = length fs.
Proof.
  revert id. induction fs as [|f fs IH]; intros id; cbn [create_effects].
  - split; [intros e He; by apply not_elem_of_nil in He|split; [constructor|done]].
  - destruct (IH (S id)) as (He & Hnd & Hl). split; [|split; [|cbn; by rewrite Hl]].
    + intros e [->|Hin]%elem_of_cons; [cbn; lia|]. apply He in Hin as (? & ? & ?). cbn [length].
      split; [lia|done].
    + cbn. constructor; [|done]. intros Hin. apply list_elem_of_fmap in Hin as (e & Hid & Hin).
      apply He in Hin as [? _]. lia.
Qed.

Lemma checkCar_spec car r story b b' :
  board_inv b -> m_factories story <> [] -> checkCar car r story b = Ok b' ->
  board_inv b' /\ storyApplied car (st_id story) b' = is_true r /\
  changes_only car (st_id story) b b'.
Proof.
  intros Hb Hf. unfold checkCar. destruct (storyApplied car (st_id story) b) eqn:Happ.
  - destruct (is_true r) eqn:Ht; cbn [negb].
    + intros H. apply Ok_inj in H as <-. done.
    + intros H. by apply removeStory_spec.
  - destruct (is_true r) eqn:Ht; [|intros H; by apply Ok_inj in H as <-].
    cbv zeta. set (effs := create_effects _ _ _ _ _). set (b0 := mkStoryboard _ _ _ _ _ _).
    destruct (create_effects_spec (m_factories story) (next_effect b) car (st_id story) r)
      as (He & Hnde & Hlen). fold effs in He, Hnde, Hlen.
    assert (exists e l, effs = e :: l) as (e0 & l0 & Heff).
    { destruct effs as [|e l]; [|eauto]. cbn in Hlen. by destruct (m_factories story). }
    unfold addEffect. rewrite Heff. rewrite <- Heff. assert (ef_car e0 = car) as ->
      by (apply (He e0); rewrite Heff; left).
    destruct (_ || _); [|done]. intros Hadd.
    destruct (stack_of_inv car b Hb) as [Hnd Hlt].
    destruct (add_effects_spec car effs b0 b') as (Hsk & Hother & Hst & Hv & Hnx & Hfind);
      [exact Hnd|exact Hnde| |exact Hadd|].
    { intros e Hin Hid. apply He in Hin as [Hge _]. apply list_elem_of_fmap in Hid as (e' & Hid & Hin').
      eapply Forall_forall in Hlt; [|exact Hin']. lia. }
    change (stack_of car b0) with (stack_of car b) in Hsk.
    split; [|split; [|split; [exact Hst|split; [exact Hv|]]]].
    + intros c st Hc. rewrite Hnx. cbn [next_effect b0].
      destruct (decide (c = car)) as [->|Hne].
      * assert (stack_of car b' = st) as <- by (unfold stack_of; by rewrite Hc).
        assert (ef_id <$> stack_of car b' = (ef_id <$> stack_of car b) ++ (ef_id <$> effs)) as Hids
          by (rewrite <- !skel_ids, Hsk, fmap_app; done).
        split.
        -- rewrite Hids. apply NoDup_app. split; [done|split; [|done]].
           intros i Hi Hi'. apply list_elem_of_fmap in Hi as (e & -> & Hin).
           apply list_elem_of_fmap in Hi' as (e' & Heq & Hin'). apply He in Hin' as [? _].
           eapply Forall_forall in Hlt; [|exact Hin]. lia.
        -- apply Forall_forall. intros e Hin.
           assert (ef_id e ∈ (ef_id <$> stack_of car b) ++ (ef_id <$> effs)) as Hi
             by (rewrite <- Hids; by apply list_elem_of_fmap_2).
           apply elem_of_app in Hi as [Hi|Hi]; apply list_elem_of_fmap in Hi as (e' & -> & Hin').
           ++ eapply Forall_forall in Hlt; [|exact Hin']. lia.
           ++ apply He in Hin' as [? _]. rewrite Hlen. lia.
      * apply Hfind in Hc; [|done]. apply Hb in Hc as [? Hl]. split; [done|].
        eapply Forall_impl; [exact Hl|]. cbn. lia.
    + apply storyApplied_skel. exists (ef_id e0). rewrite Hsk. apply elem_of_app. right.
      apply list_elem_of_fmap. exists e0. split; [|rewrite Heff; left].
      f_equal. symmetry. apply (He e0). rewrite Heff. left.
    + intros c st Hne. apply storyApplied_ext. intros id.
      destruct (decide (c = car)) as [->|Hc].
      * rewrite Hsk, elem_of_app. split; [|by left]. intros [|Hin]; [done|].
        apply list_elem_of_fmap in Hin as (e & [= -> ->] & Hin). apply He in Hin as (_ & Hs & _).
        congruence.
      * rewrite Hother by done. done.
Qed.

(** ** Effects do not change what conditions see *)
Definition stage_views (s : stage) : list (vaddr * VehicleView) := prod_map id veh_view <$> s.1.

Lemma om_set_views car v v' (w : world) :
  om_wf w -> om_find car w = Some v -> veh_view v' = veh_view v ->
  prod_map id veh_view <$> om_set car v' w = prod_map id veh_view <$> w.
Proof.
  intros Hwf Hf Hv. induction w as [|[a x] w IH]; [done|]. apply om_wf_cons in Hwf as [Hlt Hwf].
  cbn [om_find om_set] in *. destruct (decide (car = a)) as [->|Hne].
  - injection Hf as ->. cbn. by rewrite Hv.
  - assert (key_ltb a car = true) as Ha by (apply Hlt, om_find_is_Some; eauto).
    case_match eqn:Hca.
    + pose proof (key_ltb_trans _ _ _ Ha Hca) as Haa. by rewrite key_ltb_irrefl in Haa.
    + rewrite !fmap_cons. f_equal. by apply IH.
Qed.

(** The maximum speed that commands leave a vehicle with. *)
Definition commanded (car : vaddr) (cmds : list command) (v : double) : double :=
  fold_left (fun v c => match c with SetMaxSpeed c v' => if decide (c = car) then v' else v | _ => v end) cmds v.
Lemma commanded_app car l1 l2 v : commanded car (l1 ++ l2) v = commanded car l2 (commanded car l1 v).
Proof. apply fold_left_app. Qed.
(** Commands were given, and the maximum speeds are those they ask for. *)
Definition obeyed (s s' : stage) (cmds : list command) : Prop :=
  s'.2 = s.2 ++ cmds /\
  forall car v, om_find car s.1 = Some v ->
    exists v', om_find car s'.1 = Some v' /\ sumo_max_speed v' = commanded car cmds (sumo_max_speed v).
(** The world stays ordered, its views stay the same, and commands are obeyed. *)
Definition calm (s s' : stage) : Prop :=
  om_wf s.1 -> om_wf s'.1 /\ stage_views s' = stage_views s /\ exists cmds, obeyed s s' cmds.

Lemma calm_refl s : calm s s.
Proof. intros H. split; [done|]. split; [done|]. exists []. split; [by rewrite app_nil_r|]. intros car v Hv. by exists v. Qed.

Lemma calm_trans s1 s2 s3 : calm s1 s2 -> calm s2 s3 -> calm s1 s3.
Proof.
  intros H12 H23 H. destruct (H12 H) as (H2 & <- & c1 & Hl1 & Hv1). destruct (H23 H2) as (H3 & -> & c2 & Hl2 & Hv2).
  split; [done|]. split; [done|]. exists (c1 ++ c2). split; [by rewrite Hl2, Hl1, app_assoc|].
  intros car v Hv. destruct (Hv1 car v Hv) as (v1 & Hf1 & E1). destruct (Hv2 car v1 Hf1) as (v2 & Hf2 & E2).
  exists v2. split; [done|]. by rewrite E2, E1, commanded_app.
Qed.

Lemma calm_set car v v' (s : stage) cmds :
  om_find car s.1 = Some v -> veh_view v' = veh_view v ->
  (forall c x, commanded c cmds x = if decide (c = car) then commanded car cmds x else x) ->
  sumo_max_speed v' = commanded car cmds (sumo_max_speed v) -> calm s (om_set car v' s.1, s.2 ++ cmds).
Proof.
  intros Hf Hv Hc Hm Hwf. split; [by apply om_wf_set|]. split; [by apply om_set_views with (v := v)|].
  exists cmds. split; [done|]. intros c x Hx. cbn. rewrite om_find_set, Hc. case_decide as E; [|by exists x].
  subst c. rewrite Hf in Hx. injection Hx as <-. by exists v'.
Qed.

Lemma on_vehicle_calm car f c s s' :
  (forall v, veh_view (f v) = veh_view v) -> (forall v, sumo_max_speed (f v) = commanded car [c] (sumo_max_speed v)) ->
  (forall c' x, commanded c' [c] x = if decide (c' = car) then commanded car [c] x else x) ->
  on_vehicle car f c s = Ok s' -> calm s s'.
Proof.
  intros Hf Hm Hc. unfold on_vehicle. destruct (om_find car s.1) as [v|] eqn:E; [|done].
  intros H. apply Ok_inj in H as <-. eapply calm_set; [exact E|apply Hf|apply Hc|apply Hm].
Qed.
Lemma setMaxSpeed_calm car v s s' : setMaxSpeed car v s = Ok s' -> calm s s'.
Proof.
  apply on_vehicle_calm; [done| |]; intros; cbn; [by rewrite decide_True|].
  destruct (decide (c' = car)) as [->|]; [by rewrite decide_True|by rewrite decide_False].
Qed.
Lemma quiet_calm car c s s' : (forall c' x, commanded c' [c] x = x) -> on_vehicle car (fun x => x) c s = Ok s' -> calm s s'.
Proof. intros Hc. apply on_vehicle_calm; intros; rewrite ?Hc; try done. by case_decide. Qed.

Lemma getMaxSpeed_calm car s v s' : getMaxSpeed car s = Ok (v, s') -> calm s s'.
Proof.
  unfold getMaxSpeed. destruct (om_find car s.1) as [x|] eqn:E; [|done].
  intros H. apply Ok_inj in H. injection H as _ <-. rewrite <- (app_nil_r s.2).
  eapply calm_set; [exact E|done| |done]. intros c v'. cbn. by case_decide.
Qed.

Lemma applyEffect_calm e s e' s' : applyEffect e s = Ok (e', s') -> calm s s'.
Proof.
  unfold applyEffect. destruct (ef_kind e).
  - rewrite bind_Ok. intros ([c s1] & H1 & H). apply bind_Ok in H as (s2 & H2 & H).
    apply Ok_inj in H. injection H as _ <-. apply getMaxSpeed_calm in H1.
    apply setMaxSpeed_calm in H2. by eapply calm_trans.
  - rewrite bind_Ok. intros (s1 & H1 & H). apply Ok_inj in H. injection H as _ <-.
    by apply quiet_calm in H1.
  - rewrite bind_Ok. intros (s1 & H1 & H). apply Ok_inj in H. injection H as _ <-.
    by apply quiet_calm in H1.
Qed.

Lemma removeEffect_of_calm e s s' : removeEffect_of e s = Ok s' -> calm s s'.
Proof.
  unfold removeEffect_of. destruct (ef_kind e); [by apply setMaxSpeed_calm|by apply quiet_calm|].
  intros H. apply Ok_inj in H as <-. apply calm_refl.
Qed.

Lemma remove_loop_calm id rs passed s rest passed' found s' :
  remove_loop id rs passed s = Ok (rest, passed', found, s') -> calm s s'.
Proof.
  revert passed s. induction rs as [|e rs IH]; intros passed s; cbn [remove_loop].
  - intros H. apply Ok_inj in H. injection H as _ _ _ <-. apply calm_refl.
  - rewrite bind_Ok. intros (s1 & H1 & H). apply removeEffect_of_calm in H1.
    eapply calm_trans; [exact H1|]. destruct (Nat.eqb _ _); [|by eapply IH].
    apply Ok_inj in H. injection H as _ _ _ <-. apply calm_refl.
Qed.

Lemma reapply_all_calm l s l' s' : reapply_all l s = Ok (l', s') -> calm s s'.
Proof.
  revert s l'. induction l as [|e l IH]; intros s l'; cbn [reapply_all].
  - intros H. apply Ok_inj in H. injection H as _ <-. apply calm_refl.
  - rewrite bind_Ok. intros ([e1 s1] & He & H). apply bind_Ok in H as ([l1 s2] & Hl & H).
    apply Ok_inj in H. injection H as _ <-. apply IH in Hl. eapply calm_trans; [|exact Hl].
    unfold reapplyEffect in He. destruct (ef_kind e);
      [by apply applyEffect_calm in He|by apply applyEffect_calm in He|].
    apply Ok_inj in He. injection He as _ <-. apply calm_refl.
Qed.

Lemma stack_removeEffect_calm id stack s stack' s' :
  stack_removeEffect id stack s = Ok (stack', s') -> calm s s'.
Proof.
  assert (removeFromMiddle id stack s = Ok (stack', s') -> calm s s') as Hm.
  { unfold removeFromMiddle. rewrite bind_Ok. intros ([[[rest passed] found] s1] & H1 & H).
    cbv zeta in H. apply remove_loop_calm in H1. eapply calm_trans; [exact H1|].
    destruct (_ <=? 0); [by apply reapply_all_calm in H|]. apply Ok_inj in H.
    injection H as _ <-. apply calm_refl. }
  unfold stack_removeEffect. destruct (last stack) as [e|]; [|done].
  destruct (Nat.eqb _ _); [|done]. rewrite bind_Ok. intros (s1 & H1 & H).
  apply Ok_inj in H. injection H as _ <-. by apply removeEffect_of_calm in H1.
Qed.

Lemma removeStory_calm car story b b' :
  removeStory car story b = Ok b' -> calm (board_stage b) (board_stage b').
Proof.
  unfold removeStory. rewrite bind_Ok. intros ([stack s] & Hr & H). apply Ok_inj in H as <-.
  cbn [board_stage set_stack]. unfold removeEffectsByStory in Hr.
  pose (P := fun x : list Effect * stage => calm (board_stage b) x.2).
  eapply (res_fold_inv P) in Hr; [exact Hr| |apply calm_refl].
  intros id [st t] [st' t'] _ Hc H. apply stack_removeEffect_calm in H.
  by eapply calm_trans.
Qed.

Lemma addEffect_calm effects b b' :
  addEffect effects b = Ok b' -> calm (board_stage b) (board_stage b').
Proof.
  unfold addEffect. destruct effects as [|e0 effects]; [done|].
  destruct (_ || _); [|done]. intros H.
  pose (P := fun x : Storyboard => calm (board_stage b) (board_stage x)).
  eapply (res_fold_inv P) in H; [exact H| |apply calm_refl].
  intros e t t' _ Hc (x & Hx & H2)%bind_Ok. destruct x as [stack s]. apply Ok_inj in H2 as <-.
  eapply calm_trans; [exact Hc|]. unfold stack_addEffect in Hx. cbn.
  destruct (existsb _ _); [apply Ok_inj in Hx; injection Hx as _ <-; apply calm_refl|].
  apply bind_Ok in Hx as ([e' s1] & He & Hx). apply Ok_inj in Hx. injection Hx as _ <-.
  by apply applyEffect_calm in He.
Qed.

Lemma checkCar_calm car r story b b' :
  checkCar car r story b = Ok b' -> calm (board_stage b) (board_stage b').
Proof.
  unfold checkCar. destruct (storyApplied _ _ _).
  - destruct (negb _); [apply removeStory_calm|]. intros H. apply Ok_inj in H as <-. apply calm_refl.
  - destruct (is_true r); [|intros H; apply Ok_inj in H as <-; apply calm_refl].
    cbv zeta. intros H%addEffect_calm. exact H.
Qed.

(** ** The commands a story gives *)
Definition apply_command (car : vaddr) (story : story_id) (r : ConditionResult) (f : EffectFactory) : command :=
  match f with
  | SpeedEffectFactory v => SetMaxSpeed car v
  | StopEffectFactory => SetSpeed car d_zero
  | SignalEffectFactory cause => EmitSignal car story cause (match r with RBool _ => [] | RSet l => l end)
  end.
Definition undo_commands (e : Effect) : list command :=
  match ef_kind e with
  | SpeedEffect _ saved => [SetMaxSpeed (ef_car e) saved]
  | StopEffect => [SetSpeed (ef_car e) (d_of_Z (-1))]
  | SignalEffect _ _ => []
  end.
(** The maximum speed as the controller reads it. *)
Definition speed_read (car : vaddr) (s : stage) : option double :=
  (fun x => default (sumo_max_speed x) (cached_max_speed x)) <$> om_find car s.1.
(** An effect in force, with the speed to return to. *)
Definition in_force (car : vaddr) (story : story_id) (r : ConditionResult) (saved : option double) (f : EffectFactory) (e : Effect) : Prop :=
  ef_car e = car /\ ef_story e = story /\
  match f with
  | SpeedEffectFactory v => exists x, saved = Some x /\ ef_kind e = SpeedEffect v x
  | StopEffectFactory => ef_kind e = StopEffect
  | SignalEffectFactory cause => ef_kind e = SignalEffect cause r
  end.
(** What becomes of a story on a vehicle whose condition was tested with result [r]. *)
Definition handled (car : vaddr) (story : Story) (r : ConditionResult) (b b' : Storyboard) : Prop :=
  let id := st_id story in
  exists cmds, (board_stage b').2 = (board_stage b).2 ++ cmds /\
  match storyApplied car id b, is_true r with
  | false, true =>
      cmds = apply_command car id r <$> m_factories story /\
      exists effects, stack_of car b' = stack_of car b ++ effects /\
        Forall2 (in_force car id r (speed_read car (board_stage b))) (m_factories story) effects
  | true, false =>
      skel (stack_of car b') = filter (fun x => x.2 <> id) (skel (stack_of car b)) /\
      exists below e above more, stack_of car b = below ++ e :: above /\ ef_story e = id /\
        Forall (fun x => ef_story x <> id) below /\ cmds = (rev (e :: above) ≫= undo_commands) ++ more /\
        (above = [] -> more = [] /\ stack_of car b' = below)
  | _, _ => cmds = [] /\ stack_of car b' = stack_of car b
  end.

Lemma on_vehicle_log car f c s s' : on_vehicle car f c s = Ok s' ->
  s'.2 = s.2 ++ [c] /\ ((forall x, cached_max_speed (f x) = cached_max_speed x) ->
    (forall x, cached_max_speed x = None -> sumo_max_speed (f x) = sumo_max_speed x) -> speed_read car s' = speed_read car s).
Proof.
  unfold on_vehicle. destruct (om_find car s.1) as [x|] eqn:E; [|done]. intros H. apply Ok_inj in H as <-.
  split; [done|]. intros Hc Hm. unfold speed_read. cbn. rewrite om_find_set, decide_True, E by done. cbn. rewrite Hc.
  destruct (cached_max_speed x) eqn:Ex; [done|]. cbn. by rewrite Hm.
Qed.
Lemma applied_log f id car story r s e' s' : applyEffect (factory_create f id car story r) s = Ok (e', s') ->
  s'.2 = s.2 ++ [apply_command car story r f] /\ in_force car story r (speed_read car s) f e' /\
  ef_id e' = id /\ speed_read car s' = speed_read car s.
Proof.
  unfold applyEffect, factory_create. cbn [ef_kind ef_car ef_story]. destruct f as [v| |cause].
  - rewrite bind_Ok. intros ([c s1] & H1 & H). apply bind_Ok in H as (s2 & H2 & H). apply Ok_inj in H. injection H as <- <-.
    unfold getMaxSpeed in H1. destruct (om_find car s.1) as [x|] eqn:E; [|done]. apply Ok_inj in H1. injection H1 as <- <-.
    unfold setMaxSpeed, on_vehicle in H2. cbn in H2. rewrite om_find_set, decide_True in H2 by done. apply Ok_inj in H2 as <-.
    unfold speed_read, in_force. cbn. rewrite om_find_set, decide_True, E by done. cbn. repeat split. by eexists.
  - rewrite bind_Ok. intros (s1 & H1 & H). apply Ok_inj in H. injection H as <- <-. apply on_vehicle_log in H1 as [Hl Hr].
    split; [done|]. split; [done|]. split; [done|]. by apply Hr.
  - rewrite bind_Ok. intros (s1 & H1 & H). apply Ok_inj in H. injection H as <- <-. apply on_vehicle_log in H1 as [Hl Hr].
    split; [done|]. split; [done|]. split; [done|]. by apply Hr.
Qed.
Lemma add_effects_log fs id car story r b b' :
  Forall (fun e => (ef_id e < id)%nat) (stack_of car b) -> add_effects car (create_effects fs id car story r) b = Ok b' ->
  (board_stage b').2 = (board_stage b).2 ++ (apply_command car story r <$> fs) /\
  exists effects, stack_of car b' = stack_of car b ++ effects /\ Forall2 (in_force car story r (speed_read car (board_stage b))) fs effects.
Proof.
  revert id b. induction fs as [|f fs IH]; intros id b Hlt H; cbn [create_effects] in H.
  - apply Ok_inj in H as <-. rewrite app_nil_r. split; [done|]. exists []. by rewrite app_nil_r.
  - unfold add_effects in H. cbn [res_fold] in H. apply bind_Ok in H as (b1 & H1 & H).
    apply bind_Ok in H1 as ([stack s] & Ha & H1). apply Ok_inj in H1 as <-. unfold stack_addEffect in Ha.
    destruct (existsb _ _) eqn:Hx.
    { apply existsb_exists in Hx as (x & Hin%list_elem_of_In & Heq%Nat.eqb_eq). eapply Forall_forall in Hlt; [|exact Hin]. cbn in Heq. lia. }
    apply bind_Ok in Ha as ([e' s1] & Ha & Hs). apply Ok_inj in Hs. injection Hs as <- <-.
    apply applied_log in Ha as (Hl & He & Hid & Hr). apply (IH (S id)) in H as (Hlog & effects & Hst & Hf).
    2: { rewrite stack_of_set, decide_True by done. apply Forall_app. split; [|apply Forall_singleton; lia].
         eapply Forall_impl; [exact Hlt|]. cbn. lia. }
    cbn [board_stage set_stack] in Hlog, Hf. rewrite Hl in Hlog. rewrite Hr in Hf. rewrite stack_of_set, decide_True in Hst by done.
    split; [by rewrite Hlog, <- app_assoc|]. exists (e' :: effects). split; [by rewrite Hst, <- app_assoc|]. by constructor.
Qed.
Lemma undone_log e s s' : removeEffect_of e s = Ok s' -> s'.2 = s.2 ++ undo_commands e.
Proof.
  unfold removeEffect_of, undo_commands. destruct (ef_kind e); [by intros [? _]%on_vehicle_log|by intros [? _]%on_vehicle_log|].
  intros H. apply Ok_inj in H as <-. by rewrite app_nil_r.
Qed.
Lemma remove_loop_log id e rest above passed s out : ef_id e = id -> id ∉ (ef_id <$> above) ->
  remove_loop id (above ++ e :: rest) passed s = Ok out ->
  out.2.2 = s.2 ++ ((above ++ [e]) ≫= undo_commands) /\ out.1.1.1 = rest /\ out.1.1.2 = rev above ++ passed.
Proof.
  intros He. revert passed s. induction above as [|x above IH]; intros passed s Hn H; cbn in H.
  - apply bind_Ok in H as (s1 & H1 & H). rewrite (proj2 (Nat.eqb_eq _ _) He) in H. apply Ok_inj in H as <-. cbn.
    apply undone_log in H1. by rewrite app_nil_r.
  - apply bind_Ok in H as (s1 & H1 & H). destruct (Nat.eqb_spec (ef_id x) id); [exfalso; set_solver|].
    apply IH in H as (Hl & Hr & Hp); [|set_solver]. apply undone_log in H1. rewrite H1 in Hl. rewrite Hl, Hr, Hp. cbn.
    by rewrite <- !app_assoc.
Qed.
(** Whatever is done to a stage, commands are only added. *)
Definition grows (s s' : stage) : Prop := exists more, s'.2 = s.2 ++ more.
#[export] Instance grows_preorder : PreOrder grows.
Proof.
  split; [intros s; exists []; by rewrite app_nil_r|]. intros s1 s2 s3 [m1 H1] [m2 H2]. exists (m1 ++ m2). by rewrite H2, H1, app_assoc.
Qed.
Lemma removeEffect_grows e s s' : removeEffect_of e s = Ok s' -> grows s s'.
Proof. intros H. eexists. by apply undone_log. Qed.
Lemma applyEffect_grows e s x : applyEffect e s = Ok x -> grows s x.2.
Proof.
  unfold applyEffect. destruct (ef_kind e).
  - rewrite bind_Ok. intros ([c s1] & H1 & H). apply bind_Ok in H as (s2 & [H2 _]%on_vehicle_log & H). apply Ok_inj in H as <-.
    unfold getMaxSpeed in H1. destruct (om_find _ _); [|done]. apply Ok_inj in H1. injection H1 as _ <-. by eexists.
  - rewrite bind_Ok. intros (s1 & [H1 _]%on_vehicle_log & H). apply Ok_inj in H as <-. by eexists.
  - rewrite bind_Ok. intros (s1 & [H1 _]%on_vehicle_log & H). apply Ok_inj in H as <-. by eexists.
Qed.
Lemma reapply_grows l s x : reapply_all l s = Ok x -> grows s x.2.
Proof.
  revert s x. induction l as [|e l IH]; intros s x; cbn [reapply_all]; [intros H; apply Ok_inj in H as <-; reflexivity|].
  rewrite bind_Ok. intros ([e1 s1] & He & H). apply bind_Ok in H as ([l1 s2] & Hl & H). apply Ok_inj in H as <-.
  apply IH in Hl. transitivity s1; [|exact Hl]. unfold reapplyEffect in He.
  destruct (ef_kind e); [by apply applyEffect_grows in He|by apply applyEffect_grows in He|]. apply Ok_inj in He. by injection He as _ <-.
Qed.
Lemma remove_loop_grows id l passed s x : remove_loop id l passed s = Ok x -> grows s x.2.
Proof.
  revert passed s. induction l as [|e l IH]; intros passed s; cbn [remove_loop]; [intros H; apply Ok_inj in H as <-; reflexivity|].
  rewrite bind_Ok. intros (s1 & H1%removeEffect_grows & H). transitivity s1; [exact H1|].
  destruct (Nat.eqb _ _); [apply Ok_inj in H as <-; reflexivity|by eapply IH].
Qed.
Lemma middle_grows id stack s x : removeFromMiddle id stack s = Ok x -> grows s x.2.
Proof.
  unfold removeFromMiddle. rewrite bind_Ok. intros ([[[rest passed] found] s1] & H1%remove_loop_grows & H). cbv zeta in H.
  transitivity s1; [exact H1|]. destruct (_ <=? 0); [by apply reapply_grows in H|apply Ok_inj in H as <-; reflexivity].
Qed.
Lemma stack_removeEffect_grows id stack s x : stack_removeEffect id stack s = Ok x -> grows s x.2.
Proof.
  unfold stack_removeEffect. destruct (last stack); [|apply middle_grows]. destruct (Nat.eqb _ _); [|apply middle_grows].
  rewrite bind_Ok. intros (s1 & H1%removeEffect_grows & H). by apply Ok_inj in H as <-.
Qed.
(** The first effect of a story to go takes all above it down. *)
Lemma lowest_removed below e above s x :
  NoDup (ef_id <$> (below ++ e :: above)) -> stack_removeEffect (ef_id e) (below ++ e :: above) s = Ok x ->
  exists more, x.2.2 = s.2 ++ (rev (e :: above) ≫= undo_commands) ++ more /\ (above = [] -> more = [] /\ x.1 = below).
Proof.
  intros Hnd. unfold stack_removeEffect. rewrite last_app_cons. destruct above as [|y above _] using rev_ind.
  - cbn [last]. rewrite (proj2 (Nat.eqb_eq _ _) eq_refl), bind_Ok. intros (s1 & H1%undone_log & H). apply Ok_inj in H as <-.
    exists []. rewrite removelast_last. cbn. by rewrite !app_nil_r.
  - rewrite app_comm_cons, last_snoc. assert (ef_id e ∉ (ef_id <$> rev (above ++ [y]))) as Hn.
    { rewrite elem_of_fmap_rev. rewrite fmap_app, fmap_cons in Hnd. by apply NoDup_app in Hnd as (_ & _ & [? _]%NoDup_cons). }
    destruct (Nat.eqb_spec (ef_id y) (ef_id e)) as [Heq|_].
    { exfalso. apply Hn. rewrite elem_of_fmap_rev, fmap_app, <- Heq. set_solver. }
    unfold removeFromMiddle. rewrite bind_Ok. intros ([[[rest passed] found] s1] & H1 & H). cbv zeta in H.
    rewrite rev_app_distr in H1. cbn [rev app] in H1. rewrite <- app_assoc in H1. cbn [app] in H1.
    apply remove_loop_log in H1 as (Hl & _); [|done|done]. cbn in Hl.
    assert (grows s1 x.2) as [more Hm] by (destruct (_ <=? 0); [by apply reapply_grows in H|apply Ok_inj in H as <-; reflexivity]).
    exists more. split; [|intros []%app_eq_nil; done]. rewrite Hm, Hl, <- app_assoc. done.
Qed.
Lemma story_split story l : existsb (fun e => Nat.eqb (ef_story e) story) l = true ->
  exists below e above, l = below ++ e :: above /\ ef_story e = story /\ Forall (fun x => ef_story x <> story) below.
Proof.
  induction l as [|x l IH]; [done|]. cbn. destruct (Nat.eqb_spec (ef_story x) story) as [Hx|Hx].
  - intros _. exists [], x, l. by repeat split.
  - intros H. destruct (IH H) as (below & e & above & -> & He & Hb). exists (x :: below), e, above. split; [done|]. split; [done|]. by constructor.
Qed.
Lemma checkCar_handled car r story b b' : board_inv b -> checkCar car r story b = Ok b' -> handled car story r b b'.
Proof.
  intros Hb. unfold checkCar, handled. destruct (storyApplied car (st_id story) b) eqn:Happ; destruct (is_true r) eqn:Ht; cbn [negb].
  - intros H. apply Ok_inj in H as <-. exists []. by rewrite app_nil_r.
  - unfold removeStory. rewrite bind_Ok. intros ([stack s] & Hr & H). apply Ok_inj in H as <-. cbn [board_stage set_stack].
    destruct (stack_of_inv car b Hb) as [Hnd _]. rewrite stack_of_set, decide_True by done.
    pose proof (removeEffectsByStory_skel _ _ _ _ _ Hnd Hr) as Hskel.
    assert (existsb (fun e => Nat.eqb (ef_story e) (st_id story)) (stack_of car b) = true) as Hon.
    { unfold storyApplied in Happ. unfold stack_of. by destruct (om_find car (m_affectedCars b)). }
    apply story_split in Hon as (below & e & above & Hst & He & Hbelow). rewrite Hst in Hr, Hnd.
    unfold removeEffectsByStory in Hr. rewrite List.filter_app in Hr.
    assert (List.filter (fun e => Nat.eqb (ef_story e) (st_id story)) below = []) as Hnone.
    { clear -Hbelow. induction Hbelow as [|x l Hx _ IH]; [done|]. cbn. by rewrite (proj2 (Nat.eqb_neq _ _) Hx). }
    rewrite Hnone in Hr. cbn [app List.filter] in Hr. rewrite (proj2 (Nat.eqb_eq _ _) He) in Hr. rewrite fmap_cons in Hr. cbn [res_fold] in Hr.
    apply bind_Ok in Hr as ([st1 s1] & H1 & Hr). cbn [fst snd] in H1. apply lowest_removed in H1 as (more & Hlog & Htop); [|done]. cbn in Hlog, Htop.
    assert (grows s1 s) as [more' Hmore].
    { pose (P := fun x : list Effect * stage => grows s1 x.2).
      change (P (stack, s)). eapply (res_fold_inv P) in Hr; [exact Hr| |unfold P; reflexivity].
      intros i [st t] x _ Hg Hx%stack_removeEffect_grows. unfold P in *. cbn in *. by etransitivity. }
    exists ((rev (e :: above) ≫= undo_commands) ++ more ++ more'). split; [by rewrite Hmore, Hlog, <- !app_assoc|]. split; [done|].
    exists below, e, above, (more ++ more'). repeat (split; [done|]). intros ->. destruct (Htop eq_refl) as [-> ->].
    cbn in Hr. apply Ok_inj in Hr. injection Hr as <- <-. split; [|done].
    rewrite <- (app_nil_r s1.2) in Hmore at 1. by apply app_inv_head in Hmore as <-.
  - cbv zeta. intros H. destruct (stack_of_inv car b Hb) as [_ Hlt]. set (b0 := mkStoryboard _ _ _ _ _ _) in H.
    unfold addEffect in H. destruct (create_effects _ _ _ _ _) as [|e l] eqn:Heff; [done|].
    assert (ef_car e = car) as Hcar.
    { apply (create_effects_spec (m_factories story) (next_effect b) car (st_id story) r). rewrite Heff. left. }
    destruct (_ || _); [|done]. rewrite Hcar, <- Heff in H. apply (add_effects_log _ _ _ _ _ b0) in H as (Hl & effects & Hst & Hf); [|exact Hlt].
    eexists. split; [exact Hl|]. split; [done|]. by exists effects.
  - intros H. apply Ok_inj in H as <-. exists []. by rewrite app_nil_r.
Qed.

(** ** The update *)
Section UpdateProofs.
Context (within : Position -> list Position -> bool) (sin cos : double -> double)
  (distance : Position -> Position -> double)
  (intersects : list Position -> list Position -> bool) (now : simtime).
Abbreviation test := (story_test within sin cos distance intersects now).
Abbreviation update := (updateStoryboard within sin cos distance intersects now).
Abbreviation pair := (update_pair within sin cos distance intersects now).

(** What a board and an updated board have in common. *)
Definition same_frame (b b' : Storyboard) : Prop :=
  m_stories b' = m_stories b /\ m_vehicles b' = m_vehicles b /\ board_views b' = board_views b.

Lemma update_pairs_spec l b b' :
  board_inv b -> om_wf (board_stage b).1 ->
  (forall p, p ∈ l -> m_factories p.2 <> []) ->
  NoDup ((fun p => (p.1, st_id p.2)) <$> l) ->
  res_fold pair l b = Ok b' ->
  board_inv b' /\ same_frame b b' /\
  (forall c st, (c, st) ∉ ((fun p => (p.1, st_id p.2)) <$> l) ->
     storyApplied c st b' = storyApplied c st b) /\
  (forall p, p ∈ l -> exists lim lim' r, test b p.2 p.1 lim = Ok (lim', r) /\
     storyApplied p.1 (st_id p.2) b' = is_true r).
Proof.
  revert b. induction l as [|[car story] l IH]; intros b Hinv Hwf Hf Hnd H.
  - apply Ok_inj in H as <-. split; [done|]. split; [done|]. split; [done|].
    by intros p Hp%not_elem_of_nil.
  - cbn [res_fold] in H. apply bind_Ok in H as (b1 & H1 & H).
    apply bind_Ok in H1 as ([lim r] & Ht & H1). cbn [fst snd] in Ht, H1.
    set (b0 := mkStoryboard _ _ _ _ _ _) in H1.
    destruct (checkCar_spec car r story b0 b1) as (Hinv1 & Happ & (Hst & Hve & Hoth));
      [exact Hinv|by apply (Hf (car, story)); left|exact H1|].
    apply checkCar_calm in H1. destruct (H1 Hwf) as (Hwf1 & Hv1 & _).
    assert (same_frame b b1) as (HA & HB & HC) by (split; [exact Hst|split; [exact Hve|exact Hv1]]).
    rewrite fmap_cons in Hnd. apply NoDup_cons in Hnd as [Hni Hnd]. cbn in Hni.
    destruct (IH b1) as (Hinv' & (HA' & HB' & HC') & Hkeep & Hall); try done.
    { intros p Hp. apply Hf. by right. }
    split; [done|]. split; [by split; [congruence|split; congruence]|]. split.
    + intros c st Hn. rewrite fmap_cons in Hn. apply not_elem_of_cons in Hn as [Hn1 Hn2].
      rewrite Hkeep by done. by apply Hoth.
    + intros p [->|Hp]%elem_of_cons.
      * exists (limits b), lim, r. split; [exact Ht|]. cbn. by rewrite Hkeep.
      * destruct (Hall p Hp) as (l1 & l2 & r' & Htest & Hr'). exists l1, l2, r'.
        split; [|done]. unfold story_test in *. by rewrite <- HB, <- HC.
Qed.

(** One after the other, each as [R] has it. *)
Fixpoint chain {A S} (R : S -> A -> S -> Prop) (l : list A) (s s' : S) : Prop :=
  match l with [] => s' = s | x :: l => exists s1, R s x s1 /\ chain R l s1 s' end.
Definition tested_and_handled (b : Storyboard) (p : vaddr * Story) (b' : Storyboard) : Prop :=
  exists lim r, test b p.2 p.1 (limits b) = Ok (lim, r) /\ limits b' = lim /\ handled p.1 p.2 r b b'.
Lemma checkCar_limits car r story b b' : checkCar car r story b = Ok b' -> limits b' = limits b.
Proof.
  unfold checkCar, removeStory, addEffect. destruct (storyApplied _ _ _); [destruct (negb _)|destruct (is_true r)]; cbv zeta; intros H.
  2, 4: by apply Ok_inj in H as <-.
  - apply bind_Ok in H as ([? ?] & _ & H). by apply Ok_inj in H as <-.
  - destruct (create_effects _ _ _ _ _) as [|e l]; [done|]. destruct (_ || _); [|done].
    pose (P := fun x : Storyboard => limits x = limits b). change (P b').
    eapply (res_fold_inv P) in H; [exact H| |done].
    intros e' x x' _ Hx (y & _ & H')%bind_Ok. destruct y. by apply Ok_inj in H' as <-.
Qed.
Lemma update_chain l b b' : board_inv b -> (forall p, p ∈ l -> m_factories p.2 <> []) ->
  res_fold pair l b = Ok b' -> chain tested_and_handled l b b' /\ calm (board_stage b) (board_stage b').
Proof.
  revert b. induction l as [|[car story] l IH]; intros b Hinv Hf H; cbn [res_fold] in H.
  - apply Ok_inj in H as <-. split; [done|apply calm_refl].
  - apply bind_Ok in H as (b1 & H1 & H). apply bind_Ok in H1 as ([lim r] & Ht & H1). cbn [fst snd] in Ht, H1.
    set (b0 := mkStoryboard _ _ _ _ _ _) in H1.
    destruct (checkCar_spec car r story b0 b1) as (Hinv1 & _); [exact Hinv|by apply (Hf (car, story)); left|exact H1|].
    destruct (IH b1) as [Hc Hcalm]; [done|intros p Hp; apply Hf; by right|done|]. split.
    + exists b1. split; [|done]. exists lim, r. split; [exact Ht|]. split; [by apply checkCar_limits in H1|].
      by apply (checkCar_handled car r story b0).
    + eapply calm_trans; [|exact Hcalm]. by apply checkCar_calm in H1.
Qed.

Lemma update_pairs_elem b p :
  p ∈ update_pairs b <-> p.1 ∈ (m_vehicles b).*2 /\ p.2 ∈ m_stories b.
Proof.
  unfold update_pairs. rewrite list_elem_of_bind. split.
  - intros (v & (s & -> & Hs)%list_elem_of_fmap & Hv). done.
  - intros [Hv Hs]. destruct p as [v s]. exists v. split; [|done].
    apply list_elem_of_fmap. by exists s.
Qed.

Lemma update_pairs_NoDup b :
  NoDup (st_id <$> m_stories b) -> NoDup (m_vehicles b).*2 ->
  NoDup ((fun p => (p.1, st_id p.2)) <$> update_pairs b).
Proof.
  intros Hs Hv. unfold update_pairs. set (vs := (m_vehicles b).*2) in *. clearbody vs.
  induction Hv as [|v vs Hn Hv IH]; [constructor|]. cbn [mbind list_bind]. rewrite fmap_app.
  apply NoDup_app. rewrite <- list_fmap_compose. split.
  - change (NoDup (((fun s => (v, s)) ∘ st_id) <$> m_stories b)). rewrite list_fmap_compose.
    apply NoDup_fmap_2; [|done]. intros ? ? [=]. done.
  - split; [|exact IH]. intros x (s & -> & Hx)%list_elem_of_fmap (p & Hp & Hin)%list_elem_of_fmap.
    apply list_elem_of_bind in Hin as (v' & (s' & -> & _)%list_elem_of_fmap & Hv').
    cbn in Hp. injection Hp as -> _. done.
Qed.

End UpdateProofs.

(** ** Removal from the middle of a stack *)
(** Undoing effects one after the other. *)
Definition undo_all (l : list Effect) (s : stage) : res stage :=
  res_fold (fun s e => removeEffect_of e s) l s.

Lemma remove_loop_found id above e rest passed s s' :
  id ∉ (ef_id <$> above) -> ef_id e = id ->
  undo_all (above ++ [e]) s = Ok s' ->
  remove_loop id (above ++ e :: rest) passed s = Ok (rest, rev above ++ passed, true, s').
Proof.
  intros Hn He. revert passed s. induction above as [|x above IH]; intros passed s Hu.
  - cbn in Hu |- *. apply bind_Ok in Hu as (s1 & -> & Hu). apply Ok_inj in Hu as ->. cbn.
    by rewrite (proj2 (Nat.eqb_eq _ _) He).
  - cbn in Hu |- *. apply bind_Ok in Hu as (s1 & -> & Hu). cbn.
    destruct (Nat.eqb_spec (ef_id x) id) as [Hx|_]; [exfalso; set_solver|].
    rewrite <- app_assoc. cbn. apply IH; [set_solver|exact Hu].
Qed.

(** Removing an effect that has others above it undoes those (from the top)
    and then the effect itself.  The undone ones are put into effect again only if
    the removed effect was the bottom of the stack; otherwise they stay on the
    stack without being in effect, since the loop meant to skip the untouched
    effects below never counts. *)
Theorem middle_removal below e above s s1 :
  above <> [] -> NoDup (ef_id <$> (below ++ e :: above)) ->
  Z.of_nat (length (below ++ e :: above)) < 2 ^ 32 ->
  undo_all (rev above ++ [e]) s = Ok s1 ->
  stack_removeEffect (ef_id e) (below ++ e :: above) s =
    match below with
    | [] => reapply_all above s1
    | _ => Ok (below ++ above, s1)
    end.
Proof.
  intros Ha Hnd Hlen Hu.
  assert (ef_id e ∉ (ef_id <$> rev above)) as Hn.
  { rewrite elem_of_fmap_rev. rewrite fmap_app, fmap_cons in Hnd.
    by apply NoDup_app in Hnd as (_ & _ & [? _]%NoDup_cons). }
  assert (removeFromMiddle (ef_id e) (below ++ e :: above) s =
    match below with [] => reapply_all above s1 | _ => Ok (below ++ above, s1) end) as Hmid.
  { unfold removeFromMiddle. rewrite rev_app_distr. cbn [rev]. rewrite <- app_assoc. cbn [app].
    rewrite (remove_loop_found _ _ _ _ _ _ _ Hn eq_refl Hu). cbn [mbind res_bind].
    rewrite app_nil_r, !rev_involutive. rewrite length_app in Hlen. cbn [length] in Hlen.
    rewrite u32_small by lia. rewrite length_app. unfold u64, wrap.
    rewrite Z.mod_small by lia. destruct below as [|x below].
    { cbn [length app]. rewrite Z.sub_diag. reflexivity. }
    cbn [length]. destruct (Z.leb_spec (Z.of_nat (S (length below) + length above) - Z.of_nat (length above)) 0);
      [lia|done]. }
  unfold stack_removeEffect. rewrite last_app_cons. destruct above as [|x above] using rev_ind; [done|].
  rewrite app_comm_cons, last_snoc. destruct (Nat.eqb_spec (ef_id x) (ef_id e)) as [Heq|_]; [|done].
  exfalso. apply Hn. rewrite elem_of_fmap_rev, fmap_app, <- Heq. set_solver.
Qed.

(** ** Witnesses and examples *)
Definition ex_state (id : string) (v limit : Z) : VehicleState :=
  mkVehicle (ex_view id v) (d_of_Z limit) None.
(** Two vehicles; one story halts fast vehicles, the other slows down everyone
    within a time window. *)
Definition ex_halt := mkStory 0 (SpeedConditionGreater (d_of_Z 15)) [StopEffectFactory].
Definition ex_slow :=
  mkStory 1 (AndCondition (TimeCondition 5 9) (LimitCondition 0 1))
    [SpeedEffectFactory (d_of_Z 8); SignalEffectFactory "slow"].
Definition ex_board : Storyboard :=
  registerStory ex_slow (registerStory ex_halt
    (storyboard_addNode "b" true 2 (storyboard_addNode "a" true 1
       (mkStoryboard [] [] [] [] 0 ([(1%nat, ex_state "a" 10 50); (2%nat, ex_state "b" 20 60)], []))))).
Definition ex_update (now : Z) (b : Storyboard) : res Storyboard :=
  updateStoryboard ex_within ex_trig ex_trig ex_distance ex_meet now b.
Definition ex_after : Storyboard := match ex_update 7 ex_board with Ok b => b | Fail _ => ex_board end.

Lemma ex_after_run : ex_update 7 ex_board = Ok ex_after.
Proof. vm_compute. reflexivity. Qed.


Definition ex_effect (id : nat) (speed current : Z) : Effect :=
  mkEffect id id 1 (SpeedEffect (d_of_Z speed) (d_of_Z current)).
Definition ex_stage : stage := ([(1%nat, ex_state "a" 10 50)], []).

(** The stack 30 / 20 / 10 over the original 50: without the middle effect the
    vehicle may drive at 30 although the effect 10 is still on the stack. *)
Lemma middle_removal_witness :
  exists s1, (fun v => sumo_max_speed v) <$> om_find 1%nat s1.1 = Some (d_of_Z 30) /\
    stack_removeEffect 1 [ex_effect 0 30 50; ex_effect 1 20 30; ex_effect 2 10 20] ex_stage
      = Ok ([ex_effect 0 30 50; ex_effect 2 10 20], s1).
Proof.
  eexists. split.
  2: { apply (middle_removal [ex_effect 0 30 50] (ex_effect 1 20 30) [ex_effect 2 10 20] ex_stage).
       - done.
       - repeat constructor; set_solver.
       - reflexivity.
       - vm_compute. reflexivity. }
  vm_compute. reflexivity.
Defined.

(** Two speed effects applied within one step: the second one saves the maximum
    speed as it was before the first, since the read goes through a cache the
    write does not update.  Removing the upper effect restores 50, not 30. *)
Example stale_max_speed :
  (r ← stack_addEffect (ex_effect 0 30 0) [] ex_stage;
   let '(stack, s) := r : list Effect * stage in
   r ← stack_addEffect (ex_effect 1 10 0) stack s;
   let '(stack, s) := r : list Effect * stage in
   r ← stack_removeEffect 1 stack s;
   let '(stack, s) := r : list Effect * stage in
   Ok (ef_id <$> stack, sumo_max_speed <$> om_find 1%nat s.1)) = Ok ([0%nat], Some (d_of_Z 50)).
Proof. vm_compute. reflexivity. Qed.

(** Removing a node leaves its entry among the affected cars: a vehicle allocated
    at the same address counts as affected before any condition was tested. *)
Example reused_address :
  storyApplied 2 0 (storyboard_addNode "z" true 2 (storyboard_removeNode "b" ex_after)) = true.
Proof. vm_compute. reflexivity. Qed.
