(* ===== verification/TraciCache.v ===== *)
(** * TraCI variables and subscriptions

    [src/src/traci/VariableCache.*, ValueUtils.*, CheckTimeSync.cc,
    BasicSubscriptionManager.cc]: values of the traffic simulator are read through
    caches, one per vehicle and one for the simulation, which are refilled in every
    step with the results of the variables subscribed to.  What the simulator
    answers is a parameter ([LiteAPI]); the subscription commands sent to it are
    logged.  There is one shared cache object per vehicle id, never released, so
    that a cache is identified by its id. *)

From S2P Require Import Prelude OMap Float64.

(** ** Variables and values *)
Inductive value_type := TDouble | TInt | TPosition | TString | TStringList.

Inductive TraCIResult :=
| TraCIDouble (value : double)
| TraCIInt (value : Z)
| TraCIPosition (x y z : double)
| TraCIString (value : string)
| TraCIStringList (value : list string)
| TraCIColor (r g b a : Z).

(** The variables with a [VariableTrait]. *)
Inductive variable :=
| VAR_SPEED | VAR_POSITION | VAR_ANGLE | VAR_MAXSPEED | VAR_TYPE | VAR_VEHICLECLASS
| VAR_LENGTH | VAR_WIDTH | VAR_ARRIVED_VEHICLES_IDS | VAR_DEPARTED_VEHICLES_IDS
| VAR_DELTA_T | VAR_TELEPORT_STARTING_VEHICLES_IDS | VAR_TIME | VAR_TIME_STEP | VAR_SIGNALS.

#[export] Instance variable_eq_dec : EqDecision variable.
Proof. solve_decision. Defined.

Definition var_code (v : variable) : Z :=
  match v with
  | VAR_SPEED => 0x40 | VAR_POSITION => 0x42 | VAR_ANGLE => 0x43 | VAR_MAXSPEED => 0x41
  | VAR_TYPE => 0x4f | VAR_VEHICLECLASS => 0x49 | VAR_LENGTH => 0x44 | VAR_WIDTH => 0x4d
  | VAR_ARRIVED_VEHICLES_IDS => 0x7a | VAR_DEPARTED_VEHICLES_IDS => 0x74
  | VAR_DELTA_T => 0x7b | VAR_TELEPORT_STARTING_VEHICLES_IDS => 0x76
  | VAR_TIME => 0x66 | VAR_TIME_STEP => 0x70 | VAR_SIGNALS => 0x5b
  end.

Definition VariableTrait (v : variable) : value_type :=
  match v with
  | VAR_SPEED | VAR_ANGLE | VAR_MAXSPEED | VAR_LENGTH | VAR_WIDTH | VAR_DELTA_T | VAR_TIME => TDouble
  | VAR_POSITION => TPosition
  | VAR_TYPE | VAR_VEHICLECLASS => TString
  | VAR_ARRIVED_VEHICLES_IDS | VAR_DEPARTED_VEHICLES_IDS
  | VAR_TELEPORT_STARTING_VEHICLES_IDS => TStringList
  | VAR_TIME_STEP | VAR_SIGNALS => TInt
  end.

Definition CMD_GET_VEHICLE_VARIABLE : Z := 0xa4.
Definition CMD_GET_SIM_VARIABLE : Z := 0xab.

(** Values by variable code ([libsumo::TraCIResults]). *)
Abbreviation TraCIResults := (list (Z * TraCIResult)) (only parsing).

(** Subscription commands sent to the simulator. *)
Inductive subscription :=
| SubscribeVehicle (id : string) (vars : list Z)
| SubscribeSimulation (vars : list Z).

(** What the traffic simulator answers, at one moment, to a command, a variable
    and an object id; which vehicles are running; whether it accepts a
    subscription; and the subscription results the client has for an object, given
    the subscriptions made so far. *)
Record LiteAPI := mkApi {
  getDouble : Z -> Z -> string -> res double;
  getInt : Z -> Z -> string -> res Z;
  getPosition : Z -> Z -> string -> res (double * double * double);
  getString : Z -> Z -> string -> res string;
  getStringVector : Z -> Z -> string -> res (list string);
  getIDList : list string;
  subscribe : subscription -> res unit;
  vehicle_results : list subscription -> string -> list (Z * TraCIResult);
  simulation_results : list subscription -> list (Z * TraCIResult)
}.

(** ** VariableCache *)
Record VariableCache := mkCache {
  m_id : string;
  m_command : Z;
  m_values : list (Z * TraCIResult)
}.

Definition SimulationCache : VariableCache := mkCache "" CMD_GET_SIM_VARIABLE [].
Definition VehicleCache (id : string) : VariableCache := mkCache id CMD_GET_VEHICLE_VARIABLE [].

Definition cache_reset (values : TraCIResults) (c : VariableCache) : VariableCache :=
  mkCache (m_id c) (m_command c) values.

(** [make_value(retrieve<value_type>(VAR))] *)
Definition retrieve (api : LiteAPI) (v : variable) (c : VariableCache) : res TraCIResult :=
  let cmd := m_command c in
  let var := var_code v in
  let id := m_id c in
  match VariableTrait v with
  | TDouble => TraCIDouble <$> getDouble api cmd var id
  | TInt => TraCIInt <$> getInt api cmd var id
  | TPosition => (fun '(x, y, z) => TraCIPosition x y z) <$> getPosition api cmd var id
  | TString => TraCIString <$> getString api cmd var id
  | TStringList => TraCIStringList <$> getStringVector api cmd var id
  end.

Definition has_type (t : value_type) (r : TraCIResult) : bool :=
  match t, r with
  | TDouble, TraCIDouble _ | TInt, TraCIInt _ | TPosition, TraCIPosition _ _ _
  | TString, TraCIString _ | TStringList, TraCIStringList _ => true
  | _, _ => false
  end.

(** [getPtr]: a null pointer when the stored value has another type. *)
Definition getPtr (api : LiteAPI) (v : variable) (c : VariableCache) :
    res (option TraCIResult * VariableCache) :=
  x ← match om_find (var_code v) (m_values c) with
      | Some r => Ok (r, c)
      | None =>
          r ← retrieve api v c;
          Ok (r, mkCache (m_id c) (m_command c) (om_set (var_code v) r (m_values c)))
      end;
  let '(r, c) := x : TraCIResult * VariableCache in
  Ok (if has_type (VariableTrait v) r then Some r else None, c).

(** [get]: the value, with the assertion of [get_value]. *)
Definition get (api : LiteAPI) (v : variable) (c : VariableCache) : res (TraCIResult * VariableCache) :=
  x ← getPtr api v c;
  let '(r, c) := x : option TraCIResult * VariableCache in
  match r with
  | Some r => Ok (r, c)
  | None => Fail (AssertFailed "ptr")
  end.

Definition get_double (api : LiteAPI) (v : variable) (c : VariableCache) : res (double * VariableCache) :=
  x ← get api v c;
  match x with
  | (TraCIDouble d, c) => Ok (d, c)
  | _ => Fail (AssertFailed "ptr != nullptr")
  end.

Definition get_strings (api : LiteAPI) (v : variable) (c : VariableCache) :
    res (list string * VariableCache) :=
  x ← get api v c;
  match x with
  | (TraCIStringList l, c) => Ok (l, c)
  | _ => Fail (AssertFailed "ptr != nullptr")
  end.

Definition get_position (api : LiteAPI) (v : variable) (c : VariableCache) :
    res (double * double * double * VariableCache) :=
  x ← get api v c;
  match x with
  | (TraCIPosition px py pz, c) => Ok (px, py, pz, c)
  | _ => Fail (AssertFailed "ptr != nullptr")
  end.

(** Reading a value: a stored value is returned without asking the simulator; a
    missing one is asked for once and stored. *)
Lemma get_spec api v c r c' :
  get api v c = Ok (r, c') ->
  has_type (VariableTrait v) r = true /\ om_find (var_code v) (m_values c') = Some r /\
  (forall k, k <> var_code v -> om_find k (m_values c') = om_find k (m_values c)) /\
  (om_find (var_code v) (m_values c) = Some r /\ c' = c \/
   om_find (var_code v) (m_values c) = None /\ retrieve api v c = Ok r) /\
  m_id c' = m_id c /\ m_command c' = m_command c.
Proof.
  unfold get, getPtr. destruct (om_find (var_code v) (m_values c)) as [x|] eqn:Hf; cbn.
  - destruct (has_type _ x) eqn:Ht; cbn; [|done]. intros [= <- <-].
    repeat split; try done. by left.
  - destruct (retrieve api v c) as [x|e] eqn:Hr; cbn; [|done].
    destruct (has_type _ x) eqn:Ht; cbn; [|done]. intros [= <- <-]. cbn.
    repeat split; try done; [apply om_find_set_eq| |by right].
    intros k Hk. by apply om_find_set_ne.
Qed.

Lemma var_code_inj v v' : var_code v = var_code v' -> v = v'.
Proof. by destruct v, v'. Qed.

(** A variable cache reads through: a value that has been read once is
    returned again, whatever the simulator would answer and whichever other
    variables are read in between, until the cache is reset; after a reset the
    values are those given, and only the missing ones are asked for. *)
Theorem cache_reads_through api v c r c1 l :
  get api v c = Ok (r, c1) ->
  (forall c2, res_fold (fun c (x : LiteAPI * variable) => snd <$> get x.1 x.2 c) l c1 = Ok c2 ->
     forall api', get api' v c2 = Ok (r, c2)) /\
  (forall values, om_find (var_code v) values = Some r ->
     forall api', get api' v (cache_reset values c1) = Ok (r, cache_reset values c1)) /\
  (forall values, om_find (var_code v) values = None ->
     forall api' x, retrieve api' v c = Ok x -> has_type (VariableTrait v) x = true ->
     exists c2, get api' v (cache_reset values c1) = Ok (x, c2)).
Proof.
  intros Hget. apply get_spec in Hget as (Ht & Hf & _ & _ & Hid & Hcmd).
  assert (forall api' c, om_find (var_code v) (m_values c) = Some r -> get api' v c = Ok (r, c)) as Hhit.
  { intros api' c0 H0. unfold get, getPtr. rewrite H0. cbn. by rewrite Ht. }
  split; [|split].
  - intros c2 Hl api'. apply Hhit.
    pose (P := fun c => om_find (var_code v) (m_values c) = Some r).
    eapply (res_fold_inv P) in Hl; [exact Hl| |exact Hf].
    intros [a v'] t t' _ HP Hstep. cbn in Hstep. apply fmap_Ok in Hstep as ([x c'] & Hg & <-).
    apply get_spec in Hg as (_ & Hx & Hother & Hcase & _). unfold P in *. cbn.
    destruct (decide (v' = v)) as [->|Hne].
    + destruct Hcase as [[_ ->]|[Hn _]]; [done|congruence].
    + rewrite Hother; [done|]. intros Heq. by apply var_code_inj in Heq.
  - intros values Hv api'. by apply Hhit.
  - intros values Hv api' x Hr Hx. eexists. unfold get, getPtr. cbn [m_values cache_reset].
    rewrite Hv. unfold retrieve in *. cbn [m_command m_id cache_reset].
    rewrite Hid, Hcmd, Hr. cbn. rewrite Hx. reflexivity.
Qed.

(** ** checkTimeSync *)
Definition checkTimeSync (dbl : simtime -> double) (api : LiteAPI) (cache : VariableCache)
    (time : simtime) : res (bool * VariableCache) :=
  x ← get_double api VAR_TIME cache;
  let '(t, cache) := x : double * VariableCache in
  let deviation := dsub t (dbl time) in
  y ← get_double api VAR_DELTA_T cache;
  let '(delta, cache) := y : double * VariableCache in
  let threshold := dmul (d_lit 1 100) delta in
  Ok (dltb (dabs deviation) threshold, cache).

(** ** BasicSubscriptionManager *)
(** [std::set_union] of two sorted ranges. *)
Fixpoint set_union (l1 : list Z) : list Z -> list Z :=
  match l1 with
  | [] => fun l2 => l2
  | a :: l1' =>
      fix merge (l2 : list Z) : list Z :=
        match l2 with
        | [] => l1
        | b :: l2' =>
            if b <? a then b :: merge l2'
            else if a <? b then a :: set_union l1' l2
            else a :: set_union l1' l2'
        end
  end.

Record BasicSubscriptionManager := mkSubscriptionManager {
  m_subscribed_vehicles : list string;
  m_vehicle_vars : list Z;
  m_sim_vars : list Z;
  m_vehicle_caches : list (string * VariableCache);
  m_sim_cache : VariableCache;
  subscriptions : list subscription
}.

Definition subscription_manager_init : BasicSubscriptionManager :=
  mkSubscriptionManager [] [] [] [] SimulationCache [].

Definition with_subscription (c : subscription) (s : BasicSubscriptionManager) :
    BasicSubscriptionManager :=
  mkSubscriptionManager (m_subscribed_vehicles s) (m_vehicle_vars s) (m_sim_vars s)
    (m_vehicle_caches s) (m_sim_cache s) (subscriptions s ++ [c]).
Definition with_subscribed (l : list string) (s : BasicSubscriptionManager) : BasicSubscriptionManager :=
  mkSubscriptionManager l (m_vehicle_vars s) (m_sim_vars s) (m_vehicle_caches s) (m_sim_cache s)
    (subscriptions s).
Definition with_caches (l : list (string * VariableCache)) (c : VariableCache)
    (s : BasicSubscriptionManager) : BasicSubscriptionManager :=
  mkSubscriptionManager (m_subscribed_vehicles s) (m_vehicle_vars s) (m_sim_vars s) l c
    (subscriptions s).

Section Subscriptions.
(** The iteration order of the unordered set of subscribed vehicles, and
    [SimTime::dbl]. *)
Variable order : list string -> list string.
Variable dbl : simtime -> double.

Definition updateVehicleSubscription (api : LiteAPI) (id : string) (vars : list Z)
    (s : BasicSubscriptionManager) : res BasicSubscriptionManager :=
  subscribe api (SubscribeVehicle id vars) ;; Ok (with_subscription (SubscribeVehicle id vars) s).

Definition subscribeVehicle (api : LiteAPI) (s : BasicSubscriptionManager) (id : string) :
    res BasicSubscriptionManager :=
  s ← match m_vehicle_vars s with
      | [] => Ok s
      | vars => updateVehicleSubscription api id vars s
      end;
  Ok (with_subscribed
        (if decide (id ∈ m_subscribed_vehicles s) then m_subscribed_vehicles s
         else m_subscribed_vehicles s ++ [id]) s).

Definition unsubscribeVehicle (api : LiteAPI) (id : string) (vehicle_exists : bool)
    (s : BasicSubscriptionManager) : res BasicSubscriptionManager :=
  s ← (if vehicle_exists && negb (bool_decide (m_vehicle_vars s = []))
       then updateVehicleSubscription api id [] s else Ok s);
  Ok (with_subscribed (filter (fun x => x <> id) (m_subscribed_vehicles s)) s).

Definition subscribeVehicleVariables (api : LiteAPI) (add_vars : list Z)
    (s : BasicSubscriptionManager) : res BasicSubscriptionManager :=
  let tmp_vars := m_vehicle_vars s in
  let vars := set_union (m_vehicle_vars s) add_vars in
  let s := mkSubscriptionManager (m_subscribed_vehicles s) vars (m_sim_vars s)
             (m_vehicle_caches s) (m_sim_cache s) (subscriptions s) in
  assert_ "m_vehicle_vars.size() >= tmp_vars.size()" (length tmp_vars <=? length vars)%nat ;;
  if negb (Nat.eqb (length vars) (length tmp_vars))
  then res_fold (fun s vehicle => updateVehicleSubscription api vehicle vars s)
         (order (m_subscribed_vehicles s)) s
  else Ok s.

Definition subscribeSimulationVariables (api : LiteAPI) (add_vars : list Z)
    (s : BasicSubscriptionManager) : res BasicSubscriptionManager :=
  let tmp_vars := m_sim_vars s in
  let vars := set_union (m_sim_vars s) add_vars in
  let s := mkSubscriptionManager (m_subscribed_vehicles s) (m_vehicle_vars s) vars
             (m_vehicle_caches s) (m_sim_cache s) (subscriptions s) in
  assert_ "m_sim_vars.size() >= tmp_vars.size()" (length tmp_vars <=? length vars)%nat ;;
  if negb (Nat.eqb (length vars) (length tmp_vars))
  then subscribe api (SubscribeSimulation vars) ;; Ok (with_subscription (SubscribeSimulation vars) s)
  else Ok s.

(** The static set of [traciInit], in increasing order. *)
Definition init_simulation_vars : list Z := [0x66; 0x74; 0x76; 0x7a; 0x7b].

Definition subscriptions_traciInit (api : LiteAPI) (s : BasicSubscriptionManager) :
    res BasicSubscriptionManager :=
  s ← subscribeSimulationVariables api init_simulation_vars s;
  res_fold (subscribeVehicle api) (getIDList api) s.

Definition getVehicleCache (id : string) (s : BasicSubscriptionManager) :
    VariableCache * BasicSubscriptionManager :=
  match om_find id (m_vehicle_caches s) with
  | Some c => (c, s)
  | None =>
      let c := VehicleCache id in
      (c, with_caches (om_set id c (m_vehicle_caches s)) (m_sim_cache s) s)
  end.

(** Resetting the cache of one vehicle, the body of the last loop of [step]. *)
Definition reset_vehicle (api : LiteAPI) (s : BasicSubscriptionManager) (vehicle : string) :
    BasicSubscriptionManager :=
  let vars := vehicle_results api (subscriptions s) vehicle in
  let '(c, s) := getVehicleCache vehicle s in
  with_caches (om_set vehicle (cache_reset vars c) (m_vehicle_caches s)) (m_sim_cache s) s.

Definition subscriptions_step (api : LiteAPI) (now : simtime) (s : BasicSubscriptionManager) :
    res BasicSubscriptionManager :=
  let simvars := simulation_results api (subscriptions s) in
  let c := cache_reset simvars (m_sim_cache s) in
  x ← checkTimeSync dbl api c now;
  let '(sync, c) := x : bool * VariableCache in
  assert_ "checkTimeSync" sync ;;
  y ← get_strings api VAR_ARRIVED_VEHICLES_IDS c;
  let '(arrivedVehicles, c) := y : list string * VariableCache in
  s ← res_fold (fun s id => unsubscribeVehicle api id false s) arrivedVehicles s;
  y ← get_strings api VAR_DEPARTED_VEHICLES_IDS c;
  let '(departedVehicles, c) := y : list string * VariableCache in
  s ← res_fold (subscribeVehicle api) departedVehicles (with_caches (m_vehicle_caches s) c s);
  Ok (foldl (reset_vehicle api) s (order (m_subscribed_vehicles s))).
End Subscriptions.

(** ** Sorted unions *)
Lemma set_union_nil_r l : set_union l [] = l.
Proof. by destruct l. Qed.

Lemma set_union_cons a l1 b l2 :
  set_union (a :: l1) (b :: l2) =
    if b <? a then b :: set_union (a :: l1) l2
    else if a <? b then a :: set_union l1 (b :: l2) else a :: set_union l1 l2.
Proof. done. Qed.

Lemma set_union_ind (P : list Z -> list Z -> Prop) :
  (forall l, P [] l) -> (forall l, P l []) ->
  (forall a l1 b l2, b < a -> P (a :: l1) l2 -> P (a :: l1) (b :: l2)) ->
  (forall a l1 b l2, a < b -> P l1 (b :: l2) -> P (a :: l1) (b :: l2)) ->
  (forall a l1 l2, P l1 l2 -> P (a :: l1) (a :: l2)) ->
  forall l1 l2, P l1 l2.
Proof.
  intros H1 H2 H3 H4 H5 l1. induction l1 as [|a l1 IH1]; intros l2; [apply H1|].
  induction l2 as [|b l2 IH2]; [apply H2|].
  destruct (Z.lt_trichotomy a b) as [Hlt|[->|Hlt]]; [by apply H4|by apply H5|by apply H3].
Qed.

Lemma set_union_elem l1 l2 x : x ∈ set_union l1 l2 <-> x ∈ l1 \/ x ∈ l2.
Proof.
  revert l1 l2. apply set_union_ind; intros *.
  - cbn. set_solver.
  - rewrite set_union_nil_r. set_solver.
  - intros Hlt IH. rewrite set_union_cons. zcases; try lia. set_solver.
  - intros Hlt IH. rewrite set_union_cons. zcases; try lia. set_solver.
  - intros IH. rewrite set_union_cons. zcases; try lia. set_solver.
Qed.

Lemma set_union_sorted l1 l2 :
  StronglySorted Z.lt l1 -> StronglySorted Z.lt l2 -> StronglySorted Z.lt (set_union l1 l2).
Proof.
  revert l1 l2. apply (set_union_ind (fun l1 l2 =>
    StronglySorted Z.lt l1 -> StronglySorted Z.lt l2 -> StronglySorted Z.lt (set_union l1 l2)));
    intros *.
  - done.
  - by rewrite set_union_nil_r.
  - intros Hlt IH Ha Hb. inversion_clear Ha as [|? ? Ha1 Ha2]. inversion_clear Hb as [|? ? Hb1 Hb2].
    rewrite Forall_forall in *. rewrite set_union_cons. zcases; try lia.
    constructor; [apply IH; [constructor; [done|by apply Forall_forall]|done]|].
    apply Forall_forall. intros x [[->|Hx]%elem_of_cons|Hx]%set_union_elem; [done| |auto].
    specialize (Ha2 x Hx). lia.
  - intros Hlt IH Ha Hb. inversion_clear Ha as [|? ? Ha1 Ha2].
    pose proof Hb as Hb'. inversion_clear Hb as [|? ? Hb1 Hb2].
    rewrite Forall_forall in *. rewrite set_union_cons. zcases; try lia.
    constructor; [by apply IH|].
    apply Forall_forall. intros x [Hx|[->|Hx]%elem_of_cons]%set_union_elem; [auto|done|].
    specialize (Hb2 x Hx). lia.
  - intros IH Ha Hb. inversion_clear Ha as [|? ? Ha1 Ha2]. inversion_clear Hb as [|? ? Hb1 Hb2].
    rewrite Forall_forall in *. rewrite set_union_cons. zcases; try lia.
    constructor; [by apply IH|].
    apply Forall_forall. intros x [Hx|Hx]%set_union_elem; auto.
Qed.

Lemma set_union_sublist l1 l2 : l1 `sublist_of` set_union l1 l2.
Proof.
  revert l1 l2. apply set_union_ind; intros *; [apply sublist_nil_l|by rewrite set_union_nil_r| | |];
    intros; rewrite set_union_cons; zcases; try lia; by constructor.
Qed.

Lemma sublist_length_eq {A} (l k : list A) : l `sublist_of` k -> length k = length l -> k = l.
Proof.
  induction 1 as [|x l k Hs IH|x l k Hs IH]; cbn; [done|intros [= ?]; by rewrite IH|].
  intros Hl. apply sublist_length in Hs. lia.
Qed.

(** ** Invariant of the subscriptions *)
Definition current_vehicle (id : string) (log : list subscription) : option (list Z) :=
  foldl (fun acc c => match c with
    | SubscribeVehicle i vars => if decide (i = id) then Some vars else acc
    | SubscribeSimulation _ => acc end) None log.
Definition current_simulation (log : list subscription) : option (list Z) :=
  foldl (fun acc c => match c with
    | SubscribeVehicle _ _ => acc | SubscribeSimulation vars => Some vars end) None log.

Arguments current_vehicle : simpl never.
Arguments current_simulation : simpl never.

(** Every subscribed vehicle, and the simulation, is subscribed with exactly the
    variables wanted. *)
Record sub_inv (s : BasicSubscriptionManager) : Prop := {
  inv_vehicle_vars : StronglySorted Z.lt (m_vehicle_vars s);
  inv_sim_vars : StronglySorted Z.lt (m_sim_vars s);
  inv_subscribed : NoDup (m_subscribed_vehicles s);
  inv_vehicles : forall id, id ∈ m_subscribed_vehicles s -> m_vehicle_vars s <> [] ->
    current_vehicle id (subscriptions s) = Some (m_vehicle_vars s);
  inv_simulation : m_sim_vars s <> [] ->
    current_simulation (subscriptions s) = Some (m_sim_vars s)
}.

Lemma current_vehicle_snoc id log c :
  current_vehicle id (log ++ [c]) =
    match c with
    | SubscribeVehicle i vars => if decide (i = id) then Some vars else current_vehicle id log
    | SubscribeSimulation _ => current_vehicle id log
    end.
Proof. unfold current_vehicle. rewrite foldl_app. by destruct c. Qed.

Lemma current_simulation_snoc log c :
  current_simulation (log ++ [c]) =
    match c with SubscribeVehicle _ _ => current_simulation log | SubscribeSimulation vars => Some vars end.
Proof. unfold current_simulation. rewrite foldl_app. by destruct c. Qed.

(** What subscribing never touches. *)
Definition same_vars (s s' : BasicSubscriptionManager) : Prop :=
  m_vehicle_vars s' = m_vehicle_vars s /\ m_sim_vars s' = m_sim_vars s /\
  m_vehicle_caches s' = m_vehicle_caches s /\ m_sim_cache s' = m_sim_cache s.

Lemma same_vars_trans s1 s2 s3 : same_vars s1 s2 -> same_vars s2 s3 -> same_vars s1 s3.
Proof. unfold same_vars. intros (? & ? & ? & ?) (? & ? & ? & ?). repeat split; congruence. Qed.

Lemma updateVehicleSubscription_Ok api id vars s s' :
  updateVehicleSubscription api id vars s = Ok s' ->
  s' = with_subscription (SubscribeVehicle id vars) s.
Proof. unfold updateVehicleSubscription. rewrite bind_Ok. by intros ([] & _ & [= <-]). Qed.

Lemma subscribeVehicle_spec api s id s' :
  sub_inv s -> subscribeVehicle api s id = Ok s' ->
  sub_inv s' /\ same_vars s s' /\
  (forall x, x ∈ m_subscribed_vehicles s' <-> x = id \/ x ∈ m_subscribed_vehicles s).
Proof.
  intros [Hv Hs Hnd Hc Hsim]. unfold subscribeVehicle. rewrite bind_Ok. intros (s1 & H1 & H).
  apply Ok_inj in H as <-.
  assert (s1 = s /\ m_vehicle_vars s = [] \/
          s1 = with_subscription (SubscribeVehicle id (m_vehicle_vars s)) s) as Hs1.
  { destruct (m_vehicle_vars s) eqn:E; [left; by apply Ok_inj in H1|right].
    by apply updateVehicleSubscription_Ok in H1. }
  assert (m_subscribed_vehicles s1 = m_subscribed_vehicles s /\ same_vars s s1) as [Hsub Hsame]
    by (destruct Hs1 as [[-> _]| ->]; done).
  destruct Hsame as (HA & HB & HC & HD).
  assert (forall x, x ∈ (if decide (id ∈ m_subscribed_vehicles s1) then m_subscribed_vehicles s1
                         else m_subscribed_vehicles s1 ++ [id]) <->
                    x = id \/ x ∈ m_subscribed_vehicles s) as Helem.
  { intros x. rewrite Hsub. case_decide; set_solver. }
  split; [|split; [done|exact Helem]]. split; cbn; rewrite ?HA, ?HB.
  - done.
  - done.
  - rewrite Hsub. destruct (decide (id ∈ m_subscribed_vehicles s)) as [Hin|Hin]; [exact Hnd|]. apply NoDup_app. split; [exact Hnd|].
    split; [set_solver|apply NoDup_singleton].
  - intros x Hx%Helem Hne. destruct Hs1 as [[_ ?]| ->]; [done|]. cbn. rewrite current_vehicle_snoc.
    destruct (decide (id = x)); [done|]. apply Hc; [naive_solver|done].
  - intros Hne. destruct Hs1 as [[-> _]| ->]; [by apply Hsim|]. cbn.
    rewrite current_simulation_snoc. by apply Hsim.
Qed.

Lemma subscribe_all_spec api ids s s' :
  sub_inv s -> res_fold (subscribeVehicle api) ids s = Ok s' ->
  sub_inv s' /\ same_vars s s' /\
  (forall x, x ∈ m_subscribed_vehicles s' <-> x ∈ ids \/ x ∈ m_subscribed_vehicles s).
Proof.
  revert s. induction ids as [|id ids IH]; intros s Hinv H.
  - apply Ok_inj in H as <-. repeat split; try apply Hinv; set_solver.
  - cbn [res_fold] in H. apply bind_Ok in H as (s1 & H1 & H).
    apply subscribeVehicle_spec in H1 as (Hinv1 & Hsame1 & He1); [|done].
    apply IH in H as (Hinv' & Hsame' & He'); [|done].
    split; [done|]. split; [by eapply same_vars_trans|]. intros x. rewrite He', He1. set_solver.
Qed.

Lemma unsubscribe_all_spec api ids s s' :
  sub_inv s -> res_fold (fun s id => unsubscribeVehicle api id false s) ids s = Ok s' ->
  sub_inv s' /\ same_vars s s' /\
  (forall x, x ∈ m_subscribed_vehicles s' <-> x ∈ m_subscribed_vehicles s /\ x ∉ ids).
Proof.
  revert s. induction ids as [|id ids IH]; intros s Hinv H.
  - apply Ok_inj in H as <-. repeat split; try apply Hinv; set_solver.
  - cbn in H. apply IH in H as (Hinv' & Hsame' & He').
    + split; [done|]. split; [exact Hsame'|].
      intros x. rewrite He'. cbn. rewrite list_elem_of_filter. set_solver.
    + destruct Hinv as [Hv Hs Hnd Hc Hsim]. split; cbn; try done.
      * by apply NoDup_filter.
      * intros x [_ Hx]%list_elem_of_filter. by apply Hc.
Qed.

Lemma update_all_spec api vars ids s s' :
  res_fold (fun s vehicle => updateVehicleSubscription api vehicle vars s) ids s = Ok s' ->
  same_vars s s' /\ m_subscribed_vehicles s' = m_subscribed_vehicles s /\
  (forall id, current_vehicle id (subscriptions s') =
     if decide (id ∈ ids) then Some vars else current_vehicle id (subscriptions s)) /\
  current_simulation (subscriptions s') = current_simulation (subscriptions s).
Proof.
  revert s. induction ids as [|id ids IH]; intros s H.
  - apply Ok_inj in H as <-. repeat split; try done.
  - cbn [res_fold] in H. apply bind_Ok in H as (s1 & H1 & H).
    apply updateVehicleSubscription_Ok in H1 as ->.
    apply IH in H as (Hsame & Hsub & Hcur & Hsim). cbn in *.
    split; [exact Hsame|]. split; [done|]. rewrite current_simulation_snoc in Hsim. split; [|done].
    intros x. rewrite Hcur, current_vehicle_snoc.
    destruct (decide (x ∈ ids)) as [Hx|Hx]; [by rewrite decide_True by (by right)|].
    destruct (decide (id = x)) as [->|Hne]; [by rewrite decide_True by left|].
    rewrite decide_False; [done|]. intros [->|?]%elem_of_cons; done.
Qed.

(** Reading never changes what is stored already. *)
Definition keeps_values (c c' : VariableCache) : Prop :=
  forall k r, om_find k (m_values c) = Some r -> om_find k (m_values c') = Some r.

Lemma get_keeps api v c r c' :
  get api v c = Ok (r, c') -> om_find (var_code v) (m_values c') = Some r /\ keeps_values c c'.
Proof.
  intros H. apply get_spec in H as (_ & Hf & Hother & Hcase & _). split; [done|].
  intros k y Hk. destruct (decide (k = var_code v)) as [->|Hne]; [|by rewrite Hother].
  destruct Hcase as [[_ ->]|[Hn _]]; congruence.
Qed.

Lemma get_strings_spec api v c l c' :
  get_strings api v c = Ok (l, c') ->
  om_find (var_code v) (m_values c') = Some (TraCIStringList l) /\ keeps_values c c'.
Proof.
  unfold get_strings. rewrite bind_Ok. intros ([r c1] & Hg & H). destruct r; try done.
  apply Ok_inj in H. injection H as -> ->. by apply get_keeps in Hg.
Qed.

Lemma get_double_keeps api v c d c' : get_double api v c = Ok (d, c') -> keeps_values c c'.
Proof.
  unfold get_double. rewrite bind_Ok. intros ([r c1] & Hg & H). destruct r; try done.
  apply Ok_inj in H. injection H as -> ->. by apply get_keeps in Hg as [_ ?].
Qed.

Lemma checkTimeSync_keeps dbl api c now b c' :
  checkTimeSync dbl api c now = Ok (b, c') -> keeps_values c c'.
Proof.
  unfold checkTimeSync. rewrite bind_Ok. intros ([t c1] & H1 & H).
  apply bind_Ok in H as ([d c2] & H2 & H). apply Ok_inj in H. injection H as _ <-.
  apply get_double_keeps in H1, H2. intros k r Hk. by apply H2, H1.
Qed.

Section SubscriptionProofs.
Context (order : list string -> list string) (dbl : simtime -> double).
Hypothesis order_perm : forall l, order l ≡ₚ l.

Lemma subscribeVehicleVariables_inv api vars s s' :
  StronglySorted Z.lt vars -> sub_inv s ->
  subscribeVehicleVariables order api vars s = Ok s' ->
  sub_inv s' /\ m_subscribed_vehicles s' = m_subscribed_vehicles s /\
  m_vehicle_vars s' = set_union (m_vehicle_vars s) vars.
Proof.
  intros Hs Hinv. unfold subscribeVehicleVariables. rewrite bind_Ok. intros ([] & _ & H).
  pose proof (set_union_sublist (m_vehicle_vars s) vars) as Hsub.
  destruct Hinv as [Hv Hsi Hnd Hc Hsim].
  destruct (Nat.eqb_spec (length (set_union (m_vehicle_vars s) vars)) (length (m_vehicle_vars s)))
    as [Hl|Hl]; cbn [negb] in H.
  - apply sublist_length_eq in Hl; [|done]. apply Ok_inj in H as <-. cbn. split; [|done].
    split; cbn; rewrite ?Hl; done.
  - apply update_all_spec in H as ((HA & HB & _) & Hsb & Hcur & Hcs). cbn in *.
    split; [|by split]. split; rewrite ?HA, ?HB, ?Hsb; try done.
    + by apply set_union_sorted.
    + intros id Hid _. rewrite Hcur, decide_True; [done|]. by rewrite order_perm.
    + intros Hne. rewrite Hcs. by apply Hsim.
Qed.

Lemma subscribeSimulationVariables_inv api vars s s' :
  StronglySorted Z.lt vars -> sub_inv s ->
  subscribeSimulationVariables api vars s = Ok s' ->
  sub_inv s' /\ m_subscribed_vehicles s' = m_subscribed_vehicles s /\
  m_vehicle_vars s' = m_vehicle_vars s.
Proof.
  intros Hs Hinv. unfold subscribeSimulationVariables. rewrite bind_Ok. intros ([] & _ & H).
  pose proof (set_union_sublist (m_sim_vars s) vars) as Hsub.
  destruct Hinv as [Hv Hsi Hnd Hc Hsim].
  destruct (Nat.eqb_spec (length (set_union (m_sim_vars s) vars)) (length (m_sim_vars s)))
    as [Hl|Hl]; cbn [negb] in H.
  - apply sublist_length_eq in Hl; [|done]. apply Ok_inj in H as <-. cbn. split; [|done].
    split; cbn; rewrite ?Hl; done.
  - apply bind_Ok in H as ([] & _ & H). apply Ok_inj in H as <-. cbn. split; [|done].
    split; cbn; try done.
    + by apply set_union_sorted.
    + intros id Hid Hne. rewrite current_vehicle_snoc. by apply Hc.
    + intros _. by rewrite current_simulation_snoc.
Qed.

(** Resetting caches changes nothing else, and resets exactly those asked for. *)
Lemma reset_all_spec api ids s :
  let s' := foldl (reset_vehicle api) s ids in
  m_vehicle_vars s' = m_vehicle_vars s /\ m_sim_vars s' = m_sim_vars s /\
  m_subscribed_vehicles s' = m_subscribed_vehicles s /\
  subscriptions s' = subscriptions s /\ m_sim_cache s' = m_sim_cache s /\
  (forall id, id ∈ ids -> m_values <$> om_find id (m_vehicle_caches s') =
     Some (vehicle_results api (subscriptions s) id)) /\
  (forall id, id ∉ ids -> om_find id (m_vehicle_caches s') = om_find id (m_vehicle_caches s)).
Proof.
  cbv zeta. revert s. induction ids as [|v ids IH] using rev_ind; intros s.
  - repeat split; try done. by intros id Hid%not_elem_of_nil.
  - rewrite foldl_app. cbn [foldl]. destruct (IH s) as (HA & HB & HC & HD & HE & HF & HG).
    set (s1 := foldl (reset_vehicle api) s ids) in *.
    unfold reset_vehicle, getVehicleCache.
    destruct (om_find v (m_vehicle_caches s1)) as [c|] eqn:Hv; cbn; rewrite ?HA, ?HB, ?HC, ?HD, ?HE;
      repeat (split; [done|]); split; intros id Hid.
    + rewrite om_find_set. destruct (decide (id = v)) as [->|Hne]; [done|]. apply HF. set_solver.
    + rewrite om_find_set_ne by set_solver. apply HG. set_solver.
    + rewrite om_find_set. destruct (decide (id = v)) as [->|Hne]; [done|].
      rewrite om_find_set_ne by done. apply HF. set_solver.
    + rewrite !om_find_set_ne by set_solver. apply HG. set_solver.
Qed.

(** One step of the subscription manager, when the simulator's clock agrees
    with the simulation time (otherwise it asserts): arrived vehicles are no longer
    subscribed, departed ones are (a vehicle in both lists stays subscribed); the
    simulation's cache and the cache of every subscribed vehicle hold just the
    fresh subscription results (and what the step itself read); no other cache
    changes.  *)
Theorem step_refreshes_caches api now s s' :
  sub_inv s -> subscriptions_step order dbl api now s = Ok s' ->
  exists arrived departed,
    om_find (var_code VAR_ARRIVED_VEHICLES_IDS) (m_values (m_sim_cache s'))
      = Some (TraCIStringList arrived) /\
    om_find (var_code VAR_DEPARTED_VEHICLES_IDS) (m_values (m_sim_cache s'))
      = Some (TraCIStringList departed) /\
    (forall k r, om_find k (simulation_results api (subscriptions s)) = Some r ->
       om_find k (m_values (m_sim_cache s')) = Some r) /\
    (forall id, id ∈ m_subscribed_vehicles s' <->
       id ∈ departed \/ (id ∈ m_subscribed_vehicles s /\ id ∉ arrived)) /\
    (forall id, id ∈ m_subscribed_vehicles s' ->
       m_values <$> om_find id (m_vehicle_caches s') =
         Some (vehicle_results api (subscriptions s') id)) /\
    (forall id, id ∉ m_subscribed_vehicles s' ->
       om_find id (m_vehicle_caches s') = om_find id (m_vehicle_caches s)) /\
    sub_inv s' /\ m_vehicle_vars s' = m_vehicle_vars s /\ m_sim_vars s' = m_sim_vars s.
Proof.
  intros Hinv. unfold subscriptions_step. rewrite bind_Ok. intros ([sync c1] & Hsync & H).
  apply bind_Ok in H as ([] & _ & H). apply bind_Ok in H as ([arrived c2] & Harr & H).
  apply bind_Ok in H as (s1 & H1 & H). apply bind_Ok in H as ([departed c3] & Hdep & H).
  apply bind_Ok in H as (s2 & H2 & H). apply Ok_inj in H as <-.
  apply unsubscribe_all_spec in H1 as (Hinv1 & (HA1 & HB1 & HC1 & HD1) & He1); [|done].
  apply subscribe_all_spec in H2 as (Hinv2 & (HA2 & HB2 & HC2 & HD2) & He2);
    [|destruct Hinv1; by split]. cbn in HA2, HB2, HC2, HD2, He2.
  destruct (reset_all_spec api (order (m_subscribed_vehicles s2)) s2) as (HA & HB & HC & HD & HE & HF & HG).
  set (s' := foldl _ s2 _) in *.
  apply checkTimeSync_keeps in Hsync. apply get_strings_spec in Harr as [Ha1 Ha2], Hdep as [Hd1 Hd2].
  rewrite HE, HD2. exists arrived, departed.
  split; [by apply Hd2|]. split; [done|]. split; [intros k r Hk; by apply Hd2, Ha2, Hsync|].
  split; [intros id; rewrite HC, He2, He1; done|].
  split; [intros id; rewrite HC, HD; intros Hid; apply HF; by rewrite order_perm|].
  split; [intros id; rewrite HC; intros Hid; rewrite HG by (by rewrite order_perm); by rewrite HC2, HC1|].
  split; [|by rewrite HA, HB, HA2, HB2, HA1, HB1].
  destruct Hinv2 as [I1 I2 I3 I4 I5]. split; rewrite ?HA, ?HB, ?HC, ?HD; done.
Qed.

(** ** Histories *)
Inductive subscription_op :=
| OpVehicleVariables (api : LiteAPI) (vars : list Z)
| OpSimulationVariables (api : LiteAPI) (vars : list Z)
| OpTraciInit (api : LiteAPI)
| OpStep (api : LiteAPI) (now : simtime).

Definition subscription_run (s : BasicSubscriptionManager) (op : subscription_op) :
    res BasicSubscriptionManager :=
  match op with
  | OpVehicleVariables api vars => subscribeVehicleVariables order api vars s
  | OpSimulationVariables api vars => subscribeSimulationVariables api vars s
  | OpTraciInit api => subscriptions_traciInit api s
  | OpStep api now => subscriptions_step order dbl api now s
  end.

(** The argument of a subscription request is a [std::set]. *)
Definition op_ok (op : subscription_op) : Prop :=
  match op with
  | OpVehicleVariables _ vars | OpSimulationVariables _ vars => StronglySorted Z.lt vars
  | _ => True
  end.

Definition op_vehicle_vars (op : subscription_op) : list Z :=
  match op with OpVehicleVariables _ vars => vars | _ => [] end.

(** [C13] In every history of subscription requests by the node manager and others,
    of the initialisation and of steps, with any answers of the simulator and
    whatever order the set of vehicles is traversed in, every subscribed vehicle is
    subscribed at the simulator with exactly the variables requested so far (its
    last subscription command lists all of them, in order, without repetition), and
    so is the simulation itself. *)
Theorem subscription_coverage ops s :
  Forall op_ok ops ->
  res_fold subscription_run ops subscription_manager_init = Ok s ->
  (forall id, id ∈ m_subscribed_vehicles s -> m_vehicle_vars s <> [] ->
     current_vehicle id (subscriptions s) = Some (m_vehicle_vars s)) /\
  (m_sim_vars s <> [] -> current_simulation (subscriptions s) = Some (m_sim_vars s)) /\
  StronglySorted Z.lt (m_vehicle_vars s) /\ StronglySorted Z.lt (m_sim_vars s) /\
  NoDup (m_subscribed_vehicles s) /\
  (forall x, x ∈ m_vehicle_vars s <-> exists op, op ∈ ops /\ x ∈ op_vehicle_vars op).
Proof.
  intros Hok Hrun.
  assert (sub_inv s /\ forall x, x ∈ m_vehicle_vars s <-> exists op, op ∈ ops /\ x ∈ op_vehicle_vars op)
    as [[] ?]; [|done].
  revert s Hrun. induction ops as [|op ops IH] using rev_ind; intros s Hrun.
  - apply Ok_inj in Hrun as <-. split; [split; cbn; try constructor; done|]. cbn. intros x.
    split; [by intros Hx%not_elem_of_nil|]. by intros (op & Hop%not_elem_of_nil & _).
  - apply Forall_app in Hok as [Hok Hop]. inversion_clear Hop as [|? ? Hop' _].
    rewrite res_fold_app in Hrun. apply bind_Ok in Hrun as (s1 & H1 & Hrun).
    destruct (IH Hok s1 H1) as [Hinv Hvars]. cbn [res_fold] in Hrun.
    apply bind_Ok in Hrun as (s2 & H2 & Hrun). apply Ok_inj in Hrun as <-.
    assert (sub_inv s2 /\ forall x, x ∈ m_vehicle_vars s2 <-> x ∈ m_vehicle_vars s1 \/ x ∈ op_vehicle_vars op)
      as [Hinv2 Hvars2].
    { destruct op as [api vars|api vars|api|api now]; cbn [subscription_run op_vehicle_vars op_ok] in *.
      - apply subscribeVehicleVariables_inv in H2 as (? & _ & ->); [|done..]. split; [done|].
        intros x. apply set_union_elem.
      - apply subscribeSimulationVariables_inv in H2 as (? & _ & ->); [|done..]. split; [done|]. set_solver.
      - unfold subscriptions_traciInit in H2. apply bind_Ok in H2 as (s3 & H3 & H2).
        apply subscribeSimulationVariables_inv in H3 as (? & _ & <-);
          [|repeat constructor; lia|done].
        apply subscribe_all_spec in H2 as (? & (-> & _) & _); [|done]. split; [done|]. set_solver.
      - apply step_refreshes_caches in H2 as (? & ? & _ & _ & _ & _ & _ & _ & ? & -> & _); [|done].
        split; [done|]. set_solver. }
    split; [done|]. intros x. rewrite Hvars2, Hvars. setoid_rewrite elem_of_app.
    setoid_rewrite list_elem_of_singleton. naive_solver.
Qed.
End SubscriptionProofs.

(** ** Witnesses *)
Definition ex_order (l : list string) : list string := rev l.
Lemma ex_order_perm l : ex_order l ≡ₚ l.
Proof. unfold ex_order. symmetry. apply Permutation_rev. Qed.
Definition ex_dbl (t : simtime) : double := ddiv (d_of_Z t) (d_of_Z (10 ^ 12)).

(** A simulator at second [t] that reports these departures and arrivals, and
    answers single requests with the number of the variable. *)
Definition ex_api (t : Z) (running departed arrived teleported : list string) : LiteAPI :=
  mkApi (fun _ v _ => Ok (d_of_Z v)) (fun _ v _ => Ok v)
    (fun _ v _ => Ok (d_of_Z v, d_of_Z v, d_zero)) (fun _ _ id => Ok id) (fun _ _ _ => Ok [])
    running (fun _ => Ok tt)
    (fun _ id => [(0x40, TraCIDouble (d_of_Z t)); (0x42, TraCIPosition (d_of_Z t) (d_of_Z t) d_zero);
                  (0x43, TraCIDouble (d_of_Z 90))])
    (fun _ => [(0x66, TraCIDouble (d_of_Z t)); (0x74, TraCIStringList departed);
               (0x76, TraCIStringList teleported); (0x7a, TraCIStringList arrived);
               (0x7b, TraCIDouble (d_of_Z 1))]).

Lemma cache_reads_through_witness :
  exists c1, get (ex_api 1 [] [] [] []) VAR_SPEED (VehicleCache "a") = Ok (TraCIDouble (d_of_Z 64), c1) /\
    get (ex_api 2 [] [] [] []) VAR_SPEED (cache_reset [(0x40, TraCIDouble (d_of_Z 64))] c1)
      = Ok (TraCIDouble (d_of_Z 64), cache_reset [(0x40, TraCIDouble (d_of_Z 64))] c1).
Proof.
  eexists. split; [vm_compute; reflexivity|].
  refine (proj1 (proj2 (cache_reads_through (ex_api 1 [] [] [] []) VAR_SPEED (VehicleCache "a")
            (TraCIDouble (d_of_Z 64)) _ [] _)) _ _ _); vm_compute; reflexivity.
Defined.

Definition ex_ops : list subscription_op :=
  [OpTraciInit (ex_api 0 ["x"%string] [] [] []); OpVehicleVariables (ex_api 0 ["x"%string] [] [] []) [0x40; 0x42];
   OpStep (ex_api 1 [] ["a"; "b"]%string ["x"%string] []) (SIMTIME_S 1);
   OpVehicleVariables (ex_api 1 [] [] [] []) [0x41; 0x43]].
Definition ex_subscribed : BasicSubscriptionManager :=
  match res_fold (subscription_run ex_order ex_dbl) ex_ops subscription_manager_init with
  | Ok s => s | Fail _ => subscription_manager_init end.

Lemma subscription_coverage_witness :
  current_vehicle "b" (subscriptions ex_subscribed) = Some [0x40; 0x41; 0x42; 0x43].
Proof.
  refine (proj1 (subscription_coverage ex_order ex_dbl ex_order_perm ex_ops ex_subscribed _ _) "b"%string _ _).
  - repeat constructor; lia.
  - vm_compute. reflexivity.
  - vm_compute. right. left.
  - vm_compute. discriminate.
Defined.

Definition ex_stepped : BasicSubscriptionManager :=
  match subscriptions_step ex_order ex_dbl (ex_api 2 [] ["c"%string] ["a"%string] []) (SIMTIME_S 2)
          ex_subscribed with
  | Ok s => s | Fail _ => subscription_manager_init end.

Lemma step_refreshes_caches_witness :
  sub_inv ex_stepped /\ m_subscribed_vehicles ex_stepped = ["b"; "c"]%string.
Proof.
  split; [|vm_compute; reflexivity].
  destruct (step_refreshes_caches ex_order ex_dbl ex_order_perm
              (ex_api 2 [] ["c"%string] ["a"%string] []) (SIMTIME_S 2) ex_subscribed ex_stepped)
    as (arrived & departed & _ & _ & _ & _ & _ & _ & Hinv & _).
  - split; vm_compute.
    + repeat constructor.
    + repeat constructor.
    + repeat constructor; set_solver.
    + intros id [->|[->|Hid%not_elem_of_nil]%elem_of_cons]%elem_of_cons _; done.
    + reflexivity.
  - vm_compute. reflexivity.
  - exact Hinv.
Defined.
