(* ===== verification/TraciNodes.v ===== *)
(** * TraCI node managers

    [src/src/traci/*ModuleMapper.cc, *NodeManager.cc, Core.cc]: which vehicles of
    the traffic simulator become network nodes, of which type, and when.  Module
    mappers are an interface ([ModuleMapper]) with three implementations; the node
    managers are written against it, and their overridable methods are an interface
    themselves ([NodeManager]), implemented by the basic manager and by the one that
    delays insertions.  Emitted signals and the calls of a node's vehicle sink are
    logged. *)

From S2P Require Import Prelude OMap Float64 TraciCache.

(** ** Module mappers *)
(** Names of [cModuleType]s. *)
Abbreviation module_type := string (only parsing).

Class ModuleMapper (M : Type) := mapper_vehicle : M -> string -> option module_type * M.

(** *** BasicModuleMapper *)
(** [rolls] numbers the draws of the generator. *)
Record BasicModuleMapper := mkBasicMapper {
  m_type : module_type;
  m_penetration : double;
  rolls : nat
}.

Section Mappers.
(** [uniform(rng, a, b)] at the n-th draw; [lexical_cast<double>];
    [cModuleType::get]. *)
Variable uniform : nat -> double -> double -> double.
Variable lexical_cast : string -> res double.
Variable module_type_get : string -> res module_type.

Definition equipVehicle (m : BasicModuleMapper) : bool * BasicModuleMapper :=
  let dice := uniform (rolls m) d_zero (d_of_Z 1) in
  (dltb dice (m_penetration m), mkBasicMapper (m_type m) (m_penetration m) (S (rolls m))).

Definition basic_vehicle (m : BasicModuleMapper) (id : string) :
    option module_type * BasicModuleMapper :=
  let '(equip, m) := equipVehicle m in (if equip then Some (m_type m) else None, m).

(** *** TestbedModuleMapper *)
Record TestbedModuleMapper := mkTestbedMapper {
  m_twinId : string;
  m_twinType : module_type;
  testbed_base : BasicModuleMapper
}.

Definition testbed_vehicle (m : TestbedModuleMapper) (id : string) :
    option module_type * TestbedModuleMapper :=
  if decide (m_twinId m = id) then (Some (m_twinType m), m)
  else let '(t, b) := basic_vehicle (testbed_base m) id in
       (t, mkTestbedMapper (m_twinId m) (m_twinType m) b).

(** *** MultiTypeModuleMapper *)
Record MultiTypeModuleMapper := mkMultiMapper {
  mVehicleTypes : list (module_type * double);
  mCdfValue : double;
  multi_rolls : nat
}.

(** A [vehicle] element: its [type] and [rate] attributes. *)
Record vehicle_tag := mkTag { tag_type : option string; tag_rate : option string }.

(** [throwError] throws the simulation kernel's runtime error. *)
Definition parse_tag (m : MultiTypeModuleMapper) (tag : vehicle_tag) : res MultiTypeModuleMapper :=
  match tag_type tag with
  | None => Fail (RuntimeError "missing 'type' attribute in 'vehicle' tag")
  | Some typeString =>
      type ← module_type_get typeString;
      match tag_rate tag with
      | None => Fail (RuntimeError "missing 'rate' attribute in 'vehicle' tag")
      | Some rateAttribute =>
          rate ← lexical_cast rateAttribute;
          let cdf := dadd (mCdfValue m) rate in
          Ok (mkMultiMapper (mVehicleTypes m ++ [(type, cdf)]) cdf (multi_rolls m))
      end
  end.

Definition parseVehicleTypes (tags : list vehicle_tag) (m : MultiTypeModuleMapper) :
    res MultiTypeModuleMapper :=
  res_fold parse_tag tags (mkMultiMapper [] d_zero (multi_rolls m)).

Fixpoint first_above (dice : double) (l : list (module_type * double)) : option module_type :=
  match l with
  | [] => None
  | (type, cdf) :: l' => if dltb dice cdf then Some type else first_above dice l'
  end.

Definition multi_vehicle (m : MultiTypeModuleMapper) (id : string) :
    option module_type * MultiTypeModuleMapper :=
  let dice := uniform (multi_rolls m) d_zero (mCdfValue m) in
  (first_above dice (mVehicleTypes m),
   mkMultiMapper (mVehicleTypes m) (mCdfValue m) (S (multi_rolls m))).

#[export] Instance basic_mapper : ModuleMapper BasicModuleMapper := basic_vehicle.
#[export] Instance testbed_mapper : ModuleMapper TestbedModuleMapper := testbed_vehicle.
#[export] Instance multi_mapper : ModuleMapper MultiTypeModuleMapper := multi_vehicle.
End Mappers.

(** ** Nodes *)
(** A node module: ["node"[index]], or the testbed's twin, which has no index. *)
Record node := mkNode { node_type : module_type; node_name : string; node_index : option Z }.

Inductive node_event :=
| AddVehicleSignal (id : string)
| UpdateVehicleSignal (id : string)
| RemoveVehicleSignal (id : string)
| AddNodeSignal (id : string) (n : node)
| UpdateNodeSignal (count : nat)
| RemoveNodeSignal (id : string) (n : node)
| SinkInitialize (id : string) (n : node) (pos : double * double * double) (angle speed : double)
| SinkUpdate (id : string) (n : node) (pos : double * double * double) (angle speed : double).

(** A vehicle sink is identified by its node. *)
Record BasicNodeManager (M : Type) := mkNodeManager {
  m_mapper : M;
  m_subscriptions : BasicSubscriptionManager;
  m_nodeIndex : Z;
  m_nodes : list (string * node);
  m_vehicles : list (string * option node);
  m_destroy_vehicles_on_crash : bool;
  node_events : list node_event
}.
Arguments mkNodeManager {M}.
Arguments m_mapper {M}.
Arguments m_subscriptions {M}.
Arguments m_nodeIndex {M}.
Arguments m_nodes {M}.
Arguments m_vehicles {M}.
Arguments m_destroy_vehicles_on_crash {M}.
Arguments node_events {M}.

Section Manager.
Context {M : Type} `{!ModuleMapper M}.
(** Whether a module of this type has a vehicle sink at the configured path. *)
Variable has_sink : module_type -> bool.
(** [createModule], which the testbed overrides. *)
Variable createModule : string -> module_type -> BasicNodeManager M -> node * BasicNodeManager M.

Definition emit (e : node_event) (s : BasicNodeManager M) : BasicNodeManager M :=
  mkNodeManager (m_mapper s) (m_subscriptions s) (m_nodeIndex s) (m_nodes s) (m_vehicles s)
    (m_destroy_vehicles_on_crash s) (node_events s ++ [e]).
Definition with_nodes (l : list (string * node)) (s : BasicNodeManager M) : BasicNodeManager M :=
  mkNodeManager (m_mapper s) (m_subscriptions s) (m_nodeIndex s) l (m_vehicles s)
    (m_destroy_vehicles_on_crash s) (node_events s).
Definition with_vehicles (l : list (string * option node)) (s : BasicNodeManager M) :
    BasicNodeManager M :=
  mkNodeManager (m_mapper s) (m_subscriptions s) (m_nodeIndex s) (m_nodes s) l
    (m_destroy_vehicles_on_crash s) (node_events s).
Definition with_subs (b : BasicSubscriptionManager) (s : BasicNodeManager M) : BasicNodeManager M :=
  mkNodeManager (m_mapper s) b (m_nodeIndex s) (m_nodes s) (m_vehicles s)
    (m_destroy_vehicles_on_crash s) (node_events s).

(** Storing back a cache read through a shared pointer. *)
Definition put_cache (id : string) (c : VariableCache) (b : BasicSubscriptionManager) :
    BasicSubscriptionManager :=
  with_caches (om_set id c (m_vehicle_caches b)) (m_sim_cache b) b.

(** The node initializer of [addVehicle]. *)
Definition init_node (api : LiteAPI) (id : string) (n : node) (s : BasicNodeManager M) :
    res (BasicNodeManager M) :=
  if has_sink (node_type n) then
    let '(_, b) := getVehicleCache id (m_subscriptions s) in
    let s := with_subs b s in
    pos ← getPosition api CMD_GET_VEHICLE_VARIABLE (var_code VAR_POSITION) id;
    angle ← getDouble api CMD_GET_VEHICLE_VARIABLE (var_code VAR_ANGLE) id;
    speed ← getDouble api CMD_GET_VEHICLE_VARIABLE (var_code VAR_SPEED) id;
    let s := emit (SinkInitialize id n pos angle speed) s in
    Ok (with_vehicles (om_set id (Some n) (m_vehicles s)) s)
  else Fail (RuntimeError "No module found or not a VehicleSink").

Definition addNodeModule (api : LiteAPI) (id : string) (type : module_type)
    (s : BasicNodeManager M) : res (BasicNodeManager M) :=
  let '(n, s) := createModule id type s in
  let s := with_nodes (om_set id n (m_nodes s)) s in
  s ← init_node api id n s;
  Ok (emit (AddNodeSignal id n) s).

Definition basic_addVehicle (api : LiteAPI) (id : string) (s : BasicNodeManager M) :
    res (BasicNodeManager M) :=
  let s := emit (AddVehicleSignal id) s in
  let '(type, mapper) := mapper_vehicle (m_mapper s) id in
  let s := mkNodeManager mapper (m_subscriptions s) (m_nodeIndex s) (m_nodes s) (m_vehicles s)
             (m_destroy_vehicles_on_crash s) (node_events s) in
  match type with
  | Some type => addNodeModule api id type s
  | None => Ok (with_vehicles (om_set id None (m_vehicles s)) s)
  end.

Definition removeNodeModule (id : string) (s : BasicNodeManager M) : BasicNodeManager M :=
  match om_find id (m_nodes s) with
  | Some n =>
      let s := emit (RemoveNodeSignal id n) s in with_nodes (om_erase id (m_nodes s)) s
  | None => s
  end.

Definition basic_removeVehicle (id : string) (s : BasicNodeManager M) : BasicNodeManager M :=
  let s := emit (RemoveVehicleSignal id) s in
  let s := removeNodeModule id s in
  with_vehicles (om_erase id (m_vehicles s)) s.

Definition basic_updateVehicle (api : LiteAPI) (id : string) (sink : option node)
    (s : BasicNodeManager M) : res (BasicNodeManager M) :=
  let '(c, b) := getVehicleCache id (m_subscriptions s) in
  let s := emit (UpdateVehicleSignal id) (with_subs b s) in
  match sink with
  | None => Ok s
  | Some n =>
      x ← get_position api VAR_POSITION c;
      let '(pos, c) := x : double * double * double * VariableCache in
      y ← get_double api VAR_ANGLE c;
      let '(angle, c) := y : double * VariableCache in
      z ← get_double api VAR_SPEED c;
      let '(speed, c) := z : double * VariableCache in
      Ok (emit (SinkUpdate id n pos angle speed) (with_subs (put_cache id c (m_subscriptions s)) s))
  end.

Definition getVehicleSink (id : string) (s : BasicNodeManager M) : option node :=
  default None (om_find id (m_vehicles s)).

Definition getNumberOfNodes (s : BasicNodeManager M) : nat := length (m_nodes s).

(** The loop of [traciClose]. *)
Fixpoint close_loop (i : nat) (s : BasicNodeManager M) : res (BasicNodeManager M) :=
  match i with
  | O => Ok s
  | S i' =>
      match m_nodes s with
      | [] => Fail (Undefined "begin of an empty map")
      | (id, _) :: _ => close_loop i' (removeNodeModule id s)
      end
  end.
Definition traciClose (s : BasicNodeManager M) : res (BasicNodeManager M) :=
  close_loop (length (m_nodes s)) s.
End Manager.

(** [BasicNodeManager::createModule] and the testbed's override. *)
Definition basic_createModule {M} (id : string) (type : module_type) (s : BasicNodeManager M) :
    node * BasicNodeManager M :=
  (mkNode type "node" (Some (m_nodeIndex s)),
   mkNodeManager (m_mapper s) (m_subscriptions s) (u32 (m_nodeIndex s + 1)) (m_nodes s) (m_vehicles s)
     (m_destroy_vehicles_on_crash s) (node_events s)).
Definition testbed_createModule {M} (twinId twinName : string) (id : string) (type : module_type)
    (s : BasicNodeManager M) : node * BasicNodeManager M :=
  if decide (id = twinId) then (mkNode type twinName None, s) else basic_createModule id type s.

(** ** The update step, for any overriding of the vehicle methods *)
Class NodeManager (M S : Type) := {
  basic : S -> BasicNodeManager M;
  with_basic : BasicNodeManager M -> S -> S;
  addVehicle : LiteAPI -> simtime -> string -> S -> res S;
  removeVehicle : LiteAPI -> simtime -> string -> S -> res S;
  updateVehicle : LiteAPI -> string -> option node -> S -> res S
}.

Section Step.
Context {M S : Type} `{!NodeManager M S}.
Variable dbl : simtime -> double.

(** Static variable sets, in increasing order. *)
Definition sVehicleVariables : list Z := [0x40; 0x42; 0x43].
Definition sSimulationVariables : list Z := [0x66; 0x74; 0x76; 0x7a].

Definition traciInit (order : list string -> list string) (api : LiteAPI) (now : simtime) (s : S) :
    res S :=
  b ← subscribeSimulationVariables api sSimulationVariables (m_subscriptions (basic s));
  b ← subscribeVehicleVariables order api sVehicleVariables b;
  res_fold (fun s id => addVehicle api now id s) (getIDList api)
    (with_basic (with_subs b (basic s)) s).

(** Reading a list of ids from the simulation cache, which the read may fill. *)
Definition sim_ids (api : LiteAPI) (v : variable) (s : S) : res (list string * S) :=
  let b := m_subscriptions (basic s) in
  x ← get_strings api v (m_sim_cache b);
  let '(ids, c) := x : list string * VariableCache in
  Ok (ids, with_basic (with_subs (with_caches (m_vehicle_caches b) c b) (basic s)) s).

Definition sync_check (api : LiteAPI) (now : simtime) (s : S) : res S :=
  let b := m_subscriptions (basic s) in
  x ← checkTimeSync dbl api (m_sim_cache b) now;
  let '(sync, c) := x : bool * VariableCache in
  assert_ "checkTimeSync" sync ;;
  Ok (with_basic (with_subs (with_caches (m_vehicle_caches b) c b) (basic s)) s).

Definition traciStep (api : LiteAPI) (now : simtime) (s : S) : res S :=
  s ← sync_check api now s;
  x ← sim_ids api VAR_DEPARTED_VEHICLES_IDS s;
  let '(departed, s) := x : list string * S in
  s ← res_fold (fun s id => addVehicle api now id s) departed s;
  x ← sim_ids api VAR_ARRIVED_VEHICLES_IDS s;
  let '(arrived, s) := x : list string * S in
  s ← res_fold (fun s id => removeVehicle api now id s) arrived s;
  s ← (if m_destroy_vehicles_on_crash (basic s) then
         x ← sim_ids api VAR_TELEPORT_STARTING_VEHICLES_IDS s;
         let '(teleport, s) := x : list string * S in
         res_fold (fun s id => removeVehicle api now id s) teleport s
       else Ok s);
  s ← res_fold (fun s (vehicle : string * option node) => updateVehicle api vehicle.1 vehicle.2 s)
        (m_vehicles (basic s)) s;
  Ok (with_basic (emit (UpdateNodeSignal (getNumberOfNodes (basic s))) (basic s)) s).
End Step.

#[export] Instance basic_manager {M} `{!ModuleMapper M} (has_sink : module_type -> bool)
    (createModule : string -> module_type -> BasicNodeManager M -> node * BasicNodeManager M) :
    NodeManager M (BasicNodeManager M) := {|
  basic s := s;
  with_basic b _ := b;
  addVehicle api _ id s := basic_addVehicle has_sink createModule api id s;
  removeVehicle _ _ id s := Ok (basic_removeVehicle id s);
  updateVehicle api id sink s := basic_updateVehicle api id sink s
|}.

(** ** InsertionDelayNodeManager *)
(** The queue is in order of time, insertions at equal times in order of arrival;
    [m_insert_event] is the time the self-message is scheduled for. *)
Record InsertionDelayNodeManager (M : Type) := mkDelayManager {
  delay_basic : BasicNodeManager M;
  m_insert_queue : list (string * simtime);
  m_insert_event : option simtime
}.
Arguments mkDelayManager {M}.
Arguments delay_basic {M}.
Arguments m_insert_queue {M}.
Arguments m_insert_event {M}.

(** [bimap::insert]: refused when the id is present. *)
Fixpoint multiset_insert (id : string) (when : simtime) (l : list (string * simtime)) :
    list (string * simtime) :=
  match l with
  | [] => [(id, when)]
  | (i, t) :: l' => if when <? t then (id, when) :: l else (i, t) :: multiset_insert id when l'
  end.
Definition queue_insert (id : string) (when : simtime) (l : list (string * simtime)) :
    list (string * simtime) :=
  if decide (id ∈ l.*1) then l else multiset_insert id when l.

Section Delay.
Context {M : Type} `{!ModuleMapper M}.
Variable has_sink : module_type -> bool.
(** The (possibly random) insertion delay of a vehicle departing at some time. *)
Variable insertionDelay : simtime -> string -> simtime.

Definition scheduleVehicleInsertion (now : simtime) (s : InsertionDelayNodeManager M) :
    res (InsertionDelayNodeManager M) :=
  match m_insert_queue s with
  | [] => Ok (mkDelayManager (delay_basic s) (m_insert_queue s) None)
  | (_, when) :: _ =>
      assert_ "when >= simTime()" (now <=? when) ;;
      Ok (mkDelayManager (delay_basic s) (m_insert_queue s) (Some when))
  end.

Definition delay_addVehicle (now : simtime) (id : string) (s : InsertionDelayNodeManager M) :
    res (InsertionDelayNodeManager M) :=
  let when := now + insertionDelay now id in
  scheduleVehicleInsertion now
    (mkDelayManager (delay_basic s) (queue_insert id when (m_insert_queue s)) (m_insert_event s)).

Definition delay_updateVehicle (api : LiteAPI) (id : string) (sink : option node)
    (s : InsertionDelayNodeManager M) : res (InsertionDelayNodeManager M) :=
  if decide (id ∈ (m_insert_queue s).*1) then Ok s
  else
    b ← basic_updateVehicle api id sink (delay_basic s);
    Ok (mkDelayManager b (m_insert_queue s) (m_insert_event s)).

Definition delay_removeVehicle (now : simtime) (id : string) (s : InsertionDelayNodeManager M) :
    res (InsertionDelayNodeManager M) :=
  if decide (id ∈ (m_insert_queue s).*1) then
    scheduleVehicleInsertion now
      (mkDelayManager (delay_basic s) (filter (fun p => p.1 <> id) (m_insert_queue s))
         (m_insert_event s))
  else Ok (mkDelayManager (basic_removeVehicle id (delay_basic s)) (m_insert_queue s)
             (m_insert_event s)).

(** [handleMessage] for the insertion event; any other message is an error of
    [cSimpleModule::handleMessage]. *)
Definition delay_handleMessage (api : LiteAPI) (now : simtime) (insert_event : bool)
    (s : InsertionDelayNodeManager M) : res (InsertionDelayNodeManager M) :=
  match insert_event, m_insert_queue s with
  | true, (id, when) :: queue =>
      assert_ "when == simTime()" (when =? now) ;;
      b ← basic_addVehicle has_sink basic_createModule api id (delay_basic s);
      b ← basic_updateVehicle api id (getVehicleSink id b) b;
      scheduleVehicleInsertion now (mkDelayManager b queue (m_insert_event s))
  | _, _ => Fail (RuntimeError "cSimpleModule::handleMessage() was not redefined")
  end.

#[export] Instance delay_manager : NodeManager M (InsertionDelayNodeManager M) := {|
  basic s := delay_basic s;
  with_basic b s := mkDelayManager b (m_insert_queue s) (m_insert_event s);
  addVehicle _ now id s := delay_addVehicle now id s;
  removeVehicle _ now id s := delay_removeVehicle now id s;
  updateVehicle api id sink s := delay_updateVehicle api id sink s
|}.
End Delay.

(** ** Invariant *)
(** What a listener of the node signals knows. *)
Definition live_nodes (events : list node_event) : list (string * node) :=
  foldl (fun m e => match e with
    | AddNodeSignal id n => om_set id n m
    | RemoveNodeSignal id _ => om_erase id m
    | _ => m end) [] events.
Arguments live_nodes : simpl never.
#[local] Arguments om_erase : simpl never.

Lemma live_nodes_snoc events e :
  live_nodes (events ++ [e]) =
    match e with
    | AddNodeSignal id n => om_set id n (live_nodes events)
    | RemoveNodeSignal id _ => om_erase id (live_nodes events)
    | _ => live_nodes events
    end.
Proof. unfold live_nodes. rewrite foldl_app. by destruct e. Qed.

Definition added (l : list node_event) : list string :=
  omap (fun e => match e with AddVehicleSignal id => Some id | _ => None end) l.
Definition removed (l : list node_event) : list string :=
  omap (fun e => match e with RemoveVehicleSignal id => Some id | _ => None end) l.
Definition updated (l : list node_event) : list string :=
  omap (fun e => match e with UpdateVehicleSignal id => Some id | _ => None end) l.

(** Nodes announced as added, with their module types. *)
Definition nodes_added (l : list node_event) : list (string * module_type) :=
  omap (fun e => match e with AddNodeSignal id n => Some (id, node_type n) | _ => None end) l.

Section Invariant.
Context {M : Type} `{!ModuleMapper M}.
Implicit Types s : BasicNodeManager M.

(** What the mapper answers to a sequence of ids, and the mapper after it. *)
Fixpoint mapped (m : M) (ids : list string) : list (string * option module_type) * M :=
  match ids with
  | [] => ([], m)
  | id :: ids' =>
      let '(type, m1) := mapper_vehicle m id in
      let '(l, m2) := mapped m1 ids' in ((id, type) :: l, m2)
  end.

(** The ids that are given a type, with it. *)
Definition equipped (l : list (string * option module_type)) : list (string * module_type) :=
  omap (fun p => type ← p.2; Some (p.1, type)) l.

Lemma mapped_ids m ids : (mapped m ids).1.*1 = ids.
Proof.
  revert m. induction ids as [|id ids IH]; intros m; [done|]. cbn.
  destruct (mapper_vehicle m id) as [t m1]. specialize (IH m1).
  destruct (mapped m1 ids). cbn in *. by rewrite IH.
Qed.

(** A vehicle's sink is that of its node, vehicles without sink have no node, and
    the node signals account for exactly the nodes there are. *)
Record node_inv s : Prop := {
  inv_nodes_wf : om_wf (m_nodes s);
  inv_vehicles_wf : om_wf (m_vehicles s);
  inv_sinks : forall id n, om_find id (m_vehicles s) = Some (Some n) <-> om_find id (m_nodes s) = Some n;
  inv_live : live_nodes (node_events s) = m_nodes s
}.

(** [s'] extends the log of [s] by events about the given vehicles; the
    simulation's cache and the configuration stay. *)
Record extends s s' (ev : list node_event) (adds removes updates : list string) : Prop := {
  ext_events : node_events s' = node_events s ++ ev;
  ext_added : added ev = adds;
  ext_removed : removed ev = removes;
  ext_updated : updated ev = updates;
  ext_cache : m_sim_cache (m_subscriptions s') = m_sim_cache (m_subscriptions s);
  ext_destroy : m_destroy_vehicles_on_crash s' = m_destroy_vehicles_on_crash s
}.

Lemma extends_refl s : extends s s [] [] [] [].
Proof. split; try done. by rewrite app_nil_r. Qed.

Lemma extends_trans s1 s2 s3 e1 e2 a1 a2 r1 r2 u1 u2 :
  extends s1 s2 e1 a1 r1 u1 -> extends s2 s3 e2 a2 r2 u2 ->
  extends s1 s3 (e1 ++ e2) (a1 ++ a2) (r1 ++ r2) (u1 ++ u2).
Proof.
  intros [H1 <- <- <- Hc1 Hd1] [H2 <- <- <- Hc2 Hd2].
  split; unfold added, removed, updated; rewrite ?omap_app; try congruence.
  by rewrite H2, H1, app_assoc.
Qed.

Lemma nodes_added_app l1 l2 : nodes_added (l1 ++ l2) = nodes_added l1 ++ nodes_added l2.
Proof. apply omap_app. Qed.

(** [createModule] makes a module of the type asked for and at most counts. *)
Definition create_ok (createModule : string -> module_type -> BasicNodeManager M ->
    node * BasicNodeManager M) : Prop :=
  forall id type s, node_type (createModule id type s).1 = type /\
    exists i, (createModule id type s).2 = mkNodeManager (m_mapper s) (m_subscriptions s) i (m_nodes s)
      (m_vehicles s) (m_destroy_vehicles_on_crash s) (node_events s).

Lemma basic_create_ok : create_ok basic_createModule.
Proof. intros id type s. split; [done|]. by eexists. Qed.

Lemma testbed_create_ok twinId twinName : create_ok (testbed_createModule twinId twinName).
Proof.
  intros id type s. unfold testbed_createModule. case_decide; [|apply basic_create_ok].
  split; [done|]. exists (m_nodeIndex s). by destruct s.
Qed.

Lemma getVehicleCache_sim id b : m_sim_cache (getVehicleCache id b).2 = m_sim_cache b.
Proof. unfold getVehicleCache. by destruct (om_find id _). Qed.

Lemma basic_removeVehicle_spec id s :
  node_inv s ->
  let s' := basic_removeVehicle id s in
  node_inv s' /\ (exists ev, extends s s' ev [] [id] [] /\ nodes_added ev = []) /\
  (forall x, x ∈ om_keys (m_vehicles s') <-> x <> id /\ x ∈ om_keys (m_vehicles s)) /\
  (forall x, x <> id -> om_find x (m_nodes s') = om_find x (m_nodes s)) /\
  om_find id (m_nodes s') = None /\ m_mapper s' = m_mapper s.
Proof.
  intros [Hn Hv Hs Hl]. cbv zeta. unfold basic_removeVehicle, removeNodeModule. cbn.
  destruct (om_find id (m_nodes s)) as [n|] eqn:Hf; cbn; (split; [|split; [|split; [|split; [|split]]]]).
  - split; cbn; [by apply om_wf_erase|by apply om_wf_erase| |by rewrite !live_nodes_snoc, Hl].
    intros x m. rewrite !om_find_erase. case_decide; [done|apply Hs].
  - exists [RemoveVehicleSignal id; RemoveNodeSignal id n]. split; [|done].
    split; try done. cbn. by rewrite <- app_assoc.
  - intros x. apply om_keys_erase.
  - intros x Hx. by apply om_find_erase_ne.
  - apply om_find_erase_eq.
  - done.
  - split; cbn; [done|by apply om_wf_erase| |by rewrite !live_nodes_snoc, Hl].
    intros x m. rewrite !om_find_erase. case_decide as Hx; [|apply Hs]. subst. by rewrite Hf.
  - exists [RemoveVehicleSignal id]. by repeat split.
  - intros x. apply om_keys_erase.
  - done.
  - done.
  - done.
Qed.

Lemma basic_updateVehicle_spec api id sink s s' :
  node_inv s -> basic_updateVehicle api id sink s = Ok s' ->
  node_inv s' /\ (exists ev, extends s s' ev [] [] [id] /\ nodes_added ev = []) /\
  m_vehicles s' = m_vehicles s /\ m_nodes s' = m_nodes s /\ m_mapper s' = m_mapper s.
Proof.
  intros [Hn Hv Hs Hl]. unfold basic_updateVehicle.
  destruct (getVehicleCache id _) as [c b] eqn:Hb.
  pose proof (getVehicleCache_sim id (m_subscriptions s)) as Hsim. rewrite Hb in Hsim. cbn in Hsim.
  destruct sink as [n|].
  - rewrite bind_Ok. intros ([pos c1] & _ & H). apply bind_Ok in H as ([angle c2] & _ & H).
    apply bind_Ok in H as ([speed c3] & _ & H). apply Ok_inj in H as <-. cbn.
    split; [split; cbn; try done; by rewrite !live_nodes_snoc|]. split; [|done].
    exists [UpdateVehicleSignal id; SinkUpdate id n pos angle speed]. split; [|done].
    split; cbn; try done. by rewrite <- app_assoc.
  - intros H. apply Ok_inj in H as <-. cbn.
    split; [split; cbn; try done; by rewrite live_nodes_snoc|]. split; [|done].
    exists [UpdateVehicleSignal id]. by repeat split.
Qed.

Lemma remove_all_spec ids s s' :
  node_inv s -> res_fold (fun s id => Ok (basic_removeVehicle id s)) ids s = Ok s' ->
  node_inv s' /\ (exists ev, extends s s' ev [] ids [] /\ nodes_added ev = []) /\
  (forall x, x ∈ om_keys (m_vehicles s') <-> (x ∉ ids) /\ x ∈ om_keys (m_vehicles s)) /\
  (forall x, x ∉ ids -> om_find x (m_nodes s') = om_find x (m_nodes s)) /\ m_mapper s' = m_mapper s.
Proof.
  revert s. induction ids as [|id ids IH]; intros s Hinv H.
  - apply Ok_inj in H as <-. split; [done|]. split; [eexists; split; [apply extends_refl|done]|].
    split; [set_solver|done].
  - cbn [res_fold mbind res_bind] in H.
    destruct (basic_removeVehicle_spec id s Hinv) as (Hinv1 & (e1 & He1 & Ha1) & Hk1 & Hn1 & _ & Hm1).
    apply IH in H as (Hinv' & (e2 & He2 & Ha2) & Hk2 & Hn2 & Hm2); [|done].
    split; [done|]. split.
    { exists (e1 ++ e2). split; [by apply (extends_trans _ _ _ _ _ _ _ _ _ _ _ He1 He2)|].
      by rewrite nodes_added_app, Ha1, Ha2. }
    split; [intros x; rewrite Hk2, Hk1; set_solver|].
    split; [|congruence]. intros x Hx. rewrite Hn2 by set_solver. apply Hn1. set_solver.
Qed.

Lemma update_all_nodes_spec api (l : list (string * option node)) s s' :
  node_inv s -> res_fold (fun s v => basic_updateVehicle api v.1 v.2 s) l s = Ok s' ->
  node_inv s' /\ (exists ev, extends s s' ev [] [] l.*1 /\ nodes_added ev = []) /\
  m_vehicles s' = m_vehicles s /\ m_nodes s' = m_nodes s /\ m_mapper s' = m_mapper s.
Proof.
  revert s. induction l as [|[id sink] l IH]; intros s Hinv H.
  - apply Ok_inj in H as <-. split; [done|]. split; [eexists; split; [apply extends_refl|done]|done].
  - cbn [res_fold] in H. apply bind_Ok in H as (s1 & H1 & H).
    apply basic_updateVehicle_spec in H1 as (Hinv1 & (e1 & He1 & Ha1) & Hv1 & Hn1 & Hm1); [|done].
    apply IH in H as (Hinv' & (e2 & He2 & Ha2) & Hv2 & Hn2 & Hm2); [|done].
    split; [done|]. split; [|split; [congruence|split; congruence]].
    exists (e1 ++ e2). split; [by apply (extends_trans _ _ _ _ _ _ _ _ _ _ _ He1 He2)|].
    by rewrite nodes_added_app, Ha1, Ha2.
Qed.

Context (has_sink : module_type -> bool).
Context (createModule : string -> module_type -> BasicNodeManager M -> node * BasicNodeManager M).
Hypothesis Hcreate : create_ok createModule.

Lemma node_inv_set id n s nodes vehicles ev sub mapper i d :
  node_inv s -> om_find id (m_nodes s) = None ->
  nodes = om_set id n (m_nodes s) -> vehicles = om_set id (Some n) (m_vehicles s) ->
  live_nodes ev = nodes ->
  node_inv (mkNodeManager mapper sub i nodes vehicles d ev).
Proof.
  intros [Hn Hv Hs Hl] Hfresh -> -> Hev. split; cbn; try done; try by apply om_wf_set.
  intros x m. rewrite !om_find_set. case_decide; [|apply Hs]. naive_solver.
Qed.

Lemma basic_addVehicle_spec api id s s' :
  node_inv s -> id ∉ om_keys (m_vehicles s) ->
  basic_addVehicle has_sink createModule api id s = Ok s' ->
  let '(type, mapper) := mapper_vehicle (m_mapper s) id in
  node_inv s' /\ (exists ev, extends s s' ev [id] [] [] /\ nodes_added ev = equipped [(id, type)]) /\
  (forall x, x ∈ om_keys (m_vehicles s') <-> x = id \/ x ∈ om_keys (m_vehicles s)) /\
  (forall x, x <> id -> om_find x (m_nodes s') = om_find x (m_nodes s)) /\
  node_type <$> om_find id (m_nodes s') = type /\ m_mapper s' = mapper.
Proof.
  intros Hinv Hfresh. pose proof Hinv as [Hn Hv Hs Hl].
  assert (om_find id (m_vehicles s) = None) as Hnv by (by apply om_find_None).
  assert (om_find id (m_nodes s) = None) as Hnn.
  { destruct (om_find id (m_nodes s)) as [n|] eqn:E; [|done]. apply Hs in E. congruence. }
  unfold basic_addVehicle. cbv zeta. change (m_mapper (emit _ s)) with (m_mapper s).
  destruct (mapper_vehicle (m_mapper s) id) as [[type|] mapper].
  - set (s0 := mkNodeManager _ _ _ _ _ _ _). unfold addNodeModule.
    destruct (Hcreate id type s0) as [Ht [i Hc]]. destruct (createModule id type s0) as [n s1].
    cbn in Ht, Hc. subst s1. rewrite bind_Ok. intros (s2 & Hi & H). apply Ok_inj in H as <-.
    unfold init_node in Hi. destruct (has_sink _); [|done].
    destruct (getVehicleCache id _) as [c b] eqn:Hb. cbn in Hb.
    pose proof (getVehicleCache_sim id (m_subscriptions s)) as Hsim. rewrite Hb in Hsim.
    apply bind_Ok in Hi as (pos & _ & Hi). apply bind_Ok in Hi as (angle & _ & Hi).
    apply bind_Ok in Hi as (speed & _ & Hi). apply Ok_inj in Hi as <-. cbn.
    split; [|split; [|split; [|split; [|split]]]]; [| | | | |done].
    + eapply node_inv_set; [exact Hinv|exact Hnn|reflexivity|reflexivity|].
      cbn. by rewrite !live_nodes_snoc, Hl.
    + exists [AddVehicleSignal id; SinkInitialize id n pos angle speed; AddNodeSignal id n].
      split; [split; cbn; try done; by rewrite <- !app_assoc|]. cbn. by rewrite Ht.
    + intros x. cbn. apply om_keys_set.
    + intros x Hx. cbn. by apply om_find_set_ne.
    + cbn. by rewrite om_find_set_eq, <- Ht.
  - intros H. apply Ok_inj in H as <-. cbn. split; [|split; [|split; [|split; [|split]]]]; cbn; [| | | | |done].
    + split; cbn; [done|by apply om_wf_set| |by rewrite live_nodes_snoc].
      intros x n. rewrite om_find_set. case_decide as Hx; [|apply Hs]. subst.
      split; [by intros [=]|congruence].
    + exists [AddVehicleSignal id]. by repeat split.
    + intros x. apply om_keys_set.
    + done.
    + by rewrite Hnn.
Qed.

Lemma add_all_spec api ids s s' :
  node_inv s -> NoDup ids -> (forall id, id ∈ ids -> id ∉ om_keys (m_vehicles s)) ->
  res_fold (fun s id => basic_addVehicle has_sink createModule api id s) ids s = Ok s' ->
  node_inv s' /\
  (exists ev, extends s s' ev ids [] [] /\ nodes_added ev = equipped (mapped (m_mapper s) ids).1) /\
  (forall x, x ∈ om_keys (m_vehicles s') <-> x ∈ ids \/ x ∈ om_keys (m_vehicles s)) /\
  (forall x, x ∉ ids -> om_find x (m_nodes s') = om_find x (m_nodes s)) /\
  (forall x type, (x, type) ∈ (mapped (m_mapper s) ids).1 ->
     node_type <$> om_find x (m_nodes s') = type) /\
  m_mapper s' = (mapped (m_mapper s) ids).2.
Proof.
  revert s. induction ids as [|id ids IH]; intros s Hinv Hnd Hfresh H.
  - apply Ok_inj in H as <-. split; [done|]. split; [eexists; split; [apply extends_refl|done]|].
    split; [set_solver|]. split; [done|]. split; [|done]. intros x t Hx. by apply elem_of_nil in Hx.
  - cbn [res_fold] in H. apply bind_Ok in H as (s1 & H1 & H). apply NoDup_cons in Hnd as [Hni Hnd].
    apply basic_addVehicle_spec in H1; [|done|by apply Hfresh; left]. cbn [mapped].
    destruct (mapper_vehicle (m_mapper s) id) as [type m1].
    destruct H1 as (Hinv1 & (e1 & He1 & Ha1) & Hk1 & Hn1 & Ht1 & <-).
    apply IH in H as (Hinv' & (e2 & He2 & Ha2) & Hk2 & Hn2 & Ht2 & Hm2); [|done|done|].
    2: { intros x Hx. rewrite Hk1. intros [->|Hin]; [done|]. by apply (Hfresh x); [right|]. }
    destruct (mapped (m_mapper s1) ids) as [l m2] eqn:Hmap. cbn [fst snd] in *.
    split; [done|]. split.
    { exists (e1 ++ e2). split; [by apply (extends_trans _ _ _ _ _ _ _ _ _ _ _ He1 He2)|].
      rewrite nodes_added_app, Ha1, Ha2. by destruct type. }
    split; [intros x; rewrite Hk2, Hk1; set_solver|].
    split; [intros x Hx; rewrite Hn2 by set_solver; apply Hn1; set_solver|]. split; [|done].
    intros x t Hx. apply elem_of_cons in Hx as [[= -> ->]|Hx]; [|by apply Ht2].
    by rewrite Hn2.
Qed.

Lemma get_strings_hit api v c l :
  om_find (var_code v) (m_values c) = Some (TraCIStringList l) -> VariableTrait v = TStringList ->
  get_strings api v c = Ok (l, c).
Proof. intros Hf Ht. unfold get_strings, get, getPtr. rewrite Hf. cbn. by rewrite Ht. Qed.

(** Replacing the subscription state does not matter for the nodes. *)
Lemma with_subs_inv b s : node_inv s -> node_inv (with_subs b s).
Proof. intros [? ? ? ?]. by split. Qed.
End Invariant.

Lemma keeps_values_trans c1 c2 c3 :
  keeps_values c1 c2 -> keeps_values c2 c3 -> keeps_values c1 c3.
Proof. intros H12 H23 k r Hk. by apply H23, H12. Qed.

Section StepProofs.
Context {M : Type} `{!ModuleMapper M} (has_sink : module_type -> bool).
Context (createModule : string -> module_type -> BasicNodeManager M -> node * BasicNodeManager M).
Hypothesis Hcreate : create_ok createModule.
#[local] Existing Instance basic_manager.
Implicit Types s : BasicNodeManager M.

(** The list a cache holds for a variable. *)
Definition holds_ids (s : BasicNodeManager M) (v : variable) (ids : list string) : Prop :=
  om_find (var_code v) (m_values (m_sim_cache (m_subscriptions s))) = Some (TraCIStringList ids).

Lemma sim_ids_hit api v s ids :
  holds_ids s v ids -> VariableTrait v = TStringList ->
  @sim_ids M _ (basic_manager has_sink createModule) api v s = Ok (ids, s).
Proof.
  intros Hh Ht. unfold sim_ids. cbn [basic basic_manager].
  rewrite (get_strings_hit _ _ _ _ Hh Ht). cbn. by destruct s as [? [] ? ? ? ? ?].
Qed.

Lemma sync_check_basic dbl api now s s' :
  @sync_check M _ (basic_manager has_sink createModule) dbl api now s = Ok s' ->
  exists b, s' = with_subs b s /\ keeps_values (m_sim_cache (m_subscriptions s)) (m_sim_cache b).
Proof.
  unfold sync_check. rewrite bind_Ok. intros ([sync c] & Hc & H). apply bind_Ok in H as ([] & _ & H).
  apply Ok_inj in H as <-. cbn. eexists. split; [reflexivity|]. cbn. by eapply checkTimeSync_keeps.
Qed.

Lemma holds_ids_extends s s' v ids ev a r u :
  extends s s' ev a r u -> holds_ids s v ids -> holds_ids s' v ids.
Proof. intros [_ _ _ _ Hc _]. unfold holds_ids. by rewrite Hc. Qed.

(** [C11] One step of the basic node manager, for any module mapper: with the ids
    that departed, arrived and started teleporting in the freshly filled simulation
    cache, new ids being new, the known vehicles afterwards are the old and the
    departed ones without the arrived (and, if configured, the teleporting) ones.
    The departed are announced as added, the others as removed, in order; every
    vehicle known at the end is updated exactly once, in order of ids; the last
    signal counts the nodes.  The mapper is asked once for every departed id, in
    order, and nothing else uses it up: a departed vehicle that is given a type and
    does not leave in the same step has a node of exactly that type, one that is
    given none has no node, and the nodes announced as added are those of the ids
    that were given a type, in order.  A vehicle that leaves has no node.  Nodes of vehicles not concerned stay, every sink is
    that of its vehicle's node, and the node signals emitted so far account for
    exactly the nodes there are. *)
Theorem nodes_follow_traffic dbl api now s s' departed arrived teleported :
  holds_ids s VAR_DEPARTED_VEHICLES_IDS departed ->
  holds_ids s VAR_ARRIVED_VEHICLES_IDS arrived ->
  holds_ids s VAR_TELEPORT_STARTING_VEHICLES_IDS teleported ->
  node_inv s -> NoDup departed -> (forall id, id ∈ departed -> id ∉ om_keys (m_vehicles s)) ->
  @traciStep M _ (basic_manager has_sink createModule) dbl api now s = Ok s' ->
  let gone := arrived ++ if m_destroy_vehicles_on_crash s then teleported else [] in
  node_inv s' /\
  (forall id, id ∈ om_keys (m_vehicles s') <->
     (id ∈ departed \/ id ∈ om_keys (m_vehicles s)) /\ id ∉ gone) /\
  (forall id, id ∉ departed -> id ∉ gone -> om_find id (m_nodes s') = om_find id (m_nodes s)) /\
  (exists ev, node_events s' = node_events s ++ ev ++ [UpdateNodeSignal (length (m_nodes s'))] /\
    added ev = departed /\ removed ev = gone /\ updated ev = om_keys (m_vehicles s') /\
    nodes_added ev = equipped (mapped (m_mapper s) departed).1) /\
  (forall id type, (id, type) ∈ (mapped (m_mapper s) departed).1 -> id ∉ gone ->
     node_type <$> om_find id (m_nodes s') = type) /\
  (forall id, id ∈ gone -> om_find id (m_nodes s') = None) /\
  m_mapper s' = (mapped (m_mapper s) departed).2.
Proof.
  intros Hd Ha Ht Hinv Hnd Hfresh. unfold traciStep. rewrite bind_Ok. intros (s0 & H0 & H).
  apply sync_check_basic in H0 as (b & -> & Hkeep). set (s0 := with_subs b s) in *.
  assert (node_inv s0) as Hinv0 by (by apply with_subs_inv).
  assert (forall v ids, holds_ids s v ids -> holds_ids s0 v ids) as Hh0 by (intros v ids; apply Hkeep).
  rewrite (sim_ids_hit _ _ s0 departed) in H by auto. cbn [mbind res_bind] in H.
  apply bind_Ok in H as (s1 & H1 & H).
  apply (add_all_spec _ _ Hcreate) in H1
    as (Hinv1 & (e1 & He1 & Ha1) & Hk1 & Hn1 & Ht1 & Hm1); [|done..].
  rewrite (sim_ids_hit _ _ s1 arrived) in H by (eauto using holds_ids_extends). cbn [mbind res_bind] in H.
  apply bind_Ok in H as (s2 & H2 & H).
  apply remove_all_spec in H2 as (Hinv2 & (e2 & He2 & Ha2) & Hk2 & Hn2 & Hm2); [|done].
  apply bind_Ok in H as (s3 & H3 & H).
  assert (node_inv s3 /\ (exists ev, extends s2 s3 ev [] (if m_destroy_vehicles_on_crash s then teleported else []) [] /\
      nodes_added ev = []) /\
    (forall x, x ∈ om_keys (m_vehicles s3) <->
      (x ∉ (if m_destroy_vehicles_on_crash s then teleported else [])) /\ x ∈ om_keys (m_vehicles s2)) /\
    (forall x, x ∉ (if m_destroy_vehicles_on_crash s then teleported else []) ->
      om_find x (m_nodes s3) = om_find x (m_nodes s2)) /\ m_mapper s3 = m_mapper s2)
    as (Hinv3 & (e3 & He3 & Ha3) & Hk3 & Hn3 & Hm3).
  { change (basic s2) with s2 in H3. rewrite (ext_destroy _ _ _ _ _ _ He2), (ext_destroy _ _ _ _ _ _ He1) in H3.
    change (m_destroy_vehicles_on_crash s0) with (m_destroy_vehicles_on_crash s) in H3.
    destruct (m_destroy_vehicles_on_crash s).
    - rewrite (sim_ids_hit _ _ s2 teleported) in H3 by (eauto using holds_ids_extends).
      cbn [mbind res_bind] in H3. by apply remove_all_spec in H3.
    - apply Ok_inj in H3 as <-. split; [done|]. split; [eexists; split; [apply extends_refl|done]|].
      split; [set_solver|done]. }
  apply bind_Ok in H as (s4 & H4 & H). apply Ok_inj in H as <-.
  apply update_all_nodes_spec in H4 as (Hinv4 & (e4 & He4 & Ha4) & Hv4 & Hn4 & Hm4); [|done].
  cbn [basic basic_manager with_basic] in *. unfold om_keys in *.
  cbn [m_vehicles m_nodes emit node_events m_mapper].
  assert (forall id, id ∈ (m_vehicles s4).*1 <->
    (id ∈ departed \/ id ∈ (m_vehicles s).*1) /\
    id ∉ arrived ++ (if m_destroy_vehicles_on_crash s then teleported else [])) as Hkeys.
  { intros id. rewrite Hv4, Hk3, Hk2, Hk1, not_elem_of_app.
    change (m_vehicles s0) with (m_vehicles s). tauto. }
  assert (forall id, id ∉ arrived ++ (if m_destroy_vehicles_on_crash s then teleported else []) ->
    om_find id (m_nodes s4) = om_find id (m_nodes s1)) as Hstay.
  { intros id [Hy1 Hy2]%not_elem_of_app. by rewrite Hn4, Hn3, Hn2. }
  split; [destruct Hinv4; split; cbn; try done; by rewrite live_nodes_snoc|]. split; [done|].
  split; [intros id Hx Hy; by rewrite Hstay, Hn1|].
  pose proof (extends_trans _ _ _ _ _ _ _ _ _ _ _ He1 (extends_trans _ _ _ _ _ _ _ _ _ _ _ He2
    (extends_trans _ _ _ _ _ _ _ _ _ _ _ He3 He4))) as [He Hea Her Heu _ _].
  split; [|split; [|split]].
  - exists (e1 ++ e2 ++ e3 ++ e4).
    rewrite He, Hea, Her, Heu, Hv4, !nodes_added_app, Ha1, Ha2, Ha3, Ha4, <- app_assoc. cbn.
    by rewrite !app_nil_r.
  - intros id type Hid Hgone. rewrite Hstay by done. by apply Ht1.
  - intros id Hgone. destruct (om_find id (m_nodes s4)) as [n|] eqn:Hf; [|done].
    apply (inv_sinks _ Hinv4) in Hf.
    assert (id ∈ (m_vehicles s4).*1) as [_ Hng]%Hkeys; [|done].
    apply om_find_elem in Hf. by apply (list_elem_of_fmap_2 fst) in Hf.
  - rewrite Hm4, Hm3, Hm2, Hm1. done.
Qed.

(** Closing removes every node; the vehicles stay known. *)
Lemma close_loop_spec s :
  node_inv s -> exists s', traciClose s = Ok s' /\ m_nodes s' = [] /\ m_vehicles s' = m_vehicles s.
Proof.
  unfold traciClose. intros [Hwf _ _ _]. revert s Hwf.
  assert (forall l (s : BasicNodeManager M), om_wf l -> m_nodes s = l ->
    exists s', close_loop (length l) s = Ok s' /\ m_nodes s' = [] /\ m_vehicles s' = m_vehicles s) as Hl;
    [|intros s Hwf; by apply Hl].
  induction l as [|[id n] l IH]; intros s Hwf Hs; [by exists s|]. cbn [length close_loop]. rewrite Hs.
  pose proof Hwf as Hwf'. apply om_wf_cons in Hwf' as [Hlt Hwf'].
  assert (id ∉ om_keys l) as Hni by (intros Hin; apply Hlt in Hin; by rewrite key_ltb_irrefl in Hin).
  assert (om_find id ((id, n) :: l) = Some n) as Hfind by (cbn; by rewrite decide_True).
  unfold removeNodeModule. rewrite Hs, Hfind.
  assert (om_erase id ((id, n) :: l) = l) as Herase.
  { unfold om_erase. rewrite filter_cons_False by (cbn; naive_solver).
    by apply om_erase_absent, om_find_None. }
  destruct (IH (with_nodes l (emit (RemoveNodeSignal id n) s))) as (s' & Hc & Hn & Hv); [done|done|].
  exists s'. cbn [emit m_nodes with_nodes]. rewrite Hs, Herase. done.
Qed.
End StepProofs.

(** ** Types by rate *)
Section MapperProofs.
Context (uniform : nat -> double -> double -> double) (lexical_cast : string -> res double)
  (module_type_get : string -> res module_type).

Lemma dltb_add_zero d x s : dltb d (dadd x (S754_zero s)) = dltb d x.
Proof. by destruct d as [[]|[]| |[]], x as [[]|[]| |[]], s. Qed.

Lemma dltb_dleb_contra d : dleb d_zero d = true -> dltb d d_zero = false.
Proof. by destruct d as [[]|[]| |[]]. Qed.

Lemma first_above_snoc dice l type cdf :
  first_above dice (l ++ [(type, cdf)]) =
    match first_above dice l with
    | Some t => Some t
    | None => if dltb dice cdf then Some type else None
    end.
Proof. induction l as [|[t c] l IH]; [done|]. cbn. by destruct (dltb dice c). Qed.

(** The tags that gave a mapper's types. *)
Definition tag_gives (tag : vehicle_tag) (type : module_type) (rate : double) : Prop :=
  exists ts rs, tag_type tag = Some ts /\ module_type_get ts = Ok type /\
    tag_rate tag = Some rs /\ lexical_cast rs = Ok rate.

Lemma parse_first_above dice tags m0 m :
  dleb d_zero dice = true ->
  parseVehicleTypes lexical_cast module_type_get tags m0 = Ok m ->
  (first_above dice (mVehicleTypes m) = None -> dltb dice (mCdfValue m) = false) /\
  (forall t, first_above dice (mVehicleTypes m) = Some t ->
     exists tag rate, tag ∈ tags /\ tag_gives tag t rate /\ deqb rate d_zero = false).
Proof.
  intros Hpos. unfold parseVehicleTypes. revert m. induction tags as [|tag tags IH] using rev_ind; intros m.
  - intros H. apply Ok_inj in H as <-. cbn. split; [|done]. intros _. by apply dltb_dleb_contra.
  - rewrite res_fold_app, bind_Ok. intros (m1 & H1 & H). destruct (IH m1 H1) as [Hnone Hsome].
    cbn [res_fold] in H. apply bind_Ok in H as (m2 & H2 & H). apply Ok_inj in H as <-.
    unfold parse_tag in H2. destruct (tag_type tag) as [ts|] eqn:Hts; [|done].
    apply bind_Ok in H2 as (type & Htype & H2). destruct (tag_rate tag) as [rs|] eqn:Hrs; [|done].
    apply bind_Ok in H2 as (rate & Hrate & H2). apply Ok_inj in H2 as <-.
    cbn [mVehicleTypes mCdfValue]. rewrite first_above_snoc.
    destruct (first_above dice (mVehicleTypes m1)) as [t1|].
    + split; [done|]. intros t [= <-]. destruct (Hsome t1 eq_refl) as (tg & r & Hin & ? & ?).
      exists tg, r. rewrite elem_of_app. naive_solver.
    + specialize (Hnone eq_refl).
      destruct (dltb dice (dadd (mCdfValue m1) rate)) eqn:Hlt; [|done]. split; [done|].
      intros t [= <-]. exists tag, rate. split; [apply elem_of_app; right; left|].
      split; [by exists ts, rs|]. destruct rate as [s|s| |s mm e]; try (by destruct s); try done.
      rewrite dltb_add_zero in Hlt. congruence.
Qed.

(** With a draw in [0, sum of rates), as [uniform] promises, a mapper built
    from a list of vehicle types always equips a vehicle with one of the listed
    types, and never with one whose rate is zero. *)
Theorem multi_type_equips tags m0 m id :
  parseVehicleTypes lexical_cast module_type_get tags m0 = Ok m ->
  dleb d_zero (uniform (multi_rolls m) d_zero (mCdfValue m)) = true ->
  dltb (uniform (multi_rolls m) d_zero (mCdfValue m)) (mCdfValue m) = true ->
  exists type rate tag, (multi_vehicle uniform m id).1 = Some type /\
    tag ∈ tags /\ tag_gives tag type rate /\ deqb rate d_zero = false.
Proof.
  intros Hp Hge Hlt. destruct (parse_first_above _ _ _ _ Hge Hp) as [Hnone Hsome].
  unfold multi_vehicle. cbn. destruct (first_above _ _) as [type|].
  - destruct (Hsome type eq_refl) as (tag & rate & ? & ? & ?). by exists type, rate, tag.
  - rewrite Hnone in Hlt; done.
Qed.
End MapperProofs.

(** ** Delayed insertion *)
Lemma multiset_insert_perm id w l : multiset_insert id w l ≡ₚ (id, w) :: l.
Proof.
  induction l as [|[i t] l IH]; [done|]. cbn. destruct (w <? t); [done|]. rewrite IH. apply perm_swap.
Qed.

Lemma multiset_insert_sorted id w l :
  StronglySorted Z.le l.*2 -> StronglySorted Z.le (multiset_insert id w l).*2.
Proof.
  induction l as [|[i t] l IH]; [repeat constructor|]. cbn. intros Hs.
  inversion_clear Hs as [|? ? Hs' Hle]. destruct (Z.ltb_spec w t); cbn.
  - constructor; [by constructor|]. constructor; [lia|]. eapply Forall_impl; [exact Hle|]. cbn. lia.
  - constructor; [by apply IH|]. rewrite multiset_insert_perm. cbn. constructor; [lia|done].
Qed.

Section DelayProofs.
Context {M : Type} `{!ModuleMapper M} (has_sink : module_type -> bool).
Context (insertionDelay : simtime -> string -> simtime).
Hypothesis delay_nonneg : forall now id, 0 <= insertionDelay now id.
Implicit Types s : InsertionDelayNodeManager M.

(** The queue is in order of time without repeated ids, nothing in it is overdue,
    and the insertion event is scheduled for the first entry exactly. *)
Record delay_inv (now : simtime) s : Prop := {
  inv_queue_sorted : StronglySorted Z.le (m_insert_queue s).*2;
  inv_queue_ids : NoDup (m_insert_queue s).*1;
  inv_queue_due : Forall (fun t => now <= t) (m_insert_queue s).*2;
  inv_event : m_insert_event s = head (m_insert_queue s).*2
}.

Definition queue_inv (now : simtime) (q : list (string * simtime)) : Prop :=
  StronglySorted Z.le q.*2 /\ NoDup q.*1 /\ Forall (fun t => now <= t) q.*2.

Lemma schedule_spec now b q e :
  queue_inv now q ->
  exists s', scheduleVehicleInsertion now (mkDelayManager b q e) = Ok s' /\
    delay_basic s' = b /\ m_insert_queue s' = q /\ delay_inv now s'.
Proof.
  intros (Hs & Hn & Hd). unfold scheduleVehicleInsertion. cbn [m_insert_queue delay_basic].
  destruct q as [|[id w] q]; [eexists; split; [done|by repeat split]|].
  inversion_clear Hd as [|? ? Hw Hd']. cbn in Hw. rewrite (proj2 (Z.leb_le _ _) Hw). cbn.
  eexists. split; [done|]. cbn. repeat split; try done. by constructor.
Qed.

Lemma queue_filter_inv now (P : string * simtime -> Prop) `{!forall x, Decision (P x)} q :
  queue_inv now q -> queue_inv now (filter P q).
Proof.
  intros (Hs & Hn & Hd). split; [|split].
  - induction q as [|[i t] q IH]; [constructor|]. cbn in Hs, Hn, Hd.
    inversion_clear Hs as [|? ? Hs' Hle]. apply NoDup_cons in Hn as [_ Hn]. inversion_clear Hd.
    rewrite filter_cons. case_decide; [|by apply IH]. cbn. constructor; [by apply IH|].
    apply Forall_forall. intros x ([j u] & -> & Hin)%list_elem_of_fmap.
    apply list_elem_of_filter in Hin as [_ Hin]. rewrite Forall_forall in Hle. apply Hle.
    apply list_elem_of_fmap. by exists (j, u).
  - by apply NoDup_fmap_filter.
  - apply Forall_forall. intros x (p & -> & Hin)%list_elem_of_fmap.
    apply list_elem_of_filter in Hin as [_ Hin]. rewrite Forall_forall in Hd. apply Hd.
    by apply list_elem_of_fmap_2.
Qed.

Lemma queue_insert_inv now id w q :
  queue_inv now q -> now <= w -> queue_inv now (queue_insert id w q).
Proof.
  intros (Hs & Hn & Hd) Hw. unfold queue_insert. case_decide as Hin; [done|].
  split; [by apply multiset_insert_sorted|]. rewrite multiset_insert_perm. cbn.
  split; [by apply NoDup_cons|by constructor].
Qed.

Lemma queue_insert_elem id w q p :
  id ∉ q.*1 -> p ∈ queue_insert id w q <-> p = (id, w) \/ p ∈ q.
Proof.
  intros Hn. unfold queue_insert. rewrite decide_False by done.
  rewrite multiset_insert_perm. apply elem_of_cons.
Qed.

Lemma delay_inv_queue now s : delay_inv now s -> queue_inv now (m_insert_queue s).
Proof. by intros [? ? ? _]. Qed.

Lemma delay_inv_mono now now' s :
  delay_inv now s -> (forall w, m_insert_event s = Some w -> now' <= w) -> delay_inv now' s.
Proof.
  intros [Hs Hn Hd He] Hw. split; try done. rewrite He in Hw.
  destruct (m_insert_queue s) as [|[id w] q]; [constructor|]. cbn in *.
  specialize (Hw w eq_refl). inversion_clear Hs as [|? ? _ Hle]. constructor; [done|].
  eapply Forall_impl; [exact Hle|]. cbn. lia.
Qed.

(** Operations of the basic manager that add no vehicle. *)
Record quiet (b b' : BasicNodeManager M) : Prop := {
  quiet_events : exists ev, node_events b' = node_events b ++ ev /\ added ev = [];
  quiet_cache : m_sim_cache (m_subscriptions b') = m_sim_cache (m_subscriptions b);
  quiet_destroy : m_destroy_vehicles_on_crash b' = m_destroy_vehicles_on_crash b
}.

Lemma quiet_refl b : quiet b b.
Proof. split; try done. exists []. by rewrite app_nil_r. Qed.

Lemma quiet_trans b1 b2 b3 : quiet b1 b2 -> quiet b2 b3 -> quiet b1 b3.
Proof.
  intros [(e1 & H1 & A1) ? ?] [(e2 & H2 & A2) ? ?]. split; try congruence.
  exists (e1 ++ e2). rewrite H2, H1, app_assoc. split; [done|].
  unfold added in *. by rewrite omap_app, A1, A2.
Qed.

Lemma quiet_remove id b : quiet b (basic_removeVehicle id b).
Proof.
  unfold basic_removeVehicle, removeNodeModule. cbn. destruct (om_find id _) as [n|]; split; try done.
  - exists [RemoveVehicleSignal id; RemoveNodeSignal id n]. cbn. by rewrite <- app_assoc.
  - by exists [RemoveVehicleSignal id].
Qed.

Lemma quiet_update api id sink b b' : basic_updateVehicle api id sink b = Ok b' -> quiet b b'.
Proof.
  unfold basic_updateVehicle. destruct (getVehicleCache id _) as [c x] eqn:Hb.
  pose proof (getVehicleCache_sim id (m_subscriptions b)) as Hsim. rewrite Hb in Hsim. cbn in Hsim.
  destruct sink as [n|].
  - rewrite bind_Ok. intros ([pos c1] & _ & H). apply bind_Ok in H as ([angle c2] & _ & H).
    apply bind_Ok in H as ([speed c3] & _ & H). apply Ok_inj in H as <-. split; cbn; try done.
    exists [UpdateVehicleSignal id; SinkUpdate id n pos angle speed]. by rewrite <- app_assoc.
  - intros H. apply Ok_inj in H as <-. split; cbn; try done. by exists [UpdateVehicleSignal id].
Qed.

Lemma delay_add_all now ids s :
  delay_inv now s -> NoDup ids -> (forall id, id ∈ ids -> id ∉ (m_insert_queue s).*1) ->
  exists s', res_fold (fun s id => delay_addVehicle insertionDelay now id s) ids s = Ok s' /\
    delay_inv now s' /\ delay_basic s' = delay_basic s /\
    (forall id w, (id, w) ∈ m_insert_queue s' <->
       (id, w) ∈ m_insert_queue s \/ (id ∈ ids /\ w = now + insertionDelay now id)).
Proof.
  revert s. induction ids as [|id ids IH]; intros s Hinv Hnd Hfresh.
  - exists s. repeat split; try apply Hinv; try done; set_solver.
  - apply NoDup_cons in Hnd as [Hni Hnd]. cbn [res_fold].
    pose proof (delay_nonneg now id).
    destruct (schedule_spec now (delay_basic s)
      (queue_insert id (now + insertionDelay now id) (m_insert_queue s)) (m_insert_event s))
      as (s1 & Hs1 & Hb1 & Hq1 & Hinv1); [apply queue_insert_inv; [by apply delay_inv_queue|lia]|].
    change (delay_addVehicle insertionDelay now id s = Ok s1) in Hs1. rewrite Hs1.
    assert (forall p, p ∈ m_insert_queue s1 <-> p = (id, now + insertionDelay now id) \/ p ∈ m_insert_queue s) as He
      by (intros p; rewrite Hq1; apply queue_insert_elem; apply Hfresh; left).
    cbn [mbind res_bind]. destruct (IH s1) as (s' & -> & Hinv' & Hb' & He'); [done|done| |].
    + intros x Hx ([x' w] & -> & [[= -> ->]|Hin]%He)%list_elem_of_fmap; cbn in *; [done|].
      apply (Hfresh x'); [by right|]. by apply (list_elem_of_fmap_2 fst _ (x', w)).
    + exists s'. split; [done|]. split; [done|]. split; [congruence|]. intros x w. rewrite He', He.
      rewrite elem_of_cons. naive_solver.
Qed.

Lemma delay_remove_all now ids s :
  delay_inv now s ->
  exists s', res_fold (fun s id => delay_removeVehicle now id s) ids s = Ok s' /\
    delay_inv now s' /\ quiet (delay_basic s) (delay_basic s') /\
    (forall id w, (id, w) ∈ m_insert_queue s' <-> (id, w) ∈ m_insert_queue s /\ id ∉ ids).
Proof.
  revert s. induction ids as [|id ids IH]; intros s Hinv.
  - exists s. repeat split; try apply Hinv; try apply quiet_refl; set_solver.
  - cbn [res_fold]. assert (exists s1, delay_removeVehicle now id s = Ok s1 /\ delay_inv now s1 /\
      quiet (delay_basic s) (delay_basic s1) /\
      forall x w, (x, w) ∈ m_insert_queue s1 <-> (x, w) ∈ m_insert_queue s /\ x <> id)
      as (s1 & -> & Hinv1 & Hq1 & He1).
    { unfold delay_removeVehicle. case_decide as Hin.
      - destruct (schedule_spec now (delay_basic s)
          (filter (fun p => p.1 <> id) (m_insert_queue s)) (m_insert_event s))
          as (s1 & -> & Hb1 & Hqs1 & Hinv1); [by apply queue_filter_inv, delay_inv_queue|].
        exists s1. split; [done|]. split; [done|]. rewrite Hb1. split; [apply quiet_refl|].
        intros x w. rewrite Hqs1, list_elem_of_filter. cbn. tauto.
      - eexists. split; [done|]. split; [destruct Hinv; by split|]. split; [apply quiet_remove|].
        intros x w. cbn. split; [|tauto]. intros Hx. split; [done|]. intros ->. apply Hin.
        by apply (list_elem_of_fmap_2 fst _ (id, w)). }
    cbn [mbind res_bind]. destruct (IH s1 Hinv1) as (s' & -> & Hinv' & Hq' & He').
    exists s'. split; [done|]. split; [done|]. split; [by eapply quiet_trans|].
    intros x w. rewrite He', He1. set_solver.
Qed.

Lemma delay_update_all api (l : list (string * option node)) s s' :
  res_fold (fun s v => delay_updateVehicle api v.1 v.2 s) l s = Ok s' ->
  quiet (delay_basic s) (delay_basic s') /\ m_insert_queue s' = m_insert_queue s /\
  m_insert_event s' = m_insert_event s.
Proof.
  revert s. induction l as [|[id sink] l IH]; intros s H.
  - apply Ok_inj in H as <-. split; [apply quiet_refl|done].
  - cbn [res_fold] in H. apply bind_Ok in H as (s1 & H1 & H). apply IH in H as (Hq & HA & HB).
    unfold delay_updateVehicle in H1. cbn in H1. case_decide.
    + by apply Ok_inj in H1 as <-.
    + apply bind_Ok in H1 as (b & Hb & H1). apply Ok_inj in H1 as <-. cbn in *.
      apply quiet_update in Hb. split; [by eapply quiet_trans|done].
Qed.

#[local] Existing Instance delay_manager.

Lemma delay_sim_ids api v s ids :
  holds_ids (delay_basic s) v ids -> VariableTrait v = TStringList ->
  @sim_ids M _ (delay_manager insertionDelay) api v s = Ok (ids, s).
Proof.
  intros Hh Ht. unfold sim_ids. cbn [basic delay_manager].
  rewrite (get_strings_hit _ _ _ _ Hh Ht). cbn. by destruct s as [[? [] ? ? ? ? ?] ? ?].
Qed.

(** The two kinds of events of a delaying node manager, in the order of time the
    simulation kernel ensures: a step does not come after the scheduled insertion,
    and the insertion event comes exactly when it is scheduled. *)
Inductive delay_step (dbl : simtime -> double) :
    simtime * InsertionDelayNodeManager M -> simtime * InsertionDelayNodeManager M -> Prop :=
| step_traci api t now s s' departed arrived teleported :
    t <= now -> (forall w, m_insert_event s = Some w -> now <= w) ->
    holds_ids (delay_basic s) VAR_DEPARTED_VEHICLES_IDS departed ->
    holds_ids (delay_basic s) VAR_ARRIVED_VEHICLES_IDS arrived ->
    holds_ids (delay_basic s) VAR_TELEPORT_STARTING_VEHICLES_IDS teleported ->
    NoDup departed -> (forall id, id ∈ departed -> id ∉ (m_insert_queue s).*1) ->
    @traciStep M _ (delay_manager insertionDelay) dbl api now s = Ok s' ->
    delay_step dbl (t, s) (now, s')
| step_insertion api t w s s' :
    m_insert_event s = Some w -> t <= w ->
    delay_handleMessage has_sink api w true
      (mkDelayManager (delay_basic s) (m_insert_queue s) None) = Ok s' ->
    delay_step dbl (t, s) (w, s').

Lemma basic_addVehicle_added api id b b' :
  basic_addVehicle has_sink basic_createModule api id b = Ok b' ->
  exists ev, node_events b' = node_events b ++ ev /\ added ev = [id].
Proof.
  unfold basic_addVehicle. destruct (mapper_vehicle _ id) as [[type|] mapper].
  - unfold addNodeModule. cbn. rewrite bind_Ok. intros (s1 & Hi & H). apply Ok_inj in H as <-.
    unfold init_node in Hi. cbn in Hi. destruct (has_sink type); [|done].
    destruct (getVehicleCache id _) as [c x].
    apply bind_Ok in Hi as (pos & _ & Hi). apply bind_Ok in Hi as (angle & _ & Hi).
    apply bind_Ok in Hi as (speed & _ & Hi). apply Ok_inj in Hi as <-. cbn.
    rewrite <- !app_assoc. by eexists.
  - intros H. apply Ok_inj in H as <-. cbn. by eexists.
Qed.

(** What a step does to the queue: departed vehicles are queued, gone ones leave. *)
Lemma delay_traciStep_spec dbl api now s s' departed arrived teleported :
  delay_inv now s ->
  holds_ids (delay_basic s) VAR_DEPARTED_VEHICLES_IDS departed ->
  holds_ids (delay_basic s) VAR_ARRIVED_VEHICLES_IDS arrived ->
  holds_ids (delay_basic s) VAR_TELEPORT_STARTING_VEHICLES_IDS teleported ->
  NoDup departed -> (forall id, id ∈ departed -> id ∉ (m_insert_queue s).*1) ->
  @traciStep M _ (delay_manager insertionDelay) dbl api now s = Ok s' ->
  let gone := arrived ++ if m_destroy_vehicles_on_crash (delay_basic s) then teleported else [] in
  delay_inv now s' /\
  (exists ev, node_events (delay_basic s') = node_events (delay_basic s) ++ ev /\ added ev = []) /\
  (forall id w, (id, w) ∈ m_insert_queue s' <->
     ((id, w) ∈ m_insert_queue s \/ (id ∈ departed /\ w = now + insertionDelay now id)) /\ id ∉ gone).
Proof.
  intros Hinv Hd Ha Ht Hnd Hfresh. unfold traciStep. rewrite bind_Ok. intros (s0 & H0 & H).
  assert (exists b, s0 = mkDelayManager (with_subs b (delay_basic s)) (m_insert_queue s) (m_insert_event s) /\
      keeps_values (m_sim_cache (m_subscriptions (delay_basic s))) (m_sim_cache b)) as (b & -> & Hkeep).
  { unfold sync_check in H0. apply bind_Ok in H0 as ([sync c] & Hc & H0).
    apply bind_Ok in H0 as ([] & _ & H0). apply Ok_inj in H0 as <-. eexists. split; [reflexivity|].
    cbn. by eapply checkTimeSync_keeps. }
  set (s0 := mkDelayManager _ _ _) in *.
  assert (delay_inv now s0) as Hinv0 by (destruct Hinv; by split).
  assert (forall v ids, holds_ids (delay_basic s) v ids -> holds_ids (delay_basic s0) v ids) as Hh0
    by (intros v ids; apply Hkeep).
  rewrite (delay_sim_ids _ _ s0 departed) in H by auto. cbn [mbind res_bind] in H.
  destruct (delay_add_all now departed s0) as (s1 & H1 & Hinv1 & Hb1 & He1); [done|done|done|].
  cbn [addVehicle delay_manager] in H. rewrite H1 in H. cbn [mbind res_bind] in H.
  assert (forall v ids, holds_ids (delay_basic s) v ids -> holds_ids (delay_basic s1) v ids) as Hh1
    by (rewrite Hb1; done).
  rewrite (delay_sim_ids _ _ s1 arrived) in H by auto. cbn [mbind res_bind] in H.
  destruct (delay_remove_all now arrived s1 Hinv1) as (s2 & H2 & Hinv2 & Hq2 & He2).
  cbn [removeVehicle delay_manager] in H. rewrite H2 in H. cbn [mbind res_bind] in H.
  apply bind_Ok in H as (s3 & H3 & H).
  assert (delay_inv now s3 /\ quiet (delay_basic s2) (delay_basic s3) /\
    forall id w, (id, w) ∈ m_insert_queue s3 <-> (id, w) ∈ m_insert_queue s2 /\
      id ∉ if m_destroy_vehicles_on_crash (delay_basic s) then teleported else []) as (Hinv3 & Hq3 & He3).
  { cbn [basic delay_manager] in H3. rewrite (quiet_destroy _ _ Hq2), Hb1 in H3.
    change (m_destroy_vehicles_on_crash (delay_basic s0))
      with (m_destroy_vehicles_on_crash (delay_basic s)) in H3.
    destruct (m_destroy_vehicles_on_crash (delay_basic s)).
    - rewrite (delay_sim_ids _ _ s2 teleported) in H3
        by (try done; unfold holds_ids; rewrite (quiet_cache _ _ Hq2); by apply Hh1).
      cbn [mbind res_bind] in H3.
      destruct (delay_remove_all now teleported s2 Hinv2) as (s3' & H3' & ? & ? & ?).
      rewrite H3' in H3. by apply Ok_inj in H3 as <-.
    - apply Ok_inj in H3 as <-. split; [done|]. split; [apply quiet_refl|]. set_solver. }
  apply bind_Ok in H as (s4 & H4 & H). apply Ok_inj in H as <-.
  apply delay_update_all in H4 as (Hq4 & Hqu4 & Hev4).
  split; [|split].
  - destruct Hinv3. split; cbn; rewrite ?Hqu4, ?Hev4; done.
  - rewrite Hb1 in Hq2. destruct (quiet_trans _ _ _ Hq2 (quiet_trans _ _ _ Hq3 Hq4)) as [(ev & He & Hadd) _ _].
    cbn. rewrite He. exists (ev ++ [UpdateNodeSignal (getNumberOfNodes (delay_basic s4))]).
    rewrite <- app_assoc. split; [done|]. unfold added in *. rewrite omap_app, Hadd. done.
  - intros id w. cbn. rewrite Hqu4, He3, He2, He1, not_elem_of_app. cbn. tauto.
Qed.

(** The effect of an event at [t'] on signals and queue. *)
Definition insertion_outcome s (t' : simtime) s' : Prop :=
  exists id ev, m_insert_queue s = (id, t') :: m_insert_queue s' /\
    node_events (delay_basic s') = node_events (delay_basic s) ++ ev /\ added ev = [id].
Definition step_outcome s (t' : simtime) s' : Prop :=
  exists departed arrived teleported ev,
    holds_ids (delay_basic s) VAR_DEPARTED_VEHICLES_IDS departed /\
    holds_ids (delay_basic s) VAR_ARRIVED_VEHICLES_IDS arrived /\
    holds_ids (delay_basic s) VAR_TELEPORT_STARTING_VEHICLES_IDS teleported /\
    node_events (delay_basic s') = node_events (delay_basic s) ++ ev /\ added ev = [] /\
    let gone := arrived ++ if m_destroy_vehicles_on_crash (delay_basic s) then teleported else [] in
    (forall id w, (id, w) ∈ m_insert_queue s' <->
      ((id, w) ∈ m_insert_queue s \/ (id ∈ departed /\ w = t' + insertionDelay t' id)) /\
      id ∉ gone).

Lemma queue_inv_tail now id w q : queue_inv now ((id, w) :: q) -> queue_inv w q.
Proof.
  intros (Hs & Hn & Hd). cbn in *. inversion_clear Hs as [|? ? Hs' Hle]. apply NoDup_cons in Hn as [_ Hn].
  by repeat split.
Qed.

Lemma delay_event_head t s w :
  delay_inv t s -> m_insert_event s = Some w ->
  exists id q, m_insert_queue s = (id, w) :: q /\ queue_inv w q.
Proof.
  intros Hinv Hev. pose proof Hinv as [_ _ _ He]. rewrite Hev in He.
  apply delay_inv_queue in Hinv. destruct (m_insert_queue s) as [|[id w'] q]; [done|].
  injection He as <-. exists id, q. split; [done|]. by eapply queue_inv_tail.
Qed.

Lemma delay_step_spec dbl t s t' s' :
  delay_inv t s -> delay_step dbl (t, s) (t', s') ->
  delay_inv t' s' /\ (insertion_outcome s t' s' \/ step_outcome s t' s').
Proof.
  intros Hinv Hs.
  inversion Hs as [api t1 now s1 s1' departed arrived teleported Hle Hw Hd Ha Ht Hnd Hfresh Hstep
                  |api t1 w s1 s1' Hev Hle Hh]; subst; clear Hs.
  - eapply delay_traciStep_spec in Hstep as (Hinv' & (ev & He & Hadd) & Hq);
      [|by eapply delay_inv_mono|done..].
    split; [done|]. right. by exists departed, arrived, teleported, ev.
  - destruct (delay_event_head _ _ _ Hinv Hev) as (id & q & Hq & Hqi).
    unfold delay_handleMessage in Hh. cbn [m_insert_queue delay_basic m_insert_event] in Hh.
    rewrite Hq, Z.eqb_refl in Hh. cbn [assert_ mbind res_bind] in Hh.
    apply bind_Ok in Hh as (b & Hb & Hh). apply bind_Ok in Hh as (b' & Hb' & Hh).
    destruct (schedule_spec t' b' q None Hqi) as (s2 & Hs2 & Hbs & Hqs & Hinv2).
    rewrite Hs2 in Hh. apply Ok_inj in Hh as <-. split; [done|]. left.
    apply basic_addVehicle_added in Hb as (e1 & He1 & Ha1).
    apply quiet_update in Hb' as [(e2 & He2 & Ha2) _ _].
    exists id, (e1 ++ e2). rewrite Hq, Hqs, Hbs, He2, He1, app_assoc. unfold added in *.
    rewrite omap_app, Ha1, Ha2. done.
Qed.

(** Insertion delays.  Along every run of steps and insertion events: the
    insertion event is always scheduled for the earliest queued vehicle and no
    vehicle is overdue.  A step at time [now] adds no vehicle: it queues each
    departed one for [now] plus its delay, and drops from the queue those that
    arrived or, if configured so, crashed.  An insertion at time [w] adds exactly the vehicle at the head of the
    queue, which was queued for [w]; it cannot fail an assertion. *)
Theorem insertions_delayed dbl t0 s0 t s :
  delay_inv t0 s0 -> rtc (delay_step dbl) (t0, s0) (t, s) ->
  delay_inv t s /\
  (forall t' s', delay_step dbl (t, s) (t', s') ->
     insertion_outcome s t' s' \/ step_outcome s t' s') /\
  (forall api id w q b b', m_insert_queue s = (id, w) :: q ->
     basic_addVehicle has_sink basic_createModule api id (delay_basic s) = Ok b ->
     basic_updateVehicle api id (getVehicleSink id b) b = Ok b' ->
     m_insert_event s = Some w /\
     exists s', delay_handleMessage has_sink api w true
       (mkDelayManager (delay_basic s) (m_insert_queue s) None) = Ok s').
Proof.
  intros Hinv0 Hrun.
  assert (delay_inv t s) as Hinv.
  { change (delay_inv (t, s).1 (t, s).2). change (delay_inv (t0, s0).1 (t0, s0).2) in Hinv0.
    induction Hrun as [x|[t1 s1] [t2 s2] z Hs _ IH]; [done|].
    apply IH. cbn in *. by apply delay_step_spec in Hs as [? _]. }
  split; [done|]. split; [intros t' s' Hs; by apply delay_step_spec in Hs as [_ ?]|].
  intros api id w q b b' Hq Hb Hb'.
  assert (m_insert_event s = Some w) as Hev by (destruct Hinv as [_ _ _ ->]; by rewrite Hq).
  split; [done|]. unfold delay_handleMessage. cbn [m_insert_queue delay_basic m_insert_event].
  rewrite Hq, Z.eqb_refl, Hb. cbn [assert_ mbind res_bind]. rewrite Hb'. cbn [mbind res_bind].
  apply delay_inv_queue in Hinv. rewrite Hq in Hinv. apply queue_inv_tail in Hinv.
  destruct (schedule_spec w b' q None Hinv) as (s2 & Hs2 & _). by exists s2.
Qed.
End DelayProofs.

(** ** Core *)
(** The connection to the simulator, in the order of its use. *)
Inductive core_event :=
| Connect
| SimulationStep (until : option double)
| SubscriptionsStep
| InitSignal (t : simtime)
| StepSignal (t : simtime)
| CloseSignal (t : simtime)
| CloseConnection.

Record Core := mkCore {
  m_connectEvent : option simtime;
  m_updateEvent : option simtime;
  m_updateInterval : simtime;
  m_stopping : bool;
  has_subscriptions : bool;
  core_events : list core_event
}.

Section CoreModule.
(** [SimTime::dbl] and the conversion of seconds to [SimTime]. *)
Variable dbl : simtime -> double.
Variable simtime_of : double -> simtime.
(** The simulator: version, step length, and the number of vehicles it expects
    after the n-th step. *)
Variable version : Z.
Variable getDeltaT : double.
Variable getMinExpectedNumber : nat -> Z.

Definition TRACI_VERSION : Z := 20.

Definition core_emit (l : list core_event) (s : Core) : Core :=
  mkCore (m_connectEvent s) (m_updateEvent s) (m_updateInterval s) (m_stopping s)
    (has_subscriptions s) (core_events s ++ l).

Definition core_initialize (startTime : simtime) (selfStopping subscriptions : bool) : Core :=
  mkCore (Some startTime) None 0 selfStopping subscriptions [].

Definition checkVersion (par_version : Z) : res unit :=
  let expected := if par_version =? 0 then TRACI_VERSION else par_version in
  if version <? 18 then Fail (RuntimeError "Version of TraCI server is too old")
  else if expected <? 0 then Ok tt
  else if negb (expected =? version) then Fail (RuntimeError "TraCI server version mismatch")
  else Ok tt.

Definition syncTime (now : simtime) (s : Core) : Core :=
  if now =? 0 then s else core_emit [SimulationStep (Some (dbl now))] s.

Definition is_step (e : core_event) : bool :=
  match e with SimulationStep None => true | _ => false end.
Definition steps_done (s : Core) : nat := length (List.filter is_step (core_events s)).

(** The update event at [now]. *)
Definition core_update (now : simtime) (s : Core) : Core :=
  let s := core_emit [SimulationStep None] s in
  let s := if has_subscriptions s then core_emit [SubscriptionsStep] s else s in
  let s := core_emit [StepSignal now] s in
  let next := if negb (m_stopping s) || (0 <? getMinExpectedNumber (steps_done s))
              then Some (now + m_updateInterval s) else None in
  mkCore (m_connectEvent s) next (m_updateInterval s) (m_stopping s) (has_subscriptions s)
    (core_events s).

(** The connect event at [now]. *)
Definition core_connect (par_version : Z) (now : simtime) (s : Core) : res Core :=
  let s := core_emit [Connect] s in
  checkVersion par_version ;;
  let s := syncTime now s in
  let s := core_emit [InitSignal now] s in
  let interval := simtime_of getDeltaT in
  Ok (mkCore None (Some (now + interval)) interval (m_stopping s) (has_subscriptions s)
        (core_events s)).

(** The kernel delivers the next scheduled event. *)
Definition core_next (par_version : Z) (s : Core) : res (option Core) :=
  match m_connectEvent s, m_updateEvent s with
  | Some t, _ => Some <$> core_connect par_version t s
  | None, Some t =>
      Ok (Some (core_update t (mkCore None None (m_updateInterval s) (m_stopping s)
                                 (has_subscriptions s) (core_events s))))
  | None, None => Ok None
  end.

Fixpoint core_run (par_version : Z) (n : nat) (s : Core) : res Core :=
  match n with
  | O => Ok s
  | S n' =>
      x ← core_next par_version s;
      match x with Some s' => core_run par_version n' s' | None => Ok s end
  end.

Definition core_finish (now : simtime) (s : Core) : Core :=
  let s := core_emit [CloseSignal now] s in
  if bool_decide (m_connectEvent s = None) then core_emit [CloseConnection] s else s.

(** *** Behaviour *)
Definition round_events (subscriptions : bool) (t : simtime) : list core_event :=
  SimulationStep None :: (if subscriptions then [SubscriptionsStep] else []) ++ [StepSignal t].

Definition init_events (start : simtime) : list core_event :=
  Connect :: (if start =? 0 then [] else [SimulationStep (Some (dbl start))]) ++ [InitSignal start].

Definition rounds (subscriptions : bool) (start interval : simtime) (n : nat) : list core_event :=
  mjoin ((fun k => round_events subscriptions (start + Z.of_nat k * interval)) <$> seq 1 n).

Lemma rounds_S b start interval n :
  rounds b start interval (S n) =
    rounds b start interval n ++ round_events b (start + Z.of_nat (S n) * interval).
Proof.
  unfold rounds. rewrite seq_S, fmap_app, join_app. cbn. by rewrite app_nil_r.
Qed.

Lemma steps_in_rounds b start interval n :
  length (List.filter is_step (rounds b start interval n)) = n.
Proof.
  induction n as [|n IH]; [done|]. rewrite rounds_S, List.filter_app, length_app, IH.
  unfold round_events. destruct b; cbn; lia.
Qed.

Lemma steps_in_init start : List.filter is_step (init_events start) = [].
Proof. unfold init_events. by destruct (start =? 0). Qed.

Lemma core_run_snoc pv m s : core_run pv (S m) s = (s' ← core_run pv m s; core_run pv 1 s').
Proof.
  revert s. induction m as [|m IH]; intros s; [done|].
  change (core_run pv (S (S m)) s) with (x ← core_next pv s;
    match x with Some s' => core_run pv (S m) s' | None => Ok s end).
  cbn [core_run]. destruct (core_next pv s) as [[s'|]|e] eqn:Hn; cbn [mbind res_bind]; [apply IH| |done].
  by rewrite Hn.
Qed.

Definition after_rounds (stopping b : bool) (start interval : simtime) (n : nat) : Core :=
  mkCore None
    (if (n =? 0)%nat || negb stopping || (0 <? getMinExpectedNumber n)
     then Some (start + Z.of_nat (S n) * interval) else None)
    interval stopping b (init_events start ++ rounds b start interval n).

Lemma core_update_round stopping b start interval n :
  core_update (start + Z.of_nat (S n) * interval)
    (mkCore None None interval stopping b (init_events start ++ rounds b start interval n)) =
  after_rounds stopping b start interval (S n).
Proof.
  unfold core_update, after_rounds. rewrite rounds_S.
  assert (forall l, steps_done (mkCore None None interval stopping b
    (((init_events start ++ rounds b start interval n) ++ [SimulationStep None]) ++ l))
      = (S n + length (List.filter is_step l))%nat) as Hsteps.
  { intros l. unfold steps_done. cbn [core_events].
    rewrite !List.filter_app, !length_app, steps_in_init, steps_in_rounds. cbn. lia. }
  unfold round_events.
  destruct b; unfold core_emit; cbn [m_connectEvent m_updateEvent m_updateInterval m_stopping
    has_subscriptions core_events]; rewrite ?app_nil_r, <- ?app_assoc; cbn [app];
    [specialize (Hsteps [SubscriptionsStep; StepSignal (start + Z.of_nat (S n) * interval)])
    |specialize (Hsteps [StepSignal (start + Z.of_nat (S n) * interval)])];
    rewrite <- ?app_assoc in Hsteps; cbn [app] in Hsteps; rewrite Hsteps; cbn [List.filter is_step length];
    rewrite Nat.add_0_r; cbn [Nat.eqb orb];
    replace (start + Z.of_nat (S n) * interval + interval) with (start + Z.of_nat (S (S n)) * interval) by lia;
    reflexivity.
Qed.

Lemma core_run_rounds pv stopping b start interval n :
  (forall k, (1 <= k < n)%nat -> stopping = true -> 0 < getMinExpectedNumber k) ->
  core_run pv n (after_rounds stopping b start interval 0) = Ok (after_rounds stopping b start interval n).
Proof.
  induction n as [|n IH]; intros Hexp; [done|].
  rewrite core_run_snoc, IH by (intros k Hk; apply Hexp; lia). cbn [mbind res_bind core_run].
  assert ((n =? 0)%nat || negb stopping || (0 <? getMinExpectedNumber n) = true) as Hgo.
  { destruct (Nat.eqb_spec n 0); [done|]. destruct stopping; [|done]. cbn. apply Z.ltb_lt, Hexp; [lia|done]. }
  unfold core_next, after_rounds. cbn [m_connectEvent m_updateEvent]. rewrite Hgo.
  cbn [mbind res_bind m_updateInterval m_stopping has_subscriptions core_events].
  by rewrite core_update_round.
Qed.

(** [C12] The life cycle of the connection.  With an acceptable server version, the
    first event (at the start time) connects, brings the simulator to the current
    time and announces the initialisation; then step [k] happens at start time plus
    [k] intervals: the simulator advances, the subscriptions are refreshed, the
    step is announced, in that order.  It goes on for ever unless the core stops by
    itself, and then just as long as the simulator expects vehicles.  With an
    unacceptable version nothing is announced. *)
Theorem core_cycle pv start stopping subs n :
  (forall k, (1 <= k < n)%nat -> stopping = true -> 0 < getMinExpectedNumber k) ->
  (checkVersion pv = Ok tt ->
   let interval := simtime_of getDeltaT in
   exists s, core_run pv (S n) (core_initialize start stopping subs) = Ok s /\
     core_events s = init_events start ++ rounds subs start interval n /\
     m_connectEvent s = None /\
     (m_updateEvent s = None <-> (1 <= n)%nat /\ stopping = true /\ getMinExpectedNumber n <= 0)) /\
  (checkVersion pv = Ok tt <->
     18 <= version /\ (pv < 0 \/ pv = version \/ (pv = 0 /\ version = TRACI_VERSION))) /\
  (forall e, checkVersion pv = Fail e ->
     core_run pv (S n) (core_initialize start stopping subs) = Fail e).
Proof.
  intros Hexp. split; [|split].
  - intros Hv. cbv zeta. exists (after_rounds stopping subs start (simtime_of getDeltaT) n).
    split; [|split; [done|split; [done|]]].
    + change (core_run pv (S n) (core_initialize start stopping subs)) with
        (x ← (Some <$> core_connect pv start (core_initialize start stopping subs));
         match x with Some s' => core_run pv n s' | None => Ok (core_initialize start stopping subs) end).
      unfold core_connect. rewrite Hv. cbn [fmap res_fmap mbind res_bind]. rewrite <- (core_run_rounds pv) by done.
      f_equal. unfold after_rounds, init_events, syncTime, rounds. cbn [Nat.eqb orb].
      rewrite Z.mul_1_l, app_nil_r. by destruct (start =? 0).
    + cbn [after_rounds m_updateEvent]. destruct (Nat.eqb_spec n 0) as [->|Hn]; [cbn; split; [done|lia]|].
      destruct stopping; cbn [orb negb]; [|split; [done|naive_solver]].
      destruct (Z.ltb_spec 0 (getMinExpectedNumber n)); [split; [done|lia]|].
      split; [|done]. intros _. repeat split; lia.
  - unfold checkVersion, TRACI_VERSION. zcases; cbn [negb];
      (split; intros Hx; [first [discriminate Hx|lia]|first [reflexivity|exfalso; lia]]).
  - intros e He. cbn. unfold core_connect. by rewrite He.
Qed.
End CoreModule.

(** ** Witnesses *)
(** Draws alternate between 1/4 and 3/4. *)
Definition ex_uniform (n : nat) (a b : double) : double := dmul b (d_lit (if Nat.even n then 1 else 3) 4).
#[local] Instance ex_mapper : ModuleMapper BasicModuleMapper := basic_mapper ex_uniform.
Definition ex_has_sink (t : module_type) : bool := String.eqb t "Car".

(** A subscription manager just after the simulator reported these ids. *)
Definition ex_subs (t : Z) (departed arrived teleported : list string) : BasicSubscriptionManager :=
  mkSubscriptionManager [] [] [] []
    (cache_reset (simulation_results (ex_api t [] departed arrived teleported) []) SimulationCache) [].
Definition ex_nodes0 : BasicNodeManager BasicModuleMapper :=
  mkNodeManager (mkBasicMapper "Car" (d_lit 1 2) 0) (ex_subs 1 ["x"; "y"]%string [] []) 0 [] [] true [].
Definition ex_basic_step (t : Z) (s : BasicNodeManager BasicModuleMapper) :
    res (BasicNodeManager BasicModuleMapper) :=
  @traciStep BasicModuleMapper _ (basic_manager ex_has_sink basic_createModule) ex_dbl
    (ex_api t [] [] [] []) (SIMTIME_S t) s.
Definition ex_result (r : res (BasicNodeManager BasicModuleMapper)) : BasicNodeManager BasicModuleMapper :=
  match r with Ok s => s | Fail _ => ex_nodes0 end.
Definition ex_nodes1 : BasicNodeManager BasicModuleMapper :=
  with_subs (ex_subs 2 ["a"; "b"]%string ["x"%string] ["y"%string]) (ex_result (ex_basic_step 1 ex_nodes0)).
Definition ex_nodes2 : BasicNodeManager BasicModuleMapper := ex_result (ex_basic_step 2 ex_nodes1).

Lemma nodes_follow_traffic_witness :
  (forall id, id ∈ om_keys (m_vehicles ex_nodes2) <->
     (id ∈ ["a"; "b"]%string \/ id ∈ om_keys (m_vehicles ex_nodes1)) /\ id ∉ ["x"; "y"]%string) /\
  m_nodes ex_nodes2 = [("a"%string, mkNode "Car" "node" (Some 1))].
Proof.
  split; [|vm_compute; reflexivity].
  refine (proj1 (proj2 (nodes_follow_traffic ex_has_sink basic_createModule basic_create_ok ex_dbl
    (ex_api 2 [] [] [] []) (SIMTIME_S 2) ex_nodes1 ex_nodes2 ["a"; "b"]%string ["x"%string] ["y"%string]
    _ _ _ _ _ _ _))).
  - vm_compute. reflexivity.
  - vm_compute. reflexivity.
  - vm_compute. reflexivity.
  - split; [vm_compute; repeat constructor|vm_compute; repeat constructor| |vm_compute; reflexivity].
    intros id n. vm_compute. repeat (case_match; [naive_solver|]). done.
  - repeat constructor; set_solver.
  - intros id [->|[->|Hid%not_elem_of_nil]%elem_of_cons]%elem_of_cons; vm_compute;
      [| |done]; intros H; repeat (apply elem_of_cons in H as [H|H]; [done|]); by apply elem_of_nil in H.
  - vm_compute. reflexivity.
Defined.

Definition ex_cast (s : string) : res double :=
  if String.eqb s "1" then Ok (d_of_Z 1) else if String.eqb s "0" then Ok d_zero
  else Fail (StdException "bad_lexical_cast").
Definition ex_tags : list vehicle_tag :=
  [mkTag (Some "Truck"%string) (Some "0"%string); mkTag (Some "Car"%string) (Some "1"%string);
   mkTag (Some "Bus"%string) (Some "1"%string)].
Definition ex_multi : MultiTypeModuleMapper :=
  match parseVehicleTypes ex_cast (fun t => Ok t) ex_tags (mkMultiMapper [] d_zero 1) with
  | Ok m => m | Fail _ => mkMultiMapper [] d_zero 0 end.

Lemma multi_type_equips_witness :
  exists type rate tag, (multi_vehicle ex_uniform ex_multi "v").1 = Some type /\
    tag ∈ ex_tags /\ tag_gives ex_cast (fun t => Ok t) tag type rate /\ deqb rate d_zero = false.
Proof.
  apply (multi_type_equips ex_uniform ex_cast (fun t => Ok t) ex_tags (mkMultiMapper [] d_zero 1) ex_multi);
    vm_compute; reflexivity.
Defined.

(** A vehicle departs at second 1 with a delay of half a second. *)
Definition ex_delay (now : simtime) (id : string) : simtime := SIMTIME_MS 500.
Definition ex_delay0 : InsertionDelayNodeManager BasicModuleMapper := mkDelayManager ex_nodes0 [] None.
Definition ex_delay_step (t : Z) (s : InsertionDelayNodeManager BasicModuleMapper) :=
  @traciStep BasicModuleMapper _ (delay_manager ex_delay) ex_dbl (ex_api t [] [] [] []) (SIMTIME_S t) s.
Definition ex_delay1 : InsertionDelayNodeManager BasicModuleMapper :=
  match ex_delay_step 1 ex_delay0 with Ok s => s | Fail _ => ex_delay0 end.

Lemma insertions_delayed_witness :
  delay_inv (SIMTIME_S 1) ex_delay1 /\
  m_insert_queue ex_delay1 = [("x"%string, SIMTIME_MS 1500); ("y"%string, SIMTIME_MS 1500)].
Proof.
  split; [|vm_compute; reflexivity].
  refine (proj1 (insertions_delayed ex_has_sink ex_delay _ ex_dbl 0 ex_delay0 (SIMTIME_S 1) ex_delay1 _ _)).
  - intros now id. vm_compute. discriminate.
  - split; cbn; try constructor.
  - eapply rtc_l; [|apply rtc_refl].
    apply (step_traci _ _ _ (ex_api 1 [] [] [] []) 0 (SIMTIME_S 1) ex_delay0 ex_delay1
             ["x"; "y"]%string [] []).
    + vm_compute. discriminate.
    + discriminate.
    + vm_compute. reflexivity.
    + vm_compute. reflexivity.
    + vm_compute. reflexivity.
    + repeat constructor; set_solver.
    + intros id _ H. by apply elem_of_nil in H.
    + vm_compute. reflexivity.
Defined.

(** A self-stopping core with two vehicles to go, started at second 3. *)
Lemma core_cycle_witness :
  exists s, core_run ex_dbl (fun _ => SIMTIME_S 1) 20 d_zero (fun n => 2 - Z.of_nat n) 0 3
      (core_initialize (SIMTIME_S 3) true true) = Ok s /\
    core_events s =
      [Connect; SimulationStep (Some (ex_dbl (SIMTIME_S 3))); InitSignal (SIMTIME_S 3);
       SimulationStep None; SubscriptionsStep; StepSignal (SIMTIME_S 4);
       SimulationStep None; SubscriptionsStep; StepSignal (SIMTIME_S 5)] /\
    m_updateEvent s = None.
Proof.
  destruct (core_cycle ex_dbl (fun _ => SIMTIME_S 1) 20 d_zero (fun n => 2 - Z.of_nat n) 0 (SIMTIME_S 3)
              true true 2) as [Hok _]; [intros k Hk _; lia|].
  destruct (Hok eq_refl) as (s & Hrun & Hev & _ & Hnone).
  exists s. split; [exact Hrun|]. split; [rewrite Hev; vm_compute; reflexivity|].
  apply Hnone. repeat split; vm_compute; discriminate || (intros H; discriminate H) || lia.
Defined.
