(* ===== verification/Storage.v ===== *)
(** * TraCI's wire format: storages and sockets

    [src/src/traci/sumo/foreign/tcpip/storage.{h,cpp}] and [socket.{h,cpp}]: the buffers
    from which messages to the traffic simulator are written and read, in network byte
    order whatever the byte order of the host, and the length-prefixed exchange of whole
    messages over a stream that delivers pieces of any size. *)

From S2P Require Import Prelude Float64.

(** ** Memory representation of numbers *)
(** The [n] bytes of a word, least significant first. *)
Fixpoint le_bytes (n : nat) (w : Z) : list Z :=
  match n with O => [] | S k => w mod 256 :: le_bytes k (w / 256) end.
Fixpoint of_le_bytes (l : list Z) : Z :=
  match l with [] => 0 | b :: l' => b + 256 * of_le_bytes l' end.

(** IEEE 754 binary64 (all NaNs are represented by the quiet one). *)
Definition bits_of_double (x : double) : Z :=
  let sign (s : bool) := if s then 2 ^ 63 else 0 in
  match x with
  | S754_zero s => sign s
  | S754_infinity s => sign s + 2047 * 2 ^ 52
  | S754_nan => 2047 * 2 ^ 52 + 2 ^ 51
  | S754_finite s m e =>
      sign s + (if Z.pos m <? 2 ^ 52 then Z.pos m else (e + 1075) * 2 ^ 52 + (Z.pos m - 2 ^ 52))
  end.
Definition double_of_bits (b : Z) : double :=
  let s := 2 ^ 63 <=? b in
  let ex := (b / 2 ^ 52) mod 2048 in
  let mant := b mod 2 ^ 52 in
  if ex =? 0 then match mant with Z.pos m => S754_finite s m (-1074) | _ => S754_zero s end
  else if ex =? 2047 then (if mant =? 0 then S754_infinity s else S754_nan)
  else match mant + 2 ^ 52 with Z.pos m => S754_finite s m (ex - 1075) | _ => S754_nan end.

(** ** Storage *)
Definition invalid_argument (what : string) : fault := StdException ("invalid_argument: " +:+ what).

(** The position is that of the read iterator; every write resets it. *)
Record Storage := mkStorage { store : list Z; iter_ : nat }.

Definition storage_empty : Storage := mkStorage [] 0.
Definition valid_pos (s : Storage) : bool := negb (Nat.eqb (iter_ s) (length (store s))).
Definition position (s : Storage) : Z := u32 (Z.of_nat (iter_ s)).
Definition storage_reset (s : Storage) : Storage := storage_empty.
Definition size (s : Storage) : Z := Z.of_nat (length (store s)).
Definition remaining (s : Storage) : list Z := drop (iter_ s) (store s).

Definition append (bytes : list Z) (s : Storage) : Storage := mkStorage (store s ++ bytes) 0.

Section Endianness.
Variable bigEndian_ : bool.

(** The bytes of an object of [n] bytes in memory. *)
Definition memory (n : nat) (w : Z) : list Z := if bigEndian_ then rev (le_bytes n w) else le_bytes n w.
Definition of_memory (l : list Z) : Z := of_le_bytes (if bigEndian_ then rev l else l).

Definition writeByEndianess (bytes : list Z) (s : Storage) : Storage :=
  append (if bigEndian_ then bytes else rev bytes) s.

(** The comparison is one of a signed distance with the argument converted to [int]. *)
Definition checkReadSafe (num : Z) (s : Storage) : res unit :=
  if Z.of_nat (length (remaining s)) <? swrap 32 num
  then Fail (invalid_argument "want to read more bytes than remaining") else Ok tt.

Definition readByEndianess (n : nat) (s : Storage) : res (list Z * Storage) :=
  checkReadSafe (Z.of_nat n) s ;;
  let bytes := take n (remaining s) in
  Ok (if bigEndian_ then bytes else rev bytes, mkStorage (store s) (iter_ s + n)).

Definition writeChar (v : Z) (s : Storage) : Storage := append [wrap 8 v] s.
Definition readChar (s : Storage) : res (Z * Storage) :=
  match remaining s with
  | b :: _ => Ok (b, mkStorage (store s) (S (iter_ s)))
  | [] => Fail (invalid_argument "Storage::readChar(): invalid position")
  end.

Definition writeByte (v : Z) (s : Storage) : res Storage :=
  if (v <? -128) || (127 <? v) then Fail (invalid_argument "Storage::writeByte()")
  else Ok (writeChar (Z.rem (v + 256) 256) s).
Definition readByte (s : Storage) : res (Z * Storage) :=
  r ← readChar s;
  let '(i, s) := r : Z * Storage in Ok (if i <? 128 then i else i - 256, s).
Definition writeUnsignedByte (v : Z) (s : Storage) : res Storage :=
  if (v <? 0) || (255 <? v) then Fail (invalid_argument "Storage::writeUnsignedByte()") else Ok (writeChar v s).
Definition readUnsignedByte (s : Storage) : res (Z * Storage) := readChar s.

Definition writeShort (v : Z) (s : Storage) : res Storage :=
  if (v <? -32768) || (32767 <? v) then Fail (invalid_argument "Storage::writeShort()")
  else Ok (writeByEndianess (memory 2 (u16 v)) s).
Definition readShort (s : Storage) : res (Z * Storage) :=
  r ← readByEndianess 2 s;
  let '(bytes, s) := r : list Z * Storage in Ok (swrap 16 (of_memory bytes), s).

(** The argument is an [int]. *)
Definition writeInt (v : Z) (s : Storage) : Storage := writeByEndianess (memory 4 (u32 v)) s.
Definition readInt (s : Storage) : res (Z * Storage) :=
  r ← readByEndianess 4 s;
  let '(bytes, s) := r : list Z * Storage in Ok (swrap 32 (of_memory bytes), s).

(** A [float] is the word that represents it; nothing is computed with one. *)
Definition writeFloat (word : Z) (s : Storage) : Storage := writeByEndianess (memory 4 (u32 word)) s.
Definition readFloat (s : Storage) : res (Z * Storage) :=
  r ← readByEndianess 4 s;
  let '(bytes, s) := r : list Z * Storage in Ok (of_memory bytes, s).
Definition writeDouble (v : double) (s : Storage) : Storage := writeByEndianess (memory 8 (bits_of_double v)) s.
Definition readDouble (s : Storage) : res (double * Storage) :=
  r ← readByEndianess 8 s;
  let '(bytes, s) := r : list Z * Storage in Ok (double_of_bits (of_memory bytes), s).

(** *** Strings *)
Definition bytes_of_string (s : string) : list Z := (fun a => Z.of_N (Ascii.N_of_ascii a)) <$> String.list_ascii_of_string s.
Definition string_of_bytes (l : list Z) : string :=
  String.string_of_list_ascii ((fun b => Ascii.ascii_of_N (Z.to_N b)) <$> l).

Definition writeString (v : string) (s : Storage) : Storage :=
  append (bytes_of_string v) (writeInt (Z.of_nat (String.length v)) s).

(** A negative length passes the check, and the range given to the string's constructor
    ends before it begins. *)
Definition readString (s : Storage) : res (string * Storage) :=
  r ← readInt s;
  let '(len, s) := r : Z * Storage in
  checkReadSafe (u32 len) s ;;
  if len <? 0 then Fail (Undefined "string of a range that ends before it begins")
  else Ok (string_of_bytes (take (Z.to_nat len) (remaining s)), mkStorage (store s) (iter_ s + Z.to_nat len)).

(** Reading [n] elements. *)
Fixpoint read_list {A} (read : Storage -> res (A * Storage)) (n : nat) (s : Storage) : res (list A * Storage) :=
  match n with
  | O => Ok ([], s)
  | S k =>
      r ← read s;
      let '(x, s) := r : A * Storage in
      r ← read_list read k s;
      let '(l, s) := r : list A * Storage in Ok (x :: l, s)
  end.
(** [reserve] of a negative size throws; a negative count of a loop runs no round. *)
Definition reserved_list {A} (read : Storage -> res (A * Storage)) (s : Storage) : res (list A * Storage) :=
  r ← readInt s;
  let '(len, s) := r : Z * Storage in
  if len <? 0 then Fail (StdException "length_error: vector::reserve") else read_list read (Z.to_nat len) s.
Definition readStringList (s : Storage) : res (list string * Storage) := reserved_list readString s.
Definition readDoubleList (s : Storage) : res (list double * Storage) := reserved_list readDouble s.
Definition writeStringList (l : list string) (s : Storage) : Storage :=
  foldl (fun s x => writeString x s) (writeInt (Z.of_nat (length l)) s) l.
Definition writeDoubleList (l : list double) (s : Storage) : Storage :=
  foldl (fun s x => writeDouble x s) (writeInt (Z.of_nat (length l)) s) l.

Definition writePacket (packet : list Z) (s : Storage) : Storage := append packet s.
(** What has not been read of the other storage. *)
Definition writeStorage (other : Storage) (s : Storage) : Storage := append (remaining other) s.

(** ** Socket *)
Definition lengthLen : Z := 4.

(** The stream of bytes still to be received; [piece n] is what the [n]-th [recv] is ready
    to deliver (a number of bytes, or nothing at all when the peer shuts down, or an
    error).  Sending appends to what the peer will see; [sent n] is what the [n]-th [send]
    takes of the bytes offered. *)
Inductive transfer := Bytes (n : nat) | Shutdown | SocketError.
Variable piece : nat -> transfer.
Variable sent : nat -> transfer.

Record Socket := mkSocket { incoming : list Z; outgoing : list Z; recvs : nat; sends : nat }.

Definition SocketException (what : string) : fault := StdException ("SocketException: " +:+ what).

(** A [recv] of up to [len] bytes delivers at least one. *)
Definition recvAndCheck (len : nat) (k : Socket) : res (list Z * Socket) :=
  match piece (recvs k) with
  | Bytes n =>
      let n := Nat.min len (Nat.max 1 n) in
      if Nat.leb n (length (incoming k))
      then Ok (take n (incoming k), mkSocket (drop n (incoming k)) (outgoing k) (S (recvs k)) (sends k))
      else Fail (Undefined "recv blocks for bytes that never come")
  | Shutdown => Fail (SocketException "recv: peer shutdown")
  | SocketError => Fail (SocketException "recv")
  end.

Fixpoint receive_loop (fuel len : nat) (k : Socket) : res (list Z * Socket) :=
  match len with
  | O => Ok ([], k)
  | _ =>
      match fuel with
      | O => Fail (Undefined "fuel")
      | S f =>
          r ← recvAndCheck len k;
          let '(bytes, k) := r : list Z * Socket in
          r ← receive_loop f (len - length bytes) k;
          let '(rest, k) := r : list Z * Socket in Ok (bytes ++ rest, k)
      end
  end.
Definition receiveComplete (len : nat) (k : Socket) : res (list Z * Socket) := receive_loop len len k.

Definition receiveExact (k : Socket) : res (Storage * Socket) :=
  r ← receiveComplete (Z.to_nat lengthLen) k;
  let '(head, k) := r : list Z * Socket in
  r ← readInt (mkStorage head 0);
  let '(totalLen, _) := r : Z * Storage in
  assert_ "totalLen > lengthLen" (lengthLen <? totalLen) ;;
  r ← receiveComplete (Z.to_nat (totalLen - lengthLen)) k;
  let '(content, k) := r : list Z * Socket in
  Ok (writePacket content storage_empty, k).

(** [send] takes any number of the bytes offered, none included. *)
Fixpoint send_loop (fuel : nat) (bytes : list Z) (k : Socket) : res Socket :=
  match bytes with
  | [] => Ok k
  | _ =>
      match fuel with
      | O => Fail (Undefined "fuel")
      | S f =>
          match sent (sends k) with
          | Bytes n =>
              send_loop f (drop n bytes) (mkSocket (incoming k) (outgoing k ++ take n bytes) (recvs k) (S (sends k)))
          | _ => Fail (SocketException "send failed")
          end
      end
  end.

(** The length is an [int]; the fuel is enough if every [send] takes a byte. *)
Definition sendExact (b : Storage) (k : Socket) : res Socket :=
  let length_storage := writeInt (lengthLen + size b) storage_empty in
  let msg := store length_storage ++ store b in
  send_loop (length msg) msg k.
End Endianness.

(** ** Bytes *)
Lemma le_bytes_length n w : length (le_bytes n w) = n.
Proof. revert w. induction n; intros w; cbn; congruence. Qed.

Lemma of_le_bytes_le_bytes n w : 0 <= w < 256 ^ Z.of_nat n -> of_le_bytes (le_bytes n w) = w.
Proof.
  revert w. induction n as [|n IH]; intros w Hw; cbn [le_bytes of_le_bytes]; [cbn in Hw; lia|].
  rewrite Nat2Z.inj_succ, Z.pow_succ_r in Hw by lia. rewrite IH.
  - pose proof (Z.div_mod w 256). lia.
  - split; [apply Z.div_pos; lia|]. apply Z.div_lt_upper_bound; lia.
Qed.

Lemma swrap_wrap w z : 0 < w -> - 2 ^ (w - 1) <= z < 2 ^ (w - 1) -> swrap w (wrap w z) = z.
Proof.
  intros Hw Hz. unfold swrap, wrap. rewrite Zplus_mod_idemp_l. apply (swrap_small w z Hw Hz).
Qed.

(** Bytes on the wire: the most significant first. *)
Definition be_bytes (n : nat) (w : Z) : list Z := rev (le_bytes n w).

Lemma be_bytes_length n w : length (be_bytes n w) = n.
Proof. unfold be_bytes. by rewrite length_rev, le_bytes_length. Qed.

Section Wire.
Variable big : bool.

Lemma writeByEndianess_wire n w s : writeByEndianess big (memory big n w) s = append (be_bytes n w) s.
Proof. unfold writeByEndianess, memory, be_bytes. by destruct big. Qed.

Lemma of_memory_wire n w : 0 <= w < 256 ^ Z.of_nat n ->
  of_memory big (if big then be_bytes n w else rev (be_bytes n w)) = w.
Proof.
  intros Hw. unfold of_memory, be_bytes. destruct big; rewrite rev_involutive; by apply of_le_bytes_le_bytes.
Qed.

(** A reader consumes exactly these bytes and returns this value, wherever they stand. *)
Definition reads {A} (read : Storage -> res (A * Storage)) (bytes : list Z) (x : A) : Prop :=
  forall pre rest, read (mkStorage (pre ++ bytes ++ rest) (length pre)) =
    Ok (x, mkStorage (pre ++ bytes ++ rest) (length pre + length bytes)).

Lemma reads_ret {A} (x : A) : reads (fun s => Ok (x, s)) [] x.
Proof. intros pre rest. by rewrite Nat.add_0_r. Qed.

Lemma reads_bind {A B} (r : Storage -> res (A * Storage)) (k : A -> Storage -> res (B * Storage)) b1 b2 x y :
  reads r b1 x -> reads (k x) b2 y ->
  reads (fun s => t ← r s; let '(a, s) := t : A * Storage in k a s) (b1 ++ b2) y.
Proof.
  intros H1 H2 pre rest. rewrite <- app_assoc, H1. cbn [mbind res_bind].
  specialize (H2 (pre ++ b1) rest). rewrite !length_app, <- !app_assoc in *. rewrite H2. do 3 f_equal. lia.
Qed.

Lemma reads_map {A B} (r : Storage -> res (A * Storage)) (f : A -> B) b x :
  reads r b x -> reads (fun s => t ← r s; let '(a, s) := t : A * Storage in Ok (f a, s)) b (f x).
Proof. intros H pre rest. by rewrite H. Qed.

Lemma remaining_at pre l : remaining (mkStorage (pre ++ l) (length pre)) = l.
Proof. unfold remaining. cbn. apply drop_app_length. Qed.

Lemma reads_bytes n bytes : length bytes = n -> Z.of_nat n < 2 ^ 31 ->
  reads (readByEndianess big n) bytes (if big then bytes else rev bytes).
Proof.
  intros Hl Hn pre rest. unfold readByEndianess, checkReadSafe. rewrite remaining_at, length_app.
  rewrite swrap_small by (cbn; lia). rewrite (proj2 (Z.ltb_ge _ _)) by lia. cbn [mbind res_bind store iter_].
  rewrite <- Hl, take_app_length. done.
Qed.

Lemma reads_word {A} (f : list Z -> A) n w :
  0 <= w < 256 ^ Z.of_nat n -> Z.of_nat n < 2 ^ 31 ->
  reads (fun s => t ← readByEndianess big n s; let '(b, s) := t : list Z * Storage in Ok (f b, s))
    (be_bytes n w) (f (if big then be_bytes n w else rev (be_bytes n w))).
Proof. intros Hw Hn. apply reads_map, reads_bytes; [apply be_bytes_length|done]. Qed.

Lemma reads_int v : - 2 ^ 31 <= v < 2 ^ 31 -> reads (readInt big) (be_bytes 4 (u32 v)) v.
Proof.
  intros Hv. unfold readInt.
  pose proof (reads_word (fun b => swrap 32 (of_memory big b)) 4 (u32 v)) as H.
  cbn beta in H. rewrite of_memory_wire in H by (apply (wrap_range 32); lia).
  unfold u32 in H at 3. rewrite swrap_wrap in H by lia. apply H; [apply (wrap_range 32); lia|done].
Qed.

Lemma reads_short v : - 2 ^ 15 <= v < 2 ^ 15 -> reads (readShort big) (be_bytes 2 (u16 v)) v.
Proof.
  intros Hv. unfold readShort.
  pose proof (reads_word (fun b => swrap 16 (of_memory big b)) 2 (u16 v)) as H.
  cbn beta in H. rewrite of_memory_wire in H by (apply (wrap_range 16); lia).
  unfold u16 in H at 3. rewrite swrap_wrap in H by lia. apply H; [apply (wrap_range 16); lia|done].
Qed.

Lemma reads_unsigned_byte v : reads readUnsignedByte [v] v.
Proof.
  intros pre rest. unfold readUnsignedByte, readChar. rewrite remaining_at. cbn. by rewrite Nat.add_1_r.
Qed.

Lemma reads_byte v : -128 <= v <= 127 -> reads readByte [wrap 8 (Z.rem (v + 256) 256)] v.
Proof.
  intros Hv. unfold readByte. pose proof (reads_map readChar (fun i => if i <? 128 then i else i - 256) _ _
    (reads_unsigned_byte (wrap 8 (Z.rem (v + 256) 256)))) as H.
  replace v with ((fun i => if i <? 128 then i else i - 256) (wrap 8 (Z.rem (v + 256) 256))) at 2; [exact H|].
  cbn beta. unfold wrap. rewrite Z.rem_mod_nonneg by lia. change (2 ^ 8) with 256. rewrite Zmod_mod.
  destruct (Z.ltb_spec v 0).
  - rewrite Z.mod_small by lia. zcases; lia.
  - replace (v + 256) with (v + 1 * 256) by lia. rewrite Z_mod_plus_full, Z.mod_small by lia. zcases; lia.
Qed.
End Wire.

(** ** Doubles *)
Definition d_valid (x : double) : Prop :=
  match x with S754_finite _ m e => bounded dprec demax m e = true | _ => True end.

(** A finite double is subnormal, or has a mantissa of 53 bits and an exponent in range. *)
Lemma finite_cases m e : bounded dprec demax m e = true ->
  (Z.pos m < 2 ^ 52 /\ e = -1074) \/ (2 ^ 52 <= Z.pos m < 2 ^ 53 /\ -1074 <= e <= 971).
Proof.
  unfold bounded, canonical_mantissa, SpecFloat.fexp, SpecFloat.emin, dprec, demax.
  rewrite andb_true_iff, Z.eqb_eq, Z.leb_le. intros [Hc He]. pose proof (digits_bounds m) as [Hd1 Hd2].
  set (d := Z.pos (digits2_pos m)) in *. assert (0 < d) by done.
  assert (d <= 53) as Hd by lia. destruct (decide (d = 53)) as [Hd'|Hd'].
  - right. rewrite Hd' in *. change (53 - 1) with 52 in Hd1. lia.
  - left. assert (2 ^ d <= 2 ^ 52) by (apply Z.pow_le_mono_r; lia). lia.
Qed.

Lemma bits_split (s : bool) ex mant : 0 <= ex < 2048 -> 0 <= mant < 2 ^ 52 ->
  let b := (if s then 2 ^ 63 else 0) + (ex * 2 ^ 52 + mant) in
  (2 ^ 63 <=? b) = s /\ (b / 2 ^ 52) mod 2048 = ex /\ b mod 2 ^ 52 = mant /\ 0 <= b < 2 ^ 64.
Proof.
  intros He Hm b. assert (b = ((if s then 2048 else 0) + ex) * 2 ^ 52 + mant) as Hb by (unfold b; destruct s; lia).
  split_and!.
  - unfold b. destruct s; [apply Z.leb_le; lia|apply Z.leb_gt; lia].
  - rewrite Hb, Z.div_add_l, Z.div_small, Z.add_0_r by lia. destruct s; [|by apply Z.mod_small].
    replace (2048 + ex) with (ex + 1 * 2048) by lia. by rewrite Z_mod_plus_full, Z.mod_small.
  - rewrite Hb, Z.add_comm, Z_mod_plus_full. by apply Z.mod_small.
  - unfold b. destruct s; lia.
  - unfold b. destruct s; lia.
Qed.

Lemma double_bits x : d_valid x -> double_of_bits (bits_of_double x) = x /\ 0 <= bits_of_double x < 2 ^ 64.
Proof.
  unfold double_of_bits. destruct x as [s|s| |s m e]; cbn [d_valid bits_of_double].
  - intros _. destruct (bits_split s 0 0) as (H1 & H2 & H3 & H4); [lia|lia|].
    change (0 * 2 ^ 52 + 0) with 0 in *. rewrite Z.add_0_r in *. by rewrite H1, H2, H3.
  - intros _. destruct (bits_split s 2047 0) as (H1 & H2 & H3 & H4); [lia|lia|].
    rewrite Z.add_0_r in *. by rewrite H1, H2, H3.
  - done.
  - intros Hb. destruct (finite_cases m e Hb) as [[Hm ->]|[Hm He]].
    + rewrite (proj2 (Z.ltb_lt _ _)) by done. destruct (bits_split s 0 (Z.pos m)) as (H1 & H2 & H3 & H4); [lia|lia|].
      change (0 * 2 ^ 52) with 0 in *. rewrite Z.add_0_l in *. by rewrite H1, H2, H3.
    + rewrite (proj2 (Z.ltb_ge _ _)) by lia.
      destruct (bits_split s (e + 1075) (Z.pos m - 2 ^ 52)) as (H1 & H2 & H3 & H4); [lia|lia|]. rewrite H1, H2, H3.
      rewrite (proj2 (Z.eqb_neq _ _)) by lia. rewrite (proj2 (Z.eqb_neq _ _)) by lia.
      replace (Z.pos m - 2 ^ 52 + 2 ^ 52) with (Z.pos m) by lia. replace (e + 1075 - 1075) with e by lia. done.
Qed.

Lemma reads_double big x : d_valid x -> reads (readDouble big) (be_bytes 8 (bits_of_double x)) x.
Proof.
  intros Hx. destruct (double_bits x Hx) as [Hd Hr]. unfold readDouble.
  pose proof (reads_word big (fun b => double_of_bits (of_memory big b)) 8 (bits_of_double x)) as H. cbn beta in H.
  rewrite of_memory_wire, Hd in H by (cbn; lia). apply H; [cbn; lia|done].
Qed.

(** ** Strings and lists *)
Lemma append_append b1 b2 s : append b2 (append b1 s) = append (b1 ++ b2) s.
Proof. unfold append. cbn [store]. by rewrite app_assoc. Qed.

Lemma bytes_of_string_length s : length (bytes_of_string s) = String.length s.
Proof.
  unfold bytes_of_string. rewrite length_fmap. induction s as [|a s IH]; [done|]. cbn. by rewrite IH.
Qed.
Lemma string_of_bytes_of_string s : string_of_bytes (bytes_of_string s) = s.
Proof.
  unfold string_of_bytes, bytes_of_string. induction s as [|a s IH]; [done|]. cbn.
  rewrite N2Z.id, Ascii.ascii_N_embedding. f_equal. exact IH.
Qed.

Section Lists.
Variable big : bool.

Definition wire_string (s : string) : list Z := be_bytes 4 (u32 (Z.of_nat (String.length s))) ++ bytes_of_string s.

Lemma writeString_wire s st : writeString big s st = append (wire_string s) st.
Proof. unfold writeString, writeInt, wire_string. by rewrite writeByEndianess_wire, append_append. Qed.

Lemma reads_string s : Z.of_nat (String.length s) < 2 ^ 31 -> reads (readString big) (wire_string s) s.
Proof.
  intros Hs. unfold readString, wire_string. apply reads_bind with (x := Z.of_nat (String.length s)).
  - apply reads_int. lia.
  - intros pre rest. unfold checkReadSafe. rewrite remaining_at, length_app, bytes_of_string_length.
    rewrite u32_small, swrap_small by lia. rewrite (proj2 (Z.ltb_ge _ _)) by lia. cbn [mbind res_bind].
    rewrite (proj2 (Z.ltb_ge _ _)) by lia. rewrite Nat2Z.id, <- bytes_of_string_length, take_app_length.
    by rewrite string_of_bytes_of_string.
Qed.

Lemma reads_list {A} (read : Storage -> res (A * Storage)) (wire : A -> list Z) l :
  Forall (fun x => reads read (wire x) x) l -> reads (read_list read (length l)) (concat (wire <$> l)) l.
Proof.
  induction 1 as [|x l Hx Hl IH]; cbn [length read_list]; [apply reads_ret|].
  cbn [fmap list_fmap concat]. eapply reads_bind; [exact Hx|].
  pose proof (reads_map (read_list read (length l)) (cons x) _ _ IH) as H. exact H.
Qed.

Lemma reads_reserved_list {A} (read : Storage -> res (A * Storage)) (wire : A -> list Z) l :
  Z.of_nat (length l) < 2 ^ 31 -> Forall (fun x => reads read (wire x) x) l ->
  reads (reserved_list big read) (be_bytes 4 (u32 (Z.of_nat (length l))) ++ concat (wire <$> l)) l.
Proof.
  intros Hn Hl. unfold reserved_list. apply reads_bind with (x := Z.of_nat (length l)); [apply reads_int; lia|].
  intros pre rest. rewrite (proj2 (Z.ltb_ge _ _)) by lia. rewrite Nat2Z.id. by apply reads_list.
Qed.

Lemma foldl_append {A} (write : A -> Storage -> Storage) (wire : A -> list Z) l st bytes :
  (forall x s, write x s = append (wire x) s) ->
  foldl (fun s x => write x s) (append bytes st) l = append (bytes ++ concat (wire <$> l)) st.
Proof.
  intros Hw. revert bytes. induction l as [|x l IH]; intros bytes; cbn [foldl fmap list_fmap concat]; [by rewrite app_nil_r|].
  by rewrite Hw, append_append, IH, app_assoc.
Qed.
End Lists.

(** ** Whole messages *)
Inductive value :=
| VUnsignedByte (v : Z) | VByte (v : Z) | VShort (v : Z) | VInt (v : Z) | VDouble (v : double)
| VString (v : string) | VStringList (v : list string) | VDoubleList (v : list double).

Definition write_value (big : bool) (v : value) (s : Storage) : res Storage :=
  match v with
  | VUnsignedByte v => writeUnsignedByte v s
  | VByte v => writeByte v s
  | VShort v => writeShort big v s
  | VInt v => Ok (writeInt big v s)
  | VDouble v => Ok (writeDouble big v s)
  | VString v => Ok (writeString big v s)
  | VStringList v => Ok (writeStringList big v s)
  | VDoubleList v => Ok (writeDoubleList big v s)
  end.

(** Reading a value of the same type. *)
Definition read_value (big : bool) (type : value) (s : Storage) : res (value * Storage) :=
  match type with
  | VUnsignedByte _ => t ← readUnsignedByte s; let '(v, s) := t : Z * Storage in Ok (VUnsignedByte v, s)
  | VByte _ => t ← readByte s; let '(v, s) := t : Z * Storage in Ok (VByte v, s)
  | VShort _ => t ← readShort big s; let '(v, s) := t : Z * Storage in Ok (VShort v, s)
  | VInt _ => t ← readInt big s; let '(v, s) := t : Z * Storage in Ok (VInt v, s)
  | VDouble _ => t ← readDouble big s; let '(v, s) := t : double * Storage in Ok (VDouble v, s)
  | VString _ => t ← readString big s; let '(v, s) := t : string * Storage in Ok (VString v, s)
  | VStringList _ => t ← readStringList big s; let '(v, s) := t : list string * Storage in Ok (VStringList v, s)
  | VDoubleList _ => t ← readDoubleList big s; let '(v, s) := t : list double * Storage in Ok (VDoubleList v, s)
  end.

(** The values of C++ types that fit: signed integers of their width, strings and lists
    whose size is an [int]. *)
Definition fits {A} (l : list A) : Prop := Z.of_nat (length l) < 2 ^ 31.
Definition fits_string (s : string) : Prop := Z.of_nat (String.length s) < 2 ^ 31.
Definition valid_value (v : value) : Prop :=
  match v with
  | VUnsignedByte v => 0 <= v <= 255
  | VByte v => -128 <= v <= 127
  | VShort v => - 2 ^ 15 <= v < 2 ^ 15
  | VInt v => - 2 ^ 31 <= v < 2 ^ 31
  | VDouble v => d_valid v
  | VString v => fits_string v
  | VStringList v => fits v /\ Forall fits_string v
  | VDoubleList v => fits v /\ Forall d_valid v
  end.

Definition wire_double (v : double) : list Z := be_bytes 8 (bits_of_double v).
Definition wire_value (v : value) : list Z :=
  match v with
  | VUnsignedByte v => [v]
  | VByte v => [wrap 8 (Z.rem (v + 256) 256)]
  | VShort v => be_bytes 2 (u16 v)
  | VInt v => be_bytes 4 (u32 v)
  | VDouble v => wire_double v
  | VString v => wire_string v
  | VStringList v => be_bytes 4 (u32 (Z.of_nat (length v))) ++ concat (wire_string <$> v)
  | VDoubleList v => be_bytes 4 (u32 (Z.of_nat (length v))) ++ concat (wire_double <$> v)
  end.

Lemma writeInt_wire big v s : writeInt big v s = append (be_bytes 4 (u32 v)) s.
Proof. apply writeByEndianess_wire. Qed.
Lemma writeDouble_wire big v s : writeDouble big v s = append (wire_double v) s.
Proof. apply writeByEndianess_wire. Qed.

Lemma write_value_wire big v s : valid_value v -> write_value big v s = Ok (append (wire_value v) s).
Proof.
  destruct v as [v|v|v|v|v|v|v|v]; cbn [valid_value write_value wire_value]; intros Hv.
  - unfold writeUnsignedByte. rewrite (proj2 (Z.ltb_ge v 0)), (proj2 (Z.ltb_ge 255 v)) by lia. cbn [orb].
    unfold writeChar. rewrite (wrap_small 8) by (cbn; lia). done.
  - unfold writeByte. by rewrite (proj2 (Z.ltb_ge v _)), (proj2 (Z.ltb_ge 127 v)) by lia.
  - unfold writeShort. rewrite (proj2 (Z.ltb_ge v _)), (proj2 (Z.ltb_ge 32767 v)) by lia. cbn [orb].
    by rewrite writeByEndianess_wire.
  - by rewrite writeInt_wire.
  - by rewrite writeDouble_wire.
  - by rewrite writeString_wire.
  - unfold writeStringList. rewrite writeInt_wire, (foldl_append _ wire_string); [done|]. apply writeString_wire.
  - unfold writeDoubleList. rewrite writeInt_wire, (foldl_append _ wire_double); [done|]. apply writeDouble_wire.
Qed.

Lemma reads_value big v : valid_value v -> reads (read_value big v) (wire_value v) v.
Proof.
  destruct v as [v|v|v|v|v|v|v|v]; cbn [valid_value read_value wire_value]; intros Hv.
  - apply (reads_map _ VUnsignedByte), reads_unsigned_byte.
  - by apply (reads_map _ VByte), reads_byte.
  - by apply (reads_map _ VShort), reads_short.
  - by apply (reads_map _ VInt), reads_int.
  - by apply (reads_map _ VDouble), reads_double.
  - by apply (reads_map _ VString), reads_string.
  - apply (reads_map _ VStringList), reads_reserved_list; [apply Hv|].
    eapply Forall_impl; [apply Hv|]. intros x Hx. by apply reads_string.
  - apply (reads_map _ VDoubleList), reads_reserved_list; [apply Hv|].
    eapply Forall_impl; [apply Hv|]. intros x Hx. by apply reads_double.
Qed.

Definition write_values (big : bool) (vs : list value) : res Storage :=
  res_fold (fun s v => write_value big v s) vs storage_empty.
Fixpoint read_values (big : bool) (types : list value) (s : Storage) : res (list value * Storage) :=
  match types with
  | [] => Ok ([], s)
  | t :: types' =>
      r ← read_value big t s;
      let '(v, s) := r : value * Storage in
      r ← read_values big types' s;
      let '(vs, s) := r : list value * Storage in Ok (v :: vs, s)
  end.

Definition wire_values (vs : list value) : list Z := concat (wire_value <$> vs).

Lemma write_values_wire big vs bytes : Forall valid_value vs ->
  res_fold (fun s v => write_value big v s) vs (mkStorage bytes 0) = Ok (mkStorage (bytes ++ wire_values vs) 0).
Proof.
  intros Hv. revert bytes. induction Hv as [|v vs Hv Hvs IH]; intros bytes; cbn [res_fold]; [by rewrite app_nil_r|].
  rewrite write_value_wire by done. cbn [mbind res_bind]. unfold append. cbn [store]. rewrite IH.
  unfold wire_values. cbn [fmap list_fmap concat]. by rewrite app_assoc.
Qed.

Lemma reads_values big vs : Forall valid_value vs -> reads (read_values big vs) (wire_values vs) vs.
Proof.
  induction 1 as [|v vs Hv Hvs IH]; cbn [read_values]; [apply reads_ret|].
  unfold wire_values. cbn [fmap list_fmap concat]. eapply reads_bind; [by apply reads_value|].
  pose proof (reads_map (read_values big vs) (cons v) _ _ IH) as H. exact H.
Qed.

(** What one host writes into a storage any host reads back: every sequence of values
    in the ranges of their types (bytes, shorts, integers, doubles, strings and lists of
    them) is written to the same bytes whatever the byte order of the writing host, and
    is read back by a host of any byte order exactly, value for value, with nothing left
    over. *)
Theorem storage_roundtrip (writer reader : bool) (vs : list value) :
  Forall valid_value vs ->
  exists s s', write_values writer vs = Ok s /\ store s = wire_values vs /\
    read_values reader vs s = Ok (vs, s') /\ valid_pos s' = false.
Proof.
  intros Hv. exists (mkStorage (wire_values vs) 0), (mkStorage (wire_values vs) (length (wire_values vs))).
  split_and!; [apply (write_values_wire writer vs [] Hv)|done| |].
  - pose proof (reads_values reader vs Hv [] []) as H. cbn [app length] in H. rewrite app_nil_r in H.
    rewrite Nat.add_0_l in H. exact H.
  - unfold valid_pos. cbn. by rewrite Nat.eqb_refl.
Qed.

Definition ex_values : list value :=
  [VUnsignedByte 0xa4; VByte (-3); VShort (-300); VInt (-70000); VDouble (d_lit 1 10); VDouble (S754_finite true 1 (-1074));
   VString "veh_12"; VStringList ["a"; ""]; VDoubleList [d_zero; d_inf]].

Lemma storage_roundtrip_witness :
  exists s s', write_values false ex_values = Ok s /\ store s = wire_values ex_values /\
    read_values true ex_values s = Ok (ex_values, s') /\ valid_pos s' = false.
Proof.
  apply storage_roundtrip. repeat constructor; vm_compute; try done; intros H; discriminate H.
Defined.

Example wire_of_int : wire_values [VInt (-2); VString "ab"] = [255; 255; 255; 254; 0; 0; 0; 2; 97; 98].
Proof. vm_compute. reflexivity. Qed.
(** A negative string length is not noticed by the check. *)
Example negative_string_length :
  readString false (mkStorage [255; 255; 255; 254; 97; 98] 0) =
    Fail (Undefined "string of a range that ends before it begins").
Proof. vm_compute. reflexivity. Qed.

(** ** Exchange of messages *)
Section Exchange.
Variable piece sent : nat -> transfer.

(** Every [recv] and [send] moves at least a byte. *)
Definition flowing (t : nat -> transfer) : Prop := forall n, exists k, t n = Bytes (S k).

Lemma recv_spec len k : flowing piece -> (0 < len <= length (incoming k))%nat ->
  exists n, (0 < n <= len)%nat /\ recvAndCheck piece len k =
    Ok (take n (incoming k), mkSocket (drop n (incoming k)) (outgoing k) (S (recvs k)) (sends k)).
Proof.
  intros Hp Hl. unfold recvAndCheck. destruct (Hp (recvs k)) as [m ->].
  exists (Nat.min len (Nat.max 1 (S m))). split; [lia|]. by rewrite (proj2 (Nat.leb_le _ _)) by lia.
Qed.

Lemma receive_loop_spec fuel len k : flowing piece -> (len <= fuel)%nat -> (len <= length (incoming k))%nat ->
  exists r, receive_loop piece fuel len k =
    Ok (take len (incoming k), mkSocket (drop len (incoming k)) (outgoing k) r (sends k)).
Proof.
  intros Hp. revert len k. induction fuel as [|f IH]; intros len k Hf Hl.
  - assert (len = 0%nat) as -> by lia. cbn. rewrite drop_0. destruct k. by eexists.
  - destruct len as [|len]; [cbn; rewrite drop_0; destruct k; by eexists|]. cbn [receive_loop].
    destruct (recv_spec (S len) k Hp ltac:(lia)) as (n & Hn & ->). cbn [mbind res_bind].
    rewrite length_take, Nat.min_l by lia.
    destruct (IH (S len - n)%nat (mkSocket (drop n (incoming k)) (outgoing k) (S (recvs k)) (sends k))) as [r ->];
      [lia|cbn; rewrite length_drop; lia|].
    cbn [mbind res_bind incoming outgoing sends]. exists r. rewrite take_drop_commute, drop_drop.
    replace (n + (S len - n))%nat with (S len) by lia.
    rewrite <- (take_drop n (take (S len) (incoming k))) at 2. rewrite take_take, Nat.min_l by lia. done.
Qed.

Lemma send_loop_spec fuel bytes k : flowing sent -> (length bytes <= fuel)%nat ->
  exists n, send_loop sent fuel bytes k = Ok (mkSocket (incoming k) (outgoing k ++ bytes) (recvs k) n).
Proof.
  intros Hs. revert bytes k. induction fuel as [|f IH]; intros bytes k Hf.
  - destruct bytes; [|cbn in Hf; lia]. cbn. destruct k. cbn. rewrite app_nil_r. by eexists.
  - destruct bytes as [|b l]; [cbn; destruct k; cbn; rewrite app_nil_r; by eexists|]. cbn [send_loop].
    destruct (Hs (sends k)) as [m ->].
    destruct (IH (drop (S m) (b :: l)) (mkSocket (incoming k) (outgoing k ++ take (S m) (b :: l)) (recvs k) (S (sends k))))
      as [n ->]; [rewrite length_drop; cbn in *; lia|].
    exists n. cbn [incoming outgoing recvs]. by rewrite <- app_assoc, take_drop.
Qed.

Lemma reads_at_start {A} (read : Storage -> res (A * Storage)) bytes x :
  reads read bytes x -> read (mkStorage bytes 0) = Ok (x, mkStorage bytes (length bytes)).
Proof. intros H. specialize (H [] []). cbn [app length] in H. by rewrite app_nil_r in H. Qed.

(** A message on the stream: its length, the length's own four bytes included, and its bytes. *)
Definition framed (msg : list Z) : list Z := be_bytes 4 (u32 (4 + Z.of_nat (length msg))) ++ msg.

Lemma sendExact_framed sender b k : flowing sent ->
  exists n, sendExact sender sent b k = Ok (mkSocket (incoming k) (outgoing k ++ framed (store b)) (recvs k) n).
Proof.
  intros Hs. unfold sendExact. rewrite writeInt_wire. unfold append, storage_empty, lengthLen. cbn [store app].
  by apply send_loop_spec.
Qed.

Lemma receiveExact_framed receiver msg rest k : flowing piece -> 4 + Z.of_nat (length msg) < 2 ^ 31 ->
  incoming k = framed msg ++ rest ->
  if (0 <? Z.of_nat (length msg))
  then exists r, receiveExact receiver piece k = Ok (mkStorage msg 0, mkSocket rest (outgoing k) r (sends k))
  else receiveExact receiver piece k = Fail (AssertFailed "totalLen > lengthLen").
Proof.
  intros Hp Hb Hin. unfold receiveExact, receiveComplete. change (Z.to_nat lengthLen) with 4%nat.
  unfold framed in Hin. rewrite <- app_assoc in Hin.
  set (head := be_bytes 4 (u32 (4 + Z.of_nat (length msg)))) in *. assert (length head = 4%nat) as Hh by apply be_bytes_length.
  destruct (receive_loop_spec 4 4 k Hp ltac:(lia)) as [r ->]; [rewrite Hin, length_app; lia|].
  unfold lengthLen. rewrite Hin. rewrite <- Hh, take_app_length, drop_app_length. cbn [mbind res_bind].
  rewrite (reads_at_start (readInt receiver) head (4 + Z.of_nat (length msg))) by (apply reads_int; lia). cbn [mbind res_bind].
  replace (4 <? 4 + Z.of_nat (length msg)) with (0 <? Z.of_nat (length msg)) by (zcases; lia).
  destruct (Z.ltb_spec 0 (Z.of_nat (length msg))) as [Hpos|_]; cbn [assert_ mbind res_bind]; [|done].
  replace (Z.to_nat (4 + Z.of_nat (length msg) - 4)) with (length msg) by lia.
  destruct (receive_loop_spec (length msg) (length msg) (mkSocket (msg ++ rest) (outgoing k) r (sends k)) Hp
    ltac:(lia)) as [r' ->]; [cbn; rewrite length_app; lia|].
  exists r'. cbn [mbind res_bind incoming outgoing sends]. rewrite take_app_length, drop_app_length. done.
Qed.

(** Messages keep their boundaries on the stream: a storage sent by a host of any byte
    order, in pieces of any sizes, is received by a host of any byte order in pieces of
    any sizes as exactly this storage, and the bytes behind it stay for the next message;
    both loops end.  An empty storage arrives too, but fails the receiver's assertion. *)
Theorem exact_exchange (sender receiver : bool) (b : Storage) (from to : Socket) (rest : list Z) :
  flowing piece -> flowing sent -> 4 + size b < 2 ^ 31 ->
  exists from', sendExact sender sent b from = Ok from' /\
    outgoing from' = outgoing from ++ be_bytes 4 (u32 (4 + size b)) ++ store b /\
    (incoming to = be_bytes 4 (u32 (4 + size b)) ++ store b ++ rest ->
     if 0 <? size b then
       exists r, receiveExact receiver piece to =
         Ok (mkStorage (store b) 0, mkSocket rest (outgoing to) r (sends to))
     else receiveExact receiver piece to = Fail (AssertFailed "totalLen > lengthLen")).
Proof.
  intros Hp Hs Hb. destruct (sendExact_framed sender b from Hs) as [n ->]. eexists. split; [done|]. split; [done|].
  intros Hin. apply receiveExact_framed; [done|done|]. rewrite Hin. unfold framed, size. by rewrite <- app_assoc.
Qed.
End Exchange.

Definition ex_pieces (n : nat) : transfer := Bytes 3.
Lemma exact_exchange_witness :
  exists from', sendExact false ex_pieces (mkStorage [1; 2; 3; 4; 5] 0) (mkSocket [] [] 0 0) = Ok from' /\
    exists r, receiveExact true ex_pieces (mkSocket (outgoing from' ++ [9; 9]) [] 0 0) =
      Ok (mkStorage [1; 2; 3; 4; 5] 0, mkSocket [9; 9] [] r 0).
Proof.
  destruct (exact_exchange ex_pieces ex_pieces false true (mkStorage [1; 2; 3; 4; 5] 0) (mkSocket [] [] 0 0)
    (mkSocket ((be_bytes 4 (u32 9) ++ [1; 2; 3; 4; 5]) ++ [9; 9]) [] 0 0) [9; 9]) as (from' & Hs & Ho & Hr).
  - intros n. by exists 2%nat.
  - intros n. by exists 2%nat.
  - vm_compute. reflexivity.
  - exists from'. split; [exact Hs|]. rewrite Ho. apply Hr. reflexivity.
Defined.
