(* ===== verification/TraciClient.v ===== *)
(** * TraCI client

    [src/src/traci/sumo/utils/traci/TraCIAPI.{h,cpp}] and [src/src/traci/API.cc]: the
    client of the traffic simulator, on top of the storages and the socket of
    [Storage].  Commands are framed and sent, the simulator's answers are checked and
    decoded, and the results of subscriptions are collected per domain.  The
    simulator itself is what the socket delivers.

    The storages [myOutput] and [myInput] are reset before each use; they are local
    values here. *)

From S2P Require Import Prelude OMap Float64 TraciCache Storage.

(** ** Constants of [TraCIConstants.h] *)
Definition CMD_GETVERSION : Z := 0x00.
Definition CMD_LOAD : Z := 0x01.
Definition CMD_SIMSTEP : Z := 0x02.
Definition CMD_SETORDER : Z := 0x03.
Definition CMD_CLOSE : Z := 0x7f.
Definition POSITION_LON_LAT : Z := 0x00.
Definition POSITION_2D : Z := 0x01.
Definition POSITION_LON_LAT_ALT : Z := 0x02.
Definition POSITION_3D : Z := 0x03.
Definition POSITION_ROADMAP : Z := 0x04.
Definition TYPE_POLYGON : Z := 0x06.
Definition TYPE_UBYTE : Z := 0x07.
Definition TYPE_BYTE : Z := 0x08.
Definition TYPE_INTEGER : Z := 0x09.
Definition TYPE_DOUBLE : Z := 0x0b.
Definition TYPE_STRING : Z := 0x0c.
Definition TYPE_STRINGLIST : Z := 0x0e.
Definition TYPE_COMPOUND : Z := 0x0f.
Definition TYPE_COLOR : Z := 0x11.
Definition RTYPE_OK : Z := 0x00.
Definition RTYPE_NOTIMPLEMENTED : Z := 0x01.
Definition RTYPE_ERR : Z := 0xff.
Definition INVALID_DOUBLE_VALUE : double := d_of_Z (-1073741824).
Definition INVALID_INT_VALUE : Z := -1073741824.
Definition RESPONSE_SUBSCRIBE_INDUCTIONLOOP_VARIABLE : Z := 0xe0.
Definition RESPONSE_SUBSCRIBE_PERSON_VARIABLE : Z := 0xee.

(** ** Client *)
Abbreviation SubscriptionResults := (list (string * list (Z * TraCIResult))) (only parsing).
Abbreviation ContextSubscriptionResults := (list (string * list (string * list (Z * TraCIResult)))) (only parsing).

Record scope := mkScope {
  mySubscriptionResults : SubscriptionResults;
  myContextSubscriptionResults : ContextSubscriptionResults
}.
Definition scope_empty : scope := mkScope [] [].

Record TraCI := mkTraCI {
  mySocket : option Socket;
  myDomains : list (Z * scope)
}.

(** The response codes of all domains but the induction loops'. *)
Definition domain_codes : list Z :=
  [0xea; 0xec; 0xe9; 0xe3; 0xed; 0xe1; 0xee; 0xe7; 0xe8; 0xe6; 0xeb; 0xe2; 0xe4; 0xe5].
Definition TraCIAPI_create : TraCI :=
  mkTraCI None (foldl (fun m code => om_set code scope_empty m) [] domain_codes).

(** What a call comes to: a value, an exception with the state it leaves behind, or
    undefined behaviour or a failed connection, after which nothing is said. *)
Inductive outcome (A : Type) : Type :=
| Done (x : A) (c : TraCI)
| Throws (f : fault) (c : TraCI)
| Breaks (f : fault).
Arguments Done {A} x c.
Arguments Throws {A} f c.
Arguments Breaks {A} f.

Definition client (A : Type) : Type := TraCI -> outcome A.
#[export] Instance client_ret : MRet client := fun A x c => Done x c.
#[export] Instance client_bind : MBind client := fun A B k m c =>
  match m c with Done x c' => k x c' | Throws f c' => Throws f c' | Breaks f => Breaks f end.

Definition TraCIException (what : string) : fault := StdException ("TraCIException: " +:+ what).
Definition is_invalid_argument (f : fault) : bool :=
  match f with StdException w => String.prefix "invalid_argument: " w | _ => false end.

(** A local computation: its exceptions leave the client as it is. *)
Definition local {A} (r : res A) : client A := fun c =>
  match r with
  | Ok x => Done x c
  | Fail (Undefined w) => Breaks (Undefined w)
  | Fail f => Throws f c
  end.
Definition throw {A} (what : string) : client A := fun c => Throws (TraCIException what) c.

Definition modify (f : TraCI -> TraCI) : client unit := fun c => Done tt (f c).

Definition with_domains (d : list (Z * scope)) (c : TraCI) : TraCI := mkTraCI (mySocket c) d.

Section Host.
Variable big : bool.
Variable piece sent : nat -> transfer.

Definition sendExact_ (msg : Storage) : client unit := fun c =>
  match mySocket c with
  | None => Breaks (Undefined "null socket")
  | Some k =>
      match sendExact big sent msg k with
      | Ok k => Done tt (mkTraCI (Some k) (myDomains c))
      | Fail f => Breaks f
      end
  end.
Definition receiveExact_ : client Storage := fun c =>
  match mySocket c with
  | None => Breaks (Undefined "null socket")
  | Some k =>
      match receiveExact big piece k with
      | Ok (m, k) => Done m (mkTraCI (Some k) (myDomains c))
      | Fail f => Breaks f
      end
  end.

(** ** Commands *)
Definition simple_command (length cmd : Z) : res Storage :=
  s ← writeUnsignedByte length storage_empty;
  writeUnsignedByte cmd s.

Definition send_commandSimulationStep (time : double) : client unit :=
  outMsg ← local (simple_command (1 + 1 + 8) CMD_SIMSTEP);
  sendExact_ (writeDouble big time outMsg).
Definition send_commandClose : client unit :=
  outMsg ← local (simple_command (1 + 1) CMD_CLOSE);
  sendExact_ outMsg.
Definition send_commandSetOrder (order : Z) : client unit :=
  outMsg ← local (simple_command (1 + 1 + 4) CMD_SETORDER);
  sendExact_ (writeInt big order outMsg).

(** An [int] computed from a size. *)
Definition int_sum (z : Z) : res Z :=
  if (- 2 ^ 31 <=? z) && (z <? 2 ^ 31) then Ok z else Fail (Undefined "signed overflow").
Definition int_of_size (n : nat) : Z := swrap 32 (Z.of_nat n).

Definition createCommand (cmdID varID : Z) (objID : string) (add : option Storage) : res Storage :=
  length ← int_sum (1 + 1 + 1 + 4 + int_of_size (String.length objID));
  length ← match add with Some a => int_sum (length + swrap 32 (size a)) | None => Ok length end;
  s ← (if length <=? 255 then writeUnsignedByte length storage_empty
       else s ← writeUnsignedByte 0 storage_empty; l ← int_sum (length + 4); Ok (writeInt big l s));
  s ← writeUnsignedByte cmdID s;
  s ← writeUnsignedByte varID s;
  let s := writeString big objID s in
  Ok (match add with Some a => writeStorage a s | None => s end).

Definition write_bytes (vars : list Z) (s : Storage) : res Storage := res_fold (fun s v => writeUnsignedByte v s) vars s.

Definition send_commandSubscribeObjectVariable (domID : Z) (objID : string) (beginTime endTime : double)
    (vars : list Z) : client unit := fun c =>
  match mySocket c with
  | None => Throws (SocketException "Socket is not initialised") c
  | Some _ =>
      (outMsg ← local (
         let varNo := int_of_size (length vars) in
         s ← writeUnsignedByte 0 storage_empty;
         l ← int_sum (5 + 1 + 8 + 8 + 4 + int_of_size (String.length objID) + 1 + varNo);
         s ← writeUnsignedByte domID (writeInt big l s);
         let s := writeString big objID (writeDouble big endTime (writeDouble big beginTime s)) in
         s ← writeUnsignedByte varNo s;
         write_bytes (take (Z.to_nat varNo) vars) s);
       sendExact_ outMsg) c
  end.

Definition send_commandSubscribeObjectContext (domID : Z) (objID : string) (beginTime endTime : double)
    (domain : Z) (range : double) (vars : list Z) : client unit := fun c =>
  match mySocket c with
  | None => Throws (SocketException "Socket is not initialised") c
  | Some _ =>
      (outMsg ← local (
         let varNo := int_of_size (length vars) in
         s ← writeUnsignedByte 0 storage_empty;
         l ← int_sum (5 + 1 + 8 + 8 + 4 + int_of_size (String.length objID) + 1 + 8 + 1 + varNo);
         s ← writeUnsignedByte domID (writeInt big l s);
         let s := writeString big objID (writeDouble big endTime (writeDouble big beginTime s)) in
         s ← writeUnsignedByte domain s;
         s ← writeUnsignedByte varNo (writeDouble big range s);
         write_bytes (take (Z.to_nat varNo) vars) s);
       sendExact_ outMsg) c
  end.

(** ** Answers *)
(** The reads inside the [try] block, with the exception of its condition. *)
Definition read_status (command : Z) (ignoreCommandId : bool) (inMsg : Storage) :
    res (Z * Z * string * Storage) :=
  r ← readUnsignedByte inMsg;
  let '(cmdLength, inMsg) := r : Z * Storage in
  r ← readUnsignedByte inMsg;
  let '(cmdId, inMsg) := r : Z * Storage in
  if negb (command =? cmdId) && negb ignoreCommandId
  then Fail (TraCIException "#Error: received status response to command")
  else
    r ← readUnsignedByte inMsg;
    let '(resultType, inMsg) := r : Z * Storage in
    r ← readString big inMsg;
    let '(msg, inMsg) := r : string * Storage in
    Ok (cmdLength, resultType, msg, inMsg).

(** The message, behind its status, and the description for the acknowledgement. *)
Definition check_status (command : Z) (ignoreCommandId : bool) (inMsg : Storage) : res (Storage * string) :=
  let cmdStart := position inMsg in
  match read_status command ignoreCommandId inMsg with
  | Fail f =>
      if is_invalid_argument f
      then Fail (TraCIException "#Error: an exception was thrown while reading result state message")
      else Fail f
  | Ok (cmdLength, resultType, msg, inMsg) =>
      (if resultType =? RTYPE_ERR then Fail (TraCIException (".. Answered with error to command, [description: " +:+ msg))
       else if resultType =? RTYPE_NOTIMPLEMENTED then
         Fail (TraCIException (".. Sent command is not implemented, [description: " +:+ msg))
       else if resultType =? RTYPE_OK then Ok tt
       else Fail (TraCIException (".. Answered with unknown result code, [description: " +:+ msg))) ;;
      if negb (cmdStart + cmdLength =? swrap 32 (position inMsg))
      then Fail (TraCIException "#Error: command has wrong length")
      else Ok (inMsg, msg)
  end.

Definition check_resultState (command : Z) (ignoreCommandId : bool) : client (Storage * string) :=
  inMsg ← receiveExact_;
  local (check_status command ignoreCommandId inMsg).

Definition check_commandGetResult (inMsg : Storage) (command : Z) (expectedType : Z) (ignoreCommandId : bool) :
    res (Z * Storage) :=
  r ← readUnsignedByte inMsg;
  let '(length, inMsg) := r : Z * Storage in
  r ← (if length =? 0 then readInt big inMsg else Ok (length, inMsg));
  let '(_, inMsg) := r : Z * Storage in
  r ← readUnsignedByte inMsg;
  let '(cmdId, inMsg) := r : Z * Storage in
  if negb ignoreCommandId && negb (cmdId =? command + 0x10)
  then Fail (TraCIException "#Error: received response with command id")
  else if 0 <=? expectedType then
    r ← readUnsignedByte inMsg;
    let '(_, inMsg) := r : Z * Storage in
    r ← readString big inMsg;
    let '(_, inMsg) := r : string * Storage in
    r ← readUnsignedByte inMsg;
    let '(valueDataType, inMsg) := r : Z * Storage in
    if negb (valueDataType =? expectedType)
    then Fail (TraCIException "Expected type but got another")
    else Ok (cmdId, inMsg)
  else Ok (cmdId, inMsg).

(** [None] without a connection; otherwise the message at the value. *)
Definition processGet (myOutput : Storage) (command expectedType : Z) (ignoreCommandId : bool) :
    client (option Storage) := fun c =>
  match mySocket c with
  | None => Done None c
  | Some _ =>
      (_ ← sendExact_ myOutput;
       '(myInput, _) ← check_resultState command ignoreCommandId;
       '(_, myInput) ← local (check_commandGetResult myInput command expectedType ignoreCommandId);
       mret (Some myInput)) c
  end.
Definition processSet (myOutput : Storage) (command : Z) : client bool := fun c =>
  match mySocket c with
  | None => Done false c
  | Some _ =>
      (_ ← sendExact_ myOutput;
       '(_, _) ← check_resultState command false;
       mret true) c
  end.

(** ** Getters *)
(** Every getter creates its command, and reads its value from the answer, or returns a
    default without a connection. *)
Definition get_value {A} (type : Z) (read : Storage -> res (A * Storage)) (default : A)
    (cmd var : Z) (id : string) (add : option Storage) : client A :=
  myOutput ← local (createCommand cmd var id add);
  answer ← processGet myOutput cmd type false;
  match answer with
  | Some myInput => '(x, _) ← local (read myInput); mret x
  | None => mret default
  end.

Definition readPosition2D (s : Storage) : res (double * double * double * Storage) :=
  r ← readDouble big s;
  let '(x, s) := r : double * Storage in
  r ← readDouble big s;
  let '(y, s) := r : double * Storage in
  Ok (x, y, d_zero, s).
Definition readPosition3D (s : Storage) : res (double * double * double * Storage) :=
  r ← readDouble big s;
  let '(x, s) := r : double * Storage in
  r ← readDouble big s;
  let '(y, s) := r : double * Storage in
  r ← readDouble big s;
  let '(z, s) := r : double * Storage in
  Ok (x, y, z, s).
Definition readColor (s : Storage) : res (Z * Z * Z * Z * Storage) :=
  r ← readUnsignedByte s;
  let '(r_, s) := r : Z * Storage in
  r ← readUnsignedByte s;
  let '(g, s) := r : Z * Storage in
  r ← readUnsignedByte s;
  let '(b, s) := r : Z * Storage in
  r ← readUnsignedByte s;
  let '(a, s) := r : Z * Storage in
  Ok (r_, g, b, a, s).
(** A negative count reads nothing. *)
Definition readStrings (s : Storage) : res (list string * Storage) :=
  r ← readInt big s;
  let '(n, s) := r : Z * Storage in read_list (readString big) (Z.to_nat n) s.
Definition readPolygon (s : Storage) : res (list (double * double * double) * Storage) :=
  r ← readUnsignedByte s;
  let '(n, s) := r : Z * Storage in
  r ← (if n =? 0 then readInt big s else Ok (n, s));
  let '(n, s) := r : Z * Storage in read_list readPosition2D (Z.to_nat n) s.

Definition TraCIPosition_default : double * double * double :=
  (INVALID_DOUBLE_VALUE, INVALID_DOUBLE_VALUE, INVALID_DOUBLE_VALUE).

Definition getUnsignedByte := get_value TYPE_UBYTE readUnsignedByte INVALID_INT_VALUE.
Definition getByte := get_value TYPE_BYTE readByte INVALID_INT_VALUE.
Definition getInt := get_value TYPE_INTEGER (readInt big) INVALID_INT_VALUE.
Definition getDouble := get_value TYPE_DOUBLE (readDouble big) INVALID_DOUBLE_VALUE.
Definition getPolygon := get_value TYPE_POLYGON readPolygon [].
Definition getPosition := get_value POSITION_2D readPosition2D TraCIPosition_default.
Definition getPosition3D := get_value POSITION_3D readPosition3D TraCIPosition_default.
Definition getString := get_value TYPE_STRING (readString big) "".
Definition getStringVector := get_value TYPE_STRINGLIST readStrings [].
Definition getColor := get_value TYPE_COLOR readColor (0, 0, 0, 255).

(** ** Subscriptions *)
Definition read_result (type : Z) (s : Storage) : res (TraCIResult * Storage) :=
  if type =? TYPE_DOUBLE then r ← readDouble big s; let '(x, s) := r : double * Storage in Ok (TraCIDouble x, s)
  else if type =? TYPE_STRING then r ← readString big s; let '(x, s) := r : string * Storage in Ok (TraCIString x, s)
  else if type =? POSITION_2D then
    r ← readPosition2D s;
    let '(p, s) := r : double * double * double * Storage in Ok (TraCIPosition p.1.1 p.1.2 p.2, s)
  else if type =? POSITION_3D then
    r ← readPosition3D s;
    let '(p, s) := r : double * double * double * Storage in Ok (TraCIPosition p.1.1 p.1.2 p.2, s)
  else if type =? TYPE_COLOR then
    r ← readColor s; let '(p, s) := r : Z * Z * Z * Z * Storage in Ok (TraCIColor p.1.1.1 p.1.1.2 p.1.2 p.2, s)
  else if type =? TYPE_INTEGER then r ← readInt big s; let '(x, s) := r : Z * Storage in Ok (TraCIInt x, s)
  else if type =? TYPE_STRINGLIST then
    r ← readStrings s; let '(l, s) := r : list string * Storage in Ok (TraCIStringList l, s)
  else Fail (TraCIException "Unimplemented subscription type").

Definition read_variable (s : Storage) : res (Z * TraCIResult * Storage) :=
  r ← readUnsignedByte s;
  let '(variableID, s) := r : Z * Storage in
  r ← readUnsignedByte s;
  let '(status, s) := r : Z * Storage in
  r ← readUnsignedByte s;
  let '(type, s) := r : Z * Storage in
  if status =? RTYPE_OK
  then r ← read_result type s; let '(x, s) := r : TraCIResult * Storage in Ok (variableID, x, s)
  else Fail (TraCIException "Subscription response error").

(** [into[objectID][variableID] = x] *)
Definition into_set (objectID : string) (variableID : Z) (x : TraCIResult) (into : SubscriptionResults) :
    SubscriptionResults :=
  om_set objectID (om_set variableID x (default [] (om_find objectID into))) into.

(** The results [into] are those of a domain, put back into the client by [put]. *)
Fixpoint readVariables (inMsg : Storage) (objectID : string) (variableCount : nat)
    (into : SubscriptionResults) (put : SubscriptionResults -> TraCI -> TraCI) : client Storage :=
  match variableCount with
  | O => mret inMsg
  | S n =>
      '(variableID, x, inMsg) ← local (read_variable inMsg);
      let into := into_set objectID variableID x into in
      _ ← modify (put into);
      readVariables inMsg objectID n into put
  end.

Definition put_results (cmdId : Z) (into : SubscriptionResults) (c : TraCI) : TraCI :=
  match om_find cmdId (myDomains c) with
  | Some sc => with_domains (om_set cmdId (mkScope into (myContextSubscriptionResults sc)) (myDomains c)) c
  | None => c
  end.
Definition put_context (cmdId : Z) (contextID : string) (into : SubscriptionResults) (c : TraCI) : TraCI :=
  match om_find cmdId (myDomains c) with
  | Some sc => with_domains (om_set cmdId (mkScope (mySubscriptionResults sc)
      (om_set contextID into (myContextSubscriptionResults sc))) (myDomains c)) c
  | None => c
  end.

(** [myDomains[cmdId]]; an unknown domain is a null pointer. *)
Definition domain_scope (cmdId : Z) : client scope := fun c =>
  match om_find cmdId (myDomains c) with
  | None => Breaks (Undefined "null scope")
  | Some sc => Done sc c
  end.

Definition readVariableSubscription (cmdId : Z) (inMsg : Storage) : client Storage :=
  '(objectID, inMsg) ← local (readString big inMsg);
  '(variableCount, inMsg) ← local (readUnsignedByte inMsg);
  sc ← domain_scope cmdId;
  readVariables inMsg objectID (Z.to_nat variableCount) (mySubscriptionResults sc) (put_results cmdId).

(** The results of the context come into being with its first object. *)
Fixpoint read_objects (cmdId : Z) (contextID : string) (variableCount numObjects : nat) (inMsg : Storage) :
    client Storage :=
  match numObjects with
  | O => mret inMsg
  | S n =>
      '(objectID, inMsg) ← local (readString big inMsg);
      sc ← domain_scope cmdId;
      let into := default [] (om_find contextID (myContextSubscriptionResults sc)) in
      _ ← modify (put_context cmdId contextID into);
      inMsg ← readVariables inMsg objectID variableCount into (put_context cmdId contextID);
      read_objects cmdId contextID variableCount n inMsg
  end.
Definition readContextSubscription (cmdId : Z) (inMsg : Storage) : client Storage :=
  '(contextID, inMsg) ← local (readString big inMsg);
  '(_, inMsg) ← local (readUnsignedByte inMsg);
  '(variableCount, inMsg) ← local (readUnsignedByte inMsg);
  '(numObjects, inMsg) ← local (readInt big inMsg);
  read_objects cmdId contextID (Z.to_nat variableCount) (Z.to_nat numObjects) inMsg.

Definition clearSubscriptionResults (sc : scope) : scope := scope_empty.
Definition clear_all (c : TraCI) : TraCI :=
  with_domains ((fun '(k, sc) => (k, clearSubscriptionResults sc)) <$> myDomains c) c.

Fixpoint read_subscriptions (numSubs : nat) (inMsg : Storage) : client Storage :=
  match numSubs with
  | O => mret inMsg
  | S n =>
      '(cmdId, inMsg) ← local (check_commandGetResult inMsg 0 (-1) true);
      inMsg ← (if (RESPONSE_SUBSCRIBE_INDUCTIONLOOP_VARIABLE <=? cmdId) && (cmdId <=? RESPONSE_SUBSCRIBE_PERSON_VARIABLE)
               then readVariableSubscription cmdId inMsg
               else readContextSubscription (cmdId + 0x50) inMsg);
      read_subscriptions n inMsg
  end.
Definition simulationStep (time : double) : client unit :=
  _ ← send_commandSimulationStep time;
  '(inMsg, _) ← check_resultState CMD_SIMSTEP false;
  _ ← modify clear_all;
  '(numSubs, inMsg) ← local (readInt big inMsg);
  _ ← read_subscriptions (Z.to_nat numSubs) inMsg;
  mret tt.

(** [TraCIScopeWrapper::subscribe] and [subscribeContext] of a scope with these codes. *)
Definition scope_subscribe (mySubscribeID : Z) (objID : string) (vars : list Z) (beginTime endTime : double) :
    client unit :=
  _ ← send_commandSubscribeObjectVariable mySubscribeID objID beginTime endTime vars;
  '(inMsg, _) ← check_resultState mySubscribeID false;
  match vars with
  | [] => mret tt
  | _ =>
      '(_, inMsg) ← local (check_commandGetResult inMsg mySubscribeID (-1) false);
      _ ← readVariableSubscription (mySubscribeID + 0x10) inMsg;
      mret tt
  end.
Definition subscribeContext (myContextSubscribeID : Z) (objID : string) (domain : Z) (range : double)
    (vars : list Z) (beginTime endTime : double) : client unit :=
  _ ← send_commandSubscribeObjectContext myContextSubscribeID objID beginTime endTime domain range vars;
  '(inMsg, _) ← check_resultState myContextSubscribeID false;
  '(_, inMsg) ← local (check_commandGetResult inMsg myContextSubscribeID (-1) false);
  _ ← readContextSubscription (myContextSubscribeID + 0x60) inMsg;
  mret tt.

Definition getSubscriptionResults (sc : scope) (objID : string) : list (Z * TraCIResult) :=
  default [] (om_find objID (mySubscriptionResults sc)).
Definition getContextSubscriptionResults (sc : scope) (objID : string) : SubscriptionResults :=
  default [] (om_find objID (myContextSubscriptionResults sc)).

(** ** Connection *)
Definition closeSocket (c : TraCI) : TraCI := mkTraCI None (myDomains c).
Definition setOrder (order : Z) : client unit :=
  _ ← send_commandSetOrder order;
  '(_, _) ← check_resultState CMD_SETORDER false;
  mret tt.
Definition close : client unit :=
  _ ← send_commandClose;
  '(_, _) ← check_resultState CMD_CLOSE false;
  modify closeSocket.
Definition load (args : list string) : client unit :=
  content ← local (
    l ← int_sum (1 + 4 + 1 + 1 + 4 + foldl (fun n a => n + int_of_size (String.length a)) 0 args
                 + 4 * int_of_size (length args));
    s ← writeUnsignedByte 0 storage_empty;
    s ← writeUnsignedByte CMD_LOAD (writeInt big l s);
    s ← writeUnsignedByte TYPE_STRINGLIST s;
    Ok (writeStringList big args s));
  _ ← sendExact_ content;
  '(_, _) ← check_resultState CMD_LOAD false;
  mret tt.

(** [API::getVersion]; the socket exception is thrown for a wrong answer. *)
Definition getVersion : client (Z * string) :=
  outMsg ← local (simple_command (1 + 1) CMD_GETVERSION);
  _ ← sendExact_ outMsg;
  '(inMsg, _) ← check_resultState CMD_GETVERSION false;
  '(cmdId, inMsg) ← local (check_commandGetResult inMsg 0 (-1) true);
  if negb (cmdId =? CMD_GETVERSION) then local (Fail (SocketException "#Error: rceived status response to command"))
  else
    '(first, inMsg) ← local (readInt big inMsg);
    '(second, _) ← local (readString big inMsg);
    mret (first, second).
End Host.

(** ** The stream between client and simulator *)
(** A client with a connection: what is still to be received, what has been sent. *)
Definition connected (c : TraCI) (incoming outgoing : list Z) (domains : list (Z * scope)) : Prop :=
  exists r s, c = mkTraCI (Some (mkSocket incoming outgoing r s)) domains.

(** A message that a host can send. *)
Definition sendable (msg : list Z) : Prop := msg <> [] /\ 4 + Z.of_nat (length msg) < 2 ^ 31.

(** Commands and answers carry their length in one byte, or as a zero and an [int]. *)
Definition wire_length (n : Z) : list Z := if 1 + n <=? 255 then [1 + n] else 0 :: be_bytes 4 (u32 (5 + n)).
Definition with_length (body : list Z) : list Z := wire_length (Z.of_nat (length body)) ++ body.
Definition wire_command (cmd var : Z) (id : string) (add : list Z) : list Z :=
  with_length ([cmd; var] ++ wire_string id ++ add).
Definition wire_status (cmd type : Z) (desc : string) : list Z :=
  [7 + Z.of_nat (String.length desc); cmd; type] ++ wire_string desc.
Definition wire_response (cmd var : Z) (id : string) (type : Z) (value : list Z) : list Z :=
  with_length ([cmd + 0x10; var] ++ wire_string id ++ [type] ++ value).

(** The server's view of a command: split off by its length. *)
Definition parse_command (l : list Z) : option (list Z * list Z) :=
  match l with
  | [] => None
  | n :: l =>
      if n =? 0 then
        let m := Z.to_nat (swrap 32 (of_le_bytes (rev (take 4 l))) - 5) in
        Some (take m (drop 4 l), drop m (drop 4 l))
      else let m := Z.to_nat (n - 1) in Some (take m l, drop m l)
  end.

Lemma parse_with_length body rest : 5 + Z.of_nat (length body) < 2 ^ 31 ->
  parse_command (with_length body ++ rest) = Some (body, rest).
Proof.
  intros Hb. unfold with_length, wire_length, parse_command. destruct (Z.leb_spec (1 + Z.of_nat (length body)) 255).
  - cbn [app]. rewrite (proj2 (Z.eqb_neq _ _)) by lia.
    replace (Z.to_nat (1 + Z.of_nat (length body) - 1)) with (length body) by lia.
    by rewrite take_app_length, drop_app_length.
  - cbn [app]. rewrite Z.eqb_refl, <- app_assoc.
    pose proof (be_bytes_length 4 (u32 (5 + Z.of_nat (length body)))) as Hl.
    rewrite take_app_length', drop_app_length' by done. unfold be_bytes. rewrite rev_involutive, of_le_bytes_le_bytes
      by (apply (wrap_range 32); lia).
    unfold u32. rewrite swrap_wrap by lia.
    replace (Z.to_nat (5 + Z.of_nat (length body) - 5)) with (length body) by lia.
    by rewrite take_app_length, drop_app_length.
Qed.

Section Stream.
Variable big : bool.
Variable piece sent : nat -> transfer.
Hypothesis Hpiece : flowing piece.
Hypothesis Hsent : flowing sent.

Lemma send_connected c i o d b : connected c i o d ->
  exists c', sendExact_ big sent b c = Done tt c' /\ connected c' i (o ++ framed (store b)) d.
Proof.
  intros (r & s & ->). unfold sendExact_. cbn [mySocket].
  destruct (sendExact_framed sent big b (mkSocket i o r s) Hsent) as [n ->].
  eexists. split; [done|]. by exists r, n.
Qed.

Lemma receive_connected c msg rest o d : sendable msg -> connected c (framed msg ++ rest) o d ->
  exists c', receiveExact_ big piece c = Done (mkStorage msg 0) c' /\ connected c' rest o d.
Proof.
  intros [Hne Hm] (r & s & ->). unfold receiveExact_. cbn [mySocket].
  pose proof (receiveExact_framed piece big msg rest (mkSocket (framed msg ++ rest) o r s) Hpiece Hm eq_refl) as H.
  rewrite (proj2 (Z.ltb_lt _ _)) in H by (destruct msg; [done|cbn; lia]).
  destruct H as [r' ->]. eexists. split; [done|]. by exists r', s.
Qed.

Lemma local_ok {A} (r : res A) x c : r = Ok x -> local r c = Done x c.
Proof. by intros ->. Qed.

Lemma bind_done {A B} (m : client A) (k : A -> client B) c x c' : m c = Done x c' -> (m ≫= k) c = k x c'.
Proof. intros H. unfold mbind, client_bind. by rewrite H. Qed.
Lemma bind_throws {A B} (m : client A) (k : A -> client B) c f c' : m c = Throws f c' -> (m ≫= k) c = Throws f c'.
Proof. intros H. unfold mbind, client_bind. by rewrite H. Qed.

(** *** Commands *)
Definition fits_command (id : string) (add : list Z) : Prop :=
  16 + Z.of_nat (String.length id) + Z.of_nat (length add) < 2 ^ 31.

Lemma int_of_size_small n : Z.of_nat n < 2 ^ 31 -> int_of_size n = Z.of_nat n.
Proof. intros H. apply swrap_small; lia. Qed.
Lemma int_sum_small z : 0 <= z < 2 ^ 31 -> int_sum z = Ok z.
Proof. intros H. unfold int_sum. by rewrite (proj2 (Z.leb_le _ _)), (proj2 (Z.ltb_lt _ _)) by lia. Qed.
Lemma writeUnsignedByte_ok v s : 0 <= v <= 255 -> writeUnsignedByte v s = Ok (append [v] s).
Proof.
  intros H. unfold writeUnsignedByte, writeChar. rewrite (proj2 (Z.ltb_ge _ _)), (proj2 (Z.ltb_ge _ _)) by lia.
  unfold wrap. by rewrite Z.mod_small by lia.
Qed.
Lemma wire_string_length s : length (wire_string s) = (4 + String.length s)%nat.
Proof. unfold wire_string. by rewrite length_app, be_bytes_length, bytes_of_string_length. Qed.

(** What an additional value contributes; it has not been read from. *)
Definition add_bytes (add : option Storage) : list Z := match add with Some a => store a | None => [] end.
Definition add_fresh (add : option Storage) : Prop := match add with Some a => iter_ a = 0%nat | None => True end.

Lemma createCommand_wire cmd var id add : 0 <= cmd <= 255 -> 0 <= var <= 255 ->
  add_fresh add -> fits_command id (add_bytes add) ->
  createCommand big cmd var id add = Ok (mkStorage (wire_command cmd var id (add_bytes add)) 0).
Proof.
  intros Hc Hv Hadd Hfit. unfold createCommand, fits_command in *.
  set (n := Z.of_nat (String.length id)) in *. set (m := Z.of_nat (length (add_bytes add))) in *.
  rewrite int_of_size_small by lia. fold n. rewrite int_sum_small by lia. cbn [mbind res_bind].
  assert (match add with Some a => int_sum (1 + 1 + 1 + 4 + n + swrap 32 (size a)) | None => Ok (1 + 1 + 1 + 4 + n) end
    = Ok (7 + n + m)) as ->.
  { destruct add as [a|]; [|unfold m; cbn; f_equal; lia]. unfold size, add_bytes in *. fold m.
    rewrite swrap_small by (cbn; lia). rewrite int_sum_small by lia. f_equal; lia. }
  cbn [mbind res_bind].
  assert ((if 7 + n + m <=? 255 then writeUnsignedByte (7 + n + m) storage_empty
     else s ← writeUnsignedByte 0 storage_empty; l ← int_sum (7 + n + m + 4); Ok (writeInt big l s)) =
     Ok (append (wire_length (6 + n + m)) storage_empty)) as Hlen.
  { unfold wire_length. replace (1 + (6 + n + m)) with (7 + n + m) by lia. destruct (Z.leb_spec (7 + n + m) 255).
    - apply writeUnsignedByte_ok. lia.
    - rewrite writeUnsignedByte_ok by lia. cbn [mbind res_bind]. rewrite int_sum_small by lia. cbn [mbind res_bind].
      rewrite writeInt_wire, append_append. cbn [app]. do 5 f_equal. lia. }
  rewrite Hlen. cbn [mbind res_bind]. rewrite writeUnsignedByte_ok by done. cbn [mbind res_bind].
  rewrite writeUnsignedByte_ok by done. cbn [mbind res_bind]. rewrite writeString_wire, !append_append.
  assert (Z.of_nat (length ([cmd; var] ++ wire_string id ++ add_bytes add)) = 6 + n + m) as Hl
    by (cbn [app length]; rewrite length_app, wire_string_length; lia).
  unfold wire_command, with_length. rewrite Hl. destruct add as [a|]; cbn [add_bytes] in *.
  - unfold writeStorage, remaining. rewrite Hadd, drop_0, append_append. cbn [app]. unfold append, storage_empty. cbn [store app].
    by rewrite <- app_assoc.
  - cbn [app]. rewrite app_nil_r. unfold append, storage_empty. cbn [store app]. done.
Qed.

(** *** Answers *)
Lemma reads_status cmd ign type desc : fits_string desc ->
  reads (read_status big cmd ign) (wire_status cmd type desc) (7 + Z.of_nat (String.length desc), type, desc).
Proof.
  intros Hd. unfold read_status, wire_status.
  change ([7 + Z.of_nat (String.length desc); cmd; type] ++ wire_string desc)
    with ([7 + Z.of_nat (String.length desc)] ++ [cmd] ++ [type] ++ wire_string desc).
  eapply reads_bind; [apply reads_unsigned_byte|]. eapply reads_bind; [apply reads_unsigned_byte|].
  rewrite Z.eqb_refl. cbn [negb andb].
  eapply reads_bind; [apply reads_unsigned_byte|].
  apply (reads_map _ (fun msg => (7 + Z.of_nat (String.length desc), type, msg))). by apply reads_string.
Qed.

Lemma wire_status_length cmd type desc : length (wire_status cmd type desc) = (7 + String.length desc)%nat.
Proof. unfold wire_status. rewrite length_app, wire_string_length. cbn. lia. Qed.

(** What a status makes of an answer. *)
Definition status_fault (type : Z) (desc : string) : fault :=
  TraCIException (if type =? RTYPE_ERR then ".. Answered with error to command, [description: " +:+ desc
    else if type =? RTYPE_NOTIMPLEMENTED then ".. Sent command is not implemented, [description: " +:+ desc
    else ".. Answered with unknown result code, [description: " +:+ desc).

Lemma check_status_spec cmd type desc body ign : Z.of_nat (String.length desc) <= 248 ->
  check_status big cmd ign (mkStorage (wire_status cmd type desc ++ body) 0) =
  if type =? RTYPE_OK
  then Ok (mkStorage (wire_status cmd type desc ++ body) (length (wire_status cmd type desc)), desc)
  else Fail (status_fault type desc).
Proof.
  intros Hd. unfold check_status, status_fault.
  pose proof (reads_status cmd ign type desc ltac:(unfold fits_string; lia) [] body) as Hr.
  cbn [app length Nat.add] in Hr. rewrite Hr. destruct (Z.eqb_spec type RTYPE_ERR) as [->|He]; [done|].
  destruct (Z.eqb_spec type RTYPE_NOTIMPLEMENTED) as [->|Hn]; [done|].
  destruct (Z.eqb_spec type RTYPE_OK) as [->|Ho]; [|done]. cbn [mbind res_bind].
  unfold position. cbn [iter_]. rewrite wire_status_length.
  change (u32 (Z.of_nat 0)) with 0. unfold u32. rewrite swrap_wrap by (cbn; lia).
  by rewrite (proj2 (Z.eqb_eq _ _)) by lia.
Qed.

Lemma reads_wire_length n : 0 <= n -> 5 + n < 2 ^ 31 ->
  exists v, reads (fun s => r ← readUnsignedByte s; let '(length, s) := r : Z * Storage in
                 if length =? 0 then readInt big s else Ok (length, s)) (wire_length n) v.
Proof.
  intros H0 H1. unfold wire_length. destruct (Z.leb_spec (1 + n) 255) as [Hle|Hgt].
  - exists (1 + n). change [1 + n] with ([1 + n] ++ []). eapply reads_bind; [apply reads_unsigned_byte|].
    rewrite (proj2 (Z.eqb_neq _ _)) by lia. apply reads_ret.
  - exists (5 + n). change (0 :: be_bytes 4 (u32 (5 + n))) with ([0] ++ be_bytes 4 (u32 (5 + n))).
    eapply reads_bind; [apply reads_unsigned_byte|]. rewrite Z.eqb_refl. apply reads_int. lia.
Qed.

(** The header of a response: its length and the code, and for a getter also the
    variable, the object and the type. *)
Definition response_header (cmd var : Z) (id : string) (type : Z) (value : list Z) : list Z :=
  wire_length (7 + Z.of_nat (String.length id) + Z.of_nat (length value)) ++ [cmd + 0x10; var] ++ wire_string id ++ [type].

Lemma wire_response_header cmd var id type value :
  wire_response cmd var id type value = response_header cmd var id type value ++ value.
Proof.
  unfold wire_response, with_length, response_header. rewrite <- !app_assoc. f_equal. f_equal.
  cbn [app length]. rewrite !length_app, wire_string_length. cbn [app length]. lia.
Qed.

Lemma reads_code n cmd {B} (k : Z -> Storage -> res (B * Storage)) bytes y :
  0 <= n -> 5 + n < 2 ^ 31 -> reads (k cmd) bytes y ->
  reads (fun s => r ← readUnsignedByte s; let '(length, s) := r : Z * Storage in
     r ← (if length =? 0 then readInt big s else Ok (length, s)); let '(_, s) := r : Z * Storage in
     r ← readUnsignedByte s; let '(cmdId, s) := r : Z * Storage in k cmdId s)
    (wire_length n ++ [cmd] ++ bytes) y.
Proof.
  intros H0 H1 Hk pre rest. destruct (reads_wire_length n H0 H1) as [v Hv].
  pose proof (reads_bind _ (fun _ s => r ← readUnsignedByte s; let '(cmdId, s) := r : Z * Storage in k cmdId s)
    _ _ _ _ Hv (reads_bind readUnsignedByte k _ _ _ _ (reads_unsigned_byte cmd) Hk) pre rest) as H.
  etransitivity; [|exact H]. cbn beta. destruct (readUnsignedByte _) as [[l s']|]; reflexivity.
Qed.

Definition get_header (command : Z) (s : Storage) : res (Z * Z * Storage) :=
  r ← readUnsignedByte s;
  let '(length, s) := r : Z * Storage in
  r ← (if length =? 0 then readInt big s else Ok (length, s));
  let '(_, s) := r : Z * Storage in
  r ← readUnsignedByte s;
  let '(cmdId, s) := r : Z * Storage in
  if negb (cmdId =? command + 0x10)
  then Fail (TraCIException "#Error: received response with command id")
  else
    r ← readUnsignedByte s;
    let '(_, s) := r : Z * Storage in
    r ← readString big s;
    let '(_, s) := r : string * Storage in
    r ← readUnsignedByte s;
    let '(valueDataType, s) := r : Z * Storage in Ok (cmdId, valueDataType, s).

Lemma check_get_header s command type : 0 <= type ->
  check_commandGetResult big s command type false =
  (r ← get_header command s;
   let '(cmdId, ty, s) := r : Z * Z * Storage in
   if negb (ty =? type) then Fail (TraCIException "Expected type but got another") else Ok (cmdId, s)).
Proof.
  intros Ht. unfold check_commandGetResult, get_header. rewrite (proj2 (Z.leb_le _ _)) by done.
  destruct (readUnsignedByte s) as [[n s1]|]; [|done]. cbn [mbind res_bind].
  destruct (if n =? 0 then readInt big s1 else Ok (n, s1)) as [[m s2]|]; [|done]. cbn [mbind res_bind].
  destruct (readUnsignedByte s2) as [[cmdId s3]|]; [|done]. cbn [mbind res_bind negb andb].
  destruct (negb (cmdId =? command + 16)); [done|].
  destruct (readUnsignedByte s3) as [[v s4]|]; [|done]. cbn [mbind res_bind].
  destruct (readString big s4) as [[v' s5]|]; [|done]. cbn [mbind res_bind].
  by destruct (readUnsignedByte s5) as [[v'' s6]|].
Qed.

Lemma reads_get_header cmd id ty var value :
  fits_string id -> 16 + Z.of_nat (String.length id) + Z.of_nat (length value) < 2 ^ 31 ->
  reads (get_header cmd) (response_header cmd var id ty value) (cmd + 0x10, ty).
Proof.
  intros Hid Hfit. unfold get_header, response_header.
  change ([cmd + 0x10; var] ++ wire_string id ++ [ty]) with ([cmd + 0x10] ++ ([var] ++ wire_string id ++ [ty])).
  apply (reads_code _ (cmd + 0x10) (fun cmdId s => if negb (cmdId =? cmd + 0x10) then _ else _)); [lia|lia|].
  rewrite Z.eqb_refl. cbn [negb].
  eapply reads_bind; [apply reads_unsigned_byte|]. eapply reads_bind; [by apply reads_string|].
  apply (reads_map _ (fun ty => (cmd + 16, ty))), reads_unsigned_byte.
Qed.
End Stream.

(** ** Values of answers *)
Inductive answer :=
| AUnsignedByte (v : Z) | AByte (v : Z) | AInt (v : Z) | ADouble (v : double)
| APolygon (l : list (double * double)) | APosition (x y : double) | APosition3D (x y z : double)
| AString (s : string) | AStringVector (l : list string) | AColor (r g b a : Z).

Definition answer_type (a : answer) : Z :=
  match a with
  | AUnsignedByte _ => TYPE_UBYTE | AByte _ => TYPE_BYTE | AInt _ => TYPE_INTEGER | ADouble _ => TYPE_DOUBLE
  | APolygon _ => TYPE_POLYGON | APosition _ _ => POSITION_2D | APosition3D _ _ _ => POSITION_3D
  | AString _ => TYPE_STRING | AStringVector _ => TYPE_STRINGLIST | AColor _ _ _ _ => TYPE_COLOR
  end.

Definition wire_strings (l : list string) : list Z := be_bytes 4 (u32 (Z.of_nat (length l))) ++ concat (wire_string <$> l).
Definition wire_position (p : double * double) : list Z := wire_double p.1 ++ wire_double p.2.
Definition wire_answer (a : answer) : list Z :=
  match a with
  | AUnsignedByte v => [v]
  | AByte v => [wrap 8 (Z.rem (v + 256) 256)]
  | AInt v => be_bytes 4 (u32 v)
  | ADouble v => wire_double v
  | APolygon l => (if (0 <? length l)%nat && (length l <=? 255)%nat then [Z.of_nat (length l)]
                   else 0 :: be_bytes 4 (u32 (Z.of_nat (length l)))) ++ concat (wire_position <$> l)
  | APosition x y => wire_double x ++ wire_double y
  | APosition3D x y z => wire_double x ++ wire_double y ++ wire_double z
  | AString s => wire_string s
  | AStringVector l => wire_strings l
  | AColor r g b a => [r; g; b; a]
  end.

Definition valid_answer (a : answer) : Prop :=
  match a with
  | AUnsignedByte _ | AColor _ _ _ _ => True
  | AByte v => -128 <= v <= 127
  | AInt v => - 2 ^ 31 <= v < 2 ^ 31
  | ADouble v => d_valid v
  | APolygon l => fits l /\ Forall (fun p => d_valid p.1 /\ d_valid p.2) l
  | APosition x y => d_valid x /\ d_valid y
  | APosition3D x y z => d_valid x /\ d_valid y /\ d_valid z
  | AString s => fits_string s
  | AStringVector l => fits l /\ Forall fits_string l
  end.

Section Values.
Variable big : bool.

Lemma reads_strings l : fits l -> Forall fits_string l -> reads (readStrings big) (wire_strings l) l.
Proof.
  intros Hf Hl. unfold readStrings, wire_strings, fits in *. eapply reads_bind; [apply reads_int; lia|].
  rewrite Nat2Z.id. apply reads_list. eapply Forall_impl; [exact Hl|]. intros s Hs. by apply reads_string.
Qed.

Lemma reads_position x y : d_valid x -> d_valid y ->
  reads (readPosition2D big) (wire_position (x, y)) (x, y, d_zero).
Proof.
  intros Hx Hy. unfold readPosition2D, wire_position. cbn [fst snd].
  eapply reads_bind; [by apply reads_double|]. apply (reads_map _ (fun y => (x, y, d_zero))). by apply reads_double.
Qed.

Lemma reads_position3D x y z : d_valid x -> d_valid y -> d_valid z ->
  reads (readPosition3D big) (wire_double x ++ wire_double y ++ wire_double z) (x, y, z).
Proof.
  intros Hx Hy Hz. unfold readPosition3D. eapply reads_bind; [by apply reads_double|].
  eapply reads_bind; [by apply reads_double|]. apply (reads_map _ (fun z => (x, y, z))). by apply reads_double.
Qed.

Lemma reads_color r g b a : reads readColor [r; g; b; a] (r, g, b, a).
Proof.
  unfold readColor. change [r; g; b; a] with ([r] ++ [g] ++ [b] ++ [a]).
  do 3 (eapply reads_bind; [apply reads_unsigned_byte|]).
  apply (reads_map _ (fun a => (r, g, b, a))). apply reads_unsigned_byte.
Qed.

Lemma reads_polygon l : fits l -> Forall (fun p => d_valid p.1 /\ d_valid p.2) l ->
  reads (readPolygon big) (wire_answer (APolygon l)) ((fun p => (p.1, p.2, d_zero)) <$> l).
Proof.
  intros Hf Hl. unfold readPolygon, fits in *. cbn [wire_answer].
  assert (reads (fun s => r ← readUnsignedByte s; let '(n, s) := r : Z * Storage in
       if n =? 0 then readInt big s else Ok (n, s))
     (if (0 <? length l)%nat && (length l <=? 255)%nat then [Z.of_nat (length l)]
      else 0 :: be_bytes 4 (u32 (Z.of_nat (length l)))) (Z.of_nat (length l))) as Hn.
  { destruct (Nat.ltb_spec 0 (length l)), (Nat.leb_spec (length l) 255); cbn [andb].
    - change [Z.of_nat (length l)] with ([Z.of_nat (length l)] ++ []). eapply reads_bind; [apply reads_unsigned_byte|].
      rewrite (proj2 (Z.eqb_neq _ _)) by lia. apply reads_ret.
    - change (0 :: be_bytes 4 (u32 (Z.of_nat (length l)))) with ([0] ++ be_bytes 4 (u32 (Z.of_nat (length l)))).
      eapply reads_bind; [apply reads_unsigned_byte|]. apply reads_int; lia.
    - change (0 :: be_bytes 4 (u32 (Z.of_nat (length l)))) with ([0] ++ be_bytes 4 (u32 (Z.of_nat (length l)))).
      eapply reads_bind; [apply reads_unsigned_byte|]. apply reads_int; lia.
    - lia. }
  assert (reads (read_list (readPosition2D big) (length l)) (concat (wire_position <$> l))
    ((fun p => (p.1, p.2, d_zero)) <$> l)) as Hr.
  { rewrite <- (length_fmap (fun p => (p.1, p.2, d_zero)) l).
    replace (wire_position <$> l) with ((fun q : double * double * double => wire_position q.1) <$> ((fun p => (p.1, p.2, d_zero)) <$> l)).
    - apply reads_list. apply Forall_fmap. eapply Forall_impl; [exact Hl|]. intros [x y] [Hx Hy]. by apply reads_position.
    - rewrite <- list_fmap_compose. apply list_fmap_ext. by intros _ [x y] _. }
  intros pre rest. pose proof (reads_bind _ (fun n => read_list (readPosition2D big) (Z.to_nat n)) _ (concat (wire_position <$> l)) _
    ((fun p => (p.1, p.2, d_zero)) <$> l) Hn) as H.
  cbn beta in H. rewrite Nat2Z.id in H. specialize (H Hr pre rest). etransitivity; [|exact H]. cbn beta.
  destruct (readUnsignedByte _) as [[v s]|]; reflexivity.
Qed.
End Values.

(** ** Sessions *)
Inductive reply := Value (desc : string) (a : answer) | Refused (type : Z) (desc : string).
Inductive exchange :=
| Get (kind : answer) (cmd var : Z) (id : string) (add : option Storage) (r : reply)
| SetVar (cmd var : Z) (id : string) (add : option Storage) (type : Z) (desc : string).

Section Sessions.
Variable big : bool.
Variable piece sent : nat -> transfer.

(** The getter for a kind of value. *)
Definition ask (kind : answer) (cmd var : Z) (id : string) (add : option Storage) : client answer :=
  match kind with
  | AUnsignedByte _ => v ← getUnsignedByte big piece sent cmd var id add; mret (AUnsignedByte v)
  | AByte _ => v ← getByte big piece sent cmd var id add; mret (AByte v)
  | AInt _ => v ← getInt big piece sent cmd var id add; mret (AInt v)
  | ADouble _ => v ← getDouble big piece sent cmd var id add; mret (ADouble v)
  | APolygon _ => l ← getPolygon big piece sent cmd var id add; mret (APolygon (fst <$> l))
  | APosition _ _ => p ← getPosition big piece sent cmd var id add; mret (APosition p.1.1 p.1.2)
  | APosition3D _ _ _ => p ← getPosition3D big piece sent cmd var id add; mret (APosition3D p.1.1 p.1.2 p.2)
  | AString _ => v ← getString big piece sent cmd var id add; mret (AString v)
  | AStringVector _ => v ← getStringVector big piece sent cmd var id add; mret (AStringVector v)
  | AColor _ _ _ _ => p ← getColor big piece sent cmd var id add; mret (AColor p.1.1.1 p.1.1.2 p.1.2 p.2)
  end.

Definition perform (e : exchange) : client (option answer) :=
  match e with
  | Get kind cmd var id add _ => a ← ask kind cmd var id add; mret (Some a)
  | SetVar cmd var id add _ _ =>
      myOutput ← local (createCommand big cmd var id add);
      _ ← processSet big piece sent myOutput cmd;
      mret None
  end.

(** Calls in a row; exceptions are caught by the caller. *)
Fixpoint run (es : list exchange) (c : TraCI) : option (list (res (option answer)) * TraCI) :=
  match es with
  | [] => Some ([], c)
  | e :: es =>
      match perform e c with
      | Done x c => '(l, c) ← run es c; Some (Ok x :: l, c)
      | Throws f c => '(l, c) ← run es c; Some (Fail f :: l, c)
      | Breaks _ => None
      end
  end.
End Sessions.

Definition command_body (e : exchange) : list Z :=
  match e with
  | Get _ cmd var id add _ | SetVar cmd var id add _ _ => [cmd; var] ++ wire_string id ++ add_bytes add
  end.
Definition reply_bytes (e : exchange) : list Z :=
  match e with
  | Get _ cmd var id _ (Value desc a) =>
      wire_status cmd RTYPE_OK desc ++ wire_response cmd var id (answer_type a) (wire_answer a)
  | Get _ cmd _ _ _ (Refused type desc) | SetVar cmd _ _ _ type desc => wire_status cmd type desc
  end.
Definition expected (e : exchange) : res (option answer) :=
  match e with
  | Get kind _ _ _ _ (Value _ a) =>
      if answer_type a =? answer_type kind then Ok (Some a)
      else Fail (TraCIException "Expected type but got another")
  | Get _ _ _ _ _ (Refused type desc) => Fail (status_fault type desc)
  | SetVar _ _ _ _ type desc => if type =? RTYPE_OK then Ok None else Fail (status_fault type desc)
  end.

Definition valid_reply (id : string) (r : reply) : Prop :=
  match r with
  | Value desc a => Z.of_nat (String.length desc) <= 248 /\ valid_answer a /\
      512 + Z.of_nat (String.length id) + Z.of_nat (length (wire_answer a)) < 2 ^ 31
  | Refused type desc => type <> RTYPE_OK /\ Z.of_nat (String.length desc) <= 248
  end.
Definition valid_exchange (e : exchange) : Prop :=
  match e with
  | Get _ cmd var id add r =>
      0 <= cmd <= 239 /\ 0 <= var <= 255 /\ add_fresh add /\ fits_command id (add_bytes add) /\ valid_reply id r
  | SetVar cmd var id add _ desc =>
      0 <= cmd <= 239 /\ 0 <= var <= 255 /\ add_fresh add /\ fits_command id (add_bytes add) /\
      Z.of_nat (String.length desc) <= 248
  end.

Section SessionProofs.
Variable big : bool.
Variable piece sent : nat -> transfer.
Hypothesis Hpiece : flowing piece.
Hypothesis Hsent : flowing sent.

Lemma connected_socket c i o d : connected c i o d -> exists k, mySocket c = Some k.
Proof. intros (r & s & ->). by eexists. Qed.

(** A command is sent and the status of its answer checked. *)
Lemma status_exchange c o d rest out cmd type desc body :
  connected c (framed (wire_status cmd type desc ++ body) ++ rest) o d ->
  Z.of_nat (String.length desc) <= 248 -> 300 + Z.of_nat (length body) < 2 ^ 31 ->
  exists c', connected c' rest (o ++ framed (store out)) d /\
  (_ ← sendExact_ big sent out; check_resultState big piece cmd false) c =
    if type =? RTYPE_OK
    then Done (mkStorage (wire_status cmd type desc ++ body) (length (wire_status cmd type desc)), desc) c'
    else Throws (status_fault type desc) c'.
Proof.
  intros Hc Hd Hb. destruct (send_connected big sent Hsent _ _ _ _ out Hc) as (c1 & Hs & Hc1).
  rewrite (bind_done _ _ _ _ _ Hs). unfold check_resultState.
  destruct (receive_connected big piece Hpiece c1 (wire_status cmd type desc ++ body) rest
    (o ++ framed (store out)) d) as (c2 & Hr & Hc2); [|done|].
  { split; [done|]. rewrite length_app, wire_status_length. lia. }
  exists c2. split; [done|]. rewrite (bind_done _ _ _ _ _ Hr). unfold local. rewrite check_status_spec by done.
  by destruct (type =? RTYPE_OK).
Qed.

(** An answer with a value of some type, given by its bytes. *)
Definition value_reply (cmd var : Z) (id desc : string) (type : Z) (value : list Z) : list Z :=
  wire_status cmd RTYPE_OK desc ++ wire_response cmd var id type value.
Definition fits_reply (id desc : string) (value : list Z) : Prop :=
  Z.of_nat (String.length desc) <= 248 /\ 512 + Z.of_nat (String.length id) + Z.of_nat (length value) < 2 ^ 31.

Lemma processGet_bytes c o d rest out cmd var id wanted desc type value :
  connected c (framed (value_reply cmd var id desc type value) ++ rest) o d ->
  fits_reply id desc value -> 0 <= wanted ->
  exists c', connected c' rest (o ++ framed (store out)) d /\
  processGet big piece sent out cmd wanted false c =
    if type =? wanted
    then Done (Some (mkStorage (value_reply cmd var id desc type value)
      (length (wire_status cmd RTYPE_OK desc ++ response_header cmd var id type value)))) c'
    else Throws (TraCIException "Expected type but got another") c'.
Proof.
  intros Hc (Hd & Hfit) Ht. destruct (connected_socket _ _ _ _ Hc) as [k Hk].
  assert (length (wire_response cmd var id type value) <= 14 + String.length id + length value)%nat as Hlen.
  { unfold wire_response, with_length, wire_length. rewrite !length_app, wire_string_length.
    destruct (_ <=? _); cbn [length app]; rewrite ?be_bytes_length; lia. }
  unfold value_reply in *.
  destruct (status_exchange c o d rest out cmd RTYPE_OK desc _ Hc Hd) as (c' & Hc' & He); [lia|].
  exists c'. split; [done|]. unfold processGet. rewrite Hk.
  assert (forall A (m : client A) (k1 : A -> client (Storage * string)) (k2 : Storage * string -> client (option Storage)) c,
    (x ← m; y ← k1 x; k2 y) c = (y ← (x ← m; k1 x); k2 y) c) as Hassoc.
  { intros A m k1 k2 c0. unfold mbind, client_bind. by destruct (m c0). }
  rewrite Hassoc. change (RTYPE_OK =? RTYPE_OK) with true in He. cbv iota in He. rewrite (bind_done _ _ _ _ _ He).
  rewrite wire_response_header, app_assoc. set (pre := wire_status cmd RTYPE_OK desc).
  set (hd := response_header cmd var id type value).
  pose proof (reads_get_header big cmd id type var value ltac:(unfold fits_string; lia) ltac:(lia) pre value)
    as Hr. fold hd in Hr. rewrite app_assoc, <- length_app in Hr.
  assert (check_commandGetResult big (mkStorage ((pre ++ hd) ++ value) (length pre)) cmd wanted false =
    if type =? wanted then Ok (cmd + 16, mkStorage ((pre ++ hd) ++ value) (length (pre ++ hd)))
    else Fail (TraCIException "Expected type but got another")) as Hg.
  { rewrite check_get_header, Hr by done. cbn [mbind res_bind]. by destruct (_ =? _). }
  cbn [fst snd]. unfold local. rewrite Hg. by destruct (_ =? _).
Qed.

Lemma processGet_refused c o d rest out cmd kind type desc :
  connected c (framed (wire_status cmd type desc) ++ rest) o d ->
  type <> RTYPE_OK -> Z.of_nat (String.length desc) <= 248 ->
  exists c', connected c' rest (o ++ framed (store out)) d /\
  processGet big piece sent out cmd kind false c = Throws (status_fault type desc) c'.
Proof.
  intros Hc Ht Hd. destruct (connected_socket _ _ _ _ Hc) as [k Hk].
  rewrite <- (app_nil_r (wire_status cmd type desc)) in Hc.
  destruct (status_exchange c o d rest out cmd type desc [] Hc Hd ltac:(cbn; lia)) as (c' & Hc' & He).
  exists c'. split; [done|]. unfold processGet. rewrite Hk. rewrite (proj2 (Z.eqb_neq _ _)) in He by done.
  unfold mbind, client_bind in *. destruct (sendExact_ _ _ _ _); [|by inversion He|done].
  destruct (check_resultState _ _ _ _ _); by inversion He.
Qed.

Lemma processSet_spec c o d rest out cmd type desc :
  connected c (framed (wire_status cmd type desc) ++ rest) o d -> Z.of_nat (String.length desc) <= 248 ->
  exists c', connected c' rest (o ++ framed (store out)) d /\
  processSet big piece sent out cmd c =
    if type =? RTYPE_OK then Done true c' else Throws (status_fault type desc) c'.
Proof.
  intros Hc Hd. destruct (connected_socket _ _ _ _ Hc) as [k Hk].
  rewrite <- (app_nil_r (wire_status cmd type desc)) in Hc.
  destruct (status_exchange c o d rest out cmd type desc [] Hc Hd ltac:(cbn; lia)) as (c' & Hc' & He).
  exists c'. split; [done|]. unfold processSet. rewrite Hk.
  unfold mbind, client_bind in *. destruct (type =? RTYPE_OK).
  - destruct (sendExact_ _ _ _ _); [|done|done]. destruct (check_resultState _ _ _ _ _) as [[m a] cc| |]; by inversion He.
  - destruct (sendExact_ _ _ _ _); [|by inversion He|done]. destruct (check_resultState _ _ _ _ _) as [[m a] cc| |]; by inversion He.
Qed.

(** A getter for values of a type, whatever its reader. *)
Lemma get_value_bytes {A} (read : Storage -> res (A * Storage)) default x wanted cmd var id add desc type value c o d rest :
  0 <= cmd <= 239 -> 0 <= var <= 255 -> add_fresh add -> fits_command id (add_bytes add) ->
  fits_reply id desc value -> 0 <= wanted -> (type = wanted -> reads read value x) ->
  connected c (framed (value_reply cmd var id desc type value) ++ rest) o d ->
  exists c', connected c' rest (o ++ framed (wire_command cmd var id (add_bytes add))) d /\
  get_value big piece sent wanted read default cmd var id add c =
    if type =? wanted then Done x c' else Throws (TraCIException "Expected type but got another") c'.
Proof.
  intros Hcmd Hvar Hadd Hfit Hr Hw Hread Hc. unfold get_value.
  pose proof (createCommand_wire big cmd var id add ltac:(lia) Hvar Hadd Hfit) as Hcr.
  rewrite (bind_done _ _ _ _ _ (local_ok _ _ _ Hcr)).
  destruct (processGet_bytes c o d rest (mkStorage (wire_command cmd var id (add_bytes add)) 0) cmd var id wanted desc
    type value Hc Hr Hw) as (c' & Hc' & Hp).
  exists c'. split; [exact Hc'|]. destruct (Z.eqb_spec type wanted) as [Heq|Hne].
  - rewrite (bind_done _ _ _ _ _ Hp). unfold value_reply. rewrite wire_response_header, app_assoc.
    pose proof (Hread Heq (wire_status cmd RTYPE_OK desc ++ response_header cmd var id type value) []) as H.
    rewrite app_nil_r in H. by rewrite (bind_done _ _ _ _ _ (local_ok _ _ _ H)).
  - by rewrite (bind_throws _ _ _ _ _ Hp).
Qed.
Lemma get_value_spec {A} (read : Storage -> res (A * Storage)) default x e kind cmd var id add desc a c o d rest :
  e = Get kind cmd var id add (Value desc a) -> valid_exchange e ->
  (answer_type a = answer_type kind -> reads read (wire_answer a) x) ->
  connected c (framed (reply_bytes e) ++ rest) o d ->
  exists c', connected c' rest (o ++ framed (with_length (command_body e))) d /\
  get_value big piece sent (answer_type kind) read default cmd var id add c =
    if answer_type a =? answer_type kind then Done x c'
    else Throws (TraCIException "Expected type but got another") c'.
Proof.
  intros -> (Hcmd & Hvar & Hadd & Hfit & Hd & Ha & Hr) Hread Hc.
  apply (get_value_bytes read default x (answer_type kind) cmd var id add desc (answer_type a) (wire_answer a)); try done.
  by destruct kind.
Qed.

Lemma get_value_refused {A} (read : Storage -> res (A * Storage)) default type' e kind cmd var id add type desc c o d rest :
  e = Get kind cmd var id add (Refused type desc) -> valid_exchange e ->
  connected c (framed (reply_bytes e) ++ rest) o d ->
  exists c', connected c' rest (o ++ framed (with_length (command_body e))) d /\
  get_value big piece sent type' read default cmd var id add c = Throws (status_fault type desc) c'.
Proof.
  intros -> (Hcmd & Hvar & Hadd & Hfit & Ht & Hd) Hc. unfold get_value.
  pose proof (createCommand_wire big cmd var id add ltac:(lia) Hvar Hadd Hfit) as Hcr.
  rewrite (bind_done _ _ _ _ _ (local_ok _ _ _ Hcr)).
  destruct (processGet_refused c o d rest (mkStorage (wire_command cmd var id (add_bytes add)) 0) cmd type' type desc Hc Ht Hd)
    as (c' & Hc' & Hp).
  exists c'. split; [exact Hc'|]. by rewrite (bind_throws _ _ _ _ _ Hp).
Qed.

(** What a call comes to, for the caller. *)
Definition outcome_of {A} (r : res A) (c : TraCI) : outcome A := match r with Ok x => Done x c | Fail f => Throws f c end.

Lemma ask_value kind cmd var id add desc a c o d rest :
  let e := Get kind cmd var id add (Value desc a) in
  valid_exchange e -> connected c (framed (reply_bytes e) ++ rest) o d ->
  exists c', connected c' rest (o ++ framed (with_length (command_body e))) d /\
  ask big piece sent kind cmd var id add c =
    if answer_type a =? answer_type kind then Done a c'
    else Throws (TraCIException "Expected type but got another") c'.
Proof.
  intros e He Hc. pose proof He as (_ & _ & _ & _ & _ & Ha & _).
  assert (forall B (read : Storage -> res (B * Storage)) dflt (wrap : B -> answer) x,
    (answer_type a = answer_type kind -> reads read (wire_answer a) x /\ wrap x = a) ->
    exists c', connected c' rest (o ++ framed (with_length (command_body e))) d /\
      (v ← get_value big piece sent (answer_type kind) read dflt cmd var id add; mret (wrap v)) c =
      if answer_type a =? answer_type kind then Done a c'
      else Throws (TraCIException "Expected type but got another") c') as Hgen.
  { intros B read dflt wrap x Hx.
    destruct (get_value_spec read dflt x e kind cmd var id add desc a c o d rest) as (c' & Hc' & Hg);
      [done|done|intros; by apply Hx|done|].
    exists c'. split; [done|]. destruct (Z.eqb_spec (answer_type a) (answer_type kind)) as [Heq|Hne].
    - rewrite (bind_done _ _ _ _ _ Hg). by destruct (Hx Heq) as [_ <-].
    - by rewrite (bind_throws _ _ _ _ _ Hg). }
  destruct kind; cbn [ask].
  - apply (Hgen _ readUnsignedByte _ AUnsignedByte (match a with AUnsignedByte v => v | _ => 0 end)).
    destruct a; try done. intros _. split; [apply reads_unsigned_byte|done].
  - apply (Hgen _ readByte _ AByte (match a with AByte v => v | _ => 0 end)).
    destruct a; try done. intros _. split; [by apply reads_byte|done].
  - apply (Hgen _ (readInt big) _ AInt (match a with AInt v => v | _ => 0 end)).
    destruct a; try done. intros _. split; [by apply reads_int|done].
  - apply (Hgen _ (readDouble big) _ ADouble (match a with ADouble v => v | _ => d_zero end)).
    destruct a; try done. intros _. split; [by apply reads_double|done].
  - apply (Hgen _ (readPolygon big) _ (fun l => APolygon (fst <$> l))
      (match a with APolygon l => (fun p => (p.1, p.2, d_zero)) <$> l | _ => [] end)).
    destruct a as [| | | |l'| | | | |]; try done. intros _. destruct Ha as [Hf Hl]. split; [by apply reads_polygon|].
    f_equal. rewrite <- list_fmap_compose. rewrite <- (list_fmap_id l') at 2. apply list_fmap_ext. by intros _ [? ?] _.
  - apply (Hgen _ (readPosition2D big) _ (fun p => APosition p.1.1 p.1.2)
      (match a with APosition x y => (x, y, d_zero) | _ => (d_zero, d_zero, d_zero) end)).
    destruct a; try done. intros _. destruct Ha. split; [by apply reads_position|done].
  - apply (Hgen _ (readPosition3D big) _ (fun p => APosition3D p.1.1 p.1.2 p.2)
      (match a with APosition3D x y z => (x, y, z) | _ => (d_zero, d_zero, d_zero) end)).
    destruct a; try done. intros _. destruct Ha as (? & ? & ?). split; [by apply reads_position3D|done].
  - apply (Hgen _ (readString big) _ AString (match a with AString v => v | _ => "" end)).
    destruct a; try done. intros _. split; [by apply reads_string|done].
  - apply (Hgen _ (readStrings big) _ AStringVector (match a with AStringVector v => v | _ => [] end)).
    destruct a; try done. intros _. destruct Ha. split; [by apply reads_strings|done].
  - apply (Hgen _ readColor _ (fun p : Z * Z * Z * Z => AColor p.1.1.1 p.1.1.2 p.1.2 p.2)
      (match a with AColor r g b a => (r, g, b, a) | _ => (0, 0, 0, 0) end)).
    destruct a; try done. intros _. split; [apply reads_color|done].
Qed.

Lemma ask_refused kind cmd var id add type desc c o d rest :
  let e := Get kind cmd var id add (Refused type desc) in
  valid_exchange e -> connected c (framed (reply_bytes e) ++ rest) o d ->
  exists c', connected c' rest (o ++ framed (with_length (command_body e))) d /\
  ask big piece sent kind cmd var id add c = Throws (status_fault type desc) c'.
Proof.
  intros e He Hc.
  assert (forall B (read : Storage -> res (B * Storage)) dflt type' (wrap : B -> answer),
    exists c', connected c' rest (o ++ framed (with_length (command_body e))) d /\
      (v ← get_value big piece sent type' read dflt cmd var id add; mret (wrap v)) c = Throws (status_fault type desc) c') as Hgen.
  { intros B read dflt type' wrap.
    destruct (get_value_refused read dflt type' e kind cmd var id add type desc c o d rest) as (c' & Hc' & Hg); [done..|].
    exists c'. split; [done|]. by rewrite (bind_throws _ _ _ _ _ Hg). }
  destruct kind; cbn [ask]; apply Hgen.
Qed.

Lemma perform_spec e c o d rest :
  valid_exchange e -> connected c (framed (reply_bytes e) ++ rest) o d ->
  exists c', connected c' rest (o ++ framed (with_length (command_body e))) d /\
    perform big piece sent e c = outcome_of (expected e) c'.
Proof.
  intros He Hc. destruct e as [kind cmd var id add [desc a|type desc]|cmd var id add type desc]; cbn [perform expected].
  - destruct (ask_value kind cmd var id add desc a c o d rest He Hc) as (c' & Hc' & Ha). exists c'. split; [done|].
    destruct (answer_type a =? answer_type kind); [by rewrite (bind_done _ _ _ _ _ Ha)|by rewrite (bind_throws _ _ _ _ _ Ha)].
  - destruct (ask_refused kind cmd var id add type desc c o d rest He Hc) as (c' & Hc' & Ha). exists c'. split; [done|].
    by rewrite (bind_throws _ _ _ _ _ Ha).
  - destruct He as (Hcmd & Hvar & Hadd & Hfit & Hd).
    pose proof (createCommand_wire big cmd var id add ltac:(lia) Hvar Hadd Hfit) as Hcr.
    rewrite (bind_done _ _ _ _ _ (local_ok _ _ _ Hcr)).
    destruct (processSet_spec c o d rest (mkStorage (wire_command cmd var id (add_bytes add)) 0) cmd type desc Hc Hd)
      as (c' & Hc' & Hp).
    exists c'. split; [exact Hc'|]. destruct (type =? RTYPE_OK).
    + by rewrite (bind_done _ _ _ _ _ Hp).
    + by rewrite (bind_throws _ _ _ _ _ Hp).
Qed.

(** [C14] Client and simulator keep in step: in every sequence of queries and settings, each
    call returns the value the simulator sent for it, of any type and any size, or throws
    the exception for the status or the type of the answer; after an exception the next
    call gets its own answer.  Each command on the stream is delimited by its length, in
    the short and in the long form, and everything else stays on the stream.  Byte orders
    and the sizes of the pieces delivered and taken do not matter. *)
Theorem client_session es c o d rest :
  Forall valid_exchange es ->
  connected c (concat ((fun e => framed (reply_bytes e)) <$> es) ++ rest) o d ->
  (exists c', run big piece sent es c = Some (expected <$> es, c') /\
     connected c' rest (o ++ concat ((fun e => framed (with_length (command_body e))) <$> es)) d) /\
  Forall (fun e => parse_command (with_length (command_body e)) = Some (command_body e, [])) es.
Proof.
  intros Hv Hc. split.
  - revert c o Hc. induction Hv as [|e es He Hes IH]; intros c o Hc; cbn [fmap list_fmap concat app] in *.
    + exists c. split; [done|]. by rewrite app_nil_r.
    + rewrite <- app_assoc in Hc. destruct (perform_spec e c o d _ He Hc) as (c1 & Hc1 & Hp).
      destruct (IH c1 _ Hc1) as (c2 & Hr & Hc2). exists c2. cbn [run]. rewrite Hp.
      split; [|by rewrite app_assoc]. unfold outcome_of. by destruct (expected e); rewrite Hr.
  - eapply Forall_impl; [exact Hv|]. intros e He. rewrite <- (app_nil_r (with_length _)). apply parse_with_length.
    assert (exists id add, length (command_body e) = (2 + (4 + String.length id + length (add_bytes add)))%nat /\
      fits_command id (add_bytes add)) as (id & add & -> & Hf).
    { destruct e as [kind cmd var id add r|cmd var id add type desc]; exists id, add; cbn [command_body];
        rewrite !length_app, wire_string_length; (split; [cbn; lia|apply He]). }
    unfold fits_command in Hf. lia.
Qed.
End SessionProofs.

(** ** Witnesses *)
Definition ex_session : list exchange :=
  [Get (ADouble d_zero) 0xa4 0x40 "veh0" None (Value "" (ADouble (d_of_Z 13)));
   Get (AInt 0) 0xa4 0x5b "veh0" None (Refused RTYPE_ERR "Vehicle is not known");
   Get (AString "") 0xa4 0x4f "veh0" None (Value "" (AInt 7));
   SetVar 0xc4 0x41 "veh0" (Some (writeDouble false (d_of_Z 30) (mkStorage [TYPE_DOUBLE] 0))) RTYPE_OK "";
   Get (APolygon []) 0xab 0x7c "" None (Value "" (APolygon [(d_zero, d_zero); (d_of_Z 100, d_of_Z 80)]))].
Definition ex_connected (incoming : list Z) : TraCI :=
  mkTraCI (Some (mkSocket incoming [] 0 0)) (myDomains TraCIAPI_create).

(** Conditions on concrete messages. *)
Ltac concrete := first [reflexivity | exact I | vm_compute; congruence | vm_compute; reflexivity].
Lemma ex_session_valid : Forall valid_exchange ex_session.
Proof.
  unfold ex_session. repeat apply Forall_cons_2; [..|apply Forall_nil_2];
    unfold valid_exchange, fits_command, valid_reply, valid_answer, fits, fits_string, d_valid.
  - split_and!; concrete.
  - split_and!; concrete.
  - split_and!; concrete.
  - split_and!; concrete.
  - split_and!; try concrete. repeat apply Forall_cons_2; [..|apply Forall_nil_2]; split; concrete.
Qed.

Lemma client_session_witness :
  exists c', run false ex_pieces ex_pieces ex_session
      (ex_connected (concat ((fun e => framed (reply_bytes e)) <$> ex_session) ++ [])) =
    Some ([Ok (Some (ADouble (d_of_Z 13)));
           Fail (TraCIException ".. Answered with error to command, [description: Vehicle is not known");
           Fail (TraCIException "Expected type but got another"); Ok None;
           Ok (Some (APolygon [(d_zero, d_zero); (d_of_Z 100, d_of_Z 80)]))], c').
Proof.
  destruct (client_session false ex_pieces ex_pieces (fun n => ex_intro _ 2%nat eq_refl) (fun n => ex_intro _ 2%nat eq_refl)
    ex_session (ex_connected (concat ((fun e => framed (reply_bytes e)) <$> ex_session) ++ [])) [] (myDomains TraCIAPI_create) [])
    as [(c' & Hr & _) _].
  - exact ex_session_valid.
  - by exists 0%nat, 0%nat.
  - exists c'. exact Hr.
Defined.

(** ** Behaviours at the edges *)
(** Without a connection a getter answers with its default; subscribing throws, a step breaks. *)
Example no_connection :
  getDouble false ex_pieces ex_pieces 0xa4 0x40 "veh0" None TraCIAPI_create = Done INVALID_DOUBLE_VALUE TraCIAPI_create /\
  scope_subscribe false ex_pieces ex_pieces 0xd4 "veh0" [0x40] d_zero d_zero TraCIAPI_create =
    Throws (SocketException "Socket is not initialised") TraCIAPI_create /\
  simulationStep false ex_pieces ex_pieces d_zero TraCIAPI_create = Breaks (Undefined "null socket").
Proof. split_and!; vm_compute; reflexivity. Qed.

(** A description of more than 248 bytes makes its status too long for the one byte of its
    length: the long form, which answers have, is taken for another command. *)
Example long_status_rejected :
  check_status false 0xa4 false (mkStorage (0 :: be_bytes 4 300 ++ [0xa4; RTYPE_ERR] ++ wire_string "long") 0) =
  Fail (TraCIException "#Error: received status response to command").
Proof. vm_compute. reflexivity. Qed.

(** The codes of domains without settings are no bytes. *)
Example no_settings : createCommand false (-1) 0x7e "loop" None = Fail (invalid_argument "Storage::writeUnsignedByte()").
Proof. reflexivity. Qed.
