(* ===== verification/TraciReports.v ===== *)
(** * Subscriptions of the TraCI client

    What a simulation step makes of the subscription results of
    [src/src/traci/sumo/utils/traci/TraCIAPI.cpp]: the reports of the simulator as they
    are on the wire, and what the user of the client sees afterwards. *)

From S2P Require Import Prelude OMap Float64 TraciCache Storage TraciClient.

(** ** Subscriptions *)
(** Values of the types that subscriptions deliver. *)
Definition result_of (a : answer) : option TraCIResult :=
  match a with
  | ADouble x => Some (TraCIDouble x)
  | AString s => Some (TraCIString s)
  | APosition x y => Some (TraCIPosition x y d_zero)
  | APosition3D x y z => Some (TraCIPosition x y z)
  | AColor r g b a => Some (TraCIColor r g b a)
  | AInt v => Some (TraCIInt v)
  | AStringVector l => Some (TraCIStringList l)
  | _ => None
  end.

(** A value of a variable, and what the simulator sends about an object, or about the
    objects around one: the code is that of the domain. *)
Record observation := mkObservation { ob_var : Z; ob_answer : answer; ob_result : TraCIResult }.
Definition valid_observation (b : observation) : Prop :=
  0 <= ob_var b <= 255 /\ valid_answer (ob_answer b) /\ result_of (ob_answer b) = Some (ob_result b).
Inductive report :=
| ObjectReport (code : Z) (obj : string) (l : list observation)
| ContextReport (code : Z) (ctx : string) (domain count : Z) (objects : list (string * list observation)).

Definition wire_observation (b : observation) : list Z :=
  [ob_var b; RTYPE_OK; answer_type (ob_answer b)] ++ wire_answer (ob_answer b).
Definition wire_object (p : string * list observation) : list Z :=
  wire_string p.1 ++ concat (wire_observation <$> p.2).
Definition report_body (r : report) : list Z :=
  match r with
  | ObjectReport code obj l => [code] ++ wire_string obj ++ [Z.of_nat (length l)] ++ concat (wire_observation <$> l)
  | ContextReport code ctx domain count objects =>
      [code - 0x50] ++ wire_string ctx ++ [domain] ++ [count] ++ be_bytes 4 (u32 (Z.of_nat (length objects))) ++
      concat (wire_object <$> objects)
  end.
Definition wire_report (r : report) : list Z := with_length (report_body r).
Definition step_answer (desc : string) (rs : list report) : list Z :=
  wire_status CMD_SIMSTEP RTYPE_OK desc ++ be_bytes 4 (u32 (Z.of_nat (length rs))) ++ concat (wire_report <$> rs).

Definition valid_report (r : report) : Prop :=
  5 + Z.of_nat (length (report_body r)) < 2 ^ 31 /\
  match r with
  | ObjectReport code obj l =>
      code ∈ domain_codes /\ fits_string obj /\ Z.of_nat (length l) <= 255 /\ Forall valid_observation l
  | ContextReport code ctx domain count objects =>
      code ∈ domain_codes /\ fits_string ctx /\ fits objects /\ 0 <= count <= 255 /\
      Forall (fun p => fits_string p.1 /\ Z.of_nat (length p.2) = count /\ Forall valid_observation p.2) objects
  end.

(** What reports do to the results of the domains. *)
Definition note (obj : string) (put : SubscriptionResults -> TraCI -> TraCI) (view : TraCI -> SubscriptionResults)
    (c : TraCI) (b : observation) : TraCI := put (into_set obj (ob_var b) (ob_result b) (view c)) c.
Definition view_results (code : Z) (c : TraCI) : SubscriptionResults :=
  match om_find code (myDomains c) with Some sc => mySubscriptionResults sc | None => [] end.
Definition view_context (code : Z) (ctx : string) (c : TraCI) : SubscriptionResults :=
  match om_find code (myDomains c) with Some sc => default [] (om_find ctx (myContextSubscriptionResults sc)) | None => [] end.
Definition note_object (code : Z) (ctx : string) (c : TraCI) (p : string * list observation) : TraCI :=
  foldl (note p.1 (put_context code ctx) (view_context code ctx)) (put_context code ctx (view_context code ctx c) c) p.2.
Definition note_report (c : TraCI) (r : report) : TraCI :=
  match r with
  | ObjectReport code obj l => foldl (note obj (put_results code) (view_results code)) c l
  | ContextReport code ctx _ _ objects => foldl (note_object code ctx) c objects
  end.

(** All domains are there, as the constructor makes them. *)
Definition all_domains (c : TraCI) : Prop := forall code, code ∈ domain_codes -> is_Some (om_find code (myDomains c)).

Section Reports.
Variable big : bool.

Definition at_ (pre rest : list Z) : Storage := mkStorage (pre ++ rest) (length pre).

Lemma local_reads {A} (r : Storage -> res (A * Storage)) bytes x pre rest c :
  reads r bytes x -> local (r (at_ pre (bytes ++ rest))) c = Done (x, at_ (pre ++ bytes) rest) c.
Proof.
  intros H. unfold at_. apply local_ok. rewrite H, <- length_app, app_assoc. by rewrite <- app_assoc.
Qed.

Lemma reads_result a x : valid_answer a -> result_of a = Some x ->
  reads (read_result big (answer_type a)) (wire_answer a) x.
Proof.
  destruct a; cbn [result_of]; intros Hv [= <-]; cbn [valid_answer wire_answer] in *.
  - by apply (reads_map _ TraCIInt), reads_int.
  - by apply (reads_map _ TraCIDouble), reads_double.
  - destruct Hv. by apply (reads_map _ (fun p => TraCIPosition p.1.1 p.1.2 p.2) _ _ (reads_position big x0 y ltac:(done) ltac:(done))).
  - destruct Hv as (? & ? & ?). by apply (reads_map _ (fun p => TraCIPosition p.1.1 p.1.2 p.2) _ _
      (reads_position3D big x0 y z ltac:(done) ltac:(done) ltac:(done))).
  - by apply (reads_map _ TraCIString), reads_string.
  - destruct Hv. by apply (reads_map _ TraCIStringList), reads_strings.
  - apply (reads_map _ (fun p : Z * Z * Z * Z => TraCIColor p.1.1.1 p.1.1.2 p.1.2 p.2) _ _ (reads_color r g b a)).
Qed.

Lemma reads_variable b : valid_observation b ->
  reads (read_variable big) (wire_observation b) (ob_var b, ob_result b).
Proof.
  intros (Hb & Ha & Hr). unfold read_variable, wire_observation.
  change ([ob_var b; RTYPE_OK; answer_type (ob_answer b)] ++ wire_answer (ob_answer b))
    with ([ob_var b] ++ [RTYPE_OK] ++ [answer_type (ob_answer b)] ++ wire_answer (ob_answer b)).
  eapply reads_bind; [apply reads_unsigned_byte|]. eapply reads_bind; [apply reads_unsigned_byte|].
  eapply reads_bind; [apply reads_unsigned_byte|]. rewrite Z.eqb_refl.
  apply (reads_map _ (fun x => (ob_var b, x))). by apply reads_result.
Qed.

(** The results [into] are those the client holds throughout. *)
Lemma readVariables_spec obj put view (good : TraCI -> Prop) l pre rest c :
  (forall i c, good c -> good (put i c) /\ view (put i c) = i) ->
  good c -> Forall valid_observation l ->
  readVariables big (at_ pre (concat (wire_observation <$> l) ++ rest)) obj (length l) (view c) put c =
  Done (at_ (pre ++ concat (wire_observation <$> l)) rest) (foldl (note obj put view) c l) /\
  good (foldl (note obj put view) c l).
Proof.
  intros Hput. revert pre c. induction l as [|b l IH]; intros pre c Hc Hl; cbn [length readVariables fmap list_fmap concat foldl].
  - rewrite app_nil_r. done.
  - apply Forall_cons in Hl as [Hb Hl]. rewrite <- app_assoc.
    rewrite (bind_done _ _ _ _ _ (local_reads _ _ _ _ _ _ (reads_variable b Hb))).
    rewrite (bind_done (modify _) _ c tt (put (into_set obj (ob_var b) (ob_result b) (view c)) c) eq_refl).
    destruct (Hput (into_set obj (ob_var b) (ob_result b) (view c)) c Hc) as [Hg Hv].
    specialize (IH (pre ++ wire_observation b) (put (into_set obj (ob_var b) (ob_result b) (view c)) c) Hg Hl).
    rewrite Hv in IH. rewrite <- (app_assoc pre) in IH. exact IH.
Qed.

(** Writing results touches one domain's results. *)
Lemma put_results_good code i c : is_Some (om_find code (myDomains c)) ->
  is_Some (om_find code (myDomains (put_results code i c))) /\ view_results code (put_results code i c) = i.
Proof.
  intros [sc Hsc]. unfold put_results, view_results. rewrite Hsc. cbn [myDomains with_domains]. by rewrite om_find_set_eq.
Qed.
Lemma put_context_good code ctx i c : is_Some (om_find code (myDomains c)) ->
  is_Some (om_find code (myDomains (put_context code ctx i c))) /\ view_context code ctx (put_context code ctx i c) = i.
Proof.
  intros [sc Hsc]. unfold put_context, view_context. rewrite Hsc. cbn [myDomains with_domains].
  rewrite om_find_set_eq. cbn [myContextSubscriptionResults]. by rewrite om_find_set_eq.
Qed.

(** What noting keeps: the socket, and which domains there are. *)
Definition same_domains (c c' : TraCI) : Prop :=
  mySocket c' = mySocket c /\ forall k, is_Some (om_find k (myDomains c)) -> is_Some (om_find k (myDomains c')).

Lemma same_domains_refl c : same_domains c c.
Proof. done. Qed.
Lemma same_domains_trans a b c : same_domains a b -> same_domains b c -> same_domains a c.
Proof. intros [H1 H2] [H3 H4]. split; [congruence|auto]. Qed.
Lemma same_domains_set code sc c : same_domains c (with_domains (om_set code sc (myDomains c)) c).
Proof. split; [done|]. intros k Hk. cbn [myDomains with_domains]. rewrite om_find_set. by case_decide. Qed.
Lemma same_domains_put_results code i c : same_domains c (put_results code i c).
Proof. unfold put_results. destruct (om_find _ _); [apply same_domains_set|done]. Qed.
Lemma same_domains_put_context code ctx i c : same_domains c (put_context code ctx i c).
Proof. unfold put_context. destruct (om_find _ _); [apply same_domains_set|done]. Qed.
Lemma same_domains_foldl {A} (f : TraCI -> A -> TraCI) l c :
  (forall c x, same_domains c (f c x)) -> same_domains c (foldl f c l).
Proof.
  intros Hf. revert c. induction l as [|x l IH]; intros c; [done|]. eapply same_domains_trans; [apply Hf|apply IH].
Qed.
Lemma same_domains_object code ctx c p : same_domains c (note_object code ctx c p).
Proof.
  unfold note_object. eapply same_domains_trans; [apply same_domains_put_context|].
  apply same_domains_foldl. intros. apply same_domains_put_context.
Qed.
Lemma same_domains_report c r : same_domains c (note_report c r).
Proof.
  destruct r as [code obj l|code ctx dm count objects]; cbn [note_report]; apply same_domains_foldl; intros c' x.
  - apply same_domains_put_results.
  - apply same_domains_object.
Qed.
Lemma same_domains_all c c' : same_domains c c' -> all_domains c -> all_domains c'.
Proof. intros [_ H] Hc code Hcode. by apply H, Hc. Qed.

Lemma bind_scope {B} (k : scope -> client B) code c sc : om_find code (myDomains c) = Some sc ->
  (x ← domain_scope code; k x) c = k sc c.
Proof. intros H. apply bind_done. unfold domain_scope. by rewrite H. Qed.

Lemma read_object_report code obj l pre rest c :
  valid_report (ObjectReport code obj l) -> all_domains c ->
  readVariableSubscription big code
    (at_ pre ((wire_string obj ++ [Z.of_nat (length l)] ++ concat (wire_observation <$> l)) ++ rest)) c =
  Done (at_ (pre ++ wire_string obj ++ [Z.of_nat (length l)] ++ concat (wire_observation <$> l)) rest)
    (note_report c (ObjectReport code obj l)).
Proof.
  intros (_ & Hcode & Hobj & Hn & Hl) Hall. destruct (Hall code Hcode) as [sc Hsc]. unfold readVariableSubscription.
  rewrite <- (app_assoc (wire_string obj)).
  rewrite (bind_done _ _ _ _ _ (local_reads _ _ _ _ _ _ (reads_string big obj Hobj))).
  rewrite <- (app_assoc [_]).
  rewrite (bind_done _ _ _ _ _ (local_reads _ _ _ _ _ _ (reads_unsigned_byte (Z.of_nat (length l))))).
  rewrite (bind_scope _ _ _ _ Hsc). rewrite Nat2Z.id.
  assert (mySubscriptionResults sc = view_results code c) as -> by (unfold view_results; by rewrite Hsc).
  destruct (readVariables_spec obj (put_results code) (view_results code) (fun c => is_Some (om_find code (myDomains c)))
    l ((pre ++ wire_string obj) ++ [Z.of_nat (length l)]) rest c) as [H _]; [intros; by apply put_results_good|by eexists|done|].
  rewrite H. by rewrite <- !app_assoc.
Qed.

Lemma read_objects_spec code ctx count objects pre rest c :
  Forall (fun p => fits_string p.1 /\ Z.of_nat (length p.2) = count /\ Forall valid_observation p.2) objects ->
  is_Some (om_find code (myDomains c)) ->
  read_objects big code ctx (Z.to_nat count) (length objects) (at_ pre (concat (wire_object <$> objects) ++ rest)) c =
  Done (at_ (pre ++ concat (wire_object <$> objects)) rest) (foldl (note_object code ctx) c objects).
Proof.
  revert pre c. induction objects as [|[obj l] objects IH]; intros pre c Ho Hc; cbn [length read_objects fmap list_fmap concat foldl].
  - by rewrite app_nil_r.
  - apply Forall_cons in Ho as [(Hobj & Hn & Hl) Ho]. cbn [fst snd] in *. unfold wire_object at 1 3. cbn [fst snd].
    rewrite <- !app_assoc.
    rewrite (bind_done _ _ _ _ _ (local_reads _ _ _ _ _ _ (reads_string big obj Hobj))).
    pose proof Hc as [sc Hsc]. rewrite (bind_scope _ _ _ _ Hsc). cbn zeta.
    assert (default [] (om_find ctx (myContextSubscriptionResults sc)) = view_context code ctx c) as ->
      by (unfold view_context; by rewrite Hsc).
    rewrite (bind_done (modify _) _ c tt (put_context code ctx (view_context code ctx c) c) eq_refl).
    destruct (put_context_good code ctx (view_context code ctx c) c Hc) as [Hc1 Hv1].
    destruct (readVariables_spec obj (put_context code ctx) (view_context code ctx) (fun c => is_Some (om_find code (myDomains c)))
      l (pre ++ wire_string obj) (concat (wire_object <$> objects) ++ rest) _
      ltac:(intros; by apply put_context_good) Hc1 Hl) as [H Hc2].
    rewrite Hv1, <- Hn, Nat2Z.id in *. rewrite (bind_done _ _ _ _ _ H). rewrite Hn in *.
    rewrite IH by (done || exact Hc2). by rewrite <- !app_assoc.
Qed.

Lemma read_context_report code ctx dm count objects pre rest c :
  valid_report (ContextReport code ctx dm count objects) -> all_domains c ->
  readContextSubscription big code
    (at_ pre ((wire_string ctx ++ [dm] ++ [count] ++ be_bytes 4 (u32 (Z.of_nat (length objects))) ++
       concat (wire_object <$> objects)) ++ rest)) c =
  Done (at_ (pre ++ wire_string ctx ++ [dm] ++ [count] ++ be_bytes 4 (u32 (Z.of_nat (length objects))) ++
       concat (wire_object <$> objects)) rest) (note_report c (ContextReport code ctx dm count objects)).
Proof.
  intros (_ & Hcode & Hctx & Hn & Hcount & Ho) Hall. unfold readContextSubscription, fits in *. rewrite <- !app_assoc.
  rewrite (bind_done _ _ _ _ _ (local_reads _ _ _ _ _ _ (reads_string big ctx Hctx))).
  rewrite (bind_done _ _ _ _ _ (local_reads _ _ _ _ _ _ (reads_unsigned_byte dm))).
  rewrite (bind_done _ _ _ _ _ (local_reads _ _ _ _ _ _ (reads_unsigned_byte count))).
  rewrite (bind_done _ _ _ _ _ (local_reads _ _ _ _ _ _ (reads_int big (Z.of_nat (length objects)) ltac:(lia)))).
  rewrite Nat2Z.id. rewrite read_objects_spec by (done || by apply Hall). by rewrite <- !app_assoc.
Qed.

Lemma reads_report_header code n : 0 <= n -> 5 + n < 2 ^ 31 ->
  reads (fun s => check_commandGetResult big s 0 (-1) true) (wire_length n ++ [code]) code.
Proof.
  intros H0 H1. unfold check_commandGetResult.
  exact (reads_code big n code (fun cmdId s => Ok (cmdId, s)) [] code H0 H1 (reads_ret code)).
Qed.

Lemma read_subscriptions_spec rs pre rest c :
  Forall valid_report rs -> all_domains c ->
  read_subscriptions big (length rs) (at_ pre (concat (wire_report <$> rs) ++ rest)) c =
  Done (at_ (pre ++ concat (wire_report <$> rs)) rest) (foldl note_report c rs).
Proof.
  revert pre c. induction rs as [|r rs IH]; intros pre c Hrs Hall; cbn [length read_subscriptions fmap list_fmap concat foldl].
  - by rewrite app_nil_r.
  - apply Forall_cons in Hrs as [Hr Hrs].
    assert (forall code body, report_body r = [code] ++ body ->
      local (check_commandGetResult big (at_ pre ((wire_report r ++ concat (wire_report <$> rs)) ++ rest)) 0 (-1) true) c =
      Done (code, at_ (pre ++ wire_length (Z.of_nat (length (report_body r))) ++ [code]) (body ++ concat (wire_report <$> rs) ++ rest)) c) as Hhead.
    { intros code body Hb. unfold wire_report, with_length. rewrite Hb at 2. rewrite <- !app_assoc.
      rewrite (app_assoc (wire_length _)). apply (local_reads (fun s => check_commandGetResult big s 0 (-1) true)), reads_report_header;
        [lia|apply Hr]. }
    assert (forall code body, report_body r = [code] ++ body ->
      pre ++ wire_report r = (pre ++ wire_length (Z.of_nat (length (report_body r))) ++ [code]) ++ body) as Hw.
    { intros code body Hb. unfold wire_report, with_length. rewrite Hb at 2. by rewrite <- !app_assoc. }
    assert (all_domains (note_report c r)) as Hall' by (eapply same_domains_all; [apply same_domains_report|done]).
    rewrite (app_assoc pre (wire_report r)).
    destruct r as [code obj l|code ctx dm count objects]; cbn [report_body] in *.
    + rewrite (bind_done _ _ _ _ _ (Hhead _ _ eq_refl)). cbn beta iota.
      assert ((0xe0 <=? code) && (code <=? 0xee) = true) as Hrange.
      { destruct Hr as (_ & Hcode & _). unfold domain_codes in Hcode. rewrite !elem_of_cons, elem_of_nil in Hcode.
        rewrite andb_true_iff, !Z.leb_le. lia. }
      unfold RESPONSE_SUBSCRIBE_INDUCTIONLOOP_VARIABLE, RESPONSE_SUBSCRIBE_PERSON_VARIABLE. rewrite Hrange.
      rewrite (bind_done _ _ _ _ _ (read_object_report _ _ _ _ _ _ Hr Hall)). rewrite <- (Hw _ _ eq_refl). by apply IH.
    + rewrite (bind_done _ _ _ _ _ (Hhead _ _ eq_refl)). cbn beta iota.
      assert ((0xe0 <=? code - 0x50) && (code - 0x50 <=? 0xee) = false) as Hrange.
      { destruct Hr as (_ & Hcode & _). unfold domain_codes in Hcode. rewrite !elem_of_cons, elem_of_nil in Hcode.
        rewrite andb_false_iff, !Z.leb_gt. lia. }
      unfold RESPONSE_SUBSCRIBE_INDUCTIONLOOP_VARIABLE, RESPONSE_SUBSCRIBE_PERSON_VARIABLE. rewrite Hrange.
      replace (code - 0x50 + 0x50) with code by lia.
      rewrite (bind_done _ _ _ _ _ (read_context_report _ _ _ _ _ _ _ _ Hr Hall)). rewrite <- (Hw _ _ eq_refl). by apply IH.
Qed.
End Reports.

(** *** What a user of the client sees *)
Definition result (code : Z) (obj : string) (var : Z) (c : TraCI) : option TraCIResult :=
  om_find code (myDomains c) ≫= fun sc => om_find var (getSubscriptionResults sc obj).
Definition context_result (code : Z) (ctx obj : string) (var : Z) (c : TraCI) : option TraCIResult :=
  om_find code (myDomains c) ≫= fun sc =>
  om_find var (default [] (om_find obj (getContextSubscriptionResults sc ctx))).

(** The last value reported for a key. *)
Definition last_value {K} `{EqDecision K} (k : K) (r : option TraCIResult) (l : list (K * TraCIResult)) :
    option TraCIResult := foldl (fun r p => if decide (p.1 = k) then Some p.2 else r) r l.
Definition object_notes (r : report) : list (Z * string * Z * TraCIResult) :=
  match r with
  | ObjectReport code obj l => (fun b => (code, obj, ob_var b, ob_result b)) <$> l
  | _ => []
  end.
Definition context_notes (r : report) : list (Z * string * string * Z * TraCIResult) :=
  match r with
  | ContextReport code ctx _ _ objects =>
      concat ((fun p : string * list observation => (fun b => (code, ctx, p.1, ob_var b, ob_result b)) <$> p.2) <$> objects)
  | _ => []
  end.

Lemma last_value_app {K} `{EqDecision K} (k : K) r l1 l2 : last_value k r (l1 ++ l2) = last_value k (last_value k r l1) l2.
Proof. apply foldl_app. Qed.

Definition into_find (obj : string) (var : Z) (into : SubscriptionResults) : option TraCIResult :=
  om_find var (default [] (om_find obj into)).
Lemma into_find_set obj var obj' var' x into :
  into_find obj var (into_set obj' var' x into) =
  if decide (obj' = obj /\ var' = var) then Some x else into_find obj var into.
Proof.
  unfold into_find, into_set. rewrite om_find_set. destruct (decide (obj = obj')) as [<-|Hne]; cbn [from_option]; unfold id; cbv beta.
  - rewrite om_find_set. destruct (decide (var = var')) as [<-|Hne]; [by rewrite decide_True|].
    rewrite decide_False by naive_solver. done.
  - rewrite decide_False by naive_solver. done.
Qed.

Definition has_domain (code : Z) (c : TraCI) : Prop := is_Some (om_find code (myDomains c)).
Lemma result_view code obj var c : result code obj var c = into_find obj var (view_results code c).
Proof.
  unfold result, view_results, into_find, getSubscriptionResults. by destruct (om_find code (myDomains c)).
Qed.
Lemma context_result_view code ctx obj var c :
  context_result code ctx obj var c = into_find obj var (view_context code ctx c).
Proof.
  unfold context_result, view_context, into_find, getContextSubscriptionResults. by destruct (om_find code (myDomains c)).
Qed.

(** Writing one domain's results shows in them only. *)
Lemma view_results_put code code' i c : has_domain code' c ->
  view_results code (put_results code' i c) = if decide (code' = code) then i else view_results code c.
Proof.
  intros [sc Hsc]. unfold view_results, put_results. rewrite Hsc. cbn [myDomains with_domains]. rewrite om_find_set.
  destruct (decide (code = code')) as [->|Hne]; [by rewrite decide_True|by rewrite decide_False by congruence].
Qed.
Lemma view_results_put_context code code' ctx i c :
  view_results code (put_context code' ctx i c) = view_results code c.
Proof.
  unfold view_results, put_context. destruct (om_find code' (myDomains c)) as [sc|] eqn:Hsc; [|done].
  cbn [myDomains with_domains]. rewrite om_find_set. destruct (decide (code = code')) as [->|Hne]; [by rewrite Hsc|done].
Qed.
Lemma view_context_put code ctx code' ctx' i c : has_domain code' c ->
  view_context code ctx (put_context code' ctx' i c) =
  if decide (code' = code /\ ctx' = ctx) then i else view_context code ctx c.
Proof.
  intros [sc Hsc]. unfold view_context, put_context. rewrite Hsc. cbn [myDomains with_domains]. rewrite om_find_set.
  destruct (decide (code = code')) as [->|Hne]; [|by rewrite decide_False by naive_solver].
  cbn [myContextSubscriptionResults]. rewrite om_find_set, Hsc.
  destruct (decide (ctx = ctx')) as [->|Hne]; [by rewrite decide_True|by rewrite decide_False by naive_solver].
Qed.
Lemma view_context_put_results code ctx code' i c :
  view_context code ctx (put_results code' i c) = view_context code ctx c.
Proof.
  unfold view_context, put_results. destruct (om_find code' (myDomains c)) as [sc|] eqn:Hsc; [|done].
  cbn [myDomains with_domains]. rewrite om_find_set. destruct (decide (code = code')) as [->|Hne]; [by rewrite Hsc|done].
Qed.

Lemma has_domain_keeps code c c' : same_domains c c' -> has_domain code c -> has_domain code c'.
Proof. intros [_ H]. apply H. Qed.

Lemma result_object_report code obj var code' obj' l c : has_domain code' c ->
  result code obj var (note_report c (ObjectReport code' obj' l)) =
  last_value (code, obj, var) (result code obj var c) (object_notes (ObjectReport code' obj' l)).
Proof.
  unfold last_value. cbn [note_report object_notes]. revert c. induction l as [|b l IH]; intros c Hc; [done|].
  cbn [foldl fmap list_fmap fst snd]. rewrite IH by (eapply has_domain_keeps; [apply same_domains_put_results|done]).
  f_equal. unfold note. rewrite !result_view, view_results_put by done.
  destruct (decide (code' = code)) as [->|Hne]; [|by rewrite decide_False by congruence].
  rewrite into_find_set. destruct (decide (obj' = obj /\ ob_var b = var)) as [[-> ->]|Hne]; [by rewrite decide_True|].
  by rewrite decide_False by (intros Heq; apply Hne; by injection Heq).
Qed.
Lemma result_note_object code obj var code' ctx c p :
  result code obj var (note_object code' ctx c p) = result code obj var c.
Proof.
  unfold note_object. destruct p as [obj' l]. cbn [fst snd].
  transitivity (result code obj var (put_context code' ctx (view_context code' ctx c) c));
    [|by rewrite !result_view, view_results_put_context].
  generalize (put_context code' ctx (view_context code' ctx c) c). induction l as [|b l IH]; intros c0; [done|].
  cbn [foldl]. rewrite IH. unfold note. by rewrite !result_view, view_results_put_context.
Qed.
Lemma result_report code obj var c r : (forall k, k ∈ domain_codes -> has_domain k c) -> valid_report r ->
  result code obj var (note_report c r) = last_value (code, obj, var) (result code obj var c) (object_notes r).
Proof.
  intros Hall Hr. destruct r as [code' obj' l|code' ctx dm count objects].
  - apply result_object_report, Hall, Hr.
  - cbn [note_report object_notes]. unfold last_value. cbn [foldl]. clear Hr. revert c Hall.
    induction objects as [|p objects IH]; intros c Hall; [done|]. cbn [foldl]. rewrite IH; [apply result_note_object|].
    intros k Hk. eapply has_domain_keeps; [apply same_domains_object|auto].
Qed.

Lemma context_note_object code ctx obj var code' ctx' c p : has_domain code' c ->
  context_result code ctx obj var (note_object code' ctx' c p) =
  last_value (code, ctx, obj, var) (context_result code ctx obj var c)
    ((fun b => (code', ctx', p.1, ob_var b, ob_result b)) <$> p.2).
Proof.
  intros Hc. destruct p as [obj' l]. unfold note_object, last_value. cbn [fst snd].
  assert (context_result code ctx obj var c =
    context_result code ctx obj var (put_context code' ctx' (view_context code' ctx' c) c)) as ->.
  { rewrite !context_result_view, view_context_put by done. by destruct (decide _) as [[-> ->]|]. }
  assert (has_domain code' (put_context code' ctx' (view_context code' ctx' c) c)) as Hc1
    by (eapply has_domain_keeps; [apply same_domains_put_context|done]).
  revert Hc1. generalize (put_context code' ctx' (view_context code' ctx' c) c). clear c Hc.
  induction l as [|b l IH]; intros c Hc; [done|]. cbn [foldl fmap list_fmap fst snd].
  rewrite IH by (eapply has_domain_keeps; [apply same_domains_put_context|done]).
  f_equal. unfold note. rewrite !context_result_view, view_context_put by done.
  destruct (decide (code' = code /\ ctx' = ctx)) as [[-> ->]|Hne].
  - rewrite into_find_set. destruct (decide (obj' = obj /\ ob_var b = var)) as [[-> ->]|Hne]; [by rewrite decide_True|].
    by rewrite decide_False by (intros Heq; apply Hne; by injection Heq).
  - by rewrite decide_False by (intros Heq; apply Hne; by injection Heq).
Qed.
Lemma context_report code ctx obj var c r : (forall k, k ∈ domain_codes -> has_domain k c) -> valid_report r ->
  context_result code ctx obj var (note_report c r) =
  last_value (code, ctx, obj, var) (context_result code ctx obj var c) (context_notes r).
Proof.
  intros Hall Hr. destruct r as [code' obj' l|code' ctx' dm count objects].
  - cbn [note_report context_notes]. unfold last_value. cbn [foldl]. clear Hall Hr. revert c.
    induction l as [|b l IH]; intros c; [done|]. cbn [foldl]. rewrite IH. unfold note.
    by rewrite !context_result_view, view_context_put_results.
  - cbn [note_report context_notes]. assert (code' ∈ domain_codes) as Hcode by apply Hr. clear Hr. revert c Hall.
    induction objects as [|p objects IH]; intros c Hall; [done|]. cbn [foldl fmap list_fmap concat].
    rewrite IH, last_value_app.
    + f_equal. by apply context_note_object, Hall.
    + intros k Hk. eapply has_domain_keeps; [apply same_domains_object|auto].
Qed.

Definition step_command (time : double) : list Z := [10; CMD_SIMSTEP] ++ wire_double time.

Lemma clear_all_view c code : (forall k, has_domain k c -> has_domain k (clear_all c)) /\
  (forall obj var, result code obj var (clear_all c) = None) /\
  (forall ctx obj var, context_result code ctx obj var (clear_all c) = None).
Proof.
  assert (forall k, om_find k (myDomains (clear_all c)) = (fun _ => scope_empty) <$> om_find k (myDomains c)) as H.
  { intros k. unfold clear_all. cbn [myDomains with_domains]. induction (myDomains c) as [|[k' sc] l IH]; [done|].
    cbn. by destruct (decide (k = k')). }
  split; [|split].
  - intros k [sc Hk]. unfold has_domain. rewrite H, Hk. by eexists.
  - intros obj var. unfold result. rewrite H. by destruct (om_find code (myDomains c)).
  - intros ctx obj var. unfold context_result. rewrite H. by destruct (om_find code (myDomains c)).
Qed.

Section Steps.
Variable big : bool.
Variable piece sent : nat -> transfer.
Hypothesis Hpiece : flowing piece.
Hypothesis Hsent : flowing sent.

(** [C15] A simulation step replaces the results of all subscriptions by what the simulator
    reports in it: of every object and variable, and for context subscriptions of every
    object around another, the last value reported in this step, and nothing that an
    earlier step reported; the connection is ready for the next call. *)
Theorem step_delivers_subscriptions time desc rs c o d rest :
  connected c (framed (step_answer desc rs) ++ rest) o d -> all_domains c ->
  Z.of_nat (String.length desc) <= 248 -> Forall valid_report rs ->
  512 + Z.of_nat (length (step_answer desc rs)) < 2 ^ 31 ->
  exists c', simulationStep big piece sent time c = Done tt c' /\
    connected c' rest (o ++ framed (step_command time)) (myDomains c') /\ all_domains c' /\
    (forall code obj var, result code obj var c' = last_value (code, obj, var) None (concat (object_notes <$> rs))) /\
    (forall code ctx obj var,
       context_result code ctx obj var c' = last_value (code, ctx, obj, var) None (concat (context_notes <$> rs))).
Proof.
  intros Hc Hall Hd Hrs Hlen. unfold simulationStep, send_commandSimulationStep.
  assert (local (simple_command (1 + 1 + 8) CMD_SIMSTEP) c = Done (mkStorage [10; CMD_SIMSTEP] 0) c) as Hcmd by done.
  assert (exists c2, connected c2 rest (o ++ framed (step_command time)) d /\
    (_ ← (outMsg ← local (simple_command (1 + 1 + 8) CMD_SIMSTEP); sendExact_ big sent (writeDouble big time outMsg));
     check_resultState big piece CMD_SIMSTEP false) c =
    Done (at_ (wire_status CMD_SIMSTEP RTYPE_OK desc)
      (be_bytes 4 (u32 (Z.of_nat (length rs))) ++ concat (wire_report <$> rs)), desc) c2) as (c2 & Hc2 & He).
  { destruct (status_exchange big piece sent Hpiece Hsent c o d rest (writeDouble big time (mkStorage [10; CMD_SIMSTEP] 0))
      CMD_SIMSTEP RTYPE_OK desc _ Hc Hd) as (c2 & Hc2 & He).
    { unfold step_answer in Hlen. rewrite length_app, wire_status_length in Hlen. lia. }
    exists c2. split; [by rewrite writeDouble_wire in Hc2|]. 
    change (RTYPE_OK =? RTYPE_OK) with true in He. cbv iota in He. etransitivity; [|exact He]. reflexivity. }
  unfold mbind at 1, client_bind at 1. unfold mbind at 1, client_bind at 1 in He.
  destruct ((outMsg ← local _; sendExact_ _ _ _) c) as [[] c1|f c1|f]; [|done|done].
  rewrite (bind_done _ _ _ _ _ He). rewrite (bind_done (modify _) _ c2 tt (clear_all c2) eq_refl).
  unfold step_answer in Hlen. rewrite !length_app, be_bytes_length in Hlen.
  assert (Z.of_nat (length rs) <= Z.of_nat (length (concat (wire_report <$> rs)))) as Hn.
  { clear. induction rs as [|r rs IH]; [cbn; lia|]. cbn [fmap list_fmap concat length]. rewrite length_app.
    assert (1 <= length (wire_report r))%nat; [|lia]. unfold wire_report, with_length, wire_length.
    rewrite length_app. destruct (_ <=? _); cbn [length]; lia. }
  rewrite (bind_done _ _ _ _ _ (local_reads _ _ _ _ _ _ (reads_int big (Z.of_nat (length rs)) ltac:(lia)))).
  rewrite Nat2Z.id.
  assert (all_domains (clear_all c2)) as Hall2.
  { intros code Hcode. apply (clear_all_view c2 code). destruct Hc as (? & ? & ->), Hc2 as (? & ? & ->). by apply Hall. }
  pose proof (read_subscriptions_spec big rs (wire_status CMD_SIMSTEP RTYPE_OK desc ++ be_bytes 4 (u32 (Z.of_nat (length rs))))
    [] (clear_all c2) Hrs Hall2) as Hread. rewrite app_nil_r in Hread. rewrite (bind_done _ _ _ _ _ Hread).
  exists (foldl note_report (clear_all c2) rs).
  assert (same_domains (clear_all c2) (foldl note_report (clear_all c2) rs)) as Hsame
    by (apply same_domains_foldl, same_domains_report).
  split; [done|]. split; [|split; [by eapply same_domains_all|split]].
  - destruct Hsame as [Hsock _]. destruct Hc2 as (r & s & ->). exists r, s. cbn [mySocket clear_all with_domains] in Hsock.
    destruct (foldl _ _ _) as [k ds]. cbn [mySocket myDomains] in *. by rewrite Hsock.
  - intros code obj var. rewrite <- (proj1 (proj2 (clear_all_view c2 code)) obj var). revert Hall2. clear -Hrs.
    generalize (clear_all c2). induction rs as [|r rs IH]; intros c Hall; [done|]. apply Forall_cons in Hrs as [Hr Hrs].
    cbn [foldl fmap list_fmap concat]. rewrite last_value_app, <- (result_report _ _ _ _ _ Hall Hr). apply IH; [done|].
    eapply same_domains_all; [apply same_domains_report|done].
  - intros code ctx obj var. rewrite <- (proj2 (proj2 (clear_all_view c2 code)) ctx obj var). revert Hall2. clear -Hrs.
    generalize (clear_all c2). induction rs as [|r rs IH]; intros c Hall; [done|]. apply Forall_cons in Hrs as [Hr Hrs].
    cbn [foldl fmap list_fmap concat]. rewrite last_value_app, <- (context_report _ _ _ _ _ _ Hall Hr). apply IH; [done|].
    eapply same_domains_all; [apply same_domains_report|done].
Qed.
End Steps.

(** ** Witnesses *)
Definition ex_reports : list report :=
  [ObjectReport 0xeb "" [mkObservation 0x74 (AStringVector ["veh0"]) (TraCIStringList ["veh0"])];
   ObjectReport 0xe4 "veh0" [mkObservation 0x40 (ADouble (d_of_Z 13)) (TraCIDouble (d_of_Z 13))];
   ContextReport 0xe4 "veh0" 0xa4 1 [("veh1", [mkObservation 0x40 (ADouble (d_of_Z 9)) (TraCIDouble (d_of_Z 9))])]].

Lemma ex_reports_valid : Forall valid_report ex_reports.
Proof.
  assert (forall b, b ∈ [mkObservation 0x74 (AStringVector ["veh0"]) (TraCIStringList ["veh0"]);
      mkObservation 0x40 (ADouble (d_of_Z 13)) (TraCIDouble (d_of_Z 13));
      mkObservation 0x40 (ADouble (d_of_Z 9)) (TraCIDouble (d_of_Z 9))] -> valid_observation b) as Hb.
  { intros b. rewrite !elem_of_cons, elem_of_nil. unfold valid_observation.
    intros [->|[->|[->|[]]]]; (split; [split; concrete|split; [|reflexivity]]); cbn [ob_answer valid_answer].
    - split; [concrete|]. apply Forall_cons_2; [unfold fits_string; concrete|apply Forall_nil_2].
    - unfold d_valid. concrete.
    - unfold d_valid. concrete. }
  unfold ex_reports. repeat apply Forall_cons_2; [..|apply Forall_nil_2]; (split; [concrete|]); unfold fits_string, fits.
  - split_and!; [by repeat constructor|concrete|concrete|]. apply Forall_cons_2; [apply Hb; set_solver|apply Forall_nil_2].
  - split_and!; [by repeat constructor|concrete|concrete|]. apply Forall_cons_2; [apply Hb; set_solver|apply Forall_nil_2].
  - split_and!; [by repeat constructor|concrete|concrete|concrete|concrete|].
    apply Forall_cons_2; [|apply Forall_nil_2]. cbn [fst snd]. split_and!; [concrete|concrete|].
    apply Forall_cons_2; [apply Hb; set_solver|apply Forall_nil_2].
Qed.

Lemma step_delivers_subscriptions_witness :
  exists c', simulationStep false ex_pieces ex_pieces d_zero
      (ex_connected (framed (step_answer "" ex_reports) ++ [])) = Done tt c' /\
    result 0xe4 "veh0" 0x40 c' = Some (TraCIDouble (d_of_Z 13)) /\ result 0xe4 "veh1" 0x40 c' = None /\
    context_result 0xe4 "veh0" "veh1" 0x40 c' = Some (TraCIDouble (d_of_Z 9)).
Proof.
  destruct (step_delivers_subscriptions false ex_pieces ex_pieces (fun n => ex_intro _ 2%nat eq_refl)
    (fun n => ex_intro _ 2%nat eq_refl) d_zero "" ex_reports
    (ex_connected (framed (step_answer "" ex_reports) ++ [])) [] (myDomains TraCIAPI_create) [])
    as (c' & Hs & _ & _ & Hr & Hctx).
  - by exists 0%nat, 0%nat.
  - intros code Hcode. unfold domain_codes in Hcode. rewrite !elem_of_cons, elem_of_nil in Hcode.
    repeat destruct Hcode as [->|Hcode]; try done; vm_compute; by eexists.
  - concrete.
  - exact ex_reports_valid.
  - concrete.
  - exists c'. split; [exact Hs|]. rewrite !Hr, !Hctx. clear. split_and!; vm_compute; reflexivity.
Defined.

(** ** Behaviours at the edges *)
(** A report about an induction loop reaches a domain that does not exist. *)
Example induction_loop_report :
  simulationStep false ex_pieces ex_pieces d_zero
    (ex_connected (framed (step_answer "" [ObjectReport 0xe0 "loop" [mkObservation 0x10 (AInt 1) (TraCIInt 1)]]))) =
  Breaks (Undefined "null scope").
Proof. vm_compute. reflexivity. Qed.

