(* ===== verification/TraciScopes.v ===== *)
(** * Scopes of the TraCI client

    The variables of the traffic simulator as [TraCIAPI] offers them, by scope
    ([src/src/traci/sumo/utils/traci/TraCIAPI.cpp], [src/src/traci/API.cc]): one
    definition per method, named by scope and method.  A getter is a call of the client;
    a setting is the description of its command, the writes that make up the content
    included, and [set] carries it out.  The constants are those of
    [src/src/traci/sumo/libsumo/TraCIConstants.h]. *)

From S2P Require Import Prelude OMap Float64 TraciCache Storage TraciClient.

Module libsumo.
Definition CMD_STOP : Z := 0x12.
Definition CMD_CHANGELANE : Z := 0x13.
Definition CMD_SLOWDOWN : Z := 0x14.
Definition CMD_CHANGESUBLANE : Z := 0x15.
Definition CMD_OPENGAP : Z := 0x16.
Definition CMD_CHANGETARGET : Z := 0x31.
Definition CMD_GET_INDUCTIONLOOP_VARIABLE : Z := 0xa0.
Definition CMD_GET_MULTIENTRYEXIT_VARIABLE : Z := 0xa1.
Definition CMD_GET_TL_VARIABLE : Z := 0xa2.
Definition CMD_SET_TL_VARIABLE : Z := 0xc2.
Definition CMD_GET_LANE_VARIABLE : Z := 0xa3.
Definition CMD_SET_LANE_VARIABLE : Z := 0xc3.
Definition CMD_GET_VEHICLE_VARIABLE : Z := 0xa4.
Definition CMD_SET_VEHICLE_VARIABLE : Z := 0xc4.
Definition CMD_GET_VEHICLETYPE_VARIABLE : Z := 0xa5.
Definition CMD_SET_VEHICLETYPE_VARIABLE : Z := 0xc5.
Definition CMD_GET_ROUTE_VARIABLE : Z := 0xa6.
Definition CMD_SET_ROUTE_VARIABLE : Z := 0xc6.
Definition CMD_GET_POI_VARIABLE : Z := 0xa7.
Definition CMD_SET_POI_VARIABLE : Z := 0xc7.
Definition CMD_GET_POLYGON_VARIABLE : Z := 0xa8.
Definition CMD_SET_POLYGON_VARIABLE : Z := 0xc8.
Definition CMD_GET_JUNCTION_VARIABLE : Z := 0xa9.
Definition CMD_SET_JUNCTION_VARIABLE : Z := 0xc9.
Definition CMD_GET_EDGE_VARIABLE : Z := 0xaa.
Definition CMD_SET_EDGE_VARIABLE : Z := 0xca.
Definition CMD_GET_SIM_VARIABLE : Z := 0xab.
Definition CMD_SET_SIM_VARIABLE : Z := 0xcb.
Definition CMD_GET_GUI_VARIABLE : Z := 0xac.
Definition CMD_SET_GUI_VARIABLE : Z := 0xcc.
Definition CMD_GET_LANEAREA_VARIABLE : Z := 0xad.
Definition CMD_GET_PERSON_VARIABLE : Z := 0xae.
Definition CMD_SET_PERSON_VARIABLE : Z := 0xce.
Definition POSITION_LON_LAT : Z := 0x00.
Definition POSITION_2D : Z := 0x01.
Definition POSITION_LON_LAT_ALT : Z := 0x02.
Definition POSITION_3D : Z := 0x03.
Definition POSITION_ROADMAP : Z := 0x04.
Definition TYPE_POLYGON : Z := 0x06.
Definition TYPE_UBYTE : Z := 0x07.
Definition TYPE_BYTE : Z := 0x08.
Definition TYPE_INTEGER : Z := 0x09.
Definition TYPE_DOUBLE : Z := 0x0B.
Definition TYPE_STRING : Z := 0x0C.
Definition TYPE_STRINGLIST : Z := 0x0E.
Definition TYPE_COMPOUND : Z := 0x0F.
Definition TYPE_COLOR : Z := 0x11.
Definition REQUEST_AIRDIST : Z := 0x00.
Definition REQUEST_DRIVINGDIST : Z := 0x01.
Definition STAGE_WAITING : Z := 0x01.
Definition STAGE_WALKING : Z := 0x02.
Definition STAGE_DRIVING : Z := 0x03.
Definition TRACI_ID_LIST : Z := 0x00.
Definition ID_COUNT : Z := 0x01.
Definition LAST_STEP_VEHICLE_NUMBER : Z := 0x10.
Definition LAST_STEP_MEAN_SPEED : Z := 0x11.
Definition LAST_STEP_VEHICLE_ID_LIST : Z := 0x12.
Definition LAST_STEP_OCCUPANCY : Z := 0x13.
Definition LAST_STEP_VEHICLE_HALTING_NUMBER : Z := 0x14.
Definition LAST_STEP_LENGTH : Z := 0x15.
Definition LAST_STEP_TIME_SINCE_DETECTION : Z := 0x16.
Definition LAST_STEP_VEHICLE_DATA : Z := 0x17.
Definition LAST_STEP_PERSON_ID_LIST : Z := 0x1a.
Definition VAR_NAME : Z := 0x1b.
Definition TL_RED_YELLOW_GREEN_STATE : Z := 0x20.
Definition TL_PHASE_INDEX : Z := 0x22.
Definition TL_PROGRAM : Z := 0x23.
Definition TL_PHASE_DURATION : Z := 0x24.
Definition TL_CONTROLLED_LANES : Z := 0x26.
Definition TL_CONTROLLED_LINKS : Z := 0x27.
Definition TL_CURRENT_PHASE : Z := 0x28.
Definition TL_CURRENT_PROGRAM : Z := 0x29.
Definition TL_COMPLETE_DEFINITION_RYG : Z := 0x2b.
Definition TL_COMPLETE_PROGRAM_RYG : Z := 0x2c.
Definition TL_NEXT_SWITCH : Z := 0x2d.
Definition LANE_LINK_NUMBER : Z := 0x30.
Definition LANE_EDGE_ID : Z := 0x31.
Definition LANE_LINKS : Z := 0x33.
Definition LANE_ALLOWED : Z := 0x34.
Definition LANE_DISALLOWED : Z := 0x35.
Definition VAR_FOES : Z := 0x37.
Definition VAR_SLOPE : Z := 0x36.
Definition VAR_SPEED : Z := 0x40.
Definition VAR_MAXSPEED : Z := 0x41.
Definition VAR_POSITION : Z := 0x42.
Definition VAR_POSITION3D : Z := 0x39.
Definition VAR_ANGLE : Z := 0x43.
Definition VAR_LENGTH : Z := 0x44.
Definition VAR_COLOR : Z := 0x45.
Definition VAR_ACCEL : Z := 0x46.
Definition VAR_DECEL : Z := 0x47.
Definition VAR_EMERGENCY_DECEL : Z := 0x7b.
Definition VAR_APPARENT_DECEL : Z := 0x7c.
Definition VAR_TAU : Z := 0x48.
Definition VAR_VEHICLECLASS : Z := 0x49.
Definition VAR_EMISSIONCLASS : Z := 0x4a.
Definition VAR_SHAPECLASS : Z := 0x4b.
Definition VAR_MINGAP : Z := 0x4c.
Definition VAR_WIDTH : Z := 0x4d.
Definition VAR_SHAPE : Z := 0x4e.
Definition VAR_TYPE : Z := 0x4f.
Definition VAR_ROAD_ID : Z := 0x50.
Definition VAR_LANE_ID : Z := 0x51.
Definition VAR_LANE_INDEX : Z := 0x52.
Definition VAR_ROUTE_ID : Z := 0x53.
Definition VAR_EDGES : Z := 0x54.
Definition VAR_IMAGEFILE : Z := 0x93.
Definition VAR_LANEPOSITION : Z := 0x56.
Definition VAR_ROUTE : Z := 0x57.
Definition VAR_EDGE_TRAVELTIME : Z := 0x58.
Definition VAR_EDGE_EFFORT : Z := 0x59.
Definition VAR_CURRENT_TRAVELTIME : Z := 0x5a.
Definition VAR_SIGNALS : Z := 0x5b.
Definition VAR_MOVE_TO : Z := 0x5c.
Definition VAR_IMPERFECTION : Z := 0x5d.
Definition VAR_SPEED_FACTOR : Z := 0x5e.
Definition VAR_SPEED_DEVIATION : Z := 0x5f.
Definition VAR_ROUTING_MODE : Z := 0x89.
Definition VAR_SPEED_WITHOUT_TRACI : Z := 0xb1.
Definition VAR_BEST_LANES : Z := 0xb2.
Definition VAR_SPEEDSETMODE : Z := 0xb3.
Definition MOVE_TO_XY : Z := 0xb4.
Definition VAR_STOPSTATE : Z := 0xb5.
Definition VAR_ALLOWED_SPEED : Z := 0xb7.
Definition VAR_LANEPOSITION_LAT : Z := 0xb8.
Definition VAR_LATALIGNMENT : Z := 0xb9.
Definition VAR_MAXSPEED_LAT : Z := 0xba.
Definition VAR_MINGAP_LAT : Z := 0xbb.
Definition VAR_HEIGHT : Z := 0xbc.
Definition VAR_LINE : Z := 0xbd.
Definition VAR_VIA : Z := 0xbe.
Definition VAR_CO2EMISSION : Z := 0x60.
Definition VAR_COEMISSION : Z := 0x61.
Definition VAR_HCEMISSION : Z := 0x62.
Definition VAR_PMXEMISSION : Z := 0x63.
Definition VAR_NOXEMISSION : Z := 0x64.
Definition VAR_FUELCONSUMPTION : Z := 0x65.
Definition VAR_NOISEEMISSION : Z := 0x66.
Definition VAR_PERSON_NUMBER : Z := 0x67.
Definition VAR_LEADER : Z := 0x68.
Definition VAR_ROUTE_INDEX : Z := 0x69.
Definition VAR_WAITING_TIME : Z := 0x7a.
Definition VAR_ACCUMULATED_WAITING_TIME : Z := 0x87.
Definition VAR_NEXT_TLS : Z := 0x70.
Definition VAR_ACCELERATION : Z := 0x72.
Definition VAR_TIME : Z := 0x66.
Definition VAR_TIME_STEP : Z := 0x70.
Definition VAR_ELECTRICITYCONSUMPTION : Z := 0x71.
Definition VAR_LOADED_VEHICLES_NUMBER : Z := 0x71.
Definition VAR_LOADED_VEHICLES_IDS : Z := 0x72.
Definition VAR_DEPARTED_VEHICLES_NUMBER : Z := 0x73.
Definition VAR_DEPARTED_VEHICLES_IDS : Z := 0x74.
Definition VAR_TELEPORT_STARTING_VEHICLES_NUMBER : Z := 0x75.
Definition VAR_TELEPORT_STARTING_VEHICLES_IDS : Z := 0x76.
Definition VAR_TELEPORT_ENDING_VEHICLES_NUMBER : Z := 0x77.
Definition VAR_TELEPORT_ENDING_VEHICLES_IDS : Z := 0x78.
Definition VAR_ARRIVED_VEHICLES_NUMBER : Z := 0x79.
Definition VAR_ARRIVED_VEHICLES_IDS : Z := 0x7a.
Definition VAR_DELTA_T : Z := 0x7b.
Definition VAR_NET_BOUNDING_BOX : Z := 0x7c.
Definition VAR_MIN_EXPECTED_VEHICLES : Z := 0x7d.
Definition VAR_PARAMETER : Z := 0x7e.
Definition ADD : Z := 0x80.
Definition REMOVE : Z := 0x81.
Definition COPY : Z := 0x88.
Definition POSITION_CONVERSION : Z := 0x82.
Definition DISTANCE_REQUEST : Z := 0x83.
Definition VAR_DISTANCE : Z := 0x84.
Definition ADD_FULL : Z := 0x85.
Definition CMD_REROUTE_TRAVELTIME : Z := 0x90.
Definition VAR_ROUTE_VALID : Z := 0x92.
Definition VAR_STAGE : Z := 0xc0.
Definition VAR_NEXT_EDGE : Z := 0xc1.
Definition VAR_STAGES_REMAINING : Z := 0xc2.
Definition VAR_VEHICLE : Z := 0xc3.
Definition APPEND_STAGE : Z := 0xc4.
Definition REMOVE_STAGE : Z := 0xc5.
Definition VAR_VIEW_ZOOM : Z := 0xa0.
Definition VAR_VIEW_OFFSET : Z := 0xa1.
Definition VAR_VIEW_SCHEMA : Z := 0xa2.
Definition VAR_VIEW_BOUNDARY : Z := 0xa3.
Definition VAR_SCREENSHOT : Z := 0xa5.
Definition VAR_TRACK_VEHICLE : Z := 0xa6.
End libsumo.

(** ** Contents of commands *)
Inductive write :=
| wUnsignedByte (v : Z) | wByte (v : Z) | wInt (v : Z) | wDouble (v : double) | wString (v : string)
| wStringList (l : list string).
Definition run_write (big : bool) (w : write) (s : Storage) : res Storage :=
  match w with
  | wUnsignedByte v => writeUnsignedByte v s
  | wByte v => writeByte v s
  | wInt v => Ok (writeInt big v s)
  | wDouble v => Ok (writeDouble big v s)
  | wString v => Ok (writeString big v s)
  | wStringList l => Ok (writeStringList big l s)
  end.
Definition run_writes (big : bool) (ws : list write) : res Storage := res_fold (fun s w => run_write big w s) ws storage_empty.

(** What is set: command, variable, object and content. *)
Record setting := mkSetting { set_cmd : Z; set_var : Z; set_id : string; set_content : list write }.
Record color := mkColor { color_r : Z; color_g : Z; color_b : Z; color_a : Z }.

(** ** Settings *)
Definition EdgeScope_setMaxSpeed (edgeID : string) (speed : double) : setting :=
  mkSetting libsumo.CMD_SET_EDGE_VARIABLE libsumo.VAR_MAXSPEED edgeID
    [wDouble speed].
Definition GUIScope_setZoom (viewID : string) (zoom : double) : setting :=
  mkSetting libsumo.CMD_SET_GUI_VARIABLE libsumo.VAR_VIEW_ZOOM viewID
    [wUnsignedByte libsumo.TYPE_DOUBLE; wDouble zoom].
Definition GUIScope_setOffset (viewID : string) (x y : double) : setting :=
  mkSetting libsumo.CMD_SET_GUI_VARIABLE libsumo.VAR_VIEW_OFFSET viewID
    [wUnsignedByte libsumo.POSITION_2D; wDouble x; wDouble y].
Definition GUIScope_setSchema (viewID schemeName : string) : setting :=
  mkSetting libsumo.CMD_SET_GUI_VARIABLE libsumo.VAR_VIEW_SCHEMA viewID
    [wUnsignedByte libsumo.TYPE_STRING; wString schemeName].
Definition GUIScope_setBoundary (viewID : string) (xmin ymin xmax ymax : double) : setting :=
  mkSetting libsumo.CMD_SET_GUI_VARIABLE libsumo.VAR_VIEW_BOUNDARY viewID
    [wUnsignedByte libsumo.TYPE_POLYGON; wByte 2; wDouble xmin; wDouble ymin; wDouble xmax; wDouble ymax].
Definition GUIScope_screenshot (viewID filename : string) (width height : Z) : setting :=
  mkSetting libsumo.CMD_SET_GUI_VARIABLE libsumo.VAR_SCREENSHOT viewID
    [wByte libsumo.TYPE_COMPOUND; wInt 3; wByte libsumo.TYPE_STRING; wString filename;
     wByte libsumo.TYPE_INTEGER; wInt width; wByte libsumo.TYPE_INTEGER; wInt height].
Definition GUIScope_trackVehicle (viewID vehID : string) : setting :=
  mkSetting libsumo.CMD_SET_GUI_VARIABLE libsumo.VAR_TRACK_VEHICLE viewID
    [wUnsignedByte libsumo.TYPE_STRING; wString vehID].
Definition LaneScope_setMaxSpeed (laneID : string) (speed : double) : setting :=
  mkSetting libsumo.CMD_SET_LANE_VARIABLE libsumo.VAR_MAXSPEED laneID
    [wUnsignedByte libsumo.TYPE_DOUBLE; wDouble speed].
Definition LaneScope_setLength (laneID : string) (length : double) : setting :=
  mkSetting libsumo.CMD_SET_LANE_VARIABLE libsumo.VAR_LENGTH laneID
    [wUnsignedByte libsumo.TYPE_DOUBLE; wDouble length].
Definition POIScope_setType (poiID setType : string) : setting :=
  mkSetting libsumo.CMD_SET_POI_VARIABLE libsumo.VAR_TYPE poiID
    [wUnsignedByte libsumo.TYPE_STRING; wString setType].
Definition POIScope_setPosition (poiID : string) (x y : double) : setting :=
  mkSetting libsumo.CMD_SET_POI_VARIABLE libsumo.VAR_POSITION poiID
    [wUnsignedByte libsumo.POSITION_2D; wDouble x; wDouble y].
Definition POIScope_setColor (poiID : string) (c : color) : setting :=
  mkSetting libsumo.CMD_SET_POI_VARIABLE libsumo.VAR_COLOR poiID
    [wUnsignedByte libsumo.TYPE_COLOR; wUnsignedByte (color_r c); wUnsignedByte (color_g c);
     wUnsignedByte (color_b c); wUnsignedByte (color_a c)].
Definition POIScope_setWidth (poiID : string) (width : double) : setting :=
  mkSetting libsumo.CMD_SET_POI_VARIABLE libsumo.VAR_WIDTH poiID
    [wUnsignedByte libsumo.TYPE_DOUBLE; wDouble width].
Definition POIScope_setHeight (poiID : string) (height : double) : setting :=
  mkSetting libsumo.CMD_SET_POI_VARIABLE libsumo.VAR_HEIGHT poiID
    [wUnsignedByte libsumo.TYPE_DOUBLE; wDouble height].
Definition POIScope_setAngle (poiID : string) (angle : double) : setting :=
  mkSetting libsumo.CMD_SET_POI_VARIABLE libsumo.VAR_ANGLE poiID
    [wUnsignedByte libsumo.TYPE_DOUBLE; wDouble angle].
Definition POIScope_setImageFile (poiID imageFile : string) : setting :=
  mkSetting libsumo.CMD_SET_POI_VARIABLE libsumo.VAR_IMAGEFILE poiID
    [wUnsignedByte libsumo.TYPE_STRING; wString imageFile].
Definition POIScope_add (poiID : string) (x y : double) (c : color) (type_ : string) (layer : Z) (imgFile : string) (width height angle : double) : setting :=
  mkSetting libsumo.CMD_SET_POI_VARIABLE libsumo.ADD poiID
    [wUnsignedByte libsumo.TYPE_COMPOUND; wInt 8; wUnsignedByte libsumo.TYPE_STRING; wString type_;
     wUnsignedByte libsumo.TYPE_COLOR; wUnsignedByte (color_r c); wUnsignedByte (color_g c);
     wUnsignedByte (color_b c); wUnsignedByte (color_a c); wUnsignedByte libsumo.TYPE_INTEGER; wInt layer;
     wUnsignedByte libsumo.POSITION_2D; wDouble x; wDouble y; wUnsignedByte libsumo.TYPE_STRING;
     wString imgFile; wUnsignedByte libsumo.TYPE_DOUBLE; wDouble width; wUnsignedByte libsumo.TYPE_DOUBLE;
     wDouble height; wUnsignedByte libsumo.TYPE_DOUBLE; wDouble angle].
Definition POIScope_remove (poiID : string) (layer : Z) : setting :=
  mkSetting libsumo.CMD_SET_POI_VARIABLE libsumo.REMOVE poiID
    [wUnsignedByte libsumo.TYPE_INTEGER; wInt layer].
Definition PolygonScope_setLineWidth (polygonID : string) (lineWidth : double) : setting :=
  mkSetting libsumo.CMD_SET_POLYGON_VARIABLE libsumo.VAR_WIDTH polygonID
    [wUnsignedByte libsumo.TYPE_DOUBLE; wDouble lineWidth].
Definition PolygonScope_setType (polygonID setType : string) : setting :=
  mkSetting libsumo.CMD_SET_POLYGON_VARIABLE libsumo.VAR_TYPE polygonID
    [wUnsignedByte libsumo.TYPE_STRING; wString setType].
Definition PolygonScope_setColor (polygonID : string) (c : color) : setting :=
  mkSetting libsumo.CMD_SET_POLYGON_VARIABLE libsumo.VAR_COLOR polygonID
    [wUnsignedByte libsumo.TYPE_COLOR; wUnsignedByte (color_r c); wUnsignedByte (color_g c);
     wUnsignedByte (color_b c); wUnsignedByte (color_a c)].
Definition PolygonScope_remove (polygonID : string) (layer : Z) : setting :=
  mkSetting libsumo.CMD_SET_POLYGON_VARIABLE libsumo.REMOVE polygonID
    [wUnsignedByte libsumo.TYPE_INTEGER; wInt layer].
Definition RouteScope_add (routeID : string) (edges : list string) : setting :=
  mkSetting libsumo.CMD_SET_ROUTE_VARIABLE libsumo.ADD routeID
    [wUnsignedByte libsumo.TYPE_STRINGLIST; wStringList edges].
Definition TrafficLightScope_setRedYellowGreenState (tlsID state : string) : setting :=
  mkSetting libsumo.CMD_SET_TL_VARIABLE libsumo.TL_RED_YELLOW_GREEN_STATE tlsID
    [wUnsignedByte libsumo.TYPE_STRING; wString state].
Definition TrafficLightScope_setPhase (tlsID : string) (index_ : Z) : setting :=
  mkSetting libsumo.CMD_SET_TL_VARIABLE libsumo.TL_PHASE_INDEX tlsID
    [wUnsignedByte libsumo.TYPE_INTEGER; wInt index_].
Definition TrafficLightScope_setPhaseName (tlsID name : string) : setting :=
  mkSetting libsumo.CMD_SET_TL_VARIABLE libsumo.VAR_NAME tlsID
    [wUnsignedByte libsumo.TYPE_STRING; wString name].
Definition TrafficLightScope_setProgram (tlsID programID : string) : setting :=
  mkSetting libsumo.CMD_SET_TL_VARIABLE libsumo.TL_PROGRAM tlsID
    [wUnsignedByte libsumo.TYPE_STRING; wString programID].
Definition TrafficLightScope_setPhaseDuration (tlsID : string) (phaseDuration : double) : setting :=
  mkSetting libsumo.CMD_SET_TL_VARIABLE libsumo.TL_PHASE_DURATION tlsID
    [wUnsignedByte libsumo.TYPE_DOUBLE; wDouble phaseDuration].
Definition VehicleTypeScope_setLength (typeID : string) (length : double) : setting :=
  mkSetting libsumo.CMD_SET_VEHICLETYPE_VARIABLE libsumo.VAR_LENGTH typeID
    [wUnsignedByte libsumo.TYPE_DOUBLE; wDouble length].
Definition VehicleTypeScope_setMaxSpeed (typeID : string) (speed : double) : setting :=
  mkSetting libsumo.CMD_SET_VEHICLETYPE_VARIABLE libsumo.VAR_MAXSPEED typeID
    [wUnsignedByte libsumo.TYPE_DOUBLE; wDouble speed].
Definition VehicleTypeScope_setVehicleClass (typeID clazz : string) : setting :=
  mkSetting libsumo.CMD_SET_VEHICLETYPE_VARIABLE libsumo.VAR_VEHICLECLASS typeID
    [wUnsignedByte libsumo.TYPE_STRING; wString clazz].
Definition VehicleTypeScope_setSpeedFactor (typeID : string) (factor : double) : setting :=
  mkSetting libsumo.CMD_SET_VEHICLETYPE_VARIABLE libsumo.VAR_SPEED_FACTOR typeID
    [wUnsignedByte libsumo.TYPE_DOUBLE; wDouble factor].
Definition VehicleTypeScope_setSpeedDeviation (typeID : string) (deviation : double) : setting :=
  mkSetting libsumo.CMD_SET_VEHICLETYPE_VARIABLE libsumo.VAR_SPEED_DEVIATION typeID
    [wUnsignedByte libsumo.TYPE_DOUBLE; wDouble deviation].
Definition VehicleTypeScope_setEmissionClass (typeID clazz : string) : setting :=
  mkSetting libsumo.CMD_SET_VEHICLETYPE_VARIABLE libsumo.VAR_EMISSIONCLASS typeID
    [wUnsignedByte libsumo.TYPE_STRING; wString clazz].
Definition VehicleTypeScope_setWidth (typeID : string) (width : double) : setting :=
  mkSetting libsumo.CMD_SET_VEHICLETYPE_VARIABLE libsumo.VAR_WIDTH typeID
    [wUnsignedByte libsumo.TYPE_DOUBLE; wDouble width].
Definition VehicleTypeScope_setHeight (typeID : string) (height : double) : setting :=
  mkSetting libsumo.CMD_SET_VEHICLETYPE_VARIABLE libsumo.VAR_HEIGHT typeID
    [wUnsignedByte libsumo.TYPE_DOUBLE; wDouble height].
Definition VehicleTypeScope_setMinGap (typeID : string) (minGap : double) : setting :=
  mkSetting libsumo.CMD_SET_VEHICLETYPE_VARIABLE libsumo.VAR_MINGAP typeID
    [wUnsignedByte libsumo.TYPE_DOUBLE; wDouble minGap].
Definition VehicleTypeScope_setMinGapLat (typeID : string) (minGapLat : double) : setting :=
  mkSetting libsumo.CMD_SET_VEHICLETYPE_VARIABLE libsumo.VAR_MINGAP_LAT typeID
    [wUnsignedByte libsumo.TYPE_DOUBLE; wDouble minGapLat].
Definition VehicleTypeScope_setMaxSpeedLat (typeID : string) (speed : double) : setting :=
  mkSetting libsumo.CMD_SET_VEHICLETYPE_VARIABLE libsumo.VAR_MAXSPEED_LAT typeID
    [wUnsignedByte libsumo.TYPE_DOUBLE; wDouble speed].
Definition VehicleTypeScope_setLateralAlignment (typeID latAlignment : string) : setting :=
  mkSetting libsumo.CMD_SET_VEHICLETYPE_VARIABLE libsumo.VAR_LATALIGNMENT typeID
    [wUnsignedByte libsumo.TYPE_STRING; wString latAlignment].
Definition VehicleTypeScope_copy (origTypeID newTypeID : string) : setting :=
  mkSetting libsumo.CMD_SET_VEHICLETYPE_VARIABLE libsumo.COPY origTypeID
    [wUnsignedByte libsumo.TYPE_STRING; wString newTypeID].
Definition VehicleTypeScope_setShapeClass (typeID clazz : string) : setting :=
  mkSetting libsumo.CMD_SET_VEHICLETYPE_VARIABLE libsumo.VAR_SHAPECLASS typeID
    [wUnsignedByte libsumo.TYPE_STRING; wString clazz].
Definition VehicleTypeScope_setAccel (typeID : string) (accel : double) : setting :=
  mkSetting libsumo.CMD_SET_VEHICLETYPE_VARIABLE libsumo.VAR_ACCEL typeID
    [wUnsignedByte libsumo.TYPE_DOUBLE; wDouble accel].
Definition VehicleTypeScope_setDecel (typeID : string) (decel : double) : setting :=
  mkSetting libsumo.CMD_SET_VEHICLETYPE_VARIABLE libsumo.VAR_DECEL typeID
    [wUnsignedByte libsumo.TYPE_DOUBLE; wDouble decel].
Definition VehicleTypeScope_setEmergencyDecel (typeID : string) (decel : double) : setting :=
  mkSetting libsumo.CMD_SET_VEHICLETYPE_VARIABLE libsumo.VAR_EMERGENCY_DECEL typeID
    [wUnsignedByte libsumo.TYPE_DOUBLE; wDouble decel].
Definition VehicleTypeScope_setApparentDecel (typeID : string) (decel : double) : setting :=
  mkSetting libsumo.CMD_SET_VEHICLETYPE_VARIABLE libsumo.VAR_APPARENT_DECEL typeID
    [wUnsignedByte libsumo.TYPE_DOUBLE; wDouble decel].
Definition VehicleTypeScope_setImperfection (typeID : string) (imperfection : double) : setting :=
  mkSetting libsumo.CMD_SET_VEHICLETYPE_VARIABLE libsumo.VAR_IMPERFECTION typeID
    [wUnsignedByte libsumo.TYPE_DOUBLE; wDouble imperfection].
Definition VehicleTypeScope_setTau (typeID : string) (tau : double) : setting :=
  mkSetting libsumo.CMD_SET_VEHICLETYPE_VARIABLE libsumo.VAR_TAU typeID
    [wUnsignedByte libsumo.TYPE_DOUBLE; wDouble tau].
Definition VehicleTypeScope_setColor (typeID : string) (c : color) : setting :=
  mkSetting libsumo.CMD_SET_VEHICLETYPE_VARIABLE libsumo.VAR_COLOR typeID
    [wUnsignedByte libsumo.TYPE_COLOR; wUnsignedByte (color_r c); wUnsignedByte (color_g c);
     wUnsignedByte (color_b c); wUnsignedByte (color_a c)].
Definition VehicleScope_remove (vehicleID : string) (reason : Z) : setting :=
  mkSetting libsumo.CMD_SET_VEHICLE_VARIABLE libsumo.REMOVE vehicleID
    [wUnsignedByte libsumo.TYPE_BYTE; wUnsignedByte reason].
Definition VehicleScope_changeTarget (vehicleID edgeID : string) : setting :=
  mkSetting libsumo.CMD_SET_VEHICLE_VARIABLE libsumo.CMD_CHANGETARGET vehicleID
    [wUnsignedByte libsumo.TYPE_STRING; wString edgeID].
Definition VehicleScope_changeLane (vehicleID : string) (laneIndex : Z) (duration : double) : setting :=
  mkSetting libsumo.CMD_SET_VEHICLE_VARIABLE libsumo.CMD_CHANGELANE vehicleID
    [wUnsignedByte libsumo.TYPE_COMPOUND; wInt 2; wUnsignedByte libsumo.TYPE_BYTE; wByte laneIndex;
     wUnsignedByte libsumo.TYPE_DOUBLE; wDouble duration].
Definition VehicleScope_changeLaneRelative (vehicleID : string) (laneChange : Z) (duration : double) : setting :=
  mkSetting libsumo.CMD_SET_VEHICLE_VARIABLE libsumo.CMD_CHANGELANE vehicleID
    [wUnsignedByte libsumo.TYPE_COMPOUND; wInt 3; wUnsignedByte libsumo.TYPE_BYTE; wByte laneChange;
     wUnsignedByte libsumo.TYPE_DOUBLE; wDouble duration; wUnsignedByte libsumo.TYPE_BYTE; wByte 1].
Definition VehicleScope_changeSublane (vehicleID : string) (latDist : double) : setting :=
  mkSetting libsumo.CMD_SET_VEHICLE_VARIABLE libsumo.CMD_CHANGESUBLANE vehicleID
    [wUnsignedByte libsumo.TYPE_DOUBLE; wDouble latDist].
Definition VehicleScope_setRouteID (vehicleID routeID : string) : setting :=
  mkSetting libsumo.CMD_SET_VEHICLE_VARIABLE libsumo.VAR_ROUTE_ID vehicleID
    [wUnsignedByte libsumo.TYPE_STRING; wString routeID].
Definition VehicleScope_moveTo (vehicleID laneID : string) (position : double) : setting :=
  mkSetting libsumo.CMD_SET_VEHICLE_VARIABLE libsumo.VAR_MOVE_TO vehicleID
    [wUnsignedByte libsumo.TYPE_COMPOUND; wInt 2; wUnsignedByte libsumo.TYPE_STRING; wString laneID;
     wUnsignedByte libsumo.TYPE_DOUBLE; wDouble position].
Definition VehicleScope_moveToXY (vehicleID edgeID : string) (lane : Z) (x y angle : double) (keepRoute : Z) : setting :=
  mkSetting libsumo.CMD_SET_VEHICLE_VARIABLE libsumo.MOVE_TO_XY vehicleID
    [wUnsignedByte libsumo.TYPE_COMPOUND; wInt 6; wUnsignedByte libsumo.TYPE_STRING; wString edgeID;
     wUnsignedByte libsumo.TYPE_INTEGER; wInt lane; wUnsignedByte libsumo.TYPE_DOUBLE; wDouble x;
     wUnsignedByte libsumo.TYPE_DOUBLE; wDouble y; wUnsignedByte libsumo.TYPE_DOUBLE; wDouble angle;
     wUnsignedByte libsumo.TYPE_BYTE; wByte keepRoute].
Definition VehicleScope_slowDown (vehicleID : string) (speed duration : double) : setting :=
  mkSetting libsumo.CMD_SET_VEHICLE_VARIABLE libsumo.CMD_SLOWDOWN vehicleID
    [wUnsignedByte libsumo.TYPE_COMPOUND; wInt 2; wUnsignedByte libsumo.TYPE_DOUBLE; wDouble speed;
     wUnsignedByte libsumo.TYPE_DOUBLE; wDouble duration].
Definition VehicleScope_setSpeed (vehicleID : string) (speed : double) : setting :=
  mkSetting libsumo.CMD_SET_VEHICLE_VARIABLE libsumo.VAR_SPEED vehicleID
    [wUnsignedByte libsumo.TYPE_DOUBLE; wDouble speed].
Definition VehicleScope_setSpeedMode (vehicleID : string) (mode : Z) : setting :=
  mkSetting libsumo.CMD_SET_VEHICLE_VARIABLE libsumo.VAR_SPEEDSETMODE vehicleID
    [wByte libsumo.TYPE_INTEGER; wInt mode].
Definition VehicleScope_setStop (vehicleID edgeID : string) (endPos : double) (laneIndex : Z) (duration : double) (flags : Z) (startPos until : double) : setting :=
  mkSetting libsumo.CMD_SET_VEHICLE_VARIABLE libsumo.CMD_STOP vehicleID
    [wUnsignedByte libsumo.TYPE_COMPOUND; wInt 7; wUnsignedByte libsumo.TYPE_STRING; wString edgeID;
     wUnsignedByte libsumo.TYPE_DOUBLE; wDouble endPos; wUnsignedByte libsumo.TYPE_BYTE; wByte laneIndex;
     wUnsignedByte libsumo.TYPE_DOUBLE; wDouble duration; wUnsignedByte libsumo.TYPE_BYTE; wByte flags;
     wUnsignedByte libsumo.TYPE_DOUBLE; wDouble startPos; wUnsignedByte libsumo.TYPE_DOUBLE; wDouble until].
Definition VehicleScope_setType (vehicleID typeID : string) : setting :=
  mkSetting libsumo.CMD_SET_VEHICLE_VARIABLE libsumo.VAR_TYPE vehicleID
    [wUnsignedByte libsumo.TYPE_STRING; wString typeID].
Definition VehicleScope_setSpeedFactor (vehicleID : string) (factor : double) : setting :=
  mkSetting libsumo.CMD_SET_VEHICLE_VARIABLE libsumo.VAR_SPEED_FACTOR vehicleID
    [wUnsignedByte libsumo.TYPE_DOUBLE; wDouble factor].
Definition VehicleScope_setMaxSpeed (vehicleID : string) (speed : double) : setting :=
  mkSetting libsumo.CMD_SET_VEHICLE_VARIABLE libsumo.VAR_MAXSPEED vehicleID
    [wUnsignedByte libsumo.TYPE_DOUBLE; wDouble speed].
Definition VehicleScope_setColor (vehicleID : string) (c : color) : setting :=
  mkSetting libsumo.CMD_SET_VEHICLE_VARIABLE libsumo.VAR_COLOR vehicleID
    [wUnsignedByte libsumo.TYPE_COLOR; wUnsignedByte (color_r c); wUnsignedByte (color_g c);
     wUnsignedByte (color_b c); wUnsignedByte (color_a c)].
Definition VehicleScope_setLine (vehicleID line : string) : setting :=
  mkSetting libsumo.CMD_SET_VEHICLE_VARIABLE libsumo.VAR_LINE vehicleID
    [wUnsignedByte libsumo.TYPE_STRING; wString line].
Definition VehicleScope_setSignals (vehicleID : string) (signals : Z) : setting :=
  mkSetting libsumo.CMD_SET_VEHICLE_VARIABLE libsumo.VAR_SIGNALS vehicleID
    [wUnsignedByte libsumo.TYPE_INTEGER; wInt signals].
Definition VehicleScope_setRoutingMode (vehicleID : string) (routingMode : Z) : setting :=
  mkSetting libsumo.CMD_SET_VEHICLE_VARIABLE libsumo.VAR_ROUTING_MODE vehicleID
    [wUnsignedByte libsumo.TYPE_INTEGER; wInt routingMode].
Definition VehicleScope_setShapeClass (vehicleID clazz : string) : setting :=
  mkSetting libsumo.CMD_SET_VEHICLE_VARIABLE libsumo.VAR_SHAPECLASS vehicleID
    [wUnsignedByte libsumo.TYPE_STRING; wString clazz].
Definition VehicleScope_setEmissionClass (vehicleID clazz : string) : setting :=
  mkSetting libsumo.CMD_SET_VEHICLE_VARIABLE libsumo.VAR_EMISSIONCLASS vehicleID
    [wUnsignedByte libsumo.TYPE_STRING; wString clazz].
(** The command at the end of [VehicleScope::rerouteTraveltime]. *)
Definition VehicleScope_reroute (vehicleID : string) : setting :=
  mkSetting libsumo.CMD_SET_VEHICLE_VARIABLE libsumo.CMD_REROUTE_TRAVELTIME vehicleID
    [wUnsignedByte libsumo.TYPE_COMPOUND; wInt 0].
(** [TraCIScopeWrapper::setParameter] of the scope with this command. *)
Definition parameter_setting (myCmdSetID : Z) (objectID key value : string) : setting :=
  mkSetting myCmdSetID libsumo.VAR_PARAMETER objectID
    [wUnsignedByte libsumo.TYPE_COMPOUND; wInt 2; wUnsignedByte libsumo.TYPE_STRING; wString key;
     wUnsignedByte libsumo.TYPE_STRING; wString value].
Definition PersonScope_rerouteTraveltime (personID : string) : setting :=
  mkSetting libsumo.CMD_SET_PERSON_VARIABLE libsumo.CMD_REROUTE_TRAVELTIME personID
    [wUnsignedByte libsumo.TYPE_COMPOUND; wInt 0].
Definition PersonScope_add (personID edgeID : string) (pos depart : double) (typeID : string) : setting :=
  mkSetting libsumo.CMD_SET_PERSON_VARIABLE libsumo.ADD personID
    [wUnsignedByte libsumo.TYPE_COMPOUND; wInt 4; wUnsignedByte libsumo.TYPE_STRING; wString typeID;
     wUnsignedByte libsumo.TYPE_STRING; wString edgeID; wUnsignedByte libsumo.TYPE_DOUBLE; wDouble depart;
     wUnsignedByte libsumo.TYPE_DOUBLE; wDouble pos].
Definition PersonScope_appendDrivingStage (personID toEdge lines stopID : string) : setting :=
  mkSetting libsumo.CMD_SET_PERSON_VARIABLE libsumo.APPEND_STAGE personID
    [wUnsignedByte libsumo.TYPE_COMPOUND; wInt 4; wUnsignedByte libsumo.TYPE_INTEGER;
     wInt libsumo.STAGE_DRIVING; wUnsignedByte libsumo.TYPE_STRING; wString toEdge;
     wUnsignedByte libsumo.TYPE_STRING; wString lines; wUnsignedByte libsumo.TYPE_STRING; wString stopID].
Definition PersonScope_removeStage (personID : string) (nextStageIndex : Z) : setting :=
  mkSetting libsumo.CMD_SET_PERSON_VARIABLE libsumo.REMOVE_STAGE personID
    [wByte libsumo.TYPE_INTEGER; wInt nextStageIndex].
Definition PersonScope_setSpeed (personID : string) (speed : double) : setting :=
  mkSetting libsumo.CMD_SET_PERSON_VARIABLE libsumo.VAR_SPEED personID
    [wUnsignedByte libsumo.TYPE_DOUBLE; wDouble speed].
Definition PersonScope_setType (personID typeID : string) : setting :=
  mkSetting libsumo.CMD_SET_PERSON_VARIABLE libsumo.VAR_TYPE personID
    [wUnsignedByte libsumo.TYPE_STRING; wString typeID].
Definition PersonScope_setLength (personID : string) (length : double) : setting :=
  mkSetting libsumo.CMD_SET_PERSON_VARIABLE libsumo.VAR_LENGTH personID
    [wUnsignedByte libsumo.TYPE_DOUBLE; wDouble length].
Definition PersonScope_setWidth (personID : string) (width : double) : setting :=
  mkSetting libsumo.CMD_SET_PERSON_VARIABLE libsumo.VAR_WIDTH personID
    [wUnsignedByte libsumo.TYPE_DOUBLE; wDouble width].
Definition PersonScope_setHeight (personID : string) (height : double) : setting :=
  mkSetting libsumo.CMD_SET_PERSON_VARIABLE libsumo.VAR_HEIGHT personID
    [wUnsignedByte libsumo.TYPE_DOUBLE; wDouble height].
Definition PersonScope_setMinGap (personID : string) (minGap : double) : setting :=
  mkSetting libsumo.CMD_SET_PERSON_VARIABLE libsumo.VAR_MINGAP personID
    [wUnsignedByte libsumo.TYPE_DOUBLE; wDouble minGap].
Definition PersonScope_setColor (personID : string) (c : color) : setting :=
  mkSetting libsumo.CMD_SET_PERSON_VARIABLE libsumo.VAR_COLOR personID
    [wUnsignedByte libsumo.TYPE_COLOR; wUnsignedByte (color_r c); wUnsignedByte (color_g c);
     wUnsignedByte (color_b c); wUnsignedByte (color_a c)].

(** ** Settings with branches, loops and conversions *)
(** [std::numeric_limits<double>::max()] *)
Definition double_max : double := S754_finite false (2 ^ 53 - 1) 971.

Definition from_to (beginSeconds endSeconds value : double) : list write :=
  wByte libsumo.TYPE_COMPOUND ::
  (if negb (deqb endSeconds double_max)
   then [wInt 3; wByte libsumo.TYPE_DOUBLE; wDouble beginSeconds; wByte libsumo.TYPE_DOUBLE; wDouble endSeconds]
   else [wInt 1]) ++
  [wByte libsumo.TYPE_DOUBLE; wDouble value].
Definition EdgeScope_adaptTraveltime (edgeID : string) (time beginSeconds endSeconds : double) : setting :=
  mkSetting libsumo.CMD_SET_EDGE_VARIABLE libsumo.VAR_EDGE_TRAVELTIME edgeID (from_to beginSeconds endSeconds time).
Definition EdgeScope_setEffort (edgeID : string) (effort beginSeconds endSeconds : double) : setting :=
  mkSetting libsumo.CMD_SET_EDGE_VARIABLE libsumo.VAR_EDGE_EFFORT edgeID (from_to beginSeconds endSeconds effort).

(** A list of strings, written in a loop. *)
Definition wStrings (l : list string) : list write :=
  wUnsignedByte libsumo.TYPE_STRINGLIST :: wInt (int_of_size (length l)) :: (wString <$> l).
Definition LaneScope_setAllowed (laneID : string) (allowedClasses : list string) : setting :=
  mkSetting libsumo.CMD_SET_LANE_VARIABLE libsumo.LANE_ALLOWED laneID (wStrings allowedClasses).
Definition LaneScope_setDisallowed (laneID : string) (disallowedClasses : list string) : setting :=
  mkSetting libsumo.CMD_SET_LANE_VARIABLE libsumo.LANE_DISALLOWED laneID (wStrings disallowedClasses).
Definition VehicleScope_setRoute (vehicleID : string) (edges : list string) : setting :=
  mkSetting libsumo.CMD_SET_VEHICLE_VARIABLE libsumo.VAR_ROUTE vehicleID (wStrings edges).
Definition VehicleScope_setVia (vehicleID : string) (via : list string) : setting :=
  mkSetting libsumo.CMD_SET_VEHICLE_VARIABLE libsumo.VAR_VIA vehicleID (wStrings via).

Definition wPoints (shape : list (double * double)) : list write :=
  concat ((fun p : double * double => [wDouble p.1; wDouble p.2]) <$> shape).
Definition PolygonScope_setShape (polygonID : string) (shape : list (double * double)) : setting :=
  mkSetting libsumo.CMD_SET_POLYGON_VARIABLE libsumo.VAR_SHAPE polygonID
    (wUnsignedByte libsumo.TYPE_POLYGON ::
     (if Nat.ltb (length shape) 256 then [wUnsignedByte (int_of_size (length shape))]
      else [wUnsignedByte 0; wInt (int_of_size (length shape))]) ++ wPoints shape).
Definition PolygonScope_add (polygonID : string) (shape : list (double * double)) (c : color) (fill : bool)
    (type_ : string) (layer : Z) : setting :=
  let f := if fill then 1 else 0 in
  mkSetting libsumo.CMD_SET_POLYGON_VARIABLE libsumo.ADD polygonID
    ([wUnsignedByte libsumo.TYPE_COMPOUND; wInt 5; wUnsignedByte libsumo.TYPE_STRING; wString type_;
      wUnsignedByte libsumo.TYPE_COLOR; wUnsignedByte (color_r c); wUnsignedByte (color_g c);
      wUnsignedByte (color_b c); wUnsignedByte (color_a c); wUnsignedByte libsumo.TYPE_UBYTE; wUnsignedByte f;
      wUnsignedByte libsumo.TYPE_INTEGER; wInt layer; wUnsignedByte libsumo.TYPE_POLYGON;
      wUnsignedByte (int_of_size (length shape))] ++ wPoints shape).

Record TraCIPhase := mkPhase {
  duration : double; phase_state : string; minDur : double; maxDur : double; next : list Z; phase_name : string
}.
(** [subParameter] is a map. *)
Record TraCILogic := mkLogic {
  programID : string; logic_type : Z; currentPhaseIndex : Z; phases : list TraCIPhase;
  subParameter : list (string * string)
}.
Definition wPhase (p : TraCIPhase) : list write :=
  [wUnsignedByte libsumo.TYPE_COMPOUND; wInt 6; wUnsignedByte libsumo.TYPE_DOUBLE; wDouble (duration p);
   wUnsignedByte libsumo.TYPE_STRING; wString (phase_state p); wUnsignedByte libsumo.TYPE_DOUBLE; wDouble (minDur p);
   wUnsignedByte libsumo.TYPE_DOUBLE; wDouble (maxDur p); wUnsignedByte libsumo.TYPE_COMPOUND;
   wInt (int_of_size (length (next p)))] ++
  concat ((fun n => [wUnsignedByte libsumo.TYPE_INTEGER; wInt n]) <$> next p) ++
  [wUnsignedByte libsumo.TYPE_STRING; wString (phase_name p)].
Definition wParameter (item : string * string) : list write :=
  [wUnsignedByte libsumo.TYPE_STRINGLIST; wInt 2; wString item.1; wString item.2].
Definition wLogic (logic : TraCILogic) : list write :=
  [wUnsignedByte libsumo.TYPE_COMPOUND; wInt 5; wUnsignedByte libsumo.TYPE_STRING; wString (programID logic);
   wUnsignedByte libsumo.TYPE_INTEGER; wInt (logic_type logic); wUnsignedByte libsumo.TYPE_INTEGER;
   wInt (currentPhaseIndex logic); wUnsignedByte libsumo.TYPE_COMPOUND; wInt (int_of_size (length (phases logic)))] ++
  concat (wPhase <$> phases logic) ++
  [wUnsignedByte libsumo.TYPE_COMPOUND; wInt (int_of_size (length (subParameter logic)))] ++
  concat (wParameter <$> subParameter logic).
Definition TrafficLightScope_setCompleteRedYellowGreenDefinition (tlsID : string) (logic : TraCILogic) : setting :=
  mkSetting libsumo.CMD_SET_TL_VARIABLE libsumo.TL_COMPLETE_PROGRAM_RYG tlsID (wLogic logic).

Definition VehicleScope_openGap (vehicleID : string) (newTau duration_ changeRate maxDecel : double) : setting :=
  mkSetting libsumo.CMD_SET_VEHICLE_VARIABLE libsumo.CMD_OPENGAP vehicleID
    (wUnsignedByte libsumo.TYPE_COMPOUND ::
     [if dltb d_zero maxDecel then wInt 4 else wInt 3] ++
     [wUnsignedByte libsumo.TYPE_DOUBLE; wDouble newTau; wUnsignedByte libsumo.TYPE_DOUBLE; wDouble duration_;
      wUnsignedByte libsumo.TYPE_DOUBLE; wDouble changeRate] ++
     (if dltb d_zero maxDecel then [wUnsignedByte libsumo.TYPE_DOUBLE; wDouble maxDecel] else [])).

(** A conversion to [int]. *)
Definition d_to_int (x : double) : res Z := z ← d_to_long x; int_sum z.
Definition PersonScope_appendWaitingStage (personID : string) (duration_ : double) (description stopID : string) :
    res setting :=
  n ← d_to_int (dmul duration_ (d_of_Z 1000));
  Ok (mkSetting libsumo.CMD_SET_PERSON_VARIABLE libsumo.APPEND_STAGE personID
    [wUnsignedByte libsumo.TYPE_COMPOUND; wInt 4; wUnsignedByte libsumo.TYPE_INTEGER; wInt libsumo.STAGE_WAITING;
     wUnsignedByte libsumo.TYPE_INTEGER; wInt n; wUnsignedByte libsumo.TYPE_STRING; wString description;
     wUnsignedByte libsumo.TYPE_STRING; wString stopID]).
Definition PersonScope_appendWalkingStage (personID : string) (edges : list string) (arrivalPos duration_ speed : double)
    (stopID : string) : res setting :=
  n ← d_to_int (if dltb d_zero duration_ then dmul duration_ (d_of_Z 1000) else duration_);
  Ok (mkSetting libsumo.CMD_SET_PERSON_VARIABLE libsumo.APPEND_STAGE personID
    [wUnsignedByte libsumo.TYPE_COMPOUND; wInt 6; wUnsignedByte libsumo.TYPE_INTEGER; wInt libsumo.STAGE_WALKING;
     wUnsignedByte libsumo.TYPE_STRINGLIST; wStringList edges; wUnsignedByte libsumo.TYPE_DOUBLE; wDouble arrivalPos;
     wUnsignedByte libsumo.TYPE_INTEGER; wInt n; wUnsignedByte libsumo.TYPE_DOUBLE; wDouble speed;
     wUnsignedByte libsumo.TYPE_STRING; wString stopID]).

(** The departure has been chosen. *)
Definition VehicleScope_add_at (vehicleID routeID typeID depart departLane departPos departSpeed arrivalLane arrivalPos
    arrivalSpeed fromTaz toTaz line : string) (personCapacity personNumber : Z) : setting :=
  let wTyped s := [wUnsignedByte libsumo.TYPE_STRING; wString s] in
  mkSetting libsumo.CMD_SET_VEHICLE_VARIABLE libsumo.ADD_FULL vehicleID
    ([wUnsignedByte libsumo.TYPE_COMPOUND; wInt 14] ++ wTyped routeID ++ wTyped typeID ++ wTyped depart ++
     wTyped departLane ++ wTyped departPos ++ wTyped departSpeed ++ wTyped arrivalLane ++ wTyped arrivalPos ++
     wTyped arrivalSpeed ++ wTyped fromTaz ++ wTyped toTaz ++ wTyped line ++
     [wUnsignedByte libsumo.TYPE_INTEGER; wInt personCapacity; wUnsignedByte libsumo.TYPE_INTEGER; wInt personNumber]).

(** ** Getters *)
Section Host.
Variable big : bool.
Variable piece sent : nat -> transfer.
(** [TraCIAPI::toString], with two decimals. *)
Variable toString : double -> string.
#[local] Abbreviation getInt := (TraciClient.getInt big piece sent).
#[local] Abbreviation getDouble := (TraciClient.getDouble big piece sent).
#[local] Abbreviation getPolygon := (TraciClient.getPolygon big piece sent).
#[local] Abbreviation getPosition := (TraciClient.getPosition big piece sent).
#[local] Abbreviation getPosition3D := (TraciClient.getPosition3D big piece sent).
#[local] Abbreviation getString := (TraciClient.getString big piece sent).
#[local] Abbreviation getStringVector := (TraciClient.getStringVector big piece sent).
#[local] Abbreviation getColor := (TraciClient.getColor big piece sent).

Definition EdgeScope_getIDList : client (list string) :=
  getStringVector libsumo.CMD_GET_EDGE_VARIABLE libsumo.TRACI_ID_LIST "" None.
Definition EdgeScope_getIDCount : client Z :=
  getInt libsumo.CMD_GET_EDGE_VARIABLE libsumo.ID_COUNT "" None.
Definition EdgeScope_getAdaptedTraveltime (edgeID : string) (time : double) : client double :=
  content ← local (run_writes big [wByte libsumo.TYPE_DOUBLE; wDouble time]);
  getDouble libsumo.CMD_GET_EDGE_VARIABLE libsumo.VAR_EDGE_TRAVELTIME edgeID (Some content).
Definition EdgeScope_getEffort (edgeID : string) (time : double) : client double :=
  content ← local (run_writes big [wByte libsumo.TYPE_DOUBLE; wDouble time]);
  getDouble libsumo.CMD_GET_EDGE_VARIABLE libsumo.VAR_EDGE_EFFORT edgeID (Some content).
Definition EdgeScope_getCO2Emission (edgeID : string) : client double :=
  getDouble libsumo.CMD_GET_EDGE_VARIABLE libsumo.VAR_CO2EMISSION edgeID None.
Definition EdgeScope_getCOEmission (edgeID : string) : client double :=
  getDouble libsumo.CMD_GET_EDGE_VARIABLE libsumo.VAR_COEMISSION edgeID None.
Definition EdgeScope_getHCEmission (edgeID : string) : client double :=
  getDouble libsumo.CMD_GET_EDGE_VARIABLE libsumo.VAR_HCEMISSION edgeID None.
Definition EdgeScope_getPMxEmission (edgeID : string) : client double :=
  getDouble libsumo.CMD_GET_EDGE_VARIABLE libsumo.VAR_PMXEMISSION edgeID None.
Definition EdgeScope_getNOxEmission (edgeID : string) : client double :=
  getDouble libsumo.CMD_GET_EDGE_VARIABLE libsumo.VAR_NOXEMISSION edgeID None.
Definition EdgeScope_getFuelConsumption (edgeID : string) : client double :=
  getDouble libsumo.CMD_GET_EDGE_VARIABLE libsumo.VAR_FUELCONSUMPTION edgeID None.
Definition EdgeScope_getNoiseEmission (edgeID : string) : client double :=
  getDouble libsumo.CMD_GET_EDGE_VARIABLE libsumo.VAR_NOISEEMISSION edgeID None.
Definition EdgeScope_getElectricityConsumption (edgeID : string) : client double :=
  getDouble libsumo.CMD_GET_EDGE_VARIABLE libsumo.VAR_ELECTRICITYCONSUMPTION edgeID None.
Definition EdgeScope_getLastStepMeanSpeed (edgeID : string) : client double :=
  getDouble libsumo.CMD_GET_EDGE_VARIABLE libsumo.LAST_STEP_MEAN_SPEED edgeID None.
Definition EdgeScope_getLastStepOccupancy (edgeID : string) : client double :=
  getDouble libsumo.CMD_GET_EDGE_VARIABLE libsumo.LAST_STEP_OCCUPANCY edgeID None.
Definition EdgeScope_getLastStepLength (edgeID : string) : client double :=
  getDouble libsumo.CMD_GET_EDGE_VARIABLE libsumo.LAST_STEP_LENGTH edgeID None.
Definition EdgeScope_getTraveltime (edgeID : string) : client double :=
  getDouble libsumo.CMD_GET_EDGE_VARIABLE libsumo.VAR_CURRENT_TRAVELTIME edgeID None.
Definition EdgeScope_getLastStepVehicleNumber (edgeID : string) : client Z :=
  getInt libsumo.CMD_GET_EDGE_VARIABLE libsumo.LAST_STEP_VEHICLE_NUMBER edgeID None.
Definition EdgeScope_getLastStepHaltingNumber (edgeID : string) : client double :=
  n ← getInt libsumo.CMD_GET_EDGE_VARIABLE libsumo.LAST_STEP_VEHICLE_HALTING_NUMBER edgeID None;
  mret (d_of_Z n).
Definition EdgeScope_getLastStepVehicleIDs (edgeID : string) : client (list string) :=
  getStringVector libsumo.CMD_GET_EDGE_VARIABLE libsumo.LAST_STEP_VEHICLE_ID_LIST edgeID None.
Definition EdgeScope_getLaneNumber (edgeID : string) : client Z :=
  getInt libsumo.CMD_GET_EDGE_VARIABLE libsumo.VAR_LANE_INDEX edgeID None.
Definition EdgeScope_getStreetName (edgeID : string) : client string :=
  getString libsumo.CMD_GET_EDGE_VARIABLE libsumo.VAR_NAME edgeID None.
Definition GUIScope_getIDList : client (list string) :=
  getStringVector libsumo.CMD_GET_GUI_VARIABLE libsumo.TRACI_ID_LIST "" None.
Definition GUIScope_getZoom (viewID : string) : client double :=
  getDouble libsumo.CMD_GET_GUI_VARIABLE libsumo.VAR_VIEW_ZOOM viewID None.
Definition GUIScope_getOffset (viewID : string) : client (double * double * double) :=
  getPosition libsumo.CMD_GET_GUI_VARIABLE libsumo.VAR_VIEW_OFFSET viewID None.
Definition GUIScope_getSchema (viewID : string) : client string :=
  getString libsumo.CMD_GET_GUI_VARIABLE libsumo.VAR_VIEW_SCHEMA viewID None.
Definition GUIScope_getBoundary (viewID : string) : client (list (double * double * double)) :=
  getPolygon libsumo.CMD_GET_GUI_VARIABLE libsumo.VAR_VIEW_BOUNDARY viewID None.
Definition InductionLoopScope_getIDList : client (list string) :=
  getStringVector libsumo.CMD_GET_INDUCTIONLOOP_VARIABLE libsumo.TRACI_ID_LIST "" None.
Definition InductionLoopScope_getPosition (loopID : string) : client double :=
  getDouble libsumo.CMD_GET_INDUCTIONLOOP_VARIABLE libsumo.VAR_POSITION loopID None.
Definition InductionLoopScope_getLaneID (loopID : string) : client string :=
  getString libsumo.CMD_GET_INDUCTIONLOOP_VARIABLE libsumo.VAR_LANE_ID loopID None.
Definition InductionLoopScope_getLastStepVehicleNumber (loopID : string) : client Z :=
  getInt libsumo.CMD_GET_INDUCTIONLOOP_VARIABLE libsumo.LAST_STEP_VEHICLE_NUMBER loopID None.
Definition InductionLoopScope_getLastStepMeanSpeed (loopID : string) : client double :=
  getDouble libsumo.CMD_GET_INDUCTIONLOOP_VARIABLE libsumo.LAST_STEP_MEAN_SPEED loopID None.
Definition InductionLoopScope_getLastStepVehicleIDs (loopID : string) : client (list string) :=
  getStringVector libsumo.CMD_GET_INDUCTIONLOOP_VARIABLE libsumo.LAST_STEP_VEHICLE_ID_LIST loopID None.
Definition InductionLoopScope_getLastStepOccupancy (loopID : string) : client double :=
  getDouble libsumo.CMD_GET_INDUCTIONLOOP_VARIABLE libsumo.LAST_STEP_OCCUPANCY loopID None.
Definition InductionLoopScope_getLastStepMeanLength (loopID : string) : client double :=
  getDouble libsumo.CMD_GET_INDUCTIONLOOP_VARIABLE libsumo.LAST_STEP_LENGTH loopID None.
Definition InductionLoopScope_getTimeSinceDetection (loopID : string) : client double :=
  getDouble libsumo.CMD_GET_INDUCTIONLOOP_VARIABLE libsumo.LAST_STEP_TIME_SINCE_DETECTION loopID None.
Definition JunctionScope_getIDList : client (list string) :=
  getStringVector libsumo.CMD_GET_JUNCTION_VARIABLE libsumo.TRACI_ID_LIST "" None.
Definition JunctionScope_getPosition (junctionID : string) : client (double * double * double) :=
  getPosition libsumo.CMD_GET_JUNCTION_VARIABLE libsumo.VAR_POSITION junctionID None.
Definition LaneScope_getIDList : client (list string) :=
  getStringVector libsumo.CMD_GET_LANE_VARIABLE libsumo.TRACI_ID_LIST "" None.
Definition LaneScope_getIDCount : client Z :=
  getInt libsumo.CMD_GET_LANE_VARIABLE libsumo.ID_COUNT "" None.
Definition LaneScope_getLength (laneID : string) : client double :=
  getDouble libsumo.CMD_GET_LANE_VARIABLE libsumo.VAR_LENGTH laneID None.
Definition LaneScope_getMaxSpeed (laneID : string) : client double :=
  getDouble libsumo.CMD_GET_LANE_VARIABLE libsumo.VAR_MAXSPEED laneID None.
Definition LaneScope_getWidth (laneID : string) : client double :=
  getDouble libsumo.CMD_GET_LANE_VARIABLE libsumo.VAR_WIDTH laneID None.
Definition LaneScope_getAllowed (laneID : string) : client (list string) :=
  getStringVector libsumo.CMD_GET_LANE_VARIABLE libsumo.LANE_ALLOWED laneID None.
Definition LaneScope_getDisallowed (laneID : string) : client (list string) :=
  getStringVector libsumo.CMD_GET_LANE_VARIABLE libsumo.LANE_DISALLOWED laneID None.
Definition LaneScope_getLinkNumber (laneID : string) : client Z :=
  getInt libsumo.CMD_GET_LANE_VARIABLE libsumo.LANE_LINK_NUMBER laneID None.
Definition LaneScope_getShape (laneID : string) : client (list (double * double * double)) :=
  getPolygon libsumo.CMD_GET_LANE_VARIABLE libsumo.VAR_SHAPE laneID None.
Definition LaneScope_getEdgeID (laneID : string) : client string :=
  getString libsumo.CMD_GET_LANE_VARIABLE libsumo.LANE_EDGE_ID laneID None.
Definition LaneScope_getCO2Emission (laneID : string) : client double :=
  getDouble libsumo.CMD_GET_LANE_VARIABLE libsumo.VAR_CO2EMISSION laneID None.
Definition LaneScope_getCOEmission (laneID : string) : client double :=
  getDouble libsumo.CMD_GET_LANE_VARIABLE libsumo.VAR_COEMISSION laneID None.
Definition LaneScope_getHCEmission (laneID : string) : client double :=
  getDouble libsumo.CMD_GET_LANE_VARIABLE libsumo.VAR_HCEMISSION laneID None.
Definition LaneScope_getPMxEmission (laneID : string) : client double :=
  getDouble libsumo.CMD_GET_LANE_VARIABLE libsumo.VAR_PMXEMISSION laneID None.
Definition LaneScope_getNOxEmission (laneID : string) : client double :=
  getDouble libsumo.CMD_GET_LANE_VARIABLE libsumo.VAR_NOXEMISSION laneID None.
Definition LaneScope_getFuelConsumption (laneID : string) : client double :=
  getDouble libsumo.CMD_GET_LANE_VARIABLE libsumo.VAR_FUELCONSUMPTION laneID None.
Definition LaneScope_getNoiseEmission (laneID : string) : client double :=
  getDouble libsumo.CMD_GET_LANE_VARIABLE libsumo.VAR_NOISEEMISSION laneID None.
Definition LaneScope_getElectricityConsumption (laneID : string) : client double :=
  getDouble libsumo.CMD_GET_LANE_VARIABLE libsumo.VAR_ELECTRICITYCONSUMPTION laneID None.
Definition LaneScope_getLastStepMeanSpeed (laneID : string) : client double :=
  getDouble libsumo.CMD_GET_LANE_VARIABLE libsumo.LAST_STEP_MEAN_SPEED laneID None.
Definition LaneScope_getLastStepOccupancy (laneID : string) : client double :=
  getDouble libsumo.CMD_GET_LANE_VARIABLE libsumo.LAST_STEP_OCCUPANCY laneID None.
Definition LaneScope_getLastStepLength (laneID : string) : client double :=
  getDouble libsumo.CMD_GET_LANE_VARIABLE libsumo.LAST_STEP_LENGTH laneID None.
Definition LaneScope_getTraveltime (laneID : string) : client double :=
  getDouble libsumo.CMD_GET_LANE_VARIABLE libsumo.VAR_CURRENT_TRAVELTIME laneID None.
Definition LaneScope_getLastStepVehicleNumber (laneID : string) : client Z :=
  getInt libsumo.CMD_GET_LANE_VARIABLE libsumo.LAST_STEP_VEHICLE_NUMBER laneID None.
Definition LaneScope_getLastStepHaltingNumber (laneID : string) : client Z :=
  getInt libsumo.CMD_GET_LANE_VARIABLE libsumo.LAST_STEP_VEHICLE_HALTING_NUMBER laneID None.
Definition LaneScope_getLastStepVehicleIDs (laneID : string) : client (list string) :=
  getStringVector libsumo.CMD_GET_LANE_VARIABLE libsumo.LAST_STEP_VEHICLE_ID_LIST laneID None.
Definition LaneAreaScope_getIDList : client (list string) :=
  getStringVector libsumo.CMD_GET_LANEAREA_VARIABLE libsumo.TRACI_ID_LIST "" None.
Definition MeMeScope_getIDList : client (list string) :=
  getStringVector libsumo.CMD_GET_MULTIENTRYEXIT_VARIABLE libsumo.TRACI_ID_LIST "" None.
Definition MeMeScope_getLastStepVehicleNumber (detID : string) : client Z :=
  getInt libsumo.CMD_GET_MULTIENTRYEXIT_VARIABLE libsumo.LAST_STEP_VEHICLE_NUMBER detID None.
Definition MeMeScope_getLastStepMeanSpeed (detID : string) : client double :=
  n ← getInt libsumo.CMD_GET_MULTIENTRYEXIT_VARIABLE libsumo.LAST_STEP_MEAN_SPEED detID None;
  mret (d_of_Z n).
Definition MeMeScope_getLastStepVehicleIDs (detID : string) : client (list string) :=
  getStringVector libsumo.CMD_GET_MULTIENTRYEXIT_VARIABLE libsumo.LAST_STEP_VEHICLE_ID_LIST detID None.
Definition MeMeScope_getLastStepHaltingNumber (detID : string) : client Z :=
  getInt libsumo.CMD_GET_MULTIENTRYEXIT_VARIABLE libsumo.LAST_STEP_VEHICLE_HALTING_NUMBER detID None.
Definition POIScope_getIDList : client (list string) :=
  getStringVector libsumo.CMD_GET_POI_VARIABLE libsumo.TRACI_ID_LIST "" None.
Definition POIScope_getIDCount : client Z :=
  getInt libsumo.CMD_GET_POI_VARIABLE libsumo.ID_COUNT "" None.
Definition POIScope_getType (poiID : string) : client string :=
  getString libsumo.CMD_GET_POI_VARIABLE libsumo.VAR_TYPE poiID None.
Definition POIScope_getPosition (poiID : string) : client (double * double * double) :=
  getPosition libsumo.CMD_GET_POI_VARIABLE libsumo.VAR_POSITION poiID None.
Definition POIScope_getColor (poiID : string) : client (Z * Z * Z * Z) :=
  getColor libsumo.CMD_GET_POI_VARIABLE libsumo.VAR_COLOR poiID None.
Definition POIScope_getWidth (poiID : string) : client double :=
  getDouble libsumo.CMD_GET_POI_VARIABLE libsumo.VAR_WIDTH poiID None.
Definition POIScope_getHeight (poiID : string) : client double :=
  getDouble libsumo.CMD_GET_POI_VARIABLE libsumo.VAR_HEIGHT poiID None.
Definition POIScope_getAngle (poiID : string) : client double :=
  getDouble libsumo.CMD_GET_POI_VARIABLE libsumo.VAR_ANGLE poiID None.
Definition POIScope_getImageFile (poiID : string) : client string :=
  getString libsumo.CMD_GET_POI_VARIABLE libsumo.VAR_IMAGEFILE poiID None.
Definition PolygonScope_getIDList : client (list string) :=
  getStringVector libsumo.CMD_GET_POLYGON_VARIABLE libsumo.TRACI_ID_LIST "" None.
Definition PolygonScope_getIDCount : client Z :=
  getInt libsumo.CMD_GET_POLYGON_VARIABLE libsumo.ID_COUNT "" None.
Definition PolygonScope_getLineWidth (polygonID : string) : client double :=
  getDouble libsumo.CMD_GET_POLYGON_VARIABLE libsumo.VAR_WIDTH polygonID None.
Definition PolygonScope_getType (polygonID : string) : client string :=
  getString libsumo.CMD_GET_POLYGON_VARIABLE libsumo.VAR_TYPE polygonID None.
Definition PolygonScope_getShape (polygonID : string) : client (list (double * double * double)) :=
  getPolygon libsumo.CMD_GET_POLYGON_VARIABLE libsumo.VAR_SHAPE polygonID None.
Definition PolygonScope_getColor (polygonID : string) : client (Z * Z * Z * Z) :=
  getColor libsumo.CMD_GET_POLYGON_VARIABLE libsumo.VAR_COLOR polygonID None.
Definition RouteScope_getIDList : client (list string) :=
  getStringVector libsumo.CMD_GET_ROUTE_VARIABLE libsumo.TRACI_ID_LIST "" None.
Definition RouteScope_getEdges (routeID : string) : client (list string) :=
  getStringVector libsumo.CMD_GET_ROUTE_VARIABLE libsumo.VAR_EDGES routeID None.
Definition SimulationScope_getCurrentTime : client Z :=
  getInt libsumo.CMD_GET_SIM_VARIABLE libsumo.VAR_TIME_STEP "" None.
Definition SimulationScope_getTime : client double :=
  getDouble libsumo.CMD_GET_SIM_VARIABLE libsumo.VAR_TIME "" None.
Definition SimulationScope_getLoadedNumber : client Z :=
  getInt libsumo.CMD_GET_SIM_VARIABLE libsumo.VAR_LOADED_VEHICLES_NUMBER "" None.
Definition SimulationScope_getLoadedIDList : client (list string) :=
  getStringVector libsumo.CMD_GET_SIM_VARIABLE libsumo.VAR_LOADED_VEHICLES_IDS "" None.
Definition SimulationScope_getDepartedNumber : client Z :=
  getInt libsumo.CMD_GET_SIM_VARIABLE libsumo.VAR_DEPARTED_VEHICLES_NUMBER "" None.
Definition SimulationScope_getDepartedIDList : client (list string) :=
  getStringVector libsumo.CMD_GET_SIM_VARIABLE libsumo.VAR_DEPARTED_VEHICLES_IDS "" None.
Definition SimulationScope_getArrivedNumber : client Z :=
  getInt libsumo.CMD_GET_SIM_VARIABLE libsumo.VAR_ARRIVED_VEHICLES_NUMBER "" None.
Definition SimulationScope_getArrivedIDList : client (list string) :=
  getStringVector libsumo.CMD_GET_SIM_VARIABLE libsumo.VAR_ARRIVED_VEHICLES_IDS "" None.
Definition SimulationScope_getStartingTeleportNumber : client Z :=
  getInt libsumo.CMD_GET_SIM_VARIABLE libsumo.VAR_TELEPORT_STARTING_VEHICLES_NUMBER "" None.
Definition SimulationScope_getStartingTeleportIDList : client (list string) :=
  getStringVector libsumo.CMD_GET_SIM_VARIABLE libsumo.VAR_TELEPORT_STARTING_VEHICLES_IDS "" None.
Definition SimulationScope_getEndingTeleportNumber : client Z :=
  getInt libsumo.CMD_GET_SIM_VARIABLE libsumo.VAR_TELEPORT_ENDING_VEHICLES_NUMBER "" None.
Definition SimulationScope_getEndingTeleportIDList : client (list string) :=
  getStringVector libsumo.CMD_GET_SIM_VARIABLE libsumo.VAR_TELEPORT_ENDING_VEHICLES_IDS "" None.
Definition SimulationScope_getDeltaT : client double :=
  getDouble libsumo.CMD_GET_SIM_VARIABLE libsumo.VAR_DELTA_T "" None.
Definition SimulationScope_getNetBoundary : client (list (double * double * double)) :=
  getPolygon libsumo.CMD_GET_SIM_VARIABLE libsumo.VAR_NET_BOUNDING_BOX "" None.
Definition SimulationScope_getMinExpectedNumber : client Z :=
  getInt libsumo.CMD_GET_SIM_VARIABLE libsumo.VAR_MIN_EXPECTED_VEHICLES "" None.
Definition TrafficLightScope_getIDList : client (list string) :=
  getStringVector libsumo.CMD_GET_TL_VARIABLE libsumo.TRACI_ID_LIST "" None.
Definition TrafficLightScope_getIDCount : client Z :=
  getInt libsumo.CMD_GET_TL_VARIABLE libsumo.ID_COUNT "" None.
Definition TrafficLightScope_getRedYellowGreenState (tlsID : string) : client string :=
  getString libsumo.CMD_GET_TL_VARIABLE libsumo.TL_RED_YELLOW_GREEN_STATE tlsID None.
Definition TrafficLightScope_getControlledLanes (tlsID : string) : client (list string) :=
  getStringVector libsumo.CMD_GET_TL_VARIABLE libsumo.TL_CONTROLLED_LANES tlsID None.
Definition TrafficLightScope_getProgram (tlsID : string) : client string :=
  getString libsumo.CMD_GET_TL_VARIABLE libsumo.TL_CURRENT_PROGRAM tlsID None.
Definition TrafficLightScope_getPhase (tlsID : string) : client Z :=
  getInt libsumo.CMD_GET_TL_VARIABLE libsumo.TL_CURRENT_PHASE tlsID None.
Definition TrafficLightScope_getPhaseName (tlsID : string) : client string :=
  getString libsumo.CMD_GET_TL_VARIABLE libsumo.VAR_NAME tlsID None.
Definition TrafficLightScope_getPhaseDuration (tlsID : string) : client double :=
  getDouble libsumo.CMD_GET_TL_VARIABLE libsumo.TL_PHASE_DURATION tlsID None.
Definition TrafficLightScope_getNextSwitch (tlsID : string) : client double :=
  getDouble libsumo.CMD_GET_TL_VARIABLE libsumo.TL_NEXT_SWITCH tlsID None.
Definition VehicleTypeScope_getIDList : client (list string) :=
  getStringVector libsumo.CMD_GET_VEHICLETYPE_VARIABLE libsumo.TRACI_ID_LIST "" None.
Definition VehicleTypeScope_getLength (typeID : string) : client double :=
  getDouble libsumo.CMD_GET_VEHICLETYPE_VARIABLE libsumo.VAR_LENGTH typeID None.
Definition VehicleTypeScope_getMaxSpeed (typeID : string) : client double :=
  getDouble libsumo.CMD_GET_VEHICLETYPE_VARIABLE libsumo.VAR_MAXSPEED typeID None.
Definition VehicleTypeScope_getSpeedFactor (typeID : string) : client double :=
  getDouble libsumo.CMD_GET_VEHICLETYPE_VARIABLE libsumo.VAR_SPEED_FACTOR typeID None.
Definition VehicleTypeScope_getSpeedDeviation (typeID : string) : client double :=
  getDouble libsumo.CMD_GET_VEHICLETYPE_VARIABLE libsumo.VAR_SPEED_DEVIATION typeID None.
Definition VehicleTypeScope_getAccel (typeID : string) : client double :=
  getDouble libsumo.CMD_GET_VEHICLETYPE_VARIABLE libsumo.VAR_ACCEL typeID None.
Definition VehicleTypeScope_getDecel (typeID : string) : client double :=
  getDouble libsumo.CMD_GET_VEHICLETYPE_VARIABLE libsumo.VAR_DECEL typeID None.
Definition VehicleTypeScope_getEmergencyDecel (typeID : string) : client double :=
  getDouble libsumo.CMD_GET_VEHICLETYPE_VARIABLE libsumo.VAR_EMERGENCY_DECEL typeID None.
Definition VehicleTypeScope_getApparentDecel (typeID : string) : client double :=
  getDouble libsumo.CMD_GET_VEHICLETYPE_VARIABLE libsumo.VAR_APPARENT_DECEL typeID None.
Definition VehicleTypeScope_getImperfection (typeID : string) : client double :=
  getDouble libsumo.CMD_GET_VEHICLETYPE_VARIABLE libsumo.VAR_IMPERFECTION typeID None.
Definition VehicleTypeScope_getTau (typeID : string) : client double :=
  getDouble libsumo.CMD_GET_VEHICLETYPE_VARIABLE libsumo.VAR_TAU typeID None.
Definition VehicleTypeScope_getVehicleClass (typeID : string) : client string :=
  getString libsumo.CMD_GET_VEHICLETYPE_VARIABLE libsumo.VAR_VEHICLECLASS typeID None.
Definition VehicleTypeScope_getEmissionClass (typeID : string) : client string :=
  getString libsumo.CMD_GET_VEHICLETYPE_VARIABLE libsumo.VAR_EMISSIONCLASS typeID None.
Definition VehicleTypeScope_getShapeClass (typeID : string) : client string :=
  getString libsumo.CMD_GET_VEHICLETYPE_VARIABLE libsumo.VAR_SHAPECLASS typeID None.
Definition VehicleTypeScope_getMinGap (typeID : string) : client double :=
  getDouble libsumo.CMD_GET_VEHICLETYPE_VARIABLE libsumo.VAR_MINGAP typeID None.
Definition VehicleTypeScope_getMinGapLat (typeID : string) : client double :=
  getDouble libsumo.CMD_GET_VEHICLETYPE_VARIABLE libsumo.VAR_MINGAP_LAT typeID None.
Definition VehicleTypeScope_getMaxSpeedLat (typeID : string) : client double :=
  getDouble libsumo.CMD_GET_VEHICLETYPE_VARIABLE libsumo.VAR_MAXSPEED_LAT typeID None.
Definition VehicleTypeScope_getLateralAlignment (typeID : string) : client string :=
  getString libsumo.CMD_GET_VEHICLETYPE_VARIABLE libsumo.VAR_LATALIGNMENT typeID None.
Definition VehicleTypeScope_getWidth (typeID : string) : client double :=
  getDouble libsumo.CMD_GET_VEHICLETYPE_VARIABLE libsumo.VAR_WIDTH typeID None.
Definition VehicleTypeScope_getHeight (typeID : string) : client double :=
  getDouble libsumo.CMD_GET_VEHICLETYPE_VARIABLE libsumo.VAR_HEIGHT typeID None.
Definition VehicleTypeScope_getColor (typeID : string) : client (Z * Z * Z * Z) :=
  getColor libsumo.CMD_GET_VEHICLETYPE_VARIABLE libsumo.VAR_COLOR typeID None.
Definition VehicleScope_getIDList : client (list string) :=
  getStringVector libsumo.CMD_GET_VEHICLE_VARIABLE libsumo.TRACI_ID_LIST "" None.
Definition VehicleScope_getIDCount : client Z :=
  getInt libsumo.CMD_GET_VEHICLE_VARIABLE libsumo.ID_COUNT "" None.
Definition VehicleScope_getSpeed (vehicleID : string) : client double :=
  getDouble libsumo.CMD_GET_VEHICLE_VARIABLE libsumo.VAR_SPEED vehicleID None.
Definition VehicleScope_getAcceleration (vehicleID : string) : client double :=
  getDouble libsumo.CMD_GET_VEHICLE_VARIABLE libsumo.VAR_ACCELERATION vehicleID None.
Definition VehicleScope_getMaxSpeed (vehicleID : string) : client double :=
  getDouble libsumo.CMD_GET_VEHICLE_VARIABLE libsumo.VAR_MAXSPEED vehicleID None.
Definition VehicleScope_getPosition (vehicleID : string) : client (double * double * double) :=
  getPosition libsumo.CMD_GET_VEHICLE_VARIABLE libsumo.VAR_POSITION vehicleID None.
Definition VehicleScope_getPosition3D (vehicleID : string) : client (double * double * double) :=
  getPosition3D libsumo.CMD_GET_VEHICLE_VARIABLE libsumo.VAR_POSITION3D vehicleID None.
Definition VehicleScope_getAngle (vehicleID : string) : client double :=
  getDouble libsumo.CMD_GET_VEHICLE_VARIABLE libsumo.VAR_ANGLE vehicleID None.
Definition VehicleScope_getRoadID (vehicleID : string) : client string :=
  getString libsumo.CMD_GET_VEHICLE_VARIABLE libsumo.VAR_ROAD_ID vehicleID None.
Definition VehicleScope_getLaneID (vehicleID : string) : client string :=
  getString libsumo.CMD_GET_VEHICLE_VARIABLE libsumo.VAR_LANE_ID vehicleID None.
Definition VehicleScope_getLaneIndex (vehicleID : string) : client Z :=
  getInt libsumo.CMD_GET_VEHICLE_VARIABLE libsumo.VAR_LANE_INDEX vehicleID None.
Definition VehicleScope_getTypeID (vehicleID : string) : client string :=
  getString libsumo.CMD_GET_VEHICLE_VARIABLE libsumo.VAR_TYPE vehicleID None.
Definition VehicleScope_getRouteID (vehicleID : string) : client string :=
  getString libsumo.CMD_GET_VEHICLE_VARIABLE libsumo.VAR_ROUTE_ID vehicleID None.
Definition VehicleScope_getRouteIndex (vehicleID : string) : client Z :=
  getInt libsumo.CMD_GET_VEHICLE_VARIABLE libsumo.VAR_ROUTE_INDEX vehicleID None.
Definition VehicleScope_getRoute (vehicleID : string) : client (list string) :=
  getStringVector libsumo.CMD_GET_VEHICLE_VARIABLE libsumo.VAR_EDGES vehicleID None.
Definition VehicleScope_getColor (vehicleID : string) : client (Z * Z * Z * Z) :=
  getColor libsumo.CMD_GET_VEHICLE_VARIABLE libsumo.VAR_COLOR vehicleID None.
Definition VehicleScope_getLanePosition (vehicleID : string) : client double :=
  getDouble libsumo.CMD_GET_VEHICLE_VARIABLE libsumo.VAR_LANEPOSITION vehicleID None.
Definition VehicleScope_getDistance (vehicleID : string) : client double :=
  getDouble libsumo.CMD_GET_VEHICLE_VARIABLE libsumo.VAR_DISTANCE vehicleID None.
Definition VehicleScope_getSignals (vehicleID : string) : client Z :=
  getInt libsumo.CMD_GET_VEHICLE_VARIABLE libsumo.VAR_SIGNALS vehicleID None.
Definition VehicleScope_getLateralLanePosition (vehicleID : string) : client double :=
  getDouble libsumo.CMD_GET_VEHICLE_VARIABLE libsumo.VAR_LANEPOSITION_LAT vehicleID None.
Definition VehicleScope_getCO2Emission (vehicleID : string) : client double :=
  getDouble libsumo.CMD_GET_VEHICLE_VARIABLE libsumo.VAR_CO2EMISSION vehicleID None.
Definition VehicleScope_getCOEmission (vehicleID : string) : client double :=
  getDouble libsumo.CMD_GET_VEHICLE_VARIABLE libsumo.VAR_COEMISSION vehicleID None.
Definition VehicleScope_getHCEmission (vehicleID : string) : client double :=
  getDouble libsumo.CMD_GET_VEHICLE_VARIABLE libsumo.VAR_HCEMISSION vehicleID None.
Definition VehicleScope_getPMxEmission (vehicleID : string) : client double :=
  getDouble libsumo.CMD_GET_VEHICLE_VARIABLE libsumo.VAR_PMXEMISSION vehicleID None.
Definition VehicleScope_getNOxEmission (vehicleID : string) : client double :=
  getDouble libsumo.CMD_GET_VEHICLE_VARIABLE libsumo.VAR_NOXEMISSION vehicleID None.
Definition VehicleScope_getFuelConsumption (vehicleID : string) : client double :=
  getDouble libsumo.CMD_GET_VEHICLE_VARIABLE libsumo.VAR_FUELCONSUMPTION vehicleID None.
Definition VehicleScope_getNoiseEmission (vehicleID : string) : client double :=
  getDouble libsumo.CMD_GET_VEHICLE_VARIABLE libsumo.VAR_NOISEEMISSION vehicleID None.
Definition VehicleScope_getElectricityConsumption (vehicleID : string) : client double :=
  getDouble libsumo.CMD_GET_VEHICLE_VARIABLE libsumo.VAR_ELECTRICITYCONSUMPTION vehicleID None.
Definition VehicleScope_getWaitingTime (vehID : string) : client double :=
  getDouble libsumo.CMD_GET_VEHICLE_VARIABLE libsumo.VAR_WAITING_TIME vehID None.
Definition VehicleScope_getSpeedMode (vehID : string) : client Z :=
  getInt libsumo.CMD_GET_VEHICLE_VARIABLE libsumo.VAR_SPEEDSETMODE vehID None.
Definition VehicleScope_getSlope (vehID : string) : client double :=
  getDouble libsumo.CMD_GET_VEHICLE_VARIABLE libsumo.VAR_SLOPE vehID None.
Definition VehicleScope_getLine (typeID : string) : client string :=
  getString libsumo.CMD_GET_VEHICLE_VARIABLE libsumo.VAR_LINE typeID None.
Definition VehicleScope_getVia (vehicleID : string) : client (list string) :=
  getStringVector libsumo.CMD_GET_VEHICLE_VARIABLE libsumo.VAR_VIA vehicleID None.
Definition VehicleScope_getEmissionClass (vehicleID : string) : client string :=
  getString libsumo.CMD_GET_VEHICLE_VARIABLE libsumo.VAR_EMISSIONCLASS vehicleID None.
Definition VehicleScope_getShapeClass (vehicleID : string) : client string :=
  getString libsumo.CMD_GET_VEHICLE_VARIABLE libsumo.VAR_SHAPECLASS vehicleID None.
Definition VehicleScope_getStopState (vehicleID : string) : client Z :=
  getInt libsumo.CMD_GET_VEHICLE_VARIABLE libsumo.VAR_STOPSTATE vehicleID None.
Definition VehicleScope_getRoutingMode (vehicleID : string) : client Z :=
  getInt libsumo.CMD_GET_VEHICLE_VARIABLE libsumo.VAR_ROUTING_MODE vehicleID None.
Definition VehicleScope_getAccel (vehicleID : string) : client double :=
  getDouble libsumo.CMD_GET_VEHICLE_VARIABLE libsumo.VAR_ACCEL vehicleID None.
Definition VehicleScope_getDecel (vehicleID : string) : client double :=
  getDouble libsumo.CMD_GET_VEHICLE_VARIABLE libsumo.VAR_DECEL vehicleID None.
Definition VehicleScope_getTau (vehicleID : string) : client double :=
  getDouble libsumo.CMD_GET_VEHICLE_VARIABLE libsumo.VAR_TAU vehicleID None.
Definition VehicleScope_getImperfection (vehicleID : string) : client double :=
  getDouble libsumo.CMD_GET_VEHICLE_VARIABLE libsumo.VAR_IMPERFECTION vehicleID None.
Definition VehicleScope_getSpeedFactor (vehicleID : string) : client double :=
  getDouble libsumo.CMD_GET_VEHICLE_VARIABLE libsumo.VAR_SPEED_FACTOR vehicleID None.
Definition VehicleScope_getSpeedDeviation (vehicleID : string) : client double :=
  getDouble libsumo.CMD_GET_VEHICLE_VARIABLE libsumo.VAR_SPEED_DEVIATION vehicleID None.
Definition VehicleScope_getVehicleClass (vehicleID : string) : client string :=
  getString libsumo.CMD_GET_VEHICLE_VARIABLE libsumo.VAR_VEHICLECLASS vehicleID None.
Definition VehicleScope_getMinGap (vehicleID : string) : client double :=
  getDouble libsumo.CMD_GET_VEHICLE_VARIABLE libsumo.VAR_MINGAP vehicleID None.
Definition VehicleScope_getWidth (vehicleID : string) : client double :=
  getDouble libsumo.CMD_GET_VEHICLE_VARIABLE libsumo.VAR_WIDTH vehicleID None.
Definition VehicleScope_getLength (vehicleID : string) : client double :=
  getDouble libsumo.CMD_GET_VEHICLE_VARIABLE libsumo.VAR_LENGTH vehicleID None.
Definition VehicleScope_getHeight (vehicleID : string) : client double :=
  getDouble libsumo.CMD_GET_VEHICLE_VARIABLE libsumo.VAR_HEIGHT vehicleID None.
Definition VehicleScope_getAccumulatedWaitingTime (vehicleID : string) : client double :=
  getDouble libsumo.CMD_GET_VEHICLE_VARIABLE libsumo.VAR_ACCUMULATED_WAITING_TIME vehicleID None.
Definition VehicleScope_getAllowedSpeed (vehicleID : string) : client double :=
  getDouble libsumo.CMD_GET_VEHICLE_VARIABLE libsumo.VAR_ALLOWED_SPEED vehicleID None.
Definition VehicleScope_getPersonNumber (vehicleID : string) : client Z :=
  getInt libsumo.CMD_GET_VEHICLE_VARIABLE libsumo.VAR_PERSON_NUMBER vehicleID None.
Definition VehicleScope_getPersonIDList (vehicleID : string) : client (list string) :=
  getStringVector libsumo.CMD_GET_VEHICLE_VARIABLE libsumo.LAST_STEP_PERSON_ID_LIST vehicleID None.
Definition VehicleScope_getSpeedWithoutTraCI (vehicleID : string) : client double :=
  getDouble libsumo.CMD_GET_VEHICLE_VARIABLE libsumo.VAR_SPEED_WITHOUT_TRACI vehicleID None.
Definition VehicleScope_getMaxSpeedLat (vehicleID : string) : client double :=
  getDouble libsumo.CMD_GET_VEHICLE_VARIABLE libsumo.VAR_MAXSPEED_LAT vehicleID None.
Definition VehicleScope_getMinGapLat (vehicleID : string) : client double :=
  getDouble libsumo.CMD_GET_VEHICLE_VARIABLE libsumo.VAR_MINGAP_LAT vehicleID None.
Definition VehicleScope_getLateralAlignment (vehicleID : string) : client string :=
  getString libsumo.CMD_GET_VEHICLE_VARIABLE libsumo.VAR_LATALIGNMENT vehicleID None.
Definition PersonScope_getIDList : client (list string) :=
  getStringVector libsumo.CMD_GET_PERSON_VARIABLE libsumo.TRACI_ID_LIST "" None.
Definition PersonScope_getIDCount : client Z :=
  getInt libsumo.CMD_GET_PERSON_VARIABLE libsumo.ID_COUNT "" None.
Definition PersonScope_getSpeed (personID : string) : client double :=
  getDouble libsumo.CMD_GET_PERSON_VARIABLE libsumo.VAR_SPEED personID None.
Definition PersonScope_getPosition (personID : string) : client (double * double * double) :=
  getPosition libsumo.CMD_GET_PERSON_VARIABLE libsumo.VAR_POSITION personID None.
Definition PersonScope_getPosition3D (personID : string) : client (double * double * double) :=
  getPosition3D libsumo.CMD_GET_PERSON_VARIABLE libsumo.VAR_POSITION3D personID None.
Definition PersonScope_getAngle (personID : string) : client double :=
  getDouble libsumo.CMD_GET_PERSON_VARIABLE libsumo.VAR_ANGLE personID None.
Definition PersonScope_getSlope (personID : string) : client double :=
  getDouble libsumo.CMD_GET_PERSON_VARIABLE libsumo.VAR_SLOPE personID None.
Definition PersonScope_getLanePosition (personID : string) : client double :=
  getDouble libsumo.CMD_GET_PERSON_VARIABLE libsumo.VAR_LANEPOSITION personID None.
Definition PersonScope_getColor (personID : string) : client (Z * Z * Z * Z) :=
  getColor libsumo.CMD_GET_PERSON_VARIABLE libsumo.VAR_COLOR personID None.
Definition PersonScope_getLength (personID : string) : client double :=
  getDouble libsumo.CMD_GET_PERSON_VARIABLE libsumo.VAR_LENGTH personID None.
Definition PersonScope_getRoadID (personID : string) : client string :=
  getString libsumo.CMD_GET_PERSON_VARIABLE libsumo.VAR_ROAD_ID personID None.
Definition PersonScope_getTypeID (personID : string) : client string :=
  getString libsumo.CMD_GET_PERSON_VARIABLE libsumo.VAR_TYPE personID None.
Definition PersonScope_getWaitingTime (personID : string) : client double :=
  getDouble libsumo.CMD_GET_PERSON_VARIABLE libsumo.VAR_WAITING_TIME personID None.
Definition PersonScope_getNextEdge (personID : string) : client string :=
  getString libsumo.CMD_GET_PERSON_VARIABLE libsumo.VAR_NEXT_EDGE personID None.
Definition PersonScope_getVehicle (personID : string) : client string :=
  getString libsumo.CMD_GET_PERSON_VARIABLE libsumo.VAR_VEHICLE personID None.
Definition PersonScope_getRemainingStages (personID : string) : client Z :=
  getInt libsumo.CMD_GET_PERSON_VARIABLE libsumo.VAR_STAGES_REMAINING personID None.
Definition PersonScope_getStage (personID : string) (nextStageIndex : Z) : client Z :=
  content ← local (run_writes big [wByte libsumo.TYPE_INTEGER; wInt nextStageIndex]);
  getInt libsumo.CMD_GET_PERSON_VARIABLE libsumo.VAR_STAGE personID (Some content).
Definition PersonScope_getEdges (personID : string) (nextStageIndex : Z) : client (list string) :=
  content ← local (run_writes big [wByte libsumo.TYPE_INTEGER; wInt nextStageIndex]);
  getStringVector libsumo.CMD_GET_PERSON_VARIABLE libsumo.VAR_EDGES personID (Some content).

(** ** Calls that ask and set *)
Definition set (x : setting) : client unit :=
  content ← local (run_writes big (set_content x));
  myOutput ← local (createCommand big (set_cmd x) (set_var x) (set_id x) (Some content));
  _ ← processSet big piece sent myOutput (set_cmd x);
  mret tt.

Definition VehicleScope_add (vehicleID routeID typeID depart departLane departPos departSpeed arrivalLane arrivalPos
    arrivalSpeed fromTaz toTaz line : string) (personCapacity personNumber : Z) : client unit :=
  depart ← (if String.eqb depart "-1"
            then t ← SimulationScope_getCurrentTime; mret (toString (ddiv (d_of_Z t) (d_of_Z 1000)))
            else mret depart);
  set (VehicleScope_add_at vehicleID routeID typeID depart departLane departPos departSpeed arrivalLane arrivalPos
    arrivalSpeed fromTaz toTaz line personCapacity personNumber).

Fixpoint adapt_all (edges : list string) : client unit :=
  match edges with
  | [] => mret tt
  | e :: edges =>
      t ← EdgeScope_getTraveltime e;
      _ ← set (EdgeScope_adaptTraveltime e t d_zero double_max);
      adapt_all edges
  end.
Definition VehicleScope_rerouteTraveltime (vehicleID : string) (currentTravelTimes : bool) : client unit :=
  _ ← (if currentTravelTimes then edges ← EdgeScope_getIDList; adapt_all edges else mret tt);
  set (VehicleScope_reroute vehicleID).

(** The loop ends when the simulator says so. *)
Fixpoint remove_stages (fuel : nat) (personID : string) : client unit :=
  match fuel with
  | O => local (Fail (Undefined "fuel"))
  | S f =>
      n ← PersonScope_getRemainingStages personID;
      if 1 <? n then _ ← set (PersonScope_removeStage personID 1); remove_stages f personID else mret tt
  end.
Definition PersonScope_removeStages (fuel : nat) (personID : string) : client unit :=
  _ ← remove_stages fuel personID;
  set (PersonScope_removeStage personID 0).

(** ** Compound answers *)
Definition readTyped {A} (read : Storage -> res (A * Storage)) (s : Storage) : res (A * Storage) :=
  '(_, s) ← readUnsignedByte s; read s.
(** A count and as many elements. *)
Definition readCounted {A} (read : Storage -> res (A * Storage)) (s : Storage) : res (list A * Storage) :=
  '(n, s) ← readInt big s; read_list read (Z.to_nat n) s.
Definition readBool (s : Storage) : res (bool * Storage) := '(v, s) ← readUnsignedByte s; Ok (negb (v =? 0), s).
Definition getCompound {A} := @get_value big piece sent A libsumo.TYPE_COMPOUND.

Record TraCIVehicleData := mkVehicleData { vd_id : string; vd_length : double; entryTime : double; leaveTime : double; vd_typeID : string }.
Definition readVehicleData (s : Storage) : res (TraCIVehicleData * Storage) :=
  '(id, s) ← readTyped (readString big) s;
  '(len, s) ← readTyped (readDouble big) s;
  '(entry, s) ← readTyped (readDouble big) s;
  '(leave, s) ← readTyped (readDouble big) s;
  '(typeID, s) ← readTyped (readString big) s;
  Ok (mkVehicleData id len entry leave typeID, s).
Definition InductionLoopScope_getVehicleData (loopID : string) : client (list TraCIVehicleData) :=
  getCompound (fun s => '(_, s) ← readInt big s; readTyped (readCounted readVehicleData) s) []
    libsumo.CMD_GET_INDUCTIONLOOP_VARIABLE libsumo.LAST_STEP_VEHICLE_DATA loopID None.

Record TraCIConnection := mkConnection {
  approachedLane : string; hasPrio : bool; isOpen : bool; hasFoe : bool; approachedInternal : string;
  connection_state : string; direction : string; connection_length : double
}.
Definition readConnection (s : Storage) : res (TraCIConnection * Storage) :=
  '(lane, s) ← readTyped (readString big) s;
  '(internal, s) ← readTyped (readString big) s;
  '(prio, s) ← readTyped readBool s;
  '(open, s) ← readTyped readBool s;
  '(foe, s) ← readTyped readBool s;
  '(state, s) ← readTyped (readString big) s;
  '(dir, s) ← readTyped (readString big) s;
  '(len, s) ← readTyped (readDouble big) s;
  Ok (mkConnection lane prio open foe internal state dir len, s).
Definition LaneScope_getLinks (laneID : string) : client (list TraCIConnection) :=
  getCompound (fun s => '(_, s) ← readTyped (readInt big) s; readCounted readConnection s) []
    libsumo.CMD_GET_LANE_VARIABLE libsumo.LANE_LINKS laneID None.
Definition LaneScope_getFoes (laneID toLaneID : string) : client (list string) :=
  content ← local (run_writes big [wUnsignedByte libsumo.TYPE_STRING; wString toLaneID]);
  getStringVector libsumo.CMD_GET_LANE_VARIABLE libsumo.VAR_FOES laneID (Some content).
Definition LaneScope_getInternalFoes (laneID : string) : client (list string) := LaneScope_getFoes laneID "".

Record TraCILink := mkLink { fromLane : string; viaLane : string; toLane : string }.
Definition readLink (s : Storage) : res (TraCILink * Storage) :=
  '(_, s) ← readTyped (readInt big) s;
  '(from, s) ← readString big s;
  '(to, s) ← readString big s;
  '(via, s) ← readString big s;
  Ok (mkLink from via to, s).
Definition TrafficLightScope_getControlledLinks (tlsID : string) : client (list (list TraCILink)) :=
  getCompound (fun s => '(_, s) ← readTyped (readInt big) s; readCounted (readTyped (readCounted readLink)) s) []
    libsumo.CMD_GET_TL_VARIABLE libsumo.TL_CONTROLLED_LINKS tlsID None.

Definition readPhase (s : Storage) : res (TraCIPhase * Storage) :=
  '(_, s) ← readTyped (readInt big) s;
  '(duration_, s) ← readTyped (readDouble big) s;
  '(state, s) ← readTyped (readString big) s;
  '(minDur_, s) ← readTyped (readDouble big) s;
  '(maxDur_, s) ← readTyped (readDouble big) s;
  '(next_, s) ← readTyped (readCounted (readTyped (readInt big))) s;
  '(name, s) ← readTyped (readString big) s;
  Ok (mkPhase duration_ state minDur_ maxDur_ next_ name, s).
(** [par[0]] and [par[1]] are not checked. *)
Definition readParameter (s : Storage) : res (string * string * Storage) :=
  '(par, s) ← readTyped (readStringList big) s;
  match par with
  | key :: value :: _ => Ok (key, value, s)
  | _ => Fail (Undefined "parameter without key and value")
  end.
Definition readLogic (s : Storage) : res (TraCILogic * Storage) :=
  '(_, s) ← readTyped (readInt big) s;
  '(programID_, s) ← readTyped (readString big) s;
  '(type_, s) ← readTyped (readInt big) s;
  '(phaseIndex, s) ← readTyped (readInt big) s;
  '(phases_, s) ← readTyped (readCounted readPhase) s;
  '(pars, s) ← readTyped (readCounted readParameter) s;
  Ok (mkLogic programID_ type_ phaseIndex phases_ (foldl (fun m p => om_set p.1 p.2 m) [] pars), s).
Definition TrafficLightScope_getCompleteRedYellowGreenDefinition (tlsID : string) : client (list TraCILogic) :=
  getCompound (readCounted readLogic) [] libsumo.CMD_GET_TL_VARIABLE libsumo.TL_COMPLETE_DEFINITION_RYG tlsID None.

Record TraCINextTLSData := mkNextTLS { tls_id : string; tlIndex : Z; tls_dist : double; tls_state : Z }.
Definition readNextTLS (s : Storage) : res (TraCINextTLSData * Storage) :=
  '(id, s) ← readTyped (readString big) s;
  '(index, s) ← readTyped (readInt big) s;
  '(dist, s) ← readTyped (readDouble big) s;
  '(state, s) ← readTyped readByte s;
  Ok (mkNextTLS id index dist state, s).
Definition VehicleScope_getNextTLS (vehID : string) : client (list TraCINextTLSData) :=
  getCompound (fun s => '(_, s) ← readInt big s; readTyped (readCounted readNextTLS) s) []
    libsumo.CMD_GET_VEHICLE_VARIABLE libsumo.VAR_NEXT_TLS vehID None.

Record TraCIBestLanesData := mkBestLanes {
  best_laneID : string; best_length : double; occupation : double; bestLaneOffset : Z; allowsContinuation : bool;
  continuationLanes : list string
}.
Definition readBestLanes (s : Storage) : res (TraCIBestLanesData * Storage) :=
  '(laneID, s) ← readTyped (readString big) s;
  '(len, s) ← readTyped (readDouble big) s;
  '(occ, s) ← readTyped (readDouble big) s;
  '(offset, s) ← readTyped readByte s;
  '(allows, s) ← readTyped readUnsignedByte s;
  '(lanes, s) ← readTyped (readCounted (readString big)) s;
  Ok (mkBestLanes laneID len occ offset (allows =? 1) lanes, s).
Definition VehicleScope_getBestLanes (vehicleID : string) : client (list TraCIBestLanesData) :=
  getCompound (fun s => '(_, s) ← readInt big s; readTyped (readCounted readBestLanes) s) []
    libsumo.CMD_GET_VEHICLE_VARIABLE libsumo.VAR_BEST_LANES vehicleID None.

Definition VehicleScope_getLeader (vehicleID : string) (dist : double) : client (string * double) :=
  content ← local (run_writes big [wByte libsumo.TYPE_DOUBLE; wDouble dist]);
  getCompound (fun s => '(_, s) ← readInt big s; '(leaderID, s) ← readTyped (readString big) s;
    '(gap, s) ← readTyped (readDouble big) s; Ok (leaderID, gap, s)) ("", INVALID_DOUBLE_VALUE)
    libsumo.CMD_GET_VEHICLE_VARIABLE libsumo.VAR_LEADER vehicleID (Some content).
Definition VehicleScope_getLaneChangeState (vehicleID : string) (direction_ : Z) : client (Z * Z) :=
  content ← local (run_writes big [wByte libsumo.TYPE_INTEGER; wInt direction_]);
  getCompound (fun s => '(_, s) ← readInt big s; '(stateWithoutTraCI, s) ← readTyped (readInt big) s;
    '(state, s) ← readTyped (readInt big) s; Ok (stateWithoutTraCI, state, s)) (INVALID_INT_VALUE, INVALID_INT_VALUE)
    libsumo.CMD_GET_VEHICLE_VARIABLE libsumo.CMD_CHANGELANE vehicleID (Some content).
Definition VehicleScope_isRouteValid (vehicleID : string) : client bool :=
  n ← getInt libsumo.CMD_GET_VEHICLE_VARIABLE libsumo.VAR_ROUTE_VALID vehicleID None;
  mret (negb (n =? 0)).

(** ** Conversions and distances *)
(** Without a connection the third coordinate and the fields of a road position keep the
    values they are created with; the position of a road position has none. *)
Definition read2D (s : Storage) : res (double * double * double * Storage) :=
  '(x, s) ← readDouble big s; '(y, s) ← readDouble big s; Ok (x, y, INVALID_DOUBLE_VALUE, s).
Definition SimulationScope_convert2D (edgeID : string) (pos : double) (laneIndex : Z) (toGeo : bool) :
    client (double * double * double) :=
  let posType := if toGeo then libsumo.POSITION_LON_LAT else libsumo.POSITION_2D in
  content ← local (run_writes big [wByte libsumo.TYPE_COMPOUND; wInt 2; wByte libsumo.POSITION_ROADMAP; wString edgeID;
    wDouble pos; wByte laneIndex; wByte libsumo.TYPE_UBYTE; wByte posType]);
  get_value big piece sent posType read2D TraCIPosition_default libsumo.CMD_GET_SIM_VARIABLE libsumo.POSITION_CONVERSION ""
    (Some content).
Definition SimulationScope_convert3D (edgeID : string) (pos : double) (laneIndex : Z) (toGeo : bool) :
    client (double * double * double) :=
  let posType := if toGeo then libsumo.POSITION_LON_LAT_ALT else libsumo.POSITION_3D in
  content ← local (run_writes big [wByte libsumo.TYPE_COMPOUND; wInt 2; wByte libsumo.POSITION_ROADMAP; wString edgeID;
    wDouble pos; wByte laneIndex; wByte libsumo.TYPE_UBYTE; wByte posType]);
  get_value big piece sent posType (readPosition3D big) TraCIPosition_default libsumo.CMD_GET_SIM_VARIABLE
    libsumo.POSITION_CONVERSION "" (Some content).
Definition SimulationScope_convertRoad (x y : double) (isGeo : bool) (vClass : string) :
    client (string * option double * Z) :=
  content ← local (run_writes big [wByte libsumo.TYPE_COMPOUND; wInt 3;
    wByte (if isGeo then libsumo.POSITION_LON_LAT else libsumo.POSITION_2D); wDouble x; wDouble y;
    wByte libsumo.TYPE_UBYTE; wByte libsumo.POSITION_ROADMAP; wByte libsumo.TYPE_STRING; wString vClass]);
  get_value big piece sent libsumo.POSITION_ROADMAP
    (fun s => '(edgeID, s) ← readString big s; '(pos, s) ← readDouble big s; '(lane, s) ← readUnsignedByte s;
              Ok (edgeID, Some pos, lane, s))
    ("", None, INVALID_INT_VALUE) libsumo.CMD_GET_SIM_VARIABLE libsumo.POSITION_CONVERSION "" (Some content).
Definition SimulationScope_convertGeo (x y : double) (fromGeo : bool) : client (double * double * double) :=
  let posType := if fromGeo then libsumo.POSITION_2D else libsumo.POSITION_LON_LAT in
  content ← local (run_writes big [wByte libsumo.TYPE_COMPOUND; wInt 2;
    wByte (if fromGeo then libsumo.POSITION_LON_LAT else libsumo.POSITION_2D); wDouble x; wDouble y;
    wByte libsumo.TYPE_UBYTE; wByte posType]);
  get_value big piece sent posType read2D TraCIPosition_default libsumo.CMD_GET_SIM_VARIABLE libsumo.POSITION_CONVERSION ""
    (Some content).
Definition SimulationScope_getDistance2D (x1 y1 x2 y2 : double) (isGeo isDriving : bool) : client double :=
  let posType := if isGeo then libsumo.POSITION_LON_LAT else libsumo.POSITION_2D in
  content ← local (run_writes big [wByte libsumo.TYPE_COMPOUND; wInt 3; wByte posType; wDouble x1; wDouble y1;
    wByte posType; wDouble x2; wDouble y2;
    wByte (if isDriving then libsumo.REQUEST_DRIVINGDIST else libsumo.REQUEST_AIRDIST)]);
  get_value big piece sent libsumo.TYPE_DOUBLE (readDouble big) d_zero libsumo.CMD_GET_SIM_VARIABLE
    libsumo.DISTANCE_REQUEST "" (Some content).
Definition SimulationScope_getDistanceRoad (edgeID1 : string) (pos1 : double) (edgeID2 : string) (pos2 : double)
    (isDriving : bool) : client double :=
  content ← local (run_writes big [wByte libsumo.TYPE_COMPOUND; wInt 3; wByte libsumo.POSITION_ROADMAP; wString edgeID1;
    wDouble pos1; wByte 0; wByte libsumo.POSITION_ROADMAP; wString edgeID2; wDouble pos2; wByte 0;
    wByte (if isDriving then libsumo.REQUEST_DRIVINGDIST else libsumo.REQUEST_AIRDIST)]);
  get_value big piece sent libsumo.TYPE_DOUBLE (readDouble big) d_zero libsumo.CMD_GET_SIM_VARIABLE
    libsumo.DISTANCE_REQUEST "" (Some content).

(** ** Parameters of objects ([TraCIScopeWrapper]) *)
Definition getParameter (myCmdGetID : Z) (objectID key : string) : client string :=
  content ← local (run_writes big [wByte libsumo.TYPE_STRING; wString key]);
  getString myCmdGetID libsumo.VAR_PARAMETER objectID (Some content).
Definition setParameter (myCmdSetID : Z) (objectID key value : string) : client unit :=
  set (parameter_setting myCmdSetID objectID key value).

(** [API::convertGeo] and [API::convert2D]: longitude and latitude; position. *)
Definition API_convertGeo (x y : double) : client (double * double) :=
  '(lon, lat, _) ← SimulationScope_convertGeo x y false; mret (lon, lat).
Definition API_convert2D (longitude latitude : double) : client (double * double * double) :=
  SimulationScope_convertGeo longitude latitude true.
End Host.

(** ** The grammar of values *)
(** A value is a byte for its type and what belongs to the type; a compound is a number
    of values. *)
Inductive kind := KByte | KInt | KDouble | KString | KStrings.
Definition payload (t : Z) : option (list kind) :=
  if (t =? libsumo.TYPE_UBYTE) || (t =? libsumo.TYPE_BYTE) then Some [KByte]
  else if t =? libsumo.TYPE_INTEGER then Some [KInt]
  else if t =? libsumo.TYPE_DOUBLE then Some [KDouble]
  else if t =? libsumo.TYPE_STRING then Some [KString]
  else if t =? libsumo.TYPE_STRINGLIST then Some [KStrings]
  else if t =? libsumo.TYPE_COLOR then Some [KByte; KByte; KByte; KByte]
  else if (t =? libsumo.POSITION_2D) || (t =? libsumo.POSITION_LON_LAT) then Some [KDouble; KDouble]
  else if (t =? libsumo.POSITION_3D) || (t =? libsumo.POSITION_LON_LAT_ALT) then Some [KDouble; KDouble; KDouble]
  else if t =? libsumo.POSITION_ROADMAP then Some [KString; KDouble; KByte]
  else None.

Definition skip_bytes (n : nat) (l : list Z) : option (list Z) := if Nat.leb n (length l) then Some (drop n l) else None.
Definition take_count (l : list Z) : option (nat * list Z) :=
  rest ← skip_bytes 4 l;
  let n := swrap 32 (of_le_bytes (rev (take 4 l))) in
  if n <? 0 then None else Some (Z.to_nat n, rest).
Definition skip_string (l : list Z) : option (list Z) := '(n, l) ← take_count l; skip_bytes n l.
Fixpoint skip_many {A} (skip : list A -> option (list A)) (n : nat) (l : list A) : option (list A) :=
  match n with O => Some l | S n => l ← skip l; skip_many skip n l end.
Definition skip_kind (k : kind) (l : list Z) : option (list Z) :=
  match k with
  | KByte => skip_bytes 1 l
  | KInt => skip_bytes 4 l
  | KDouble => skip_bytes 8 l
  | KString => skip_string l
  | KStrings => '(n, l) ← take_count l; skip_many skip_string n l
  end.
Fixpoint skip_kinds (ks : list kind) (l : list Z) : option (list Z) :=
  match ks with [] => Some l | k :: ks => l ← skip_kind k l; skip_kinds ks l end.
Definition skip_polygon (l : list Z) : option (list Z) :=
  match l with
  | [] => None
  | n :: l => if n =? 0 then '(n, l) ← take_count l; skip_bytes (16 * n) l else skip_bytes (16 * Z.to_nat n) l
  end.
(** The rest behind a value. *)
Fixpoint skip_value (fuel : nat) (l : list Z) : option (list Z) :=
  match fuel, l with
  | S f, t :: l =>
      match payload t with
      | Some ks => skip_kinds ks l
      | None =>
          if t =? libsumo.TYPE_POLYGON then skip_polygon l
          else if t =? libsumo.TYPE_COMPOUND then '(n, l) ← take_count l; skip_many (skip_value f) n l
          else None
      end
  | _, _ => None
  end.
(** The bytes of one value, nested to some depth. *)
Definition value_bytes (l : list Z) : Prop := exists d, forall f rest, (d <= f)%nat -> skip_value f (l ++ rest) = Some rest.

(** ** Bytes of contents *)
Definition wire_write (w : write) : list Z :=
  match w with
  | wUnsignedByte v => [v]
  | wByte v => [wrap 8 (Z.rem (v + 256) 256)]
  | wInt v => be_bytes 4 (u32 v)
  | wDouble v => wire_double v
  | wString v => wire_string v
  | wStringList l => wire_strings l
  end.
Definition wire_writes (ws : list write) : list Z := concat (wire_write <$> ws).
Definition valid_write (w : write) : Prop :=
  match w with
  | wUnsignedByte v => 0 <= v <= 255
  | wByte v => -128 <= v <= 127
  | wInt v => - 2 ^ 31 <= v < 2 ^ 31
  | wDouble v => d_valid v
  | wString v => fits_string v
  | wStringList l => fits l /\ Forall fits_string l
  end.

Lemma run_write_wire big w s : valid_write w -> run_write big w s = Ok (append (wire_write w) s).
Proof.
  destruct w as [v|v|v|v|v|l]; cbn [valid_write run_write wire_write]; intros Hv.
  - by apply writeUnsignedByte_ok.
  - unfold writeByte, writeChar. by rewrite (proj2 (Z.ltb_ge _ _)), (proj2 (Z.ltb_ge _ _)) by lia.
  - by rewrite writeInt_wire.
  - by rewrite writeDouble_wire.
  - by rewrite writeString_wire.
  - destruct Hv as [_ _]. unfold writeStringList, wire_strings. rewrite writeInt_wire.
    f_equal. rewrite (foldl_append _ wire_string); [done|]. intros. apply writeString_wire.
Qed.

Lemma run_writes_wire big ws : Forall valid_write ws -> run_writes big ws = Ok (mkStorage (wire_writes ws) 0).
Proof.
  intros Hw. unfold run_writes, storage_empty. change (wire_writes ws) with ([] ++ wire_writes ws).
  generalize (@nil Z) as pre. induction Hw as [|w ws Hw _ IH]; intros pre; cbn [res_fold].
  - unfold wire_writes. cbn. by rewrite app_nil_r.
  - rewrite run_write_wire by done. cbn [mbind res_bind]. unfold append. cbn [store]. rewrite IH.
    unfold wire_writes. cbn [fmap list_fmap concat]. by rewrite app_assoc.
Qed.

Lemma wire_writes_app ws1 ws2 : wire_writes (ws1 ++ ws2) = wire_writes ws1 ++ wire_writes ws2.
Proof. unfold wire_writes. by rewrite fmap_app, concat_app. Qed.
Lemma wire_writes_cons w ws : wire_writes (w :: ws) = wire_write w ++ wire_writes ws.
Proof. done. Qed.

(** ** Skipping what has been written *)
Lemma skip_bytes_app n l rest : length l = n -> skip_bytes n (l ++ rest) = Some rest.
Proof.
  intros <-. unfold skip_bytes. rewrite (proj2 (Nat.leb_le _ _)) by (rewrite length_app; lia). by rewrite drop_app_length.
Qed.
Lemma take_count_wire n rest : 0 <= n < 2 ^ 31 -> take_count (be_bytes 4 (u32 n) ++ rest) = Some (Z.to_nat n, rest).
Proof.
  intros Hn. unfold take_count. rewrite skip_bytes_app by apply be_bytes_length. cbn [mbind option_bind].
  rewrite take_app_length' by (symmetry; apply be_bytes_length). unfold be_bytes. rewrite rev_involutive, of_le_bytes_le_bytes
    by (apply (wrap_range 32); lia).
  unfold u32. rewrite swrap_wrap by lia. by rewrite (proj2 (Z.ltb_ge _ _)) by lia.
Qed.
Lemma skip_string_wire s rest : fits_string s -> skip_string (wire_string s ++ rest) = Some rest.
Proof.
  unfold fits_string, skip_string, wire_string. intros Hs. rewrite <- app_assoc, take_count_wire by lia.
  cbn [mbind option_bind]. apply skip_bytes_app. by rewrite bytes_of_string_length, Nat2Z.id.
Qed.
(** Elements one after the other. *)
Lemma skip_many_wire {A B} (skip : list B -> option (list B)) (wire : A -> list B) l rest :
  (forall x rest, x ∈ l -> skip (wire x ++ rest) = Some rest) ->
  skip_many skip (length l) (concat (wire <$> l) ++ rest) = Some rest.
Proof.
  induction l as [|x l IH]; intros Hs; [done|]. cbn [length skip_many fmap list_fmap concat].
  rewrite <- app_assoc, Hs by set_solver. cbn [mbind option_bind]. apply IH. set_solver.
Qed.
Lemma skip_strings_wire l rest : fits l -> Forall fits_string l ->
  ('(n, l) ← take_count (wire_strings l ++ rest); skip_many skip_string n l) = Some rest.
Proof.
  unfold fits, wire_strings. intros Hf Hl. rewrite <- app_assoc, take_count_wire by lia. cbn [mbind option_bind].
  rewrite Nat2Z.id. apply skip_many_wire. intros x r Hx. apply skip_string_wire.
  rewrite Forall_forall in Hl. by apply Hl.
Qed.

Definition accept (k : kind) (w : write) : bool :=
  match k, w with
  | KByte, (wUnsignedByte _ | wByte _) | KInt, wInt _ | KDouble, wDouble _ | KString, wString _
  | KStrings, wStringList _ => true
  | _, _ => false
  end.
Lemma skip_kind_wire k w rest : accept k w = true -> valid_write w -> skip_kind k (wire_write w ++ rest) = Some rest.
Proof.
  destruct k, w; cbn [accept valid_write skip_kind wire_write]; try done; intros _ Hv.
  - by apply skip_string_wire.
  - destruct Hv. by apply skip_strings_wire.
Qed.

(** A tag and whether these writes make a value of it. *)
Definition tag_of (w : write) : option Z :=
  match w with wUnsignedByte t => Some t | wByte t => if 0 <=? t then Some t else None | _ => None end.
Lemma wire_tag w t : tag_of w = Some t -> valid_write w -> wire_write w = [t].
Proof.
  destruct w as [v|v|v|v|v|l]; cbn [tag_of valid_write wire_write]; try done.
  - by intros [= ->].
  - intros Ht Hv. destruct (Z.leb_spec 0 v); [|done]. injection Ht as <-. f_equal.
    rewrite Z.rem_mod_nonneg by lia. replace (v + 256) with (v + 1 * 256) by lia. rewrite Z_mod_plus_full, Z.mod_small by lia.
    unfold wrap. by rewrite Z.mod_small by lia.
Qed.

Fixpoint accept_kinds (ks : list kind) (ws : list write) : option (list write) :=
  match ks, ws with
  | [], _ => Some ws
  | k :: ks, w :: ws => if accept k w then accept_kinds ks ws else None
  | _, _ => None
  end.
(** The writes of one value; what is left. *)
Fixpoint value_writes (fuel : nat) (ws : list write) : option (list write) :=
  match fuel, ws with
  | S f, w :: ws =>
      t ← tag_of w;
      match payload t with
      | Some ks => accept_kinds ks ws
      | None =>
          if t =? libsumo.TYPE_POLYGON then
            match ws with
            | w :: ws => n ← tag_of w; if n <=? 0 then None else accept_kinds (replicate (2 * Z.to_nat n) KDouble) ws
            | [] => None
            end
          else if t =? libsumo.TYPE_COMPOUND then
            match ws with
            | wInt n :: ws => if n <? 0 then None else skip_many (value_writes f) (Z.to_nat n) ws
            | _ => None
            end
          else None
      end
  | _, _ => None
  end.

Lemma accept_kinds_sound ks ws ws' rest : accept_kinds ks ws = Some ws' -> Forall valid_write ws ->
  skip_kinds ks (wire_writes ws ++ rest) = Some (wire_writes ws' ++ rest) /\ Forall valid_write ws'.
Proof.
  revert ws. induction ks as [|k ks IH]; intros ws; [by intros [= ->]|]. destruct ws as [|w ws]; [done|]. cbn [accept_kinds].
  destruct (accept k w) eqn:Ha; [|done]. intros H [Hw Hws]%Forall_cons. cbn [skip_kinds].
  rewrite wire_writes_cons, <- app_assoc, skip_kind_wire by done. by apply IH.
Qed.
Lemma skip_doubles n l : skip_kinds (replicate n KDouble) l = skip_bytes (8 * n) l \/ (length l < 8 * n)%nat.
Proof.
  destruct (Nat.le_gt_cases (8 * n) (length l)) as [Hle|Hgt]; [left|by right].
  revert l Hle. induction n as [|n IH]; intros l Hle; [unfold skip_bytes; cbn; by rewrite drop_0|].
  cbn [replicate skip_kinds skip_kind]. unfold skip_bytes at 1. rewrite (proj2 (Nat.leb_le _ _)) by lia.
  cbn [mbind option_bind]. rewrite IH by (rewrite length_drop; lia). unfold skip_bytes.
  rewrite length_drop, drop_drop, (proj2 (Nat.leb_le _ _)), (proj2 (Nat.leb_le _ _)) by lia. do 2 f_equal. lia.
Qed.
Lemma skip_kinds_length n l r : skip_kinds (replicate n KDouble) l = Some r -> (8 * n <= length l)%nat.
Proof.
  revert l. induction n as [|n IH]; intros l; [cbn; lia|]. cbn [replicate skip_kinds skip_kind]. unfold skip_bytes.
  destruct (Nat.leb_spec 8 (length l)); [|done]. cbn [mbind option_bind]. intros H1%IH. rewrite length_drop in H1. lia.
Qed.

Lemma value_writes_sound f ws ws' rest : value_writes f ws = Some ws' -> Forall valid_write ws ->
  skip_value f (wire_writes ws ++ rest) = Some (wire_writes ws' ++ rest) /\ Forall valid_write ws'.
Proof.
  revert ws ws'. induction f as [|f IH]; intros ws ws'; [done|]. destruct ws as [|w ws]; [done|]. cbn [value_writes].
  intros H [Hw Hws]%Forall_cons. apply bind_Some in H as (t & Ht & H).
  rewrite wire_writes_cons, (wire_tag w t Ht Hw), <- app_assoc. cbn [app skip_value].
  destruct (payload t) as [ks|]; [by apply accept_kinds_sound|].
  destruct (t =? libsumo.TYPE_POLYGON).
  - destruct ws as [|w' ws]; [done|]. apply bind_Some in H as (n & Hn & H). apply Forall_cons in Hws as [Hw' Hws].
    rewrite wire_writes_cons, (wire_tag w' n Hn Hw'), <- app_assoc. cbn [app skip_polygon].
    destruct (Z.leb_spec n 0); [done|]. rewrite (proj2 (Z.eqb_neq _ _)) by lia.
    destruct (accept_kinds_sound _ _ _ rest H Hws) as [Hs Hv]. split; [|done]. rewrite <- Hs.
    destruct (skip_doubles (2 * Z.to_nat n) (wire_writes ws ++ rest)) as [->|Hlt].
    + f_equal. lia.
    + apply skip_kinds_length in Hs. lia.
  - destruct (t =? libsumo.TYPE_COMPOUND); [|done]. destruct ws as [|[| |n| | |] ws]; try done.
    apply Forall_cons in Hws as [Hn Hws]. cbn [valid_write] in Hn. destruct (Z.ltb_spec n 0); [done|].
    rewrite wire_writes_cons. cbn [wire_write]. rewrite <- app_assoc, take_count_wire by lia. cbn [mbind option_bind].
    clear Hn w Ht Hw t. revert ws Hws H. generalize (Z.to_nat n) as k. induction k as [|k IHk]; intros ws Hws H.
    + cbn in *. by injection H as <-.
    + cbn [skip_many] in *. apply bind_Some in H as (ws1 & H1 & H). destruct (IH _ _ H1 Hws) as [-> Hv].
      cbn [mbind option_bind]. by apply IHk.
Qed.

(** More fuel does no harm. *)
Lemma skip_many_mono {A} (s1 s2 : list A -> option (list A)) n l r :
  (forall l r, s1 l = Some r -> s2 l = Some r) -> skip_many s1 n l = Some r -> skip_many s2 n l = Some r.
Proof.
  intros Hs. revert l. induction n as [|n IH]; intros l; [done|]. cbn [skip_many]. rewrite !bind_Some.
  intros (l' & H1 & H2). exists l'. eauto.
Qed.
Lemma skip_value_mono f f' l r : (f <= f')%nat -> skip_value f l = Some r -> skip_value f' l = Some r.
Proof.
  revert f' l r. induction f as [|f IH]; intros f' l r Hf; [done|]. destruct f' as [|f']; [lia|]. destruct l as [|t l]; [done|].
  cbn [skip_value]. destruct (payload t); [done|]. destruct (t =? libsumo.TYPE_POLYGON); [done|].
  destruct (t =? libsumo.TYPE_COMPOUND); [|done]. rewrite !bind_Some. intros ([n l'] & H1 & H2). exists (n, l'). split; [done|].
  eapply skip_many_mono; [|exact H2]. intros. apply IH; [lia|done].
Qed.

(** ** Values *)
Lemma value_of_writes f ws : value_writes f ws = Some [] -> Forall valid_write ws -> value_bytes (wire_writes ws).
Proof.
  intros H Hv. exists f. intros f' rest Hf. destruct (value_writes_sound f ws [] rest H Hv) as [Hs _].
  by apply (skip_value_mono f).
Qed.
Lemma value_of_strings l : fits l -> Forall fits_string l -> value_bytes (wire_writes (wStrings l)).
Proof.
  intros Hf Hl. exists 1%nat. intros [|f] rest H; [lia|]. unfold wStrings. rewrite wire_writes_cons. cbn [wire_write app].
  cbn [skip_value]. change (payload libsumo.TYPE_STRINGLIST) with (Some [KStrings]). cbn [skip_kinds skip_kind].
  assert (wire_writes (wInt (int_of_size (length l)) :: (wString <$> l)) = wire_strings l) as ->.
  { rewrite wire_writes_cons. cbn [wire_write]. rewrite int_of_size_small by done. unfold wire_strings, wire_writes.
    by rewrite <- list_fmap_compose. }
  by rewrite skip_strings_wire.
Qed.
Lemma value_of_compound (ls : list (list Z)) : fits ls -> Forall value_bytes ls ->
  value_bytes (libsumo.TYPE_COMPOUND :: be_bytes 4 (u32 (Z.of_nat (length ls))) ++ concat ls).
Proof.
  unfold fits. intros Hn Hls.
  assert (exists d, Forall (fun l => forall f rest, (d <= f)%nat -> skip_value f (l ++ rest) = Some rest) ls) as [d Hd].
  { clear Hn. induction Hls as [|l ls [d Hl] _ [d' IH]]; [by exists 0%nat|]. exists (Nat.max d d'). constructor.
    - intros. apply Hl. lia.
    - eapply Forall_impl; [exact IH|]. intros l' H f rest Hf. apply H. lia. }
  exists (S d). intros [|f] rest Hf; [lia|]. cbn [app skip_value].
  change (payload libsumo.TYPE_COMPOUND) with (@None (list kind)).
  change (libsumo.TYPE_COMPOUND =? libsumo.TYPE_POLYGON) with false.
  change (libsumo.TYPE_COMPOUND =? libsumo.TYPE_COMPOUND) with true. cbv iota.
  rewrite <- app_assoc, take_count_wire by lia. cbn [mbind option_bind]. rewrite Nat2Z.id.
  pose proof (skip_many_wire (skip_value f) (fun l : list Z => l) ls rest) as H. rewrite list_fmap_id in H. apply H.
  intros l r Hl. rewrite Forall_forall in Hd. apply Hd; [done|lia].
Qed.
Lemma value_of_compound_writes (wss : list (list write)) : fits wss -> Forall (fun ws => value_bytes (wire_writes ws)) wss ->
  value_bytes (wire_writes (wUnsignedByte libsumo.TYPE_COMPOUND :: wInt (Z.of_nat (length wss)) :: concat wss)).
Proof.
  intros Hf Hw. pose proof (value_of_compound (wire_writes <$> wss)) as H. unfold fits in *. rewrite length_fmap in H.
  assert (wire_writes (concat wss) = concat (wire_writes <$> wss)) as Hc.
  { clear. induction wss as [|ws wss IH]; [done|]. cbn [concat fmap list_fmap]. by rewrite wire_writes_app, IH. }
  rewrite !wire_writes_cons, Hc. apply H; [done|]. by apply Forall_fmap.
Qed.
Lemma value_of_polygon (shape : list (double * double)) : (0 < length shape)%nat -> fits shape ->
  value_bytes (libsumo.TYPE_POLYGON :: (if Nat.ltb (length shape) 256 then [Z.of_nat (length shape)]
      else 0 :: be_bytes 4 (u32 (Z.of_nat (length shape)))) ++ wire_writes (wPoints shape)).
Proof.
  unfold fits. intros Hpos Hf. exists 1%nat. intros [|f] rest H; [lia|]. cbn [app skip_value].
  change (payload libsumo.TYPE_POLYGON) with (@None (list kind)).
  change (libsumo.TYPE_POLYGON =? libsumo.TYPE_POLYGON) with true. cbv iota.
  assert (length (wire_writes (wPoints shape)) = (16 * length shape)%nat) as Hl.
  { clear. unfold wPoints. induction shape as [|p l IH]; [done|]. cbn [fmap list_fmap concat].
    rewrite wire_writes_app, length_app, IH. unfold wire_writes. cbn [fmap list_fmap concat wire_write].
    rewrite !length_app. unfold wire_double. rewrite !be_bytes_length. cbn [length]. lia. }
  destruct (Nat.ltb_spec (length shape) 256).
  - cbn [app skip_polygon]. rewrite (proj2 (Z.eqb_neq _ _)) by lia. rewrite Nat2Z.id. by apply skip_bytes_app.
  - cbn [app skip_polygon]. rewrite Z.eqb_refl, <- app_assoc, take_count_wire by lia. cbn [mbind option_bind].
    rewrite Nat2Z.id. by apply skip_bytes_app.
Qed.

(** ** All settings *)
(** The content is written, as the bytes of its values in order. *)
Definition written (big : bool) (x : setting) : Prop :=
  run_writes big (set_content x) = Ok (mkStorage (wire_writes (set_content x)) 0).
(** One value, complete, with nothing behind it. *)
Definition well_formed (big : bool) (x : setting) : Prop :=
  written big x /\ value_bytes (wire_writes (set_content x)) /\
  exists d, skip_value d (wire_writes (set_content x)) = Some [].

Lemma well_formed_intro big x : Forall valid_write (set_content x) -> value_bytes (wire_writes (set_content x)) ->
  well_formed big x.
Proof.
  intros Hv Hb. split; [by apply run_writes_wire|]. split; [done|].
  destruct Hb as [d Hd]. exists d. specialize (Hd d []). rewrite app_nil_r in Hd. by apply Hd.
Qed.
Lemma well_formed_regular big x f : Forall valid_write (set_content x) -> value_writes f (set_content x) = Some [] ->
  well_formed big x.
Proof. intros Hv Hf. apply well_formed_intro; [done|]. by apply (value_of_writes f). Qed.

Definition valid_color (c : color) : Prop :=
  0 <= color_r c <= 255 /\ 0 <= color_g c <= 255 /\ 0 <= color_b c <= 255 /\ 0 <= color_a c <= 255.

Section Settings.
Variables (s1 s2 s3 s4 : string).
Variables (x1 x2 x3 x4 x5 : double).
Variables (n1 n2 : Z).
Variables (b1 b2 : Z).
Variables (u1 : Z).
Variables (c1 : color).
Variables (l1 : list string).

(** The settings whose content has a fixed shape; the edges' maximum speed is not one. *)
Definition regular_settings : list setting :=
  [GUIScope_setZoom s1 x1; GUIScope_setOffset s1 x1 x2; GUIScope_setSchema s1 s2;
   GUIScope_setBoundary s1 x1 x2 x3 x4; GUIScope_screenshot s1 s2 n1 n2; GUIScope_trackVehicle s1 s2;
   LaneScope_setMaxSpeed s1 x1; LaneScope_setLength s1 x1; POIScope_setType s1 s2;
   POIScope_setPosition s1 x1 x2; POIScope_setColor s1 c1; POIScope_setWidth s1 x1; POIScope_setHeight s1 x1;
   POIScope_setAngle s1 x1; POIScope_setImageFile s1 s2; POIScope_add s1 x1 x2 c1 s2 n1 s3 x3 x4 x5;
   POIScope_remove s1 n1; PolygonScope_setLineWidth s1 x1; PolygonScope_setType s1 s2;
   PolygonScope_setColor s1 c1; PolygonScope_remove s1 n1; RouteScope_add s1 l1;
   TrafficLightScope_setRedYellowGreenState s1 s2; TrafficLightScope_setPhase s1 n1;
   TrafficLightScope_setPhaseName s1 s2; TrafficLightScope_setProgram s1 s2;
   TrafficLightScope_setPhaseDuration s1 x1; VehicleTypeScope_setLength s1 x1;
   VehicleTypeScope_setMaxSpeed s1 x1; VehicleTypeScope_setVehicleClass s1 s2;
   VehicleTypeScope_setSpeedFactor s1 x1; VehicleTypeScope_setSpeedDeviation s1 x1;
   VehicleTypeScope_setEmissionClass s1 s2; VehicleTypeScope_setWidth s1 x1; VehicleTypeScope_setHeight s1 x1;
   VehicleTypeScope_setMinGap s1 x1; VehicleTypeScope_setMinGapLat s1 x1;
   VehicleTypeScope_setMaxSpeedLat s1 x1; VehicleTypeScope_setLateralAlignment s1 s2;
   VehicleTypeScope_copy s1 s2; VehicleTypeScope_setShapeClass s1 s2; VehicleTypeScope_setAccel s1 x1;
   VehicleTypeScope_setDecel s1 x1; VehicleTypeScope_setEmergencyDecel s1 x1;
   VehicleTypeScope_setApparentDecel s1 x1; VehicleTypeScope_setImperfection s1 x1;
   VehicleTypeScope_setTau s1 x1; VehicleTypeScope_setColor s1 c1; VehicleScope_remove s1 u1;
   VehicleScope_changeTarget s1 s2; VehicleScope_changeLane s1 b1 x1; VehicleScope_changeLaneRelative s1 b1 x1;
   VehicleScope_changeSublane s1 x1; VehicleScope_setRouteID s1 s2; VehicleScope_moveTo s1 s2 x1;
   VehicleScope_moveToXY s1 s2 n1 x1 x2 x3 b1; VehicleScope_slowDown s1 x1 x2; VehicleScope_setSpeed s1 x1;
   VehicleScope_setSpeedMode s1 n1; VehicleScope_setStop s1 s2 x1 b1 x2 b2 x3 x4; VehicleScope_setType s1 s2;
   VehicleScope_setSpeedFactor s1 x1; VehicleScope_setMaxSpeed s1 x1; VehicleScope_setColor s1 c1;
   VehicleScope_setLine s1 s2; VehicleScope_setSignals s1 n1; VehicleScope_setRoutingMode s1 n1;
   VehicleScope_setShapeClass s1 s2; VehicleScope_setEmissionClass s1 s2; PersonScope_rerouteTraveltime s1;
   PersonScope_add s1 s2 x1 x2 s3; PersonScope_appendDrivingStage s1 s2 s3 s4; PersonScope_removeStage s1 n1;
   PersonScope_setSpeed s1 x1; PersonScope_setType s1 s2; PersonScope_setLength s1 x1;
   PersonScope_setWidth s1 x1; PersonScope_setHeight s1 x1; PersonScope_setMinGap s1 x1;
   PersonScope_setColor s1 c1; VehicleScope_reroute s1].

(** The scopes that set parameters, by their commands. *)
Definition parameter_settings : list setting :=
  (fun cmd => parameter_setting cmd s1 s2 s3) <$>
    [libsumo.CMD_SET_EDGE_VARIABLE; libsumo.CMD_SET_GUI_VARIABLE; libsumo.CMD_SET_JUNCTION_VARIABLE;
     libsumo.CMD_SET_LANE_VARIABLE; libsumo.CMD_SET_POI_VARIABLE; libsumo.CMD_SET_POLYGON_VARIABLE;
     libsumo.CMD_SET_ROUTE_VARIABLE; libsumo.CMD_SET_SIM_VARIABLE; libsumo.CMD_SET_TL_VARIABLE;
     libsumo.CMD_SET_VEHICLETYPE_VARIABLE; libsumo.CMD_SET_VEHICLE_VARIABLE; libsumo.CMD_SET_PERSON_VARIABLE].

Hypothesis Hs : Forall fits_string [s1; s2; s3; s4].
Hypothesis Hx : Forall d_valid [x1; x2; x3; x4; x5].
Hypothesis Hn : Forall (fun n => - 2 ^ 31 <= n < 2 ^ 31) [n1; n2].
Hypothesis Hb : Forall (fun b => -128 <= b <= 127) [b1; b2].
Hypothesis Hu : Forall (fun u => 0 <= u <= 255) [u1].
Hypothesis Hc : valid_color c1.
Hypothesis Hl : fits l1 /\ Forall fits_string l1.

Lemma regular_well_formed big : Forall (well_formed big) regular_settings.
Proof.
  destruct Hc as (? & ? & ? & ?).
  repeat match goal with H : Forall _ (_ :: _) |- _ => apply Forall_cons in H as [? H] end.
  unfold regular_settings. repeat (apply Forall_cons_2; [apply (well_formed_regular _ _ 3); [|reflexivity]|]); [..|apply Forall_nil_2];
    cbn [set_content]; repeat (apply Forall_cons_2; [cbn [valid_write]; first [assumption | split; done | split; lia | lia]|]); apply Forall_nil_2.
Qed.

Lemma parameters_well_formed big : Forall (well_formed big) parameter_settings.
Proof.
  pose proof Hs as Hstrings. rewrite !Forall_cons in Hstrings. destruct Hstrings as (? & ? & ? & _).
  apply Forall_fmap, Forall_forall. intros cmd _. apply (well_formed_regular _ _ 3); [|reflexivity].
  cbn [set_content parameter_setting].
  repeat (apply Forall_cons_2; [cbn [valid_write]; first [assumption | split; done | lia]|]). apply Forall_nil_2.
Qed.
End Settings.

(** *** Settings of other shapes *)
Section Irregular.
Variable big : bool.

Lemma strings_well_formed l x : fits l -> Forall fits_string l -> set_content x = wStrings l -> well_formed big x.
Proof.
  intros Hf Hl Hx. apply well_formed_intro; rewrite Hx; [|by apply value_of_strings].
  unfold wStrings. apply Forall_cons_2; [cbn; done|]. apply Forall_cons_2.
  - cbn. unfold fits in *. rewrite int_of_size_small by done. lia.
  - by apply Forall_fmap.
Qed.

Lemma from_to_well_formed b e v x : d_valid b -> d_valid e -> d_valid v -> set_content x = from_to b e v ->
  well_formed big x.
Proof.
  intros Hb He Hv Hx. unfold from_to in Hx.
  destruct (negb (deqb e double_max)); apply (well_formed_regular _ _ 2); rewrite Hx; try reflexivity;
    repeat (apply Forall_cons_2; [cbn [valid_write]; first [assumption | split; done]|]); apply Forall_nil_2.
Qed.

Lemma openGap_well_formed id tau dur rate dec : Forall d_valid [tau; dur; rate; dec] ->
  well_formed big (VehicleScope_openGap id tau dur rate dec).
Proof.
  repeat setoid_rewrite Forall_cons. intros (? & ? & ? & ? & _).
  apply (well_formed_regular _ _ 2); unfold VehicleScope_openGap; cbn [set_content]; destruct (dltb d_zero dec);
    try reflexivity; repeat (apply Forall_cons_2; [cbn [valid_write]; first [assumption | split; done]|]); apply Forall_nil_2.
Qed.

Lemma add_at_well_formed vehicleID routeID typeID depart departLane departPos departSpeed arrivalLane arrivalPos
    arrivalSpeed fromTaz toTaz line personCapacity personNumber :
  Forall fits_string [routeID; typeID; depart; departLane; departPos; departSpeed; arrivalLane; arrivalPos; arrivalSpeed;
    fromTaz; toTaz; line] ->
  Forall (fun n => - 2 ^ 31 <= n < 2 ^ 31) [personCapacity; personNumber] ->
  well_formed big (VehicleScope_add_at vehicleID routeID typeID depart departLane departPos departSpeed arrivalLane
    arrivalPos arrivalSpeed fromTaz toTaz line personCapacity personNumber).
Proof.
  intros Hs Hn. repeat match goal with H : Forall _ (_ :: _) |- _ => apply Forall_cons in H as [? H] end.
  apply (well_formed_regular _ _ 2); [|reflexivity]. unfold VehicleScope_add_at. cbn [set_content app].
  repeat (apply Forall_cons_2; [cbn [valid_write]; first [assumption | split; done | lia]|]); apply Forall_nil_2.
Qed.

Lemma stages_well_formed id dur pos speed desc stop edges x :
  d_valid pos -> d_valid speed -> fits_string desc -> fits_string stop -> fits edges -> Forall fits_string edges ->
  PersonScope_appendWaitingStage id dur desc stop = Ok x \/
    PersonScope_appendWalkingStage id edges pos dur speed stop = Ok x -> well_formed big x.
Proof.
  intros Hp Hv Hd Hs Hf Hl.
  assert (forall y n, d_to_int y = Ok n -> - 2 ^ 31 <= n < 2 ^ 31) as Hint.
  { intros y n. unfold d_to_int, int_sum. destruct (d_to_long y) as [z|]; [|done]. cbn [mbind res_bind].
    destruct (_ && _) eqn:E; [|done]. intros H. apply Ok_inj in H as <-. apply andb_true_iff in E. lia. }
  unfold PersonScope_appendWaitingStage, PersonScope_appendWalkingStage.
  intros [H|H]; (destruct (d_to_int _) as [n|] eqn:Hn; [|done]); apply Hint in Hn; cbn [mbind res_bind] in H;
    apply Ok_inj in H as <-; apply (well_formed_regular _ _ 2); try reflexivity; cbn [set_content];
    repeat (apply Forall_cons_2; [cbn [valid_write]; first [assumption | split; done | lia]|]); apply Forall_nil_2.
Qed.

Definition valid_shape (shape : list (double * double)) : Prop :=
  (0 < length shape)%nat /\ fits shape /\ Forall (fun p => d_valid p.1 /\ d_valid p.2) shape.
Lemma valid_points shape : Forall (fun p => d_valid p.1 /\ d_valid p.2) shape -> Forall valid_write (wPoints shape).
Proof.
  unfold wPoints. induction 1 as [|p l [H1 H2] _ IH]; [apply Forall_nil_2|]. cbn [fmap list_fmap concat app].
  by repeat apply Forall_cons_2.
Qed.

Lemma setShape_well_formed id shape : valid_shape shape -> well_formed big (PolygonScope_setShape id shape).
Proof.
  intros (Hpos & Hf & Hv). pose proof (value_of_polygon shape Hpos Hf) as Hval. unfold fits in Hf.
  unfold PolygonScope_setShape. rewrite int_of_size_small by done.
  apply well_formed_intro; cbn [set_content].
  - apply Forall_cons_2; [cbn; done|]. apply Forall_app. split; [|by apply valid_points].
    destruct (Nat.ltb_spec (length shape) 256); repeat (apply Forall_cons_2; [cbn [valid_write]; lia|]); apply Forall_nil_2.
  - rewrite wire_writes_cons, wire_writes_app. by destruct (Nat.ltb (length shape) 256).
Qed.

Lemma add_polygon_well_formed id shape c fill type layer : valid_shape shape -> (length shape < 256)%nat ->
  valid_color c -> fits_string type -> - 2 ^ 31 <= layer < 2 ^ 31 ->
  well_formed big (PolygonScope_add id shape c fill type layer).
Proof.
  intros (Hpos & Hf & Hv) Hlt (Hr & Hg & Hb & Ha) Ht Hl. unfold PolygonScope_add. rewrite int_of_size_small by done.
  set (f := if fill then 1 else 0). assert (0 <= f <= 255) as Hfill by (unfold f; destruct fill; lia).
  apply well_formed_intro; cbn [set_content].
  - apply Forall_app. split; [|by apply valid_points].
    repeat (apply Forall_cons_2; [cbn [valid_write]; first [assumption | split; done | lia]|]); apply Forall_nil_2.
  - pose proof (value_of_polygon shape Hpos Hf) as Hp. rewrite (proj2 (Nat.ltb_lt _ _)) in Hp by done.
    pose proof (value_of_compound_writes
      [[wUnsignedByte libsumo.TYPE_STRING; wString type];
       [wUnsignedByte libsumo.TYPE_COLOR; wUnsignedByte (color_r c); wUnsignedByte (color_g c);
        wUnsignedByte (color_b c); wUnsignedByte (color_a c)];
       [wUnsignedByte libsumo.TYPE_UBYTE; wUnsignedByte f];
       [wUnsignedByte libsumo.TYPE_INTEGER; wInt layer];
       wUnsignedByte libsumo.TYPE_POLYGON :: wUnsignedByte (Z.of_nat (length shape)) :: wPoints shape] ltac:(done)) as H.
    cbn [concat app length] in H |- *. rewrite app_nil_r in H. apply H. clear H.
    repeat apply Forall_cons_2; [..|exact Hp|apply Forall_nil_2]; (apply (value_of_writes 1); [reflexivity|]);
      repeat (apply Forall_cons_2; [cbn [valid_write]; first [assumption | split; done | lia]|]); apply Forall_nil_2.
Qed.

(** *** Programs of traffic lights *)
Definition valid_phase (p : TraCIPhase) : Prop :=
  d_valid (duration p) /\ fits_string (phase_state p) /\ d_valid (minDur p) /\ d_valid (maxDur p) /\
  fits (next p) /\ Forall (fun n => - 2 ^ 31 <= n < 2 ^ 31) (next p) /\ fits_string (phase_name p).
Definition valid_logic (l : TraCILogic) : Prop :=
  fits_string (programID l) /\ - 2 ^ 31 <= logic_type l < 2 ^ 31 /\ - 2 ^ 31 <= currentPhaseIndex l < 2 ^ 31 /\
  fits (phases l) /\ Forall valid_phase (phases l) /\
  fits (subParameter l) /\ om_wf (subParameter l) /\ Forall (fun p => fits_string p.1 /\ fits_string p.2) (subParameter l).

Ltac valid_writes :=
  repeat (apply Forall_cons_2; [cbn [valid_write]; first [assumption | split; done | lia]|]);
  first [apply Forall_nil_2 | idtac].

Lemma valid_concat {A} (f : A -> list write) l : (forall x, x ∈ l -> Forall valid_write (f x)) ->
  Forall valid_write (concat (f <$> l)).
Proof.
  induction l as [|x l IH]; intros H; [apply Forall_nil_2|]. cbn [fmap list_fmap concat]. apply Forall_app.
  split; [apply H; set_solver|apply IH; set_solver].
Qed.
Lemma valid_wPhase p : valid_phase p -> Forall valid_write (wPhase p).
Proof.
  intros (? & ? & ? & ? & Hf & Hn & ?). unfold wPhase. unfold fits in Hf. rewrite int_of_size_small by done.
  repeat (apply Forall_app; split); [valid_writes| |valid_writes].
  apply valid_concat. intros n Hin. rewrite Forall_forall in Hn. specialize (Hn n Hin). valid_writes.
Qed.
Lemma valid_wLogic l : valid_logic l -> Forall valid_write (wLogic l).
Proof.
  intros (? & ? & ? & Hf & Hp & Hf' & _ & Hs). unfold wLogic. unfold fits in *. rewrite !int_of_size_small by done.
  rewrite Forall_forall in Hp. rewrite Forall_forall in Hs.
  repeat (apply Forall_app; split); [valid_writes| |valid_writes|].
  - apply valid_concat. intros p Hin. by apply valid_wPhase, Hp.
  - apply valid_concat. intros p Hin. destruct (Hs p Hin). unfold wParameter. valid_writes.
Qed.

Lemma value_of_phase p : valid_phase p -> value_bytes (wire_writes (wPhase p)).
Proof.
  intros (? & ? & ? & ? & Hf & Hn & ?).
  pose proof (value_of_compound_writes ((fun n => [wUnsignedByte libsumo.TYPE_INTEGER; wInt n]) <$> next p)) as Hnext.
  unfold fits in Hf, Hnext. rewrite length_fmap in Hnext. specialize (Hnext Hf).
  pose proof (value_of_compound_writes
    [[wUnsignedByte libsumo.TYPE_DOUBLE; wDouble (duration p)]; [wUnsignedByte libsumo.TYPE_STRING; wString (phase_state p)];
     [wUnsignedByte libsumo.TYPE_DOUBLE; wDouble (minDur p)]; [wUnsignedByte libsumo.TYPE_DOUBLE; wDouble (maxDur p)];
     wUnsignedByte libsumo.TYPE_COMPOUND :: wInt (Z.of_nat (length (next p))) ::
       concat ((fun n => [wUnsignedByte libsumo.TYPE_INTEGER; wInt n]) <$> next p);
     [wUnsignedByte libsumo.TYPE_STRING; wString (phase_name p)]] ltac:(done)) as H'.
  unfold wPhase. rewrite int_of_size_small by done. apply H'. clear H'.
  repeat apply Forall_cons_2; try (apply (value_of_writes 1); [reflexivity|valid_writes]); [|apply Forall_nil_2].
  apply Hnext. apply Forall_fmap. eapply Forall_impl; [exact Hn|]. intros n Hr.
  apply (value_of_writes 1); [reflexivity|valid_writes].
Qed.

Lemma value_of_logic l : valid_logic l -> value_bytes (wire_writes (wLogic l)).
Proof.
  intros (? & ? & ? & Hf & Hp & Hf' & _ & Hs). unfold fits in Hf, Hf'.
  pose proof (value_of_compound_writes (wPhase <$> phases l)) as Hphases.
  pose proof (value_of_compound_writes (wParameter <$> subParameter l)) as Hpars.
  unfold fits in Hphases, Hpars. rewrite length_fmap in Hphases. rewrite length_fmap in Hpars. specialize (Hphases Hf). specialize (Hpars Hf').
  pose proof (value_of_compound_writes
    [[wUnsignedByte libsumo.TYPE_STRING; wString (programID l)]; [wUnsignedByte libsumo.TYPE_INTEGER; wInt (logic_type l)];
     [wUnsignedByte libsumo.TYPE_INTEGER; wInt (currentPhaseIndex l)];
     wUnsignedByte libsumo.TYPE_COMPOUND :: wInt (Z.of_nat (length (phases l))) :: concat (wPhase <$> phases l);
     wUnsignedByte libsumo.TYPE_COMPOUND :: wInt (Z.of_nat (length (subParameter l))) ::
       concat (wParameter <$> subParameter l)] ltac:(done)) as H'.
  unfold wLogic. rewrite !int_of_size_small by done. cbn [concat app length] in H' |- *. rewrite app_nil_r in H'.
  apply H'. clear H'.
  repeat apply Forall_cons_2; try (apply (value_of_writes 1); [reflexivity|valid_writes]); [..|apply Forall_nil_2].
  - apply Hphases. apply Forall_fmap. eapply Forall_impl; [exact Hp|]. apply value_of_phase.
  - apply Hpars. apply Forall_fmap. eapply Forall_impl; [exact Hs|]. intros [k v] [Hk Hv]. cbn [fst snd] in *.
    unfold compose, wParameter. apply (value_of_strings [k; v]); [done|]. by repeat constructor.
Qed.

Lemma logic_well_formed id l : valid_logic l ->
  well_formed big (TrafficLightScope_setCompleteRedYellowGreenDefinition id l).
Proof. intros H. apply well_formed_intro; [by apply valid_wLogic|by apply value_of_logic]. Qed.
End Irregular.

(** ** Reading programs back *)
Section ReadBack.
Variable big : bool.

Lemma reads_typed {A} (read : Storage -> res (A * Storage)) t bytes x : reads read bytes x -> reads (readTyped read) (t :: bytes) x.
Proof.
  intros H. unfold readTyped. change (t :: bytes) with ([t] ++ bytes).
  exact (reads_bind readUnsignedByte (fun _ s => read s) _ _ _ _ (reads_unsigned_byte t) H).
Qed.
Lemma reads_counted {A} (read : Storage -> res (A * Storage)) (wire : A -> list Z) l :
  fits l -> Forall (fun x => reads read (wire x) x) l ->
  reads (readCounted big read) (be_bytes 4 (u32 (Z.of_nat (length l))) ++ concat (wire <$> l)) l.
Proof.
  unfold fits. intros Hf Hl. unfold readCounted.
  apply (reads_bind (readInt big) (fun n s => read_list read (Z.to_nat n) s) _ _ (Z.of_nat (length l)));
    [apply reads_int; lia|]. rewrite Nat2Z.id. by apply reads_list.
Qed.

Lemma wire_concat {A} (f : A -> list write) l : wire_writes (concat (f <$> l)) = concat ((fun x => wire_writes (f x)) <$> l).
Proof. induction l as [|x l IH]; [done|]. cbn [fmap list_fmap concat]. by rewrite wire_writes_app, IH. Qed.

(** A tag and a value, then the rest. *)
Lemma reads_write {A B} (read : Storage -> res (A * Storage)) (next : A -> Storage -> res (B * Storage)) t w ws x y :
  reads read (wire_write w) x -> reads (next x) (wire_writes ws) y ->
  reads (fun s => '(x, s) ← readTyped read s; next x s) (wire_writes (wUnsignedByte t :: w :: ws)) y.
Proof. intros Hr Hn. exact (reads_bind (readTyped read) next _ _ _ _ (reads_typed read t _ _ Hr) Hn). Qed.
Lemma reads_write_counted {A B} (read : Storage -> res (A * Storage)) (next : list A -> Storage -> res (B * Storage))
    (f : A -> list write) t l ws y :
  fits l -> Forall (fun x => reads read (wire_writes (f x)) x) l -> reads (next l) (wire_writes ws) y ->
  reads (fun s => '(x, s) ← readTyped (readCounted big read) s; next x s)
    (wire_writes (wUnsignedByte t :: wInt (Z.of_nat (length l)) :: concat (f <$> l) ++ ws)) y.
Proof.
  intros Hf Hl Hn. rewrite !wire_writes_cons, wire_writes_app, wire_concat. cbn [wire_write]. rewrite !app_assoc.
  apply (reads_bind (readTyped (readCounted big read)) next _ _ l); [|done]. rewrite <- !app_assoc. cbn [app].
  by apply reads_typed, (reads_counted _ (fun x => wire_writes (f x))).
Qed.
Lemma reads_end {A} (x : A) : reads (fun s => Ok (x, s)) (wire_writes []) x.
Proof. exact (reads_ret x). Qed.

Lemma reads_phase p : valid_phase p -> reads (readPhase big) (wire_writes (wPhase p)) p.
Proof.
  destruct p as [du st mi ma ne na]. intros (? & ? & ? & ? & Hf & Hn & ?).
  cbn [duration phase_state minDur maxDur next phase_name] in *.
  unfold wPhase. cbn [duration phase_state minDur maxDur next phase_name]. rewrite int_of_size_small by done. cbn [app].
  unfold readPhase. apply (reads_write (readInt big) _ _ _ _ 6); [apply reads_int; lia|].
  eapply reads_write; [by apply reads_double|]. eapply reads_write; [by apply reads_string|].
  eapply reads_write; [by apply reads_double|]. eapply reads_write; [by apply reads_double|].
  apply reads_write_counted; [done| |].
  - eapply Forall_impl; [exact Hn|]. intros n Hr. exact (reads_typed _ _ _ _ (reads_int big n Hr)).
  - eapply reads_write; [by apply reads_string|]. apply reads_end.
Qed.

Lemma reads_parameter p : fits_string p.1 /\ fits_string p.2 -> reads (readParameter big) (wire_writes (wParameter p)) p.
Proof.
  destruct p as [k v]. cbn [fst snd]. intros [Hk Hv].
  pose proof (reads_reserved_list big (readString big) wire_string [k; v] ltac:(cbn; lia)
    ltac:(repeat (apply Forall_cons_2; [by apply reads_string|]); apply Forall_nil_2)) as H.
  cbn [length fmap list_fmap concat] in H. apply (reads_typed _ libsumo.TYPE_STRINGLIST) in H.
  pose proof (reads_bind _ (fun par s => match par with key :: value :: _ => Ok (key, value, s)
    | _ => Fail (Undefined "parameter without key and value") end) _ [] _ (k, v) H (reads_ret (k, v))) as H'.
  rewrite app_nil_r in H'. exact H'.
Qed.

Lemma reads_logic l : valid_logic l -> reads (readLogic big) (wire_writes (wLogic l)) l.
Proof.
  destruct l as [id ty ix ph pa]. intros (? & ? & ? & Hf & Hp & Hf' & Hwf & Hs).
  cbn [programID logic_type currentPhaseIndex phases subParameter] in *.
  unfold wLogic. cbn [programID logic_type currentPhaseIndex phases subParameter].
  rewrite !int_of_size_small by done. cbn [app].
  unfold readLogic. apply (reads_write (readInt big) _ _ _ _ 5); [apply reads_int; lia|].
  eapply reads_write; [by apply reads_string|]. eapply reads_write; [by apply reads_int|].
  eapply reads_write; [by apply reads_int|]. apply reads_write_counted; [done| |].
  - eapply Forall_impl; [exact Hp|]. apply reads_phase.
  - rewrite <- (app_nil_r (concat _)). apply reads_write_counted; [done| |].
    + eapply Forall_impl; [exact Hs|]. apply reads_parameter.
    + rewrite om_of_list by done. apply reads_end.
Qed.

Lemma reads_logics logics : fits logics -> Forall valid_logic logics ->
  reads (readCounted big (readLogic big))
    (be_bytes 4 (u32 (Z.of_nat (length logics))) ++ concat ((fun l => wire_writes (wLogic l)) <$> logics)) logics.
Proof.
  intros Hf Hl. apply (reads_counted _ (fun l => wire_writes (wLogic l))); [done|].
  eapply Forall_impl; [exact Hl|]. apply reads_logic.
Qed.
End ReadBack.

(** The simulator's answer with programs of traffic lights, each in the form in which a
    client sets it. *)
Definition wire_logics (logics : list TraCILogic) : list Z :=
  be_bytes 4 (u32 (Z.of_nat (length logics))) ++ concat ((fun l => wire_writes (wLogic l)) <$> logics).
Definition program_reply (tlsID desc : string) (value : list Z) : list Z :=
  value_reply libsumo.CMD_GET_TL_VARIABLE libsumo.TL_COMPLETE_DEFINITION_RYG tlsID desc libsumo.TYPE_COMPOUND value.
Definition program_command (tlsID : string) : list Z :=
  wire_command libsumo.CMD_GET_TL_VARIABLE libsumo.TL_COMPLETE_DEFINITION_RYG tlsID [].

(** [C17] Programs of traffic lights survive the way to the simulator and back: the
    setting's content is one complete value, and when the simulator answers with programs
    in that form, the getter returns exactly these programs - phases with their successors
    and names, parameters in the order of the map - and leaves the rest of the stream
    alone, whatever the byte orders of both hosts and the sizes of the pieces. *)
Theorem traffic_light_program_roundtrip big piece sent tlsID desc logics rest c o d :
  flowing piece -> flowing sent -> fits logics -> Forall valid_logic logics ->
  fits_reply tlsID desc (wire_logics logics) ->
  connected c (framed (program_reply tlsID desc (wire_logics logics)) ++ rest) o d ->
  (exists c', TrafficLightScope_getCompleteRedYellowGreenDefinition big piece sent tlsID c = Done logics c' /\
     connected c' rest (o ++ framed (program_command tlsID)) d) /\
  forall other, Forall (fun l =>
    let x := TrafficLightScope_setCompleteRedYellowGreenDefinition tlsID l in
    well_formed other x /\ run_writes other (set_content x) = Ok (mkStorage (wire_writes (wLogic l)) 0)) logics.
Proof.
  intros Hp Hs Hf Hl Hfit Hc. split.
  - destruct (get_value_bytes big piece sent Hp Hs (readCounted big (readLogic big)) [] logics libsumo.TYPE_COMPOUND
      libsumo.CMD_GET_TL_VARIABLE libsumo.TL_COMPLETE_DEFINITION_RYG tlsID None desc libsumo.TYPE_COMPOUND
      (wire_logics logics) c o d rest) as (c' & Hc' & Hg); try done.
    + destruct Hfit. unfold fits_command. cbn [add_bytes length]. lia.
    + intros _. exact (reads_logics big logics Hf Hl).
    + exists c'. by split.
  - intros other. eapply Forall_impl; [exact Hl|]. intros l Hv. split; [by apply logic_well_formed|].
    by apply run_writes_wire, valid_wLogic.
Qed.

(** ** Settings on their way *)
Section Requests.
Variable big : bool.
Variable piece sent : nat -> transfer.
Hypothesis Hpiece : flowing piece.
Hypothesis Hsent : flowing sent.

Definition fits_setting (x : setting) : Prop := fits_command (set_id x) (wire_writes (set_content x)).
Definition coded (x : setting) : Prop := 0 <= set_cmd x <= 239 /\ 0 <= set_var x <= 255.

Lemma set_spec x c type desc rest o d :
  written big x -> coded x -> fits_setting x -> Z.of_nat (String.length desc) <= 248 ->
  connected c (framed (wire_status (set_cmd x) type desc) ++ rest) o d ->
  exists c', connected c' rest
      (o ++ framed (wire_command (set_cmd x) (set_var x) (set_id x) (wire_writes (set_content x)))) d /\
    set big piece sent x c = if type =? RTYPE_OK then Done tt c' else Throws (status_fault type desc) c'.
Proof.
  intros Hw [Hcmd Hvar] Hf Hd Hc. unfold set. set (bytes := wire_writes (set_content x)) in *.
  rewrite (bind_done _ _ _ _ _ (local_ok _ _ _ Hw)).
  pose proof (createCommand_wire big (set_cmd x) (set_var x) (set_id x) (Some (mkStorage bytes 0)) ltac:(lia) Hvar eq_refl Hf)
    as Hcr. rewrite (bind_done _ _ _ _ _ (local_ok _ _ _ Hcr)).
  destruct (processSet_spec big piece sent Hpiece Hsent c o d rest
    (mkStorage (wire_command (set_cmd x) (set_var x) (set_id x) bytes) 0) (set_cmd x) type desc Hc Hd) as (c' & Hc' & Hp).
  exists c'. split; [exact Hc'|]. destruct (type =? RTYPE_OK).
  - by rewrite (bind_done _ _ _ _ _ Hp).
  - by rewrite (bind_throws _ _ _ _ _ Hp).
Qed.
End Requests.

Section AllSettings.
Variables (s : nat -> string) (v : nat -> double) (n b u : nat -> Z) (c : color) (l : list string)
  (shape : list (double * double)) (logic : TraCILogic) (fill : bool).

Definition chosen (r : res setting) : list setting := match r with Ok x => [x] | Fail _ => [] end.
(** The settings whose content depends on what is set, and the parameters of objects. *)
Definition irregular_settings : list setting :=
  [EdgeScope_adaptTraveltime (s 1) (v 1) (v 2) (v 3); EdgeScope_setEffort (s 1) (v 1) (v 2) (v 3);
   LaneScope_setAllowed (s 1) l; LaneScope_setDisallowed (s 1) l; VehicleScope_setRoute (s 1) l;
   VehicleScope_setVia (s 1) l; VehicleScope_openGap (s 1) (v 1) (v 2) (v 3) (v 4);
   VehicleScope_add_at (s 1) (s 2) (s 3) (s 4) (s 5) (s 6) (s 7) (s 8) (s 9) (s 10) (s 11) (s 12) (s 13) (n 1) (n 2);
   PolygonScope_setShape (s 1) shape; PolygonScope_add (s 1) shape c fill (s 2) (n 1);
   TrafficLightScope_setCompleteRedYellowGreenDefinition (s 1) logic].
Definition stage_settings : list setting :=
  chosen (PersonScope_appendWaitingStage (s 1) (v 1) (s 2) (s 3)) ++
  chosen (PersonScope_appendWalkingStage (s 1) l (v 2) (v 1) (v 3) (s 2)).
Definition settings : list setting :=
  regular_settings (s 1) (s 2) (s 3) (s 4) (v 1) (v 2) (v 3) (v 4) (v 5) (n 1) (n 2) (b 1) (b 2) (u 1) c l ++
  parameter_settings (s 1) (s 2) (s 3) ++ irregular_settings ++ stage_settings.
(** Every method that sends a setting command. *)
Definition all_settings : list setting := EdgeScope_setMaxSpeed (s 1) (v 1) :: settings.

(** Arguments within the widths of their types; a polygon has one to 255 points. *)
Definition valid_arguments : Prop :=
  (forall i, fits_string (s i)) /\ (forall i, d_valid (v i)) /\ (forall i, - 2 ^ 31 <= n i < 2 ^ 31) /\
  (forall i, -128 <= b i <= 127) /\ (forall i, 0 <= u i <= 255) /\ valid_color c /\ fits l /\ Forall fits_string l /\
  valid_shape shape /\ (length shape < 256)%nat /\ valid_logic logic.

Lemma settings_well_formed big : valid_arguments -> Forall (well_formed big) settings.
Proof.
  intros (Hs & Hv & Hn & Hb & Hu & Hc & Hl & Hl' & Hshape & Hlt & Hlogic). unfold settings. apply Forall_app. split.
  { apply regular_well_formed; [..|done|done]; repeat (apply Forall_cons_2; [done|]); apply Forall_nil_2. }
  apply Forall_app. split.
  { apply (parameters_well_formed _ _ _ (s 1)). by repeat apply Forall_cons_2. }
  apply Forall_app. split.
  - unfold irregular_settings. repeat apply Forall_cons_2; [..|apply Forall_nil_2].
    1-2: by eapply from_to_well_formed.
    1-4: by eapply (strings_well_formed _ l).
    + apply openGap_well_formed. by repeat apply Forall_cons_2.
    + apply add_at_well_formed; by repeat apply Forall_cons_2.
    + by apply setShape_well_formed.
    + by apply add_polygon_well_formed.
    + by apply logic_well_formed.
  - unfold stage_settings. apply Forall_app. split.
    + destruct (PersonScope_appendWaitingStage _ _ _ _) eqn:E; [|apply Forall_nil_2].
      apply Forall_cons_2; [|apply Forall_nil_2]. eapply (stages_well_formed big (s 1) (v 1) (v 2) (v 3) (s 2) (s 3) l); eauto.
    + destruct (PersonScope_appendWalkingStage _ _ _ _ _ _) eqn:E; [|apply Forall_nil_2].
      apply Forall_cons_2; [|apply Forall_nil_2]. eapply (stages_well_formed big (s 1) (v 1) (v 2) (v 3) (s 2) (s 2) l); eauto.
Qed.
Lemma all_settings_written big : valid_arguments -> Forall (written big) all_settings.
Proof.
  intros Ha. apply Forall_cons_2.
  - apply run_writes_wire. apply Forall_cons_2; [apply Ha|apply Forall_nil_2].
  - eapply Forall_impl; [by apply settings_well_formed|]. by intros x [].
Qed.
Lemma all_settings_coded : Forall coded all_settings.
Proof.
  assert (forall r : res setting, (forall x, r = Ok x -> coded x) -> Forall coded (chosen r)) as Hch.
  { intros [x|] H; [|apply Forall_nil_2]. apply Forall_cons_2; [by apply H|apply Forall_nil_2]. }
  unfold all_settings, settings. apply Forall_cons_2; [split; vm_compute; split; congruence|].
  repeat (apply Forall_app; split).
  - unfold regular_settings. repeat (apply Forall_cons_2; [split; vm_compute; split; congruence|]). apply Forall_nil_2.
  - unfold parameter_settings. repeat (apply Forall_cons_2; [split; vm_compute; split; congruence|]). apply Forall_nil_2.
  - unfold irregular_settings. repeat (apply Forall_cons_2; [split; vm_compute; split; congruence|]). apply Forall_nil_2.
  - apply Hch. unfold PersonScope_appendWaitingStage. intros x. destruct (d_to_int _); [|done]. cbn [mbind res_bind].
    intros H. apply Ok_inj in H as <-. split; vm_compute; split; congruence.
  - apply Hch. unfold PersonScope_appendWalkingStage. intros x. destruct (d_to_int _); [|done]. cbn [mbind res_bind].
    intros H. apply Ok_inj in H as <-. split; vm_compute; split; congruence.
Qed.
End AllSettings.

(** [C16] What a client sets arrives, for every method that sends a setting command (those
    of the scopes, the parameters of the objects of twelve scopes, and the command of
    [rerouteTraveltime]): the method writes its content, the call sends exactly the command
    with the object and the very bytes of that content, and it returns when the simulator
    accepts or throws the exception for its status.  For all of them but the maximum speed
    of an edge, which lacks its type, these bytes are one complete value in the grammar of
    values, types in front, counts and nesting right, with nothing behind it. *)
Theorem settings_reach_simulator s v n b u col l shape logic fill x big piece sent c type desc rest o d :
  flowing piece -> flowing sent -> valid_arguments s v n b u col l shape logic ->
  x ∈ all_settings s v n b u col l shape logic fill -> fits_setting x -> Z.of_nat (String.length desc) <= 248 ->
  connected c (framed (wire_status (set_cmd x) type desc) ++ rest) o d ->
  let bytes := wire_writes (set_content x) in
  run_writes big (set_content x) = Ok (mkStorage bytes 0) /\
  (exists c',
    connected c' rest (o ++ framed (wire_command (set_cmd x) (set_var x) (set_id x) bytes)) d /\
    set big piece sent x c = if type =? RTYPE_OK then Done tt c' else Throws (status_fault type desc) c') /\
  (x <> EdgeScope_setMaxSpeed (s 1%nat) (v 1%nat) ->
    value_bytes bytes /\ exists fuel, skip_value fuel bytes = Some []).
Proof.
  intros Hp Hs Ha Hx Hfit Hd Hc. cbv zeta.
  pose proof (proj1 (Forall_forall _ _) (all_settings_written s v n b u col l shape logic fill big Ha) x Hx) as Hw.
  pose proof (proj1 (Forall_forall _ _) (all_settings_coded s v n b u col l shape logic fill) x Hx) as Hcode.
  split; [exact Hw|]. split; [by apply set_spec|]. intros Hne.
  apply elem_of_cons in Hx as [->|Hx]; [done|].
  destruct (proj1 (Forall_forall _ _) (settings_well_formed s v n b u col l shape logic fill big Ha) x Hx) as (_ & Hb & Hk).
  by split.
Qed.

(** ** Witnesses and behaviours at the edges *)
Definition ex_phase : TraCIPhase := mkPhase (d_of_Z 42) "GGrr" (d_of_Z 5) (d_of_Z 60) [1; 0] "north".
Definition ex_logic : TraCILogic := mkLogic "my_program" 0 1 [ex_phase; ex_phase] [("a", "1"); ("b", "2")].
Lemma ex_phase_valid : valid_phase ex_phase.
Proof.
  unfold valid_phase, fits, fits_string, d_valid. split_and!; [concrete..| |concrete].
  repeat apply Forall_cons_2; [cbn; lia|cbn; lia|apply Forall_nil_2].
Qed.
Lemma ex_logic_valid : valid_logic ex_logic.
Proof.
  unfold valid_logic, fits, fits_string. split_and!; [concrete..| |concrete| |].
  - repeat apply Forall_cons_2; [apply ex_phase_valid|apply ex_phase_valid|apply Forall_nil_2].
  - apply om_wf_cons. split; [|apply om_wf_cons; split; [set_solver|apply om_wf_nil]].
    intros k Hk. cbn in Hk. apply list_elem_of_singleton in Hk as ->. reflexivity.
  - repeat apply Forall_cons_2; [..|apply Forall_nil_2]; split; concrete.
Qed.
Definition ex_programs : list Z := program_reply "junction" "" (wire_logics [ex_logic; ex_logic]).

Lemma traffic_light_program_roundtrip_witness :
  exists c', TrafficLightScope_getCompleteRedYellowGreenDefinition false ex_pieces ex_pieces "junction"
    (ex_connected (framed ex_programs ++ [])) = Done [ex_logic; ex_logic] c'.
Proof.
  destruct (traffic_light_program_roundtrip false ex_pieces ex_pieces "junction" "" [ex_logic; ex_logic] []
    (ex_connected (framed ex_programs ++ [])) [] (myDomains TraCIAPI_create)) as [(c' & H & _) _].
  - exact (fun n => ex_intro _ 2%nat eq_refl).
  - exact (fun n => ex_intro _ 2%nat eq_refl).
  - concrete.
  - exact (Forall_cons_2 _ _ _ ex_logic_valid (Forall_cons_2 _ _ _ ex_logic_valid (Forall_nil_2 _))).
  - split; concrete.
  - by exists 0%nat, 0%nat.
  - exists c'. exact H.
Defined.

Definition ex_shape : list (double * double) := [(d_zero, d_zero); (d_of_Z 10, d_of_Z 5)].
Lemma ex_arguments_valid : valid_arguments (fun _ => "veh0") (fun _ => d_of_Z 13) (fun _ => 1) (fun _ => 1) (fun _ => 2)
  (mkColor 255 0 0 255) ["e1"; "e2"] ex_shape ex_logic.
Proof.
  unfold valid_arguments, valid_shape. split; [intros; concrete|]. split; [intros; concrete|]. split; [intros; lia|].
  split; [intros; lia|]. split; [intros; lia|]. split; [unfold valid_color; cbn; lia|]. split; [concrete|].
  split; [repeat apply Forall_cons_2; [concrete|concrete|apply Forall_nil_2]|].
  split; [|split; [cbn; lia|apply ex_logic_valid]]. split; [cbn; lia|]. split; [concrete|].
  repeat apply Forall_cons_2; [split; concrete|split; concrete|apply Forall_nil_2].
Qed.
Definition ex_setting : setting := VehicleScope_setSpeed "veh0" (d_of_Z 13).

Lemma settings_reach_simulator_witness :
  exists c', set false ex_pieces ex_pieces ex_setting (ex_connected (framed (wire_status 0xc4 RTYPE_OK "") ++ [])) = Done tt c'.
Proof.
  destruct (settings_reach_simulator (fun _ => "veh0") (fun _ => d_of_Z 13) (fun _ => 1) (fun _ => 1) (fun _ => 2)
    (mkColor 255 0 0 255) ["e1"; "e2"] ex_shape ex_logic true ex_setting false ex_pieces ex_pieces
    (ex_connected (framed (wire_status 0xc4 RTYPE_OK "") ++ [])) RTYPE_OK "" [] [] (myDomains TraCIAPI_create))
    as [_ [(c' & _ & H) _]].
  - exact (fun n => ex_intro _ 2%nat eq_refl).
  - exact (fun n => ex_intro _ 2%nat eq_refl).
  - exact ex_arguments_valid.
  - apply list_elem_of_further. unfold settings, regular_settings. apply elem_of_app. left. repeat first [apply list_elem_of_here|apply list_elem_of_further].
  - concrete.
  - cbn. lia.
  - by exists 0%nat, 0%nat.
  - exists c'. exact H.
Defined.

(** The maximum speed of an edge lacks its type: its first byte is taken for one. *)
Example edge_speed_malformed :
  run_writes false (set_content (EdgeScope_setMaxSpeed "e1" (d_of_Z 13))) = Ok (mkStorage [64; 42; 0; 0; 0; 0; 0; 0] 0) /\
  forall fuel, skip_value fuel [64; 42; 0; 0; 0; 0; 0; 0] = None.
Proof. split; [vm_compute; reflexivity|]. by intros [|fuel]. Qed.
(** The length of an empty shape is the mark of the long form, whose count is missing. *)
Example empty_shape_malformed :
  run_writes false (set_content (PolygonScope_setShape "p" [])) = Ok (mkStorage [libsumo.TYPE_POLYGON; 0] 0) /\
  forall fuel, skip_value fuel [libsumo.TYPE_POLYGON; 0] = None.
Proof. split; [vm_compute; reflexivity|]. by intros [|fuel]. Qed.
(** A new polygon has its number of points in one byte; a new shape may have more. *)
Example large_polygon_refused :
  run_writes false (set_content (PolygonScope_add "p" (replicate 256 (d_zero, d_zero)) (mkColor 0 0 0 0) true "t" 0)) =
    Fail (invalid_argument "Storage::writeUnsignedByte()") /\
  exists bytes, run_writes false (set_content (PolygonScope_setShape "p" (replicate 256 (d_zero, d_zero)))) =
    Ok (mkStorage bytes 0).
Proof. split; [vm_compute; reflexivity|eexists; vm_compute; reflexivity]. Qed.
Example number_of_settings : length (all_settings (fun _ => "") (fun _ => d_zero) (fun _ => 0) (fun _ => 0) (fun _ => 0)
  (mkColor 0 0 0 0) [] [] ex_logic true) = 107%nat.
Proof. vm_compute. reflexivity. Qed.
