(* ===== verification/EventSet.v ===== *)
(** * The future event set

    OMNeT++ keeps the scheduled events of a simulation in a [cFutureEventSet]; the
    real-time schedulers under [src/src/artery/] take them from it and insert into it
    what arrives from outside.  The event set itself is not part of the sources: the
    schedulers are modelled against the interface below, whose laws are the documented
    behaviour of the kernel's event heap, and are run with a list. *)

From S2P Require Import Prelude.

(** An event is identified by the order of its creation (its address); it is stale when
    the module it is for has been deleted. *)
Record cEvent {B : Type} := mkEvent {
  ev_id : nat;
  getArrivalTime : simtime;
  isStale : bool;
  ev_body : B
}.
Arguments cEvent : clear implicits.
Arguments mkEvent {B} ev_id getArrivalTime isStale ev_body.
Arguments ev_id {B}.
Arguments getArrivalTime {B}.
Arguments isStale {B}.
Arguments ev_body {B}.

Class FutureEventSet (F B : Type) := {
  peekFirst : F -> option (cEvent B);
  removeFirst : F -> option (cEvent B) * F;
  putBackFirst : cEvent B -> F -> F;
  fes_insert : cEvent B -> F -> F;
  fes_remove : nat -> F -> F;
  getLength : F -> nat;
  (** the events in the order in which they would be removed *)
  events : F -> list (cEvent B)
}.
#[global] Hint Mode FutureEventSet ! - : typeclass_instances.

(** Events leave in the order of their arrival times; among events of the same time the
    position of an inserted one is left open (it depends on priorities). *)
Class FutureEventSetLaws (F B : Type) `{!FutureEventSet F B} := {
  peekFirst_head (f : F) : peekFirst f = head (events f);
  removeFirst_head (f : F) : (removeFirst f).1 = head (events f);
  removeFirst_tail (f : F) : events (removeFirst f).2 = tail (events f);
  putBackFirst_cons e (f : F) : events (putBackFirst e f) = e :: events f;
  fes_insert_place e (f : F) : exists l1 l2, events f = l1 ++ l2 /\ events (fes_insert e f) = l1 ++ e :: l2 /\
    Forall (fun x => getArrivalTime x <= getArrivalTime e) l1 /\
    Forall (fun x => getArrivalTime e <= getArrivalTime x) (take 1 l2);
  fes_remove_filter i (f : F) : events (fes_remove i f) = filter (fun e => ev_id e <> i) (events f);
  getLength_length (f : F) : getLength f = length (events f)
}.

(** ** A list as event set *)
Section ListEvents.
Context {B : Type}.

Fixpoint list_insert (e : cEvent B) (l : list (cEvent B)) : list (cEvent B) :=
  match l with
  | [] => [e]
  | x :: l' => if getArrivalTime e <? getArrivalTime x then e :: l else x :: list_insert e l'
  end.

#[export] Instance list_events : FutureEventSet (list (cEvent B)) B := {
  peekFirst := head;
  removeFirst l := (head l, tail l);
  putBackFirst e l := e :: l;
  fes_insert := list_insert;
  fes_remove i l := filter (fun e => ev_id e <> i) l;
  getLength := length;
  events l := l
}.

#[export] Instance list_events_laws : FutureEventSetLaws (list (cEvent B)) B.
Proof.
  split; try done. intros e f. cbn. induction f as [|x f IH]; cbn.
  - exists [], []. by repeat constructor.
  - destruct (Z.ltb_spec (getArrivalTime e) (getArrivalTime x)) as [H|H].
    + exists [], (x :: f). repeat split; repeat constructor. lia.
    + destruct IH as (l1 & l2 & -> & -> & H1 & H2). exists (x :: l1), l2.
      repeat split; [|exact H2]. by constructor.
Qed.
End ListEvents.

(** ** Events that are not stale *)
Section Live.
Context {F B : Type} `{!FutureEventSet F B} `{!FutureEventSetLaws F B}.

Definition live (f : F) : list (cEvent B) := filter (fun e => isStale e = false) (events f).

Definition sorted_events (f : F) : Prop :=
  StronglySorted (fun x y => getArrivalTime x <= getArrivalTime y) (events f).

Lemma live_cons_stale (f : F) e : head (events f) = Some e -> isStale e = true ->
  live (removeFirst f).2 = live f.
Proof.
  unfold live. rewrite removeFirst_tail. destruct (events f) as [|x l]; [done|]. cbn [head tail].
  intros [= ->] Hs. rewrite filter_cons_False by (by rewrite Hs). done.
Qed.

Lemma live_insert e (f : F) : isStale e = false -> exists l1 l2,
  live f = l1 ++ l2 /\ live (fes_insert e f) = l1 ++ e :: l2 /\
  Forall (fun x => getArrivalTime x <= getArrivalTime e) l1.
Proof.
  intros He. destruct (fes_insert_place e f) as (l1 & l2 & Hf & Hi & H1 & _).
  exists (filter (fun e => isStale e = false) l1), (filter (fun e => isStale e = false) l2).
  unfold live. rewrite Hf, Hi, !filter_app, filter_cons_True by done. repeat split.
  apply Forall_forall. intros x [_ Hx]%list_elem_of_filter. by eapply Forall_forall in H1.
Qed.

Lemma live_elem e (f : F) : e ∈ live f <-> isStale e = false /\ e ∈ events f.
Proof. unfold live. by rewrite list_elem_of_filter. Qed.

Lemma elem_of_insert e x (f : F) : x ∈ events (fes_insert e f) <-> x = e \/ x ∈ events f.
Proof.
  destruct (fes_insert_place e f) as (l1 & l2 & -> & -> & _). set_solver.
Qed.

Lemma sorted_tail (f : F) : sorted_events f -> sorted_events (removeFirst f).2.
Proof.
  unfold sorted_events. rewrite removeFirst_tail. destruct (events f); [done|].
  by intros [H _]%StronglySorted_inv.
Qed.

Lemma sorted_insert e (f : F) : sorted_events f -> sorted_events (fes_insert e f).
Proof.
  unfold sorted_events. destruct (fes_insert_place e f) as (l1 & l2 & -> & -> & H1 & H2).
  induction l1 as [|x l1 IH]; cbn [app].
  - intros Hs. constructor; [done|]. destruct l2 as [|y l2]; [constructor|].
    apply Forall_cons in H2 as [Hy _]. apply StronglySorted_inv in Hs as [_ Hs].
    constructor; [done|]. eapply Forall_impl; [exact Hs|]. cbn. lia.
  - intros [Hs Hx]%StronglySorted_inv. apply Forall_cons in H1 as [He H1].
    constructor; [by apply IH|]. apply Forall_app in Hx as [Hx1 Hx2]. apply Forall_app. split; [done|].
    by constructor.
Qed.

(** The first live event is a minimum of the live ones. *)
Lemma live_head_least (f : F) e : sorted_events f -> head (live f) = Some e ->
  Forall (fun x => getArrivalTime e <= getArrivalTime x) (live f).
Proof.
  unfold sorted_events, live. intros Hs. induction (events f) as [|x l IH]; [done|].
  apply StronglySorted_inv in Hs as [Hs Hx]. destruct (isStale x) eqn:Ex.
  - rewrite !filter_cons_False by (by rewrite Ex). by apply IH.
  - rewrite !filter_cons_True by done. cbn. intros [= <-]. constructor; [lia|].
    apply Forall_forall. intros y [_ Hy]%list_elem_of_filter. by eapply Forall_forall in Hx.
Qed.
End Live.
