(* ===== verification/Runtime.v ===== *)
(** * Runtime: timed callbacks on the simulation clock

    [src/src/artery/networking/Runtime.cc] over [vanetza::ManualRuntime]
    ([src/extern/vanetza/vanetza/common/manual_runtime.cpp]): the protocol stack
    schedules callbacks at TAI time points, and one self-message of the simulation
    kernel wakes the runtime for the earliest of them.  Callbacks run inside
    [trigger] and call the runtime again, so processing is a machine with a stack of
    unfinished calls ([frame]); [steps] runs it. *)

From S2P Require Import Prelude Timer.

(** [Clock::time_point::max()] *)
Definition time_point_max : time_point := 2 ^ 63 - 1.

Section Runtime.
(** Callbacks, and the state they act on. *)
Context {C W : Type}.

(** What a callback asks of the runtime. *)
Inductive rt_call :=
| ScheduleAt (tp : time_point) (cb : C) (scope : option nat)
| ScheduleIn (d : Z) (cb : C) (scope : option nat)
| Cancel (scope : option nat)
| Now.

(** The calls a callback makes, given its deadline, the runtime's time and the
    simulation time. *)
Variable invoke : C -> time_point -> time_point -> simtime -> W -> list rt_call * W.

(** ** vanetza::ManualRuntime *)
Record ScheduledCallback := mkScheduled {
  deadline : time_point;
  callback : C;
  scope : option nat  (** [None]: null pointer *)
}.

Record ManualRuntime := mkManual {
  m_now : time_point;
  m_queue : list ScheduledCallback
}.

(** The ordered, non-unique index inserts behind equal deadlines. *)
Fixpoint emplace (x : ScheduledCallback) (q : list ScheduledCallback) : list ScheduledCallback :=
  match q with
  | [] => [x]
  | y :: q' => if deadline x <? deadline y then x :: q else y :: emplace x q'
  end.

Definition mr_schedule (x : ScheduledCallback) (r : ManualRuntime) : ManualRuntime :=
  mkManual (m_now r) (emplace x (m_queue r)).
Definition mr_cancel (s : option nat) (r : ManualRuntime) : ManualRuntime :=
  match s with
  | Some _ => mkManual (m_now r) (filter (fun x => scope x <> s) (m_queue r))
  | None => r
  end.
Definition next (r : ManualRuntime) : time_point :=
  match m_queue r with x :: _ => deadline x | [] => time_point_max end.

(** ** artery::Runtime *)
Record Runtime := mkRuntime {
  mTimer : Timer;
  mRuntime : ManualRuntime;
  mUpdateEvent : option simtime;  (** when it is scheduled *)
  mLastUpdate : simtime;
  world : W;
  invoked : list (C * time_point)  (** callbacks run so far, with their deadlines *)
}.

Definition set_manual (r : ManualRuntime) (s : Runtime) : Runtime :=
  mkRuntime (mTimer s) r (mUpdateEvent s) (mLastUpdate s) (world s) (invoked s).

Definition rt_initialize (timebase : time_point) (now : simtime) (w : W) : Runtime :=
  let timer := setTimebase timebase in
  mkRuntime timer (mkManual (getCurrentTime timer now) []) None now w [].

Definition convertSimTime (now : simtime) (tp : time_point) (s : Runtime) : simtime :=
  let d := tp - m_now (mRuntime s) in
  SIMTIME_US (inUnit_US now + d).

(** Unfinished calls: the loop of [trigger], the rest of a callback, the loop of
    [Runtime::schedule]. *)
Inductive frame := FTrigger | FCalls (calls : list rt_call) | FSchedule.

Definition trigger_at (tp : time_point) (s : Runtime) : res Runtime :=
  assert_ "tp >= m_now" (m_now (mRuntime s) <=? tp) ;;
  Ok (set_manual (mkManual tp (m_queue (mRuntime s))) s).

(** [update]: the loop of [trigger] is left to do. *)
Definition rt_update (now : simtime) (s : Runtime) : res Runtime :=
  let s := mkRuntime (mTimer s) (mRuntime s) (mUpdateEvent s) now (world s) (invoked s) in
  trigger_at (getCurrentTime (mTimer s) now) s.

(** The kernel's [scheduleAt] refuses the past. *)
Definition scheduleAt (now t : simtime) (s : Runtime) : res Runtime :=
  if t <? now then Fail (RuntimeError "scheduling in the past")
  else Ok (mkRuntime (mTimer s) (mRuntime s) (Some t) (mLastUpdate s) (world s) (invoked s)).

Definition rt_call_step (now : simtime) (c : rt_call) (s : Runtime) : res (Runtime * list frame) :=
  match c with
  | ScheduleAt tp cb sc =>
      Ok (set_manual (mr_schedule (mkScheduled tp cb sc) (mRuntime s)) s, [FSchedule])
  | ScheduleIn d cb sc =>
      Ok (set_manual (mr_schedule (mkScheduled (m_now (mRuntime s) + d) cb sc) (mRuntime s)) s,
          [FSchedule])
  | Cancel sc => Ok (set_manual (mr_cancel sc (mRuntime s)) s, [FSchedule])
  | Now =>
      if mLastUpdate s =? now then Ok (s, [])
      else
        assert_ "convertSimTime(mRuntime.next()) > simTime()"
          (now <? convertSimTime now (next (mRuntime s)) s) ;;
        s ← rt_update now s;
        Ok (s, [FTrigger])
  end.

(** The loop of [trigger], one callback at a time; [k] is the stack with the loop on
    top, [k'] the one without. *)
Definition trigger_step (now : simtime) (k k' : list frame) (s : Runtime) : list frame * Runtime :=
  match m_queue (mRuntime s) with
  | top :: q =>
      if deadline top <=? m_now (mRuntime s) then
        let '(calls, w) := invoke (callback top) (deadline top) (m_now (mRuntime s)) now (world s) in
        (FCalls calls :: k,
         mkRuntime (mTimer s) (mkManual (m_now (mRuntime s)) q) (mUpdateEvent s) (mLastUpdate s) w
           (invoked s ++ [(callback top, deadline top)]))
      else (k', s)
  | [] => (k', s)
  end.

(** The loop of [Runtime::schedule]. *)
Definition schedule_step (now : simtime) (k k' : list frame) (s : Runtime) : res (list frame * Runtime) :=
  let next_event := next (mRuntime s) in
  if next_event <? time_point_max then
    if m_now (mRuntime s) <? next_event then
      s ← scheduleAt now (convertSimTime now next_event s) s;
      Ok (k', s)
    else
      s ← trigger_at (m_now (mRuntime s)) s;
      Ok (FTrigger :: k, s)
  else Ok (k', s).

Definition step (now : simtime) (k : list frame) (s : Runtime) : res (list frame * Runtime) :=
  match k with
  | [] => Ok ([], s)
  | FTrigger :: k' => Ok (trigger_step now k k' s)
  | FCalls [] :: k' => Ok (k', s)
  | FCalls (c :: calls) :: k' =>
      r ← rt_call_step now c s;
      let '(s, frames) := r : Runtime * list frame in
      Ok (frames ++ FCalls calls :: k', s)
  | FSchedule :: k' => schedule_step now k k' s
  end.

(** Runs the machine until the stack is as high as it was before; [None]: out of
    fuel. *)
Fixpoint steps (fuel : nat) (now : simtime) (k : list frame) (s : Runtime) : option (res Runtime) :=
  match k with
  | [] => Some (Ok s)
  | _ =>
      match fuel with
      | O => None
      | S fuel' =>
          match step now k s with
          | Ok (k', s') => steps fuel' now k' s'
          | Fail f => Some (Fail f)
          end
      end
  end.

Lemma steps_mono n m now k s x :
  (n <= m)%nat -> steps n now k s = Some x -> steps m now k s = Some x.
Proof.
  revert m k s. induction n as [|n IH]; intros m k s Hle.
  - destruct k; [|done]. by destruct m.
  - destruct m as [|m]; [lia|]. destruct k; [done|]. cbn [steps].
    destruct (step _ _ _) as [[k' s']|]; [|done]. apply IH. lia.
Qed.

(** ** Entry points *)
Definition rt_handleMessage (fuel : nat) (now : simtime) (update_event : bool) (s : Runtime) :
    option (res Runtime) :=
  if update_event then
    (* a delivered message is not scheduled any more *)
    let s := mkRuntime (mTimer s) (mRuntime s) None (mLastUpdate s) (world s) (invoked s) in
    match rt_update now s with
    | Ok s => steps fuel now [FTrigger; FSchedule] s
    | Fail f => Some (Fail f)
    end
  else Some (Ok s).

(** A call from outside: [schedule], [cancel] or [now]. *)
Definition rt_call_outside (fuel : nat) (now : simtime) (c : rt_call) (s : Runtime) :
    option (res Runtime) := steps fuel now [FCalls [c]] s.

(** ** Processing terminates *)
(** A call that schedules nothing for the present. *)
Definition later (now : time_point) (c : rt_call) : Prop :=
  match c with
  | ScheduleAt tp _ _ => now < tp < time_point_max
  | ScheduleIn d _ _ => 0 < d /\ now + d < time_point_max
  | Cancel _ | Now => True
  end.
Definition is_cancel (c : rt_call) : bool := match c with Cancel _ => true | _ => false end.

(** Callbacks schedule later callbacks only; what they do depends on nothing else. *)
Hypothesis later_only : forall c dl now T w calls w',
  invoke c dl now T w = (calls, w') -> Forall (later now) calls.

(** The entries whose time has come. *)
Definition is_due (r : ManualRuntime) (x : ScheduledCallback) : Prop := deadline x <= m_now r.
#[local] Instance is_due_dec r x : Decision (is_due r x).
Proof. unfold is_due. apply _. Defined.
Definition due (r : ManualRuntime) : list (C * time_point) :=
  (fun x => (callback x, deadline x)) <$> filter (is_due r) (m_queue r).

Definition queue_sorted (q : list ScheduledCallback) : Prop :=
  StronglySorted (fun x y => deadline x <= deadline y) q.

(** The runtime knows the present time. *)
Record rt_synced (timer : Timer) (now : simtime) (s : Runtime) : Prop := {
  syn_timer : mTimer s = timer;
  syn_now : m_now (mRuntime s) = getCurrentTime timer now;
  syn_update : mLastUpdate s = now;
  syn_sorted : queue_sorted (m_queue (mRuntime s));
  syn_bound : Forall (fun x => deadline x < time_point_max) (m_queue (mRuntime s))
}.

Lemma elem_of_emplace x y q : y ∈ emplace x q <-> y = x \/ y ∈ q.
Proof.
  induction q as [|z q IH]; cbn [emplace]; [rewrite elem_of_cons; tauto|].
  destruct (deadline x <? deadline z); rewrite !elem_of_cons, ?IH; tauto.
Qed.

Lemma emplace_sorted x q : queue_sorted q -> queue_sorted (emplace x q).
Proof.
  induction 1 as [|y q Hq IH Hy]; cbn [emplace]; [repeat constructor|].
  destruct (Z.ltb_spec (deadline x) (deadline y)).
  - constructor; [by constructor|]. constructor; [lia|].
    eapply Forall_impl; [exact Hy|]. cbn. intros z Hz. lia.
  - constructor; [exact IH|]. apply Forall_forall. intros z [->|Hz]%elem_of_emplace; [lia|].
    rewrite Forall_forall in Hy. by apply Hy.
Qed.

Lemma filter_emplace (P : ScheduledCallback -> Prop) `{!forall x, Decision (P x)} x q :
  ~ P x -> filter P (emplace x q) = filter P q.
Proof.
  intros Hx. induction q as [|y q IH]; cbn [emplace]; [by rewrite filter_cons_False|].
  destruct (deadline x <? deadline y); [by rewrite filter_cons_False|].
  rewrite !filter_cons. by rewrite IH.
Qed.

Lemma queue_sorted_filter (P : ScheduledCallback -> Prop) `{!forall x, Decision (P x)} q :
  queue_sorted q -> queue_sorted (filter P q).
Proof.
  induction 1 as [|y q Hq IH Hy]; [constructor|]. rewrite filter_cons. case_decide; [|done].
  constructor; [done|]. apply Forall_forall. intros z [_ Hz]%list_elem_of_filter.
  rewrite Forall_forall in Hy. by apply Hy.
Qed.

(** Without due entries the first one is later, and conversely. *)
Lemma due_nil r : queue_sorted (m_queue r) ->
  due r = [] <-> match m_queue r with x :: _ => m_now r < deadline x | [] => True end.
Proof.
  unfold due. intros Hs. destruct Hs as [|x q Hq Hx]; [done|]. rewrite filter_cons. split.
  - case_decide as Hd; [done|]. unfold is_due in Hd. lia.
  - intros Hlt. rewrite decide_False by (unfold is_due; lia).
    replace (filter (is_due r) q) with (@nil ScheduledCallback); [done|]. symmetry.
    induction q as [|y q IH]; [done|]. inversion_clear Hx. inversion_clear Hq.
    rewrite filter_cons_False by (unfold is_due; lia). by apply IH.
Qed.

(** No callback cancels. *)
Definition no_cancel : Prop :=
  forall c dl m T w, Forall (fun x => is_cancel x = false) (invoke c dl m T w).1.

(** Between two states: the callbacks run are due ones in the order of their
    deadlines, and what is still due was due before; under [keep] nothing due is
    dropped. *)
Definition progress (keep : Prop) (timer : Timer) (now : simtime) (s s' : Runtime) : Prop :=
  rt_synced timer now s' /\
  exists l, invoked s' = invoked s ++ l /\
    (l ++ due (mRuntime s')) `sublist_of` due (mRuntime s) /\
    (keep -> l ++ due (mRuntime s') = due (mRuntime s)).

Lemma progress_refl keep timer now s : rt_synced timer now s -> progress keep timer now s s.
Proof. intros Hs. split; [done|]. exists []. by rewrite app_nil_r. Qed.

Lemma progress_trans keep timer now s1 s2 s3 :
  progress keep timer now s1 s2 -> progress keep timer now s2 s3 -> progress keep timer now s1 s3.
Proof.
  intros [_ (l1 & Hi1 & Hs1 & He1)] [H3 (l2 & Hi2 & Hs2 & He2)]. split; [done|].
  exists (l1 ++ l2). rewrite Hi2, Hi1, <- !app_assoc. split; [done|]. split.
  - etrans; [|exact Hs1]. by apply sublist_app.
  - intros Hk. by rewrite He2, He1.
Qed.

Lemma progress_weaken (keep keep' : Prop) timer now s s' :
  (keep' -> keep) -> progress keep timer now s s' -> progress keep' timer now s s'.
Proof. intros Hk [H (l & Hi & Hs & He)]. split; [done|]. exists l. auto. Qed.

Lemma progress_length keep timer now s s' :
  progress keep timer now s s' -> (length (due (mRuntime s')) <= length (due (mRuntime s)))%nat.
Proof. intros [_ (l & _ & Hs%sublist_length & _)]. rewrite length_app in Hs. lia. Qed.

(** Small steps of the machine. *)
Definition mstep (now : simtime) (x y : list frame * Runtime) : Prop :=
  x.1 <> [] /\ step now x.1 x.2 = Ok y.

Lemma steps_rtc now x y : rtc (mstep now) x y -> y.1 = [] ->
  exists fuel, forall m, (fuel <= m)%nat -> steps m now x.1 x.2 = Some (Ok y.2).
Proof.
  induction 1 as [[k s]|[k s] [k' s'] y [Hne Hst] _ IH]; intros Hy.
  - cbn in Hy. subst k. exists 0%nat. intros [|m] _; done.
  - destruct (IH Hy) as [f Hf]. exists (S f). intros [|m] Hm; [lia|]. cbn in *.
    destruct k as [|fr k]; [done|]. cbn [steps]. rewrite Hst. apply Hf. lia.
Qed.

Lemma getTimeFor_scheduleAt timer now tp s :
  0 <= now -> rt_synced timer now s -> m_now (mRuntime s) < tp ->
  scheduleAt now (convertSimTime now tp s) s =
    Ok (mkRuntime (mTimer s) (mRuntime s) (Some (getSimTimeFor timer tp)) (mLastUpdate s) (world s)
          (invoked s)).
Proof.
  intros Hn Hs Hlt. unfold scheduleAt, convertSimTime. rewrite (syn_now _ _ _ Hs) in *.
  unfold getCurrentTime, getTimeFor, getSimTimeFor, SIMTIME_US, inUnit_US in *.
  pose proof (Z.quot_pos now (10 ^ 6) ltac:(lia) ltac:(lia)).
  pose proof (Z.quot_rem' now (10 ^ 6)). pose proof (Z.rem_bound_pos now (10 ^ 6) ltac:(lia) ltac:(lia)).
  destruct (Z.ltb_spec (tp - mTimebase timer) 0); [lia|].
  destruct (Z.ltb_spec ((Z.quot now (10 ^ 6) + (tp - (mTimebase timer + Z.quot now (10 ^ 6)))) * 10 ^ 6) now);
    [lia|].
  do 3 f_equal. lia.
Qed.

(** The update event is set for the earliest entry. *)
Definition event_set (timer : Timer) (s : Runtime) : Prop :=
  match m_queue (mRuntime s) with
  | x :: _ => mUpdateEvent s = Some (getSimTimeFor timer (deadline x))
  | [] => True
  end.

Section Synced.
Context (timer : Timer) (now : simtime) (Hnow : 0 <= now).
Abbreviation prog := (progress no_cancel timer now).

Definition trigger_ends (d : nat) : Prop := forall s k,
  rt_synced timer now s -> (length (due (mRuntime s)) <= d)%nat ->
  exists s', rtc (mstep now) (FTrigger :: k, s) (k, s') /\ prog s s' /\ due (mRuntime s') = [].

Lemma schedule_ends d s k :
  trigger_ends d -> rt_synced timer now s -> (length (due (mRuntime s)) <= d)%nat ->
  exists s', rtc (mstep now) (FSchedule :: k, s) (k, s') /\ prog s s' /\ due (mRuntime s') = [] /\
    event_set timer s'.
Proof.
  intros Htr Hs Hd.
  assert (forall t, rt_synced timer now t -> due (mRuntime t) = [] ->
    exists s', rtc (mstep now) (FSchedule :: k, t) (k, s') /\ prog t s' /\ due (mRuntime s') = [] /\
      event_set timer s') as Hlast.
  { intros t Ht Hno. pose proof (proj1 (due_nil _ (syn_sorted _ _ _ Ht)) Hno) as Hhd.
    pose proof (syn_bound _ _ _ Ht) as Hb. destruct (m_queue (mRuntime t)) as [|x q] eqn:Hq.
    - exists t. split; [apply rtc_once; split; [done|]; cbn; unfold schedule_step, next; rewrite Hq; done|].
      split; [by apply progress_refl|]. split; [done|]. unfold event_set. by rewrite Hq.
    - inversion_clear Hb as [|? ? Hx _].
      exists (mkRuntime (mTimer t) (mRuntime t) (Some (getSimTimeFor timer (deadline x))) (mLastUpdate t)
        (world t) (invoked t)).
      split; [|split; [|split; [done|by unfold event_set; cbn; rewrite Hq]]].
      + apply rtc_once. split; [done|]. cbn [fst snd step]; unfold trigger_step, schedule_step. unfold next. rewrite Hq.
        destruct (Z.ltb_spec (deadline x) time_point_max); [|lia].
        destruct (Z.ltb_spec (m_now (mRuntime t)) (deadline x)); [|lia].
        by rewrite (getTimeFor_scheduleAt timer now (deadline x) t Hnow Ht).
      + split; [destruct Ht; by split|]. exists []. cbn. by rewrite app_nil_r. }
  destruct (due (mRuntime s)) as [|y l] eqn:Hdue; [by apply Hlast|].
  destruct (Htr s (FSchedule :: k) Hs) as (s1 & H1 & P1 & N1); [by rewrite Hdue|].
  destruct (Hlast s1 (proj1 P1) N1) as (s2 & H2 & P2 & N2 & E2).
  exists s2. split; [|split; [by eapply progress_trans|done]].
  eapply rtc_l; [|etrans; [exact H1|exact H2]]. split; [done|]. cbn [fst snd step]; unfold trigger_step, schedule_step.
  destruct (m_queue (mRuntime s)) as [|x q] eqn:Hq.
  { unfold due in Hdue. by rewrite Hq in Hdue. }
  pose proof (syn_sorted _ _ _ Hs) as Hso. pose proof (syn_bound _ _ _ Hs) as Hb. rewrite Hq in Hb.
  inversion_clear Hb as [|? ? Hx _]. unfold next. rewrite Hq.
  destruct (Z.ltb_spec (deadline x) time_point_max); [|lia].
  destruct (Z.ltb_spec (m_now (mRuntime s)) (deadline x)) as [Hlt|Hle].
  - assert (due (mRuntime s) = []) as Hno by (apply due_nil; [done|]; by rewrite Hq). congruence.
  - unfold trigger_at. rewrite Z.leb_refl. cbn. rewrite Hq. do 3 f_equal.
    unfold set_manual. destruct s as [? [] ? ? ? ?]; cbn in *. by subst.
Qed.

(** A call changes the queue but not what is due, unless it cancels. *)
Lemma call_progress c s :
  rt_synced timer now s -> later (m_now (mRuntime s)) c ->
  exists s' frames, rt_call_step now c s = Ok (s', frames) /\
    progress (is_cancel c = false) timer now s s' /\
    frames = match c with Now => [] | _ => [FSchedule] end.
Proof.
  intros Hs Hc. assert (forall x, m_now (mRuntime s) < deadline x < time_point_max ->
    progress True timer now s (set_manual (mr_schedule x (mRuntime s)) s)) as Hadd.
  { intros x Hx. split; [split; try apply Hs|].
    - cbn. apply emplace_sorted, Hs.
    - cbn. apply Forall_forall. intros y [->|Hy]%elem_of_emplace; [lia|].
      by apply (proj1 (Forall_forall _ _) (syn_bound _ _ _ Hs)).
    - exists []. rewrite app_nil_r.
      assert (due (mRuntime (set_manual (mr_schedule x (mRuntime s)) s)) = due (mRuntime s)) as ->; [|done].
      unfold due. cbn. f_equal. apply (filter_emplace (is_due (mRuntime s))). unfold is_due. lia. }
  destruct c as [tp cb sc|d cb sc|sc|]; cbn [rt_call_step].
  - eexists _, _. split; [reflexivity|]. split; [|done].
    eapply progress_weaken; [|apply Hadd]; [done|exact Hc].
  - eexists _, _. split; [reflexivity|]. split; [|done].
    eapply progress_weaken; [|apply Hadd]; [done|]. cbn in *. lia.
  - eexists _, _. split; [reflexivity|]. split; [|done]. unfold mr_cancel. destruct sc as [x|].
    2: { assert (set_manual (mRuntime s) s = s) as -> by (by destruct s). by apply progress_refl. }
    split; [split; try apply Hs|].
    + cbn. apply queue_sorted_filter, Hs.
    + cbn. apply Forall_forall. intros y [_ Hy]%list_elem_of_filter.
      by apply (proj1 (Forall_forall _ _) (syn_bound _ _ _ Hs)).
    + exists []. rewrite app_nil_r. split; [done|]. split; [|done]. cbn. unfold due. cbn.
      set (P := fun y => scope y <> Some x). change (filter (is_due _) (filter P (m_queue (mRuntime s)))) with
        (filter (is_due (mRuntime s)) (filter P (m_queue (mRuntime s)))).
      clear Hs. induction (m_queue (mRuntime s)) as [|y q IH]; [constructor|]. rewrite filter_cons.
      destruct (decide (P y)); rewrite !filter_cons; destruct (decide (is_due (mRuntime s) y)); cbn;
        by first [apply IH|apply sublist_skip, IH|apply sublist_cons, IH].
  - rewrite (syn_update _ _ _ Hs), Z.eqb_refl. eexists _, _. split; [reflexivity|]. split; [|done].
    by apply progress_refl.
Qed.

Lemma calls_end d l s k :
  trigger_ends d -> rt_synced timer now s -> (length (due (mRuntime s)) <= d)%nat ->
  Forall (later (m_now (mRuntime s))) l ->
  exists s', rtc (mstep now) (FCalls l :: k, s) (k, s') /\
    progress (no_cancel /\ Forall (fun x => is_cancel x = false) l) timer now s s'.
Proof.
  intros Htr. revert s. induction l as [|c l IH]; intros s Hs Hd Hl.
  - exists s. split; [by apply rtc_once|by apply progress_refl].
  - inversion_clear Hl as [|? ? Hc Hl'].
    destruct (call_progress c s Hs Hc) as (s1 & fr & H1 & P1 & Hfr).
    assert (exists s2, rtc (mstep now) (fr ++ FCalls l :: k, s1) (FCalls l :: k, s2) /\ prog s1 s2)
      as (s2 & H2 & P2).
    { destruct (schedule_ends d s1 (FCalls l :: k) Htr (proj1 P1)) as (s2 & H2 & P2 & _).
      { pose proof (progress_length _ _ _ _ _ P1). lia. }
      destruct c; subst fr; [by exists s2..|].
      exists s1. split; [done|by apply progress_refl, P1]. }
    assert (progress (no_cancel /\ is_cancel c = false) timer now s s2) as P12.
    { eapply progress_trans; [eapply progress_weaken; [|exact P1]|eapply progress_weaken; [|exact P2]]; tauto. }
    destruct (IH s2 (proj1 P2)) as (s3 & H3 & P3).
    { pose proof (progress_length _ _ _ _ _ P12). lia. }
    { rewrite (syn_now _ _ _ (proj1 P2)), <- (syn_now _ _ _ Hs). exact Hl'. }
    exists s3. split.
    + eapply rtc_l; [|etrans; [exact H2|exact H3]]. split; [done|]. cbn [fst snd step]; unfold trigger_step, schedule_step. by rewrite H1.
    + eapply progress_trans; [eapply progress_weaken; [|exact P12]|eapply progress_weaken; [|exact P3]];
        rewrite Forall_cons; tauto.
Qed.

Lemma trigger_terminates d : trigger_ends d.
Proof.
  induction d as [d IH] using lt_wf_ind. intros s k Hs Hd.
  destruct (m_queue (mRuntime s)) as [|x q] eqn:Hq.
  { exists s. split; [apply rtc_once; split; [done|]; cbn; unfold trigger_step; by rewrite Hq|]. split; [by apply progress_refl|].
    unfold due. by rewrite Hq. }
  pose proof (syn_sorted _ _ _ Hs) as Hso. pose proof (syn_bound _ _ _ Hs) as Hb. rewrite Hq in Hb.
  destruct (Z.leb_spec (deadline x) (m_now (mRuntime s))) as [Hle|Hlt].
  2: { exists s. split; [apply rtc_once; split; [done|]; cbn; unfold trigger_step; rewrite Hq|].
       - destruct (Z.leb_spec (deadline x) (m_now (mRuntime s))); [lia|done].
       - split; [by apply progress_refl|]. apply due_nil; [done|]. by rewrite Hq. }
  destruct (invoke (callback x) (deadline x) (m_now (mRuntime s)) now (world s)) as [calls w] eqn:Hinv.
  set (s1 := mkRuntime (mTimer s) (mkManual (m_now (mRuntime s)) q) (mUpdateEvent s) (mLastUpdate s) w
    (invoked s ++ [(callback x, deadline x)])).
  assert (due (mRuntime s) = (callback x, deadline x) :: due (mRuntime s1)) as Hdue.
  { unfold due. rewrite Hq. by rewrite filter_cons_True. }
  assert (rt_synced timer now s1) as Hs1.
  { split; cbn; try apply Hs; rewrite Hq in Hso; [by inversion Hso|by inversion Hb]. }
  assert (prog s s1) as P1.
  { split; [done|]. exists [(callback x, deadline x)]. split; [done|]. by rewrite Hdue. }
  rewrite Hdue in Hd. cbn [length] in Hd.
  assert (Forall (later (m_now (mRuntime s1))) calls) as Hl by (eapply later_only; exact Hinv).
  destruct (calls_end (length (due (mRuntime s1))) calls s1 (FTrigger :: k)) as (s2 & H2 & P2);
    [apply IH; lia|done|done|done|].
  assert (prog s s2) as P12.
  { eapply progress_trans; [exact P1|]. eapply progress_weaken; [|exact P2]. intros Hno. split; [done|].
    pose proof (Hno (callback x) (deadline x) (m_now (mRuntime s)) now (world s)) as H. by rewrite Hinv in H. }
  pose proof (progress_length _ _ _ _ _ P2) as Hlen.
  destruct (IH (length (due (mRuntime s1))) ltac:(lia) s2 k (proj1 P2) Hlen) as (s3 & H3 & P3 & N3).
  exists s3. split; [|split; [by eapply progress_trans|done]].
  eapply rtc_l; [|etrans; [exact H2|exact H3]]. split; [done|]. cbn [fst snd step]; unfold trigger_step, schedule_step. rewrite Hq.
  destruct (Z.leb_spec (deadline x) (m_now (mRuntime s))); [|lia]. by rewrite Hinv.
Qed.
End Synced.

(** Between two entries: nothing is due at the runtime's time, and the update event
    is set for the earliest entry. *)
Record rt_wf (timer : Timer) (s : Runtime) : Prop := {
  wf_timer : mTimer s = timer;
  wf_sorted : queue_sorted (m_queue (mRuntime s));
  wf_bound : Forall (fun x => deadline x < time_point_max) (m_queue (mRuntime s));
  wf_base : mTimebase timer <= m_now (mRuntime s);
  wf_later : due (mRuntime s) = [];
  wf_event : event_set timer s
}.

Lemma synced_wf timer now s :
  0 <= now -> rt_synced timer now s -> due (mRuntime s) = [] -> event_set timer s -> rt_wf timer s.
Proof.
  intros Hn [Ht Hm Hu Hs Hb] Hd He. split; try done. rewrite Hm. unfold getCurrentTime, getTimeFor, inUnit_US.
  pose proof (Z.quot_pos now (10 ^ 6) ltac:(lia) ltac:(lia)). lia.
Qed.

(** The kernel's times of entries, against the clock. *)
Lemma current_of_event timer tp now :
  0 <= now -> mTimebase timer <= tp ->
  (getSimTimeFor timer tp = now -> getCurrentTime timer now = tp) /\
  (now < getSimTimeFor timer tp -> getCurrentTime timer now < tp).
Proof.
  intros Hn Hb. unfold getSimTimeFor, getCurrentTime, getTimeFor, SIMTIME_US, inUnit_US.
  destruct (Z.ltb_spec (tp - mTimebase timer) 0); [lia|].
  pose proof (Z.quot_rem' now (10 ^ 6)). pose proof (Z.rem_bound_pos now (10 ^ 6) ltac:(lia) ltac:(lia)).
  split; [|lia]. intros <-. rewrite Z.quot_mul by lia. lia.
Qed.

(** What updating the clock makes due. *)
Definition advanced (timer : Timer) (now : simtime) (s : Runtime) : ManualRuntime :=
  mkManual (getCurrentTime timer now) (m_queue (mRuntime s)).

Lemma update_synced timer now ev s :
  rt_wf timer s -> m_now (mRuntime s) <= getCurrentTime timer now ->
  exists s0, rt_update now (mkRuntime (mTimer s) (mRuntime s) ev (mLastUpdate s) (world s) (invoked s)) = Ok s0 /\
    rt_synced timer now s0 /\ invoked s0 = invoked s /\ mRuntime s0 = advanced timer now s.
Proof.
  intros [Ht Hs Hb Hba Hl He] Hle. unfold rt_update, trigger_at. cbn. rewrite Ht.
  destruct (Z.leb_spec (m_now (mRuntime s)) (getCurrentTime timer now)); [|lia]. cbn.
  eexists. split; [reflexivity|]. by repeat split.
Qed.

Lemma due_on_time timer now s x :
  0 <= now -> rt_wf timer s -> mUpdateEvent s = Some now -> x ∈ due (advanced timer now s) ->
  x.2 = getCurrentTime timer now.
Proof.
  intros Hn [Ht Hs Hb Hba Hl He] Hev (y & -> & Hy)%list_elem_of_fmap.
  apply list_elem_of_filter in Hy as [Hy Hin]. unfold is_due, advanced in Hy. cbn in Hy |- *. cbn in Hin.
  apply due_nil in Hl; [|done]. unfold event_set in He.
  destruct (m_queue (mRuntime s)) as [|z q]; [by apply not_elem_of_nil in Hin|].
  assert (getCurrentTime timer now = deadline z) as Hz.
  { apply (current_of_event timer (deadline z) now Hn); [lia|]. congruence. }
  inversion_clear Hs as [|? ? Hq Hf]. apply elem_of_cons in Hin as [->|Hin]; [lia|].
  rewrite Forall_forall in Hf. specialize (Hf _ Hin). lia.
Qed.

(** [C28] The runtime serves its callbacks on time and always returns, provided that
    callbacks and callers schedule for later only.  When the update message arrives,
    processing ends after finitely many steps, however callbacks schedule and cancel
    others while they run; every callback that was run has exactly the present time as its
    deadline, callbacks run in the order of their deadlines, and all due ones run
    unless one is cancelled by another.  Afterwards nothing due is left and the
    update message is scheduled for the earliest remaining deadline.  A call from
    outside at the runtime's own time returns as well, runs nothing and leaves the
    same. *)
Theorem runtime_on_time timer now s :
  0 <= now -> rt_wf timer s -> m_now (mRuntime s) <= getCurrentTime timer now ->
  (mUpdateEvent s = Some now ->
     exists fuel s' l,
       (forall m, (fuel <= m)%nat -> rt_handleMessage m now true s = Some (Ok s')) /\
       rt_wf timer s' /\ m_now (mRuntime s') = getCurrentTime timer now /\
       invoked s' = invoked s ++ l /\ l `sublist_of` due (advanced timer now s) /\
       (no_cancel -> l = due (advanced timer now s)) /\
       (forall x, x ∈ l -> x.2 = getCurrentTime timer now)) /\
  (forall c, rt_synced timer now s -> later (m_now (mRuntime s)) c ->
     exists fuel s',
       (forall m, (fuel <= m)%nat -> rt_call_outside m now c s = Some (Ok s')) /\
       rt_wf timer s' /\ m_now (mRuntime s') = getCurrentTime timer now /\ invoked s' = invoked s).
Proof.
  intros Hn Hwf Hle. split.
  - intros Hev. destruct (update_synced timer now None s Hwf Hle) as (s0 & H0 & Hs0 & Hi0 & Hm0).
    destruct (trigger_terminates timer now Hn _ s0 [FSchedule] Hs0 (le_n _)) as (s1 & H1 & P1 & N1).
    destruct (schedule_ends timer now Hn _ s1 [] (trigger_terminates timer now Hn _) (proj1 P1) (le_n _))
      as (s2 & H2 & P2 & N2 & E2).
    destruct (steps_rtc now ([FTrigger; FSchedule], s0) ([], s2)) as [fuel Hf];
      [etrans; [exact H1|exact H2]|done|].
    pose proof (progress_trans _ _ _ _ _ _ P1 P2) as [Hs2 (l & Hl & Hsub & Heq)].
    rewrite N2, app_nil_r, Hm0 in *. exists fuel, s2, l. split.
    { intros m Hm. unfold rt_handleMessage. rewrite H0. by apply Hf. }
    split; [by eapply synced_wf|]. split; [apply Hs2|]. split; [congruence|]. split; [done|]. split; [done|].
    intros x Hx. eapply due_on_time; [done|done|done|]. by eapply sublist_subseteq in Hsub; apply Hsub.
  - intros c Hs Hc. pose proof (wf_later _ _ Hwf) as Hno.
    destruct (call_progress timer now c s Hs Hc) as (s1 & fr & H1 & P1 & Hfr).
    assert (due (mRuntime s1) = []) as N1.
    { destruct P1 as [_ (l & _ & Hsub & _)]. rewrite Hno in Hsub. apply sublist_nil_r in Hsub.
      by apply app_nil in Hsub as [_ ?]. }
    assert (exists s2, rtc (mstep now) (fr ++ [FCalls []], s1) ([FCalls []], s2) /\
      progress True timer now s1 s2 /\ due (mRuntime s2) = [] /\ event_set timer s2) as (s2 & H2 & P2 & N2 & E2).
    { destruct (schedule_ends timer now Hn _ s1 [FCalls []] (trigger_terminates timer now Hn _) (proj1 P1) (le_n _))
        as (s2 & H2 & P2 & N2 & E2).
      assert (progress True timer now s1 s2) as P2'.
      { destruct P2 as [Hs2 (l & Hl & Hsub & _)]. rewrite N1 in *. apply sublist_nil_r in Hsub.
        split; [done|]. exists l. rewrite N1. split; [done|]. split; [by rewrite Hsub|done]. }
      destruct c; subst fr; [by exists s2..|]. exists s1. split; [done|]. split; [by apply progress_refl, P1|].
      split; [done|]. cbn in H1. rewrite (syn_update _ _ _ Hs), Z.eqb_refl in H1. injection H1 as <-. apply Hwf. }
    destruct (steps_rtc now ([FCalls [c]], s) ([], s2)) as [fuel Hf]; [|done|].
    { eapply rtc_l; [|etrans; [exact H2|by apply rtc_once]]. split; [done|]. cbn [fst snd step]; unfold trigger_step, schedule_step.
      by rewrite H1. }
    assert (forall keep a b, progress keep timer now a b -> due (mRuntime a) = [] -> invoked b = invoked a) as Hinv.
    { intros keep a b [_ (l & Hl & Hsub & _)] Ha. rewrite Ha in Hsub. apply sublist_nil_r in Hsub.
      apply app_nil in Hsub as [-> _]. by rewrite app_nil_r in Hl. }
    exists fuel, s2. split; [exact Hf|]. split; [by eapply synced_wf; [|apply P2| |]|].
    split; [apply P2|]. by rewrite (Hinv _ _ _ P2 N1), (Hinv _ _ _ P1 Hno).
Qed.
End Runtime.

(** ** A concrete runtime *)
(** Callback 1 repeats itself every 100 ms and asks for the time; callback 2 cancels
    what has scope 9; others do nothing.  The world counts the invocations. *)
Definition ex_invoke (c : nat) (dl now : time_point) (T : simtime) (w : nat) :
    list (@rt_call nat) * nat :=
  match c with
  | 1%nat => (if now <? 2 ^ 62 then [ScheduleIn 100000 1%nat None; Now] else [Now], S w)
  | 2%nat => ([Cancel (Some 9%nat)], S w)
  | _ => ([], S w)
  end.

Lemma ex_later_only c dl now T w calls w' :
  ex_invoke c dl now T w = (calls, w') -> Forall (later now) calls.
Proof.
  unfold ex_invoke. destruct c as [|[|[|c]]]; intros [= <- _]; repeat constructor.
  destruct (Z.ltb_spec now (2 ^ 62)); repeat constructor. cbn. unfold time_point_max. lia.
Qed.

Definition ex_base : time_point := 500000000000000.
Definition ex_rt (now : simtime) (calls : list (@rt_call nat)) (s : @Runtime nat nat) : @Runtime nat nat :=
  match steps ex_invoke 50 now [FCalls calls] s with Some (Ok s') => s' | _ => s end.

(** At simulation time 0: callback 1 in 100 ms, 2 in 100 ms, 3 in 100 ms with scope 9. *)
Definition ex_runtime : @Runtime nat nat :=
  ex_rt 0 [ScheduleIn 100000 1%nat None; ScheduleIn 100000 2%nat None; ScheduleIn 100000 3%nat (Some 9%nat)]
    (rt_initialize ex_base 0 0%nat).

Lemma ex_runtime_queue :
  m_queue (mRuntime ex_runtime) = [mkScheduled (ex_base + 100000) 1%nat None;
    mkScheduled (ex_base + 100000) 2%nat None; mkScheduled (ex_base + 100000) 3%nat (Some 9%nat)].
Proof. vm_compute. reflexivity. Qed.

Lemma ex_runtime_wf : rt_wf (mkTimer ex_base) ex_runtime.
Proof.
  split.
  - vm_compute. reflexivity.
  - rewrite ex_runtime_queue. repeat constructor; cbn; lia.
  - rewrite ex_runtime_queue. repeat constructor; cbn; lia.
  - vm_compute. discriminate.
  - apply due_nil; rewrite ex_runtime_queue; [repeat constructor; cbn; lia|]. vm_compute. reflexivity.
  - vm_compute. reflexivity.
Qed.

Lemma runtime_on_time_witness :
  exists fuel s', (forall m, (fuel <= m)%nat ->
      rt_handleMessage ex_invoke m (SIMTIME_MS 100) true ex_runtime = Some (Ok s')) /\
    invoked s' = [(1%nat, ex_base + 100000); (2%nat, ex_base + 100000)] /\
    mUpdateEvent s' = Some (SIMTIME_MS 200).
Proof.
  destruct (proj1 (runtime_on_time ex_invoke ex_later_only (mkTimer ex_base) (SIMTIME_MS 100) ex_runtime
    ltac:(vm_compute; discriminate) ex_runtime_wf ltac:(vm_compute; discriminate)) ltac:(vm_compute; reflexivity))
    as (fuel & s' & l & Hf & _).
  exists fuel, s'. split; [exact Hf|].
  assert (rt_handleMessage ex_invoke (max fuel 50) (SIMTIME_MS 100) true ex_runtime = Some (Ok s')) as H
    by (apply Hf; lia).
  assert (exists r, rt_handleMessage ex_invoke 50 (SIMTIME_MS 100) true ex_runtime = Some (Ok r) /\
    invoked r = [(1%nat, ex_base + 100000); (2%nat, ex_base + 100000)] /\
    mUpdateEvent r = Some (SIMTIME_MS 200)) as (r & Hr & Hl)
    by (eexists; split; [vm_compute; reflexivity|split; reflexivity]).
  unfold rt_handleMessage in H, Hr. destruct (rt_update _ _) as [t|]; [|done].
  rewrite (steps_mono ex_invoke 50 (max fuel 50) _ _ _ _ (Nat.le_max_r fuel 50) Hr) in H. by injection H as <-.
Defined.

(** The runtime was updated last at time 0.  At 10 s a callback is requested for the
    15th second: its message is scheduled at 25 s. *)
Example stale_runtime_late :
  mUpdateEvent (ex_rt (SIMTIME_S 10) [ScheduleAt (ex_base + 15000000) 3%nat None]
    (rt_initialize ex_base 0 0%nat)) = Some (SIMTIME_S 25).
Proof. vm_compute. reflexivity. Qed.

(** Asked for the time at the moment of its update event but before it is delivered,
    the runtime runs the callback, and the assertion that excludes this holds. *)
Example now_runs_callbacks :
  invoked (ex_rt (SIMTIME_MS 100) [Now] (ex_rt 0 [ScheduleIn 100000 3%nat None]
    (rt_initialize ex_base 0 0%nat))) = [(3%nat, ex_base + 100000)].
Proof. vm_compute. reflexivity. Qed.
