(* ===== verification/Radio.v ===== *)
(** * Radio drivers and channel load

    [src/src/artery/nic/], [src/src/artery/inet/VanetRx.cc],
    [src/src/artery/inet/InetRadioDriver.cc] and
    [src/src/artery/veins/VeinsRadioDriver.cc]: how the two simulation frameworks'
    radios are attached, and the two ways in which the share of time the medium was
    busy is measured, sample by sample ([ChannelLoadMeasurements]) and by run lengths
    ([VanetRx]). *)

From S2P Require Import Prelude Float64.

(** Samples (symbols) are 8 us long; the load is that of 12500 samples (100 ms). *)
Definition symbolPeriod : simtime := SIMTIME_US 8.
Definition cbrIntervalSamples : nat := Z.to_nat 12500.

(** The number of symbols in a duration: [SimTime]'s quotient, truncated. *)
Definition symbols (d : simtime) : Z := Z.quot d symbolPeriod.

Definition busy_count (l : list bool) : nat := length (List.filter (fun b => b) l).

(** ** ChannelLoadMeasurements: a circular buffer, the newest sample first *)
Record ChannelLoadMeasurements := mkMeasurements {
  m_samples : list bool;
  m_last_update : simtime;
  m_busy : bool
}.

Definition clm_create : ChannelLoadMeasurements := mkMeasurements [] 0 false.
Definition clm_reset (now : simtime) (_ : ChannelLoadMeasurements) : ChannelLoadMeasurements :=
  mkMeasurements [] now false.

(** [push_back] of a full circular buffer drops the oldest element. *)
Definition push_back (b : bool) (l : list bool) : list bool := take cbrIntervalSamples (b :: l).

Definition fill (now : simtime) (busy : bool) (m : ChannelLoadMeasurements) : ChannelLoadMeasurements :=
  let samples := symbols (now - m_last_update m) in
  mkMeasurements (Nat.iter (Z.to_nat samples) (push_back (m_busy m)) (m_samples m)) now busy.

Definition clm_busy (now : simtime) := fill now true.
Definition clm_idle (now : simtime) := fill now false.

(** The load and the measurements after reading it. *)
Definition channel_load (now : simtime) (m : ChannelLoadMeasurements) : double * ChannelLoadMeasurements :=
  let m := fill now (m_busy m) m in
  (ddiv (d_of_Z (Z.of_nat (busy_count (m_samples m)))) (d_of_Z 12500), m).

(** ** VanetRx: run lengths, the most recent first *)
Record VanetRx := mkVanetRx {
  channelLoadSamples : list (Z * bool);
  channelLoadLastUpdate : simtime;
  mediumFree : bool  (** of the reception module it extends *)
}.

Definition vanet_initialize (now : simtime) (free : bool) : VanetRx :=
  mkVanetRx [(12500, false)] now free.

(** [free]: what the reception module computes next. *)
Definition recomputeMediumFree (now : simtime) (free : bool) (s : VanetRx) : VanetRx :=
  let updateDelta := now - channelLoadLastUpdate s in
  if symbolPeriod <=? updateDelta then
    mkVanetRx ((u32 (u64 (symbols updateDelta)), negb (mediumFree s)) :: channelLoadSamples s) now free
  else mkVanetRx (channelLoadSamples s) (channelLoadLastUpdate s) free.

(** The loop over the periods; the counters are [unsigned]. *)
Fixpoint report_loop (l : list (Z * bool)) (samples busy : Z) : Z * list (Z * bool) :=
  match l with
  | [] => (busy, [])
  | (sampleLength, mediumBusy) :: l' =>
      let samples := u32 (samples + sampleLength) in
      if samples <? 12500 then
        let busy := if mediumBusy then u32 (busy + sampleLength) else busy in
        let '(busy, kept) := report_loop l' samples busy in
        (busy, (sampleLength, mediumBusy) :: kept)
      else
        ((if mediumBusy then u32 (busy + u32 (sampleLength - u32 (samples - 12500))) else busy), [])
  end.

(** The reported ratio's numerator; periods that are not needed are erased. *)
Definition report (s : VanetRx) : Z * VanetRx :=
  let '(busy, kept) := report_loop (channelLoadSamples s) 0 0 in
  (busy, mkVanetRx kept (channelLoadLastUpdate s) (mediumFree s)).
Definition reportChannelLoad (s : VanetRx) : double * VanetRx :=
  let '(busy, s) := report s in (ddiv (d_of_Z busy) (d_of_Z 12500), s).

(** ** What the measurements denote *)
Definition expand (l : list (Z * bool)) : list bool :=
  mjoin ((fun p => replicate (Z.to_nat p.1) p.2) <$> l).
Definition total (l : list (Z * bool)) : Z := foldr (fun p n => p.1 + n) 0 l.
(** The last 100 ms of recorded time. *)
Definition window (l : list bool) : list bool := take cbrIntervalSamples l.

(** Lengths that do not make the 32-bit counters wrap. *)
Definition periods_ok (l : list (Z * bool)) : Prop :=
  Forall (fun p => 0 <= p.1 /\ p.1 + 12500 < 2 ^ 32) l.

Lemma expand_cons n b l : expand ((n, b) :: l) = replicate (Z.to_nat n) b ++ expand l.
Proof. done. Qed.

Lemma expand_app l1 l2 : expand (l1 ++ l2) = expand l1 ++ expand l2.
Proof. unfold expand. by rewrite fmap_app, join_app. Qed.

Lemma expand_length l : periods_ok l -> Z.of_nat (length (expand l)) = total l.
Proof.
  induction 1 as [|[n b] l [Hn _] Hl IH]; [done|]. cbn in Hn. rewrite expand_cons, length_app, length_replicate.
  cbn [total foldr fst]. fold (total l). lia.
Qed.

Lemma busy_count_app l1 l2 : busy_count (l1 ++ l2) = (busy_count l1 + busy_count l2)%nat.
Proof. unfold busy_count. by rewrite List.filter_app, length_app. Qed.

Lemma busy_count_replicate n b : busy_count (replicate n b) = if b then n else 0%nat.
Proof. unfold busy_count. by destruct b; induction n as [|n IH]; cbn; rewrite ?IH. Qed.

Lemma busy_count_le l : (busy_count l <= length l)%nat.
Proof. unfold busy_count. induction l as [|[] l IH]; cbn; lia. Qed.

Lemma window_count l : (busy_count (window l) <= cbrIntervalSamples)%nat.
Proof. etrans; [apply busy_count_le|]. unfold window. rewrite length_take. lia. Qed.

Opaque cbrIntervalSamples.
Lemma cbrIntervalSamples_Z : Z.of_nat cbrIntervalSamples = 12500.
Proof. Transparent cbrIntervalSamples. unfold cbrIntervalSamples. lia. Opaque cbrIntervalSamples. Qed.

Lemma report_loop_spec l samples busy :
  periods_ok l -> 0 <= samples < 12500 -> 0 <= busy <= samples ->
  let '(b, kept) := report_loop l samples busy in
  b = busy + Z.of_nat (busy_count (take (Z.to_nat (12500 - samples)) (expand l))) /\
  kept `prefix_of` l /\
  (kept = l \/ total kept < 12500 - samples).
Proof.
  intros Hl. revert samples busy. induction Hl as [|[n m] l [Hn Hw] Hl IH]; intros samples busy Hs Hb.
  - cbn. rewrite take_nil. cbn. split; [lia|]. split; [done|by left].
  - cbn [fst] in Hn, Hw. cbn [report_loop]. rewrite expand_cons.
    rewrite (u32_small (samples + n)) by lia.
    destruct (Z.ltb_spec (samples + n) 12500) as [Hlt|Hge].
    + specialize (IH (samples + n) (if m then u32 (busy + n) else busy) ltac:(lia)).
      assert ((if m then u32 (busy + n) else busy) = busy + if m then n else 0) as Heq
        by (destruct m; [rewrite u32_small|]; lia).
      rewrite Heq in *. specialize (IH ltac:(destruct m; lia)).
      destruct (report_loop l _ _) as [b kept]. destruct IH as (-> & Hpre & Hkept).
      split; [|split].
      * rewrite take_app_ge by (rewrite length_replicate; lia). rewrite length_replicate.
        rewrite busy_count_app, busy_count_replicate.
        replace (Z.to_nat (12500 - samples) - Z.to_nat n)%nat with (Z.to_nat (12500 - (samples + n))) by lia.
        destruct m; lia.
      * by apply prefix_cons.
      * destruct Hkept as [->|Hk]; [by left|right]. cbn [total foldr fst]. fold (total kept). lia.
    + split; [|split].
      * rewrite take_app_le by (rewrite length_replicate; lia).
        rewrite take_replicate, Nat.min_l by lia. rewrite busy_count_replicate.
        destruct m; [|lia]. rewrite (u32_small (samples + n - 12500)) by lia.
        rewrite (u32_small (n - _)) by lia. rewrite u32_small by lia. lia.
      * apply prefix_nil.
      * right. cbn. lia.
Qed.

Lemma window_erased f l kept :
  kept `prefix_of` l -> 12500 <= Z.of_nat (length (expand (f ++ kept))) ->
  window (expand (f ++ kept)) = window (expand (f ++ l)).
Proof.
  intros [k ->] Hlen. rewrite app_assoc, (expand_app (f ++ kept)). unfold window.
  rewrite take_app_le; [done|]. pose proof cbrIntervalSamples_Z. lia.
Qed.

(** The ratio of two small counts is a number between 0 and 1. *)
Definition ratio (n : Z) : double := ddiv (d_of_Z n) (d_of_Z 12500).
Definition unit_interval (x : double) : bool := dleb (d_of_Z 0) x && dleb x (d_of_Z 1).

Lemma ratio_unit n : 0 <= n <= 12500 -> unit_interval (ratio n) = true.
Proof.
  intros Hn. unfold unit_interval. destruct (decide (n = 0)) as [->|Hne]; [done|].
  destruct (at_most_one_compare (ratio n)) as [-> ->]; [|done]. apply d_ratio_at_most_one; lia.
Qed.

(** The load reported for an INET radio is the number of busy symbols among the
    last 12500 recorded ones (100 ms), as long as no period is near 2^32 symbols
    (9.5 hours); it is a ratio between 0 and 1, which the receiving DCC entity
    asserts.  Erasing the periods that reach beyond the window does not change later
    reports once the periods recorded since and the remaining ones fill the window
    again. *)
Theorem reported_load_exact s :
  periods_ok (channelLoadSamples s) ->
  let l := channelLoadSamples s in
  let '(busy, s') := report s in
  busy = Z.of_nat (busy_count (window (expand l))) /\
  (reportChannelLoad s).1 = ratio busy /\ unit_interval (ratio busy) = true /\
  (forall f, periods_ok f -> 12500 <= total (f ++ channelLoadSamples s') ->
     window (expand (f ++ channelLoadSamples s')) = window (expand (f ++ l))).
Proof.
  intros Hok l. unfold reportChannelLoad, report.
  pose proof (report_loop_spec l 0 0 Hok ltac:(lia) ltac:(lia)) as H. fold l.
  destruct (report_loop l 0 0) as [busy kept]. destruct H as (-> & Hpre & _). cbn [channelLoadSamples].
  assert (Z.to_nat (12500 - 0) = cbrIntervalSamples) as -> by (pose proof cbrIntervalSamples_Z; lia).
  rewrite Z.add_0_l. fold (window (expand l)). split; [done|]. split; [done|]. split.
  - apply ratio_unit. pose proof (window_count (expand l)). pose proof cbrIntervalSamples_Z. lia.
  - intros f Hf Htot. apply window_erased; [done|]. rewrite expand_length; [done|].
    apply Forall_app. split; [done|]. destruct Hpre as [k Hk]. unfold l in Hk. rewrite Hk in Hok. by apply Forall_app in Hok as [? _].
Qed.

(** Two reports in a row: the period at the boundary is gone in the second one. *)
Example boundary_period_lost :
  let s := mkVanetRx [(100, false); (20000, true)] 0 true in
  ((report s).1, (report (report s).2).1) = (12400, 0).
Proof. vm_compute. reflexivity. Qed.

(** The medium has been idle for ten seconds: the report still counts the busy 50 ms
    before, because the current period is not recorded before it ends. *)
Example idle_period_not_counted :
  let s := recomputeMediumFree (SIMTIME_MS 100) true (recomputeMediumFree (SIMTIME_MS 50) false
             (vanet_initialize 0 true)) in
  (report s).1 = 6250.
Proof. vm_compute. reflexivity. Qed.

(** ** The two measurements agree *)
Lemma push_iter n b l :
  Nat.iter n (push_back b) (window l) = window (replicate n b ++ l).
Proof.
  induction n as [|n IH]; [done|]. cbn [Nat.iter nat_rect]. fold (Nat.iter n (push_back b) (window l)).
  change (nat_rect _ _ _ n) with (Nat.iter n (push_back b) (window l)). rewrite IH.
  unfold push_back, window. pose proof cbrIntervalSamples_Z. destruct cbrIntervalSamples as [|k]; [lia|].
  cbn [take app replicate]. f_equal. by rewrite take_take, Nat.min_l by lia.
Qed.

(** A change of the medium, seen by both. *)
Definition medium_change : Type := simtime * bool.
Definition veins_change (m : ChannelLoadMeasurements) (c : medium_change) : ChannelLoadMeasurements :=
  if c.2 then clm_busy c.1 m else clm_idle c.1 m.
Definition inet_change (s : VanetRx) (c : medium_change) : VanetRx :=
  recomputeMediumFree c.1 (negb c.2) s.

(** Changes are at least a symbol and less than 9 hours apart. *)
Fixpoint spaced_changes (last : simtime) (l : list medium_change) : Prop :=
  match l with
  | [] => True
  | c :: l' => symbolPeriod <= c.1 - last < SIMTIME_S 32400 /\ spaced_changes c.1 l'
  end.

Record measure_alike (m : ChannelLoadMeasurements) (s : VanetRx) : Prop := {
  ml_window : window (m_samples m ++ replicate cbrIntervalSamples false) = window (expand (channelLoadSamples s));
  ml_cap : window (m_samples m) = m_samples m;
  ml_time : m_last_update m = channelLoadLastUpdate s;
  ml_busy : m_busy m = negb (mediumFree s);
  ml_ok : periods_ok (channelLoadSamples s)
}.

Lemma window_app_l n b l1 l2 :
  window l1 = window l2 -> window (replicate n b ++ l1) = window (replicate n b ++ l2).
Proof.
  intros H. induction n as [|n IH]; [done|]. cbn [replicate app]. unfold window in *.
  pose proof cbrIntervalSamples_Z. destruct cbrIntervalSamples as [|k]; [lia|]. cbn [take]. f_equal.
  apply (f_equal (take k)) in IH. rewrite !take_take in IH. by rewrite Nat.min_l in IH by lia.
Qed.

Lemma window_window l k : window (window l ++ k) = window (l ++ k).
Proof.
  unfold window. destruct (decide (length l <= cbrIntervalSamples)%nat).
  - by rewrite (take_ge l) by lia.
  - rewrite !take_app_le by (rewrite ?length_take; lia). rewrite take_take. f_equal; lia.
Qed.

Lemma symbols_range d : symbolPeriod <= d < SIMTIME_S 32400 -> 0 <= symbols d /\ symbols d + 12500 < 2 ^ 32.
Proof.
  unfold symbols, symbolPeriod, SIMTIME_US, SIMTIME_S. intros Hd.
  rewrite Z.quot_div_nonneg by lia. split; [apply Z.div_pos; lia|].
  assert (d / (8 * 10 ^ 6) <= 4050000000); [|lia]. apply Z.div_le_upper_bound; lia.
Qed.

Lemma change_alike m s c :
  measure_alike m s -> symbolPeriod <= c.1 - m_last_update m < SIMTIME_S 32400 ->
  measure_alike (veins_change m c) (inet_change s c) /\ m_last_update (veins_change m c) = c.1.
Proof.
  intros [Hw Hc Ht Hb Hok] Hd. destruct (symbols_range _ Hd) as [Hs0 Hs1].
  set (n := symbols (c.1 - m_last_update m)) in *.
  assert (veins_change m c = mkMeasurements (window (replicate (Z.to_nat n) (m_busy m) ++ m_samples m)) c.1 c.2) as ->.
  { assert (forall b, fill c.1 b m =
      mkMeasurements (window (replicate (Z.to_nat n) (m_busy m) ++ m_samples m)) c.1 b) as Hf.
    { intros b. unfold fill. fold n. by rewrite <- push_iter, Hc. }
    unfold veins_change, clm_busy, clm_idle. rewrite !Hf. by destruct c as [t []]. }
  assert (inet_change s c = mkVanetRx ((n, negb (mediumFree s)) :: channelLoadSamples s) c.1 (negb c.2)) as ->.
  { unfold inet_change, recomputeMediumFree. rewrite <- Ht. destruct (Z.leb_spec symbolPeriod (c.1 - m_last_update m)); [|lia].
    fold n. assert (u32 (u64 n) = n) as ->; [|done]. unfold u64, u32. rewrite !wrap_small; [done|lia|].
    rewrite wrap_small; lia. }
  split; [|done]. split; cbn [m_samples channelLoadSamples m_last_update channelLoadLastUpdate m_busy mediumFree].
  - rewrite window_window, <- app_assoc, expand_cons, Hb. by apply window_app_l.
  - unfold window. rewrite take_take. f_equal; lia.
  - done.
  - by rewrite negb_involutive.
  - constructor; [|done]. cbn. lia.
Qed.

(** [C29] The two ways of measuring the channel load agree: after any sequence of
    changes of the medium at least a symbol (8 us) apart, Veins' sample buffer and
    INET's run lengths denote the same window of 12500 symbols, so that the radios of
    both frameworks have recorded the same number of busy symbols. *)
Theorem channel_load_refines now changes :
  spaced_changes now changes ->
  let m := foldl veins_change (clm_reset now clm_create) changes in
  let s := foldl inet_change (vanet_initialize now true) changes in
  measure_alike m s /\ (report s).1 = Z.of_nat (busy_count (m_samples m)).
Proof.
  intros Hsp m s.
  assert (measure_alike m s) as Ha.
  { subst m s. assert (measure_alike (clm_reset now clm_create) (vanet_initialize now true)) as H0.
    { split; try done. constructor; [cbn; lia|constructor]. }
    assert (m_last_update (clm_reset now clm_create) = now) as Hl by done.
    revert Hsp Hl H0. generalize (clm_reset now clm_create), (vanet_initialize now true). revert now.
    induction changes as [|c l IH]; intros now m s Hsp Hl Ha; [done|]. destruct Hsp as [Hd Hsp]. cbn [foldl].
    destruct (change_alike m s c Ha) as [Ha' Hl']; [by rewrite Hl|]. by eapply IH. }
  split; [done|]. destruct Ha as [Hw Hc Ht Hb Hok].
  unfold report. pose proof (report_loop_spec (channelLoadSamples s) 0 0 Hok ltac:(lia) ltac:(lia)) as H.
  destruct (report_loop _ 0 0) as [busy kept]. destruct H as (-> & _ & _). cbn [fst].
  assert (Z.to_nat (12500 - 0) = cbrIntervalSamples) as -> by (pose proof cbrIntervalSamples_Z; lia).
  fold (window (expand (channelLoadSamples s))). rewrite <- Hw, Z.add_0_l. f_equal.
  rewrite <- Hc. unfold window. rewrite take_app, busy_count_app, take_take, take_replicate, busy_count_replicate.
  rewrite Nat.min_id. lia.
Qed.

(** Busy and idle for 7 us in turn, for over a second: neither measurement notices. *)
Definition fast_changes : list medium_change :=
  (fun n : nat => (SIMTIME_US (7 * Z.of_nat n), Nat.odd n)) <$> List.seq 1 150.
Example fast_changes_lost :
  busy_count (m_samples (foldl veins_change (clm_reset 0 clm_create) fast_changes)) = 0%nat.
Proof. vm_compute. reflexivity. Qed.

Lemma reported_load_exact_witness :
  (report (mkVanetRx [(100, false); (20000, true)] 0 true)).1 = 12400 /\
  unit_interval (ratio 12400) = true.
Proof.
  pose proof (reported_load_exact (mkVanetRx [(100, false); (20000, true)] 0 true)
    ltac:(repeat constructor; cbn; lia)) as (H & _ & Hu & _).
  split; [vm_compute; reflexivity|exact Hu].
Defined.

Definition ex_changes : list medium_change :=
  [(SIMTIME_MS 10, true); (SIMTIME_MS 40, false); (SIMTIME_MS 50, true); (SIMTIME_MS 60, false)].
Lemma channel_load_refines_witness :
  (report (foldl inet_change (vanet_initialize 0 true) ex_changes)).1 = 5000 /\
  busy_count (m_samples (foldl veins_change (clm_reset 0 clm_create) ex_changes)) = 5000%nat.
Proof.
  destruct (channel_load_refines 0 ex_changes) as [_ H].
  - repeat split; vm_compute; congruence.
  - assert ((report (foldl inet_change (vanet_initialize 0 true) ex_changes)).1 = 5000) as Hr
      by (vm_compute; reflexivity).
    split; [exact Hr|]. rewrite Hr in H. apply Nat2Z.inj. symmetry. exact H.
Defined.

(** ** Link layer addresses *)
(** Six octets; all ones is the broadcast address. *)
Abbreviation MacAddress := (list Z) (only parsing).
Definition mac_wf (mac : MacAddress) : Prop := length mac = 6%nat /\ Forall (fun o => 0 <= o < 256) mac.
Definition cBroadcastMacAddress : list Z := replicate 6 255.

(** [LAddress::L2BROADCAST] *)
Definition L2BROADCAST : Z := -1.

(** To Veins' address, a [long]. *)
Definition mac_to_l2 (mac : MacAddress) : Z :=
  if decide (mac = cBroadcastMacAddress) then L2BROADCAST
  else foldl (fun addr o => Z.lor (swrap 64 (Z.shiftl addr 8)) o) 0 mac.

(** The octets from the last one to the first. *)
Fixpoint octets (n : nat) (addr : Z) : list Z :=
  match n with
  | O => []
  | S n' => octets n' (Z.shiftr addr 8) ++ [Z.land addr 0xff]
  end.
Definition l2_to_mac (addr : Z) : list Z :=
  if addr =? L2BROADCAST then cBroadcastMacAddress else octets 6 addr.

Lemma octets_lor n addr o :
  0 <= o < 256 -> octets (S n) (Z.lor (Z.shiftl addr 8) o) = octets n addr ++ [o].
Proof.
  intros Ho. cbn [octets]. f_equal; [f_equal|f_equal].
  - rewrite Z.shiftr_lor, Z.shiftr_shiftl_l by lia. rewrite Z.shiftl_0_r.
    assert (Z.shiftr o 8 = 0) as ->; [|by rewrite Z.lor_0_r].
    rewrite Z.shiftr_div_pow2 by lia. by apply Z.div_small.
  - rewrite Z.land_lor_distr_l. change 255 with (Z.ones 8).
    rewrite !Z.land_ones by lia. rewrite Z.shiftl_mul_pow2 by lia.
    rewrite Z.mod_mul by lia. rewrite Z.mod_small by lia. done.
Qed.

Lemma lor_octet_range addr o k :
  0 <= addr < 2 ^ k -> 0 <= k -> 0 <= o < 256 -> 0 <= Z.lor (Z.shiftl addr 8) o < 2 ^ (k + 8).
Proof.
  intros Ha Hk Ho. rewrite Z.shiftl_mul_pow2 by lia.
  assert (0 <= addr * 2 ^ 8 < 2 ^ (k + 8)) by (rewrite Z.pow_add_r by lia; nia).
  assert (2 ^ 8 <= 2 ^ (k + 8)) by (apply Z.pow_le_mono_r; lia).
  split; [apply Z.lor_nonneg; lia|].
  destruct (Z.eq_dec (Z.lor (addr * 2 ^ 8) o) 0) as [->|Hne]; [lia|].
  apply Z.log2_lt_pow2; [pose proof (proj2 (Z.lor_nonneg (addr * 2 ^ 8) o) ltac:(lia)); lia|].
  rewrite Z.log2_lor by lia. apply Z.max_lub_lt.
  - destruct (Z.eq_dec (addr * 2 ^ 8) 0) as [->|]; [cbn; lia|]. apply Z.log2_lt_pow2; lia.
  - destruct (Z.eq_dec o 0) as [->|]; [cbn; lia|]. apply Z.log2_lt_pow2; lia.
Qed.

Lemma mac_fold_spec l :
  Forall (fun o => 0 <= o < 256) l -> (length l <= 7)%nat ->
  let addr := foldl (fun addr o => Z.lor (swrap 64 (Z.shiftl addr 8)) o) 0 l in
  0 <= addr < 2 ^ (8 * Z.of_nat (length l)) /\ octets (length l) addr = l.
Proof.
  induction l as [|o l IH] using rev_ind; intros Hl Hlen; [by split; [cbn; lia|]|].
  apply Forall_app in Hl as [Hl Ho]. inversion_clear Ho as [|? ? Ho' _]. rewrite length_app in *. cbn [length] in *.
  destruct IH as [Hr Ho]; [done|lia|]. cbv zeta. rewrite foldl_app. cbn [foldl].
  set (addr := foldl _ 0 l) in *.
  assert (2 ^ (8 * Z.of_nat (length l)) <= 2 ^ 48) by (apply Z.pow_le_mono_r; lia).
  rewrite swrap_small by (rewrite ?Z.shiftl_mul_pow2 by lia; lia). split.
  - replace (8 * Z.of_nat (length l + 1)) with (8 * Z.of_nat (length l) + 8) by lia.
    apply lor_octet_range; lia.
  - rewrite Nat.add_1_r, octets_lor by lia. by rewrite Ho.
Qed.

(** A MAC address survives the way through Veins' numeric addresses and back,
    the broadcast address and addresses with leading zeros included; and the numeric
    address of any station is not negative, hence distinct from the broadcast
    address. *)
Theorem mac_roundtrip mac :
  mac_wf mac ->
  l2_to_mac (mac_to_l2 mac) = mac /\
  (mac <> cBroadcastMacAddress -> 0 <= mac_to_l2 mac < 2 ^ 48).
Proof.
  intros [Hlen Hoct]. unfold mac_to_l2. destruct (decide (mac = cBroadcastMacAddress)) as [->|Hne]; [done|].
  destruct (mac_fold_spec mac Hoct ltac:(lia)) as [Hr Ho]. rewrite Hlen in *.
  split; [|intros _; exact Hr]. unfold l2_to_mac, L2BROADCAST.
  destruct (Z.eqb_spec (foldl (fun addr o => Z.lor (swrap 64 (Z.shiftl addr 8)) o) 0 mac) (-1)); [lia|exact Ho].
Qed.

Lemma mac_roundtrip_witness :
  l2_to_mac (mac_to_l2 [0; 0; 0; 0; 1; 44]) = [0; 0; 0; 0; 1; 44] /\ mac_to_l2 [0; 0; 0; 0; 1; 44] = 300.
Proof.
  split; [|reflexivity].
  apply mac_roundtrip. split; [reflexivity|]. repeat constructor; lia.
Defined.

(** ** Radio drivers *)
Inductive AccessCategory := VO | VI | BE | BK.

(** [GeoNetRequest] and [GeoNetIndication], the control information of the packets
    that pass between router and driver. *)
Record GeoNetRequest := mkRequest {
  source_addr : list Z;
  destination_addr : list Z;
  ether_type : Z;
  access_category : AccessCategory
}.
Record GeoNetIndication := mkIndication { ind_source : list Z; ind_destination : list Z }.

(** The same mapping in both drivers. *)
Definition user_priority (ac : AccessCategory) : Z :=
  match ac with BK => 1 | BE => 3 | VI => 5 | VO => 7 end.

Section Drivers.
Context {Payload : Type}.

(** Veins' frame. *)
Record WaveShortMessage := mkWsm {
  senderAddress : Z;
  recipientAddress : Z;
  userPriority : Z;
  channelNumber : Z;
  encapsulated : Payload
}.
(** [Channels::CCH] of Veins. *)
Definition Channels_CCH : Z := 178.

Definition veins_handleDataRequest (r : GeoNetRequest) (packet : Payload) : WaveShortMessage :=
  mkWsm (mac_to_l2 (source_addr r)) (mac_to_l2 (destination_addr r)) (user_priority (access_category r))
    Channels_CCH packet.

Definition veins_handleDataIndication (wsm : WaveShortMessage) : GeoNetIndication * Payload :=
  (mkIndication (l2_to_mac (senderAddress wsm)) (l2_to_mac (recipientAddress wsm)), encapsulated wsm).

(** INET's control information; its addresses are the six octets. *)
Record Ieee802Ctrl := mkCtrl {
  ctrl_source : list Z;
  ctrl_dest : list Z;
  ctrl_etherType : Z;
  ctrl_userPriority : Z
}.
Definition inet_handleDataRequest (r : GeoNetRequest) (packet : Payload) : Ieee802Ctrl * Payload :=
  (mkCtrl (source_addr r) (destination_addr r) (ether_type r) (user_priority (access_category r)), packet).
Definition inet_handleDataIndication (info : Ieee802Ctrl) (packet : Payload) : GeoNetIndication * Payload :=
  (mkIndication (ctrl_source info) (ctrl_dest info), packet).

(** What a driver sends. *)
Inductive driver_out :=
| ToRadio (w : WaveShortMessage)
| ToInetRadio (c : Ieee802Ctrl) (p : Payload)
| ToRouter (i : GeoNetIndication) (p : Payload)
| EmitChannelLoad (load : double).

Inductive driver_in :=
| ReportTimer
| DataRequest (r : GeoNetRequest) (p : Payload)
| FromVeinsRadio (w : WaveShortMessage)
| FromInetRadio (c : Ieee802Ctrl) (p : Payload)
| Unexpected.

Record VeinsRadioDriver := mkVeinsDriver {
  mChannelLoadMeasurements : ChannelLoadMeasurements;
  mChannelLoadReport : simtime;  (** when it is scheduled *)
  mChannelLoadReportInterval : simtime
}.

Definition veins_initialize (now interval : simtime) : VeinsRadioDriver :=
  mkVeinsDriver (clm_reset now clm_create) (now + interval) interval.

Definition veins_handleMessage (now : simtime) (msg : driver_in) (d : VeinsRadioDriver) :
    res (list driver_out * VeinsRadioDriver) :=
  match msg with
  | ReportTimer =>
      let '(load, m) := channel_load now (mChannelLoadMeasurements d) in
      Ok ([EmitChannelLoad load],
          mkVeinsDriver m (now + mChannelLoadReportInterval d) (mChannelLoadReportInterval d))
  | DataRequest r p => Ok ([ToRadio (veins_handleDataRequest r p)], d)
  | FromVeinsRadio w =>
      let '(i, p) := veins_handleDataIndication w in Ok ([ToRouter i p], d)
  | _ => Fail (RuntimeError "unexpected message")
  end.

(** The signal of the radio. *)
Definition veins_receiveSignal (now : simtime) (busy : bool) (d : VeinsRadioDriver) : VeinsRadioDriver :=
  mkVeinsDriver (if busy then clm_busy now (mChannelLoadMeasurements d)
                 else clm_idle now (mChannelLoadMeasurements d))
    (mChannelLoadReport d) (mChannelLoadReportInterval d).

Definition inet_handleMessage (msg : driver_in) : res (list driver_out) :=
  match msg with
  | FromInetRadio c p => let '(i, p) := inet_handleDataIndication c p in Ok [ToRouter i p]
  | DataRequest r p => let '(c, p) := inet_handleDataRequest r p in Ok [ToInetRadio c p]
  | _ => Fail (RuntimeError "unexpected message")
  end.
End Drivers.
