(* ===== verification/Networking.v ===== *)
(** * Networking entities

    [src/src/artery/networking/]: the router that turns BTP requests into GeoNetworking
    requests, the packets that carry payloads, the DCC entity that passes the measured
    channel load to the rate control, and the security entity's choices.  The GeoNetworking
    router and the security services behind them are vanetza's and parameters here, as is
    the DCC algorithm, whose choices are modelled in Dcc and FlowControl. *)

From S2P Require Import Prelude Float64 VehicleData Radio DenService.

(** ** GeoNetPacket *)
(** The payload is owned: an empty pointer once it has been extracted. *)
Section Packets.
Context {Payload : Type} (payload_size : Payload -> Z).

Record GeoNetPacket := mkPacket { packet_bits : Z; mPayload : option Payload }.

(** Both overloads: a null argument empties the packet. *)
Definition setPayload (payload : option Payload) (p : GeoNetPacket) : GeoNetPacket :=
  mkPacket (packet_bits p) payload.
Definition getPayload (p : GeoNetPacket) : res Payload :=
  match mPayload p with
  | Some payload => Ok payload
  | None => Fail (RuntimeError "No payload assigned to GeoNetPacket")
  end.
Definition hasPayload (p : GeoNetPacket) : bool := bool_decide (is_Some (mPayload p)).
Definition extractPayload (p : GeoNetPacket) : option Payload * GeoNetPacket :=
  (mPayload p, mkPacket (packet_bits p) None).
Definition getBitLength (p : GeoNetPacket) : Z :=
  packet_bits p + match mPayload p with Some x => payload_size x * 8 | None => 0 end.
(** Copying copies the payload but not the base class: a new packet has no bits of its
    own. *)
Definition dup (p : GeoNetPacket) : GeoNetPacket := mkPacket 0 (mPayload p).
End Packets.
Arguments GeoNetPacket : clear implicits.

(** ** Router *)
Inductive TransportType := GUC | GAC | GBC | TSB | SHB.

(** The destination of a BTP request is an address or an area, or not set. *)
Inductive Destination {Area : Type} := ToArea (a : Area) | ToAddress (a : Z) | NoDestination.
Arguments Destination : clear implicits.

Record btp_request {Area : Type} := mkBtpRequest {
  transport_type : TransportType;
  btp_destination : Destination Area;
  btp_destination_port : Z;
  btp_destination_port_info : Z;
  btp_its_aid : Z;
  communication_profile : Z;
  maximum_lifetime : option Z;
  btp_hop_limit : option Z;
  btp_repetition : option (double * double);
  traffic_class : Z
}.
Arguments btp_request : clear implicits.
Arguments mkBtpRequest {Area}.

Record ManagementInformationBase := mkMib {
  itsGnDefaultTrafficClass : Z;
  itsGnDefaultPacketLifetime : Z;
  itsGnDefaultHopLimit : Z;
  itsGnIsMobile : bool;
  itsGnSecurity : bool;
  vanetzaDeferInitialBeacon : bool
}.

(** The parameters of a GeoNetworking request, filled with the defaults first. *)
Record gn_request := mkGnRequest {
  gn_profile : Z;
  gn_its_aid : Z;
  gn_lifetime : Z;
  gn_repetition : option (double * double);
  gn_hop_limit : Z;
  gn_traffic_class : Z
}.
Inductive geonet_request {Area : Type} := ShbDataRequest (r : gn_request) | GbcDataRequest (r : gn_request) (a : Area).
Arguments geonet_request : clear implicits.

Section Router.
Context {Area Payload : Type}.

Definition initializeManagementInformationBase (defaults : ManagementInformationBase)
    (isMobile deferInitialBeacon security : bool) : ManagementInformationBase :=
  mkMib 3 (itsGnDefaultPacketLifetime defaults) (itsGnDefaultHopLimit defaults) isMobile security
    deferInitialBeacon.

Definition copy_request_parameters (mib : ManagementInformationBase) (r : btp_request Area) : gn_request :=
  mkGnRequest (communication_profile r) (btp_its_aid r)
    (default (itsGnDefaultPacketLifetime mib) (maximum_lifetime r)) (btp_repetition r)
    (default (itsGnDefaultHopLimit mib) (btp_hop_limit r)) (traffic_class r).

(** [request]: the BTP-B header (port and port info) goes into the packet, then the
    GeoNetworking router confirms or rejects. *)
Variable gn_rejects : geonet_request Area -> bool.

Definition router_request (mib : ManagementInformationBase) (r : btp_request Area) (packet : Payload) :
    res (geonet_request Area * (Z * Z) * Payload) :=
  let btp_header := (btp_destination_port r, btp_destination_port_info r) in
  gn ← match transport_type r with
       | SHB => Ok (ShbDataRequest (copy_request_parameters mib r))
       | GBC =>
           match btp_destination r with
           | ToArea area => Ok (GbcDataRequest (copy_request_parameters mib r) area)
           | _ => Fail (StdException "BTP-B data request lacks destination area")
           end
       | _ => Fail (RuntimeError "Unknown or unimplemented transport type")
       end;
  if gn_rejects gn then Fail (RuntimeError "GN-Data.request rejected")
  else Ok (gn, btp_header, packet).
End Router.

(** The local GeoNetworking address. *)
Record GnAddress := mkGnAddress {
  is_manually_configured : bool;
  station_type : Z;
  country_code : Z;
  mid : list Z
}.
Definition generateAddress (stationType : Z) (mac : list Z) : GnAddress := mkGnAddress true stationType 0 mac.

(** The router module: the address of the engine, the channel of its network interface,
    what the engine was asked to process, and the identities announced. *)
Section RouterModule.
Context {Payload : Type}.
Record RouterModule := mkRouter {
  rt_address : GnAddress;
  rt_channel : Z;
  rt_indications : list (option Payload * list Z * list Z);
  rt_announced : list GnAddress;
  rt_positions : nat
}.

Inductive router_msg :=
| RadioData (packet : GeoNetPacket Payload) (info : option GeoNetIndication)
| RadioProperties (LinkLayerAddress : list Z) (ServingChannel : Z)
| OtherMessage.

Definition router_handleMessage (stationType : Z) (msg : router_msg) (s : RouterModule) : res RouterModule :=
  match msg with
  | RadioData packet (Some indication) =>
      Ok (mkRouter (rt_address s) (rt_channel s)
            (rt_indications s ++ [((extractPayload packet).1, ind_source indication, ind_destination indication)])
            (rt_announced s) (rt_positions s))
  | RadioData _ None => Fail (RuntimeError "check_and_cast: null pointer")
  | RadioProperties mac channel =>
      let addr := generateAddress stationType mac in
      Ok (mkRouter addr channel (rt_indications s) (rt_announced s ++ [addr]) (rt_positions s))
  | OtherMessage => Fail (RuntimeError "Do not know how to handle received message")
  end.

(** A position fix reaches the engine. *)
Definition router_receiveSignal (is_fix : bool) (s : RouterModule) : RouterModule :=
  if is_fix then mkRouter (rt_address s) (rt_channel s) (rt_indications s) (rt_announced s) (S (rt_positions s))
  else s.
End RouterModule.

(** ** DCC entity *)
Inductive ProbeProcessor := Local | SmoothingLocal (m_alpha m_channel_load : double).
Inductive NetworkEntity := NoNetworkEntity | TwoHopChannelLoad (reported : list double).

(** The smoothing factor is the default one. *)
Definition initializeChannelProbeProcessor (name : string) : res ProbeProcessor :=
  if String.eqb name "Local" then Ok Local
  else if String.eqb name "SmoothingLocal" then Ok (SmoothingLocal (d_lit 1 2) (d_of_Z 0))
  else Fail (RuntimeError "Unknown DCC channel probe processor").
Definition initializeNetworkEntity (name : string) : res NetworkEntity :=
  if String.eqb name "" || String.eqb name "Null" then Ok NoNetworkEntity
  else if String.eqb name "TwoHopChannelLoad" then Ok (TwoHopChannelLoad [])
  else Fail (RuntimeError "Unknown DCC network entity").

(** The state machines of [FsmDccEntity] and its rate controls, by name. *)
Inductive StateMachineKind := FullyMeshed | Gradual500us | Gradual1ms.
Definition initializeStateMachine (name : string) : res StateMachineKind :=
  if String.eqb name "FullyMeshed" then Ok FullyMeshed
  else if String.eqb name "Gradual 500us" then Ok Gradual500us
  else if String.eqb name "Gradual 1ms" then Ok Gradual1ms
  else Fail (RuntimeError "Unknown DCC state machine").
Inductive RateControlKind := Bursty | SingleReactive.
Definition initializeTransmitRateControl (name : string) : res RateControlKind :=
  if String.eqb name "Bursty" then Ok Bursty
  else if String.eqb name "StateMachine" then Ok SingleReactive
  else Fail (RuntimeError "Unknown DCC Transmit Rate Control").

Section Dcc.
(** vanetza's state machine (or LIMERIC's algorithm, or nothing), fed with loads. *)
Context {M : Type} (machine_update : double -> M -> M).

Record DccEntity := mkDcc {
  mCbrProcessor : ProbeProcessor;
  mNetworkEntity : NetworkEntity;
  mStateMachine : M
}.

(** The three steps of [initialize], in their order. *)
Definition dcc_initialize (probe network : string) (machine : M)
    (state_machine rate_control : string) : res (DccEntity * StateMachineKind * RateControlKind) :=
  processor ← initializeChannelProbeProcessor probe;
  entity ← initializeNetworkEntity network;
  kind ← initializeStateMachine state_machine;
  control ← initializeTransmitRateControl rate_control;
  Ok (mkDcc processor entity machine, kind, control).

Definition onGlobalCbr (cbr : double) (d : DccEntity) : DccEntity :=
  mkDcc (mCbrProcessor d) (mNetworkEntity d) (machine_update cbr (mStateMachine d)).

Definition onLocalCbr (cbr : double) (d : DccEntity) : DccEntity :=
  match mNetworkEntity d with
  | TwoHopChannelLoad reported => mkDcc (mCbrProcessor d) (TwoHopChannelLoad (reported ++ [cbr])) (mStateMachine d)
  | NoNetworkEntity => onGlobalCbr cbr d
  end.

(** [UnitInterval]: its constructor and sums are clamped, products are not. *)
Definition clamp (v : double) : double :=
  if dltb (d_of_Z 1) v then d_of_Z 1 else if dltb v (d_of_Z 0) then d_of_Z 0 else v.
Definition smooth (alpha load cl : double) : double :=
  clamp (dadd (dmul alpha cl) (dmul (dsub (d_of_Z 1) alpha) load)).

Definition reportLocalChannelLoad (cbr : double) (d : DccEntity) : DccEntity :=
  match mCbrProcessor d with
  | Local => onLocalCbr cbr d
  | SmoothingLocal alpha load =>
      let load := smooth alpha load cbr in
      onLocalCbr load (mkDcc (SmoothingLocal alpha load) (mNetworkEntity d) (mStateMachine d))
  end.

Definition dcc_receiveSignal (value : double) (d : DccEntity) : res DccEntity :=
  assert_ "value >= 0.0 && value <= 1.0" (unit_interval value) ;;
  Ok (reportLocalChannelLoad (clamp value) d).

(** ** Radio and DCC of a station *)
Inductive radio_event := ChannelBusy (busy : bool) | ReportChannelLoad.

(** The loads of a history with the entity's state; the radio's signals and the report
    timer of the Veins driver drive it. *)
Definition station_step (st : @VeinsRadioDriver * DccEntity) (e : simtime * radio_event) :
    res (@VeinsRadioDriver * DccEntity) :=
  match e.2 with
  | ChannelBusy busy => Ok (veins_receiveSignal e.1 busy st.1, st.2)
  | ReportChannelLoad =>
      r ← veins_handleMessage (Payload := unit) e.1 ReportTimer st.1;
      let '(out, driver) := r : list driver_out * VeinsRadioDriver in
      dcc ← res_fold (fun d o => match o with EmitChannelLoad load => dcc_receiveSignal load d | _ => Ok d end)
              out st.2;
      Ok (driver, dcc)
  end.

(** The loads the driver emits in a history. *)
Fixpoint emitted (driver : VeinsRadioDriver) (events : list (simtime * radio_event)) : list double :=
  match events with
  | [] => []
  | (now, ChannelBusy busy) :: l => emitted (veins_receiveSignal now busy driver) l
  | (now, ReportChannelLoad) :: l =>
      let '(load, m) := channel_load now (mChannelLoadMeasurements driver) in
      load :: emitted (mkVeinsDriver m (now + mChannelLoadReportInterval driver)
                         (mChannelLoadReportInterval driver)) l
  end.

(** What the probe processor makes of them, and itself afterwards. *)
Fixpoint processed (p : ProbeProcessor) (loads : list double) : list double * ProbeProcessor :=
  match loads with
  | [] => ([], p)
  | load :: l =>
      match p with
      | Local => (load :: (processed p l).1, (processed p l).2)
      | SmoothingLocal alpha last =>
          let x := smooth alpha last load in
          let p' := SmoothingLocal alpha x in
          (x :: (processed p' l).1, (processed p' l).2)
      end
  end.

Lemma clamp_id x : unit_interval x = true -> clamp x = x.
Proof.
  unfold unit_interval, clamp. intros [H0 H1]%andb_true_iff.
  destruct (dltb (d_of_Z 1) x) eqn:E1; [apply dltb_dleb_antisym in E1; congruence|].
  destruct (dltb x (d_of_Z 0)) eqn:E0; [apply dltb_dleb_antisym in E0; congruence|done].
Qed.

Definition buffer_ok (m : ChannelLoadMeasurements) : Prop := window (m_samples m) = m_samples m.

Lemma fill_buffer_ok now b m : buffer_ok m -> buffer_ok (fill now b m).
Proof.
  unfold buffer_ok, fill. cbn [m_samples]. intros H. rewrite <- H, push_iter. unfold window.
  rewrite take_take. f_equal; lia.
Qed.

Lemma channel_load_unit now m : buffer_ok m ->
  unit_interval (channel_load now m).1 = true /\ buffer_ok (channel_load now m).2.
Proof.
  intros H. unfold channel_load. pose proof (fill_buffer_ok now (m_busy m) m H) as Hf. cbn [fst snd].
  split; [|exact Hf]. apply (ratio_unit (Z.of_nat (busy_count (m_samples (fill now (m_busy m) m))))).
  rewrite <- Hf. pose proof (window_count (m_samples (fill now (m_busy m) m))). pose proof cbrIntervalSamples_Z. lia.
Qed.

(** The entity after it was given the loads. *)
Definition dcc_after (d : DccEntity) (loads : list double) : DccEntity :=
  let '(xs, p) := processed (mCbrProcessor d) loads in
  match mNetworkEntity d with
  | NoNetworkEntity => mkDcc p NoNetworkEntity (foldl (fun m x => machine_update x m) (mStateMachine d) xs)
  | TwoHopChannelLoad reported => mkDcc p (TwoHopChannelLoad (reported ++ xs)) (mStateMachine d)
  end.

Lemma dcc_receiveSignal_after d x l :
  unit_interval x = true ->
  exists d', dcc_receiveSignal x d = Ok d' /\ dcc_after d (x :: l) = dcc_after d' l.
Proof.
  intros Hx. unfold dcc_receiveSignal. rewrite Hx. cbn [assert_ mbind res_bind]. eexists. split; [reflexivity|].
  rewrite clamp_id by done. unfold reportLocalChannelLoad, onLocalCbr, onGlobalCbr, dcc_after.
  destruct d as [[|alpha last] [|reported] m]; cbn [mCbrProcessor mNetworkEntity mStateMachine processed].
  - by destruct (processed Local l) as [xs p].
  - destruct (processed Local l) as [xs p]. cbn. by rewrite <- app_assoc.
  - by destruct (processed (SmoothingLocal alpha _) l) as [xs p].
  - destruct (processed (SmoothingLocal alpha _) l) as [xs p]. cbn. by rewrite <- app_assoc.
Qed.

Lemma station_follows events driver d :
  buffer_ok (mChannelLoadMeasurements driver) ->
  Forall (fun x => unit_interval x = true) (emitted driver events) /\
  exists driver', res_fold station_step events (driver, d) = Ok (driver', dcc_after d (emitted driver events)).
Proof.
  revert driver d. induction events as [|[now [busy|]] l IH]; intros driver d Hb; cbn [res_fold emitted].
  - split; [constructor|]. exists driver. f_equal. f_equal. unfold dcc_after. cbn.
    by destruct d as [? [|reported] ?]; cbn; rewrite ?app_nil_r.
  - apply (IH (veins_receiveSignal now busy driver) d). unfold veins_receiveSignal. cbn.
    by destruct busy; apply fill_buffer_ok.
  - destruct (channel_load_unit now _ Hb) as [Hu Hb']. unfold station_step. cbn [fst snd veins_handleMessage].
    destruct (channel_load now (mChannelLoadMeasurements driver)) as [load m]. cbn [fst snd] in Hu, Hb'.
    cbn [mbind res_bind]. set (driver' := mkVeinsDriver m _ _).
    destruct (dcc_receiveSignal_after d load (emitted driver' l) Hu) as (d' & Hd & Ha).
    destruct (IH driver' d' Hb') as [Hf [driver'' Hrun]].
    split; [by constructor|]. exists driver''. cbn [res_fold]. rewrite Hd. cbn [mbind res_bind].
    rewrite Ha. exact Hrun.
Qed.

(** The channel load a Veins radio measures reaches its station's rate control:
    in every history of medium changes and report timers each report is a ratio
    between 0 and 1, so the DCC entity's assertion never fails; without a network
    entity each report, smoothed if so configured, updates the state machine once and
    in order, and with one it is handed to that entity and the state machine is left
    alone. *)
Theorem dcc_follows_channel_load events driver d :
  buffer_ok (mChannelLoadMeasurements driver) ->
  Forall (fun x => unit_interval x = true) (emitted driver events) /\
  exists driver', res_fold station_step events (driver, d) = Ok (driver', dcc_after d (emitted driver events)).
Proof. apply station_follows. Qed.
End Dcc.

(** ** Witness: a machine that records its loads *)
Definition ex_radio : list (simtime * radio_event) :=
  [(SIMTIME_MS 25, ChannelBusy true); (SIMTIME_MS 75, ChannelBusy false); (SIMTIME_MS 100, ReportChannelLoad);
   (SIMTIME_MS 200, ReportChannelLoad)].
Definition ex_driver : VeinsRadioDriver := veins_initialize 0 (SIMTIME_MS 100).
Definition ex_dcc (p : ProbeProcessor) : @DccEntity (list double) := mkDcc p NoNetworkEntity [].

Lemma dcc_follows_channel_load_witness :
  length (emitted ex_driver ex_radio) = 2%nat /\
  Forall (fun x => unit_interval x = true) (emitted ex_driver ex_radio) /\
  exists driver', res_fold (station_step (fun x m => m ++ [x])) ex_radio (ex_driver, ex_dcc Local) =
    Ok (driver', dcc_after (fun x m => m ++ [x]) (ex_dcc Local) (emitted ex_driver ex_radio)).
Proof.
  split; [reflexivity|].
  apply (dcc_follows_channel_load (fun x m => m ++ [x]) ex_radio ex_driver (ex_dcc Local) eq_refl).
Defined.

Example smoothed_loads :
  (processed (SmoothingLocal (d_lit 1 2) (d_of_Z 0)) [d_of_Z 1; d_of_Z 1; d_of_Z 0]).1 =
    [d_lit 1 2; d_lit 3 4; d_lit 3 8].
Proof. vm_compute. reflexivity. Qed.

(** ** Security entity *)
(** The services it offers by name; their implementations are vanetza's. *)
Inductive CertificateProvider := NullCertificateProvider | NaiveCertificateProvider.
Inductive CertificateValidator := NullCertificateValidator (check_result_ok : bool).
Inductive SignService := straight_sign_service | deferred_sign_service | dummy_sign_service.
Inductive VerifyService := straight_verify_service | dummy_verify_service.

(** [notNullPtr] *)
Definition notNullPtr {A} (ptr : option A) : res A :=
  match ptr with Some x => Ok x | None => Fail (RuntimeError "nullptr violation") end.

Definition createCertificateProvider (runtime : option unit) (name : string) : res CertificateProvider :=
  if String.eqb name "Null" then Ok NullCertificateProvider
  else if String.eqb name "Naive" then _ ← notNullPtr runtime; Ok NaiveCertificateProvider
  else Fail (RuntimeError "No certificate provider available").
Definition createCertificateValidator (name : string) : res CertificateValidator :=
  if String.eqb name "Null" then Ok (NullCertificateValidator false)
  else if String.eqb name "NullOk" then Ok (NullCertificateValidator true)
  else Fail (RuntimeError "No certificate validator available").
Definition createSignService (name : string) : res SignService :=
  if String.eqb name "straight" then Ok straight_sign_service
  else if String.eqb name "deferred" then Ok deferred_sign_service
  else if String.eqb name "dummy" then Ok dummy_sign_service
  else Fail (RuntimeError "No security sign service available").
Definition createVerifyService (name : string) : res VerifyService :=
  if String.eqb name "straight" then Ok straight_verify_service
  else if String.eqb name "dummy" then Ok dummy_verify_service
  else Fail (RuntimeError "No security verify service available").

Record SecurityEntity := mkSecurity {
  sec_backend : string;
  sec_provider : CertificateProvider;
  sec_validator : CertificateValidator;
  sec_sign : SignService;
  sec_verify : VerifyService
}.

(** The second stage of [initialize], with vanetza's backend factory. *)
Definition security_initialize (backend_exists : string -> bool) (runtime : option unit)
    (backend provider validator sign verify : string) : res SecurityEntity :=
  b ← (if backend_exists backend then Ok backend
                    else Fail (RuntimeError "No security backend found"));
  p ← createCertificateProvider runtime provider;
  v ← createCertificateValidator validator;
  _ ← notNullPtr runtime;
  s ← createSignService sign;
  w ← createVerifyService verify;
  Ok (mkSecurity b p v s w).

(** [encapsulate_packet] and [decapsulate_packet] before initialisation are errors. *)
Definition security_service {A B} (service : A -> B) (entity : option SecurityEntity) (request : A) : res B :=
  _ ← notNullPtr entity; Ok (service request).
