(* ===== verification/Testbed.v ===== *)
(** * Hardware in the loop: the testbed

    [src/src/artery/testbed/]: a scheduler that keeps the simulation in step with the wall
    clock, the queue through which the radio's thread passes received packets to it, the
    interface to the radio hardware with the layer of the physical twin registered at it,
    and the twin's radio with its list of reachable nodes. *)

From S2P Require Import Prelude OMap EventSet Networking.

(** ** Packets from the device under test *)
Inductive ServiceClassType := AC_BE | AC_BK | AC_VI | AC_VO | OtherServiceClass (v : Z).
Inductive AccessCategory := BE | BK | VI | VO.

Definition mapAccessCategory (sc : ServiceClassType) : res AccessCategory :=
  match sc with
  | AC_BE => Ok BE
  | AC_BK => Ok BK
  | AC_VI => Ok VI
  | AC_VO => Ok VO
  | OtherServiceClass _ => Fail (RuntimeError "Unknown ServiceClassType")
  end.

Record MA_UNITDATA_indication := mkIndication {
  ui_service_class : ServiceClassType;
  ui_destination_address : list Z;
  ui_source_address : list Z;
  ui_data : list Z
}.

(** A [GeoNetPacket] with the request for the radio driver as its control information. *)
Record DutPacket := mkDutPacket {
  access_category : AccessCategory;
  destination_addr : list Z;
  source_addr : list Z;
  ether_type : Z;
  dut_payload : list Z
}.

Definition packet_of_indication (ind : MA_UNITDATA_indication) : res DutPacket :=
  ac ← mapAccessCategory (ui_service_class ind);
  Ok (mkDutPacket ac (ui_destination_address ind) (ui_source_address ind) 0x8947 (ui_data ind)).

(** ** OtaIndicationQueue

    Every operation holds the queue's mutex, so operations of the two threads interleave
    as whole steps. *)
Record OtaIndicationQueue := mkQueue { mIndicationList : list DutPacket; mNotified : bool }.

Definition queue_trigger (ind : DutPacket) (q : OtaIndicationQueue) : OtaIndicationQueue :=
  mkQueue (mIndicationList q ++ [ind]) true.

(** [OtaInterfaceUsrp::notifyQueue], on the radio's thread *)
Definition notifyQueue (ind : MA_UNITDATA_indication) (q : OtaIndicationQueue) : res OtaIndicationQueue :=
  gn ← packet_of_indication ind; Ok (queue_trigger gn q).

(** ** OtaInterfaceUsrp *)
Inductive gpsd_timer := NoTimer | GpsdTimer (scheduled : option simtime) | TimerDeleted.

Record OtaInterfaceUsrp := mkOta {
  mFakeMode : bool;
  mRegisteredModule : option nat;
  mGpsdTimer : gpsd_timer;
  mGpsdUpdateRate : simtime;
  mGpsdServer : bool;
  mMessagesToDut : Z;
  mMessagesFromDut : Z
}.

Definition set_registered (m : option nat) (t : gpsd_timer) (o : OtaInterfaceUsrp) : OtaInterfaceUsrp :=
  mkOta (mFakeMode o) m t (mGpsdUpdateRate o) (mGpsdServer o) (mMessagesToDut o) (mMessagesFromDut o).

(** An exception object that is created but not thrown changes nothing. *)
Definition not_thrown {A} (f : fault) (a : A) : A := a.

Definition registerModule (now : simtime) (module : nat) (o : OtaInterfaceUsrp) : res OtaInterfaceUsrp :=
  match mRegisteredModule o with
  | Some _ => Ok (not_thrown (RuntimeError "OTA Interface: Module registered twice!") o)
  | None =>
      match mGpsdTimer o with
      | NoTimer => Ok (set_registered (Some module) NoTimer o)
      | GpsdTimer None => Ok (set_registered (Some module) (GpsdTimer (Some (mGpsdUpdateRate o + now))) o)
      | GpsdTimer (Some _) => Fail (RuntimeError "scheduleAt: message is already scheduled")
      | TimerDeleted => Fail (Undefined "use of the deleted GPSD timer")
      end
  end.

Definition unregisterModule (o : OtaInterfaceUsrp) : res OtaInterfaceUsrp :=
  match mGpsdTimer o with
  | NoTimer => Ok (set_registered None NoTimer o)
  | GpsdTimer _ => Ok (set_registered None TimerDeleted o)
  | TimerDeleted => Fail (Undefined "the GPSD timer is deleted twice")
  end.

Definition hasRegisteredModule (o : OtaInterfaceUsrp) : bool := bool_decide (is_Some (mRegisteredModule o)).

(** [handleMessage]: whether a position fix is sent, and the next one's time; other
    messages are ignored. *)
Definition ota_handleMessage (now : simtime) (is_timer : bool) (o : OtaInterfaceUsrp) : bool * OtaInterfaceUsrp :=
  if is_timer then
    (mGpsdServer o && hasRegisteredModule o,
     set_registered (mRegisteredModule o) (GpsdTimer (Some (now + mGpsdUpdateRate o))) o)
  else (false, o).

(** [initialize]'s second stage after the connection is made *)
Definition ota_initialize (fake : bool) (open_gpsd : bool) (rate : simtime) : OtaInterfaceUsrp :=
  mkOta fake None (if open_gpsd then GpsdTimer None else NoTimer) (if open_gpsd then rate else 0) open_gpsd 0 0.

(** The check of the connection is void: without the fake mode nothing is tested. *)
Definition testUsrpConnection (isConnectionOk : bool) (o : OtaInterfaceUsrp) : res unit :=
  if mFakeMode o then Ok tt
  else if negb isConnectionOk && mFakeMode o then Fail (RuntimeError "Could not connect to USRP")
  else Ok tt.

(** ** UsrpConnection *)
(** [connectToUsrp]: [answered c] tells if the answer has arrived by the [c]-th check; the
    result is the number of seconds slept. *)
Fixpoint connect_loop (answered : nat -> bool) (c : nat) (remaining : nat) : res nat :=
  match remaining with
  | O => Fail (RuntimeError "Unable to connect to USRP")
  | S n => if answered c then Ok c else connect_loop answered (S c) n
  end.
Definition connectToUsrp (answered : nat -> bool) (connectTimeout : Z) : res nat :=
  connect_loop answered 0 (Z.to_nat connectTimeout).

Record MA_UNITDATA_request := mkUnitdata {
  ur_data : list Z;
  ur_destination_address : list Z;
  ur_source_address : list Z;
  ur_routing_information : Z;
  ur_priority : Z;
  ur_service_class : ServiceClassType;
  ur_tx_power_level : Z;
  ur_mcs : Z
}.
Definition sendPacket (source destination : list Z) (data : list Z) : MA_UNITDATA_request :=
  mkUnitdata data destination source 0 7 AC_VO 23 2.

Definition ota_sendMessage (source destination data : list Z) (o : OtaInterfaceUsrp) :
    MA_UNITDATA_request * OtaInterfaceUsrp :=
  (sendPacket source destination data,
   mkOta (mFakeMode o) (mRegisteredModule o) (mGpsdTimer o) (mGpsdUpdateRate o) (mGpsdServer o)
     (mMessagesToDut o + 1) (mMessagesFromDut o)).

(** ** OtaInterfaceLayer *)
(** A packet the twin's radio received goes to the device; [bytes] is vanetza's
    serialisation of a payload. *)
Definition layer_handleMessage {Payload} (bytes : Payload -> list Z) (from_radio : bool)
    (packet : GeoNetPacket Payload) (info : option (list Z * list Z)) (o : OtaInterfaceUsrp) :
    res (list MA_UNITDATA_request * OtaInterfaceUsrp) :=
  if from_radio then
    match info with
    | None => Fail (RuntimeError "check_and_cast: null pointer")
    | Some (source, destination) =>
        payload ← getPayload packet;
        let '(request, o) := ota_sendMessage source destination (bytes payload) o in
        Ok ([request], o)
    end
  else Ok ([], o).

(** ** TestbedRadio *)
(** A successfully received frame renews its transmitter's entry. *)
Definition endReception (now : simtime) (successful : bool) (transmitter : option Z)
    (m : list (Z * simtime)) : list (Z * simtime) :=
  match transmitter with
  | Some mac => if successful then om_set mac now m else m
  | None => m
  end.

Fixpoint updateReachableNodes (now mReachableTime : simtime) (m : list (Z * simtime)) : list (Z * simtime) :=
  match m with
  | [] => []
  | (mac, t) :: m' =>
      if mReachableTime <? now - t then updateReachableNodes now mReachableTime m'
      else (mac, t) :: updateReachableNodes now mReachableTime m'
  end.

(** ** TestbedScheduler *)
(** What an event does is left open but for the packets the twin's layer sends to its
    radio driver. *)
Inductive event_body := ToRadio (packet : DutPacket) | OtherEvent (what : nat).
Abbreviation tevent := (cEvent event_body).

Section Scheduler.
Context {F : Type} `{!FutureEventSet F event_body}.

(** The surroundings: [tick n] is the time (in nanoseconds) between the [n-1]-th and the
    [n]-th reading of the system clock, [radio n] the packets the radio's thread appends
    before the scheduler's thread gets the queue's mutex for the [n]-th time; an
    interruptible wait gets it once more when it ends. *)
Variable tick : nat -> N.
Variable radio : nat -> list DutPacket.

Record testbed := mkTestbed {
  fes : F;
  allocated : nat;                  (** events created so far *)
  simTime : simtime;
  system_clock : Z;
  clock_reads : nat;
  lock_takes : nat;
  mOtaIndicationQueue : option OtaIndicationQueue;
  ota : OtaInterfaceUsrp;
  requested : list DutPacket;       (** handed to the registered layer's [request] *)
  mBaseTime : Z;
  mThresholdTooSlow : Z;
  mStartupTime : simtime
}.

Definition set_fes (f : F) (s : testbed) : testbed :=
  mkTestbed f (allocated s) (simTime s) (system_clock s) (clock_reads s) (lock_takes s)
    (mOtaIndicationQueue s) (ota s) (requested s) (mBaseTime s) (mThresholdTooSlow s) (mStartupTime s).
Definition set_queue (q : OtaIndicationQueue) (s : testbed) : testbed :=
  mkTestbed (fes s) (allocated s) (simTime s) (system_clock s) (clock_reads s) (lock_takes s)
    (Some q) (ota s) (requested s) (mBaseTime s) (mThresholdTooSlow s) (mStartupTime s).
Definition set_clock (t : Z) (s : testbed) : testbed :=
  mkTestbed (fes s) (allocated s) (simTime s) t (clock_reads s) (lock_takes s)
    (mOtaIndicationQueue s) (ota s) (requested s) (mBaseTime s) (mThresholdTooSlow s) (mStartupTime s).
Definition set_base (t : Z) (s : testbed) : testbed :=
  mkTestbed (fes s) (allocated s) (simTime s) (system_clock s) (clock_reads s) (lock_takes s)
    (mOtaIndicationQueue s) (ota s) (requested s) t (mThresholdTooSlow s) (mStartupTime s).

(** [std::chrono::system_clock::now()] *)
Definition clock_now (s : testbed) : Z * testbed :=
  let t := system_clock s + Z.of_N (tick (clock_reads s)) in
  (t, mkTestbed (fes s) (allocated s) (simTime s) t (S (clock_reads s)) (lock_takes s)
        (mOtaIndicationQueue s) (ota s) (requested s) (mBaseTime s) (mThresholdTooSlow s) (mStartupTime s)).

(** Taking the mutex: what the other thread has appended before becomes visible. *)
Definition lock (q : OtaIndicationQueue) (s : testbed) : OtaIndicationQueue * testbed :=
  let q := foldl (fun q p => queue_trigger p q) q (radio (lock_takes s)) in
  (q, mkTestbed (fes s) (allocated s) (simTime s) (system_clock s) (clock_reads s) (S (lock_takes s))
        (Some q) (ota s) (requested s) (mBaseTime s) (mThresholdTooSlow s) (mStartupTime s)).

(** [OtaInterfaceUsrp::receiveMessage]: the layer sends the packet to its radio driver,
    where it arrives at the present time. *)
Definition receiveMessage (packet : DutPacket) (s : testbed) : testbed :=
  if hasRegisteredModule (ota s) then
    let o := ota s in
    mkTestbed (fes_insert (mkEvent (allocated s) (simTime s) false (ToRadio packet)) (fes s))
      (S (allocated s)) (simTime s) (system_clock s) (clock_reads s) (lock_takes s) (mOtaIndicationQueue s)
      (mkOta (mFakeMode o) (mRegisteredModule o) (mGpsdTimer o) (mGpsdUpdateRate o) (mGpsdServer o)
         (mMessagesToDut o) (mMessagesFromDut o + 1))
      (requested s ++ [packet]) (mBaseTime s) (mThresholdTooSlow s) (mStartupTime s)
  else s.

(** The body [flushQueue] and [waitFor] share, run with the mutex held. *)
Definition hand_over (q : OtaIndicationQueue) (s : testbed) : testbed :=
  let s := if hasRegisteredModule (ota s)
           then foldl (fun s p => receiveMessage p s) s (mIndicationList q) else s in
  set_queue (mkQueue [] false) s.

Definition flushQueue (q : OtaIndicationQueue) (s : testbed) : testbed :=
  let '(q, s) := lock q s in hand_over q s.

(** [wait_for] with a predicate: it returns at once if there are indications; else it
    ends when the radio's thread notifies it, or when the time is over. *)
Definition waitFor (us : Z) (q : OtaIndicationQueue) (s : testbed) : testbed :=
  let '(q, s) := lock q s in
  if mNotified q then hand_over q s
  else
    let '(q, s) := lock q s in
    if mNotified q then hand_over q s
    else set_clock (system_clock s + 1000 * Z.max 0 us) s.

Definition doTiming (event : tevent) (s : testbed) : testbed :=
  let arrival := mBaseTime s + 1000 * inUnit_US (getArrivalTime event) in
  let '(now, s) := clock_now s in
  let wait := arrival - now in
  match mOtaIndicationQueue s, 0 <=? wait with
  | Some q, true =>
      let s := flushQueue q s in
      let '(now, s) := clock_now s in
      waitFor (Z.quot (arrival - now) 1000) (default (mkQueue [] false) (mOtaIndicationQueue s)) s
  | _, _ =>
      if (mStartupTime s <? simTime s) && (mThresholdTooSlow s <? - wait)
      then not_thrown (RuntimeError "Simulation too far behind real-time") s
      else s
  end.

Fixpoint peek_loop (fuel : nat) (f : F) : res (tevent * F) :=
  match fuel with
  | O => Fail (Undefined "fuel")
  | S n =>
      match peekFirst f with
      | None => Fail (Terminated "No more events")
      | Some event => if isStale event then peek_loop n (removeFirst f).2 else Ok (event, f)
      end
  end.
Definition peekFirstNonStaleEvent (s : testbed) : res (tevent * testbed) :=
  r ← peek_loop (S (getLength (fes s))) (fes s);
  Ok ((r : tevent * F).1, set_fes r.2 s).

Definition guessNextEvent (s : testbed) : res (option tevent * testbed) :=
  match peekFirstNonStaleEvent s with
  | Ok (e, s) => Ok (Some e, s)
  | Fail (Terminated _) => Ok (None, set_fes (foldr (fun _ f => (removeFirst f).2) (fes s) (events (fes s))) s)
  | Fail f => Fail f
  end.

(** The [do ... while] loop; events are compared by address. *)
Fixpoint take_loop (fuel : nat) (init : tevent) (s : testbed) : res (tevent * testbed) :=
  match fuel with
  | O => Fail (Undefined "fuel")
  | S n =>
      r ← peekFirstNonStaleEvent (doTiming init s);
      let '(after, s) := r : tevent * testbed in
      if Nat.eqb (ev_id init) (ev_id after) then Ok (after, s) else take_loop n after s
  end.

Definition takeNextEvent (fuel : nat) (s : testbed) : res (tevent * testbed) :=
  r ← peekFirstNonStaleEvent s;
  let '(init, s) := r : tevent * testbed in
  r ← take_loop fuel init s;
  let '(_, s) := r : tevent * testbed in
  match removeFirst (fes s) with
  | (Some next, f) => assert_ "!next->isStale()" (negb (isStale next)) ;; Ok (next, set_fes f s)
  | (None, _) => Fail (Undefined "removeFirst on an empty event set")
  end.

Definition testbed_startRun (threshold_ms : Z) (startup : simtime) (s : testbed) : testbed :=
  let s := mkTestbed (fes s) (allocated s) (simTime s) (system_clock s) (clock_reads s) (lock_takes s)
             (mOtaIndicationQueue s) (ota s) (requested s) (mBaseTime s) (threshold_ms * 1000000) startup in
  let '(now, s) := clock_now s in set_base now s.
Definition testbed_executionResumed (s : testbed) : testbed :=
  let '(now, s) := clock_now s in set_base (now - 1000 * inUnit_US (simTime s)) s.
Definition testbed_putBackEvent (e : tevent) (s : testbed) : testbed := set_fes (putBackFirst e (fes s)) s.
Definition setOtaIndicationQueue (q : option OtaIndicationQueue) (s : testbed) : testbed :=
  match q with
  | Some q => set_queue q s
  | None => mkTestbed (fes s) (allocated s) (simTime s) (system_clock s) (clock_reads s) (lock_takes s)
              None (ota s) (requested s) (mBaseTime s) (mThresholdTooSlow s) (mStartupTime s)
  end.

(** ** What the operations keep *)
Definition queued (s : testbed) : list DutPacket :=
  match mOtaIndicationQueue s with Some q => mIndicationList q | None => [] end.
(** the packets appended before the [a]-th up to the [b]-th taking of the mutex *)
Definition heard (a b : nat) : list DutPacket := concat (radio <$> seq a (b - a)).
#[local] Arguments heard : simpl never.

(** The queue is marked exactly if it has indications: no notification is lost. *)
Definition marked (q : OtaIndicationQueue) : Prop := mNotified q = true <-> mIndicationList q <> [].
Definition queue_ok (s : testbed) : Prop := forall q, mOtaIndicationQueue s = Some q -> marked q.

(** Packets flow in order and completely, or are dropped while no layer is registered. *)
Record flow (s s' : testbed) : Prop := {
  fl_registered : mRegisteredModule (ota s') = mRegisteredModule (ota s);
  fl_queue : is_Some (mOtaIndicationQueue s') <-> is_Some (mOtaIndicationQueue s);
  fl_marked : queue_ok s -> queue_ok s';
  fl_locks : (lock_takes s <= lock_takes s')%nat;
  fl_clock : system_clock s <= system_clock s';
  fl_time : simTime s' = simTime s /\ mBaseTime s' = mBaseTime s;
  fl_passed : hasRegisteredModule (ota s) = true ->
    requested s' ++ queued s' = requested s ++ queued s ++ heard (lock_takes s) (lock_takes s');
  fl_dropped : hasRegisteredModule (ota s) = false -> requested s' = requested s
}.

Lemma heard_nil a : heard a a = [].
Proof. unfold heard. by rewrite Nat.sub_diag. Qed.
Lemma heard_S a : heard a (S a) = radio a.
Proof. unfold heard. replace (S a - a)%nat with 1%nat by lia. cbn. by rewrite app_nil_r. Qed.
Lemma heard_app a b c : (a <= b <= c)%nat -> heard a b ++ heard b c = heard a c.
Proof.
  intros H. unfold heard. rewrite <- concat_app, <- fmap_app. f_equal. f_equal.
  replace (c - a)%nat with ((b - a) + (c - b))%nat by lia. rewrite seq_app. do 2 f_equal. lia.
Qed.

Lemma flow_refl s : flow s s.
Proof. split; try done. intros _. by rewrite heard_nil, app_nil_r. Qed.

Lemma flow_trans s1 s2 s3 : flow s1 s2 -> flow s2 s3 -> flow s1 s3.
Proof.
  intros [R1 Q1 M1 L1 C1 [T1 B1] P1 D1] [R2 Q2 M2 L2 C2 [T2 B2] P2 D2].
  assert (hasRegisteredModule (ota s2) = hasRegisteredModule (ota s1)) as HR
    by (unfold hasRegisteredModule; by rewrite R1).
  split; [congruence|tauto|tauto|lia|lia|split; congruence| |].
  - intros H. rewrite P2 by congruence. rewrite app_assoc, P1 by done. rewrite <- !app_assoc. do 2 f_equal.
    by apply heard_app.
  - intros H. rewrite D2 by congruence. by apply D1.
Qed.

Lemma flow_set_fes f s : flow s (set_fes f s).
Proof. split; try done. intros _. by rewrite heard_nil, app_nil_r. Qed.

Lemma flow_clock_now s : flow s (clock_now s).2.
Proof. split; cbn; try done; [lia|]. intros _. by rewrite heard_nil, app_nil_r. Qed.

Lemma flow_set_clock t s : system_clock s <= t -> flow s (set_clock t s).
Proof. intros Ht. split; cbn; try done. intros _. by rewrite heard_nil, app_nil_r. Qed.

Lemma triggers q ps :
  let q' := foldl (fun q p => queue_trigger p q) q ps in
  mIndicationList q' = mIndicationList q ++ ps /\ (marked q -> marked q').
Proof.
  revert q. induction ps as [|p ps IH]; intros q; cbn; [by rewrite app_nil_r|].
  destruct (IH (queue_trigger p q)) as [-> H]. cbn. rewrite <- app_assoc. split; [done|].
  intros _. apply H. split; [|done]. intros _. cbn. by destruct (mIndicationList q).
Qed.

Lemma lock_flow q s : mOtaIndicationQueue s = Some q ->
  flow s (lock q s).2 /\ mOtaIndicationQueue (lock q s).2 = Some (lock q s).1.
Proof.
  intros Hq. destruct (triggers q (radio (lock_takes s))) as [Hl Hm]. split; [|done].
  split; cbn; try done.
  - intros Hs q' [= <-]. apply Hm, Hs, Hq.
  - lia.
  - intros _. unfold queued. cbn. rewrite Hq, Hl, heard_S. done.
Qed.

Lemma receive_one p s : hasRegisteredModule (ota s) = true ->
  let s' := receiveMessage p s in
  requested s' = requested s ++ [p] /\ mRegisteredModule (ota s') = mRegisteredModule (ota s) /\
  mOtaIndicationQueue s' = mOtaIndicationQueue s /\ lock_takes s' = lock_takes s /\
  system_clock s' = system_clock s /\ simTime s' = simTime s /\ mBaseTime s' = mBaseTime s.
Proof. intros Hr. unfold receiveMessage. by rewrite Hr. Qed.

Lemma receive_all_spec ps s : hasRegisteredModule (ota s) = true ->
  let s' := foldl (fun s p => receiveMessage p s) s ps in
  requested s' = requested s ++ ps /\ mRegisteredModule (ota s') = mRegisteredModule (ota s) /\
  mOtaIndicationQueue s' = mOtaIndicationQueue s /\ lock_takes s' = lock_takes s /\
  system_clock s' = system_clock s /\ simTime s' = simTime s /\ mBaseTime s' = mBaseTime s.
Proof.
  revert s. induction ps as [|p ps IH]; intros s Hr; cbn [foldl]; [by rewrite app_nil_r|].
  destruct (receive_one p s Hr) as (H1 & H2 & H3 & H4 & H5 & H6 & H7).
  destruct (IH (receiveMessage p s)) as (-> & -> & -> & -> & -> & -> & ->);
    [unfold hasRegisteredModule; by rewrite H2|].
  rewrite H1, <- app_assoc. by split_and!.
Qed.

Lemma hand_over_flow q s : mOtaIndicationQueue s = Some q ->
  flow s (hand_over q s) /\ mOtaIndicationQueue (hand_over q s) = Some (mkQueue [] false).
Proof.
  intros Hq. split; [|done]. unfold hand_over. destruct (hasRegisteredModule (ota s)) eqn:Hr.
  - destruct (receive_all_spec (mIndicationList q) s Hr) as (Hreq & HR & HQ & HL & HC & HT & HB).
    split; cbn; rewrite ?HL, ?HC, ?HT, ?HB; try done.
    + intros _ q' [= <-]. done.
    + intros _. rewrite Hreq. unfold queued. cbn. rewrite Hq, heard_nil, !app_nil_r. done.
    + congruence.
  - split; cbn; try done.
    + intros _ q' [= <-]. done.
    + congruence.
Qed.

Lemma flush_flow q s : mOtaIndicationQueue s = Some q ->
  flow s (flushQueue q s) /\ mOtaIndicationQueue (flushQueue q s) = Some (mkQueue [] false).
Proof.
  intros Hq. unfold flushQueue. destruct (lock_flow q s Hq) as [H1 H2].
  destruct (lock q s) as [q1 s1]. cbn [fst snd] in *. destruct (hand_over_flow q1 s1 H2) as [H3 H4].
  split; [by eapply flow_trans|done].
Qed.

Lemma waitFor_flow us q s : mOtaIndicationQueue s = Some q -> queue_ok s ->
  flow s (waitFor us q s) /\ queued (waitFor us q s) = [].
Proof.
  intros Hq Hok. unfold waitFor. destruct (lock_flow q s Hq) as [H1 H2].
  destruct (lock q s) as [q1 s1]. cbn [fst snd] in *. destruct (mNotified q1).
  - destruct (hand_over_flow q1 s1 H2) as [H3 H4]. unfold queued. rewrite H4. split; [by eapply flow_trans|done].
  - destruct (lock_flow q1 s1 H2) as [H3 H4]. destruct (lock q1 s1) as [q2 s2]. cbn [fst snd] in *.
    pose proof (flow_trans _ _ _ H1 H3) as H13. destruct (mNotified q2) eqn:Hn.
    + destruct (hand_over_flow q2 s2 H4) as [H5 H6]. unfold queued. rewrite H6. split; [by eapply flow_trans|done].
    + pose proof (fl_marked _ _ H13 Hok q2 H4) as [_ Hm]. unfold queued. cbn. rewrite H4. split.
      * eapply flow_trans; [exact H13|]. apply flow_set_clock. lia.
      * destruct (mIndicationList q2); [done|]. rewrite Hn in Hm. discriminate Hm. done.
Qed.

(** ** Which event comes first *)
Context `{!FutureEventSetLaws F event_body}.

Definition events_ok (s : testbed) : Prop :=
  sorted_events (fes s) /\ Forall (fun e => (ev_id e < allocated s)%nat) (events (fes s)).

(** The first live event is the given one or was created later. *)
Definition led_by (init : tevent) (a0 : nat) (s : testbed) : Prop :=
  events_ok s /\ (a0 <= allocated s)%nat /\
  exists h, head (live (fes s)) = Some h /\ (h = init \/ (a0 <= ev_id h)%nat).

Lemma led_by_ext init a0 s s' : fes s' = fes s -> allocated s' = allocated s ->
  led_by init a0 s -> led_by init a0 s'.
Proof. unfold led_by, events_ok. by intros -> ->. Qed.

Lemma receive_led init a0 p s : led_by init a0 s ->
  led_by init a0 (receiveMessage p s) /\
  (hasRegisteredModule (ota s) = true -> (ev_id init < a0)%nat ->
   head (live (fes (receiveMessage p s))) = Some init -> getArrivalTime init <= simTime s).
Proof.
  intros Hled. pose proof Hled as ([Hs Hi] & Ha & h & Hh & Hor). unfold receiveMessage.
  destruct (hasRegisteredModule (ota s)); [|done].
  set (e := mkEvent (allocated s) (simTime s) false (ToRadio p)).
  destruct (live_insert e (fes s) eq_refl) as (l1 & l2 & Hl & Hl' & H1). split.
  - split_and!; cbn; [split; cbn|lia|].
    + by apply sorted_insert.
    + apply Forall_forall. intros x [->|Hx]%elem_of_insert; [cbn; lia|].
      eapply Forall_forall in Hi; [|exact Hx]. cbn in Hi. lia.
    + rewrite Hl'. rewrite Hl in Hh. destruct l1 as [|x l1]; cbn in *; [|eauto]. exists e. split; [done|]. by right.
  - intros _ Hid. cbn. rewrite Hl'. destruct l1 as [|x l1]; cbn.
    + intros [= He]. rewrite <- He in Hid. cbn in Hid. lia.
    + intros [= ->]. by apply Forall_cons in H1 as [? _].
Qed.

Lemma receive_all_led init a0 ps s : led_by init a0 s ->
  led_by init a0 (foldl (fun s p => receiveMessage p s) s ps).
Proof.
  revert s. induction ps as [|p ps IH]; intros s Hl; cbn; [done|]. apply IH. by apply receive_led.
Qed.

Lemma hand_over_led init a0 q s : led_by init a0 s ->
  led_by init a0 (hand_over q s) /\
  (hasRegisteredModule (ota s) = true -> (ev_id init < a0)%nat -> mIndicationList q <> [] ->
   head (live (fes (hand_over q s))) = Some init -> getArrivalTime init <= simTime s).
Proof.
  intros Hl. unfold hand_over. destruct (hasRegisteredModule (ota s)) eqn:Hr; [|split; [by eapply led_by_ext|done]].
  split; [eapply led_by_ext; [..|by apply (receive_all_led init a0 (mIndicationList q))]; done|].
  intros _ Hid Hne. cbn [set_queue fes]. destruct (mIndicationList q) as [|p ps] using rev_ind; [done|].
  rewrite foldl_app. cbn [foldl]. pose proof (receive_all_led init a0 ps s Hl) as Hl'.
  destruct (receive_all_spec ps s Hr) as (_ & HR & _ & _ & _ & HT & _). rewrite <- HT.
  apply (receive_led _ _ p _ Hl'); [|done]. unfold hasRegisteredModule. by rewrite HR.
Qed.

Lemma hand_over_empty q s : mIndicationList q = [] -> fes (hand_over q s) = fes s.
Proof. unfold hand_over. intros ->. by destruct (hasRegisteredModule (ota s)). Qed.

(** An event is on time if the wall clock has reached its arrival time, up to the
    microsecond a wait is rounded by, or if it belongs to the present simulation time. *)
Definition on_time (e : tevent) (s : testbed) : Prop :=
  getArrivalTime e <= simTime s \/
  mBaseTime s + 1000 * inUnit_US (getArrivalTime e) - 1000 < system_clock s.

Lemma lock_led init a0 q s : led_by init a0 s -> led_by init a0 (lock q s).2.
Proof. by apply led_by_ext. Qed.

Lemma flush_led init a0 q s : led_by init a0 s -> led_by init a0 (flushQueue q s).
Proof.
  intros Hl. unfold flushQueue. pose proof (lock_led init a0 q s Hl) as Hl1.
  destruct (lock q s) as [q1 s1]. by apply hand_over_led.
Qed.

Lemma waitFor_led init a0 us q s : mOtaIndicationQueue s = Some q -> queue_ok s -> led_by init a0 s ->
  led_by init a0 (waitFor us q s) /\
  (hasRegisteredModule (ota s) = true -> (ev_id init < a0)%nat ->
   head (live (fes (waitFor us q s))) = Some init ->
   getArrivalTime init <= simTime s \/ system_clock s + 1000 * Z.max 0 us <= system_clock (waitFor us q s)).
Proof.
  intros Hq Hok Hl. unfold waitFor. destruct (lock_flow q s Hq) as [F1 Q1].
  pose proof (lock_led init a0 q s Hl) as Hl1. destruct (lock q s) as [q1 s1]. cbn [fst snd] in *.
  pose proof (fl_marked _ _ F1 Hok) as Hok1. destruct (fl_time _ _ F1) as [T1 _].
  assert (forall s', mRegisteredModule (ota s') = mRegisteredModule (ota s) ->
    hasRegisteredModule (ota s') = hasRegisteredModule (ota s)) as HR by (unfold hasRegisteredModule; by intros s' ->).
  destruct (mNotified q1) eqn:N1.
  - destruct (hand_over_led init a0 q1 s1 Hl1) as [H1 H2]. split; [done|]. intros Hr Hid Hh. left. rewrite <- T1.
    apply H2; [by rewrite HR by apply F1|done|by apply (Hok1 q1 Q1)|done].
  - destruct (lock_flow q1 s1 Q1) as [F2 Q2]. pose proof (lock_led init a0 q1 s1 Hl1) as Hl2.
    destruct (lock q1 s1) as [q2 s2]. cbn [fst snd] in *.
    pose proof (fl_marked _ _ F2 Hok1) as Hok2. pose proof (flow_trans _ _ _ F1 F2) as F3.
    destruct (mNotified q2) eqn:N2.
    + destruct (hand_over_led init a0 q2 s2 Hl2) as [H1 H2]. split; [done|]. intros Hr Hid Hh. left.
      rewrite <- (proj1 (fl_time _ _ F3)).
      apply H2; [by rewrite HR by apply F3|done|by apply (Hok2 q2 Q2)|done].
    + split; [by eapply led_by_ext|]. intros _ _ _. right. cbn. pose proof (fl_clock _ _ F3). lia.
Qed.

Lemma flush_silent q s : radio (lock_takes s) = [] -> mIndicationList q = [] -> fes (flushQueue q s) = fes s.
Proof. intros Hr Hq. unfold flushQueue, lock. rewrite Hr. cbn [foldl]. by rewrite hand_over_empty. Qed.

Lemma waitFor_silent us q s : (forall n, (lock_takes s <= n)%nat -> radio n = []) -> mIndicationList q = [] ->
  fes (waitFor us q s) = fes s.
Proof.
  intros Hr Hq. unfold waitFor, lock. rewrite Hr by done. cbn [foldl lock_takes]. rewrite (Hr (S _)) by lia.
  cbn [foldl]. destruct (mNotified q); [by rewrite hand_over_empty|done].
Qed.

Lemma hand_over_locks q s : lock_takes (hand_over q s) = lock_takes s.
Proof.
  unfold hand_over. destruct (hasRegisteredModule (ota s)) eqn:Hr; [|done].
  by destruct (receive_all_spec (mIndicationList q) s Hr) as (_ & _ & _ & ? & _).
Qed.

Lemma flush_locks q s : lock_takes (flushQueue q s) = S (lock_takes s).
Proof. unfold flushQueue, lock. by rewrite hand_over_locks. Qed.

Lemma waitFor_locks us q s : (S (lock_takes s) <= lock_takes (waitFor us q s))%nat.
Proof.
  unfold waitFor, lock. cbn [lock_takes]. destruct (mNotified _); [by rewrite hand_over_locks|].
  destruct (mNotified _); [rewrite hand_over_locks|]; cbn; lia.
Qed.

(** [doTiming] either goes on at once or flushes and waits. *)
Lemma doTiming_cases e s :
  let arrival := mBaseTime s + 1000 * inUnit_US (getArrivalTime e) in
  let s0 := (clock_now s).2 in
  (doTiming e s = s0 /\ (mOtaIndicationQueue s = None \/ arrival < system_clock s0)) \/
  exists q, mOtaIndicationQueue s = Some q /\ let s2 := (clock_now (flushQueue q s0)).2 in
    doTiming e s = waitFor (Z.quot (arrival - system_clock s2) 1000) (mkQueue [] false) s2.
Proof.
  cbn zeta. unfold doTiming. assert (mOtaIndicationQueue (clock_now s).2 = mOtaIndicationQueue s) as HQ by done.
  assert ((clock_now s).1 = system_clock (clock_now s).2) as Hn by done.
  destruct (clock_now s) as [now s0]. cbn [fst snd] in *. rewrite HQ, <- Hn.
  destruct (mOtaIndicationQueue s) as [q|]; [|left; split; [by destruct (_ && _)|by left]].
  destruct (Z.leb_spec 0 (mBaseTime s + 1000 * inUnit_US (getArrivalTime e) - now)).
  - right. exists q. done.
  - left. split; [by destruct (_ && _)|right; lia].
Qed.

Lemma doTiming_flow e s : queue_ok s ->
  flow s (doTiming e s) /\
  (fes (doTiming e s) = fes s \/ (lock_takes s + 2 <= lock_takes (doTiming e s))%nat) /\
  ((lock_takes (doTiming e s) = lock_takes s /\ queued (doTiming e s) = queued s) \/ queued (doTiming e s) = []).
Proof.
  intros Hok. pose proof (flow_clock_now s) as F0.
  destruct (doTiming_cases e s) as [[-> _]|(q & Hq & ->)]; [by split_and!; try left|].
  set (s0 := (clock_now s).2) in *. destruct (flush_flow q s0 Hq) as [F1 Q1].
  pose proof (flow_trans _ _ _ (flow_trans _ _ _ F0 F1) (flow_clock_now _)) as F2.
  assert (lock_takes (clock_now (flushQueue q s0)).2 = S (lock_takes s)) as HL.
  { cbn [clock_now snd lock_takes]. by rewrite flush_locks. }
  set (s2 := (clock_now (flushQueue q s0)).2) in *.
  destruct (waitFor_flow (Z.quot (mBaseTime s + 1000 * inUnit_US (getArrivalTime e) - system_clock s2) 1000)
    _ s2 Q1 (fl_marked _ _ F2 Hok)) as [F3 HQ].
  split_and!; [by eapply flow_trans| |by right]. right.
  etrans; [|apply waitFor_locks]. lia.
Qed.

Lemma doTiming_silent e s : (forall n, (lock_takes s <= n)%nat -> radio n = []) -> queued s = [] ->
  fes (doTiming e s) = fes s.
Proof.
  intros Hr Hl. destruct (doTiming_cases e s) as [[-> _]|(q & Hq & ->)]; [done|].
  unfold queued in Hl. rewrite Hq in Hl. rewrite waitFor_silent; [|intros n Hn; apply Hr|done].
  - cbn [clock_now snd fes]. by rewrite flush_silent by (try apply Hr; done).
  - cbn [clock_now snd lock_takes] in Hn. rewrite flush_locks in Hn. cbn in Hn. lia.
Qed.

Lemma doTiming_led init a0 s : queue_ok s -> led_by init a0 s ->
  led_by init a0 (doTiming init s) /\
  (is_Some (mOtaIndicationQueue s) -> hasRegisteredModule (ota s) = true -> (ev_id init < a0)%nat ->
   head (live (fes (doTiming init s))) = Some init -> on_time init (doTiming init s)).
Proof.
  intros Hok Hl. pose proof (flow_clock_now s) as F0.
  destruct (doTiming_cases init s) as [[-> Hd]|(q & Hq & ->)].
  - split; [done|]. intros [q Hq] _ _ _. right. destruct Hd as [Hd|Hd]; [congruence|]. cbn in Hd |- *. lia.
  - set (s0 := (clock_now s).2) in *. destruct (flush_flow q s0 Hq) as [F1 Q1].
    pose proof (flow_trans _ _ _ (flow_trans _ _ _ F0 F1) (flow_clock_now _)) as F2.
    assert (led_by init a0 (clock_now (flushQueue q s0)).2) as Hl2.
    { eapply led_by_ext; [..|apply (flush_led _ _ q s0)]; [done..|]. by eapply led_by_ext. }
    set (s2 := (clock_now (flushQueue q s0)).2) in *.
    pose proof (waitFor_led init a0 (Z.quot (mBaseTime s + 1000 * inUnit_US (getArrivalTime init) -
      system_clock s2) 1000) _ s2 Q1 (fl_marked _ _ F2 Hok) Hl2) as [H3 H4].
    destruct (waitFor_flow (Z.quot (mBaseTime s + 1000 * inUnit_US (getArrivalTime init) -
      system_clock s2) 1000) _ s2 Q1 (fl_marked _ _ F2 Hok)) as [F3 _].
    split; [done|]. intros _ Hr Hid Hh. unfold on_time.
    destruct (fl_time _ _ F3) as [-> ->], (fl_time _ _ F2) as [HT HB].
    destruct H4 as [H4|H4]; [|done..| |].
    + unfold hasRegisteredModule. by rewrite (fl_registered _ _ F2).
    + by left.
    + right. rewrite HB. pose proof (Z.quot_rem' (mBaseTime s + 1000 * inUnit_US (getArrivalTime init) - system_clock s2) 1000).
      pose proof (Z.rem_bound_abs (mBaseTime s + 1000 * inUnit_US (getArrivalTime init) - system_clock s2) 1000 ltac:(lia)). lia.
Qed.

(** *** The next event *)
Lemma peek_loop_spec n (f : F) : (length (events f) < n)%nat ->
  match head (live f) with
  | Some e => exists f', peek_loop n f = Ok (e, f') /\ live f' = live f /\ head (events f') = Some e /\
      exists k, events f' = drop k (events f)
  | None => peek_loop n f = Fail (Terminated "No more events")
  end.
Proof.
  revert f. induction n as [|n IH]; intros f Hn; [lia|]. cbn [peek_loop]. rewrite peekFirst_head.
  destruct (events f) as [|x l] eqn:He; cbn [head]; [unfold live; by rewrite He|].
  destruct (isStale x) eqn:Hs.
  - specialize (IH (removeFirst f).2). rewrite removeFirst_tail, He in IH.
    rewrite (live_cons_stale f x) in IH by (try rewrite He; done). cbn [tail] in IH.
    destruct (head (live f)); [|apply IH; cbn in Hn; lia].
    destruct IH as (f' & ? & ? & ? & k & ?); [cbn in Hn; lia|]. exists f'. split_and!; try done. by exists (S k).
  - assert (head (live f) = Some x) as -> by (unfold live; rewrite He, filter_cons_True by done; done).
    exists f. rewrite He. split_and!; try done. by exists 0%nat.
Qed.

Lemma drop_sorted (f f' : F) k : events f' = drop k (events f) -> sorted_events f -> sorted_events f'.
Proof.
  unfold sorted_events. intros ->. generalize (events f). induction k as [|k IH]; intros [|x l]; cbn; try done.
  intros [H _]%StronglySorted_inv. by apply IH.
Qed.

Lemma peek_spec s : events_ok s ->
  match head (live (fes s)) with
  | Some e => exists f, peekFirstNonStaleEvent s = Ok (e, set_fes f s) /\ live f = live (fes s) /\
      head (events f) = Some e /\ events_ok (set_fes f s)
  | None => peekFirstNonStaleEvent s = Fail (Terminated "No more events")
  end.
Proof.
  intros [Hs Hi]. unfold peekFirstNonStaleEvent. rewrite getLength_length.
  pose proof (peek_loop_spec (S (length (events (fes s)))) (fes s) ltac:(lia)) as H.
  destruct (head (live (fes s))) as [e|]; [|by rewrite H].
  destruct H as (f & -> & Hl & Hh & k & Hk). exists f. split_and!; try done. split; cbn.
  - by eapply drop_sorted.
  - rewrite Hk. by apply Forall_drop.
Qed.

Lemma take_loop_flow fuel init s e s' : queue_ok s -> take_loop fuel init s = Ok (e, s') ->
  flow s s' /\ ((lock_takes s' = lock_takes s /\ queued s' = queued s) \/ queued s' = []).
Proof.
  revert init s. induction fuel as [|n IH]; intros init s Hok H; [done|]. cbn [take_loop] in H.
  destruct (doTiming_flow init s Hok) as (F1 & _ & HQ). set (s1 := doTiming init s) in *.
  apply bind_Ok in H as ([after s2] & Hp & H). unfold peekFirstNonStaleEvent in Hp.
  apply bind_Ok in Hp as ([e2 f2] & _ & Hp). apply Ok_inj in Hp. injection Hp as <- <-. cbn [fst snd] in H.
  pose proof (flow_trans _ _ _ F1 (flow_set_fes f2 s1)) as F2.
  destruct (Nat.eqb _ _); [by apply Ok_inj in H as [= <- <-]|].
  destruct (IH _ _ (fl_marked _ _ F2 Hok) H) as [F3 HQ3].
  split; [by eapply flow_trans|]. destruct HQ3 as [HQ3|HQ3]; [|by right]. cbn in HQ3. destruct HQ3 as [-> ->]. exact HQ.
Qed.

Lemma takeNextEvent_flow fuel s e s' : queue_ok s -> takeNextEvent fuel s = Ok (e, s') ->
  flow s s' /\ ((lock_takes s' = lock_takes s /\ queued s' = queued s) \/ queued s' = []).
Proof.
  intros Hok H. unfold takeNextEvent in H. apply bind_Ok in H as ([init s1] & Hp & H).
  unfold peekFirstNonStaleEvent in Hp. apply bind_Ok in Hp as ([e2 f2] & _ & Hp). apply Ok_inj in Hp.
  injection Hp as <- <-. cbn [fst snd] in H. apply bind_Ok in H as ([e3 s3] & Ht & H).
  destruct (take_loop_flow _ _ (set_fes f2 s) _ _ Hok Ht) as [F1 HQ]. destruct (removeFirst (fes s3)) as [[next|] f]; [|done].
  apply bind_Ok in H as (? & _ & H). apply Ok_inj in H. injection H as <- <-.
  split; [|exact HQ]. eapply flow_trans; [|apply flow_set_fes]. eapply flow_trans; [apply (flow_set_fes f2)|exact F1].
Qed.

(** From an event created before it, the loop returns an event that leads the event set;
    it needs at most two rounds more than the radio keeps talking. *)
Lemma take_loop_spec k fuel init s :
  events_ok s -> queue_ok s -> head (live (fes s)) = Some init ->
  (forall n, (k <= n)%nat -> radio n = []) ->
  (k - lock_takes s + 2 <= fuel)%nat \/ ((k <= lock_takes s)%nat /\ queued s = [] /\ (1 <= fuel)%nat) ->
  exists e s', take_loop fuel init s = Ok (e, s') /\ events_ok s' /\ head (live (fes s')) = Some e /\
    head (events (fes s')) = Some e /\
    (is_Some (mOtaIndicationQueue s) -> hasRegisteredModule (ota s) = true -> on_time e s').
Proof.
  intros Hev Hok Hh Hsil. revert init s Hev Hok Hh.
  induction fuel as [|n IH]; intros init s Hev Hok Hh Hfuel; [lia|]. cbn [take_loop].
  assert (led_by init (allocated s) s) as Hled by (split_and!; [done..|]; eauto).
  assert (ev_id init < allocated s)%nat as Hid.
  { destruct Hev as [_ Hi]. rewrite Forall_forall in Hi. apply Hi.
    assert (init ∈ live (fes s)) as Hin by (destruct (live (fes s)); [done|]; injection Hh as ->; left).
    by apply live_elem in Hin as [_ ?]. }
  destruct (doTiming_led init _ s Hok Hled) as [(Hev1 & _ & h & Hh1 & Hor) Htime].
  destruct (doTiming_flow init s Hok) as (F1 & Hprog & HQ).
  pose proof (doTiming_silent init s) as Hquiet. set (s1 := doTiming init s) in *.
  pose proof (peek_spec s1 Hev1) as Hp. rewrite Hh1 in Hp. destruct Hp as (f & -> & Hl & Hhe & Hev2).
  cbn [mbind res_bind]. destruct (Nat.eqb_spec (ev_id init) (ev_id h)) as [Heq|Hne].
  - assert (h = init) as -> by (destruct Hor as [?|?]; [done|lia]).
    exists init, (set_fes f s1). split_and!; try done; [cbn; by rewrite Hl|]. intros Hq Hr. by apply (Htime Hq Hr Hid).
  - assert (fes s1 <> fes s) as Hch.
    { intros Heq. apply Hne. rewrite Heq, Hh in Hh1. by injection Hh1 as <-. }
    destruct Hprog as [Hprog|Hprog]; [done|].
    destruct Hfuel as [Hfuel|(Hk & Hqe & _)]; [|exfalso; apply Hch, Hquiet; [intros m Hm; apply Hsil; lia|done]].
    destruct (IH h (set_fes f s1)) as (e & s' & Ht & He' & Hhe' & Hhe2 & Hot); [done|by apply (fl_marked _ _ F1)|cbn; by rewrite Hl| |].
    + destruct (decide (k <= lock_takes s)%nat) as [Hle|Hgt]; [right|left; cbn [set_fes lock_takes]; lia].
      cbn [set_fes lock_takes]. split_and!; [lia| |lia]. destruct HQ as [[HQ _]|HQ]; [lia|done].
    + exists e, s'. split_and!; try done. intros Hq Hr. apply Hot.
      * by apply (fl_queue _ _ F1).
      * change (hasRegisteredModule (ota s1) = true). unfold hasRegisteredModule. by rewrite (fl_registered _ _ F1).
Qed.

(** [C38] The testbed's scheduler takes the next event in step with the wall clock: once
    the radio falls silent the loop ends, within two rounds more than indications kept
    coming; the event it returns is not stale and no other live event is earlier; and
    with the queue set up and the twin registered, an event later than the present
    simulation time is not returned before the wall clock is within a microsecond of its
    arrival.  Without live events the run is terminated. *)
Theorem testbed_event_on_time k fuel s :
  events_ok s -> queue_ok s -> (forall n, (k <= n)%nat -> radio n = []) -> (k + 2 <= fuel)%nat ->
  match live (fes s) with
  | [] => takeNextEvent fuel s = Fail (Terminated "No more events")
  | _ =>
      exists e s', takeNextEvent fuel s = Ok (e, s') /\ isStale e = false /\
        Forall (fun x => getArrivalTime e <= getArrivalTime x) (live (fes s')) /\
        (is_Some (mOtaIndicationQueue s) -> hasRegisteredModule (ota s) = true -> on_time e s')
  end.
Proof.
  intros Hev Hok Hsil Hfuel. pose proof (peek_spec s Hev) as Hp. unfold takeNextEvent.
  destruct (live (fes s)) as [|init l] eqn:Hl; cbn [head] in Hp; [by rewrite Hp|].
  destruct Hp as (f & -> & Hlf & Hhf & Hevf). cbn [mbind res_bind].
  destruct (take_loop_spec k fuel init (set_fes f s)) as (e & s' & -> & He' & Hh & Hhe & Hot);
    [done|done|cbn; by rewrite Hlf|done|left; cbn [set_fes lock_takes]; lia|].
  cbn [mbind res_bind]. pose proof (removeFirst_head (fes s')) as Hr. rewrite Hhe in Hr.
  pose proof (removeFirst_tail (fes s')) as Ht. pose proof (live_head_least _ _ (proj1 He') Hh) as Hleast.
  destruct (removeFirst (fes s')) as [o f']. cbn [fst snd] in *. subst o.
  assert (isStale e = false) as Hs.
  { assert (e ∈ live (fes s')) as Hin by (destruct (live (fes s')); [done|]; injection Hh as ->; left).
    by apply live_elem in Hin as [? _]. }
  rewrite Hs. cbn [negb assert_ mbind res_bind]. exists e, (set_fes f' s'). split_and!; try done.
  unfold live in *. cbn [set_fes fes]. rewrite Ht. destruct (events (fes s')) as [|x l']; [done|].
  cbn [head tail] in *. injection Hhe as ->. rewrite filter_cons_True in Hleast by done.
  by apply Forall_cons in Hleast as [_ ?].
Qed.

(** *** Histories *)
Inductive testbed_action :=
| TakeNext (fuel : nat)
| Execute (f : F) (created : nat) (t : simtime)  (** an event handler changes the event set *)
| PutBack (e : tevent)
| Resumed
| Register (module : nat)
| ToDut (source destination data : list Z).

Definition with_ota (o : OtaInterfaceUsrp) (s : testbed) : testbed :=
  mkTestbed (fes s) (allocated s) (simTime s) (system_clock s) (clock_reads s) (lock_takes s)
    (mOtaIndicationQueue s) o (requested s) (mBaseTime s) (mThresholdTooSlow s) (mStartupTime s).

Definition testbed_step (s : testbed) (a : testbed_action) : res testbed :=
  match a with
  | TakeNext fuel => snd <$> takeNextEvent fuel s
  | Execute f created t =>
      Ok (mkTestbed f created t (system_clock s) (clock_reads s) (lock_takes s) (mOtaIndicationQueue s)
            (ota s) (requested s) (mBaseTime s) (mThresholdTooSlow s) (mStartupTime s))
  | PutBack e => Ok (testbed_putBackEvent e s)
  | Resumed => Ok (testbed_executionResumed s)
  | Register m => (fun o => with_ota o s) <$> registerModule (simTime s) m (ota s)
  | ToDut source destination data => Ok (with_ota (ota_sendMessage source destination data (ota s)).2 s)
  end.

Record passes (s s' : testbed) : Prop := {
  ps_registered : mRegisteredModule (ota s') = mRegisteredModule (ota s);
  ps_marked : queue_ok s -> queue_ok s';
  ps_locks : (lock_takes s <= lock_takes s')%nat;
  ps_passed : requested s' ++ queued s' = requested s ++ queued s ++ heard (lock_takes s) (lock_takes s')
}.

Lemma passes_same s s' : mRegisteredModule (ota s') = mRegisteredModule (ota s) ->
  mOtaIndicationQueue s' = mOtaIndicationQueue s -> lock_takes s' = lock_takes s ->
  requested s' = requested s -> passes s s'.
Proof.
  intros HR HQ HL Hq. split; [done| |lia|].
  - unfold queue_ok. by rewrite HQ.
  - unfold queued. by rewrite HQ, HL, Hq, heard_nil, app_nil_r.
Qed.

Lemma passes_trans s1 s2 s3 : passes s1 s2 -> passes s2 s3 -> passes s1 s3.
Proof.
  intros [R1 M1 L1 P1] [R2 M2 L2 P2]. split; [congruence|tauto|lia|].
  rewrite P2, app_assoc, P1, <- !app_assoc. do 2 f_equal. by apply heard_app.
Qed.

Lemma testbed_step_passes s a s' : queue_ok s -> hasRegisteredModule (ota s) = true ->
  testbed_step s a = Ok s' -> passes s s'.
Proof.
  intros Hok Hr. destruct a as [fuel| | | |m|]; cbn [testbed_step];
    try (intros H; apply Ok_inj in H as <-; by apply passes_same).
  - rewrite fmap_Ok. intros ([e s1] & Ht & <-). destruct (takeNextEvent_flow _ _ _ _ Hok Ht) as [[] _].
    by split; auto.
  - rewrite fmap_Ok. intros (o & Ho & <-). unfold registerModule in Ho. unfold hasRegisteredModule in Hr.
    destruct (mRegisteredModule (ota s)) as [m'|] eqn:E; [|done]. apply Ok_inj in Ho as <-. by apply passes_same.
Qed.

(** [C37] Packets from the device under test reach the twin's radio driver in order, each
    exactly once: at every moment of a history with the twin registered, the packets
    handed to the twin's layer followed by those still in the queue are those heard on
    the radio's thread so far, however the threads interleave; a notification is never
    lost (the queue is marked exactly if it holds packets); and whenever the scheduler
    gets ahead of the wall clock it leaves an empty queue behind. *)
Theorem indications_in_order actions s s' :
  queue_ok s -> hasRegisteredModule (ota s) = true -> res_fold testbed_step actions s = Ok s' ->
  requested s' ++ queued s' = requested s ++ queued s ++ heard (lock_takes s) (lock_takes s') /\
  queue_ok s' /\
  forall fuel e s'', takeNextEvent fuel s' = Ok (e, s'') ->
    (lock_takes s'' = lock_takes s' /\ queued s'' = queued s') \/ queued s'' = [].
Proof.
  intros Hok Hr H. assert (passes s s' /\ queue_ok s' /\ hasRegisteredModule (ota s') = true) as (Hp & Hok' & _).
  { eapply (res_fold_inv (fun t => passes s t /\ queue_ok t /\ hasRegisteredModule (ota t) = true));
      [|split_and!; [by apply passes_same|done..]|exact H].
    intros a t t' _ (Hp & Ht & Hrt) Hs. pose proof (testbed_step_passes _ _ _ Ht Hrt Hs) as Hp'.
    split_and!; [by eapply passes_trans|by apply Hp'|].
    unfold hasRegisteredModule. by rewrite (ps_registered _ _ Hp'). }
  split_and!; [apply Hp|done|]. intros fuel e s'' Ht. by apply (takeNextEvent_flow _ _ _ _ Hok' Ht).
Qed.
End Scheduler.

(** *** Witnesses *)
Definition ex_packet (n : Z) : DutPacket := mkDutPacket VO [255; 255; 255; 255; 255; 255] [2; 0; 0; 0; 0; 1] 0x8947 [n].
Definition ex_ota (registered : option nat) : OtaInterfaceUsrp := mkOta true registered NoTimer 0 false 0 0.
(** The clock is read every millisecond; two packets come while the first wait begins,
    one more during a later one. *)
Definition ex_tick (n : nat) : N := 1000000%N.
Definition ex_radio_thread (n : nat) : list DutPacket :=
  match n with 1%nat => [ex_packet 1; ex_packet 2] | 4%nat => [ex_packet 3] | _ => [] end.
Definition ex_fes : list tevent :=
  [mkEvent 0 (SIMTIME_MS 5) true (OtherEvent 0); mkEvent 1 (SIMTIME_MS 20) false (OtherEvent 1);
   mkEvent 2 (SIMTIME_MS 30) false (OtherEvent 2)].
Definition ex_testbed (registered : option nat) : @testbed (list tevent) :=
  mkTestbed ex_fes 3 (SIMTIME_MS 2) 1000000 0 0 (Some (mkQueue [] false)) (ex_ota registered) [] 0 (100 * 1000000)
    (SIMTIME_S 4).

Lemma ex_testbed_ok registered : events_ok (ex_testbed registered) /\ queue_ok (ex_testbed registered).
Proof.
  split; [split|].
  - repeat constructor; vm_compute; discriminate.
  - repeat constructor.
  - intros q [= <-]. done.
Qed.
Lemma ex_radio_silent n : (5 <= n)%nat -> ex_radio_thread n = [].
Proof. intros H. do 5 (destruct n as [|n]; [lia|]). done. Qed.

Lemma testbed_event_on_time_witness :
  exists e s', takeNextEvent ex_tick ex_radio_thread 7 (ex_testbed (Some 0%nat)) = Ok (e, s') /\
    isStale e = false /\ Forall (fun x => getArrivalTime e <= getArrivalTime x) (live (fes s')) /\ on_time e s'.
Proof.
  destruct (testbed_event_on_time ex_tick ex_radio_thread 5 7 (ex_testbed (Some 0%nat))
    (proj1 (ex_testbed_ok _)) (proj2 (ex_testbed_ok _)) ex_radio_silent ltac:(lia)) as (e & s' & H1 & H2 & H3 & H4).
  exists e, s'. split; [exact H1|split; [exact H2|split; [exact H3|]]]. apply H4; [by eexists|reflexivity].
Defined.

Lemma indications_in_order_witness :
  exists s', res_fold (testbed_step ex_tick ex_radio_thread) [Register 1; TakeNext 7; Resumed; TakeNext 7; TakeNext 7; TakeNext 7]
    (ex_testbed (Some 0%nat)) = Ok s' /\
  requested s' ++ queued s' = heard ex_radio_thread 0 (lock_takes s') /\ requested s' = [ex_packet 1; ex_packet 2; ex_packet 3].
Proof.
  destruct (res_fold (testbed_step ex_tick ex_radio_thread) [Register 1; TakeNext 7; Resumed; TakeNext 7; TakeNext 7; TakeNext 7]
    (ex_testbed (Some 0%nat))) as [s'|f] eqn:E.
  - exists s'. split; [reflexivity|]. split.
    + apply (indications_in_order ex_tick ex_radio_thread _ (ex_testbed (Some 0%nat)) _ (proj2 (ex_testbed_ok _)) eq_refl E).
    + vm_compute in E. apply Ok_inj in E. rewrite <- E. reflexivity.
  - exfalso. vm_compute in E. discriminate E.
Defined.

(** Without a registered twin a packet still ends the wait: the event is taken although
    the wall clock is far from its arrival time. *)
Example early_without_twin :
  exists e s', takeNextEvent ex_tick ex_radio_thread 7 (ex_testbed None) = Ok (e, s') /\
    getArrivalTime e = SIMTIME_MS 20 /\ system_clock s' = 3 * 1000000 /\ requested s' = [].
Proof. eexists _, _. split; [vm_compute; reflexivity|]. done. Qed.

(** A simulation that lags behind by far more than the threshold is not stopped. *)
Example lag_not_reported :
  let s := set_clock (SIMTIME_S 3600) (mkTestbed ex_fes 3 (SIMTIME_S 10) 0 0 0 None (ex_ota None) [] 0 (100 * 1000000) (SIMTIME_S 4)) in
  is_ok (takeNextEvent ex_tick ex_radio_thread 7 s) = true.
Proof. vm_compute. reflexivity. Qed.

(** With a GPSD socket the twin cannot register again after it has left: its timer is
    gone. *)
Example twin_cannot_return :
  (o ← registerModule 0 1 (ota_initialize false true (SIMTIME_MS 100)); o ← unregisterModule o; registerModule 0 2 o) =
    Fail (Undefined "use of the deleted GPSD timer") /\
  registerModule 0 2 (ex_ota (Some 1%nat)) = Ok (ex_ota (Some 1%nat)) /\
  testUsrpConnection false (ota_initialize false true 0) = Ok tt.
Proof. vm_compute. done. Qed.

(** ** Properties of the other parts *)
(** The connection is made exactly if the answer comes before the time-out. *)
Lemma connect_loop_spec answered c n :
  match connect_loop answered c n with
  | Ok k => (c <= k < c + n)%nat /\ answered k = true /\ forall j, (c <= j < k)%nat -> answered j = false
  | Fail f => f = RuntimeError "Unable to connect to USRP" /\ forall j, (c <= j < c + n)%nat -> answered j = false
  end.
Proof.
  revert c. induction n as [|n IH]; intros c; cbn [connect_loop]; [split; [done|lia]|].
  destruct (answered c) eqn:E; [split; [lia|split; [done|lia]]|].
  specialize (IH (S c)). destruct (connect_loop answered (S c) n) as [k|f].
  - destruct IH as (? & ? & H). split_and!; [lia|lia|done|]. intros j Hj. destruct (decide (j = c)) as [->|]; [done|]. apply H. lia.
  - destruct IH as [-> H]. split; [done|]. intros j Hj. destruct (decide (j = c)) as [->|]; [done|]. apply H. lia.
Qed.

Lemma updateReachableNodes_filter now time m :
  updateReachableNodes now time m = filter (fun p => now - p.2 <= time) m.
Proof.
  induction m as [|[mac t] m IH]; [done|]. cbn [updateReachableNodes].
  destruct (Z.ltb_spec time (now - t)); [rewrite filter_cons_False by (cbn; lia)|rewrite filter_cons_True by (cbn; lia)];
    by rewrite IH.
Qed.

(** A history of the twin's radio: receptions, and calls of [getReachableNodes], which
    clean up. *)
Inductive radio_call := Reception (successful : bool) (transmitter : option Z) | GetReachable.

Definition radio_step (time : simtime) (m : list (Z * simtime)) (e : simtime * radio_call) : list (Z * simtime) :=
  match e.2 with
  | Reception successful transmitter => endReception e.1 successful transmitter m
  | GetReachable => updateReachableNodes e.1 time m
  end.

(** When a node was last heard, in a history with the newest event first. *)
Fixpoint last_heard (mac : Z) (events : list (simtime * radio_call)) : option simtime :=
  match events with
  | [] => None
  | (t, Reception true (Some mac')) :: l => if decide (mac = mac') then Some t else last_heard mac l
  | _ :: l => last_heard mac l
  end.

(** The history is in the order of time. *)
Fixpoint backwards (now : simtime) (events : list (simtime * radio_call)) : Prop :=
  match events with [] => True | (t, _) :: l => t <= now /\ backwards t l end.

Definition nodes_after (time : simtime) (events : list (simtime * radio_call)) : list (Z * simtime) :=
  foldr (fun e m => radio_step time m e) [] events.

Lemma nodes_after_ok time events now : backwards now events ->
  om_wf (nodes_after time events) /\
  forall mac, (forall t, om_find mac (nodes_after time events) = Some t -> last_heard mac events = Some t) /\
    (forall t, last_heard mac events = Some t -> now - t <= time -> om_find mac (nodes_after time events) = Some t).
Proof.
  revert now. induction events as [|[t e] l IH]; intros now; [intros _; split; [apply om_wf_nil|done]|]. cbn [backwards]. intros [Ht Hl].
  destruct (IH t Hl) as [Hwf Hm]. cbn [nodes_after foldr]. fold (nodes_after time l). unfold radio_step. cbn [fst snd].
  destruct e as [[|] [mac'|]|]; cbn [endReception];
    try (split; [done|]; intros mac; split; [apply Hm|]; intros x Hx Hn; apply Hm; [done|lia]).
  - split; [by apply om_wf_set|]. intros mac. cbn [last_heard]. rewrite om_find_set.
    repeat case_decide; [done..|]. split; [apply Hm|]. intros x Hx Hn. apply Hm; [done|lia].
  - rewrite updateReachableNodes_filter. split; [by apply om_wf_filter|]. intros mac. cbn [last_heard].
    assert (forall x, om_find mac (filter (fun p => t - p.2 <= time) (nodes_after time l)) = Some x <->
      om_find mac (nodes_after time l) = Some x /\ t - x <= time) as Hf.
    { intros x. rewrite om_wf_find by by apply om_wf_filter. rewrite list_elem_of_filter, <- om_wf_find by done.
      cbn. tauto. }
    split; [intros x [Hx _]%Hf; by apply Hm|]. intros x Hx Hn. apply Hf. split; [apply Hm; [done|lia]|lia].
Qed.

(** At any time the reachable nodes are exactly those last heard within the reachable
    time, however often the list has been fetched and cleaned up before. *)
Lemma reachable_nodes_exact time events now mac t : backwards now events ->
  om_find mac (updateReachableNodes now time (nodes_after time events)) = Some t <->
  last_heard mac events = Some t /\ now - t <= time.
Proof.
  intros Hb. destruct (nodes_after_ok time events now Hb) as [Hwf Hm]. rewrite updateReachableNodes_filter.
  rewrite om_wf_find by by apply om_wf_filter. rewrite list_elem_of_filter, <- om_wf_find by done. cbn.
  split; [intros [? ?%Hm]; tauto|]. intros [Hl Ht]. split; [done|]. by apply Hm.
Qed.
