(* ===== verification/Asio.v ===== *)
(** * Simulation in real time with network input

    [src/src/artery/utility/AsioScheduler.{h,cc}] and [AsioTask.{h,cc}]: a scheduler that
    waits for the wall clock in Boost.Asio's event loop and inserts what arrives on the
    sockets of its tasks into the future event set.  Boost.Asio decides which handler
    runs when; its choices are inputs of the model. *)

From S2P Require Import Prelude EventSet.

Inductive FluxState := PAUSED | DWADLING | SYNC.

(** A finished read: the number of bytes, or an error code. *)
Inductive read_result := ReadBytes (bytes : Z) | ReadError (operation_aborted : bool) (message : string).

(** Tasks are identified by number; each has one data message. *)
Inductive asio_body := AsioData (task : nat) (length : Z) | OtherAsioEvent (what : nat).
Abbreviation aevent := (cEvent asio_body).

Definition NS : Z := 1000.  (** picoseconds *)
Definition steady_clock_duration (t : simtime) : Z := Z.quot t NS.
Definition max_timer : Z := 100 * 1000000.

Section Scheduler.
Context {F : Type} `{!FutureEventSet F asio_body}.

(** The surroundings: [tick n] is the time (in nanoseconds) that passes before the [n]-th
    reading of the clock; [io n] the read that is finished when [run_one] is called for
    the [n]-th time, if any; [polled n] those finished at the [n]-th [poll]; [idle n] the
    answer of the user interface when it is asked for the [n]-th time; [data_message]
    the address of a task's message. *)
Variable tick : nat -> N.
Variable io : nat -> option (nat * read_result).
Variable polled : nat -> list (nat * read_result).
Variable idle : nat -> bool.
Variable data_message : nat -> nat.

Record asio := mkAsio {
  fes : F;
  simTime : simtime;
  steady_clock : Z;
  calls : nat * nat * nat * nat;    (** of the clock, [run_one], [poll] and [idle] *)
  m_timer : option Z;               (** expiry of the outstanding [async_wait] *)
  aborted_waits : nat;              (** handlers of cancelled waits that have not run yet *)
  m_service_stopped : bool;
  m_reading : list nat;             (** tasks with an outstanding [async_read_some] *)
  m_reference : Z;
  m_run_until : Z;
  m_state : FluxState
}.

Definition set_fes (f : F) (s : asio) : asio :=
  mkAsio f (simTime s) (steady_clock s) (calls s) (m_timer s) (aborted_waits s) (m_service_stopped s)
    (m_reading s) (m_reference s) (m_run_until s) (m_state s).
Definition set_calls (c : nat * nat * nat * nat) (s : asio) : asio :=
  mkAsio (fes s) (simTime s) (steady_clock s) c (m_timer s) (aborted_waits s) (m_service_stopped s)
    (m_reading s) (m_reference s) (m_run_until s) (m_state s).
Definition set_clock (t : Z) (s : asio) : asio :=
  mkAsio (fes s) (simTime s) t (calls s) (m_timer s) (aborted_waits s) (m_service_stopped s)
    (m_reading s) (m_reference s) (m_run_until s) (m_state s).
Definition set_waits (timer : option Z) (aborted : nat) (s : asio) : asio :=
  mkAsio (fes s) (simTime s) (steady_clock s) (calls s) timer aborted (m_service_stopped s)
    (m_reading s) (m_reference s) (m_run_until s) (m_state s).
Definition set_reading (r : list nat) (s : asio) : asio :=
  mkAsio (fes s) (simTime s) (steady_clock s) (calls s) (m_timer s) (aborted_waits s) (m_service_stopped s)
    r (m_reference s) (m_run_until s) (m_state s).
Definition set_run_until (t : Z) (s : asio) : asio :=
  mkAsio (fes s) (simTime s) (steady_clock s) (calls s) (m_timer s) (aborted_waits s) (m_service_stopped s)
    (m_reading s) (m_reference s) t (m_state s).
Definition set_state (st : FluxState) (s : asio) : asio :=
  mkAsio (fes s) (simTime s) (steady_clock s) (calls s) (m_timer s) (aborted_waits s) (m_service_stopped s)
    (m_reading s) (m_reference s) (m_run_until s) st.
Definition set_reference (t : Z) (s : asio) : asio :=
  mkAsio (fes s) (simTime s) (steady_clock s) (calls s) (m_timer s) (aborted_waits s) (m_service_stopped s)
    (m_reading s) t (m_run_until s) (m_state s).
Definition set_stopped (b : bool) (s : asio) : asio :=
  mkAsio (fes s) (simTime s) (steady_clock s) (calls s) (m_timer s) (aborted_waits s) b
    (m_reading s) (m_reference s) (m_run_until s) (m_state s).

(** [std::chrono::steady_clock::now()] *)
Definition clock_now (s : asio) : Z * asio :=
  let '(reads, runs, polls, idles) := calls s in
  let t := steady_clock s + Z.of_N (tick reads) in
  (t, set_calls (S reads, runs, polls, idles) (set_clock t s)).

(** Cancelling the timer makes the handler of an outstanding wait run with an error. *)
Definition cancel_timer (s : asio) : asio :=
  match m_timer s with Some _ => set_waits None (S (aborted_waits s)) s | None => s end.

Definition setTimer (s : asio) : asio :=
  let '(now, s) := clock_now s in
  if now <? m_run_until s then
    let s := set_state DWADLING s in
    let s := cancel_timer s in
    set_waits (Some (Z.min (m_run_until s) (now + max_timer))) (aborted_waits s) s
  else set_state SYNC s.

Definition handleTimer (ec : bool) (s : asio) : asio :=
  let '(reads, runs, polls, idles) := calls s in
  let s := set_calls (reads, runs, polls, S idles) s in
  if idle idles then set_state PAUSED s
  else if ec then set_state SYNC s
  else setTimer s.

Definition handleTask (task : nat) (result : read_result) (s : asio) : res asio :=
  match result with
  | ReadBytes bytes =>
      let '(now, s) := clock_now s in
      let arrival_clock := now - m_reference s in
      let arrival_simtime := arrival_clock * NS in
      assert_ "simTime() <= arrival_simtime" (simTime s <=? arrival_simtime) ;;
      Ok (set_fes (fes_insert (mkEvent (data_message task) arrival_simtime false (AsioData task bytes)) (fes s)) s)
  | ReadError operation_aborted message =>
      if operation_aborted then Ok s
      else Fail (RuntimeError "AsioScheduler: Failed reading from socket")
  end.

(** The handler of a finished read, if one is outstanding; the read is over then. *)
Definition read_finished (r : nat * read_result) (s : asio) : option (res asio) :=
  if decide (r.1 ∈ m_reading s)
  then Some (handleTask r.1 r.2 (set_reading (filter (fun t => t <> r.1) (m_reading s)) s))
  else None.

(** [io_service::run_one]: without a finished read it is the timer's turn. *)
Definition wait_finished (s : asio) : res asio :=
  match aborted_waits s, m_timer s with
  | S n, _ => Ok (handleTimer true (set_waits (m_timer s) n s))
  | O, Some expiry => Ok (handleTimer false (set_waits None 0 (set_clock (Z.max (steady_clock s) expiry) s)))
  | O, None => Fail (Undefined "run_one blocks for ever")
  end.
Definition run_one (s : asio) : res asio :=
  let '(reads, runs, polls, idles) := calls s in
  let s := set_calls (reads, S runs, polls, idles) s in
  match io runs with
  | Some r => match read_finished r s with Some result => result | None => wait_finished s end
  | None => wait_finished s
  end.

(** [io_service::poll]: everything that is ready. *)
Definition service_poll (s : asio) : res asio :=
  let '(reads, runs, polls, idles) := calls s in
  let s := set_calls (reads, runs, S polls, idles) s in
  let s := Nat.iter (aborted_waits s) (handleTimer true) (set_waits (m_timer s) 0 s) in
  res_fold (fun s r => default (Ok s) (read_finished r s)) (polled polls) s.

Fixpoint dwadle (fuel : nat) (s : asio) : res asio :=
  match m_state s with
  | DWADLING =>
      match fuel with
      | O => Fail (Undefined "fuel")
      | S n => s ← run_one s; dwadle n s
      end
  | _ => Ok s
  end.

(** The [while (true)] of [takeNextEvent]: stale events are deleted, the first other one
    is waited for. *)
Fixpoint take_loop (fuel dwadle_fuel : nat) (s : asio) : res (option aevent * asio) :=
  match fuel with
  | O => Fail (Undefined "fuel")
  | S n =>
      match peekFirst (fes s) with
      | None => Fail (Terminated "E_ENDEDOK")
      | Some event =>
          if isStale event then
            let '(tmp, f) := removeFirst (fes s) in
            assert_ "tmp == event" (bool_decide (ev_id <$> tmp = Some (ev_id event))) ;;
            take_loop n dwadle_fuel (set_fes f s)
          else
            let s := set_run_until (m_reference s + steady_clock_duration (getArrivalTime event)) s in
            assert_ "!m_service.stopped()" (negb (m_service_stopped s)) ;;
            let s := setTimer s in
            s ← dwadle dwadle_fuel s;
            let s := cancel_timer s in
            s ← service_poll s;
            match m_state s with
            | SYNC => let '(e, f) := removeFirst (fes s) in Ok (e, set_fes f s)
            | _ => Ok (None, s)
            end
      end
  end.
Definition takeNextEvent (dwadle_fuel : nat) (s : asio) : res (option aevent * asio) :=
  take_loop (S (getLength (fes s))) dwadle_fuel s.

Definition guessNextEvent (s : asio) : option aevent := peekFirst (fes s).
Definition putBackEvent (e : aevent) (s : asio) : asio := set_fes (putBackFirst e (fes s)) s.
Definition startRun (s : asio) : asio :=
  let s := set_state SYNC s in
  let s := set_stopped false s in
  let '(now, s) := clock_now s in set_reference now s.
Definition endRun (s : asio) : asio := set_stopped true (set_state PAUSED s).
Definition executionResumed (s : asio) : asio :=
  let s := set_state SYNC s in
  let '(now, s) := clock_now s in
  set_reference (now - steady_clock_duration (simTime s)) s.

(** [AsioTask::connect]/[handleNext] start a read, the destructor removes the message. *)
Definition processTask (task : nat) (s : asio) : asio := set_reading (task :: m_reading s) s.
Definition cancelTask (task : nat) (s : asio) : asio := set_fes (fes_remove (data_message task) (fes s)) s.

(** ** Waiting *)
Context `{!FutureEventSetLaws F asio_body}.

(** The wall clock has reached a simulation time; an event is due, to the nanosecond. *)
Definition reached (t : simtime) (s : asio) : Prop := t <= NS * (steady_clock s - m_reference s).
Definition due (e : aevent) (s : asio) : Prop :=
  steady_clock_duration (getArrivalTime e) <= steady_clock s - m_reference s.

(** While an event is waited for: it or an event that is due comes first. *)
Record steady (init : aevent) (s0 s : asio) : Prop := {
  st_sorted : sorted_events (fes s);
  st_first : exists h, head (events (fes s)) = Some h /\ isStale h = false /\ (h = init \/ due h s);
  st_same : simTime s = simTime s0 /\ m_reference s = m_reference s0 /\ m_service_stopped s = m_service_stopped s0;
  st_until : m_run_until s = m_reference s0 + steady_clock_duration (getArrivalTime init);
  st_clock : steady_clock s0 <= steady_clock s;
  st_aborted : aborted_waits s = 0%nat
}.

(** What the state tells about timer and clock. *)
Definition timer_ok (s : asio) : Prop :=
  match m_state s with
  | DWADLING => exists e, m_timer s = Some e /\ e <= m_run_until s
  | SYNC => m_timer s = None /\ m_run_until s <= steady_clock s
  | PAUSED => m_timer s = None
  end.

(** Only the clock moves on, and the bookkeeping of the wait changes. *)
Lemma steady_later init s0 s s' : steady init s0 s ->
  fes s' = fes s -> simTime s' = simTime s -> m_reference s' = m_reference s ->
  m_service_stopped s' = m_service_stopped s -> m_run_until s' = m_run_until s ->
  steady_clock s <= steady_clock s' -> aborted_waits s' = 0%nat -> steady init s0 s'.
Proof.
  intros [Hs (h & Hh & Hst & Hor) (T & R & S) U C A] HF HT HR HS HU HC HA.
  split; rewrite ?HF, ?HT, ?HR, ?HS, ?HU; try done; [|lia].
  exists h. split_and!; [done..|]. destruct Hor as [?|Hd]; [by left|right]. unfold due in *. rewrite HR. lia.
Qed.

Lemma setTimer_steady init s0 s : steady init s0 s -> m_timer s = None ->
  steady init s0 (setTimer s) /\ timer_ok (setTimer s) /\ m_reading (setTimer s) = m_reading s.
Proof.
  intros Hst Hn. unfold setTimer, clock_now. destruct (calls s) as [[[reads runs] polls] idles].
  cbn [set_calls set_clock m_run_until]. pose proof (st_aborted _ _ _ Hst) as Ha.
  destruct (Z.ltb_spec (steady_clock s + Z.of_N (tick reads)) (m_run_until s)) as [Hlt|Hge].
  - unfold cancel_timer. cbn [set_state m_timer set_calls set_clock]. rewrite Hn. split_and!; [|cbn; eexists; split; [done|lia]|done].
    eapply steady_later; [exact Hst|cbn; try done; try lia..].
  - split_and!; [|by cbn|done]. eapply steady_later; [exact Hst|cbn; try done; try lia..].
Qed.

Lemma handleTask_steady init s0 s task result : steady init s0 s -> reached (simTime s0) s0 ->
  match handleTask task result s with
  | Ok s' => steady init s0 s' /\ m_timer s' = m_timer s /\ m_state s' = m_state s /\
      m_reading s' = m_reading s /\ steady_clock s <= steady_clock s'
  | Fail f => f = RuntimeError "AsioScheduler: Failed reading from socket" /\ exists m, result = ReadError false m
  end.
Proof.
  intros Hst Hr. destruct result as [bytes|[|] m]; cbn [handleTask].
  - unfold clock_now. destruct (calls s) as [[[reads runs] polls] idles].
    cbn [set_calls set_clock m_reference simTime fes]. destruct Hst as [Hs (h & Hh & Hsh & Hor) (T & R & S) U C A].
    unfold reached in Hr. destruct (Z.leb_spec (simTime s) ((steady_clock s + Z.of_N (tick reads) - m_reference s) * NS)) as [_|Hgt];
      [|exfalso; rewrite T, R in Hgt; unfold NS in *; lia].
    cbn [assert_ mbind res_bind]. split_and!; try done; [|cbn; lia]. split; cbn; try done; [by apply sorted_insert| |lia].
    set (e := mkEvent (data_message task) ((steady_clock s + Z.of_N (tick reads) - m_reference s) * NS) false (AsioData task bytes)).
    destruct (fes_insert_place e (fes s)) as (l1 & l2 & Hf & Hi & _). rewrite Hi.
    destruct l1 as [|x l1]; [exists e|exists h].
    + split_and!; [done..|]. right. unfold due, steady_clock_duration. cbn. rewrite Z.quot_mul by (unfold NS; lia). lia.
    + rewrite Hf in Hh. split_and!; [exact Hh|done|]. destruct Hor as [?|Hd]; [by left|right]. unfold due in *. cbn. lia.
  - by split_and!.
  - split; [done|]. by eexists.
Qed.

(** A read on some socket has failed. *)
Definition read_failed : Prop :=
  exists n task m, io n = Some (task, ReadError false m) \/ (task, ReadError false m) ∈ polled n.

Lemma read_finished_steady init s0 s r : steady init s0 s -> reached (simTime s0) s0 ->
  match read_finished r s with
  | Some (Ok s') => steady init s0 s' /\ m_timer s' = m_timer s /\ m_state s' = m_state s /\
      (length (m_reading s') < length (m_reading s))%nat /\ steady_clock s <= steady_clock s'
  | Some (Fail f) => f = RuntimeError "AsioScheduler: Failed reading from socket" /\ exists m, r.2 = ReadError false m
  | None => True
  end.
Proof.
  intros Hst Hr. unfold read_finished. destruct (decide (r.1 ∈ m_reading s)) as [Hin|]; [|done].
  set (rs := filter (fun t => t <> r.1) (m_reading s)).
  assert (steady init s0 (set_reading rs s)) as Hst' by (eapply steady_later; [exact Hst|try done; try apply Hst; cbn; lia..]).
  pose proof (handleTask_steady _ _ _ r.1 r.2 Hst' Hr) as H.
  destruct (handleTask r.1 r.2 (set_reading rs s)) as [s'|f]; [|done].
  destruct H as (H1 & H2 & H3 & H4 & H5). split_and!; try done. rewrite H4. cbn. unfold rs.
  apply length_filter_lt with (x := r.1); [done|]. tauto.
Qed.

(** *** The wait ends *)
(** Timer expirations still to come: a wait is cut into pieces of 100 ms. *)
Definition pieces (t : Z) : nat := Z.to_nat ((t + max_timer - 1) / max_timer).
Definition rounds (s : asio) : nat :=
  match m_timer s with Some e => S (pieces (m_run_until s - e)) | None => 0 end.

Lemma pieces_mono t t' : t <= t' -> (pieces t <= pieces t')%nat.
Proof.
  intros H. unfold pieces. assert ((t + max_timer - 1) / max_timer <= (t' + max_timer - 1) / max_timer); [|lia].
  apply Z.div_le_mono; unfold max_timer; lia.
Qed.
Lemma pieces_step t : 0 < t -> pieces t = S (pieces (t - max_timer)).
Proof.
  intros H. unfold pieces. replace (t - max_timer + max_timer - 1) with (t + max_timer - 1 + (-1) * max_timer) by lia.
  rewrite Z.div_add by (unfold max_timer; lia).
  assert (1 <= (t + max_timer - 1) / max_timer); [|lia]. apply Z.div_le_lower_bound; unfold max_timer; lia.
Qed.
Lemma pieces_min t : pieces (Z.max 0 t) = pieces t \/ t < 0.
Proof. destruct (Z.max_spec 0 t) as [[? ->]|[? ->]]; [by left|]. destruct (decide (t = 0)) as [->|]; [by left|right; lia]. Qed.

Lemma setTimer_rounds s : m_timer s = None ->
  (rounds (setTimer s) <= pieces (m_run_until s - steady_clock s))%nat.
Proof.
  intros Hn. unfold setTimer, clock_now. destruct (calls s) as [[[reads runs] polls] idles].
  cbn [set_calls set_clock m_run_until]. set (now := steady_clock s + Z.of_N (tick reads)).
  destruct (Z.ltb_spec now (m_run_until s)) as [Hlt|Hge].
  - unfold cancel_timer. cbn [set_state m_timer set_calls set_clock]. rewrite Hn.
    cbn [rounds set_waits m_timer m_run_until]. unfold rounds. cbn.
    rewrite (pieces_step (m_run_until s - steady_clock s)) by lia.
    apply le_n_S. destruct (Z.min_spec (m_run_until s) (now + max_timer)) as [[_ ->]|[_ ->]]; [|apply pieces_mono; lia].
    rewrite Z.sub_diag. unfold pieces at 1. rewrite Z.div_small by (unfold max_timer; lia). cbn. lia.
  - unfold rounds. cbn. rewrite Hn. lia.
Qed.

Definition waits_left (s : asio) : nat := length (m_reading s) + rounds s.

Lemma run_one_steady init s0 s : steady init s0 s -> timer_ok s -> m_state s = DWADLING ->
  reached (simTime s0) s0 ->
  match run_one s with
  | Ok s' => steady init s0 s' /\ timer_ok s' /\ (waits_left s' < waits_left s)%nat
  | Fail f => f = RuntimeError "AsioScheduler: Failed reading from socket" /\ read_failed
  end.
Proof.
  intros Hst Ht Hdw Hr. unfold run_one. destruct (calls s) as [[[reads runs] polls] idles].
  set (s1 := set_calls (reads, S runs, polls, idles) s).
  assert (steady init s0 s1) as Hst1 by (eapply steady_later; [exact Hst|try done; try apply Hst; cbn; lia..]).
  unfold timer_ok in Ht. rewrite Hdw in Ht. destruct Ht as (e & He & Hle).
  assert (match wait_finished s1 with
    | Ok s' => steady init s0 s' /\ timer_ok s' /\ (waits_left s' < waits_left s)%nat
    | Fail f => False end) as Hwait.
  { unfold wait_finished. cbn [s1 set_calls aborted_waits m_timer]. rewrite (st_aborted _ _ _ Hst), He.
    set (s2 := set_waits None 0 (set_clock (Z.max (steady_clock s1) e) s1)).
    assert (steady init s0 s2) as Hst2 by (eapply steady_later; [exact Hst1|try done; cbn; lia..]).
    assert (waits_left s = length (m_reading s2) + S (pieces (m_run_until s2 - e)))%nat as Hleft
      by (unfold waits_left, rounds; by rewrite He).
    unfold handleTimer. destruct (calls _) as [[[r1 r2] r3] r4]. set (s3 := set_calls (r1, r2, r3, S r4) s2).
    assert (steady init s0 s3) as Hst3 by (eapply steady_later; [exact Hst2|try done; try apply Hst2; cbn; lia..]).
    destruct (idle r4).
    - split_and!; [eapply steady_later; [exact Hst3|try done; try apply Hst3; cbn; lia..]|done|].
      rewrite Hleft. unfold waits_left, rounds. cbn. lia.
    - cbv iota. destruct (setTimer_steady _ _ _ Hst3 eq_refl) as (H1 & H2 & H3). split_and!; [done..|].
      rewrite Hleft. unfold waits_left. rewrite H3. pose proof (setTimer_rounds s3 eq_refl) as Hrd.
      assert (pieces (m_run_until s3 - steady_clock s3) <= pieces (m_run_until s2 - e))%nat by (apply pieces_mono; cbn; lia).
      cbn [s3 set_calls m_reading]. lia. }
  assert (match wait_finished s1 with
    | Ok s' => steady init s0 s' /\ timer_ok s' /\ (waits_left s' < waits_left s)%nat
    | Fail f => f = RuntimeError "AsioScheduler: Failed reading from socket" /\ read_failed
    end) as Hwait' by (by destruct (wait_finished s1)).
  destruct (io runs) as [r|] eqn:Hio; [|exact Hwait'].
  pose proof (read_finished_steady _ _ _ r Hst1 Hr) as H.
  destruct (read_finished r s1) as [[s'|f]|]; [| |exact Hwait'].
  - destruct H as (H1 & H2 & H3 & H4 & H5). split_and!; [done| |].
    + unfold timer_ok. rewrite H3, H2. cbn [s1 set_calls m_state m_timer]. rewrite Hdw. exists e. split; [done|].
      rewrite (st_until _ _ _ H1), <- (st_until _ _ _ Hst). done.
    + unfold waits_left, rounds. rewrite H2, (st_until _ _ _ H1), <- (st_until _ _ _ Hst). cbn in H4 |- *. lia.
  - destruct H as [-> [m Hm]]. split; [done|]. exists runs, r.1, m. left. rewrite Hio. destruct r. cbn in *. by subst.
Qed.

Lemma dwadle_steady init s0 fuel s : steady init s0 s -> timer_ok s -> reached (simTime s0) s0 ->
  (waits_left s <= fuel)%nat ->
  match dwadle fuel s with
  | Ok s' => steady init s0 s' /\ timer_ok s' /\ m_state s' <> DWADLING
  | Fail f => f = RuntimeError "AsioScheduler: Failed reading from socket" /\ read_failed
  end.
Proof.
  revert s. induction fuel as [|n IH]; intros s Hst Ht Hr Hn.
  - cbn. destruct (m_state s) eqn:Hs; [split_and!; congruence| |split_and!; congruence].
    unfold timer_ok in Ht. rewrite Hs in Ht. destruct Ht as (e & He & _). unfold waits_left, rounds in Hn.
    rewrite He in Hn. lia.
  - cbn [dwadle]. destruct (m_state s) eqn:Hs; [split_and!; congruence| |split_and!; congruence].
    pose proof (run_one_steady _ _ _ Hst Ht Hs Hr) as H. destruct (run_one s) as [s'|f]; [|done].
    destruct H as (H1 & H2 & H3). apply IH; [done..|lia].
Qed.

(** Between two calls of [takeNextEvent]. *)
Record ready (s : asio) : Prop := {
  rd_sorted : sorted_events (fes s);
  rd_timer : m_timer s = None;
  rd_aborted : aborted_waits s = 0%nat;
  rd_state : m_state s <> DWADLING;
  rd_running : m_service_stopped s = false
}.

Lemma poll_steady init s0 s : steady init s0 s -> reached (simTime s0) s0 -> m_timer s = None ->
  match service_poll s with
  | Ok s' => steady init s0 s' /\ m_timer s' = None /\ m_state s' = m_state s /\ steady_clock s <= steady_clock s'
  | Fail f => f = RuntimeError "AsioScheduler: Failed reading from socket" /\ read_failed
  end.
Proof.
  intros Hst Hr Ht. unfold service_poll. destruct (calls s) as [[[reads runs] polls] idles].
  cbn [set_calls aborted_waits m_timer]. rewrite (st_aborted _ _ _ Hst). cbn [Nat.iter nat_rect].
  set (s1 := set_waits _ _ _). assert (steady init s0 s1) as Hst1
    by (eapply steady_later; [exact Hst|try done; cbn; lia..]).
  assert (m_timer s1 = None /\ m_state s1 = m_state s /\ steady_clock s <= steady_clock s1) as H1 by done.
  assert (forall r, r ∈ polled polls -> r ∈ polled polls) as Hin by done. revert Hin H1 Hst1.
  generalize s1. generalize (polled polls) at 1 3 as l. clear s1.
  induction l as [|r l IH]; intros s1 Hin (H1 & H2 & H3) Hst1; cbn [res_fold]; [done|].
  pose proof (read_finished_steady _ _ _ r Hst1 Hr) as H.
  destruct (read_finished r s1) as [[s'|f]|]; cbn [default from_option id mbind res_bind].
  - destruct H as (? & ? & ? & ? & ?). apply IH; [intros; apply Hin; by right| |done]. split_and!; [congruence..|lia].
  - destruct H as [-> [m Hm]]. split; [done|]. exists polls, r.1, m. right. destruct r as [t r]. cbn in Hm. subst r.
    apply Hin. left.
  - apply IH; [intros; apply Hin; by right|done|done].
Qed.

Lemma sorted_head_least (f : F) e : sorted_events f -> head (events f) = Some e ->
  Forall (fun x => getArrivalTime e <= getArrivalTime x) (events (removeFirst f).2).
Proof.
  unfold sorted_events. rewrite removeFirst_tail. destruct (events f) as [|x l]; [done|]. intros [_ H]%StronglySorted_inv.
  by intros [= <-].
Qed.

(** [C39] The scheduler of the real-time simulation always comes back from its wait, after
    at most one handler for each outstanding read and one for each piece of 100 ms, and
    keeps the pace of the wall clock: the event it returns is not stale, is due (its
    arrival time has been reached on the wall clock, to the nanosecond) and comes before
    all events left, those that have arrived on sockets meanwhile included.  It returns
    without an event only when the user interface interrupts it, and fails only for want
    of events or when reading from a socket fails; the assertion on arrival times cannot
    fail. *)
Theorem asio_event_on_time fuel s :
  ready s -> reached (simTime s) s ->
  (forall e, head (live (fes s)) = Some e -> (length (m_reading s) +
     pieces (m_reference s + steady_clock_duration (getArrivalTime e) - steady_clock s) <= fuel)%nat) ->
  match takeNextEvent fuel s with
  | Ok (Some e, s') => isStale e = false /\ due e s' /\
      Forall (fun x => getArrivalTime e <= getArrivalTime x) (events (fes s')) /\ ready s' /\ m_state s' = SYNC
  | Ok (None, s') => m_state s' = PAUSED /\ ready s'
  | Fail f => (f = Terminated "E_ENDEDOK" /\ live (fes s) = []) \/
      (f = RuntimeError "AsioScheduler: Failed reading from socket" /\ read_failed)
  end.
Proof.
  intros Hrd Hreach. unfold takeNextEvent. rewrite getLength_length.
  assert (length (events (fes s)) < S (length (events (fes s))))%nat as Hn by lia. revert Hn.
  generalize (S (length (events (fes s)))) as n. intros n. revert s Hrd Hreach.
  induction n as [|n IH]; intros s Hrd Hreach Hn Hfuel; [lia|]. cbn [take_loop]. rewrite peekFirst_head.
  destruct (events (fes s)) as [|ev l] eqn:Hev; cbn [head].
  { left. split; [done|]. unfold live. by rewrite Hev. }
  destruct (isStale ev) eqn:Hstale.
  - pose proof (removeFirst_head (fes s)) as H1. pose proof (removeFirst_tail (fes s)) as H2.
    pose proof (sorted_tail _ (rd_sorted _ Hrd)) as H3.
    pose proof (live_cons_stale (fes s) ev ltac:(by rewrite Hev) Hstale) as H4.
    destruct (removeFirst (fes s)) as [tmp f]. cbn [fst snd] in *. rewrite H1, Hev. cbn [head fmap option_fmap option_map].
    rewrite bool_decide_eq_true_2 by done. cbn [assert_ mbind res_bind].
    rewrite <- H4. apply (IH (set_fes f s)); [by destruct Hrd; split|done| |].
    + cbn. rewrite H2, Hev. cbn in Hn |- *. lia.
    + cbn. by rewrite H4.
  - set (s1 := set_run_until _ s). assert (steady ev s s1) as Hst1.
    { split; cbn; try done; [by apply Hrd| |by apply Hrd]. exists ev. rewrite Hev. split_and!; [done..|by left]. }
    assert (m_service_stopped s1 = false) as Hs1 by apply Hrd. rewrite Hs1. cbn [negb assert_ mbind res_bind].
    destruct (setTimer_steady _ _ _ Hst1 (rd_timer _ Hrd)) as (Hst2 & Ht2 & Hrs2).
    assert (head (live (fes s)) = Some ev) as Hlive by (unfold live; rewrite Hev, filter_cons_True by done; done).
    assert (waits_left (setTimer s1) <= fuel)%nat as Hleft.
    { unfold waits_left. rewrite Hrs2. pose proof (setTimer_rounds s1 (rd_timer _ Hrd)) as Hro.
      pose proof (Hfuel ev Hlive) as Hf. cbn [s1 set_run_until m_reading m_run_until steady_clock] in *. lia. }
    pose proof (dwadle_steady _ _ fuel _ Hst2 Ht2 Hreach Hleft) as Hd.
    destruct (dwadle fuel (setTimer s1)) as [s3|f]; cbn [mbind res_bind]; [|by right].
    destruct Hd as (Hst3 & Ht3 & Hnd). assert (m_timer s3 = None) as Hnt.
    { unfold timer_ok in Ht3. destruct (m_state s3); [done|done|tauto]. }
    unfold cancel_timer. rewrite Hnt.
    pose proof (poll_steady _ _ _ Hst3 Hreach Hnt) as Hp. destruct (service_poll s3) as [s4|f]; cbn [mbind res_bind]; [|by right].
    destruct Hp as (Hst4 & Hnt4 & Hss & Hck). pose proof Hst4 as [Hso (h & Hh & Hsh & Hor) (_ & HR & HS) U C A].
    rewrite Hss. destruct (m_state s3) eqn:Hs3; [|done|].
    + split; [congruence|]. split; [done..|congruence|]. rewrite HS. apply Hrd.
    + pose proof (removeFirst_head (fes s4)) as H1. pose proof (sorted_head_least _ _ Hso Hh) as H2.
      pose proof (sorted_tail _ Hso) as H3. destruct (removeFirst (fes s4)) as [o f]. cbn [fst snd] in *.
      rewrite H1, Hh. split_and!; [done| |done| |cbn; congruence].
      * unfold timer_ok in Ht3. rewrite Hs3 in Ht3. destruct Ht3 as [_ Ht3].
        destruct Hor as [->|Hdue]; [|done]. unfold due. cbn. rewrite (st_until _ _ _ Hst3) in Ht3. lia.
      * split; cbn; [done..|congruence|]. rewrite HS. apply Hrd.
Qed.

(** Whole nanoseconds: what the next call needs of the event's time follows. *)
Lemma due_reached e s : (NS | getArrivalTime e) -> due e s -> reached (getArrivalTime e) s.
Proof.
  intros [k Hk]. unfold due, reached, steady_clock_duration. rewrite Hk. rewrite Z.quot_mul by (unfold NS; lia). unfold NS. lia.
Qed.
Lemma startRun_ready s : sorted_events (fes s) -> m_timer s = None -> aborted_waits s = 0%nat ->
  simTime s = 0 -> ready (startRun s) /\ reached (simTime (startRun s)) (startRun s).
Proof.
  intros Hs Ht Ha H0. unfold startRun, clock_now. destruct (calls _) as [[[reads runs] polls] idles].
  split; [by split|]. unfold reached. cbn. rewrite H0. unfold NS. lia.
Qed.
End Scheduler.

(** *** Witness and examples *)
Definition ex_asio (events : list aevent) (t : simtime) (clock : Z) : @asio (list aevent) :=
  mkAsio events t clock (0, 0, 0, 0)%nat None 0 false [1%nat] 0 0 SYNC.
Definition ex_asio_events : list aevent :=
  [mkEvent 0 (SIMTIME_MS 5) true (OtherAsioEvent 0); mkEvent 2 (SIMTIME_MS 250) false (OtherAsioEvent 2)].
Definition ex_clock_tick (n : nat) : N := 1000000%N.
Definition ex_io (n : nat) : option (nat * read_result) :=
  match n with O => Some (1%nat, ReadBytes 42) | _ => None end.
Definition ex_polled (n : nat) : list (nat * read_result) := [].
Definition ex_idle (n : nat) : bool := false.
Definition ex_message (task : nat) : nat := 100 + task.

Lemma ex_asio_ready : ready (ex_asio ex_asio_events 0 0).
Proof. split; try done. repeat constructor. vm_compute. discriminate. Qed.

Lemma ex_asio_reached : reached 0 (ex_asio ex_asio_events 0 0).
Proof. unfold reached. cbn. lia. Qed.

Definition ex_asio_take : res (option aevent * asio) :=
  takeNextEvent ex_clock_tick ex_io ex_polled ex_idle ex_message 4 (ex_asio ex_asio_events 0 0).

Lemma asio_event_on_time_witness :
  match ex_asio_take with
  | Ok (Some e, s') => isStale e = false /\ due e s' /\ ready s'
  | _ => False
  end.
Proof.
  assert (forall e, head (live ex_asio_events) = Some e -> (length [1%nat] +
     pieces (0 + steady_clock_duration (getArrivalTime e) - 0) <= 4)%nat) as Hfuel.
  { intros e H. assert (head (live ex_asio_events) = Some (mkEvent 2 (SIMTIME_MS 250) false (OtherAsioEvent 2))) as H'
      by (vm_compute; reflexivity). rewrite H' in H. injection H as H. rewrite <- H.
    vm_compute. lia. }
  unfold ex_asio_take.
  pose proof (asio_event_on_time ex_clock_tick ex_io ex_polled ex_idle ex_message 4 (ex_asio ex_asio_events 0 0)
    ex_asio_ready ex_asio_reached Hfuel) as H.
  assert (match takeNextEvent ex_clock_tick ex_io ex_polled ex_idle ex_message 4 (ex_asio ex_asio_events 0 0) with
          | Ok (Some _, _) => true | _ => false end = true) as Hs by (vm_compute; reflexivity).
  destruct (takeNextEvent ex_clock_tick ex_io ex_polled ex_idle ex_message 4 (ex_asio ex_asio_events 0 0))
    as [[[e|] s']|f]; [|discriminate Hs|discriminate Hs].
  destruct H as (H1 & H2 & _ & H4 & _). split; [exact H1|]. split; [exact H2|exact H4].
Defined.

(** Data that arrives after two milliseconds is handed over only when the event that was
    waited for is due, at 250 ms: nothing ends the wait early. *)
Example data_waits_for_next_event :
  exists e s', ex_asio_take = Ok (Some e, s') /\ ev_body e = AsioData 1 42 /\ getArrivalTime e = SIMTIME_MS 2 /\
    250 * 1000000 <= steady_clock s'.
Proof. eexists _, _. split; [vm_compute; reflexivity|]. split_and!; [done..|vm_compute; discriminate]. Qed.

(** Below the resolution of the clock the assertion on arrival times can fail. *)
Example sub_nanosecond_assertion :
  handleTask (fun _ => 0%N) ex_message 1 (ReadBytes 42) (ex_asio [] 1500 1) =
    Fail (AssertFailed "simTime() <= arrival_simtime").
Proof. vm_compute. reflexivity. Qed.

Example interrupted_wait :
  (fun r => (fst r, m_state (snd r))) <$>
    takeNextEvent ex_clock_tick (fun _ => None) ex_polled (fun _ => true) ex_message 4 (ex_asio ex_asio_events 0 0) =
  Ok (None, PAUSED).
Proof. vm_compute. reflexivity. Qed.
