(* ===== verification/Transfusion.v ===== *)
(** * Transfusion: exchange of packets with external software

    [src/src/artery/transfusion/TransfusionService.{h,cc}] with the encodings of vanetza it
    relies on ([src/extern/vanetza/vanetza/geonet/traffic_class.cpp], [lifetime.cpp]).
    Messages are framed by a variable length integer and encoded by protobuf's generated
    code; both codings are parameters with the laws protobuf documents. *)

From S2P Require Import Prelude Float64 Networking.

(** ** TrafficClass: eight bits *)
Definition scf_mask : Z := 0x80.
Definition channel_offload_mask : Z := 0x40.
Definition tc_id_mask : Z := 0x3f.
(** The complement of a mask within a byte. *)
Definition without (m : Z) (tc : Z) : Z := Z.land tc (Z.lxor 0xff m).

Definition set_flag (mask : Z) (flag : bool) (tc : Z) : Z := if flag then Z.lor tc mask else without mask tc.
Definition set_store_carry_forward (flag : bool) (tc : Z) : Z := set_flag scf_mask flag tc.
Definition set_channel_offload (flag : bool) (tc : Z) : Z := set_flag channel_offload_mask flag tc.
(** Its argument is a [BitNumber] of six bits. *)
Definition set_tc_id (id : Z) (tc : Z) : Z :=
  Z.lor (without tc_id_mask tc) (Z.land (Z.land id tc_id_mask) tc_id_mask).
Definition store_carry_forward (tc : Z) : bool := negb (Z.land tc scf_mask =? 0).
Definition channel_offload (tc : Z) : bool := negb (Z.land tc channel_offload_mask =? 0).
Definition tc_id (tc : Z) : Z := Z.land tc tc_id_mask.

(** ** Lifetime: a multiplier of six bits and a base of two *)
Inductive lifetime_base := Fifty_Milliseconds | One_Second | Ten_Seconds | Hundred_Seconds.
Definition base_bits (b : lifetime_base) : Z :=
  match b with Fifty_Milliseconds => 0 | One_Second => 1 | Ten_Seconds => 2 | Hundred_Seconds => 3 end.

(** The multiplier goes through [uint8_t] and is masked. *)
Definition lifetime_set (b : lifetime_base) (multiplier : Z) : Z :=
  Z.lor (Z.shiftl (Z.land (wrap 8 multiplier) 0x3f) 2) (Z.land (base_bits b) 0x03).

Definition lifetime_encode (seconds : double) : res Z :=
  if dleb (d_of_Z 630) seconds then
    lifetime_set Hundred_Seconds <$> d_round_long (ddiv seconds (d_of_Z 100))
  else if dleb (d_of_Z 63) seconds then
    lifetime_set Ten_Seconds <$> d_round_long (ddiv seconds (d_of_Z 10))
  else if dleb (d_lit 315 100) seconds then
    lifetime_set One_Second <$> d_round_long seconds
  else lifetime_set Fifty_Milliseconds <$> d_round_long (ddiv seconds (d_lit 5 100)).

Definition lifetime_decode (raw : Z) : double :=
  let multiplier := d_of_Z (Z.shiftr (Z.land raw 0xFC) 2) in
  let unit := match Z.land raw 0x03 with
              | 0 => d_lit 5 100
              | 1 => d_of_Z 1
              | 2 => d_of_Z 10
              | _ => d_of_Z 100
              end in
  dmul multiplier unit.

(** ** Messages *)
Inductive ShapeType := CircleShape | RectangleShape | EllipseShape | UnknownShape.
Record DestinationArea := mkDestinationArea {
  da_shape : ShapeType;
  da_latitude : Z;
  da_longitude : Z;
  da_distance_a : Z;
  da_distance_b : Z;
  da_angle : Z
}.
Inductive transport_case := kShb | kGbc (area : DestinationArea) | TRANSPORT_TYPE_NOT_SET.

Record TransfusionMsg := mkTransfusion {
  tm_destination_port : Z;
  tm_payload : list Z;
  tm_store_carry_forward : bool;
  tm_channel_offload : bool;
  tm_dcc_profile : Z;
  tm_maximum_lifetime : option Z;
  tm_transport : transport_case
}.

Inductive Shape := Circle (r : double) | Rectangle (a b : double) | Ellipse (a b : double).
Record Area := mkArea { area_shape : Shape; area_latitude : double; area_longitude : double; area_angle : double }.

Definition ITS_G5 : Z := 1.

Section Service.
(** Boost.Units' conversions of micro-degrees and degrees to the units of an area. *)
Variable from_microdegree from_degree : double -> double.

Definition buildDestinationArea (gbc : DestinationArea) : Area :=
  mkArea
    match da_shape gbc with
    | RectangleShape => Rectangle (d_of_Z (da_distance_a gbc)) (d_of_Z (da_distance_b gbc))
    | EllipseShape => Ellipse (d_of_Z (da_distance_a gbc)) (d_of_Z (da_distance_b gbc))
    | CircleShape | UnknownShape => Circle (d_of_Z (da_distance_a gbc))
    end
    (from_microdegree (dmul (d_of_Z (da_latitude gbc)) (d_lit 1 10)))
    (from_microdegree (dmul (d_of_Z (da_longitude gbc)) (d_lit 1 10)))
    (from_degree (d_of_Z (da_angle gbc))).

(** [processMessage]: a request with its payload, or nothing.  The request's ITS-AID is
    never assigned: [its_aid] is whatever its memory holds. *)
Definition processMessage (its_aid : Z) (msg : TransfusionMsg) : res (option (btp_request Area * list Z)) :=
  match match tm_transport msg with
        | kShb => Some (SHB, NoDestination)
        | kGbc area => Some (GBC, ToArea (buildDestinationArea area))
        | TRANSPORT_TYPE_NOT_SET => None
        end with
  | None => Ok None
  | Some (transport, destination) =>
      lifetime ← match tm_maximum_lifetime msg with
                 | Some seconds => Some <$> lifetime_encode (d_of_Z seconds)
                 | None => Ok None
                 end;
      let tc := set_store_carry_forward (tm_store_carry_forward msg)
                  (set_channel_offload (tm_channel_offload msg) (set_tc_id (tm_dcc_profile msg) 0)) in
      Ok (Some (mkBtpRequest transport destination (u16 (tm_destination_port msg)) 0 its_aid ITS_G5
                  lifetime None None tc, tm_payload msg))
  end.

(** ** Framing *)
(** protobuf's variable length integers (value and length), and the generated code: what a
    message is parsed to with the number of bytes read, within the limit. *)
Variable ReadVarint32 : list Z -> option (Z * nat).
Variable WriteVarint32 : Z -> list Z.
Variable ParseFromCodedStream : list Z -> option TransfusionMsg * nat.
Variable SerializeToCodedStream : TransfusionMsg -> list Z.

Record TransfusionService := mkService { m_buffer : list Z; reads_started : nat }.

(** The data message of the socket task: the array it was read into, whose bytes after
    the length are left from earlier reads. *)
Record AsioData := mkAsioData { ad_buffer : list Z; ad_length : nat }.

Definition transfusion_handleMessage (its_aid : Z) (data : AsioData) (s : TransfusionService) :
    res (TransfusionService * list (btp_request Area * list Z)) :=
  let buffer := ad_buffer data in
  let m_buffer := m_buffer s ++ take (ad_length data) buffer in
  let '(msg_length, position) := default (0, O) (ReadVarint32 buffer) in
  r ← (if (0 <? msg_length) && (msg_length <=? Z.of_nat (length m_buffer)) then
         let '(msg, consumed) := ParseFromCodedStream (take (Z.to_nat msg_length) (drop position buffer)) in
         out ← match msg with
               | Some msg => processMessage its_aid msg
               | None => Ok None
               end;
         if Nat.leb (position + consumed) (length m_buffer)
         then Ok (drop (position + consumed) m_buffer, option_list out)
         else Fail (Undefined "erase beyond the end of m_buffer")
       else Ok (m_buffer, []));
  let '(m_buffer, out) := r : list Z * list (btp_request Area * list Z) in
  Ok (mkService m_buffer (S (reads_started s)), out).

(** What [tapPacket] reads of an indication; Btp has the whole of it. *)
Record btp_indication := mkBtpIndication {
  bi_destination_port : Z;
  bi_traffic_class : Z;
  bi_remaining_lifetime : option Z
}.

(** [tapPacket]: the bytes written to the socket.  The lifetime in seconds is converted to
    an unsigned integer. *)
Definition tap_message (ind : btp_indication) (payload : list Z) : res TransfusionMsg :=
  lifetime ← match bi_remaining_lifetime ind with
             | Some raw => (fun v => Some (u32 v)) <$> d_to_long (lifetime_decode raw)
             | None => Ok None
             end;
  Ok (mkTransfusion (bi_destination_port ind) payload (store_carry_forward (bi_traffic_class ind))
        (channel_offload (bi_traffic_class ind)) (tc_id (bi_traffic_class ind)) lifetime TRANSPORT_TYPE_NOT_SET).

Definition frame (msg : TransfusionMsg) : list Z :=
  let bytes := SerializeToCodedStream msg in WriteVarint32 (Z.of_nat (length bytes)) ++ bytes.

Definition tapPacket (ind : btp_indication) (payload : list Z) : res (list Z) :=
  frame <$> tap_message ind payload.
End Service.

(** ** The encodings *)
Definition representable (s : Z) : bool :=
  ((0 <=? s) && (s <? 63)) || ((63 <=? s) && (s <? 630) && (s mod 10 =? 0)) ||
  ((630 <=? s) && (s <=? 6300) && (s mod 100 =? 0)).

(** A lifetime in whole seconds survives the encoding and the conversion back. *)
Definition lifetime_survives (s : Z) : bool :=
  match lifetime_encode (d_of_Z s) with
  | Ok raw => bool_decide (d_to_long (lifetime_decode raw) = Ok s)
  | Fail _ => false
  end.

Lemma forallb_seqZ (f : Z -> bool) a n : forallb f (seqZ a n) = true -> forall x, a <= x < a + n -> f x = true.
Proof. intros H x Hx. rewrite forallb_forall in H. apply H. apply list_elem_of_In, elem_of_seqZ. lia. Qed.

Lemma representable_survives s : representable s = true -> lifetime_survives s = true.
Proof.
  unfold representable. rewrite !orb_true_iff, !andb_true_iff, !Z.leb_le, !Z.ltb_lt, !Z.eqb_eq.
  intros [[Hs|[Hs Hm]]|[Hs Hm]].
  - apply (forallb_seqZ lifetime_survives 0 63); [vm_compute; reflexivity|lia].
  - pose proof (Z.div_mod s 10 ltac:(lia)) as Hd. rewrite Hm, Z.add_0_r in Hd. rewrite Hd.
    apply (forallb_seqZ (fun k => lifetime_survives (10 * k)) 6 57); [vm_compute; reflexivity|lia].
  - pose proof (Z.div_mod s 100 ltac:(lia)) as Hd. rewrite Hm, Z.add_0_r in Hd. rewrite Hd.
    apply (forallb_seqZ (fun k => lifetime_survives (100 * k)) 6 58); [vm_compute; reflexivity|lia].
Qed.

Lemma lifetime_roundtrip s : representable s = true ->
  exists raw, lifetime_encode (d_of_Z s) = Ok raw /\ d_to_long (lifetime_decode raw) = Ok s /\ 0 <= s < 2 ^ 32.
Proof.
  intros Hs. pose proof (representable_survives s Hs) as H. unfold lifetime_survives in H.
  destruct (lifetime_encode (d_of_Z s)) as [raw|]; [|done]. exists raw. split_and!; [done|by apply bool_decide_eq_true in H|..];
    unfold representable in Hs; rewrite !orb_true_iff, !andb_true_iff, !Z.leb_le, !Z.ltb_lt, !Z.eqb_eq in Hs; lia.
Qed.

Definition class_survives (scf off : bool) (id : Z) : bool :=
  let tc := set_store_carry_forward scf (set_channel_offload off (set_tc_id id 0)) in
  eqb (store_carry_forward tc) scf && eqb (channel_offload tc) off && (tc_id tc =? id) &&
  (0 <=? tc) && (tc <? 256).

Lemma traffic_class_roundtrip scf off id : 0 <= id < 64 ->
  let tc := set_store_carry_forward scf (set_channel_offload off (set_tc_id id 0)) in
  store_carry_forward tc = scf /\ channel_offload tc = off /\ tc_id tc = id /\ 0 <= tc < 256.
Proof.
  intros Hid. assert (class_survives scf off id = true) as H.
  { apply (forallb_seqZ (class_survives scf off) 0 64); [|lia]. destruct scf, off; vm_compute; reflexivity. }
  unfold class_survives in H. rewrite !andb_true_iff, !eqb_true_iff, Z.eqb_eq, Z.leb_le, Z.ltb_lt in H. cbn zeta in *. tauto.
Qed.

(** ** The service with codecs that keep their promises *)
Section Laws.
Variable from_microdegree from_degree : double -> double.
Variable ReadVarint32 : list Z -> option (Z * nat).
Variable WriteVarint32 : Z -> list Z.
Variable ParseFromCodedStream : list Z -> option TransfusionMsg * nat.
Variable SerializeToCodedStream : TransfusionMsg -> list Z.
Hypothesis varint_law : forall n rest, 0 <= n < 2 ^ 32 ->
  ReadVarint32 (WriteVarint32 n ++ rest) = Some (n, length (WriteVarint32 n)).
Hypothesis parse_law : forall msg,
  ParseFromCodedStream (SerializeToCodedStream msg) = (Some msg, length (SerializeToCodedStream msg)).

#[local] Abbreviation frame := (frame WriteVarint32 SerializeToCodedStream).
#[local] Abbreviation handle :=
  (transfusion_handleMessage from_microdegree from_degree ReadVarint32 ParseFromCodedStream).

(** A read that delivered exactly one message, into an array with older bytes behind. *)
Definition whole_read (msg : TransfusionMsg) (d : AsioData) : Prop :=
  exists rest, ad_buffer d = frame msg ++ rest /\ ad_length d = length (frame msg).

Definition sendable (msg : TransfusionMsg) : Prop :=
  0 < Z.of_nat (length (SerializeToCodedStream msg)) < 2 ^ 32.

Lemma whole_read_handled aid msg d n out : whole_read msg d -> sendable msg ->
  processMessage from_microdegree from_degree aid msg = Ok out ->
  handle aid d (mkService [] n) = Ok (mkService [] (S n), option_list out).
Proof.
  intros (rest & Hb & Hl) [Hs0 Hs1] Hp. unfold transfusion_handleMessage. rewrite Hb, Hl. cbn [m_buffer app reads_started].
  rewrite take_app_length. unfold Transfusion.frame. rewrite <- app_assoc, varint_law by lia. cbn [default from_option id].
  set (bytes := SerializeToCodedStream msg) in *. set (v := WriteVarint32 (Z.of_nat (length bytes))).
  rewrite (proj2 (Z.ltb_lt _ _)) by lia. rewrite (proj2 (Z.leb_le _ _)) by (rewrite length_app; lia). cbn [andb].
  rewrite drop_app_length, Nat2Z.id, take_app_length. unfold bytes at 1. rewrite parse_law. fold bytes.
  rewrite Hp. cbn [mbind res_bind]. rewrite length_app, Nat.leb_refl. cbn [mbind res_bind].
  rewrite <- length_app, drop_all. done.
Qed.

(** Handling of a sequence of reads. *)
Definition reads_step (aid : Z) (st : TransfusionService * list (btp_request Area * list Z)) (d : AsioData) :
    res (TransfusionService * list (btp_request Area * list Z)) :=
  r ← handle aid d st.1;
  Ok ((r : TransfusionService * list (btp_request Area * list Z)).1, st.2 ++ r.2).

(** What the messages ask for. *)
Definition requests_of (aid : Z) (msgs : list TransfusionMsg) : list (btp_request Area * list Z) :=
  concat ((fun msg => match processMessage from_microdegree from_degree aid msg with
                      | Ok out => option_list out | Fail _ => [] end) <$> msgs).

(** If every read from the socket delivers exactly one framed message, each message
    leads to its request, once and in order: single hop and area broadcasts are handed to
    the middleware with port, payload, traffic class and lifetime of the message, messages
    without transport type are skipped, and after every read the buffer is empty and the
    next read has been started. *)
Theorem transfusion_in_order aid msgs reads n :
  Forall2 whole_read msgs reads -> Forall sendable msgs ->
  Forall (fun msg => is_ok (processMessage from_microdegree from_degree aid msg) = true) msgs ->
  res_fold (reads_step aid) reads (mkService [] n, []) =
    Ok (mkService [] (n + length msgs), requests_of aid msgs).
Proof.
  intros Hr Hs Hp. enough (forall acc, res_fold (reads_step aid) reads (mkService [] n, acc) =
    Ok (mkService [] (n + length msgs), acc ++ requests_of aid msgs)) as H by apply H.
  revert n. induction Hr as [|msg d msgs reads Hd Hr IH]; intros n acc.
  - cbn. by rewrite Nat.add_0_r, app_nil_r.
  - apply Forall_cons in Hs as [Hs Hss], Hp as [Hp Hps]. cbn [res_fold].
    destruct (processMessage from_microdegree from_degree aid msg) as [out|] eqn:E; [|done].
    assert (reads_step aid (mkService [] n, acc) d = Ok (mkService [] (S n), acc ++ option_list out)) as ->
      by (unfold reads_step; cbn [fst snd]; by rewrite (whole_read_handled aid msg d n out Hd Hs E)).
    cbn [mbind res_bind].
    rewrite IH by done. unfold requests_of. cbn [fmap list_fmap concat length]. rewrite E, <- app_assoc.
    do 2 f_equal. f_equal. lia.
Qed.
End Laws.

(** ** Codecs to run the service with *)
(** Base-128 integers as protobuf documents them, and a plain encoding of the fields. *)
Fixpoint ex_write (fuel : nat) (n : Z) : list Z :=
  match fuel with
  | O => []
  | S k => if n <? 128 then [n] else (n mod 128 + 128) :: ex_write k (n / 128)
  end.
Fixpoint ex_read (fuel : nat) (l : list Z) : option (Z * nat) :=
  match fuel, l with
  | S k, b :: l' =>
      if b <? 128 then Some (b, 1%nat)
      else match ex_read k l' with Some (v, m) => Some (b - 128 + 128 * v, S m) | None => None end
  | _, _ => None
  end.

Lemma ex_write_S k n :
  ex_write (S k) n = if n <? 128 then [n] else (n mod 128 + 128) :: ex_write k (n / 128).
Proof. done. Qed.
Lemma ex_read_cons k b l : ex_read (S k) (b :: l) =
  if b <? 128 then Some (b, 1%nat)
  else match ex_read k l with Some (v, m) => Some (b - 128 + 128 * v, S m) | None => None end.
Proof. done. Qed.

Lemma ex_varint_law n rest : 0 <= n < 2 ^ 32 ->
  ex_read 5 (ex_write 5 n ++ rest) = Some (n, length (ex_write 5 n)).
Proof.
  intros Hn. assert (0 <= n < 128 ^ Z.of_nat 5) as H by lia. clear Hn. revert n H.
  generalize 4%nat as k. induction k as [|k IH]; intros n Hn; rewrite ex_write_S;
    destruct (Z.ltb_spec n 128) as [Hlt|Hge]; cbn [app]; rewrite ex_read_cons;
    try (by rewrite (proj2 (Z.ltb_lt n 128))); [cbn in Hn; lia|].
  pose proof (Z.mod_pos_bound n 128 ltac:(lia)). rewrite (proj2 (Z.ltb_ge _ _)) by lia.
  rewrite IH; [|split; [apply Z.div_pos; lia|apply Z.div_lt_upper_bound; [lia|]]].
  - assert (n mod 128 + 128 - 128 + 128 * (n / 128) = n) as -> by (pose proof (Z.div_mod n 128); lia). done.
  - rewrite Nat2Z.inj_succ, Z.pow_succ_r in Hn by lia. lia.
Qed.

Definition b2z (b : bool) : Z := if b then 1 else 0.
Definition shape_code (s : ShapeType) : Z :=
  match s with CircleShape => 0 | RectangleShape => 1 | EllipseShape => 2 | UnknownShape => 3 end.
Definition ex_serialize (m : TransfusionMsg) : list Z :=
  [tm_destination_port m; b2z (tm_store_carry_forward m); b2z (tm_channel_offload m); tm_dcc_profile m] ++
  match tm_maximum_lifetime m with Some s => [1; s] | None => [0; 0] end ++
  match tm_transport m with
  | TRANSPORT_TYPE_NOT_SET => [0; 0; 0; 0; 0; 0; 0]
  | kShb => [1; 0; 0; 0; 0; 0; 0]
  | kGbc a => [2; shape_code (da_shape a); da_latitude a; da_longitude a; da_distance_a a; da_distance_b a; da_angle a]
  end ++ tm_payload m.
Definition ex_parse (l : list Z) : option TransfusionMsg * nat :=
  match l with
  | port :: scf :: off :: dcc :: some :: s :: kind :: shape :: lat :: lon :: a :: b :: angle :: payload =>
      (Some (mkTransfusion port payload (scf =? 1) (off =? 1) dcc (if some =? 1 then Some s else None)
         (if kind =? 1 then kShb else if kind =? 2 then
            kGbc (mkDestinationArea (if shape =? 0 then CircleShape else if shape =? 1 then RectangleShape
                    else if shape =? 2 then EllipseShape else UnknownShape) lat lon a b angle)
          else TRANSPORT_TYPE_NOT_SET)), length l)
  | _ => (None, length l)
  end.

Lemma ex_parse_law m : ex_parse (ex_serialize m) = (Some m, length (ex_serialize m)).
Proof. by destruct m as [? ? [] [] ? [] [|[[] ? ? ? ? ?]|]]. Qed.

Definition ex_unit (x : double) : double := x.
Definition ex_msg (payload : list Z) : TransfusionMsg := mkTransfusion 2001 payload true false 2 (Some 620) kShb.
Definition ex_frame (m : TransfusionMsg) : list Z := frame (ex_write 5) ex_serialize m.
(** Thirteen fields and the payload: the array behind the frame keeps older bytes. *)
Definition ex_whole (m : TransfusionMsg) : AsioData := mkAsioData (ex_frame m ++ [7; 7; 7]) (length (ex_frame m)).

Lemma transfusion_in_order_witness :
  res_fold (reads_step ex_unit ex_unit (ex_read 5) ex_parse 36) [ex_whole (ex_msg [1; 2; 3]); ex_whole (ex_msg [4])]
    (mkService [] 1, []) =
  Ok (mkService [] 3, requests_of ex_unit ex_unit 36 [ex_msg [1; 2; 3]; ex_msg [4]]).
Proof.
  apply (transfusion_in_order ex_unit ex_unit (ex_read 5) (ex_write 5) ex_parse ex_serialize ex_varint_law ex_parse_law
    36 [ex_msg [1; 2; 3]; ex_msg [4]] [ex_whole (ex_msg [1; 2; 3]); ex_whole (ex_msg [4])] 1).
  - repeat constructor; by exists [7; 7; 7].
  - repeat constructor; vm_compute; reflexivity.
  - repeat constructor; vm_compute; reflexivity.
Defined.

(** *** What the stream of bytes can do to the framing *)
Definition ex_run (reads : list AsioData) : res (TransfusionService * list (list Z)) :=
  r ← res_fold (reads_step ex_unit ex_unit (ex_read 5) ex_parse 36) reads (mkService [] 0, []);
  Ok ((r : TransfusionService * list (btp_request Area * list Z)).1, r.2.*2).

(** Two messages in one read: the second is neither processed nor found by later reads. *)
Example second_message_lost :
  let both := ex_frame (ex_msg [1]) ++ ex_frame (ex_msg [2]) in
  snd <$> ex_run [mkAsioData both (length both); ex_whole (ex_msg [3]); ex_whole (ex_msg [4])] = Ok [[1]; [3]; [4]].
Proof. vm_compute. reflexivity. Qed.

(** A message split over two reads is never processed: the second read is parsed as if a
    message began with it. *)
Example split_message_lost :
  let f := ex_frame (ex_msg [1; 2; 3; 4]) in
  snd <$> ex_run [mkAsioData (take 8 f ++ repeat 0 20) 8; mkAsioData (drop 8 f ++ repeat 0 20) (length f - 8)] = Ok [].
Proof. vm_compute. reflexivity. Qed.

(** If only the last byte is missing, the message is completed with a byte left from an
    earlier read, and more is erased than has arrived. *)
Example stale_byte_used :
  let f := ex_frame (ex_msg [1; 2; 3; 4]) in
  ex_run [mkAsioData (take (length f - 1) f ++ [99; 99]) (length f - 1)] =
    Fail (Undefined "erase beyond the end of m_buffer").
Proof. vm_compute. reflexivity. Qed.

(** A lifetime of more than 6349 s wraps around to a short one. *)
Example long_lifetime_wraps :
  (fun raw => d_to_long (lifetime_decode raw)) <$> lifetime_encode (d_of_Z 6400) = Ok (Ok 0).
Proof. vm_compute. reflexivity. Qed.
