(* ===== verification/Station.v ===== *)
(** * A station as a whole: from a service to the services of another station

    How the parts work together: a service's request goes through
    [ItsG5BaseService::request] and [Middleware::requestTransmission] to the routers of
    the network interfaces; what a router hears on its channel goes through the transport
    dispatcher to the services of the receiving station.  The requests are those of the
    CA and DEN services and of [ExampleService]
    ([src/src/artery/application/ExampleService.cc]). *)

From S2P Require Import Prelude OMap Float64 Channel Identity Middleware DenService Networking Transfusion.

(** ** Requests of the services *)
(** [CaService::sendCam] *)
Definition cam_request : btp_request Area :=
  mkBtpRequest SHB NoDestination 2001 0 36 ITS_G5 (Some (lifetime_set One_Second 1)) None None (set_tc_id 2 0).

(** [DenService::sendDenm] of a use case's request: a broadcast to a circle around the
    detecting vehicle, whose angle does not matter. *)
Definition denm_request (r : DataRequestB) : btp_request Area :=
  mkBtpRequest (if is_gbc r then GBC else GUC)
    (ToArea (mkArea (Circle (radius r)) (destination_latitude r) (destination_longitude r) (d_of_Z 0)))
    (destination_port r) 0 (its_aid r) ITS_G5 None (maximum_hop_limit r)
    (Some (repetition_interval r, repetition_maximum r)) (set_tc_id (DenService.tc_id r) 0).

Definition example_its_aid : Z := 16480.

Section Station.
(** Channel of every registered interface and the order of the interface table, the
    management information of every interface's router, and whether its GeoNetworking
    engine rejects a request. *)
Variable chan : ifcid -> ChannelNumber.
Variable table : list ifcid.
Variable mib : ifcid -> ManagementInformationBase.
Variable gn_rejects : ifcid -> geonet_request Area -> bool.
Context {Payload : Type}.

(** What a router hands to its engine: the request, the header and the payload. *)
Abbreviation transmission := (ifcid * (geonet_request Area * (Z * Z) * Payload))%type.

Definition route (r : btp_request Area) (out : list transmission) (call : ifcid * Payload) :
    res (list transmission) :=
  t ← router_request (gn_rejects call.1) (mib call.1) r call.2;
  Ok (out ++ [(call.1, t)]).

(** [ItsG5BaseService::request] through to the engines; an exception of a router ends it. *)
Definition station_request (middleware : option MultiChannelPolicy) (r : btp_request Area) (payload : Payload)
    (interface : option ifcid) : res (list transmission) :=
  calls ← service_request chan table middleware (btp_its_aid r) payload interface;
  res_fold (route r) calls [].

(** [ExampleService::trigger]: a packet for each channel, on its interface. *)
Definition example_request (port : Z) : btp_request Area :=
  mkBtpRequest SHB NoDestination port 0 example_its_aid ITS_G5 None None None (set_tc_id 3 0).
Definition example_channel (policy : MultiChannelPolicy) (m : Middleware) (svc : svcid) (payload : Payload)
    (out : list transmission) (channel : ChannelNumber) : res (list transmission) :=
  match select chan table channel with
  | Some network =>
      sent ← station_request (Some policy) (example_request (getPortNumber m svc channel)) payload (Some network);
      Ok (out ++ sent)
  | None => Ok out
  end.
Definition example_trigger (policy : MultiChannelPolicy) (m : Middleware) (svc : svcid) (payload : Payload) :
    res (list transmission) :=
  res_fold (example_channel policy m svc payload) (allChannels policy example_its_aid) [].

(** ** Reception on another station *)
(** [carry] is what the engines and the radio make of a transmission, [parse_btp_b]
    vanetza's BTP parser at the receiver. *)
Context {P : Type}.
Variable carry : geonet_request Area * (Z * Z) * Payload -> P.
Variable parse_btp_b : P -> PortNumber * P.

Definition heard_on (channel : ChannelNumber) (out : list transmission) : list transmission :=
  filter (fun t => chan t.1 = channel) out.

Definition receive (d : TransportDispatcher) (channel : ChannelNumber) (acc : list (delivery P)) (t : transmission) :
    res (list (delivery P)) :=
  calls ← dispatcher_indicate parse_btp_b d BTP_B (Some (carry t.2)) channel;
  Ok (acc ++ calls).

Definition station_receive (d : TransportDispatcher) (channel : ChannelNumber) (out : list transmission) :
    res (list (delivery P)) :=
  res_fold (receive d channel) (heard_on channel out) [].

(** ** The way down *)
(** The request a router makes of the service's request, if it can. *)
Definition gn_request_of (m : ManagementInformationBase) (r : btp_request Area) : option (geonet_request Area) :=
  match transport_type r, btp_destination r with
  | SHB, _ => Some (ShbDataRequest (copy_request_parameters m r))
  | GBC, ToArea area => Some (GbcDataRequest (copy_request_parameters m r) area)
  | _, _ => None
  end.
Definition ports_of (r : btp_request Area) : Z * Z := (btp_destination_port r, btp_destination_port_info r).

Lemma router_request_spec rejects m r (p : Payload) :
  match gn_request_of m r with
  | Some gn => router_request rejects m r p =
      if rejects gn then Fail (RuntimeError "GN-Data.request rejected") else Ok (gn, ports_of r, p)
  | None => is_ok (router_request rejects m r p) = false
  end.
Proof. unfold gn_request_of, router_request. by destruct (transport_type r), (btp_destination r). Qed.

(** The interfaces' engines accept the request. *)
Definition accepted (r : btp_request Area) (i : ifcid) (gn : geonet_request Area) : Prop :=
  gn_request_of (mib i) r = Some gn /\ gn_rejects i gn = false.

Lemma route_all r (p : Payload) (gn : ifcid -> geonet_request Area) ifcs out :
  (forall i, i ∈ ifcs -> accepted r i (gn i)) ->
  res_fold (route r) ((fun i => (i, p)) <$> ifcs) out =
    Ok (out ++ ((fun i => (i, (gn i, ports_of r, p))) <$> ifcs)).
Proof.
  revert out. induction ifcs as [|i l IH]; intros out Ha; cbn [fmap list_fmap res_fold]; [by rewrite app_nil_r|].
  destruct (Ha i (list_elem_of_here _ _)) as [Hg Hr].
  pose proof (router_request_spec (gn_rejects i) (mib i) r p) as H. rewrite Hg, Hr in H.
  assert (route r out (i, p) = Ok (out ++ [(i, (gn i, ports_of r, p))])) as -> by (unfold route; cbn [fst snd]; by rewrite H).
  cbn [mbind res_bind]. rewrite IH by (intros; apply Ha; by right). by rewrite <- app_assoc.
Qed.

Lemma select_chan t c i : select chan t c = Some i -> chan i = c.
Proof. induction t as [|j t IH]; cbn; [done|]. destruct (Z.eqb_spec (chan j) c); [by intros [= <-]|done]. Qed.

(** On each channel the interface serving it is heard, and on no other. *)
Lemma heard_served (l : list ChannelNumber) (t : ifcid -> geonet_request Area * (Z * Z) * Payload) c :
  NoDup l ->
  heard_on c ((fun i => (i, t i)) <$> served chan table l) =
    match select chan table c with
    | Some i => if decide (c ∈ l) then [(i, t i)] else []
    | None => []
    end.
Proof.
  unfold heard_on. induction l as [|x l IH]; intros Hnd; [by destruct (select _ _ _)|].
  apply NoDup_cons in Hnd as [Hx Hnd]. rewrite served_cons.
  destruct (select chan table x) as [j|] eqn:Hj.
  - cbn [fmap list_fmap]. pose proof (select_chan _ _ _ Hj) as Hc. destruct (decide (x = c)) as [->|Hne].
    + rewrite filter_cons_True by done. rewrite IH by done. rewrite Hj.
      rewrite decide_False by done. by rewrite decide_True by by left.
    + rewrite filter_cons_False by (cbn; congruence). rewrite IH by done. destruct (select chan table c); [|done].
      destruct (decide (c ∈ l)); [rewrite decide_True by by right|rewrite decide_False by set_solver]; done.
  - rewrite IH by done. destruct (select chan table c) as [i|] eqn:Hi; [|done].
    assert (c <> x) by congruence.
    destruct (decide (c ∈ l)); [rewrite decide_True by by right|rewrite decide_False by set_solver]; done.
Qed.

Lemma allChannels_NoDup policy aid : policy_wf policy -> NoDup (allChannels policy aid).
Proof.
  intros [_ Hp]. unfold allChannels. destruct (om_find aid (mApplicationMapping policy)) as [chs|] eqn:E.
  - apply os_wf_NoDup. by apply (Hp aid).
  - destruct (negb _); repeat constructor. set_solver.
Qed.

(** [C4] From service to services: a request that the engines accept reaches the other
    stations as the configuration says.  On every channel the policy gives for the
    application and an interface serves, a receiving station's dispatcher taps the packet
    to the promiscuous listeners of the channel and indicates it to the listeners of this
    channel and the request's port, each once, with the request's parameters completed by
    the management information of the sending interface; on every other channel nothing is
    heard.  No packet is used after it has been moved, at either end. *)
Theorem request_reaches_services policy r (payload : Payload) (gn : ifcid -> geonet_request Area) d :
  policy_wf policy -> Z.of_nat (length (allChannels policy (btp_its_aid r))) < 2 ^ 32 ->
  (forall i, i ∈ served chan table (allChannels policy (btp_its_aid r)) -> accepted r i (gn i)) ->
  (forall x, (parse_btp_b (carry x)).1 = x.1.2.1) ->
  (forall td, Z.of_nat (length (listeners_of d td)) < 2 ^ 32) ->
  exists out, station_request (Some policy) r payload None = Ok out /\
    forall c, station_receive d c out =
      Ok match select chan table c with
         | Some i =>
             if decide (c ∈ allChannels policy (btp_its_aid r)) then
               let packet := (parse_btp_b (carry (gn i, ports_of r, payload))).2 in
               ((fun l => Tap l packet) <$> taps_of d c) ++
               ((fun l => Indicate l packet) <$> listeners_of d (c, btp_destination_port r))
             else []
         | None => []
         end.
Proof.
  intros Hwf Hlen Hacc Hlaw Hsmall. unfold station_request.
  rewrite service_request_cases by done. cbn [mbind res_bind]. rewrite (route_all r payload gn) by done. cbn [app].
  eexists. split; [done|]. intros c. unfold station_receive.
  rewrite (heard_served _ (fun i => (gn i, ports_of r, payload))) by by apply allChannels_NoDup.
  destruct (select chan table c) as [i|]; [|done]. destruct (decide (c ∈ _)); [|done].
  cbn [res_fold]. unfold receive. cbn [snd]. set (x := (gn i, ports_of r, payload)).
  pose proof (Hlaw x) as Hx. destruct (parse_btp_b (carry x)) as [port pkt] eqn:Ep. cbn [fst] in Hx.
  rewrite (dispatcher_indicate_spec parse_btp_b d (carry x) pkt port c Ep) by done. subst port. done.
Qed.

(** What a request without a usable destination does, if any interface is served. *)
Lemma unusable_request_fails policy r (payload : Payload) :
  Z.of_nat (length (allChannels policy (btp_its_aid r))) < 2 ^ 32 ->
  served chan table (allChannels policy (btp_its_aid r)) <> [] ->
  (forall m, gn_request_of m r = None) ->
  is_ok (station_request (Some policy) r payload None) = false.
Proof.
  intros Hlen Hs Hg. unfold station_request. rewrite service_request_cases by done. cbn [mbind res_bind].
  destruct (served _ _ _) as [|i l]; [done|]. cbn [fmap list_fmap res_fold].
  pose proof (router_request_spec (gn_rejects i) (mib i) r payload) as H. rewrite Hg in H.
  assert (is_ok (route r [] (i, payload)) = false) as Hf
    by (unfold route; cbn [fst snd]; by destruct (router_request _ _ _ _)).
  by destruct (route r [] (i, payload)).
Qed.
End Station.

(** ** Witness: a CAM on two channels *)
Definition ex_chan (i : ifcid) : ChannelNumber := if decide (i = 1%nat) then 180 else 176.
Definition ex_mib (i : ifcid) : ManagementInformationBase := mkMib 3 (lifetime_set One_Second 60) 10 true false false.
Definition ex_accept (i : ifcid) (g : geonet_request Area) : bool := false.
Definition ex_gn (i : ifcid) : geonet_request Area := ShbDataRequest (copy_request_parameters (ex_mib i) cam_request).
Definition ex_policy : MultiChannelPolicy := mkPolicy 0 [(36, [176; 180])].
(** The receiver's services: 7 on the control channel, 9 on SCH1, 8 listens to all of SCH1. *)
Definition ex_dispatcher : TransportDispatcher :=
  mkDispatcher [((176, 2001), [9%nat]); ((180, 2001), [7%nat]); ((180, 2002), [8%nat])] [(176, [8%nat])].
Definition ex_carry (x : geonet_request Area * (Z * Z) * string) : Z * string := (x.1.2.1, x.2).
Definition ex_parse (p : Z * string) : PortNumber * (Z * string) := (p.1, p).

Lemma request_reaches_services_witness :
  exists out, station_request ex_chan [1%nat; 2%nat] ex_mib ex_accept (Some ex_policy) cam_request "cam" None = Ok out /\
    station_receive ex_chan ex_carry ex_parse ex_dispatcher 180 out = Ok [Indicate 7 (2001, "cam")] /\
    station_receive ex_chan ex_carry ex_parse ex_dispatcher 176 out =
      Ok [Tap 8 (2001, "cam"); Indicate 9 (2001, "cam")] /\
    station_receive ex_chan ex_carry ex_parse ex_dispatcher 172 out = Ok [].
Proof.
  destruct (request_reaches_services ex_chan [1%nat; 2%nat] ex_mib ex_accept ex_carry ex_parse ex_policy cam_request
    "cam" ex_gn ex_dispatcher) as (out & Ho & Hr).
  - split; [repeat constructor|]. intros aid chs. cbn.
    destruct (decide (aid = 36)); [|done]. intros [= <-]. split; [repeat constructor|done].
  - vm_compute. reflexivity.
  - intros i Hi. by split.
  - intros x. reflexivity.
  - intros [c p]. unfold listeners_of. cbn. repeat destruct (decide _); cbn; lia.
  - exists out. rewrite !Hr. split; [exact Ho|]. vm_compute. auto.
Defined.
