(* ===== verification/EnvGlobal.v ===== *)
(** * Global environment model

    [src/src/artery/envmod/]: the objects (vehicles) and obstacles sensors can see.
    The three preselection methods implement one interface ([PreselectionMethod]);
    the detection of objects by a radar is written against it.  Geometry of Boost
    and the mathematical functions of the standard library are parameters, as are
    the readings of the vehicle controllers. *)

From S2P Require Import Prelude OMap Float64 VehicleData Identity TraciCache TraciNodes.

(** ** Sensors *)
Inductive SensorPosition := VIRTUAL | FRONT | BACK | LEFT | RIGHT.
#[export] Instance sensor_position_eq_dec : EqDecision SensorPosition.
Proof. solve_decision. Defined.

Definition relativeAngle (pos : SensorPosition) : double :=
  match pos with
  | FRONT => d_of_Z 0 | BACK => d_of_Z 180 | LEFT => d_of_Z 90 | RIGHT => d_of_Z 270
  | VIRTUAL => S754_nan
  end.

Record FieldOfView := mkFov { fov_range : double; fov_angle : double }.

Record SensorConfigRadar := mkRadar {
  egoID : string;
  fieldOfView : FieldOfView;
  sensorPosition : SensorPosition;
  numSegments : Z;
  doLineOfSightCheck : bool;
  vis_linesOfSight : bool
}.

(** The radars' [initialize]. *)
Definition radar_initialize (pos : SensorPosition) (ego : string) (range angle : double)
    (segments : Z) : SensorConfigRadar :=
  mkRadar ego (mkFov range angle) pos segments true false.

(** ** Objects *)
(** [owner] identifies the shared object (its control block). *)
Record EnvironmentModelObject := mkObject {
  owner : nat;
  object_id : string;
  object_vdp : VehicleDataProvider;
  mLength : double;
  mWidth : double;
  mRadius : double;
  mOutline : list Position;
  mAttachmentPoints : list Position;
  mCentrePoint : Position
}.

(** [ObjectDB]: ordered by external id. *)
Abbreviation ObjectDB := (list (string * EnvironmentModelObject)) (only parsing).

(** Boost.Geometry and libm, as used here: affine matrices and their product,
    application to a point, the polygon predicates, and the functions of the
    object geometry. *)
Record Geometry := mkGeometry {
  matrix : Type;
  mat_mul : matrix -> matrix -> matrix;
  scale : double -> double -> matrix;
  rotate_radian : double -> matrix;
  rotate_degree : double -> matrix;
  translate : double -> double -> matrix;
  transform : matrix -> Position -> Position;
  subtract_point : Position -> Position -> Position;
  geom_distance : Position -> Position -> double;
  geom_sqrt : double -> double;
  geom_sin : double -> double;
  geom_cos : double -> double;
  geom_atan2 : double -> double -> double;
  rad_to_deg : double -> double;
  is_valid : list Position -> bool;
  polygons_intersect : list Position -> list Position -> bool;
  covered_by : Position -> list Position -> bool;
  line_crosses : Position * Position -> list Position -> bool;
  line_intersects : Position * Position -> list Position -> bool;
  box : Type;
  return_envelope : list Position -> box;
  (** [rtree::query(intersects(polygon))]: the values in an unspecified order. *)
  rtree_query : list (box * string) -> list Position -> list (box * string);
  correct : list Position -> list Position
}.

Section Model.
Variable G : Geometry.
(** Degrees to radians, for the vehicle data. *)
Variable from_degrees : double -> double.
(** A vehicle controller's readings at a moment, and the dimensions of its type. *)
Variable reading : simtime -> string -> controller_reading.
Variable length_of width_of : string -> double.

Definition origin : Position := mkPosition (d_of_Z 0) (d_of_Z 0).
Definition half : double := d_lit 1 2.
Definition squareOutline : list Position :=
  [mkPosition (d_of_Z 0) half; mkPosition (d_of_Z 0) (dopp half);
   mkPosition (d_of_Z (-1)) (dopp half); mkPosition (d_of_Z (-1)) half].
Definition squareAttachmentPoints : list Position :=
  [mkPosition (d_of_Z 0) (d_of_Z 0); mkPosition (dopp half) (dopp half);
   mkPosition (d_of_Z (-1)) (d_of_Z 0); mkPosition (dopp half) half].
Definition squareCentrePoint : Position := mkPosition (dopp half) (d_of_Z 0).

Definition transformVehicle (length width : double) (pos : Position) (alpha : double) : matrix G :=
  let scaling := scale G length width in
  let rotation := rotate_radian G alpha in
  let translation := translate G (pos_x pos) (pos_y pos) in
  mat_mul G (mat_mul G translation rotation) scaling.

Definition object_update (now : simtime) (o : EnvironmentModelObject) : res EnvironmentModelObject :=
  vdp ← vdp_update from_degrees (object_vdp o) now (reading now (object_id o));
  let heading := dmul (d_of_Z (-1)) (dsub (mHeading vdp) (dmul half d_pi)) in
  let affine := transformVehicle (mLength o) (mWidth o) (mPosition vdp) heading in
  Ok (mkObject (owner o) (object_id o) vdp (mLength o) (mWidth o) (mRadius o)
        (transform G affine <$> squareOutline) (transform G affine <$> squareAttachmentPoints)
        (transform G affine squareCentrePoint)).

(** The constructor; [update] is called at its end. *)
Definition object_create (now : simtime) (owner : nat) (vehicle : string) (id : Z) :
    res EnvironmentModelObject :=
  let halfWidth := dmul (width_of vehicle) half in
  let halfLength := dmul (length_of vehicle) half in
  let radius := geom_sqrt G (dadd (dmul halfWidth halfWidth) (dmul halfLength halfLength)) in
  object_update now (mkObject owner vehicle (vdp_create id) (length_of vehicle) (width_of vehicle)
    radius [] [] origin).

Definition getAttachmentPoint (o : EnvironmentModelObject) (pos : SensorPosition) : res Position :=
  assert_ "mAttachmentPoints.size() == 4" (length (mAttachmentPoints o) =? 4)%nat ;;
  match pos with
  | FRONT => Ok (default origin (mAttachmentPoints o !! 0%nat))
  | BACK => Ok (default origin (mAttachmentPoints o !! 2%nat))
  | RIGHT => Ok (default origin (mAttachmentPoints o !! 1%nat))
  | LEFT => Ok (default origin (mAttachmentPoints o !! 3%nat))
  | VIRTUAL => Fail (RuntimeError "Invalid sensor attachment point requested")
  end.

(** ** Sensor cone *)
(** The loop over the segments: each point is the previous one rotated. *)
Fixpoint arc_points (n : nat) (rotateSegment : matrix G) (last : Position) : list Position :=
  match n with
  | O => []
  | S n' => let p := transform G rotateSegment last in p :: arc_points n' rotateSegment p
  end.

Definition createSensorArc_at (config : SensorConfigRadar) (egoPos : Position) (egoHeading : double) :
    list Position :=
  let openingAngleDeg := fov_angle (fieldOfView config) in
  let egoHeadingDeg := dmul (d_of_Z (-1)) (dsub (rad_to_deg G egoHeading) (d_of_Z 90)) in
  let segments := Z.max (numSegments config) 1 in
  let segmentAngle := ddiv openingAngleDeg (d_of_Z segments) in
  let sensorPositionDeg := relativeAngle (sensorPosition config) in
  let sensorBoundary := mkPosition (fov_range (fieldOfView config)) (d_of_Z 0) in
  let rotateSensorBoundary := rotate_degree G
    (dadd (dsub sensorPositionDeg (dmul half openingAngleDeg)) egoHeadingDeg) in
  let sensorBoundary := transform G rotateSensorBoundary sensorBoundary in
  let points := origin :: sensorBoundary ::
    arc_points (Z.to_nat segments) (rotate_degree G segmentAngle) sensorBoundary in
  transform G (translate G (pos_x egoPos) (pos_y egoPos)) <$> points.

Definition createSensorArc (config : SensorConfigRadar) (egoObj : EnvironmentModelObject) :
    res (list Position) :=
  sensorPos ← getAttachmentPoint egoObj (sensorPosition config);
  Ok (createSensorArc_at config sensorPos (mHeading (object_vdp egoObj))).

(** ** Preselection: the interface *)
Class PreselectionMethod (P : Type) := {
  presel_update : ObjectDB -> P -> P;
  presel_select : ObjectDB -> P -> EnvironmentModelObject -> SensorConfigRadar -> res (list string)
}.

(** *** Interdistance matrix *)
Record MatrixItem := mkItem {
  distanceToY : double;
  angleToY : double;
  item_radius : double;
  item_name : string
}.
Record ItemSelector := mkSelector { sel_left : double; sel_right : double; sel_range : double }.

Definition createAngle (p1 p2 centre : Position) : double :=
  let p1 := subtract_point G p1 centre in
  let p2 := subtract_point G p2 centre in
  let angle1 := geom_atan2 G (pos_x p1) (pos_y p1) in
  let angle2 := geom_atan2 G (pos_x p2) (pos_y p2) in
  let radAngle := dsub angle2 angle1 in
  if dltb d_pi radAngle then dsub radAngle (dmul (d_of_Z 2) d_pi)
  else if dltb radAngle (dopp d_pi) then dadd radAngle (dmul (d_of_Z 2) d_pi)
  else radAngle.

Definition calcAngleEgoToX (objEgo objX : EnvironmentModelObject) : double :=
  let reference := mkPosition (d_of_Z 0) (d_of_Z (-1)) in
  let egoData := object_vdp objEgo in
  let rotate := rotate_radian G (dmul (d_of_Z (-1)) (mHeading egoData)) in
  let reference := transform G rotate reference in
  let translate := translate G (pos_x (mPosition egoData)) (pos_y (mPosition egoData)) in
  let reference := transform G translate reference in
  rad_to_deg G (createAngle reference (mPosition (object_vdp objX)) (mPosition egoData)).

(** An angle in degrees brought back to half a turn, once. *)
Definition matrix_angle (angle : double) : double :=
  let angle := if dltb angle (d_of_Z (-180)) then dadd angle (d_of_Z 360) else angle in
  if dltb (d_of_Z 180) angle then dsub angle (d_of_Z 360) else angle.

Definition matrix_item (objEgo objX : EnvironmentModelObject) : MatrixItem :=
  mkItem (geom_distance G (mCentrePoint objEgo) (mCentrePoint objX))
    (matrix_angle (calcAngleEgoToX objEgo objX)) (mRadius objX) (object_id objX).

Definition InterdistanceMatrix := list (string * list MatrixItem).

Definition matrix_update (mObjects : ObjectDB) (_ : InterdistanceMatrix) : InterdistanceMatrix :=
  (fun ego : string * EnvironmentModelObject =>
     (object_id ego.2,
      matrix_item ego.2 <$> List.filter (fun x => negb (String.eqb (object_id ego.2) (object_id x)))
                              mObjects.*2)) <$> mObjects.

(** One turn back for a limit of the sector. *)
Definition wrap_limit (x : double) : double :=
  if dltb (d_of_Z 180) x then dsub x (d_of_Z 360)
  else if dltb x (d_of_Z (-180)) then dadd x (d_of_Z 360)
  else x.

Definition buildItemSelector (config : SensorConfigRadar) : res ItemSelector :=
  if String.eqb (egoID config) "" then Fail (StdException "Vehicle ID empty")
  else if deqb (fov_range (fieldOfView config)) (d_of_Z 0) then Fail (StdException "Sensor range is 0")
  else if dltb (d_of_Z 360) (fov_angle (fieldOfView config))
  then Fail (StdException "Sensor opening angle greater than 360 degree")
  else
    let sensorPositionDeg := relativeAngle (sensorPosition config) in
    let sensorDirection := if dltb (d_of_Z 180) sensorPositionDeg
                           then dadd (d_of_Z (-360)) sensorPositionDeg else sensorPositionDeg in
    let halfOpeningAngleDegree := dmul half (fov_angle (fieldOfView config)) in
    Ok (mkSelector (wrap_limit (dsub sensorDirection halfOpeningAngleDegree))
          (wrap_limit (dadd sensorDirection halfOpeningAngleDegree))
          (fov_range (fieldOfView config))).

Definition checkItemSelector (selector : ItemSelector) (item : MatrixItem) : bool :=
  dleb (distanceToY item) (dadd (sel_range selector) (item_radius item)) &&
  (dltb (angleToY item) (sel_right selector) && dltb (sel_left selector) (angleToY item)).

Definition matrix_select (_ : ObjectDB) (mMatrix : InterdistanceMatrix) (ego : EnvironmentModelObject)
    (config : SensorConfigRadar) : res (list string) :=
  assert_ "ego.getExternalId() == config.egoID" (String.eqb (object_id ego) (egoID config)) ;;
  selector ← buildItemSelector config;
  match om_find (egoID config) mMatrix with
  | Some items => Ok (item_name <$> List.filter (checkItemSelector selector) items)
  | None => Fail (StdException "No entry found")
  end.

(** *** Polygon intersection *)
Definition polygon_select (mObjects : ObjectDB) (_ : unit) (ego : EnvironmentModelObject)
    (config : SensorConfigRadar) : res (list string) :=
  sensorCone ← createSensorArc config ego;
  if negb (is_valid G sensorCone) then Fail (RuntimeError "polygon of sensor cone is invalid")
  else Ok (object_id <$> List.filter (fun o => negb (String.eqb (object_id o) (object_id ego)) &&
                                        polygons_intersect G (mOutline o) sensorCone) mObjects.*2).

(** *** R-tree *)
Definition rtree_update (mObjects : ObjectDB) (_ : list (box G * string)) : list (box G * string) :=
  (fun o => (return_envelope G (mOutline o), object_id o)) <$> mObjects.*2.

Definition rtree_select (_ : ObjectDB) (mRtree : list (box G * string)) (ego : EnvironmentModelObject)
    (config : SensorConfigRadar) : res (list string) :=
  cone ← createSensorArc config ego;
  if negb (is_valid G cone) then Fail (RuntimeError "polygon of sensor cone is invalid")
  else Ok (List.filter (fun id => negb (String.eqb id (object_id ego))) (rtree_query G mRtree cone).*2).

#[export] Instance interdistance_preselection : PreselectionMethod InterdistanceMatrix :=
  {| presel_update := matrix_update; presel_select := matrix_select |}.
#[export] Instance polygon_preselection : PreselectionMethod unit :=
  {| presel_update := fun _ s => s; presel_select := polygon_select |}.
#[export] Instance rtree_preselection : PreselectionMethod (list (box G * string)) :=
  {| presel_update := rtree_update; presel_select := rtree_select |}.

(** ** The model *)
Record GlobalEnvironmentModel (P : Type) := mkGlobal {
  mObjects : list (string * EnvironmentModelObject);
  mObstacles : list (string * list Position);
  mObstacleRtree : list (box G * string);
  mPreselector : P;
  mTainted : bool;
  next_owner : nat;
  refreshes : nat  (** refresh signals emitted *)
}.
Arguments mkGlobal {P}.
Arguments mObjects {P}.
Arguments mObstacles {P}.
Arguments mObstacleRtree {P}.
Arguments mPreselector {P}.
Arguments mTainted {P}.
Arguments next_owner {P}.
Arguments refreshes {P}.

Context {P : Type} `{!PreselectionMethod P}.
Abbreviation Global := (GlobalEnvironmentModel P).
(** The identity registry, if there is one. *)
Variable mIdentityRegistry : option (string -> option Identity).

Definition getObject (s : Global) (objId : string) : option EnvironmentModelObject :=
  om_find objId (mObjects s).

(** Updating every object, in order. *)
Fixpoint update_objects (now : simtime) (l : ObjectDB) : res (list (string * EnvironmentModelObject)) :=
  match l with
  | [] => Ok []
  | (id, o) :: l' =>
      o' ← object_update now o;
      rest ← update_objects now l';
      Ok ((id, o') :: rest)
  end.

Definition refresh (now : simtime) (s : Global) : res Global :=
  objects ← update_objects now (mObjects s);
  Ok (mkGlobal objects (mObstacles s) (mObstacleRtree s) (presel_update objects (mPreselector s)) false
        (next_owner s) (S (refreshes s))).

Definition env_addVehicle (now : simtime) (vehicle : string) (s : Global) : res (bool * Global) :=
  let id := match mIdentityRegistry with
            | Some lookup =>
                match lookup vehicle with Some found => application found | None => 0 end
            | None => 0
            end in
  o ← object_create now (next_owner s) vehicle id;
  let insertion := bool_decide (om_find vehicle (mObjects s) = None) in
  Ok (insertion,
      mkGlobal (om_emplace vehicle o (mObjects s)) (mObstacles s) (mObstacleRtree s) (mPreselector s)
        (mTainted s || insertion) (S (next_owner s)) (refreshes s)).

(** The assignment after the [return] is never reached. *)
Definition env_removeVehicle (objID : string) (s : Global) : bool * Global :=
  (bool_decide (is_Some (om_find objID (mObjects s))),
   mkGlobal (om_erase objID (mObjects s)) (mObstacles s) (mObstacleRtree s) (mPreselector s)
     (mTainted s) (next_owner s) (refreshes s)).

Definition removeVehicles (s : Global) : Global :=
  mkGlobal [] (mObstacles s) (mObstacleRtree s) (presel_update [] (mPreselector s)) false
    (next_owner s) (refreshes s).

Definition env_clear (s : Global) : Global :=
  let s := removeVehicles s in
  mkGlobal (mObjects s) [] [] (mPreselector s) (mTainted s) (next_owner s) (refreshes s).

Definition addObstacle (s : Global) (o : string * list Position) : Global :=
  mkGlobal (mObjects s) (om_emplace o.1 (correct G o.2) (mObstacles s)) (mObstacleRtree s)
    (mPreselector s) (mTainted s) (next_owner s) (refreshes s).

Fixpoint insert_obstacles (l : list (string * list Position)) (rtree : list (box G * string)) :
    res (list (box G * string)) :=
  match l with
  | [] => Ok rtree
  | (id, polygon) :: l' =>
      if is_valid G polygon then insert_obstacles l' (rtree ++ [(return_envelope G polygon, id)])
      else Fail (StdException "invalid obstacle polygon")
  end.

Definition buildObstacleRtree (s : Global) : res Global :=
  rtree ← insert_obstacles (mObstacles s) (mObstacleRtree s);
  Ok (mkGlobal (mObjects s) (mObstacles s) rtree (mPreselector s) (mTainted s) (next_owner s)
        (refreshes s)).

(** The polygons of the traffic simulation, already in OMNeT++ coordinates. *)
Definition fetchObstacles (polygons : list (string * list Position)) (s : Global) : res Global :=
  buildObstacleRtree (foldl addObstacle s polygons).

(** ** Detection *)
Record SensorDetection := mkDetection {
  sensorCone : list Position;
  det_objects : list (option EnvironmentModelObject);
  visiblePoints : list Position
}.

(** [std::none_of] with a predicate that may dereference a null pointer. *)
Fixpoint none_of {A} (p : A -> res bool) (l : list A) : res bool :=
  match l with
  | [] => Ok true
  | x :: l' => b ← p x; if b : bool then Ok false else none_of p l'
  end.

(** [getObject(id)->...] *)
Definition deref (o : option EnvironmentModelObject) : res EnvironmentModelObject :=
  match o with Some o => Ok o | None => Fail (Undefined "null object") end.

Definition point_visible (s : Global) (presel : list string) (obstacles : list (box G * string))
    (ego objectPoint : Position) : res bool :=
  let lineOfSight := (ego, objectPoint) in
  noVehicleOccultation ← none_of (fun id =>
    o ← deref (getObject s id); Ok (line_crosses G lineOfSight (mOutline o))) presel;
  noObstacleOccultation ← none_of (fun x : box G * string =>
    match om_find x.2 (mObstacles s) with
    | Some outline => Ok (line_intersects G lineOfSight outline)
    | None => Fail (StdException "map::at")
    end) obstacles;
  Ok (noVehicleOccultation && noObstacleOccultation).

(** The inner loop: the points of one object's outline. *)
Fixpoint check_points (s : Global) (presel : list string) (obstacles : list (box G * string))
    (ego : Position) (cone : list Position) (lines : bool) (object : EnvironmentModelObject)
    (points : list Position) (d : SensorDetection) : res SensorDetection :=
  match points with
  | [] => Ok d
  | objectPoint :: points' =>
      if negb (covered_by G objectPoint cone)
      then check_points s presel obstacles ego cone lines object points' d
      else
        visible ← point_visible s presel obstacles ego objectPoint;
        if visible : bool then
          let repeated := match last (det_objects d) with
                          | Some (Some o) => Nat.eqb (owner o) (owner object)
                          | _ => false
                          end in
          let objects := if repeated then det_objects d else det_objects d ++ [Some object] in
          if lines
          then check_points s presel obstacles ego cone lines object points'
                 (mkDetection (sensorCone d) objects (visiblePoints d ++ [objectPoint]))
          else Ok (mkDetection (sensorCone d) objects (visiblePoints d))
        else check_points s presel obstacles ego cone lines object points' d
  end.

Definition check_object (s : Global) (presel : list string) (obstacles : list (box G * string))
    (ego : Position) (cone : list Position) (lines : bool) (d : SensorDetection) (id : string) :
    res SensorDetection :=
  object ← deref (getObject s id);
  check_points s presel obstacles ego cone lines object (mOutline object) d.

Definition detectObjects (config : SensorConfigRadar) (s : Global) : res SensorDetection :=
  assert_ "!mTainted" (negb (mTainted s)) ;;
  if dleb (fov_range (fieldOfView config)) (d_of_Z 0)
  then Fail (StdException "sensor range is 0 meter or less")
  else if dltb (d_of_Z 360) (fov_angle (fieldOfView config))
  then Fail (StdException "sensor opening angle exceeds 360 degree")
  else
    match getObject s (egoID config) with
    | None => Fail (StdException "no object found")
    | Some egoObj =>
        cone ← createSensorArc config egoObj;
        presel ← presel_select (mObjects s) (mPreselector s) egoObj config;
        let obstacles := rtree_query G (mObstacleRtree s) cone in
        ego ← getAttachmentPoint egoObj (sensorPosition config);
        let d := mkDetection cone [] [] in
        if doLineOfSightCheck config
        then res_fold (check_object s presel obstacles ego cone (vis_linesOfSight config)) presel d
        else Ok (mkDetection cone (getObject s <$> presel) [])
    end.

(** ** Signals *)
(** [traci.node.add] of a module with (or without) a vehicle controller,
    [traci.node.remove], [traci.node.update], [traci.init], [traci.close]. *)
Inductive env_signal :=
| NodeAdd (id : string) (has_controller : bool)
| NodeRemove (id : string)
| NodeUpdate
| TraciInit (polygons : list (string * list Position))
| TraciClose.

Definition env_receiveSignal (now : simtime) (e : env_signal) (s : Global) : res Global :=
  match e with
  | NodeAdd id true => snd <$> env_addVehicle now id s
  | NodeAdd _ false => Ok s
  | NodeRemove id => Ok (env_removeVehicle id s).2
  | NodeUpdate => refresh now s
  | TraciInit polygons => fetchObstacles polygons s
  | TraciClose => Ok (env_clear s)
  end.
End Model.

Arguments mkGlobal {G P}.
Arguments mObjects {G P}.
Arguments mObstacles {G P}.
Arguments mObstacleRtree {G P}.
Arguments mPreselector {G P}.
Arguments mTainted {G P}.
Arguments next_owner {G P}.
Arguments refreshes {G P}.

(** ** Objects follow nodes *)
Section Objects.
Context (G : Geometry) (from_degrees : double -> double)
  (reading : simtime -> string -> controller_reading) (length_of width_of : string -> double)
  {P : Type} `{!PreselectionMethod P} (registry : option (string -> option Identity)).
Abbreviation Global := (GlobalEnvironmentModel G P).
Abbreviation receive := (env_receiveSignal G from_degrees reading length_of width_of registry).
Implicit Types s : Global.

(** Objects are stored under their ids, and are distinct objects. *)
Record env_inv s : Prop := {
  inv_objects_wf : om_wf (mObjects s);
  inv_object_id : forall id o, om_find id (mObjects s) = Some o -> object_id o = id;
  inv_owner_fresh : forall id o, om_find id (mObjects s) = Some o -> (owner o < next_owner s)%nat;
  inv_owner_inj : forall id id' o o', om_find id (mObjects s) = Some o ->
    om_find id' (mObjects s) = Some o' -> owner o = owner o' -> id = id';
  inv_attachment : forall id o, om_find id (mObjects s) = Some o -> length (mAttachmentPoints o) = 4%nat;
  inv_obstacles : forall x, x ∈ mObstacleRtree s -> is_Some (om_find x.2 (mObstacles s))
}.

Definition env_init (p : P) : Global := mkGlobal [] [] [] p false 0 0.

Lemma env_init_inv p : env_inv (env_init p).
Proof. split; [constructor|done..|]. by intros x Hx%not_elem_of_nil. Qed.

Lemma object_update_id now o o' :
  object_update G from_degrees reading now o = Ok o' ->
  object_id o' = object_id o /\ owner o' = owner o /\ length (mAttachmentPoints o') = 4%nat.
Proof. unfold object_update. rewrite bind_Ok. by intros (v & _ & [= <-]). Qed.

Lemma update_objects_find now l l' :
  update_objects G from_degrees reading now l = Ok l' ->
  om_keys l' = om_keys l /\
  (forall id o', om_find id l' = Some o' -> exists o, om_find id l = Some o /\
     object_id o' = object_id o /\ owner o' = owner o /\ length (mAttachmentPoints o') = 4%nat).
Proof.
  revert l'. induction l as [|[id o] l IH]; intros l'; cbn [update_objects].
  - intros H. by apply Ok_inj in H as <-.
  - rewrite bind_Ok. intros (o' & Ho & H). apply bind_Ok in H as (rest & Hr & H).
    apply Ok_inj in H as <-. destruct (IH rest Hr) as [Hk Hf]. split.
    + unfold om_keys in *. cbn. by rewrite Hk.
    + intros x y. cbn. destruct (decide (x = id)) as [->|]; [|apply Hf].
      intros [= <-]. exists o. split; [done|]. by eapply object_update_id.
Qed.

Lemma om_find_emplace {V} (k k' : string) (v : V) m :
  om_find k (om_emplace k' v m) =
    match om_find k m with Some x => Some x | None => if decide (k = k') then Some v else None end.
Proof.
  unfold om_emplace. destruct (om_find k' m) eqn:Hk'.
  - destruct (om_find k m) eqn:Hk; [done|]. rewrite decide_False; [done|]. congruence.
  - rewrite om_find_set. case_decide as Hd; [by subst; rewrite Hk'|]. by destruct (om_find k m).
Qed.

Lemma insert_obstacles_elem l r r' :
  insert_obstacles G l r = Ok r' -> forall x, x ∈ r' -> x ∈ r \/ x.2 ∈ om_keys l.
Proof.
  revert r. induction l as [|[id polygon] l IH]; intros r; cbn [insert_obstacles].
  - intros H. apply Ok_inj in H as <-. by left.
  - destruct (is_valid G polygon); [|done]. intros H x Hx. apply (IH _ H) in Hx as [Hx|Hx].
    + apply elem_of_app in Hx as [Hx|Hx%list_elem_of_singleton]; [by left|right]. subst x. left.
    + right. by right.
Qed.

Lemma fetchObstacles_inv polygons s s' :
  env_inv s -> fetchObstacles G polygons s = Ok s' ->
  env_inv s' /\ (forall id, is_Some (om_find id (mObjects s')) <-> is_Some (om_find id (mObjects s))).
Proof.
  intros [Hwf Hid Hfresh Hinj Hatt Hobs]. unfold fetchObstacles, buildObstacleRtree. rewrite bind_Ok.
  intros (r & Hr & H). apply Ok_inj in H as <-.
  assert (forall l (t : Global), mObjects (foldl (addObstacle G) t l) = mObjects t /\
    next_owner (foldl (addObstacle G) t l) = next_owner t /\
    mObstacleRtree (foldl (addObstacle G) t l) = mObstacleRtree t /\
    (forall id, is_Some (om_find id (mObstacles t)) ->
       is_Some (om_find id (mObstacles (foldl (addObstacle G) t l))))) as Hob.
  { induction l as [|o l IH]; intros t; [done|]. cbn.
    destruct (IH (addObstacle G t o)) as (-> & -> & -> & Hm). repeat split; try done.
    intros id [v Hv]. apply Hm. cbn. rewrite om_find_emplace, Hv. eauto. }
  destruct (Hob polygons s) as (Ho & Hn & Ht & Hm).
  split; [split; cbn; rewrite ?Ho, ?Hn; try done|by cbn; rewrite Ho].
  intros x Hx. apply (insert_obstacles_elem _ _ _ Hr) in Hx as [Hx|Hx].
  - rewrite Ht in Hx. by apply Hm, Hobs.
  - by apply om_find_is_Some.
Qed.

(** What signals do to the set of known ids. *)
Lemma receive_spec now e s s' :
  env_inv s -> receive now e s = Ok s' ->
  env_inv s' /\
  (forall id, is_Some (om_find id (mObjects s')) <->
     match e with
     | NodeAdd x true => id = x \/ is_Some (om_find id (mObjects s))
     | NodeRemove x => id <> x /\ is_Some (om_find id (mObjects s))
     | TraciClose => False
     | _ => is_Some (om_find id (mObjects s))
     end).
Proof.
  intros Hinv. pose proof Hinv as [Hwf Hid Hfresh Hinj Hatt Hobs].
  destruct e as [x [|]|x| |polygons|]; cbn [env_receiveSignal].
  - rewrite fmap_Ok. intros ([b s1] & Ha & <-). cbn. unfold env_addVehicle in Ha.
    apply bind_Ok in Ha as (o & Ho & Ha). apply Ok_inj in Ha. injection Ha as <- <-.
    unfold object_create in Ho. cbv zeta in Ho. apply object_update_id in Ho as (Hoid & Hown & H4). cbn in Hoid, Hown.
    split; [split; cbn; [by apply om_wf_emplace|..|done]|]; cbn [mObjects].
    + intros id y. rewrite om_find_emplace. destruct (om_find id (mObjects s)) eqn:Hf; [by intros [= <-]; apply Hid|].
      case_decide; [|done]. intros [= <-]. congruence.
    + intros id y. rewrite om_find_emplace. destruct (om_find id (mObjects s)) eqn:Hf.
      * intros [= <-]. apply Hfresh in Hf. lia.
      * case_decide; [|done]. intros [= <-]. lia.
    + intros id id' y y'. rewrite !om_find_emplace.
      destruct (om_find id (mObjects s)) eqn:Hf, (om_find id' (mObjects s)) eqn:Hf'; repeat case_decide; try done.
      * intros [= <-] [= <-]. by eapply Hinj.
      * intros [= <-] [= <-]. apply Hfresh in Hf. lia.
      * intros [= <-] [= <-]. apply Hfresh in Hf'. lia.
      * congruence.
    + intros id y. rewrite om_find_emplace. destruct (om_find id (mObjects s)) eqn:Hf; [by intros [= <-]; eapply Hatt|].
      case_decide; [by intros [= <-]|done].
    + intros id. rewrite om_find_emplace. destruct (om_find id (mObjects s)); [naive_solver|].
      case_decide; [naive_solver|]. split; [by intros []|]. intros [->|[]]; done.
  - intros H. by apply Ok_inj in H as <-.
  - intros H. apply Ok_inj in H as <-. cbn. split; [split; cbn; [by apply om_wf_erase|..|done]|]; cbn [mObjects].
    + intros id o. rewrite om_find_erase. case_decide; [done|apply Hid].
    + intros id o. rewrite om_find_erase. case_decide; [done|apply Hfresh].
    + intros id id' o o'. rewrite !om_find_erase. repeat case_decide; try done. apply Hinj.
    + intros id o. rewrite om_find_erase. case_decide; [done|apply Hatt].
    + intros id. rewrite om_find_erase. case_decide; [|naive_solver]. split; [by intros []|naive_solver].
  - unfold refresh. rewrite bind_Ok. intros (l & Hl & H). apply Ok_inj in H as <-.
    apply update_objects_find in Hl as [Hk Hf]. split; [split; cbn; [..|done]|]; cbn [mObjects].
    + unfold om_wf. by rewrite Hk.
    + intros id o' (o & Ho & -> & _)%Hf. by apply Hid.
    + intros id o' (o & Ho & _ & -> & _)%Hf. by apply Hfresh in Ho.
    + intros id id' o1 o2 (o1' & Ho1 & _ & -> & _)%Hf (o2' & Ho2 & _ & -> & _)%Hf. by eapply Hinj.
    + by intros id o' (o & _ & _ & _ & ?)%Hf.
    + intros id. by rewrite !om_find_is_Some, Hk.
  - intros H. by eapply fetchObstacles_inv.
  - intros H. apply Ok_inj in H as <-. split; [split; cbn; [constructor|done..|]; by intros x Hx%not_elem_of_nil|].
    intros id. cbn. split; [by intros []|done].
Qed.

(** The environment model's view of the node signals; a module has a vehicle
    controller or not. *)
Definition env_signal_of (has_controller : node -> bool) (e : node_event) : option env_signal :=
  match e with
  | AddNodeSignal id n => Some (NodeAdd id (has_controller n))
  | RemoveNodeSignal id _ => Some (NodeRemove id)
  | UpdateNodeSignal _ => Some NodeUpdate
  | _ => None
  end.

Definition receive_events (has_controller : node -> bool) (now : nat -> simtime)
    (events : list node_event) (s : Global) : res Global :=
  res_fold (fun s e =>
    match env_signal_of has_controller e with
    | Some sig => receive (now (refreshes s)) sig s
    | None => Ok s
    end) events s.

Lemma receive_events_inv has_controller now events s s' :
  env_inv s -> receive_events has_controller now events s = Ok s' -> env_inv s'.
Proof.
  apply res_fold_inv. intros e t t' _ Ht. destruct (env_signal_of has_controller e); [|by intros [= <-]].
  intros H. by apply receive_spec in H as [? _].
Qed.

(** Every announced node is new. *)
Definition fresh_adds (events : list node_event) : Prop :=
  forall l1 id n l2, events = l1 ++ AddNodeSignal id n :: l2 -> om_find id (live_nodes l1) = None.

(** [C18] The global environment model mirrors the node manager: after any log of
    node signals in which added nodes are new, it holds an object for exactly the
    live nodes with a vehicle controller, each under its id and distinct from the
    others; and if the log ends with the update signal of a step, object database
    and preselector are in sync and no refresh is pending. *)
Theorem objects_mirror_nodes has_controller now events p s :
  fresh_adds events ->
  receive_events has_controller now events (env_init p) = Ok s ->
  env_inv s /\
  (forall id, id ∈ om_keys (mObjects s) <->
     exists n, om_find id (live_nodes events) = Some n /\ has_controller n = true) /\
  (forall n, last events = Some (UpdateNodeSignal n) ->
     mTainted s = false /\ exists p', mPreselector s = presel_update (mObjects s) p').
Proof.
  intros Hfresh Hrun. assert (env_inv s /\ forall id, is_Some (om_find id (mObjects s)) <->
     exists n, om_find id (live_nodes events) = Some n /\ has_controller n = true) as [Hinv Hkeys].
  { revert s Hrun. induction events as [|e events IH] using rev_ind; intros s Hrun.
    - apply Ok_inj in Hrun as <-. split; [apply env_init_inv|]. intros id. cbn. split; [by intros []|naive_solver].
    - unfold receive_events in Hrun. rewrite res_fold_app in Hrun. apply bind_Ok in Hrun as (s1 & H1 & Hrun).
      destruct (IH) with (s := s1) as [Hinv1 Hk1]; [|exact H1|].
      { intros l1 id n l2 ->. apply (Hfresh l1 id n (l2 ++ [e])). by rewrite <- app_assoc. }
      cbn [res_fold] in Hrun. apply bind_Ok in Hrun as (s2 & H2 & Hrun). apply Ok_inj in Hrun as <-.
      rewrite live_nodes_snoc.
      destruct e as [x|x|x|x m|c|x m|x m q a v|x m q a v]; cbn [env_signal_of] in H2;
        try (by apply Ok_inj in H2 as <-).
      + apply receive_spec in H2 as [Hinv2 Hk2]; [|done]. split; [done|]. intros id. rewrite Hk2.
        pose proof (Hfresh events x m [] eq_refl) as Hnew.
        destruct (decide (id = x)) as [->|Hne].
        * rewrite om_find_set_eq. destruct (has_controller m) eqn:Hm; [split; eauto|].
          rewrite Hk1, Hnew. split; [by intros (? & ? & _)|by intros (n & [= <-] & Hn); congruence].
        * rewrite om_find_set_ne by done. destruct (has_controller m); rewrite Hk1; [|done].
          split; [by intros [?|?]|by right].
      + apply receive_spec in H2 as [Hinv2 Hk2]; [|done]. split; [done|]. intros id. by rewrite Hk2, Hk1.
      + apply receive_spec in H2 as [Hinv2 Hk2]; [|done]. split; [done|]. intros id. rewrite Hk2, Hk1.
        destruct (decide (id = x)) as [->|Hne].
        * rewrite om_find_erase_eq. split; [by intros [? _]|by intros (? & ? & _)].
        * rewrite om_find_erase_ne by done. split; [by intros [_ ?]|done]. }
  split; [done|]. split; [intros id; by rewrite <- om_find_is_Some|].
  intros n Hlast. apply last_Some in Hlast as [l ->]. unfold receive_events in Hrun.
  rewrite res_fold_app in Hrun. apply bind_Ok in Hrun as (s1 & _ & Hrun). cbn in Hrun.
  unfold refresh in Hrun. destruct (update_objects _ _ _ _ _) as [l'|] eqn:Hl; [|done]. cbn in Hrun.
  apply Ok_inj in Hrun as <-. cbn. eauto.
Qed.
End Objects.

(** ** A concrete environment *)
(** Vehicles are not rotated; distances are taken along the axes. *)
Definition ex_geometry : Geometry := {|
  matrix := Position -> Position;
  mat_mul := fun a b p => a (b p);
  scale := fun x y p => mkPosition (dmul x (pos_x p)) (dmul y (pos_y p));
  rotate_radian := fun _ p => p;
  rotate_degree := fun _ p => p;
  translate := fun x y p => mkPosition (dadd x (pos_x p)) (dadd y (pos_y p));
  transform := fun m p => m p;
  subtract_point := fun p q => mkPosition (dsub (pos_x p) (pos_x q)) (dsub (pos_y p) (pos_y q));
  geom_distance := fun p q => dadd (dabs (dsub (pos_x p) (pos_x q))) (dabs (dsub (pos_y p) (pos_y q)));
  geom_sqrt := fun x => x;
  geom_sin := fun _ => d_of_Z 0;
  geom_cos := fun _ => d_of_Z 1;
  geom_atan2 := fun _ _ => d_of_Z 0;
  rad_to_deg := fun x => x;
  is_valid := fun _ => true;
  polygons_intersect := fun _ _ => true;
  covered_by := fun p _ => dltb (d_of_Z 0) (pos_x p);
  line_crosses := fun _ _ => false;
  line_intersects := fun _ _ => false;
  box := unit;
  return_envelope := fun _ => tt;
  rtree_query := fun values _ => values;
  correct := fun p => p
|}.

Definition ex_controller (now : simtime) (id : string) : controller_reading :=
  mkReading (d_of_Z 10) (d_of_Z 0)
    (mkPosition (if String.eqb id "ego" then d_of_Z 0 else d_of_Z 20) (d_of_Z 0))
    (mkGeoPosition (d_of_Z 0) (d_of_Z 0)).

Definition ex_car : node := mkNode "Car" "node" (Some 0).
Definition ex_rsu : node := mkNode "Roadside" "node" (Some 1).
Definition ex_controlled (n : node) : bool := String.eqb (node_type n) "Car".

(** Two cars and a station without controller, announced and updated once. *)
Definition ex_log : list node_event :=
  [AddNodeSignal "ego" ex_car; AddNodeSignal "other" ex_car; AddNodeSignal "station" ex_rsu;
   UpdateNodeSignal 3].

Definition ex_receive (events : list node_event)
    (s : GlobalEnvironmentModel ex_geometry InterdistanceMatrix) :=
  @receive_events ex_geometry degrees_to_radians ex_controller (fun _ => d_of_Z 4) (fun _ => d_of_Z 2)
    InterdistanceMatrix (interdistance_preselection ex_geometry) None ex_controlled
    (fun n => SIMTIME_MS (100 * Z.of_nat n)) events s.

Definition ex_env : GlobalEnvironmentModel ex_geometry InterdistanceMatrix :=
  match ex_receive ex_log (env_init ex_geometry []) with
  | Ok s => s
  | Fail _ => env_init ex_geometry []
  end.

Lemma ex_env_run : ex_receive ex_log (env_init ex_geometry []) = Ok ex_env.
Proof.
  assert (is_ok (ex_receive ex_log (env_init ex_geometry [])) = true) as H by (vm_compute; reflexivity).
  unfold ex_env. by destruct (ex_receive _ _).
Qed.

Lemma objects_mirror_nodes_witness :
  om_keys (mObjects ex_env) = ["ego"; "other"] /\ env_inv ex_geometry ex_env /\ mTainted ex_env = false.
Proof.
  destruct (objects_mirror_nodes ex_geometry degrees_to_radians ex_controller (fun _ => d_of_Z 4)
    (fun _ => d_of_Z 2) (PreselectionMethod0 := interdistance_preselection ex_geometry) None ex_controlled
    (fun n => SIMTIME_MS (100 * Z.of_nat n)) ex_log [] ex_env) as (Hinv & _ & Hs).
  - intros [|e1 [|e2 [|e3 [|e4 [|e5 l1]]]]] id n l2 Heq; unfold ex_log in Heq; simplify_list_eq; vm_compute; reflexivity.
  - exact ex_env_run.
  - split; [vm_compute; reflexivity|]. split; [exact Hinv|]. by apply (Hs 3%nat).
Defined.

(** The vehicle is gone but the preselector still knows it: the detection of a radar
    that is asked before the next refresh uses a null object. *)
Definition ex_env_left : GlobalEnvironmentModel ex_geometry InterdistanceMatrix :=
  (env_removeVehicle ex_geometry "other" ex_env).2.
Definition ex_left_radar : SensorConfigRadar :=
  radar_initialize FRONT "ego" (d_of_Z 50) (d_of_Z 60) 10.

Example removed_vehicle_detected :
  mTainted ex_env_left = false /\
  @detectObjects ex_geometry _ (interdistance_preselection ex_geometry) ex_left_radar ex_env_left =
    Fail (Undefined "null object").
Proof. split; vm_compute; reflexivity. Qed.
