(* ===== verification/EnvDetect.v ===== *)
(** * What radars detect

    The promise a preselection method makes to the global environment model
    ([PreselectionLaws]), its proof for the three methods, and what
    [GlobalEnvironmentModel::detectObjects] returns with any method that keeps it. *)

From S2P Require Import Prelude OMap Float64 VehicleData Identity TraciCache TraciNodes EnvGlobal.

(** ** What a preselection promises *)
Section Laws.
Context (G : Geometry).

(** The object database a preselection works on. *)
Record db_ok (db : ObjectDB) : Prop := {
  db_wf : om_wf db;
  db_id : forall id o, om_find id db = Some o -> object_id o = id
}.

(** After an update, the selected ids are those of distinct objects of the
    database, other than the sensor's own vehicle. *)
Class PreselectionLaws (P : Type) `{!PreselectionMethod P} : Prop := {
  presel_sound : forall db p ego config ids, db_ok db ->
    presel_select db (presel_update db p) ego config = Ok ids ->
    NoDup ids /\ (forall id, id ∈ ids -> is_Some (om_find id db)) /\ object_id ego ∉ ids
}.

Lemma db_ids db : db_ok db -> object_id <$> db.*2 = om_keys db.
Proof.
  intros [Hwf Hid]. unfold om_keys.
  assert (forall id o, (id, o) ∈ db -> object_id o = id) as H.
  { intros id o Hin. by apply Hid, om_wf_find. }
  clear Hwf Hid. induction db as [|[id o] db IH]; [done|]. cbn. f_equal; [apply H; left|].
  apply IH. intros id' o' Hin. apply H. by right.
Qed.

(** A selection of the database's objects that leaves out [ego]. *)
Lemma filtered_db_sound db (ego : string) (q : EnvironmentModelObject -> bool) :
  db_ok db -> (forall o, object_id o = ego -> q o = false) ->
  NoDup (object_id <$> List.filter q db.*2) /\
  (forall id, id ∈ (object_id <$> List.filter q db.*2) -> is_Some (om_find id db)) /\
  ego ∉ (object_id <$> List.filter q db.*2).
Proof.
  intros Hdb Hq. pose proof (db_ids db Hdb) as Hids.
  assert (forall id, id ∈ (object_id <$> List.filter q db.*2) ->
    exists o, o ∈ db.*2 /\ q o = true /\ object_id o = id) as Hel.
  { intros id (o & -> & Ho)%list_elem_of_fmap. apply list_elem_of_In, filter_In in Ho as [Ho Hp].
    exists o. by rewrite list_elem_of_In. }
  split; [|split].
  - assert (NoDup (object_id <$> db.*2)) as Hnd by (rewrite Hids; by apply om_wf_NoDup, Hdb).
    clear -Hnd. induction (db.*2) as [|o l IH]; [constructor|]. cbn in Hnd |- *.
    apply NoDup_cons in Hnd as [Hn Hnd]. destruct (q o); [|by apply IH]. cbn. constructor; [|by apply IH].
    intros (o' & Heq & Ho')%list_elem_of_fmap. apply Hn. rewrite Heq. apply list_elem_of_fmap_2.
    apply list_elem_of_In, filter_In in Ho' as [Ho' _]. by apply list_elem_of_In.
  - intros id (o & Ho & _ & <-)%Hel. apply om_find_is_Some. rewrite <- Hids. by apply list_elem_of_fmap_2.
  - intros (o & _ & Hp & Ho)%Hel. by rewrite (Hq o Ho) in Hp.
Qed.

(** The row of an object in the matrix. *)
Lemma matrix_row db m id o :
  db_ok db -> om_find id db = Some o ->
  om_find id (matrix_update G db m) =
    Some (matrix_item G o <$> List.filter (fun x => negb (String.eqb id (object_id x))) db.*2).
Proof.
  intros Hdb Ho. pose proof (db_id _ Hdb _ _ Ho) as Hoid. unfold matrix_update.
  apply (om_wf_find _ _ _ (db_wf _ Hdb)) in Ho.
  assert (forall l, l ⊆ db -> (id, o) ∈ l -> om_find id ((fun ego : string * EnvironmentModelObject =>
     (object_id ego.2, matrix_item G ego.2 <$> List.filter (fun x =>
        negb (String.eqb (object_id ego.2) (object_id x))) db.*2)) <$> l) =
     Some (matrix_item G o <$> List.filter (fun x => negb (String.eqb id (object_id x))) db.*2)) as H;
    [|by apply H].
  assert (forall id' o', (id', o') ∈ db -> object_id o' = id') as Hids.
  { intros id' o' Hin. apply (db_id _ Hdb). by apply om_wf_find; [apply Hdb|]. }
  induction l as [|[id' o'] l IH]; [by intros _ ?%not_elem_of_nil|]. intros Hsub Hin. cbn.
  pose proof (Hids id' o' (Hsub _ (list_elem_of_here _ _))) as Hid'. rewrite Hid'.
  destruct (decide (id = id')) as [<-|Hne].
  - assert (o' = o) as ->; [|done].
    assert (om_find id db = Some o') as H1 by (apply om_wf_find; [apply Hdb|apply Hsub; left]).
    apply (om_wf_find _ _ _ (db_wf _ Hdb)) in Ho. congruence.
  - apply IH; [intros x Hx; apply Hsub; by right|]. apply elem_of_cons in Hin as [[= ? ?]|]; [done|done].
Qed.

#[export] Instance interdistance_laws : @PreselectionLaws InterdistanceMatrix (interdistance_preselection G).
Proof.
  split. intros db m ego config ids Hdb. cbn. unfold matrix_select.
  destruct (String.eqb_spec (object_id ego) (egoID config)) as [->|]; [|done]. cbn.
  rewrite bind_Ok. intros (sel & _ & H). destruct (om_find (egoID config) _) as [items|] eqn:Hrow; [|done].
  apply Ok_inj in H as <-.
  assert (exists o, om_find (egoID config) db = Some o) as [o Ho].
  { assert (is_Some (om_find (egoID config) (matrix_update G db m))) as Hk by (rewrite Hrow; eauto).
    apply om_find_is_Some in Hk. unfold om_keys, matrix_update in Hk. rewrite <- list_fmap_compose in Hk.
    cbn in Hk. apply list_elem_of_fmap in Hk as ([id o] & Hid & Ho). cbn in Hid.
    apply (om_wf_find _ _ _ (db_wf _ Hdb)) in Ho. exists o. by rewrite Hid, (db_id _ Hdb _ _ Ho). }
  rewrite (matrix_row db m _ _ Hdb Ho) in Hrow. injection Hrow as <-.
  assert (item_name <$> List.filter (checkItemSelector sel) (matrix_item G o <$>
      List.filter (fun x => negb (String.eqb (egoID config) (object_id x))) db.*2) =
    object_id <$> List.filter (fun x => negb (String.eqb (egoID config) (object_id x)) &&
      checkItemSelector sel (matrix_item G o x)) db.*2) as ->.
  { induction (db.*2) as [|x l IH]; [done|]. cbn. destruct (String.eqb (egoID config) (object_id x)); [done|].
    cbn. destruct (checkItemSelector sel (matrix_item G o x)); cbn; by rewrite IH. }
  apply filtered_db_sound; [done|]. intros x ->. by rewrite String.eqb_refl.
Qed.

#[export] Instance polygon_laws : @PreselectionLaws unit (polygon_preselection G).
Proof.
  split. intros db m ego config ids Hdb. cbn. unfold polygon_select. rewrite bind_Ok.
  intros (cone & _ & H). destruct (is_valid G cone); [|done]. apply Ok_inj in H as <-.
  apply filtered_db_sound; [done|]. intros x ->. by rewrite String.eqb_refl.
Qed.

(** The r-tree answers a query with some of the values it stores. *)
Lemma rtree_laws :
  (forall values polygon, rtree_query G values polygon ⊆+ values) ->
  @PreselectionLaws (list (box G * string)) (rtree_preselection G).
Proof.
  intros Hq. split. intros db m ego config ids Hdb. cbn. unfold rtree_select. rewrite bind_Ok.
  intros (cone & _ & H). destruct (is_valid G cone); [|done]. apply Ok_inj in H as <-.
  set (l := (rtree_query G (rtree_update G db m) cone).*2).
  assert (l ⊆+ om_keys db) as Hsub.
  { unfold l. rewrite (Hq (rtree_update G db m) cone). unfold rtree_update.
    rewrite <- list_fmap_compose. cbn. by rewrite <- (db_ids db Hdb). }
  split; [|split].
  - assert (NoDup l) as Hnd.
    { pose proof (om_wf_NoDup _ (db_wf _ Hdb)) as Hnd. apply submseteq_Permutation in Hsub as [k Hk].
      rewrite Hk in Hnd. by apply NoDup_app in Hnd as [? _]. }
    clear -Hnd. induction l as [|x l IH]; [constructor|]. cbn. apply NoDup_cons in Hnd as [Hx Hnd].
    destruct (negb _); [|by apply IH]. constructor; [|by apply IH]. intros Hin. apply Hx.
    apply list_elem_of_In, filter_In in Hin as [Hin _]. by apply list_elem_of_In.
  - intros id Hin%list_elem_of_In. apply filter_In in Hin as [Hin _]. apply om_find_is_Some.
    apply list_elem_of_In in Hin. by eapply elem_of_submseteq.
  - intros Hin%list_elem_of_In. apply filter_In in Hin as [_ Hin]. by rewrite String.eqb_refl in Hin.
Qed.
End Laws.

(** ** What a radar detects *)
Section Detection.
Context (G : Geometry) {P : Type} `{!PreselectionMethod P}.
Implicit Types s : GlobalEnvironmentModel G P.

(** A point of an outline is seen from [ego]: it lies in the cone, no preselected
    object's outline and no obstacle near the cone is in between. *)
Definition sees (objects : list EnvironmentModelObject) (obstacles : list (list Position))
    (cone : list Position) (ego point : Position) : bool :=
  covered_by G point cone &&
  forallb (fun o => negb (line_crosses G (ego, point) (mOutline o))) objects &&
  forallb (fun o => negb (line_intersects G (ego, point) o)) obstacles.

Section Sees.
Context (s : GlobalEnvironmentModel G P) (presel : list string) (obst : list (box G * string))
  (objects : list EnvironmentModelObject) (outlines : list (list Position)).
(** The preselected objects and the obstacles exist. *)
Hypothesis Hpresel : getObject G s <$> presel = Some <$> objects.
Hypothesis Hobst : (fun x : box G * string => om_find x.2 (mObstacles s)) <$> obst = Some <$> outlines.

Lemma point_visible_Ok ego point cone :
  covered_by G point cone = true ->
  point_visible G s presel obst ego point = Ok (sees objects outlines cone ego point).
Proof.
  intros Hc. unfold point_visible, sees. rewrite Hc. cbn [andb].
  assert (none_of (fun id => o ← deref (getObject G s id);
      Ok (line_crosses G (ego, point) (mOutline o))) presel =
    Ok (forallb (fun o => negb (line_crosses G (ego, point) (mOutline o))) objects)) as ->.
  { clear Hobst Hc. revert objects Hpresel. induction presel as [|id l IH]; intros [|o os]; try done.
    cbn. intros [= Ho Hl]. rewrite Ho. cbn. destruct (line_crosses _ _ _); [done|]. cbn. by apply IH. }
  cbn [mbind res_bind].
  assert (none_of (fun x : box G * string => match om_find x.2 (mObstacles s) with
      | Some outline => Ok (line_intersects G (ego, point) outline)
      | None => Fail (StdException "map::at") end) obst =
    Ok (forallb (fun o => negb (line_intersects G (ego, point) o)) outlines)) as ->; [|done].
  clear Hpresel Hc. revert outlines Hobst. induction obst as [|x l IH]; intros [|o os]; try done.
  cbn. intros [= Ho Hl]. rewrite Ho. cbn. destruct (line_intersects _ _ _); [done|]. cbn. by apply IH.
Qed.

Definition repeated (d : SensorDetection) (object : EnvironmentModelObject) : bool :=
  match last (det_objects d) with Some (Some o) => Nat.eqb (owner o) (owner object) | _ => false end.

(** One object: detected once if any point of its outline is seen. *)
Lemma check_points_Ok ego cone lines object points d :
  exists pts, check_points G s presel obst ego cone lines object points d =
    Ok (mkDetection (sensorCone d)
          (if existsb (sees objects outlines cone ego) points && negb (repeated d object)
           then det_objects d ++ [Some object] else det_objects d)
          (visiblePoints d ++ pts)) /\
    (lines = true -> pts = List.filter (sees objects outlines cone ego) points) /\
    (lines = false -> pts = []).
Proof.
  revert d. induction points as [|point points IH]; intros d; cbn [check_points existsb List.filter].
  - exists []. rewrite app_nil_r. by destruct d.
  - destruct (covered_by G point cone) eqn:Hc; cbn [negb].
    2: { assert (sees objects outlines cone ego point = false) as -> by (unfold sees; by rewrite Hc). apply IH. }
    rewrite (point_visible_Ok ego point cone Hc). cbn [mbind res_bind].
    destruct (sees objects outlines cone ego point) eqn:Hs; cbn [orb andb]; [|apply IH].
    fold (repeated d object). destruct lines.
    + set (d1 := mkDetection _ _ _). destruct (IH d1) as (pts & -> & Hp & _).
      assert (repeated d1 object = true) as ->.
      { unfold d1, repeated at 1. cbn. destruct (repeated d object) eqn:Hr; [exact Hr|].
        rewrite last_snoc. by rewrite Nat.eqb_refl. }
      exists (point :: pts). rewrite andb_false_r. cbn. rewrite <- app_assoc. cbn.
      split; [by destruct (repeated d object)|]. split; [|done]. intros _. by rewrite Hp.
    + exists []. rewrite app_nil_r. split; [by destruct (repeated d object)|]. done.
Qed.

Lemma check_objects_Ok ego cone lines ids os d :
  getObject G s <$> ids = Some <$> os -> NoDup (owner <$> os) ->
  (forall o, last (det_objects d) = Some (Some o) -> owner o ∉ (owner <$> os)) ->
  exists pts, res_fold (check_object G s presel obst ego cone lines) ids d =
    Ok (mkDetection (sensorCone d)
          (det_objects d ++ (Some <$> List.filter (fun o => existsb (sees objects outlines cone ego) (mOutline o)) os))
          (visiblePoints d ++ pts)) /\
    (lines = false -> pts = []) /\
    (lines = true -> pts = mjoin ((fun o => List.filter (sees objects outlines cone ego) (mOutline o)) <$> os)).
Proof.
  revert os d. induction ids as [|id ids IH]; intros [|o os] d; try done.
  - intros _ _ _. exists []. cbn. rewrite !app_nil_r. by destruct d.
  - rewrite !fmap_cons. intros [= Ho Hids] Hnd Hlast. apply NoDup_cons in Hnd as [Hni Hnd].
    assert (check_object G s presel obst ego cone lines d id =
      check_points G s presel obst ego cone lines o (mOutline o) d) as Hc.
    { unfold check_object, getObject. unfold getObject in Ho. by rewrite Ho. }
    destruct (check_points_Ok ego cone lines o (mOutline o) d) as (p1 & Hp & Hp1 & Hp1').
    rewrite Hp in Hc. cbn [res_fold]. rewrite Hc. clear Hp Hc. cbn [mbind res_bind].
    assert (repeated d o = false) as ->.
    { unfold repeated. destruct (last (det_objects d)) as [[o'|]|] eqn:El; try done.
      apply Nat.eqb_neq. intros Heq. apply (Hlast o' eq_refl). rewrite Heq. left. }
    rewrite andb_true_r. set (d1 := mkDetection _ _ _).
    destruct (IH os d1) as (p2 & Hf & Hp2 & Hp2'); [done|done| |].
    { unfold d1. cbn. destruct (existsb _ (mOutline o)).
      - intros o'. rewrite last_snoc. intros [= <-]. done.
      - intros o' Hl Hin. apply (Hlast o' Hl). by right. }
    exists (p1 ++ p2). split; [|split].
    + change (res_fold (check_object G s presel obst ego cone lines) ids d1 =
        Ok (mkDetection (sensorCone d)
          (det_objects d ++ (Some <$> if existsb (sees objects outlines cone ego) (mOutline o)
            then o :: List.filter (fun o => existsb (sees objects outlines cone ego) (mOutline o)) os
            else List.filter (fun o => existsb (sees objects outlines cone ego) (mOutline o)) os))
          (visiblePoints d ++ p1 ++ p2))).
      rewrite Hf. unfold d1. cbn. rewrite <- app_assoc.
      destruct (existsb _ (mOutline o)); [by rewrite <- app_assoc|done].
    + intros Hl. by rewrite Hp1', Hp2.
    + intros Hl. by rewrite Hp1, Hp2'.
Qed.
End Sees.
End Detection.

(** ** Detection with any preselection that keeps its promise *)
Section Exact.
Context (G : Geometry) {P : Type} `{!PreselectionMethod P} `{!PreselectionLaws P}.
(** A query of the obstacle tree answers with values it stores. *)
Hypothesis rtree_query_sub : forall values polygon x, x ∈ rtree_query G values polygon -> x ∈ values.
Implicit Types s : GlobalEnvironmentModel G P.

(** No refresh is pending: the preselector has seen the current objects. *)
Definition in_sync s : Prop :=
  mTainted s = false /\ exists p', mPreselector s = presel_update (mObjects s) p'.

Lemma inv_db_ok s : env_inv G s -> db_ok (mObjects s).
Proof. intros H. split; apply H. Qed.

Lemma getAttachmentPoint_Ok s id o pos :
  env_inv G s -> om_find id (mObjects s) = Some o ->
  is_ok (getAttachmentPoint o pos) = bool_decide (pos <> VIRTUAL).
Proof.
  intros Hinv Ho. pose proof (inv_attachment _ _ Hinv _ _ Ho) as H4. unfold getAttachmentPoint.
  rewrite H4. by destruct pos.
Qed.

(** A list of present keys has values. *)
Lemma finds {V} (ids : list string) (m : list (string * V)) :
  (forall id, id ∈ ids -> is_Some (om_find id m)) ->
  exists vs, (fun id => om_find id m) <$> ids = Some <$> vs.
Proof.
  induction ids as [|id ids IH]; intros H; [by exists []|].
  destruct (H id) as [v Hv]; [left|]. destruct IH as [vs Hvs]; [intros; apply H; by right|].
  exists (v :: vs). cbn. by rewrite Hv, Hvs.
Qed.

Lemma finds_length {V} (ids : list string) (m : list (string * V)) vs :
  (fun id => om_find id m) <$> ids = Some <$> vs -> length ids = length vs.
Proof. intros H. by rewrite <- (length_fmap (fun id => om_find id m) ids), H, length_fmap. Qed.

(** The objects found under distinct ids are distinct. *)
Lemma finds_owners s ids os :
  env_inv G s -> NoDup ids -> (fun id => om_find id (mObjects s)) <$> ids = Some <$> os ->
  NoDup (owner <$> os) /\ (object_id <$> os = ids).
Proof.
  intros Hinv. revert os. induction ids as [|id ids IH]; intros [|o os]; try done; [by repeat constructor|].
  intros [Hni Hnd]%NoDup_cons. rewrite !fmap_cons. intros [= Ho Hos].
  destruct (IH os Hnd Hos) as [Hw Hid]. split; [|by f_equal; [apply (inv_object_id _ _ Hinv)|]].
  constructor; [|done]. intros (o' & Heq & Ho')%list_elem_of_fmap. apply Hni.
  assert (Some o' ∈ (fun id => om_find id (mObjects s)) <$> ids) as Hin
    by (rewrite Hos; by apply list_elem_of_fmap_2).
  apply list_elem_of_fmap in Hin as (id' & Hf & Hin). symmetry in Hf.
  by rewrite (inv_owner_inj _ _ Hinv _ _ _ _ Ho Hf Heq).
Qed.

(** The preselected objects and the obstacles near the cone exist. *)
Lemma preselected s config egoObj cone presel :
  env_inv G s -> in_sync s -> om_find (egoID config) (mObjects s) = Some egoObj ->
  presel_select (mObjects s) (mPreselector s) egoObj config = Ok presel ->
  exists objects outlines,
    (fun id => om_find id (mObjects s)) <$> presel = Some <$> objects /\
    object_id <$> objects = presel /\
    NoDup (owner <$> objects) /\ (owner egoObj ∉ (owner <$> objects)) /\
    ((fun x : box G * string => om_find x.2 (mObstacles s)) <$> rtree_query G (mObstacleRtree s) cone) =
      Some <$> outlines.
Proof.
  intros Hinv [Ht [p' Hp']] Hego Hs. rewrite Hp' in Hs.
  apply presel_sound in Hs as (Hnd & Hin & Hnego); [|by apply inv_db_ok].
  destruct (finds presel (mObjects s) Hin) as [objects Hobjs].
  destruct (finds_owners s presel objects Hinv Hnd Hobjs) as [Hown Hids].
  destruct (finds (rtree_query G (mObstacleRtree s) cone).*2 (mObstacles s)) as [outlines Hvs].
  { intros id (x & -> & Hx)%list_elem_of_fmap. by apply (inv_obstacles _ _ Hinv), (rtree_query_sub _ _ _ Hx). }
  rewrite <- list_fmap_compose in Hvs.
  exists objects, outlines. split; [done|]. split; [done|]. split; [done|]. split; [|exact Hvs].
  intros (o & Ho & Hoin)%list_elem_of_fmap. apply Hnego.
  assert (Some o ∈ (fun id => om_find id (mObjects s)) <$> presel) as Hf
    by (rewrite Hobjs; by apply list_elem_of_fmap_2).
  apply list_elem_of_fmap in Hf as (id' & Hf & Hidin). symmetry in Hf.
  rewrite (inv_object_id _ _ Hinv _ _ Hego).
  by rewrite (inv_owner_inj _ _ Hinv _ _ _ _ Hego Hf Ho).
Qed.

(** Detection runs through when the radar, the vehicle and the preselection do. *)
Lemma detect_prefix s config egoObj cone ego presel :
  mTainted s = false ->
  dleb (fov_range (fieldOfView config)) (d_of_Z 0) = false ->
  dltb (d_of_Z 360) (fov_angle (fieldOfView config)) = false ->
  om_find (egoID config) (mObjects s) = Some egoObj ->
  createSensorArc G config egoObj = Ok cone ->
  presel_select (mObjects s) (mPreselector s) egoObj config = Ok presel ->
  getAttachmentPoint egoObj (sensorPosition config) = Ok ego ->
  detectObjects G config s =
    if doLineOfSightCheck config
    then res_fold (check_object G s presel (rtree_query G (mObstacleRtree s) cone) ego cone
           (vis_linesOfSight config)) presel (mkDetection cone [] [])
    else Ok (mkDetection cone ((fun id => om_find id (mObjects s)) <$> presel) []).
Proof.
  intros Ht Hr Ha Hego Hcone Hsel Hatt. unfold detectObjects, getObject.
  rewrite Ht, Hr, Ha, Hego. cbn [negb assert_ mbind res_bind]. rewrite Hcone.
  cbn [mbind res_bind]. rewrite Hsel. cbn [mbind res_bind]. by rewrite Hatt.
Qed.

(** [C19] With any preselection method that keeps its promise, a radar with line of
    sight check, in a consistent and refreshed environment, detects exactly the
    preselected objects of which some outline point is seen: in preselection order,
    each once, never the vehicle itself; seen means inside the cone, with no
    preselected vehicle crossed and no obstacle of the cone touched by the line
    from the sensor.  The visible points are the seen points when lines of sight are
    requested and none otherwise. *)
Theorem detection_exact s config egoObj cone presel :
  env_inv G s -> in_sync s -> doLineOfSightCheck config = true ->
  dleb (fov_range (fieldOfView config)) (d_of_Z 0) = false ->
  dltb (d_of_Z 360) (fov_angle (fieldOfView config)) = false ->
  om_find (egoID config) (mObjects s) = Some egoObj ->
  createSensorArc G config egoObj = Ok cone ->
  presel_select (mObjects s) (mPreselector s) egoObj config = Ok presel ->
  exists ego objects outlines,
    getAttachmentPoint egoObj (sensorPosition config) = Ok ego /\
    object_id <$> objects = presel /\
    NoDup (owner <$> objects) /\ (owner egoObj ∉ (owner <$> objects)) /\
    ((fun x : box G * string => om_find x.2 (mObstacles s)) <$> rtree_query G (mObstacleRtree s) cone) =
      Some <$> outlines /\
    let seen := sees G objects outlines cone ego in
    detectObjects G config s =
      Ok (mkDetection cone (Some <$> List.filter (fun o => existsb seen (mOutline o)) objects)
            (if vis_linesOfSight config
             then mjoin ((fun o => List.filter seen (mOutline o)) <$> objects) else [])).
Proof.
  intros Hinv Hsync Hlos Hrange Hangle Hego Hcone Hsel.
  assert (exists ego, getAttachmentPoint egoObj (sensorPosition config) = Ok ego) as [ego Hatt].
  { unfold createSensorArc in Hcone. apply bind_Ok in Hcone as (ego & Hatt & _). eauto. }
  destruct (preselected s config egoObj cone presel Hinv Hsync Hego Hsel)
    as (objects & outlines & Hobjs & Hids & Hown & Hno & Hout).
  exists ego, objects, outlines. do 5 (split; [done|]). cbv zeta.
  rewrite (detect_prefix s config egoObj cone ego presel (proj1 Hsync) Hrange Hangle Hego Hcone Hsel Hatt), Hlos.
  destruct (check_objects_Ok G s presel (rtree_query G (mObstacleRtree s) cone) objects outlines Hobjs Hout
    ego cone (vis_linesOfSight config) presel objects (mkDetection cone [] [])) as (pts & -> & H1 & H2);
    [done|done|done|].
  cbn. do 2 f_equal. destruct (vis_linesOfSight config); auto.
Qed.
End Exact.

(** ** The interdistance matrix *)
Section Matrix.
Context (G : Geometry).
(** The limits of a sensor's sector, in degrees relative to the heading. *)
Definition sensor_direction (pos : SensorPosition) : double :=
  let deg := relativeAngle pos in
  if dltb (d_of_Z 180) deg then dadd (d_of_Z (-360)) deg else deg.
Definition sector_left (config : SensorConfigRadar) : double :=
  wrap_limit (dsub (sensor_direction (sensorPosition config)) (dmul half (fov_angle (fieldOfView config)))).
Definition sector_right (config : SensorConfigRadar) : double :=
  wrap_limit (dadd (sensor_direction (sensorPosition config)) (dmul half (fov_angle (fieldOfView config)))).

(** Another object whose body reaches into the range, within the sector. *)
Definition in_sector (config : SensorConfigRadar) (ego o : EnvironmentModelObject) : bool :=
  negb (String.eqb (object_id ego) (object_id o)) &&
  dleb (geom_distance G (mCentrePoint ego) (mCentrePoint o))
       (dadd (fov_range (fieldOfView config)) (mRadius o)) &&
  dltb (matrix_angle (calcAngleEgoToX G ego o)) (sector_right config) &&
  dltb (sector_left config) (matrix_angle (calcAngleEgoToX G ego o)).

Definition sector_config (config : SensorConfigRadar) : bool :=
  negb (String.eqb (egoID config) "") && negb (deqb (fov_range (fieldOfView config)) (d_of_Z 0)) &&
  negb (dltb (d_of_Z 360) (fov_angle (fieldOfView config))).

Lemma matrix_select_in_sector db m ego config :
  db_ok db -> om_find (egoID config) db = Some ego ->
  (sector_config config = true ->
     matrix_select db (matrix_update G db m) ego config =
       Ok (object_id <$> List.filter (in_sector config ego) db.*2)) /\
  (sector_config config = false ->
     exists what, matrix_select db (matrix_update G db m) ego config = Fail (StdException what)).
Proof.
  intros Hdb Hego. pose proof (db_id _ Hdb _ _ Hego) as Hid. unfold matrix_select, buildItemSelector, sector_config.
  rewrite Hid, String.eqb_refl. cbn [assert_ mbind res_bind].
  destruct (String.eqb (egoID config) ""); [split; [done|eauto]|].
  destruct (deqb _ _); [split; [done|eauto]|]. destruct (dltb (d_of_Z 360) _); [split; [done|eauto]|].
  split; [intros _|done]. cbv zeta. cbn [mbind res_bind]. rewrite (matrix_row G db m _ _ Hdb Hego).
  fold (sensor_direction (sensorPosition config)). fold (sector_left config) (sector_right config). f_equal.
  induction (db.*2) as [|x l IH]; [done|]. cbn [List.filter]. unfold in_sector at 1. rewrite Hid.
  destruct (String.eqb (egoID config) (object_id x)); [exact IH|]. cbn [negb andb List.filter fmap list_fmap].
  unfold checkItemSelector at 1. cbn. destruct (dleb _ _); [|exact IH]. cbn.
  destruct (dltb _ (sector_right config)); [|exact IH]. cbn.
  destruct (dltb (sector_left config) _); [|exact IH]. cbn. by f_equal.
Qed.

(** The interdistance matrix, updated for the current objects, selects for a
    radar exactly the other objects at most the range and their own radius away
    whose angle lies strictly between the limits of the sector, in database order.
    A configuration without id, with zero range or an angle above a full turn is an
    error.  When the sector wraps around the rear, so that its right limit is not
    above the left one, nothing is ever selected. *)
Theorem matrix_selects_sector db m ego config :
  db_ok db -> om_find (egoID config) db = Some ego ->
  (sector_config config = true ->
     matrix_select db (matrix_update G db m) ego config =
       Ok (object_id <$> List.filter (in_sector config ego) db.*2)) /\
  (sector_config config = false ->
     exists what, matrix_select db (matrix_update G db m) ego config = Fail (StdException what)) /\
  (sector_config config = true -> dleb (sector_right config) (sector_left config) = true ->
     matrix_select db (matrix_update G db m) ego config = Ok []).
Proof.
  intros Hdb Hego. destruct (matrix_select_in_sector db m ego config Hdb Hego) as [Hok Herr].
  split; [exact Hok|]. split; [exact Herr|]. intros Hc Hle. rewrite (Hok Hc). f_equal. clear Hok Herr.
  induction (db.*2) as [|x l IH]; [done|]. cbn [List.filter].
  assert (in_sector config ego x = false) as ->; [|exact IH].
  unfold in_sector. destruct (dltb _ (sector_right config)) eqn:Hr; [|by rewrite andb_false_r].
  destruct (dltb (sector_left config) _) eqn:Hl; [|by rewrite andb_false_r].
  pose proof (dltb_trans _ _ _ Hl Hr) as H. by rewrite (dltb_dleb_antisym _ _ H) in Hle.
Qed.

(** The rear radar's sector wraps for every opening angle. *)
Example rear_sector_empty : forallb (fun a : Z => let config :=
    radar_initialize BACK "ego" (d_of_Z 50) (d_of_Z a) 10 in
    dleb (sector_right config) (sector_left config)) [1; 10; 45; 60; 90; 120; 180; 270; 359; 360] = true.
Proof. vm_compute. reflexivity. Qed.

Example front_sector : let config := radar_initialize FRONT "ego" (d_of_Z 50) (d_of_Z 60) 10 in
  (sector_left config, sector_right config) = (d_of_Z (-30), d_of_Z 30).
Proof. vm_compute. reflexivity. Qed.

Lemma deqb_dleb x y : deqb x y = true -> dleb x y = true.
Proof. unfold deqb, dleb, SFeqb, SFleb. by destruct (SFcompare x y) as [[]|]. Qed.

Lemma createSensorArc_ok config ego :
  is_ok (createSensorArc G config ego) = is_ok (getAttachmentPoint ego (sensorPosition config)).
Proof. unfold createSensorArc. by destruct (getAttachmentPoint ego _). Qed.

(** [C20] In a consistent and refreshed environment, detection with the interdistance
    matrix faults in no way but the listed ones: it succeeds if and only if the
    range is not zero or less, the opening angle not above a full turn, the sensor's
    own vehicle is known under a nonempty id and the sensor has a place on the
    vehicle; no assertion fails and no null object or missing obstacle is used. *)
Theorem detection_faults (s : GlobalEnvironmentModel G InterdistanceMatrix) config :
  (forall values polygon x, x ∈ rtree_query G values polygon -> x ∈ values) ->
  env_inv G s -> @in_sync G _ (interdistance_preselection G) s ->
  is_ok (@detectObjects G _ (interdistance_preselection G) config s) =
    negb (dleb (fov_range (fieldOfView config)) (d_of_Z 0)) &&
    negb (dltb (d_of_Z 360) (fov_angle (fieldOfView config))) &&
    bool_decide (egoID config ∈ om_keys (mObjects s)) && negb (String.eqb (egoID config) "") &&
    bool_decide (sensorPosition config <> VIRTUAL).
Proof.
  intros Hq Hinv Hsync. pose proof Hsync as [Ht [p' Hp']].
  destruct (dleb _ _) eqn:Hr; [unfold detectObjects; by rewrite Ht, Hr|].
  destruct (dltb _ _) eqn:Ha; [unfold detectObjects; by rewrite Ht, Hr, Ha|].
  destruct (om_find (egoID config) (mObjects s)) as [ego|] eqn:Hego.
  2: { rewrite bool_decide_false by (by apply om_find_None). unfold detectObjects, getObject.
       by rewrite Ht, Hr, Ha, Hego. }
  rewrite bool_decide_true by (apply om_find_is_Some; eauto).
  rewrite <- (getAttachmentPoint_Ok G s _ ego _ Hinv Hego), <- createSensorArc_ok.
  destruct (createSensorArc G config ego) as [cone|e] eqn:Hcone; cbn [negb andb is_ok].
  2: { rewrite andb_false_r. unfold detectObjects, getObject. by rewrite Ht, Hr, Ha, Hego, Hcone. }
  pose proof (matrix_select_in_sector (mObjects s) p' ego config (inv_db_ok G s Hinv) Hego) as [Hok Herr].
  assert (sector_config config = negb (String.eqb (egoID config) "")) as Hc.
  { unfold sector_config. destruct (deqb (fov_range (fieldOfView config)) (d_of_Z 0)) eqn:H0;
      [apply deqb_dleb in H0; congruence|]. rewrite Ha. by destruct (String.eqb _ _). }
  rewrite andb_true_r. destruct (String.eqb (egoID config) "").
  - destruct (Herr Hc) as [what Hw]. unfold detectObjects, getObject. rewrite Ht, Hr, Ha, Hego, Hcone.
    cbn [negb assert_ mbind res_bind presel_select interdistance_preselection]. rewrite Hp'.
    by cbn [presel_update interdistance_preselection]; rewrite Hw.
  - specialize (Hok Hc).
    assert (presel_select (PreselectionMethod := interdistance_preselection G) (mObjects s) (mPreselector s)
      ego config = Ok (object_id <$> List.filter (in_sector config ego) (mObjects s).*2)) as Hsel
      by (cbn; rewrite Hp'; exact Hok).
    pose proof (createSensorArc_ok config ego) as Hatt. rewrite Hcone in Hatt.
    destruct (getAttachmentPoint ego _) as [pt|] eqn:Hpt; [|done].
    rewrite (detect_prefix G s config ego cone pt _ Ht Hr Ha Hego Hcone Hsel Hpt).
    destruct (doLineOfSightCheck config); [|done].
    destruct (preselected G Hq s config ego cone _ Hinv Hsync Hego Hsel)
      as (os & ol & Hobjs & _ & Hown & _ & Hout).
    destruct (check_objects_Ok G s _ (rtree_query G (mObstacleRtree s) cone) os ol Hobjs Hout
      pt cone (vis_linesOfSight config) _ os (mkDetection cone [] []) Hobjs Hown) as (pts & -> & _); done.
Qed.
End Matrix.

(** ** Witnesses: a car sees the other one *)
Lemma ex_env_inv : env_inv ex_geometry ex_env.
Proof. eapply receive_events_inv; [apply env_init_inv|exact ex_env_run]. Qed.

Lemma ex_env_sync : @in_sync ex_geometry _ (interdistance_preselection ex_geometry) ex_env.
Proof.
  split; [vm_compute; reflexivity|]. exists [].
  assert (forall now s s', refresh ex_geometry degrees_to_radians ex_controller
      (PreselectionMethod0 := interdistance_preselection ex_geometry) now s = Ok s' ->
    mPreselector s' = matrix_update ex_geometry (mObjects s') []) as H.
  { intros now s s'. unfold refresh. rewrite bind_Ok. intros (l & _ & Hs). by apply Ok_inj in Hs as <-. }
  pose proof ex_env_run as Hrun. unfold ex_receive, receive_events in Hrun.
  change ex_log with (take 3 ex_log ++ [UpdateNodeSignal 3]) in Hrun. rewrite res_fold_app in Hrun.
  apply bind_Ok in Hrun as (s1 & _ & Hrun). cbn [res_fold env_signal_of env_receiveSignal] in Hrun.
  apply bind_Ok in Hrun as (s2 & Hs2 & Hrun). apply Ok_inj in Hrun as <-. exact (H _ _ _ Hs2).
Qed.

Definition ex_radar (pos : SensorPosition) : SensorConfigRadar :=
  mkRadar "ego" (mkFov (d_of_Z 50) (d_of_Z 60)) pos 4 true true.
Definition ex_object (id : string) : EnvironmentModelObject :=
  default (mkObject 0 "" (vdp_create 0) d_zero d_zero d_zero [] [] origin) (om_find id (mObjects ex_env)).
Definition ex_cone : list Position :=
  match createSensorArc ex_geometry (ex_radar FRONT) (ex_object "ego") with Ok c => c | Fail _ => [] end.

Lemma ex_query values polygon (x : box ex_geometry * string) :
  x ∈ rtree_query ex_geometry values polygon -> x ∈ values.
Proof. done. Qed.

Lemma ex_object_found id : bool_decide (is_Some (om_find id (mObjects ex_env))) = true ->
  om_find id (mObjects ex_env) = Some (ex_object id).
Proof. intros [o Ho]%bool_decide_eq_true. unfold ex_object. by rewrite Ho. Qed.

Lemma detection_exact_witness :
  exists d, @detectObjects ex_geometry _ (interdistance_preselection ex_geometry) (ex_radar FRONT) ex_env = Ok d /\
    List.map (option_map object_id) (det_objects d) = [Some "other"] /\ length (visiblePoints d) = 4%nat.
Proof.
  destruct (detection_exact ex_geometry
    (PreselectionMethod0 := interdistance_preselection ex_geometry)
    (PreselectionLaws0 := interdistance_laws ex_geometry) ex_query ex_env (ex_radar FRONT)
    (ex_object "ego") ex_cone ["other"]) as (ego & objects & outlines & _ & _ & _ & _ & _ & H).
  - exact ex_env_inv.
  - exact ex_env_sync.
  - reflexivity.
  - vm_compute; reflexivity.
  - vm_compute; reflexivity.
  - apply ex_object_found. vm_compute; reflexivity.
  - vm_compute; reflexivity.
  - vm_compute; reflexivity.
  - cbv zeta in H. eexists. split; [exact H|].
    assert (exists d, @detectObjects ex_geometry _ (interdistance_preselection ex_geometry) (ex_radar FRONT) ex_env = Ok d
      /\ List.map (option_map object_id) (det_objects d) = [Some "other"] /\ length (visiblePoints d) = 4%nat)
      as (d & Hd & H1) by (eexists; split; [vm_compute; reflexivity|split; reflexivity]).
    rewrite Hd in H. apply Ok_inj in H as <-. exact H1.
Defined.

Lemma matrix_selects_sector_witness :
  matrix_select (mObjects ex_env) (matrix_update ex_geometry (mObjects ex_env) []) (ex_object "ego")
    (ex_radar BACK) = Ok [] /\
  matrix_select (mObjects ex_env) (matrix_update ex_geometry (mObjects ex_env) []) (ex_object "ego")
    (ex_radar FRONT) = Ok ["other"].
Proof.
  destruct (matrix_selects_sector ex_geometry (mObjects ex_env) [] (ex_object "ego") (ex_radar BACK))
    as (_ & _ & H).
  - apply inv_db_ok, ex_env_inv.
  - apply ex_object_found. vm_compute; reflexivity.
  - split; [apply H; vm_compute; reflexivity|vm_compute; reflexivity].
Defined.

Lemma detection_faults_witness :
  is_ok (@detectObjects ex_geometry _ (interdistance_preselection ex_geometry) (ex_radar LEFT) ex_env) = true /\
  is_ok (@detectObjects ex_geometry _ (interdistance_preselection ex_geometry) (ex_radar VIRTUAL) ex_env) = false.
Proof.
  split.
  - rewrite (detection_faults ex_geometry ex_env (ex_radar LEFT) ex_query ex_env_inv ex_env_sync).
    vm_compute; reflexivity.
  - rewrite (detection_faults ex_geometry ex_env (ex_radar VIRTUAL) ex_query ex_env_inv ex_env_sync).
    vm_compute; reflexivity.
Defined.
