(* ===== verification/EnvLocal.v ===== *)
(** * Local environment model

    [src/src/artery/envmod/LocalEnvironmentModel.cc] and the sensors feeding it
    ([sensor/CamSensor.cc], [sensor/RadarSensor.cc]): which objects a vehicle tracks,
    by which of its sensors, and for how long.  Objects are weak pointers; [expired]
    pointers are those whose object no longer exists. *)

From S2P Require Import Prelude OMap Float64 Config VehicleData Identity TraciCache TraciNodes.
From S2P Require Import EnvGlobal.

(** ** Weak pointers *)
(** [std::weak_ptr] under [std::owner_less]: the owned object, or none for an empty
    pointer; all empty pointers are equivalent. *)
Abbreviation Object := (option nat) (only parsing).

#[export] Instance object_key_order : KeyOrder (option nat) := fun x y =>
  match x, y with
  | None, Some _ => true
  | Some a, Some b => Nat.ltb a b
  | _, None => false
  end.
#[export] Instance object_key_order_laws : KeyOrderLaws (option nat).
Proof.
  split; unfold key_ltb, object_key_order.
  - intros [x|]; [apply Nat.ltb_irrefl|done].
  - intros [x|] [y|] [z|]; try done. rewrite !Nat.ltb_lt. lia.
  - intros [x|] [y|]; auto. rewrite !Nat.ltb_lt. destruct (Nat.lt_total x y) as [|[->|]]; auto.
Qed.

Definition weak (o : option EnvironmentModelObject) : Object := owner <$> o.
(** [expired], when the objects in [alive] exist. *)
Definition object_expired (alive : nat -> bool) (o : Object) : bool :=
  match o with Some x => negb (alive x) | None => true end.

(** ** Sensors *)
Inductive SensorKind := RadarSensor (mRadarConfig : SensorConfigRadar) | CamSensor.

(** [address] identifies the sensor module. *)
Record Sensor := mkSensor { address : nat; kind : SensorKind }.

Definition getValidityPeriod (s : Sensor) : simtime :=
  match kind s with RadarSensor _ => SIMTIME_MS 200 | CamSensor => SIMTIME_MS 1100 end.
Definition getSensorCategory (s : Sensor) : string :=
  match kind s with RadarSensor _ => "Radar" | CamSensor => "CA" end.

(** [SensorVisualizationConfig(vis)]: a field without element keeps the
    indeterminate value it was created with ([config], which carries the defaults,
    is a local variable that is not used). *)
Record SensorVisualizationConfig := mkVisualization {
  sensorCone_shown : bool;
  obstaclesInSensorRange : bool;
  objectsInSensorRange : bool;
  linesOfSight : bool
}.
(** An element without attribute [value] hands a null pointer to [strcmp]. *)
Definition attr_enabler (vis : cXMLElement) (name : string) (field : bool) : res bool :=
  match getFirstChildWithTag vis name with
  | Some elem =>
      match getAttribute elem "value" with
      | Some elem_value => Ok (String.eqb elem_value "true")
      | None => Fail (Undefined "strcmp of a null pointer")
      end
  | None => Ok field
  end.
Definition parse_visualization (indeterminate : SensorVisualizationConfig) (vis : option cXMLElement) :
    res SensorVisualizationConfig :=
  match vis with
  | Some vis =>
      objects ← attr_enabler vis "showObjectsInSensorRange" (objectsInSensorRange indeterminate);
      obstacles ← attr_enabler vis "showObstaclesInSensorRange" (obstaclesInSensorRange indeterminate);
      cone ← attr_enabler vis "showSensorCone" (sensorCone_shown indeterminate);
      sight ← attr_enabler vis "showLineOfSight" (linesOfSight indeterminate);
      Ok (mkVisualization cone obstacles objects sight)
  | None => Ok indeterminate
  end.
Definition setVisualization (config : SensorVisualizationConfig) (s : Sensor) : Sensor :=
  match kind s with
  | RadarSensor c => mkSensor (address s) (RadarSensor (mkRadar (egoID c) (fieldOfView c)
      (EnvGlobal.sensorPosition c) (numSegments c) (doLineOfSightCheck c) (linesOfSight config)))
  | CamSensor => s
  end.

(** ** Tracking *)
Record TrackingTime := mkTrackingTime { mFirst : simtime; mLast : simtime }.
Definition new_TrackingTime (now : simtime) : TrackingTime := mkTrackingTime now now.
Definition time_tap (now : simtime) (t : TrackingTime) : TrackingTime := mkTrackingTime (mFirst t) now.

(** [mSensors] of a [Tracking]: the sensors by address. *)
Abbreviation Tracking := (list (nat * (Sensor * TrackingTime))) (only parsing).

Definition new_Tracking (now : simtime) (sensor : Sensor) : list (nat * (Sensor * TrackingTime)) :=
  om_emplace (address sensor) (sensor, new_TrackingTime now) [].

Definition tracking_tap (now : simtime) (sensor : Sensor) (t : Tracking) :
    list (nat * (Sensor * TrackingTime)) :=
  match om_find (address sensor) t with
  | Some (s, time) => om_set (address sensor) (s, time_tap now time) t
  | None => om_emplace (address sensor) (sensor, new_TrackingTime now) t
  end.

Definition tracking_current (now : simtime) (x : nat * (Sensor * TrackingTime)) : Prop :=
  now <= mLast x.2.2 + getValidityPeriod x.2.1.
#[export] Instance tracking_current_dec now x : Decision (tracking_current now x).
Proof. unfold tracking_current. apply _. Defined.

(** Erases the expired ones while iterating. *)
Definition tracking_update (now : simtime) (t : Tracking) : list (nat * (Sensor * TrackingTime)) :=
  filter (tracking_current now) t.
Definition tracking_expired (t : Tracking) : bool := bool_decide (t = []).

(** ** The model *)
Abbreviation TrackedObjects := (list (option nat * list (nat * (Sensor * TrackingTime)))) (only parsing).

Definition complement_object (now : simtime) (sensor : Sensor) (m : TrackedObjects) (o : Object) :
    list (option nat * list (nat * (Sensor * TrackingTime))) :=
  match om_find o m with
  | Some tracking => om_set o (tracking_tap now sensor tracking) m
  | None => om_emplace o (new_Tracking now sensor) m
  end.

Definition complementObjects (now : simtime) (objects : list (option EnvironmentModelObject))
    (sensor : Sensor) (m : TrackedObjects) : list (option nat * list (nat * (Sensor * TrackingTime))) :=
  foldl (complement_object now sensor) m (weak <$> objects).

Fixpoint update (now : simtime) (alive : nat -> bool) (m : TrackedObjects) :
    list (option nat * list (nat * (Sensor * TrackingTime))) :=
  match m with
  | [] => []
  | (o, tracking) :: m' =>
      let tracking := tracking_update now tracking in
      if object_expired alive o || tracking_expired tracking then update now alive m'
      else (o, tracking) :: update now alive m'
  end.

(** The objects seen by a sensor of a category, for the services. *)
Definition filterBySensorCategory (m : TrackedObjects) (category : string) :
    list (option nat * list (nat * (Sensor * TrackingTime))) :=
  List.filter (fun obj => existsb (fun x => String.eqb (getSensorCategory x.2.1) category) obj.2) m.

Record LocalEnvironmentModel := mkLocal {
  mObjects : list (option nat * list (nat * (Sensor * TrackingTime)));
  mSensors : list Sensor;
  mLastDetection : list (nat * SensorDetection)  (** of each radar *)
}.

Section Environment.
Context (G : Geometry) {P : Type} `{!PreselectionMethod P}.

(** [Sensor::measurement] *)
Definition measurement (now : simtime) (env : GlobalEnvironmentModel G P) (s : LocalEnvironmentModel)
    (sensor : Sensor) : res LocalEnvironmentModel :=
  match kind sensor with
  | RadarSensor config =>
      objects ← detectObjects G config env;
      Ok (mkLocal (complementObjects now (det_objects objects) sensor (mObjects s)) (mSensors s)
            (om_set (address sensor) objects (mLastDetection s)))
  | CamSensor => Ok s
  end.

(** The refresh signal of the global model. *)
Definition local_receiveSignal (now : simtime) (alive : nat -> bool)
    (env : GlobalEnvironmentModel G P) (s : LocalEnvironmentModel) : res LocalEnvironmentModel :=
  s ← res_fold (measurement now env) (mSensors s) s;
  Ok (mkLocal (update now alive (mObjects s)) (mSensors s) (mLastDetection s)).

(** A CAM the vehicle received; [None]: the signal carries no CAM. *)
Definition cam_receiveSignal (now : simtime) (lookup : Z -> option Identity)
    (env : GlobalEnvironmentModel G P) (sensor : Sensor) (stationID : option Z)
    (s : LocalEnvironmentModel) : LocalEnvironmentModel :=
  match stationID with
  | Some id =>
      match lookup id with
      | Some found =>
          mkLocal (complementObjects now [getObject G env (traci found)] sensor (mObjects s))
            (mSensors s) (mLastDetection s)
      | None => s
      end
  | None => s
  end.
End Environment.

(** ** Creating the sensors *)
Section Initialize.
(** [cModuleType::get] with the creation and initialisation of the module (the
    result is no sensor if the module is not one), the filter rules' parameters and
    the memory of a new visualization configuration. *)
Variable cModuleType_get : option string -> res string.
Variable createScheduleInit : string -> string -> res (option Sensor).
Variable regex : string -> res (string -> bool).
Variable lexical_cast_double : string -> res double.
Variable uniform : nat -> double.
Variable mIdentity : Identity.
Variable indeterminate : SensorVisualizationConfig.

(** The sensors and the number of random draws so far. *)
Definition initialize_sensor (st : list Sensor * nat) (sensor_cfg : cXMLElement) :
    res (list Sensor * nat) :=
  let '(sensors, draws) := st in
  r ← match getFirstChildWithTag sensor_cfg "filters" with
      | Some sensor_filters =>
          applyFilterConfig regex lexical_cast_double uniform mIdentity sensor_filters draws
      | None => Ok (true, draws)
      end;
  let '(sensor_applicable, draws) := r : bool * nat in
  if sensor_applicable then
    module_type ← cModuleType_get (getAttribute sensor_cfg "type");
    let sensor_name := match getAttribute sensor_cfg "name" with
                       | Some n => if String.eqb n "" then module_type else n
                       | None => module_type
                       end in
    module ← createScheduleInit module_type sensor_name;
    match module with
    | Some sensor =>
        let vis_cfg := getFirstChildWithTag sensor_cfg "visualization" in
        vis ← parse_visualization indeterminate vis_cfg;
        Ok (sensors ++ [setVisualization vis sensor], draws)
    | None => Fail (RuntimeError "module is not of type Sensor")
    end
  else Ok (sensors, draws).

Definition initializeSensors (config : cXMLElement) (draws : nat) : res (list Sensor * nat) :=
  res_fold initialize_sensor (getChildrenByTagName config "sensor") ([], draws).
End Initialize.

(** ** What is tracked *)
(** An object's tracking by the sensor at an address. *)
Definition tracked (m : TrackedObjects) (o : Object) (a : nat) : option (Sensor * TrackingTime) :=
  om_find o m ≫= om_find a.

Record tracking_wf (m : TrackedObjects) : Prop := {
  twf_objects : om_wf m;
  twf_sensors : forall o tr, om_find o m = Some tr -> om_wf tr
}.

Definition tapped (now : simtime) (sensor : Sensor) (p : option (Sensor * TrackingTime)) :
    Sensor * TrackingTime :=
  match p with Some (s, time) => (s, time_tap now time) | None => (sensor, new_TrackingTime now) end.

Lemma complement_object_spec now sensor m o :
  tracking_wf m ->
  tracking_wf (complement_object now sensor m o) /\
  forall o' a, tracked (complement_object now sensor m o) o' a =
    if decide (o' = o /\ a = address sensor) then Some (tapped now sensor (tracked m o' a))
    else tracked m o' a.
Proof.
  intros [Hwf Hs]. unfold complement_object, tracked. destruct (om_find o m) as [tr|] eqn:Ho.
  - assert (om_wf (tracking_tap now sensor tr)) as Ht.
    { unfold tracking_tap. pose proof (Hs _ _ Ho). destruct (om_find _ tr) as [[s time]|];
        [by apply om_wf_set|by apply om_wf_emplace]. }
    split; [split; [by apply om_wf_set|]|].
    + intros o' tr'. rewrite om_find_set. case_decide; [by intros [= <-]|apply Hs].
    + intros o' a. rewrite om_find_set. destruct (decide (o' = o)) as [->|Hne].
      2: { by rewrite decide_False by tauto. }
      rewrite Ho. cbn [mbind option_bind]. unfold tracking_tap, om_emplace.
      destruct (om_find (address sensor) tr) as [[s time]|] eqn:Ha; rewrite om_find_set;
        destruct (decide (a = address sensor)) as [->|Hne]; rewrite ?Ha;
        rewrite ?decide_True by done; rewrite ?decide_False by tauto; done.
  - unfold om_emplace. rewrite Ho. split; [split; [by apply om_wf_set|]|].
    + intros o' tr'. rewrite om_find_set. case_decide; [|apply Hs]. intros [= <-].
      apply om_wf_emplace, om_wf_nil.
    + intros o' a. rewrite om_find_set. destruct (decide (o' = o)) as [->|Hne].
      2: { by rewrite decide_False by tauto. }
      rewrite Ho. cbn. destruct (decide (a = address sensor)) as [->|Hne];
        rewrite ?decide_True by done; rewrite ?decide_False by tauto; done.
Qed.

Lemma update_find now alive m o :
  om_wf m ->
  om_find o (update now alive m) =
    tr ← om_find o m;
    if object_expired alive o || tracking_expired (tracking_update now tr) then None
    else Some (tracking_update now tr).
Proof.
  induction m as [|[o' tr] m IH]; [done|]. intros [Hlt Hwf]%om_wf_cons. cbn [update om_find].
  destruct (decide (o = o')) as [->|Hne].
  - cbn [mbind option_bind]. destruct (_ || _) eqn:He; [|cbn; by rewrite decide_True].
    rewrite IH by done. assert (om_find o' m = None) as ->; [|done].
    apply om_find_None. intros Hin%Hlt. by rewrite key_ltb_irrefl in Hin.
  - destruct (_ || _); [|cbn; rewrite decide_False by done]; by apply IH.
Qed.

Lemma update_keys now alive m o : o ∈ om_keys (update now alive m) -> o ∈ om_keys m.
Proof.
  induction m as [|[o' tr] m IH]; [done|]. cbn [update]. destruct (_ || _).
  - intros H. right. by apply IH.
  - intros [->|H]%elem_of_cons; [left|right; by apply IH].
Qed.

Lemma update_spec now alive m :
  tracking_wf m ->
  tracking_wf (update now alive m) /\
  forall o a, tracked (update now alive m) o a =
    if object_expired alive o then None
    else match tracked m o a with
         | Some (s, time) => if now <=? mLast time + getValidityPeriod s then Some (s, time) else None
         | None => None
         end.
Proof.
  intros [Hwf Hs]. split; [split|].
  - clear Hs. induction m as [|[o tr] m IH]; [done|]. apply om_wf_cons in Hwf as [Hlt Hwf].
    cbn [update]. destruct (_ || _); [by apply IH|]. apply om_wf_cons. split; [|by apply IH].
    intros k Hk. by eapply Hlt, update_keys.
  - intros o tr. rewrite update_find by done. destruct (om_find o m) as [tr'|] eqn:Ho; [|done]. cbn.
    destruct (_ || _); [done|]. intros [= <-]. apply om_wf_filter. by eapply Hs.
  - intros o a. unfold tracked. rewrite update_find by done.
    destruct (om_find o m) as [tr|] eqn:Ho; cbn [mbind option_bind]; [|by destruct (object_expired _ _)].
    destruct (object_expired alive o) eqn:He; [done|]. cbn [orb].
    assert (om_find a (tracking_update now tr) =
      match om_find a tr with
      | Some (s, time) => if now <=? mLast time + getValidityPeriod s then Some (s, time) else None
      | None => None
      end) as Hf.
    { unfold tracking_update. rewrite om_find_filter by (by eapply Hs).
      destruct (om_find a tr) as [[s time]|]; [|done]. unfold tracking_current. cbn.
      destruct (Z.leb_spec now (mLast time + getValidityPeriod s));
        [by rewrite decide_True|by rewrite decide_False by lia]. }
    destruct (tracking_expired _) eqn:Hx; [|exact Hf].
    apply bool_decide_eq_true in Hx. rewrite Hx in Hf. done.
Qed.

(** ** Histories *)
Section History.
Context (G : Geometry) {P : Type} `{!PreselectionMethod P}.
(** The sensors by address. *)
Context (at_ : nat -> Sensor).

(** The environment is refreshed, with the objects that exist afterwards; a CAM
    reaches a CAM sensor. *)
Inductive local_event :=
| EnvironmentRefresh (now : simtime) (alive : nat -> bool) (env : GlobalEnvironmentModel G P)
| CamReceived (now : simtime) (lookup : Z -> option Identity) (env : GlobalEnvironmentModel G P)
    (sensor : Sensor) (stationID : option Z).

Definition event_time (e : local_event) : simtime :=
  match e with EnvironmentRefresh now _ _ => now | CamReceived now _ _ _ _ => now end.

Definition local_step (s : LocalEnvironmentModel) (e : local_event) : res LocalEnvironmentModel :=
  match e with
  | EnvironmentRefresh now alive env => local_receiveSignal G now alive env s
  | CamReceived now lookup env sensor id => Ok (cam_receiveSignal G now lookup env sensor id s)
  end.

(** The event makes the sensor at [a] perceive [o]. *)
Definition radar_detects (env : GlobalEnvironmentModel G P) (o : Object) (a : nat) (s : Sensor) : bool :=
  match kind s with
  | RadarSensor config =>
      match detectObjects G config env with
      | Ok d => bool_decide (a = address s) && bool_decide (o ∈ weak <$> det_objects d)
      | Fail _ => false
      end
  | CamSensor => false
  end.
Definition detects (sensors : list Sensor) (e : local_event) (o : Object) (a : nat) : bool :=
  match e with
  | EnvironmentRefresh _ _ env => existsb (radar_detects env o a) sensors
  | CamReceived _ lookup env sensor id =>
      bool_decide (a = address sensor) &&
      match id ≫= lookup with
      | Some found => bool_decide (o = weak (getObject G env (traci found)))
      | None => false
      end
  end.

Definition last_seen (sensors : list Sensor) (events : list local_event) (o : Object) (a : nat) :
    option simtime :=
  foldl (fun t e => if detects sensors e o a then Some (event_time e) else t) None events.

Lemma last_seen_snoc sensors events e o a :
  last_seen sensors (events ++ [e]) o a =
    if detects sensors e o a then Some (event_time e) else last_seen sensors events o a.
Proof. unfold last_seen. by rewrite foldl_app. Qed.

(** [m'] is [m] with every hit pair seen at [now]. *)
Record taps (now : simtime) (hit : Object -> nat -> bool) (m m' : TrackedObjects) : Prop := {
  taps_wf : tracking_wf m';
  taps_hit : forall o a, hit o a = true ->
    exists time, tracked m' o a = Some (at_ a, time) /\ mLast time = now;
  taps_other : forall o a, hit o a = false -> tracked m' o a = tracked m o a
}.

Definition own_sensors (m : TrackedObjects) : Prop :=
  forall o a p, tracked m o a = Some p -> p.1 = at_ a.

Lemma taps_own now hit m m' : own_sensors m -> taps now hit m m' -> own_sensors m'.
Proof.
  intros Hown [_ Hhit Hother] o a p Hp. destruct (hit o a) eqn:Hh.
  - destruct (Hhit _ _ Hh) as (time & Ht & _). by simplify_eq.
  - rewrite (Hother _ _ Hh) in Hp. by eapply Hown.
Qed.

Lemma taps_comp now hit1 hit2 m1 m2 m3 :
  taps now hit1 m1 m2 -> taps now hit2 m2 m3 -> taps now (fun o a => hit2 o a || hit1 o a) m1 m3.
Proof.
  intros [_ H1 O1] [Hw H2 O2]. split; [done|..]; intros o a.
  - destruct (hit2 o a) eqn:E2; [auto|]. cbn. intros E1. rewrite (O2 _ _ E2). auto.
  - intros [E2 E1]%orb_false_iff. by rewrite (O2 _ _ E2), (O1 _ _ E1).
Qed.

Lemma taps_ext now hit hit' m m' :
  (forall o a, hit o a = hit' o a) -> taps now hit m m' -> taps now hit' m m'.
Proof. intros He [Hw H O]. split; [done|..]; intros o a; rewrite <- He; auto. Qed.

Lemma taps_none now m : tracking_wf m -> taps now (fun _ _ => false) m m.
Proof. by split. Qed.

Lemma complementObjects_taps now objects sensor m :
  at_ (address sensor) = sensor -> tracking_wf m -> own_sensors m ->
  taps now (fun o a => bool_decide (a = address sensor) && bool_decide (o ∈ weak <$> objects)) m
    (complementObjects now objects sensor m).
Proof.
  intros Hat. unfold complementObjects. revert m.
  induction (weak <$> objects) as [|o l IH]; intros m Hwf Hown.
  - eapply taps_ext; [|by apply taps_none]. intros o a. by rewrite andb_false_r.
  - destruct (complement_object_spec now sensor m o Hwf) as [Hwf1 Ht1].
    assert (taps now (fun o' a => bool_decide (a = address sensor) && bool_decide (o' = o)) m
      (complement_object now sensor m o)) as H1.
    { split; [done|..]; intros o' a; rewrite Ht1.
      - intros [->%bool_decide_eq_true ->%bool_decide_eq_true]%andb_true_iff. rewrite decide_True by done.
        unfold tapped. destruct (tracked m o (address sensor)) as [[s time]|] eqn:Hp.
        + rewrite <- (Hown _ _ _ Hp). eexists. by split.
        + rewrite Hat. eexists. by split.
      - rewrite andb_false_iff, !bool_decide_eq_false. intros H. by rewrite decide_False by tauto. }
    eapply taps_ext; [|exact (taps_comp _ _ _ _ _ _ H1 (IH _ Hwf1 (taps_own _ _ _ _ Hown H1)))].
    intros o' a. cbn beta. destruct (bool_decide (a = address sensor)); [|done]. cbn [andb].
    rewrite <- bool_decide_or. apply bool_decide_ext. rewrite elem_of_cons. tauto.
Qed.

Lemma measurements_taps now env sensors s s' :
  (forall x, x ∈ sensors -> at_ (address x) = x) ->
  tracking_wf (mObjects s) -> own_sensors (mObjects s) ->
  res_fold (measurement G now env) sensors s = Ok s' ->
  mSensors s' = mSensors s /\
  taps now (fun o a => existsb (radar_detects env o a) sensors) (mObjects s) (mObjects s').
Proof.
  revert s. induction sensors as [|x l IH]; intros s Hat Hwf Hown; cbn [res_fold existsb].
  - intros H. apply Ok_inj in H as <-. split; [done|by apply taps_none].
  - intros (s1 & H1 & H2)%bind_Ok.
    assert (mSensors s1 = mSensors s /\ taps now (fun o a => radar_detects env o a x) (mObjects s) (mObjects s1))
      as [Hs1 Ht1].
    { unfold measurement in H1. unfold radar_detects. destruct (kind x) as [config|].
      - apply bind_Ok in H1 as (d & -> & H1). apply Ok_inj in H1 as <-. split; [done|].
        apply complementObjects_taps; [apply Hat; left|done..].
      - apply Ok_inj in H1 as <-. split; [done|by apply taps_none]. }
    destruct (IH s1) as [Hs2 Ht2]; [intros; apply Hat; by right|by eapply taps_wf|by eapply taps_own|done|].
    split; [congruence|]. eapply taps_ext; [|exact (taps_comp _ _ _ _ _ _ Ht1 Ht2)].
    intros o a. cbn beta. apply orb_comm.
Qed.

(** Everything tracked was last seen when its tracking says, and everything seen is
    tracked unless a refresh found it gone or out of date. *)
Record history_inv (sensors : list Sensor) (events : list local_event) (s : LocalEnvironmentModel) :
    Prop := {
  hist_sensors : mSensors s = sensors;
  hist_wf : tracking_wf (mObjects s);
  hist_own : own_sensors (mObjects s);
  hist_sound : forall o a p, tracked (mObjects s) o a = Some p ->
    last_seen sensors events o a = Some (mLast p.2);
  hist_complete : forall o a t, last_seen sensors events o a = Some t ->
    is_Some (tracked (mObjects s) o a) \/
    exists now alive env, EnvironmentRefresh now alive env ∈ events /\
      (object_expired alive o = true \/ t + getValidityPeriod (at_ a) < now)
}.

Lemma step_taps_inv sensors events e s m' :
  history_inv sensors events s ->
  taps (event_time e) (detects sensors e) (mObjects s) m' ->
  history_inv sensors (events ++ [e]) (mkLocal m' sensors (mLastDetection s)).
Proof.
  intros [_ Hwf Hown Hsound Hcomp] Ht. pose proof Ht as [Hwf' Hhit Hother].
  split; cbn [mSensors mObjects]; [done|done|by eapply taps_own|..]; intros o a; rewrite last_seen_snoc.
  - intros p Hp. destruct (detects sensors e o a) eqn:Hd.
    + destruct (Hhit _ _ Hd) as (time & Hq & <-). rewrite Hq in Hp. by injection Hp as <-.
    + rewrite (Hother _ _ Hd) in Hp. by apply Hsound.
  - intros t. destruct (detects sensors e o a) eqn:Hd.
    + intros _. left. destruct (Hhit _ _ Hd) as (time & Hq & _). eauto.
    + intros Hl. rewrite (Hother _ _ Hd). destruct (Hcomp _ _ _ Hl) as [?|(u & al & env & Hin & H)]; [by left|].
      right. exists u, al, env. split; [apply elem_of_app; by left|done].
Qed.

Lemma step_inv sensors events e s s' :
  (forall x, x ∈ sensors -> at_ (address x) = x) ->
  (forall now lookup env x id, e = CamReceived now lookup env x id -> at_ (address x) = x) ->
  history_inv sensors events s -> local_step s e = Ok s' -> history_inv sensors (events ++ [e]) s'.
Proof.
  intros Hat Hcam Hinv Hstep. pose proof Hinv as [Hse Hwf Hown Hsound Hcomp].
  destruct e as [now alive env|now lookup env x id]; cbn [local_step] in Hstep.
  - unfold local_receiveSignal in Hstep. apply bind_Ok in Hstep as (s1 & H1 & Hs). apply Ok_inj in Hs as <-.
    rewrite Hse in H1. destruct (measurements_taps now env sensors s s1 Hat Hwf Hown H1) as [Hs1 Ht].
    destruct (step_taps_inv sensors events (EnvironmentRefresh now alive env) s (mObjects s1) Hinv Ht)
      as [_ Hwf1 Hown1 Hsound1 Hcomp1]. cbn [mObjects] in *.
    destruct (update_spec now alive (mObjects s1) Hwf1) as [Hwf2 Hu].
    split; cbn [mSensors mObjects]; [congruence|done|..].
    + intros o a p. rewrite Hu. destruct (object_expired _ _); [done|].
      destruct (tracked (mObjects s1) o a) as [[x time]|] eqn:Hp; [|done]. destruct (_ <=? _); [|done].
      intros [= <-]. exact (Hown1 _ _ _ Hp).
    + intros o a p. rewrite Hu. destruct (object_expired _ _); [done|].
      destruct (tracked (mObjects s1) o a) as [[x time]|] eqn:Hp; [|done]. destruct (_ <=? _); [|done].
      intros [= <-]. exact (Hsound1 _ _ _ Hp).
    + intros o a t Hl. destruct (Hcomp1 _ _ _ Hl) as [[[x time] Hp]|?]; [|by right]. rewrite Hu, Hp.
      assert (EnvironmentRefresh now alive env ∈ events ++ [EnvironmentRefresh now alive env]) as Hin
        by (apply elem_of_app; right; left).
      destruct (object_expired alive o) eqn:He; [right; exists now, alive, env; by auto|].
      destruct (Z.leb_spec now (mLast time + getValidityPeriod x)); [left; by eauto|].
      right. exists now, alive, env. split; [done|]. right.
      pose proof (Hown1 _ _ _ Hp) as Hx. cbn in Hx. rewrite <- Hx.
      rewrite (Hsound1 _ _ _ Hp) in Hl. by simplify_eq/=.
  - apply Ok_inj in Hstep as <-. unfold cam_receiveSignal.
    assert (forall m', taps now (detects sensors (CamReceived now lookup env x id)) (mObjects s) m' ->
      history_inv sensors (events ++ [CamReceived now lookup env x id]) (mkLocal m' (mSensors s) (mLastDetection s)))
      as Hgo. { intros m' Hm. rewrite Hse. by apply step_taps_inv. }
    assert (mkLocal (mObjects s) (mSensors s) (mLastDetection s) = s) as Hs by (by destruct s).
    destruct id as [id|]; [destruct (lookup id) as [found|] eqn:Hl|].
    + apply Hgo. eapply taps_ext; [|apply complementObjects_taps; [by eapply Hcam|done..]].
      intros o a. cbn [detects mbind option_bind]. rewrite Hl. do 2 f_equal. apply bool_decide_ext.
      apply list_elem_of_singleton.
    + rewrite <- Hs. apply Hgo. eapply taps_ext; [|by apply taps_none]. intros o a.
      cbn [detects mbind option_bind]. rewrite Hl. by rewrite andb_false_r.
    + rewrite <- Hs. apply Hgo. eapply taps_ext; [|by apply taps_none]. intros o a.
      cbn. by rewrite andb_false_r.
Qed.

Lemma history_inv_run sensors events s :
  (forall x, x ∈ sensors -> at_ (address x) = x) ->
  (forall now lookup env x id, CamReceived now lookup env x id ∈ events -> at_ (address x) = x) ->
  res_fold local_step events (mkLocal [] sensors []) = Ok s -> history_inv sensors events s.
Proof.
  intros Hat. revert s. induction events as [|e events IH] using rev_ind; intros s Hcam.
  - intros H. apply Ok_inj in H as <-. split; try done. split; [apply om_wf_nil|done].
  - rewrite res_fold_app. intros (s1 & H1 & H2)%bind_Ok. cbn [res_fold] in H2.
    apply bind_Ok in H2 as (s2 & H2 & Heq). apply Ok_inj in Heq as <-.
    apply (step_inv sensors events e s1 s2); [done|..|done].
    + intros now lookup env x id ->. eapply Hcam. apply elem_of_app. right. left.
    + apply IH; [|done]. intros now lookup env x id Hin. eapply Hcam. apply elem_of_app. by left.
Qed.

Lemma tracked_current sensors events now alive env s o a :
  (forall x, x ∈ sensors -> at_ (address x) = x) ->
  (forall u lookup env x id, CamReceived u lookup env x id ∈ events -> at_ (address x) = x) ->
  (forall u al env, EnvironmentRefresh u al env ∈ events ->
     u <= now /\ forall x, alive x = true -> al x = true) ->
  res_fold local_step (events ++ [EnvironmentRefresh now alive env]) (mkLocal [] sensors []) = Ok s ->
  let seen := last_seen sensors (events ++ [EnvironmentRefresh now alive env]) o a in
  match tracked (mObjects s) o a with
  | Some (x, time) => x = at_ a /\ seen = Some (mLast time) /\ object_expired alive o = false /\
      now <= mLast time + getValidityPeriod x
  | None => forall t, seen = Some t ->
      object_expired alive o = true \/ t + getValidityPeriod (at_ a) < now
  end.
Proof.
  intros Hat Hcam Hold Hrun seen.
  assert (history_inv sensors (events ++ [EnvironmentRefresh now alive env]) s) as [_ _ Hown Hsound Hcomp].
  { apply history_inv_run; [done| |done]. intros u lookup env' x id [Hin|Hin]%elem_of_app; [by eapply Hcam|].
    by apply list_elem_of_singleton in Hin. }
  destruct (tracked (mObjects s) o a) as [[x time]|] eqn:Hp.
  - split; [exact (Hown _ _ _ Hp)|]. split; [exact (Hsound _ _ _ Hp)|].
    rewrite res_fold_app in Hrun. apply bind_Ok in Hrun as (s1 & H1 & H2). cbn [res_fold local_step] in H2.
    apply bind_Ok in H2 as (s2 & H2 & Heq). apply Ok_inj in Heq as <-. unfold local_receiveSignal in H2.
    apply bind_Ok in H2 as (s3 & H3 & Heq). apply Ok_inj in Heq as <-. cbn [mObjects] in Hp.
    destruct (history_inv_run sensors events s1 Hat Hcam H1) as [Hse Hwf Hown1 _ _]. rewrite Hse in H3.
    destruct (measurements_taps now env sensors s1 s3 Hat Hwf Hown1 H3) as [_ [Hwf3 _ _]].
    destruct (update_spec now alive (mObjects s3) Hwf3) as [_ Hu]. rewrite Hu in Hp.
    destruct (object_expired alive o); [done|]. split; [done|].
    destruct (tracked (mObjects s3) o a) as [[x' time']|]; [|done].
    destruct (Z.leb_spec now (mLast time' + getValidityPeriod x')); [by injection Hp as -> ->|done].
  - intros t Ht. destruct (Hcomp _ _ _ Ht) as [[p Hq]|(u & al & env' & Hin & Ho)]; [congruence|].
    apply elem_of_app in Hin as [Hin|Hin%list_elem_of_singleton].
    + destruct (Hold _ _ _ Hin) as [Hu Ha]. destruct Ho as [Ho|Ho]; [left|right; lia].
      destruct o as [x|]; [|done]. cbn in Ho |- *. apply negb_true_iff in Ho. apply negb_true_iff.
      destruct (alive x) eqn:Hx; [|done]. apply Ha in Hx. congruence.
    + injection Hin as -> -> ->. exact Ho.
Qed.

(** [C21] After any history of refreshes and received CAMs that ends with a refresh,
    a sensor's tracking of an object is kept if and only if the object still exists
    and the sensor perceived it no longer ago than its validity period (200 ms for a
    radar, 1100 ms for the CAM sensor); the tracking records the time of the last
    perception.  Empty pointers, which a CAM of an unknown vehicle leaves behind, are
    gone after the refresh. *)
Theorem local_model_tracks sensors events now alive env s :
  (forall x, x ∈ sensors -> at_ (address x) = x) ->
  (forall u lookup env x id, CamReceived u lookup env x id ∈ events -> at_ (address x) = x) ->
  (forall u al env, EnvironmentRefresh u al env ∈ events ->
     u <= now /\ forall x, alive x = true -> al x = true) ->
  res_fold local_step (events ++ [EnvironmentRefresh now alive env]) (mkLocal [] sensors []) = Ok s ->
  let seen := last_seen sensors (events ++ [EnvironmentRefresh now alive env]) in
  (forall o a,
     (exists x time, tracked (mObjects s) o a = Some (x, time)) <->
     (exists k t, o = Some k /\ alive k = true /\ seen o a = Some t /\
        now <= t + getValidityPeriod (at_ a))) /\
  (forall o a x time, tracked (mObjects s) o a = Some (x, time) ->
     x = at_ a /\ seen o a = Some (mLast time)).
Proof.
  intros Hat Hcam Hold Hrun seen. split; intros o a.
  - pose proof (tracked_current sensors events now alive env s o a Hat Hcam Hold Hrun) as H. cbv zeta in H.
    destruct (tracked (mObjects s) o a) as [[x time]|].
    + split; [|by eauto]. intros _. destruct H as (-> & Hs & He & Hn). destruct o as [k|]; [|done].
      exists k, (mLast time). cbn in He. apply negb_false_iff in He. by auto.
    + split; [by intros (? & ? & ?)|]. intros (k & t & -> & Hk & Hs & Hn).
      destruct (H t Hs) as [He|He]; [|lia]. cbn in He. by rewrite Hk in He.
  - intros x time Hp. pose proof (tracked_current sensors events now alive env s o a Hat Hcam Hold Hrun) as H.
    cbv zeta in H. rewrite Hp in H. tauto.
Qed.
End History.

(** ** Witness *)
(** A radar and a CAM sensor on the vehicle "ego" of [EnvGlobal.ex_env]; a CAM of
    "other" (station 7) arrives half a second before the refresh, one of the unknown
    station 8 and one of a station outside the model just before. *)
Definition ex_front : Sensor :=
  mkSensor 1 (RadarSensor (radar_initialize FRONT "ego" (d_of_Z 50) (d_of_Z 60) 4)).
Definition ex_cam : Sensor := mkSensor 2 CamSensor.
Definition ex_at (a : nat) : Sensor := if Nat.eqb a 1 then ex_front else ex_cam.
Definition ex_lookup (id : Z) : option Identity :=
  if id =? 7 then Some (mkIdentity None "other" 7 [])
  else if id =? 9 then Some (mkIdentity None "gone" 9 []) else None.

Abbreviation ex_local_step := (@local_step ex_geometry _ (interdistance_preselection ex_geometry)).
Abbreviation ex_CamReceived := (@CamReceived ex_geometry InterdistanceMatrix).
Abbreviation ex_Refresh := (@EnvironmentRefresh ex_geometry InterdistanceMatrix).

Definition ex_history : list (@local_event ex_geometry InterdistanceMatrix) :=
  [ex_CamReceived (SIMTIME_MS 500) ex_lookup ex_env ex_cam (Some 7);
   ex_CamReceived (SIMTIME_MS 900) ex_lookup ex_env ex_cam (Some 8);
   ex_CamReceived (SIMTIME_MS 950) ex_lookup ex_env ex_cam (Some 9)].
Definition ex_refresh : @local_event ex_geometry InterdistanceMatrix :=
  ex_Refresh (SIMTIME_MS 1000) (fun _ => true) ex_env.

Definition ex_local : LocalEnvironmentModel :=
  match res_fold ex_local_step (ex_history ++ [ex_refresh]) (mkLocal [] [ex_front; ex_cam] []) with
  | Ok s => s
  | Fail _ => mkLocal [] [] []
  end.

Lemma ex_local_run :
  res_fold ex_local_step (ex_history ++ [ex_refresh]) (mkLocal [] [ex_front; ex_cam] []) = Ok ex_local.
Proof. vm_compute. reflexivity. Qed.

Lemma ex_history_cams :
  Forall (fun e => match e with CamReceived _ _ _ _ x _ => ex_at (address x) = x | _ => True end) ex_history.
Proof. repeat constructor. Qed.
Lemma ex_history_refreshes :
  Forall (fun e => match e with EnvironmentRefresh _ _ _ _ => False | _ => True end) ex_history.
Proof. repeat constructor. Qed.

Lemma local_model_tracks_witness :
  (exists x time, tracked (mObjects ex_local) (Some 1%nat) 1 = Some (x, time)) /\
  (exists x time, tracked (mObjects ex_local) (Some 1%nat) 2 = Some (x, time)) /\
  ~ (exists x time, tracked (mObjects ex_local) None 2 = Some (x, time)).
Proof.
  destruct (local_model_tracks ex_geometry (PreselectionMethod0 := interdistance_preselection ex_geometry)
    ex_at [ex_front; ex_cam] ex_history (SIMTIME_MS 1000) (fun _ => true) ex_env ex_local) as [H _].
  - intros x [->|[->|[]%elem_of_nil]%elem_of_cons]%elem_of_cons; reflexivity.
  - intros u lookup env x id Hin. exact (proj1 (Forall_forall _ _) ex_history_cams _ Hin).
  - intros u al env Hin. destruct (proj1 (Forall_forall _ _) ex_history_refreshes _ Hin).
  - exact ex_local_run.
  - split; [|split].
    + apply H. exists 1%nat, (SIMTIME_MS 1000). split; [reflexivity|]. split; [reflexivity|].
      split; [vm_compute; reflexivity|vm_compute; discriminate].
    + apply H. exists 1%nat, (SIMTIME_MS 500). split; [reflexivity|]. split; [reflexivity|].
      split; [vm_compute; reflexivity|vm_compute; discriminate].
    + rewrite H. intros (k & t & Hk & _). discriminate Hk.
Defined.
