(* ===== verification/Gemv2Index.v ===== *)
(** * Obstacles, vehicles and the class of a link (GEMV2)

    The indices of buildings, foliage and vehicles ([inet/gemv2/ObstacleIndex.cc],
    [VehicleIndex.cc]), the classification of links ([LinkClassifier.cc]), the variation
    by the density of the surroundings ([SmallScaleVariation.cc]) and the path loss model
    that combines them ([PathLoss.cc]); also the conversions between the simulators'
    coordinates ([src/src/traci/Position.cc], [Angle.cc]).  Boost.Geometry and INET are
    parameters: [Geo] has the geometric functions, [GeoLaws] what is relied on - an r-tree
    answers a query with the stored values that meet it, in some order, and an outline
    that is crossed has an envelope that is met. *)

From S2P Require Import Prelude OMap Float64 VehicleData TraciCache TraciNodes TraciScopes.

(** ** Coordinates of the traffic simulator *)
Record Boundary := mkBoundary { lowerLeftPosition : double * double; upperRightPosition : double * double }.
Definition boundary_of (pv : list (double * double * double)) : res Boundary :=
  match pv with
  | [(x0, y0, _); (x1, y1, _)] => Ok (mkBoundary (x0, y0) (x1, y1))
  | _ => Fail (RuntimeError "TraCI boundary has to consist of exactly two positions")
  end.
Definition position_cast (boundary : Boundary) (pos : double * double) : Position :=
  mkPosition (dsub pos.1 (lowerLeftPosition boundary).1) (dsub (upperRightPosition boundary).2 pos.2).
Definition position_cast_back (boundary : Boundary) (pos : Position) : double * double * double :=
  (dadd (pos_x pos) (lowerLeftPosition boundary).1, dsub (upperRightPosition boundary).2 (pos_y pos), d_zero).
(** From degrees, clockwise from north, to radians, counter-clockwise from east, and back. *)
Definition angle_cast (degree : double) : double := dmul (dsub (d_of_Z 90) degree) (ddiv d_pi (d_of_Z 180)).
Definition angle_cast_back (radian : double) : double :=
  dmul (dsub (dmul (d_lit 1 2) d_pi) radian) (ddiv (d_of_Z 180) d_pi).

(** ** Geometry *)
Abbreviation outline := (list Position) (only parsing).
Abbreviation line_of_sight := (Position * Position)%type (only parsing).
Record Geo := mkGeo {
  distance : Position -> Position -> double;
  box : Type;
  make_box : Position -> Position -> box;
  return_envelope : outline -> box;
  box_meets_line : box -> line_of_sight -> bool;
  box_meets_box : box -> box -> bool;
  (** [rtree::query(intersects(...))]: the order is unspecified. *)
  query_line : forall K, list (box * K) -> line_of_sight -> list (box * K);
  query_box : forall K, list (box * K) -> box -> list (box * K);
  crosses : line_of_sight -> outline -> bool;
  (** [relate] with the mask ["T**FF****"], for a line through these points. *)
  cuts : list Position -> outline -> bool;
  correct : outline -> outline;
  is_valid : outline -> bool;
  return_centroid : outline -> Position;
  area : outline -> double;
  rotate : double -> Position -> Position;
  translate : double -> double -> Position -> Position
}.
Arguments query_line G {K} : rename.
Arguments query_box G {K} : rename.
Definition cuts_line (G : Geo) (l : line_of_sight) (o : outline) : bool := cuts G [l.1; l.2] o.

Class GeoLaws (G : Geo) : Prop := {
  query_line_spec : forall K (values : list (box G * K)) l,
    query_line G values l ≡ₚ List.filter (fun v => box_meets_line G v.1 l) values;
  query_box_spec : forall K (values : list (box G * K)) b,
    query_box G values b ≡ₚ List.filter (fun v => box_meets_box G v.1 b) values;
  crosses_meets : forall l o, crosses G l o = true -> box_meets_line G (return_envelope G o) l = true;
  cuts_meets : forall l o, cuts_line G l o = true -> box_meets_line G (return_envelope G o) l = true
}.

(** [std::any_of], with elements that have to be looked up. *)
Fixpoint any_of {A} (p : A -> res bool) (l : list A) : res bool :=
  match l with
  | [] => Ok false
  | x :: l => b ← p x; if b : bool then Ok true else any_of p l
  end.
Fixpoint select {A B} (f : A -> res (option B)) (l : list A) : res (list B) :=
  match l with
  | [] => Ok []
  | x :: l => r ← f x; rs ← select f l; Ok (option_list r ++ rs)
  end.

Section Model.
Variable G : Geo.

(** ** Obstacles *)
Record Obstacle := mkObstacle { getOutline : outline; getCentroid : Position; getArea : double }.
Definition Obstacle_create (shape : outline) : Obstacle := mkObstacle shape (return_centroid G shape) (area G shape).
Record ObstacleIndex := mkObstacleIndex {
  mFilterTypes : list string;
  mObstacles : list Obstacle;
  mObstacleRtree : list (box G * nat)
}.

(** [boost::split] at spaces, into a set. *)
Variable split : string -> list string.
Definition obstacle_initialize (filterTypes : string) : ObstacleIndex := mkObstacleIndex (split filterTypes) [] [].

(** The polygons of the traffic simulator. *)
Record Polygons := mkPolygons {
  polygon_ids : list string;
  polygon_type : string -> res string;
  polygon_shape : string -> res (list (double * double))
}.

Definition fetch_polygon (polygons : Polygons) (boundary : Boundary) (types : list string) (id : string) :
    res (option Obstacle) :=
  ignored ← (match types with
             | [] => Ok false
             | _ => type ← polygon_type polygons id; Ok (negb (bool_decide (type ∈ types)))
             end);
  if ignored : bool then Ok None
  else
    points ← polygon_shape polygons id;
    let shape := correct G (position_cast boundary <$> points) in
    Ok (if is_valid G shape then Some (Obstacle_create shape) else None).
Definition obstacle_values (l : list Obstacle) : list (box G * nat) :=
  imap (fun i o => (return_envelope G (getOutline o), i)) l.
Definition fetchObstacles (polygons : Polygons) (net : res (list (double * double * double))) (s : ObstacleIndex) :
    res ObstacleIndex :=
  pv ← net;
  boundary ← boundary_of pv;
  new ← select (fetch_polygon polygons boundary (mFilterTypes s)) (polygon_ids polygons);
  let all := mObstacles s ++ new in
  Ok (mkObstacleIndex (mFilterTypes s) all (obstacle_values all)).

Definition obstacle_at (s : ObstacleIndex) (i : nat) : res Obstacle :=
  match mObstacles s !! i with Some o => Ok o | None => Fail (Undefined "obstacle index") end.
Definition obstacle_anyBlockage (s : ObstacleIndex) (a b : Position) : res bool :=
  any_of (fun candidate : box G * nat => o ← obstacle_at s candidate.2; Ok (crosses G (a, b) (getOutline o)))
    (query_line G (mObstacleRtree s) (a, b)).
Definition getObstructingObstacles (s : ObstacleIndex) (a b : Position) : res (list Obstacle) :=
  select (fun candidate : box G * nat =>
            o ← obstacle_at s candidate.2; Ok (if crosses G (a, b) (getOutline o) then Some o else None))
    (query_line G (mObstacleRtree s) (a, b)).

(** The box that is to contain the ellipse, and the ellipse. *)
Definition d_fmin (x y : double) : double := if d_is_nan x then y else if d_is_nan y then x else d_min x y.
Definition d_fmax (x y : double) : double := if d_is_nan x then y else if d_is_nan y then x else d_max x y.
Definition ellipse_k (a b : Position) (r : double) : double := dmul (d_lit 1 2) (dsub r (distance G a b)).
Definition ellipse_box (a b : Position) (k : double) : box G :=
  make_box G (mkPosition (dsub (d_fmin (pos_x a) (pos_x b)) k) (dsub (d_fmin (pos_y a) (pos_y b)) k))
    (mkPosition (dadd (d_fmax (pos_x a) (pos_x b)) k) (dadd (d_fmax (pos_y a) (pos_y b)) k)).
Definition in_ellipse (a b : Position) (r : double) (c : Position) : bool :=
  dleb (dadd (distance G a c) (distance G b c)) r.
Definition obstaclesEllipse (s : ObstacleIndex) (a b : Position) (r : double) : res (list Obstacle) :=
  let k := ellipse_k a b r in
  if dleb d_zero k
  then select (fun candidate : box G * nat =>
                 o ← obstacle_at s candidate.2; Ok (if in_ellipse a b r (getCentroid o) then Some o else None))
         (query_box G (mObstacleRtree s) (ellipse_box a b k))
  else Ok [].

(** ** Vehicles *)
Record Vehicle := mkVehicle {
  mBoundary : Boundary;
  getHeight : double;
  mHeading : double;
  mPosition : Position;
  mLocalMidpoint : Position;
  mLocalOutline : outline;
  getMidpoint : Position;
  getWorldOutline : outline
}.
Definition createLocalOutline (width length margin : double) : outline * Position :=
  let half_width := dadd (dmul (d_lit 1 2) width) margin in
  let back := dopp (dadd length margin) in
  ([mkPosition margin half_width; mkPosition margin (dopp half_width);
    mkPosition back (dopp half_width); mkPosition back half_width],
   mkPosition (dmul (dopp (d_lit 1 2)) length) d_zero).
Definition place (heading : double) (pos : Position) (p : Position) : Position :=
  translate G (pos_x pos) (pos_y pos) (rotate G heading p).
Definition calculateWorldOutline (v : Vehicle) : res Vehicle :=
  let world := place (mHeading v) (mPosition v) <$> mLocalOutline v in
  assert_ "mWorldOutline.size() == mLocalOutline.size()" (Nat.eqb (length world) (length (mLocalOutline v))) ;;
  assert_ "bg::is_valid(mWorldOutline)" (is_valid G world) ;;
  Ok (mkVehicle (mBoundary v) (getHeight v) (mHeading v) (mPosition v) (mLocalMidpoint v) (mLocalOutline v)
    (place (mHeading v) (mPosition v) (mLocalMidpoint v)) world).
Definition vehicle_update (pos : double * double) (heading : double) (v : Vehicle) : res Vehicle :=
  calculateWorldOutline (mkVehicle (mBoundary v) (getHeight v) (angle_cast heading) (position_cast (mBoundary v) pos)
    (mLocalMidpoint v) (mLocalOutline v) (getMidpoint v) (getWorldOutline v)).
Definition vehicle_create (api : LiteAPI) (net : res (list (double * double * double))) (id : string) (margin : double) :
    res Vehicle :=
  pv ← net;
  boundary ← boundary_of pv;
  vtype ← getString api libsumo.CMD_GET_VEHICLE_VARIABLE libsumo.VAR_TYPE id;
  height ← getDouble api libsumo.CMD_GET_VEHICLETYPE_VARIABLE libsumo.VAR_HEIGHT vtype;
  width ← getDouble api libsumo.CMD_GET_VEHICLETYPE_VARIABLE libsumo.VAR_WIDTH vtype;
  len ← getDouble api libsumo.CMD_GET_VEHICLETYPE_VARIABLE libsumo.VAR_LENGTH vtype;
  pos ← getPosition api libsumo.CMD_GET_VEHICLE_VARIABLE libsumo.VAR_POSITION id;
  angle ← getDouble api libsumo.CMD_GET_VEHICLE_VARIABLE libsumo.VAR_ANGLE id;
  let '(outline, mid) := createLocalOutline width len margin in
  let origin := mkPosition d_zero d_zero in
  vehicle_update pos.1 angle (mkVehicle boundary height d_zero origin mid outline origin []).

(** An entry of the tree refers to a vehicle of the map by an iterator: here its id. *)
Record VehicleIndex := mkVehicleIndex {
  mVehicles : list (string * Vehicle);
  mVehicleRtree : list (box G * string);
  mRtreeTainted : bool;
  mVehicleMargin : double;
  erased : list string  (** ids whose entries were erased since the tree was built *)
}.
Definition vehicle_initialize (margin : double) : VehicleIndex := mkVehicleIndex [] [] false (dabs margin) [].
Definition vehicle_values (l : list (string * Vehicle)) : list (box G * string) :=
  (fun p => (return_envelope G (getWorldOutline p.2), p.1)) <$> l.

(** The signals of the node manager; a vehicle's update comes with its position and heading.
    After an addition, update or removal a local variable of the member's name is set. *)
Inductive vehicle_signal :=
| UpdateNode
| AddVehicle (api : LiteAPI) (net : res (list (double * double * double))) (id : string)
| UpdateVehicle (id : string) (pos : double * double) (heading : double)
| RemoveVehicle (id : string).
Definition with_vehicles (l : list (string * Vehicle)) (s : VehicleIndex) : VehicleIndex :=
  mkVehicleIndex l (mVehicleRtree s) (mRtreeTainted s) (mVehicleMargin s) (erased s).
Definition index_receiveSignal (e : vehicle_signal) (s : VehicleIndex) : res VehicleIndex :=
  match e with
  | UpdateNode => Ok (mkVehicleIndex (mVehicles s) (vehicle_values (mVehicles s)) false (mVehicleMargin s) [])
  | AddVehicle api net id =>
      v ← vehicle_create api net id (mVehicleMargin s);
      Ok (with_vehicles (om_emplace id v (mVehicles s)) s)
  | UpdateVehicle id pos heading =>
      match om_find id (mVehicles s) with
      | None => Fail (StdException "out_of_range")
      | Some v => v ← vehicle_update pos heading v; Ok (with_vehicles (om_set id v (mVehicles s)) s)
      end
  | RemoveVehicle id =>
      Ok (mkVehicleIndex (om_erase id (mVehicles s)) (mVehicleRtree s) (mRtreeTainted s) (mVehicleMargin s) (id :: erased s))
  end.

(** The tree's iterators are as old as the tree: one whose entry was erased since dangles, even
    when a vehicle with its id has been added again. *)
Definition vehicle_at (s : VehicleIndex) (id : string) : res Vehicle :=
  match om_find id (mVehicles s) with
  | Some v => if decide (id ∈ erased s) then Fail (Undefined "iterator of an erased vehicle") else Ok v
  | None => Fail (Undefined "iterator of an erased vehicle")
  end.
Definition vehicle_anyBlockage (s : VehicleIndex) (a b : Position) : res bool :=
  assert_ "!mRtreeTainted" (negb (mRtreeTainted s)) ;;
  any_of (fun candidate : box G * string =>
            v ← vehicle_at s candidate.2; Ok (cuts_line G (a, b) (getWorldOutline v)))
    (query_line G (mVehicleRtree s) (a, b)).
Definition tall_anyBlockage (s : VehicleIndex) (a b : Position) (height : double) : res bool :=
  assert_ "!mRtreeTainted" (negb (mRtreeTainted s)) ;;
  any_of (fun candidate : box G * string =>
            v ← vehicle_at s candidate.2; Ok (dltb height (getHeight v) && cuts_line G (a, b) (getWorldOutline v)))
    (query_line G (mVehicleRtree s) (a, b)).
Definition getObstructingVehicles (s : VehicleIndex) (a b : Position) : res (list Vehicle) :=
  select (fun candidate : box G * string =>
            v ← vehicle_at s candidate.2; Ok (if cuts_line G (a, b) (getWorldOutline v) then Some v else None))
    (query_line G (mVehicleRtree s) (a, b)).
Definition vehiclesEllipse (s : VehicleIndex) (a b : Position) (r : double) : res (list Vehicle) :=
  let k := ellipse_k a b r in
  if dleb d_zero k
  then select (fun candidate : box G * string =>
                 v ← vehicle_at s candidate.2; Ok (if in_ellipse a b r (getMidpoint v) then Some v else None))
         (query_box G (mVehicleRtree s) (ellipse_box a b k))
  else Ok [].

(** ** The class of a link *)
Inductive LinkClass := LOS | NLOSb | NLOSf | NLOSv.
#[export] Instance LinkClass_eq_dec : EqDecision LinkClass.
Proof. solve_decision. Defined.
Record LinkClassifier := mkClassifier {
  mObstacleIndex : ObstacleIndex;
  mFoliageIndex : ObstacleIndex;
  mVehicleIndex : VehicleIndex;
  mCountLOS : Z; mCountNLOSb : Z; mCountNLOSf : Z; mCountNLOSv : Z
}.
Definition count (link : LinkClass) (c : LinkClassifier) : Z :=
  match link with LOS => mCountLOS c | NLOSb => mCountNLOSb c | NLOSf => mCountNLOSf c | NLOSv => mCountNLOSv c end.
Definition count_link (link : LinkClass) (c : LinkClassifier) : LinkClassifier :=
  let inc (l : LinkClass) (n : Z) := if match l, link with
    | LOS, LOS | NLOSb, NLOSb | NLOSf, NLOSf | NLOSv, NLOSv => true | _, _ => false end then u32 (n + 1) else n in
  mkClassifier (mObstacleIndex c) (mFoliageIndex c) (mVehicleIndex c) (inc LOS (mCountLOS c)) (inc NLOSb (mCountNLOSb c))
    (inc NLOSf (mCountNLOSf c)) (inc NLOSv (mCountNLOSv c)).
Definition classifyLink (tx rx : Position) (c : LinkClassifier) : res (LinkClass * LinkClassifier) :=
  buildings ← obstacle_anyBlockage (mObstacleIndex c) tx rx;
  link ← (if buildings : bool then Ok NLOSb
          else
            foliage ← obstacle_anyBlockage (mFoliageIndex c) tx rx;
            if foliage : bool then Ok NLOSf
            else
              vehicles ← vehicle_anyBlockage (mVehicleIndex c) tx rx;
              Ok (if vehicles : bool then NLOSv else LOS));
  Ok (link, count_link link c).

(** ** Small scale variation *)
Definition squared (x : double) : double := dmul x x.
Record SmallScaleVariation := mkVariation {
  mMinStdDevLOS : double; mMaxStdDevLOS : double;
  mMinStdDevNLOSv : double; mMaxStdDevNLOSv : double;
  mMinStdDevNLOSb : double; mMaxStdDevNLOSb : double;
  mMaxVehicleDensity : double; mMaxObstacleDensity : double;
  mMaxObservedVehicleDensity : double; mMaxObservedObstacleDensity : double;
  draws : nat  (** random numbers drawn so far *)
}.
Definition variation_initialize (minLOS maxLOS minNLOSv maxNLOSv minNLOSb maxNLOSb vehicles obstacles : double) :
    SmallScaleVariation :=
  mkVariation minLOS maxLOS minNLOSv maxNLOSv minNLOSb maxNLOSb vehicles obstacles (dopp d_inf) (dopp d_inf) 0.
Definition deviations (link : LinkClass) (s : SmallScaleVariation) : double * double :=
  match link with
  | LOS => (mMinStdDevLOS s, mMaxStdDevLOS s)
  | NLOSv => (mMinStdDevNLOSv s, mMaxStdDevNLOSv s)
  | NLOSb => (mMinStdDevNLOSb s, mMaxStdDevNLOSb s)
  | NLOSf => (d_zero, d_zero)
  end.

(** The random numbers of OMNeT++ and the conversion of INET. *)
Variable normal : nat -> double -> double -> double.
Variable dB2fraction : double -> double.

Definition total_area (l : list Obstacle) : double := foldl (fun accu obs => dadd accu (getArea obs)) d_zero l.
Definition density_coefficient (density max : double) : double := d_min (d_of_Z 1) (d_sqrt (ddiv density max)).
Definition computeVariation_between (obstacles : ObstacleIndex) (vehicles : VehicleIndex) (a b : Position)
    (range minDev maxDev : double) (s : SmallScaleVariation) : res (double * SmallScaleVariation) :=
  obs ← obstaclesEllipse obstacles a b range;
  veh ← vehiclesEllipse vehicles a b range;
  let relVehDensity := ddiv (d_of_Z (Z.of_nat (length veh))) (squared range) in
  let relObsDensity := ddiv (total_area obs) (squared range) in
  let vehDensityCoeff := density_coefficient relVehDensity (mMaxVehicleDensity s) in
  let obsDensityCoeff := density_coefficient relObsDensity (mMaxObstacleDensity s) in
  let deviation := dadd minDev (dmul (dmul (d_lit 1 2) (dsub maxDev minDev)) (dadd vehDensityCoeff obsDensityCoeff)) in
  Ok (dB2fraction (normal (draws s) d_zero deviation),
      mkVariation (mMinStdDevLOS s) (mMaxStdDevLOS s) (mMinStdDevNLOSv s) (mMaxStdDevNLOSv s) (mMinStdDevNLOSb s)
        (mMaxStdDevNLOSb s) (mMaxVehicleDensity s) (mMaxObstacleDensity s)
        (if dltb (mMaxObservedVehicleDensity s) relVehDensity then relVehDensity else mMaxObservedVehicleDensity s)
        (if dltb (mMaxObservedObstacleDensity s) relObsDensity then relObsDensity else mMaxObservedObstacleDensity s)
        (S (draws s))).
Definition computeVariation (obstacles : ObstacleIndex) (vehicles : VehicleIndex) (a b : Position) (range : double)
    (link : LinkClass) (s : SmallScaleVariation) : res (double * SmallScaleVariation) :=
  let '(minDev, maxDev) := deviations link s in
  computeVariation_between obstacles vehicles a b range minDev maxDev s.

(** ** Path loss *)
(** A coordinate of INET. *)
Record Coord := mkCoord { coord_x : double; coord_y : double; coord_z : double }.
Definition ground (c : Coord) : Position := mkPosition (coord_x c) (coord_y c).
(** [Coord::distance], and the loss models of the four classes, which see both ends. *)
Variable coord_distance : Coord -> Coord -> double.
Record PathLoss := mkPathLoss {
  m_los : Coord -> Coord -> res double; m_nlos_b : Coord -> Coord -> res double;
  m_nlos_f : Coord -> Coord -> res double; m_nlos_v : Coord -> Coord -> res double;
  m_classifier : LinkClassifier;
  m_small_scale : option SmallScaleVariation;
  m_range_los : double; m_range_nlos_b : double; m_range_nlos_f : double; m_range_nlos_v : double
}.
Definition loss_model (link : LinkClass) (p : PathLoss) : Coord -> Coord -> res double :=
  match link with LOS => m_los p | NLOSb => m_nlos_b p | NLOSf => m_nlos_f p | NLOSv => m_nlos_v p end.
Definition loss_range (link : LinkClass) (p : PathLoss) : double :=
  match link with
  | LOS => m_range_los p | NLOSb => m_range_nlos_b p | NLOSf => m_range_nlos_f p | NLOSv => m_range_nlos_v p
  end.
Definition with_state (c : LinkClassifier) (s : option SmallScaleVariation) (p : PathLoss) : PathLoss :=
  mkPathLoss (m_los p) (m_nlos_b p) (m_nlos_f p) (m_nlos_v p) c s (m_range_los p) (m_range_nlos_b p) (m_range_nlos_f p)
    (m_range_nlos_v p).
(** The variation has indices of its own. *)
Definition computePathLoss (obstacles : ObstacleIndex) (vehicles : VehicleIndex) (tx rx : Coord) (p : PathLoss) :
    res (double * PathLoss) :=
  x ← classifyLink (ground tx) (ground rx) (m_classifier p);
  let '(link, classifier) := x : LinkClass * LinkClassifier in
  let p := with_state classifier (m_small_scale p) p in
  let range := loss_range link p in
  if dltb range (coord_distance tx rx) then Ok (d_zero, p)
  else
    loss ← loss_model link p tx rx;
    match m_small_scale p with
    | None => Ok (loss, p)
    | Some s =>
        y ← computeVariation obstacles vehicles (ground tx) (ground rx) range link s;
        let '(variation, s) := y : double * SmallScaleVariation in
        Ok (dmul loss variation, with_state classifier (Some s) p)
    end.
(** [std::max] of three. *)
Definition computeRange (p : PathLoss) : double := d_max (d_max (m_range_los p) (m_range_nlos_b p)) (m_range_nlos_v p).
End Model.

(** ** Queries *)
Lemma any_of_Ok {A} (p : A -> res bool) (q : A -> bool) l : (forall x, x ∈ l -> p x = Ok (q x)) ->
  any_of p l = Ok (existsb q l).
Proof.
  induction l as [|x l IH]; intros H; [done|]. cbn [any_of existsb]. rewrite H by set_solver. cbn [mbind res_bind].
  destruct (q x); [done|]. apply IH. set_solver.
Qed.
Lemma select_Ok {A B} (f : A -> res (option B)) (g : A -> option B) l : (forall x, x ∈ l -> f x = Ok (g x)) ->
  select f l = Ok (omap g l).
Proof.
  induction l as [|x l IH]; intros H; [done|]. cbn [select omap list_omap]. rewrite H by set_solver. cbn [mbind res_bind].
  rewrite IH by set_solver. by destruct (g x).
Qed.
Lemma existsb_perm {A} (q : A -> bool) l l' : l ≡ₚ l' -> existsb q l = existsb q l'.
Proof.
  induction 1 as [|x l l' _ IH|x y l|l1 l2 l3 _ IH1 _ IH2]; cbn; [done|by rewrite IH| |congruence].
  by destruct (q x), (q y).
Qed.
Lemma existsb_filter {A} (q m : A -> bool) l : (forall x, x ∈ l -> q x = true -> m x = true) ->
  existsb q (List.filter m l) = existsb q l.
Proof.
  induction l as [|x l IH]; intros H; [done|]. cbn [List.filter existsb]. rewrite <- IH by set_solver.
  destruct (m x) eqn:Hm; [done|]. destruct (q x) eqn:Hq; [|done]. rewrite H in Hm; set_solver.
Qed.
Lemma omap_guard {A B} (q : B -> bool) (h : A -> B) l :
  omap (fun x => if q (h x) then Some (h x) else None) l = List.filter q (h <$> l).
Proof. induction l as [|x l IH]; [done|]. cbn. rewrite IH. by destruct (q (h x)). Qed.
Lemma filter_filter_bool {A} (q m : A -> bool) l : List.filter q (List.filter m l) = List.filter (fun x => m x && q x) l.
Proof. induction l as [|x l IH]; [done|]. cbn. destruct (m x); cbn; rewrite ?IH; by destruct (q x). Qed.
#[export] Instance filter_bool_perm {A} (q : A -> bool) : Proper ((≡ₚ) ==> (≡ₚ)) (List.filter q).
Proof.
  intros l l'. induction 1 as [|x l l' _ IH|x y l|l1 l2 l3 _ IH1 _ IH2]; cbn; [done|by destruct (q x); rewrite IH| |by rewrite IH1].
  destruct (q x), (q y); [constructor|done..].
Qed.
Lemma existsb_fmap {A B} (q : B -> bool) (h : A -> B) l : existsb q (h <$> l) = existsb (fun x => q (h x)) l.
Proof. induction l as [|x l IH]; [done|]. cbn. by rewrite IH. Qed.

(** A tree of the envelopes of some items, found by their keys. *)
Section Tree.
Context (G : Geo) `{!GeoLaws G}.
Context {K I : Type} (shape : I -> outline) (find : K -> res I) (items : list (K * I)).
Definition tree_values : list (box G * K) := (fun p => (return_envelope G (shape p.2), p.1)) <$> items.
Hypothesis Hfind : forall k i, (k, i) ∈ items -> find k = Ok i.

Definition item_of (i0 : I) (c : box G * K) : I := match find c.2 with Ok i => i | Fail _ => i0 end.
Lemma tree_elem i0 c : c ∈ tree_values -> find c.2 = Ok (item_of i0 c).
Proof. intros ([k i] & -> & Hin)%list_elem_of_fmap. unfold item_of. cbn. by rewrite (Hfind k i Hin). Qed.
Lemma tree_items i0 : item_of i0 <$> tree_values = items.*2.
Proof.
  unfold tree_values. rewrite <- list_fmap_compose. apply list_fmap_ext. intros n [k i] Hin.
  unfold item_of. cbn. by rewrite (Hfind k i) by (by eapply list_elem_of_lookup_2).
Qed.
Lemma tree_envelope i0 c : c ∈ tree_values -> c.1 = return_envelope G (shape (item_of i0 c)).
Proof. intros ([k i] & -> & Hin)%list_elem_of_fmap. unfold item_of. cbn. by rewrite (Hfind k i Hin). Qed.

Lemma query_line_elem l c : c ∈ query_line G tree_values l -> c ∈ tree_values.
Proof. rewrite query_line_spec. intros H%list_elem_of_In. apply filter_In in H as [H _]. by apply list_elem_of_In. Qed.
Lemma query_box_elem b c : c ∈ query_box G tree_values b -> c ∈ tree_values.
Proof. rewrite query_box_spec. intros H%list_elem_of_In. apply filter_In in H as [H _]. by apply list_elem_of_In. Qed.

Lemma tree_any l (q : I -> bool) (i0 : I) :
  (forall i, q i = true -> box_meets_line G (return_envelope G (shape i)) l = true) ->
  any_of (fun c => i ← find c.2; Ok (q i)) (query_line G tree_values l) = Ok (existsb q items.*2).
Proof.
  intros Hq. rewrite (any_of_Ok _ (fun c => q (item_of i0 c))).
  2: { intros c Hc%query_line_elem. by rewrite (tree_elem i0 c Hc). }
  f_equal. rewrite (existsb_perm _ _ _ (query_line_spec _ _ _)), existsb_filter.
  - by rewrite <- existsb_fmap, tree_items.
  - intros c Hc Hqc. rewrite (tree_envelope i0 c Hc). by apply Hq.
Qed.
Lemma tree_select_line l (q : I -> bool) :
  (forall i, q i = true -> box_meets_line G (return_envelope G (shape i)) l = true) ->
  exists r, select (fun c => i ← find c.2; Ok (if q i then Some i else None)) (query_line G tree_values l) = Ok r /\
    r ≡ₚ List.filter q items.*2.
Proof.
  intros Hq. destruct (items.*2) as [|i0 rest] eqn:Hitems.
  { exists []. split; [|done]. unfold tree_values. apply fmap_nil_inv in Hitems. rewrite Hitems. cbn [fmap list_fmap].
    pose proof (query_line_spec (G:=G) K [] l) as H. cbn in H. apply Permutation_nil_r in H. by rewrite H. }
  rewrite <- Hitems. eexists. split.
  - apply (select_Ok _ (fun c => if q (item_of i0 c) then Some (item_of i0 c) else None)).
    intros c Hc%query_line_elem. by rewrite (tree_elem i0 c Hc).
  - rewrite omap_guard, <- (tree_items i0), query_line_spec.
    assert (forall vs, vs ⊆ tree_values -> List.filter q (item_of i0 <$> List.filter (fun v => box_meets_line G v.1 l) vs) =
      List.filter q (item_of i0 <$> vs)) as ->; [|done|done].
    induction vs as [|v vs IH]; intros Hsub; [done|]. cbn.
    assert (vs ⊆ tree_values) as Hsub' by set_solver.
    destruct (box_meets_line G v.1 l) eqn:Hm; cbn; rewrite IH by done; [done|].
    destruct (q (item_of i0 v)) eqn:Hqv; [|done]. apply Hq in Hqv. rewrite <- tree_envelope in Hqv by set_solver. congruence.
Qed.
Lemma tree_select_box b (q : I -> bool) :
  exists r, select (fun c => i ← find c.2; Ok (if q i then Some i else None)) (query_box G tree_values b) = Ok r /\
    r ≡ₚ List.filter (fun i => box_meets_box G (return_envelope G (shape i)) b && q i) items.*2.
Proof.
  destruct (items.*2) as [|i0 rest] eqn:Hitems.
  { exists []. split; [|done]. unfold tree_values. apply fmap_nil_inv in Hitems. rewrite Hitems. cbn [fmap list_fmap].
    pose proof (query_box_spec (G:=G) K [] b) as H. cbn in H. apply Permutation_nil_r in H. by rewrite H. }
  rewrite <- Hitems. eexists. split.
  - apply (select_Ok _ (fun c => if q (item_of i0 c) then Some (item_of i0 c) else None)).
    intros c Hc%query_box_elem. by rewrite (tree_elem i0 c Hc).
  - rewrite omap_guard, <- (tree_items i0), query_box_spec.
    assert (forall vs, vs ⊆ tree_values -> List.filter q (item_of i0 <$> List.filter (fun v => box_meets_box G v.1 b) vs) =
      List.filter (fun i => box_meets_box G (return_envelope G (shape i)) b && q i) (item_of i0 <$> vs)) as ->; [|done|done].
    induction vs as [|v vs IH]; intros Hsub; [done|]. cbn.
    assert (vs ⊆ tree_values) as Hsub' by set_solver. rewrite <- tree_envelope by set_solver.
    destruct (box_meets_box G v.1 b) eqn:Hm; cbn; rewrite IH by done; [by destruct (q _)|done].
Qed.
End Tree.

(** ** The indices answer exactly *)
Section Indices.
Context (G : Geo) `{!GeoLaws G}.

(** The tree is that of the obstacles. *)
Definition obstacle_inv (s : ObstacleIndex G) : Prop := mObstacleRtree G s = obstacle_values G (mObstacles G s).
Lemma obstacle_tree l : obstacle_values G l = tree_values G getOutline (imap (fun i o => (i, o)) l).
Proof. unfold obstacle_values, tree_values. by rewrite fmap_imap. Qed.
Lemma obstacle_found s i o : (i, o) ∈ imap (fun i o => (i, o)) (mObstacles G s) -> obstacle_at G s i = Ok o.
Proof. intros (j & o' & [= -> ->] & Hj)%elem_of_lookup_imap. unfold obstacle_at. by rewrite Hj. Qed.
Lemma imap_items {A} (l : list A) : (imap (fun i o => (i, o)) l).*2 = l.
Proof. rewrite fmap_imap. transitivity (id <$> l); [|apply list_fmap_id]. apply imap_const. Qed.

Lemma obstacle_blockage s a b : obstacle_inv s ->
  obstacle_anyBlockage G s a b = Ok (existsb (fun o => crosses G (a, b) (getOutline o)) (mObstacles G s)).
Proof.
  intros Hs. unfold obstacle_anyBlockage. rewrite Hs, obstacle_tree.
  destruct (mObstacles G s) as [|o0 rest] eqn:Hm.
  { cbn. pose proof (query_line_spec (G:=G) nat [] (a, b)) as H. cbn in H. apply Permutation_nil_r in H. unfold tree_values. cbn. by rewrite H. }
  rewrite <- Hm. rewrite (tree_any G getOutline (obstacle_at G s) _ (obstacle_found s) _ (fun o => crosses G (a, b) (getOutline o)) o0).
  - by rewrite imap_items.
  - intros o. apply crosses_meets.
Qed.
Lemma obstructing_obstacles s a b : obstacle_inv s ->
  exists l, getObstructingObstacles G s a b = Ok l /\
    l ≡ₚ List.filter (fun o => crosses G (a, b) (getOutline o)) (mObstacles G s).
Proof.
  intros Hs. unfold getObstructingObstacles. rewrite Hs, obstacle_tree.
  destruct (tree_select_line G getOutline (obstacle_at G s) _ (obstacle_found s) (a, b)
    (fun o => crosses G (a, b) (getOutline o))) as (l & Hl & Hp); [intros o; apply crosses_meets|].
  exists l. by rewrite imap_items in Hp.
Qed.
Lemma obstacles_ellipse s a b r : obstacle_inv s ->
  exists l, obstaclesEllipse G s a b r = Ok l /\
    l ≡ₚ List.filter (fun o => dleb d_zero (ellipse_k G a b r) &&
      (box_meets_box G (return_envelope G (getOutline o)) (ellipse_box G a b (ellipse_k G a b r)) &&
       in_ellipse G a b r (getCentroid o))) (mObstacles G s).
Proof.
  intros Hs. unfold obstaclesEllipse. destruct (dleb d_zero (ellipse_k G a b r)).
  - rewrite Hs, obstacle_tree. destruct (tree_select_box G getOutline (obstacle_at G s) _ (obstacle_found s)
      (ellipse_box G a b (ellipse_k G a b r)) (fun o => in_ellipse G a b r (getCentroid o))) as (l & Hl & Hp).
    exists l. by rewrite imap_items in Hp.
  - exists []. split; [done|]. induction (mObstacles G s); done.
Qed.

Lemma fetch_inv polygons net s s' : obstacle_inv s -> fetchObstacles G polygons net s = Ok s' -> obstacle_inv s'.
Proof.
  intros _. unfold fetchObstacles. rewrite bind_Ok. intros (pv & _ & H). apply bind_Ok in H as (bd & _ & H).
  apply bind_Ok in H as (new & _ & H). by apply Ok_inj in H as <-.
Qed.
End Indices.

Section Links.
Context (G : Geo) `{!GeoLaws G}.

(** No change of a vehicle since the tree was built. *)
Record vehicle_fresh (s : VehicleIndex G) : Prop := {
  fresh_tree : mVehicleRtree G s = vehicle_values G (mVehicles G s);
  fresh_wf : om_wf (mVehicles G s);
  fresh_taint : mRtreeTainted G s = false;
  fresh_erased : erased G s = []
}.
Lemma vehicle_found s id v : vehicle_fresh s -> (id, v) ∈ mVehicles G s -> vehicle_at G s id = Ok v.
Proof.
  intros [_ Hwf _ He] Hin. apply (om_wf_find _ _ _ Hwf) in Hin. unfold vehicle_at. by rewrite Hin, He.
Qed.

Lemma vehicle_blockage s a b : vehicle_fresh s ->
  vehicle_anyBlockage G s a b = Ok (existsb (fun v => cuts_line G (a, b) (getWorldOutline v)) (mVehicles G s).*2).
Proof.
  intros Hs. unfold vehicle_anyBlockage. rewrite (fresh_taint s Hs), (fresh_tree s Hs). cbn [negb assert_ mbind res_bind].
  destruct (mVehicles G s) as [|[id0 v0] rest] eqn:Hm.
  { cbn. pose proof (query_line_spec (G:=G) string [] (a, b)) as H. cbn in H. apply Permutation_nil_r in H. by rewrite H. }
  rewrite <- Hm. apply (tree_any G getWorldOutline (vehicle_at G s) (mVehicles G s)); [|exact v0|].
  - intros id v. by apply vehicle_found.
  - intros v. apply cuts_meets.
Qed.
Lemma obstructing_vehicles s a b : vehicle_fresh s ->
  exists l, getObstructingVehicles G s a b = Ok l /\
    l ≡ₚ List.filter (fun v => cuts_line G (a, b) (getWorldOutline v)) (mVehicles G s).*2.
Proof.
  intros Hs. unfold getObstructingVehicles. rewrite (fresh_tree s Hs).
  apply (tree_select_line G getWorldOutline (vehicle_at G s) (mVehicles G s)).
  - intros id v. by apply vehicle_found.
  - intros v. apply cuts_meets.
Qed.
Lemma tall_blockage s a b h : vehicle_fresh s ->
  tall_anyBlockage G s a b h =
    Ok (existsb (fun v => dltb h (getHeight v) && cuts_line G (a, b) (getWorldOutline v)) (mVehicles G s).*2).
Proof.
  intros Hs. unfold tall_anyBlockage. rewrite (fresh_taint s Hs), (fresh_tree s Hs). cbn [negb assert_ mbind res_bind].
  destruct (mVehicles G s) as [|[id0 v0] rest] eqn:Hm.
  { cbn. pose proof (query_line_spec (G:=G) string [] (a, b)) as H. cbn in H. apply Permutation_nil_r in H. by rewrite H. }
  rewrite <- Hm. apply (tree_any G getWorldOutline (vehicle_at G s) (mVehicles G s)); [|exact v0|].
  - intros id v. by apply vehicle_found.
  - intros v [_ Hv]%andb_true_iff. by apply cuts_meets.
Qed.
Definition near_vehicle (a b : Position) (r : double) (v : Vehicle) : bool :=
  dleb d_zero (ellipse_k G a b r) &&
  (box_meets_box G (return_envelope G (getWorldOutline v)) (ellipse_box G a b (ellipse_k G a b r)) &&
   in_ellipse G a b r (getMidpoint v)).
Definition near_obstacle (a b : Position) (r : double) (o : Obstacle) : bool :=
  dleb d_zero (ellipse_k G a b r) &&
  (box_meets_box G (return_envelope G (getOutline o)) (ellipse_box G a b (ellipse_k G a b r)) &&
   in_ellipse G a b r (getCentroid o)).
Lemma vehicles_ellipse s a b r : vehicle_fresh s ->
  exists l, vehiclesEllipse G s a b r = Ok l /\ l ≡ₚ List.filter (near_vehicle a b r) (mVehicles G s).*2.
Proof.
  intros Hs. unfold vehiclesEllipse, near_vehicle. destruct (dleb d_zero (ellipse_k G a b r)).
  - rewrite (fresh_tree s Hs). apply (tree_select_box G getWorldOutline (vehicle_at G s) (mVehicles G s)).
    intros id v. by apply vehicle_found.
  - exists []. split; [done|]. induction (mVehicles G s).*2; done.
Qed.

(** *** Classes *)
Record classifier_ok (c : LinkClassifier G) : Prop := {
  ok_obstacles : obstacle_inv G (mObstacleIndex G c);
  ok_foliage : obstacle_inv G (mFoliageIndex G c);
  ok_vehicles : vehicle_fresh (mVehicleIndex G c)
}.
(** The class by the outlines alone. *)
Definition link_class (c : LinkClassifier G) (tx rx : Position) : LinkClass :=
  if existsb (fun o => crosses G (tx, rx) (getOutline o)) (mObstacles G (mObstacleIndex G c)) then NLOSb
  else if existsb (fun o => crosses G (tx, rx) (getOutline o)) (mObstacles G (mFoliageIndex G c)) then NLOSf
  else if existsb (fun v => cuts_line G (tx, rx) (getWorldOutline v)) (mVehicles G (mVehicleIndex G c)).*2 then NLOSv
  else LOS.
Lemma classify_spec c tx rx : classifier_ok c ->
  classifyLink G tx rx c = Ok (link_class c tx rx, count_link G (link_class c tx rx) c).
Proof.
  intros [Ho Hf Hv]. unfold classifyLink, link_class. rewrite (obstacle_blockage G _ tx rx Ho). cbn [mbind res_bind].
  destruct (existsb _ (mObstacles G (mObstacleIndex G c))); [done|]. rewrite (obstacle_blockage G _ tx rx Hf). cbn [mbind res_bind].
  destruct (existsb _ (mObstacles G (mFoliageIndex G c))); [done|]. rewrite (vehicle_blockage _ tx rx Hv). cbn [mbind res_bind].
  by destruct (existsb _ _).
Qed.
Lemma count_link_spec link l c : count G l (count_link G link c) = if bool_decide (l = link) then u32 (count G l c + 1) else count G l c.
Proof. by destruct l, link. Qed.

(** *** Loss *)
Variable normal : nat -> double -> double -> double.
Variable dB2fraction : double -> double.
Variable coord_distance : Coord -> Coord -> double.

(** The factor for the surroundings: obstacles in the order the tree gives them. *)
Definition variation_deviation (link : LinkClass) (range : double) (obs : list Obstacle) (vehicles : nat)
    (s : SmallScaleVariation) : double :=
  let '(minDev, maxDev) := deviations link s in
  dadd minDev (dmul (dmul (d_lit 1 2) (dsub maxDev minDev))
    (dadd (density_coefficient (ddiv (d_of_Z (Z.of_nat vehicles)) (squared range)) (mMaxVehicleDensity s))
          (density_coefficient (ddiv (total_area obs) (squared range)) (mMaxObstacleDensity s)))).

(** [C23] The loss of a transmission follows the class of its link: buildings on the direct
    line count before foliage, foliage before vehicles, and otherwise the line of sight is
    free; the r-trees neither hide an outline nor add one.  Beyond the range of the class all
    power is lost and no model is asked.  Within it the loss is that of the model of this
    class alone, times the variation, whose deviation depends on the vehicles and obstacles
    around both ends: one random number is drawn for it, the greatest densities are kept, and
    the class - no other - is counted. *)
Theorem path_loss_by_class obstacles vehicles tx rx p :
  classifier_ok (m_classifier G p) -> obstacle_inv G obstacles -> vehicle_fresh vehicles ->
  let link := link_class (m_classifier G p) (ground tx) (ground rx) in
  let range := loss_range G link p in
  let classifier := count_link G link (m_classifier G p) in
  let result := computePathLoss G normal dB2fraction coord_distance obstacles vehicles tx rx p in
  (dltb range (coord_distance tx rx) = true -> result = Ok (d_zero, with_state G classifier (m_small_scale G p) p)) /\
  (dltb range (coord_distance tx rx) = false ->
   match loss_model G link p tx rx, m_small_scale G p with
   | Fail f, _ => result = Fail f
   | Ok loss, None => result = Ok (loss, with_state G classifier None p)
   | Ok loss, Some s =>
       exists obs s', result = Ok (dmul loss (dB2fraction (normal (draws s) d_zero (variation_deviation link range obs
           (length (List.filter (near_vehicle (ground tx) (ground rx) range) (mVehicles G vehicles).*2)) s))),
         with_state G classifier (Some s') p) /\
       obs ≡ₚ List.filter (near_obstacle (ground tx) (ground rx) range) (mObstacles G obstacles) /\
       draws s' = S (draws s) /\ deviations link s' = deviations link s /\
       dltb (mMaxObservedVehicleDensity s') (mMaxObservedVehicleDensity s) = false
   end) /\
  forall l, count G l classifier = if bool_decide (l = link) then u32 (count G l (m_classifier G p) + 1)
                                   else count G l (m_classifier G p).
Proof.
  intros Hc Ho Hv link range classifier result. unfold result, computePathLoss.
  rewrite (classify_spec _ _ _ Hc). cbn [mbind res_bind]. fold link classifier.
  assert (loss_range G link (with_state G classifier (m_small_scale G p) p) = range) as -> by (by destruct link).
  assert (loss_model G link (with_state G classifier (m_small_scale G p) p) = loss_model G link p) as -> by (by destruct link).
  split; [by intros ->|]. split; [|intros l; apply count_link_spec]. intros ->.
  destruct (loss_model G link p tx rx) as [loss|f]; [|by destruct (m_small_scale G p)]. cbn [mbind res_bind].
  change (m_small_scale G (with_state G classifier (m_small_scale G p) p)) with (m_small_scale G p).
  destruct (m_small_scale G p) as [s|]; [|done].
  unfold computeVariation, variation_deviation. destruct (deviations link s) as [minDev maxDev] eqn:Hdev.
  unfold computeVariation_between.
  destruct (obstacles_ellipse G obstacles (ground tx) (ground rx) range Ho) as (obs & -> & Hobs). cbn [mbind res_bind].
  destruct (vehicles_ellipse vehicles (ground tx) (ground rx) range Hv) as (veh & -> & Hveh). cbn [mbind res_bind].
  exists obs. rewrite <- (Permutation_length Hveh). eexists. split; [reflexivity|]. split; [exact Hobs|]. cbn [draws mMaxObservedVehicleDensity].
  split; [done|]. split; [by destruct link|].
  destruct (dltb (mMaxObservedVehicleDensity s) _) eqn:E; [|apply dltb_irrefl].
  destruct (dltb (ddiv _ _) (mMaxObservedVehicleDensity s)) eqn:E'; [|done].
  pose proof (dltb_trans _ _ _ E E') as H. by rewrite dltb_irrefl in H.
Qed.
End Links.

(** ** The index and the node manager *)
(** The vehicles a listener knows from the signals; an update of an unknown one is a mistake. *)
Definition hear (S : option (gset string)) (e : node_event) : option (gset string) :=
  S ← S;
  match e with
  | AddVehicleSignal id => Some ({[id]} ∪ S)
  | RemoveVehicleSignal id => Some (S ∖ {[id]})
  | UpdateVehicleSignal id => if decide (id ∈ S) then Some S else None
  | _ => Some S
  end.
Definition heard (events : list node_event) : option (gset string) := foldl hear (Some ∅) events.
Lemma signals_heard_app ev1 ev2 : heard (ev1 ++ ev2) = foldl hear (heard ev1) ev2.
Proof. apply foldl_app. Qed.

Section Heard.
Context {M : Type} `{!ModuleMapper M} (has_sink : module_type -> bool).
Context (createModule : string -> module_type -> BasicNodeManager M -> node * BasicNodeManager M)
  (Hcreate : create_ok createModule).
Definition known (s : BasicNodeManager M) : gset string := list_to_set (om_keys (m_vehicles s)).
(** The signals are about the vehicles the manager knows; [base] has been emitted before. *)
Definition told (base : list node_event) (s : BasicNodeManager M) : Prop :=
  heard (node_events s) = Some (known s) /\ exists ev, node_events s = base ++ ev.

Lemma known_set id o (m : list (string * option node)) : (list_to_set (om_keys (om_set id o m)) : gset string) = {[id]} ∪ list_to_set (om_keys m).
Proof.
  apply set_eq. intros x. rewrite elem_of_union, elem_of_singleton, !elem_of_list_to_set, <- !om_find_is_Some, om_find_set.
  destruct (decide (x = id)) as [->|]; naive_solver.
Qed.
Lemma known_erase id (m : list (string * option node)) : (list_to_set (om_keys (om_erase id m)) : gset string) = list_to_set (om_keys m) ∖ {[id]}.
Proof.
  apply set_eq. intros x. rewrite elem_of_difference, elem_of_singleton, !elem_of_list_to_set, <- !om_find_is_Some, om_find_erase.
  destruct (decide (x = id)) as [->|]; split; [by intros [? ?]|tauto|tauto|tauto].
Qed.

Lemma told_more base s s' ev : told base s -> node_events s' = node_events s ++ ev ->
  foldl hear (Some (known s)) ev = Some (known s') -> told base s'.
Proof.
  intros [Hh [ev0 He]] Hev Hf. split.
  - by rewrite Hev, signals_heard_app, Hh.
  - exists (ev0 ++ ev). by rewrite Hev, He, app_assoc.
Qed.
Lemma told_with_subs base b s : told base s -> told base (with_subs b s).
Proof. done. Qed.

Lemma add_told base api id s s' : told base s -> basic_addVehicle has_sink createModule api id s = Ok s' -> told base s'.
Proof.
  intros Ht. unfold basic_addVehicle. cbn [m_mapper emit]. destruct (mapper_vehicle (m_mapper s) id) as [[type|] mapper].
  - unfold addNodeModule. match goal with |- context [createModule id type ?t] => set (t0 := t) end.
    destruct (Hcreate id type t0) as [_ [i Hi]]. destruct (createModule id type t0) as [n t1]. cbn [snd] in Hi. subst t1.
    rewrite bind_Ok. intros (s1 & H1 & H). apply Ok_inj in H as <-. unfold init_node in H1.
    destruct (has_sink (node_type n)); [|done]. destruct (getVehicleCache id _) as [x bb].
    apply bind_Ok in H1 as (pos & _ & H1). apply bind_Ok in H1 as (angle & _ & H1). apply bind_Ok in H1 as (speed & _ & H1).
    apply Ok_inj in H1 as <-.
    apply (told_more base s _ [AddVehicleSignal id; SinkInitialize id n pos angle speed; AddNodeSignal id n]); [done| |].
    + cbn. by rewrite <- !app_assoc.
    + cbn. f_equal. symmetry. apply known_set.
  - intros H. apply Ok_inj in H as <-. apply (told_more base s _ [AddVehicleSignal id]); [done|done|].
    cbn. f_equal. symmetry. apply known_set.
Qed.
Lemma remove_told base id s : told base s -> told base (basic_removeVehicle id s).
Proof.
  intros Ht. unfold basic_removeVehicle, removeNodeModule. cbn [m_nodes emit].
  assert (forall ev, foldl hear (Some (known s)) (RemoveVehicleSignal id :: ev) = foldl hear (Some (known s ∖ {[id]})) ev) as Hh by done.
  destruct (om_find id (m_nodes s)) as [n|].
  - apply (told_more base s _ [RemoveVehicleSignal id; RemoveNodeSignal id n]); [done|cbn; by rewrite <- app_assoc|].
    cbn. f_equal. symmetry. apply known_erase.
  - apply (told_more base s _ [RemoveVehicleSignal id]); [done|done|]. cbn. f_equal. symmetry. apply known_erase.
Qed.
Lemma update_told base api id sink s s' : told base s -> id ∈ om_keys (m_vehicles s) ->
  basic_updateVehicle api id sink s = Ok s' -> told base s' /\ m_vehicles s' = m_vehicles s.
Proof.
  intros Ht Hin. unfold basic_updateVehicle. destruct (getVehicleCache id (m_subscriptions s)) as [c b].
  assert (hear (Some (known s)) (UpdateVehicleSignal id) = Some (known s)) as Hh.
  { cbn. rewrite decide_True; [done|]. unfold known. by rewrite elem_of_list_to_set. }
  destruct sink as [n|].
  - rewrite bind_Ok. intros ([pos c1] & _ & H). apply bind_Ok in H as ([angle c2] & _ & H).
    apply bind_Ok in H as ([speed c3] & _ & H). apply Ok_inj in H as <-. split; [|done].
    apply (told_more base s _ [UpdateVehicleSignal id; SinkUpdate id n pos angle speed]); [done|cbn; by rewrite <- app_assoc|].
    cbn [foldl]. by rewrite Hh.
  - intros H. apply Ok_inj in H as <-. split; [|done].
    apply (told_more base s _ [UpdateVehicleSignal id]); [done|done|]. cbn [foldl]. by rewrite Hh.
Qed.

Lemma sim_ids_told base api v s ids s' :
  @sim_ids M _ (basic_manager has_sink createModule) api v s = Ok (ids, s') -> told base s -> told base s'.
Proof.
  unfold sim_ids. rewrite bind_Ok. intros ([l c] & _ & H) Ht. apply Ok_inj in H. by inversion H; subst.
Qed.
Lemma removes_told base api now ids s s' : told base s ->
  res_fold (fun s id => @removeVehicle M _ (basic_manager has_sink createModule) api now id s) ids s = Ok s' -> told base s'.
Proof.
  apply res_fold_inv. intros id t t' _ Ht H. cbn in H. apply Ok_inj in H as <-. by apply remove_told.
Qed.
Lemma adds_told base api now ids s s' : told base s ->
  res_fold (fun s id => @addVehicle M _ (basic_manager has_sink createModule) api now id s) ids s = Ok s' -> told base s'.
Proof. apply res_fold_inv. intros id t t' _ Ht H. cbn in H. by eapply add_told. Qed.

Lemma init_told order api now s s' : told [] s ->
  @traciInit M _ (basic_manager has_sink createModule) order api now s = Ok s' -> told [] s'.
Proof.
  intros Ht. unfold traciInit. rewrite bind_Ok. intros (b1 & _ & H). apply bind_Ok in H as (b2 & _ & H).
  eapply adds_told; [|exact H]. done.
Qed.
Lemma step_told dbl api now s s' : told [] s ->
  @traciStep M _ (basic_manager has_sink createModule) dbl api now s = Ok s' ->
  told [] s' /\ exists ev, node_events s' = node_events s ++ ev ++ [UpdateNodeSignal (length (m_nodes s'))].
Proof.
  intros [Hh _]. assert (told (node_events s) s) as Ht by (split; [done|exists []; by rewrite app_nil_r]).
  unfold traciStep. rewrite bind_Ok. intros (s0 & H0 & H). apply sync_check_basic in H0 as (b & -> & _).
  apply (told_with_subs _ b) in Ht.
  apply bind_Ok in H as ([departed s1] & H1 & H). apply (sim_ids_told _ _ _ _ _ _ H1) in Ht.
  apply bind_Ok in H as (s2 & H2 & H). apply (adds_told _ _ _ _ _ _ Ht) in H2 as Ht2.
  apply bind_Ok in H as ([arrived s3] & H3 & H). apply (sim_ids_told _ _ _ _ _ _ H3) in Ht2 as Ht3.
  apply bind_Ok in H as (s4 & H4 & H). apply (removes_told _ _ _ _ _ _ Ht3) in H4 as Ht4.
  apply bind_Ok in H as (s5 & H5 & H).
  assert (told (node_events s) s5) as Ht5.
  { destruct (m_destroy_vehicles_on_crash (basic s4)); [|apply Ok_inj in H5 as <-; done].
    apply bind_Ok in H5 as ([teleport s6] & H6 & H5). apply (sim_ids_told _ _ _ _ _ _ H6) in Ht4 as Ht6.
    by apply (removes_told _ _ _ _ _ _ Ht6) in H5. }
  apply bind_Ok in H as (s7 & H7 & H). apply Ok_inj in H as <-.
  assert (told (node_events s) s7 /\ m_vehicles s7 = m_vehicles s5) as [[Hh7 [ev7 He7]] Hv7].
  { revert H7. apply (res_fold_inv (fun t => told (node_events s) t /\ m_vehicles t = m_vehicles s5)); [|done].
    intros [id sink] t t' Hin [Ht' Hv] Hu. cbn in Hin, Hu. apply (update_told (node_events s)) in Hu as [? Hv'].
    - split; [done|]. by rewrite Hv'.
    - done.
    - rewrite Hv. unfold om_keys. apply list_elem_of_fmap. by exists (id, sink). }
  cbn [basic basic_manager with_basic emit node_events m_nodes]. unfold getNumberOfNodes.
  split; [split|].
  - cbn [emit node_events basic basic_manager]. rewrite signals_heard_app, Hh7. done.
  - by eexists.
  - exists ev7. by rewrite He7, <- app_assoc.
Qed.

(** The node manager in its life: created, initialised and stepping, while the subscription
    manager renews its caches. *)
Inductive managed : BasicNodeManager M -> Prop :=
| managed_start s : node_events s = [] -> m_vehicles s = [] -> managed s
| managed_init order api now s s' : managed s ->
    @traciInit M _ (basic_manager has_sink createModule) order api now s = Ok s' -> managed s'
| managed_step dbl api now s s' : managed s ->
    @traciStep M _ (basic_manager has_sink createModule) dbl api now s = Ok s' -> managed s'
| managed_refresh b s : managed s -> managed (with_subs b s).
Lemma managed_told s : managed s -> told [] s.
Proof.
  induction 1 as [s He Hv|order api now s s' _ IH H|dbl api now s s' _ IH H|b s _ IH].
  - split; [|by exists []]. unfold known. by rewrite He, Hv.
  - by eapply init_told.
  - by apply (step_told dbl api now s).
  - done.
Qed.
End Heard.

Section Follow.
Context (G : Geo) `{!GeoLaws G}.
(** What the traffic simulator and the vehicles' caches say at each signal. *)
Context (api : nat -> LiteAPI) (net : nat -> res (list (double * double * double)))
  (position : nat -> string -> double * double) (heading : nat -> string -> double).

Definition vehicle_signal_of (i : nat) (e : node_event) : option vehicle_signal :=
  match e with
  | AddVehicleSignal id => Some (AddVehicle (api i) (net i) id)
  | UpdateVehicleSignal id => Some (UpdateVehicle id (position i id) (heading i id))
  | RemoveVehicleSignal id => Some (RemoveVehicle id)
  | UpdateNodeSignal _ => Some UpdateNode
  | _ => None
  end.
Definition receive_node_event (s : VehicleIndex G) (e : option vehicle_signal) : res (VehicleIndex G) :=
  match e with Some e => index_receiveSignal G e s | None => Ok s end.
Definition receive_log (events : list node_event) (s : VehicleIndex G) : res (VehicleIndex G) :=
  res_fold receive_node_event (imap vehicle_signal_of events) s.

(** The faults there can be: the simulator refuses an answer, or an outline is invalid. *)
Definition legitimate (f : fault) : Prop :=
  f = AssertFailed "bg::is_valid(mWorldOutline)" \/ exists i id margin, vehicle_create G (api i) (net i) id margin = Fail f.

Record index_inv (S : gset string) (s : VehicleIndex G) : Prop := {
  index_wf : om_wf (mVehicles G s);
  index_keys : (list_to_set (om_keys (mVehicles G s)) : gset string) = S;
  index_taint : mRtreeTainted G s = false
}.

Lemma update_faults pos h v f : vehicle_update G pos h v = Fail f -> f = AssertFailed "bg::is_valid(mWorldOutline)".
Proof.
  unfold vehicle_update, calculateWorldOutline. cbn [mLocalOutline mHeading mPosition]. rewrite length_fmap, Nat.eqb_refl.
  cbn [assert_ mbind res_bind]. destruct (is_valid G _); [done|]. cbn. by intros [= <-].
Qed.

Lemma keys_mem {V} (id : string) (m : list (string * V)) : id ∈ (list_to_set (om_keys m) : gset string) <-> is_Some (om_find id m).
Proof. by rewrite elem_of_list_to_set, om_find_is_Some. Qed.
Lemma keys_set {V} id (v : V) (m : list (string * V)) :
  (list_to_set (om_keys (om_set id v m)) : gset string) = {[id]} ∪ list_to_set (om_keys m).
Proof. apply set_eq. intros x. rewrite elem_of_union, elem_of_singleton, !elem_of_list_to_set. apply om_keys_set. Qed.
Lemma keys_erase {V} id (m : list (string * V)) :
  (list_to_set (om_keys (om_erase id m)) : gset string) = list_to_set (om_keys m) ∖ {[id]}.
Proof.
  apply set_eq. intros x. rewrite elem_of_difference, elem_of_singleton, !elem_of_list_to_set, om_keys_erase. tauto.
Qed.

Lemma index_receive_spec i e S S' s : index_inv S s -> hear (Some S) e = Some S' ->
  match receive_node_event s (vehicle_signal_of i e) with
  | Ok s' => index_inv S' s' | Fail f => legitimate f end.
Proof.
  intros [Hwf Hk Ht] Hh. cbn in Hh. destruct e as [id|id|id|id n|count|id n|id n pos angle speed|id n pos angle speed]; cbn [vehicle_signal_of receive_node_event index_receiveSignal].
  - injection Hh as <-. destruct (vehicle_create G (api i) (net i) id (mVehicleMargin G s)) as [v|f] eqn:Hv; cbn [mbind res_bind].
    + split; cbn [mVehicles mRtreeTainted with_vehicles]; [by apply om_wf_emplace| |done]. unfold om_emplace.
      destruct (om_find id (mVehicles G s)) eqn:Hf; [|by rewrite keys_set, Hk].
      rewrite Hk. assert (id ∈ S) by (rewrite <- Hk; apply keys_mem; eauto). set_solver.
    + right. eauto.
  - destruct (decide (id ∈ S)) as [Hin|]; [|done]. injection Hh as <-. rewrite <- Hk in Hin. apply keys_mem in Hin as [v Hv].
    rewrite Hv. destruct (vehicle_update G (position i id) (heading i id) v) as [v'|f] eqn:Hu; cbn [mbind res_bind].
    + split; cbn [mVehicles mRtreeTainted with_vehicles]; [by apply om_wf_set| |done]. rewrite keys_set, Hk.
      assert (id ∈ S) by (rewrite <- Hk; apply keys_mem; eauto). set_solver.
    + left. by apply update_faults in Hu.
  - injection Hh as <-. split; cbn [mVehicles mRtreeTainted with_vehicles]; [by apply om_wf_erase|by rewrite keys_erase, Hk|done].
  - injection Hh as <-. by split.
  - injection Hh as <-. by split.
  - injection Hh as <-. by split.
  - injection Hh as <-. by split.
  - injection Hh as <-. by split.
Qed.

Lemma receive_log_spec events S margin : heard events = Some S ->
  match receive_log events (vehicle_initialize G margin) with
  | Ok s' => index_inv S s' | Fail f => legitimate f end.
Proof.
  revert S. induction events as [|e events IH] using rev_ind; intros S HS.
  - cbn in HS. injection HS as <-. split; [apply om_wf_nil|done|done].
  - rewrite signals_heard_app in HS. cbn [foldl] in HS. unfold receive_log. rewrite imap_app, res_fold_app. fold (receive_log events).
    destruct (heard events) as [S0|]; [|done]. specialize (IH S0 eq_refl).
    change (res_fold receive_node_event (imap vehicle_signal_of events)) with (receive_log events).
    destruct (receive_log events (vehicle_initialize G margin)) as [s|f]; [|done]. cbn [mbind res_bind imap res_fold].
    pose proof (index_receive_spec (length events) e S0 S s IH HS) as H. cbn. rewrite Nat.add_0_r.
    destruct (receive_node_event s (vehicle_signal_of (length events) e)); done.
Qed.

(** [C24] The vehicle index follows the node manager: after every step of it, whatever
    vehicles came, moved and left, the index has listened without a mistake - no update is
    about a vehicle it does not know - and contains exactly the manager's vehicles; its tree
    has been built from the outlines as they are now, so that every question about a line is
    answered by the outlines alone.  Only an answer the simulator refuses or an invalid
    outline can end the run. *)
Theorem index_follows_traffic {M} `{!ModuleMapper M} has_sink createModule dbl api' now margin
    (m m' : BasicNodeManager M) :
  create_ok createModule -> managed has_sink createModule m ->
  @traciStep M _ (basic_manager has_sink createModule) dbl api' now m = Ok m' ->
  match receive_log (node_events m') (vehicle_initialize G margin) with
  | Ok index =>
      (forall id, id ∈ om_keys (mVehicles G index) <-> id ∈ om_keys (m_vehicles m')) /\
      vehicle_fresh G index /\
      forall a b, vehicle_anyBlockage G index a b =
        Ok (existsb (fun v => cuts_line G (a, b) (getWorldOutline v)) (mVehicles G index).*2)
  | Fail f => legitimate f
  end.
Proof.
  intros Hcreate Hm Hstep. apply (managed_told has_sink createModule Hcreate) in Hm.
  destruct (step_told has_sink createModule Hcreate dbl api' now m m' Hm Hstep) as [[Hh _] [ev Hev]].
  pose proof (receive_log_spec (node_events m') (known m') margin Hh) as Hspec.
  destruct (receive_log (node_events m') (vehicle_initialize G margin)) as [index|f] eqn:Hlog; [|done].
  destruct Hspec as [Hwf Hk Ht].
  assert (vehicle_fresh G index) as Hfresh.
  { rewrite app_assoc in Hev. rewrite Hev in Hlog. unfold receive_log in Hlog.
    rewrite imap_app, res_fold_app in Hlog. destruct (res_fold _ _ _) as [s|]; [|done].
    cbn in Hlog. apply Ok_inj in Hlog as <-. by split. }
  split; [|split; [done|intros; by apply vehicle_blockage]].
  intros id. rewrite <- !om_find_is_Some, <- !keys_mem, Hk. done.
Qed.
End Follow.

(** ** A concrete geometry *)
(** Outlines and lines are taken for their envelopes; vehicles are not rotated. *)
Definition ex_distance (p q : Position) : double :=
  d_sqrt (dadd (dmul (dsub (pos_x p) (pos_x q)) (dsub (pos_x p) (pos_x q)))
    (dmul (dsub (pos_y p) (pos_y q)) (dsub (pos_y p) (pos_y q)))).
Definition ex_envelope (o : outline) : Position * Position :=
  match o with
  | [] => (mkPosition d_zero d_zero, mkPosition d_zero d_zero)
  | p :: l => foldl (fun b p => (mkPosition (d_min (pos_x b.1) (pos_x p)) (d_min (pos_y b.1) (pos_y p)),
                                 mkPosition (d_max (pos_x b.2) (pos_x p)) (d_max (pos_y b.2) (pos_y p)))) (p, p) l
  end.
Definition ex_meets (b c : Position * Position) : bool :=
  dleb (pos_x b.1) (pos_x c.2) && dleb (pos_x c.1) (pos_x b.2) && dleb (pos_y b.1) (pos_y c.2) && dleb (pos_y c.1) (pos_y b.2).
Definition ex_geo : Geo := {|
  distance := ex_distance;
  box := Position * Position;
  make_box := fun p q => (p, q);
  return_envelope := ex_envelope;
  box_meets_line := fun b l => ex_meets b (ex_envelope [l.1; l.2]);
  box_meets_box := ex_meets;
  query_line := fun K values l => List.filter (fun v => ex_meets v.1 (ex_envelope [l.1; l.2])) values;
  query_box := fun K values b => List.filter (fun v => ex_meets v.1 b) values;
  crosses := fun l o => ex_meets (ex_envelope o) (ex_envelope [l.1; l.2]);
  cuts := fun l o => ex_meets (ex_envelope o) (ex_envelope l);
  correct := fun o => o;
  is_valid := fun o => Nat.ltb 2 (length o);
  return_centroid := fun o => match o with [] => mkPosition d_zero d_zero | p :: _ => p end;
  area := fun _ => d_of_Z 1;
  rotate := fun _ p => p;
  translate := fun x y p => mkPosition (dadd x (pos_x p)) (dadd y (pos_y p))
|}.
#[export] Instance ex_geo_laws : GeoLaws ex_geo.
Proof. by split. Qed.

Definition ex_point (x y : Z) : Position := mkPosition (d_of_Z x) (d_of_Z y).
Definition ex_square (x y : Z) : outline :=
  [ex_point (x - 1) (y - 1); ex_point (x + 1) (y - 1); ex_point (x + 1) (y + 1); ex_point (x - 1) (y + 1)].
Definition ex_obstacle (x y : Z) : Obstacle := mkObstacle (ex_square x y) (ex_point x y) (d_of_Z 4).
Definition ex_index (l : list Obstacle) : ObstacleIndex ex_geo := mkObstacleIndex ex_geo [] l (obstacle_values ex_geo l).
Definition ex_classifier : LinkClassifier ex_geo :=
  mkClassifier ex_geo (ex_index [ex_obstacle 10 0]) (ex_index []) (vehicle_initialize ex_geo d_zero) 0 0 0 0.
Definition ex_coord (x y : Z) : Coord := mkCoord (d_of_Z x) (d_of_Z y) (d_of_Z 1).
Definition ex_coord_distance (a b : Coord) : double := ex_distance (ground a) (ground b).
Definition ex_loss (n : Z) (a b : Coord) : res double := Ok (d_lit 1 n).
Definition ex_path_loss (s : option SmallScaleVariation) : PathLoss ex_geo :=
  mkPathLoss ex_geo (ex_loss 2) (ex_loss 4) (ex_loss 8) (ex_loss 16) ex_classifier s
    (d_of_Z 500) (d_of_Z 300) (d_of_Z 600) (d_of_Z 400).
Definition ex_normal (n : nat) (mean deviation : double) : double := mean.

Lemma path_loss_by_class_witness :
  computePathLoss ex_geo ex_normal (fun x => d_of_Z 1) ex_coord_distance (ex_index []) (vehicle_initialize ex_geo d_zero)
    (ex_coord 0 0) (ex_coord 20 0) (ex_path_loss None) =
  Ok (d_lit 1 4, with_state ex_geo (count_link ex_geo NLOSb ex_classifier) None (ex_path_loss None)).
Proof.
  pose proof (path_loss_by_class ex_geo ex_normal (fun x => d_of_Z 1) ex_coord_distance (ex_index [])
    (vehicle_initialize ex_geo d_zero) (ex_coord 0 0) (ex_coord 20 0) (ex_path_loss None)) as H.
  cbv zeta in H.
  assert (link_class ex_geo (m_classifier ex_geo (ex_path_loss None)) (ground (ex_coord 0 0)) (ground (ex_coord 20 0)) = NLOSb)
    as Hl by (vm_compute; reflexivity).
  rewrite Hl in H. apply H; clear H.
  - split; [reflexivity|reflexivity|split; [reflexivity|apply om_wf_nil|reflexivity|reflexivity]].
  - reflexivity.
  - split; [reflexivity|apply om_wf_nil|reflexivity|reflexivity].
  - vm_compute. reflexivity.
Defined.

#[local] Instance ex_mapper : ModuleMapper BasicModuleMapper := basic_mapper ex_uniform.
Definition ex_net (_ : nat) : res (list (double * double * double)) :=
  Ok [(d_zero, d_zero, d_zero); (d_of_Z 100, d_of_Z 80, d_zero)].
Definition ex_receive (events : list node_event) : res (VehicleIndex ex_geo) :=
  receive_log ex_geo (fun _ => ex_api 1 [] [] [] []) ex_net (fun i _ => (d_of_Z (Z.of_nat i), d_zero)) (fun _ _ => d_of_Z 90)
    events (vehicle_initialize ex_geo (d_lit 1 100)).
Lemma ex_nodes_managed : managed ex_has_sink basic_createModule ex_nodes1.
Proof.
  apply managed_refresh. apply (managed_step _ _ ex_dbl (ex_api 1 [] [] [] []) (SIMTIME_S 1) ex_nodes0).
  - by apply managed_start.
  - vm_compute. reflexivity.
Qed.
Lemma ex_received : is_ok (ex_receive (node_events ex_nodes2)) = true.
Proof. vm_compute. reflexivity. Qed.
Lemma ex_stepped : @traciStep BasicModuleMapper _ (basic_manager ex_has_sink basic_createModule) ex_dbl
  (ex_api 2 [] [] [] []) (SIMTIME_S 2) ex_nodes1 = Ok ex_nodes2.
Proof. vm_compute. reflexivity. Qed.
Definition ex_followed (r : res (VehicleIndex ex_geo)) : Prop :=
  match r with
  | Ok index =>
      (forall id, id ∈ om_keys (mVehicles ex_geo index) <-> id ∈ om_keys (m_vehicles ex_nodes2)) /\
      vehicle_fresh ex_geo index
  | Fail _ => False
  end.
Lemma index_follows_traffic_witness : ex_followed (ex_receive (node_events ex_nodes2)).
Proof.
  pose proof (index_follows_traffic ex_geo (fun _ => ex_api 1 [] [] [] []) ex_net (fun i _ => (d_of_Z (Z.of_nat i), d_zero))
    (fun _ _ => d_of_Z 90) ex_has_sink basic_createModule ex_dbl (ex_api 2 [] [] [] []) (SIMTIME_S 2) (d_lit 1 100)
    ex_nodes1 ex_nodes2 basic_create_ok ex_nodes_managed ex_stepped) as H.
  generalize ex_received. revert H. unfold ex_receive, ex_followed.
  generalize (receive_log ex_geo (fun _ => ex_api 1 [] [] [] []) ex_net (fun i _ => (d_of_Z (Z.of_nat i), d_zero))
    (fun _ _ => d_of_Z 90) (node_events ex_nodes2) (vehicle_initialize ex_geo (d_lit 1 100))) as r.
  intros [index|f] H Hok; [|discriminate Hok]. destruct H as (Hk & Hf & _). exact (conj Hk Hf).
Defined.

(** ** Behaviours at the edges *)
(** The box around the ellipse is too small: it leaves out what lies inside the ellipse beside
    the direct line. *)
Example ellipse_box_too_small :
  in_ellipse ex_geo (ex_point 0 0) (ex_point 0 8) (d_of_Z 10) (getCentroid (ex_obstacle 3 4)) = true /\
  obstaclesEllipse ex_geo (ex_index [ex_obstacle 3 4]) (ex_point 0 0) (ex_point 0 8) (d_of_Z 10) = Ok [].
Proof. split; vm_compute; reflexivity. Qed.
(** The range for links through foliage is not considered. *)
Example range_without_foliage :
  dltb (computeRange ex_geo (ex_path_loss None)) (m_range_nlos_f ex_geo (ex_path_loss None)) = true.
Proof. vm_compute. reflexivity. Qed.
(** A vehicle removed since the tree was built is still found in it: the member that is to
    tell is not set. *)
Example removed_vehicle_dangles :
  match ex_receive [AddVehicleSignal "a"; UpdateNodeSignal 1; RemoveVehicleSignal "a"] with
  | Ok index => mRtreeTainted ex_geo index = false /\
      vehicle_anyBlockage ex_geo index (ex_point 0 0) (ex_point 100 80) = Fail (Undefined "iterator of an erased vehicle")
  | Fail _ => False
  end.
Proof. vm_compute. split; reflexivity. Qed.
(** Links through foliage have no deviation of their own. *)
Lemma foliage_without_variation s : deviations NLOSf s = (d_zero, d_zero).
Proof. done. Qed.
