(* ===== verification/Gemv2Vehicles.v ===== *)
(** * Diffraction by vehicles (GEMV2)

    The loss model for links that vehicles obstruct ([inet/gemv2/NLOSv.cc]): obstacles on
    the way over the vehicles and around them, the choice of main and secondary obstacles,
    and the attenuation of the paths.  An iterator into a list of obstacles is a pair of its
    position and the obstacle.  The decimal logarithm and INET's conversion of decibels are
    parameters. *)

From S2P Require Import Prelude OMap Float64 VehicleData Gemv2Index.

(** ** Obstacles and paths *)
Record DiffractionObstacle := mkDiff { diff_d : double; diff_h : double }.
Record DiffractionPath := mkPath { attenuation : double; path_d : double }.
#[export] Instance DiffractionObstacle_eq_dec : EqDecision DiffractionObstacle.
Proof. solve_decision. Defined.
Abbreviation iterator := (nat * DiffractionObstacle)%type (only parsing).

(** ** Main and secondary obstacles *)
Definition slope (a b : DiffractionObstacle) : double := ddiv (dsub (diff_h b) (diff_h a)) (dsub (diff_d b) (diff_d a)).
Fixpoint steepest (b : DiffractionObstacle) (l : list iterator) (mainIterator : option iterator) (mainAngle : double) :
    option iterator :=
  match l with
  | [] => mainIterator
  | it :: l =>
      let angle := slope b it.2 in
      if dltb mainAngle angle then steepest b l (Some it) angle else steepest b l mainIterator mainAngle
  end.
(** From [begin], whose obstacle is the first of the list, to the end. *)
Definition findMainObstacle (l : list iterator) : option iterator :=
  match l with [] => None | b :: l => steepest b.2 l None d_neg_inf end.

Definition iterators (obs : list DiffractionObstacle) : list iterator := imap (fun i o => (i, o)) obs.
(** Every turn moves towards the end. *)
Fixpoint main_loop (fuel : nat) (all : list iterator) (it : nat) : list iterator :=
  match fuel with
  | O => []
  | S f =>
      match findMainObstacle (drop it all) with
      | Some c => c :: main_loop f all c.1
      | None => []
      end
  end.
Definition main_obstacles (obs : list DiffractionObstacle) : list iterator :=
  take 1 (iterators obs) ++ main_loop (length obs) (iterators obs) 0.

Fixpoint smallest_gap (gap : DiffractionObstacle -> double) (l : list DiffractionObstacle)
    (secIterator : DiffractionObstacle) (secHeightGap : double) : DiffractionObstacle :=
  match l with
  | [] => secIterator
  | it :: l =>
      let heightGap := gap it in
      if dltb heightGap secHeightGap then smallest_gap gap l it heightGap else smallest_gap gap l secIterator secHeightGap
  end.
Definition findSecondaryObstacle (first last : DiffractionObstacle) (between : list DiffractionObstacle) :
    DiffractionObstacle :=
  let distFirstLast := dsub (diff_d last) (diff_d first) in
  let heightFirstLast := dsub (diff_h last) (diff_h first) in
  let offset := dsub (dmul (diff_h first) (diff_d last)) (dmul (diff_d first) (diff_h last)) in
  smallest_gap (fun it => dsub (ddiv (dadd (dmul (diff_d it) heightFirstLast) offset) distFirstLast) (diff_h it))
    between last d_inf.

Definition between (obs : list DiffractionObstacle) (i j : nat) : list DiffractionObstacle := take (j - i - 1) (drop (S i) obs).
(** The secondary obstacle between two main obstacles, with them. *)
Definition secondary (obs : list DiffractionObstacle) (a b : iterator) :
    list (DiffractionObstacle * DiffractionObstacle * DiffractionObstacle) :=
  match between obs a.1 b.1 with
  | [] => []
  | [o] => [(a.2, o, b.2)]
  | l => [(a.2, findSecondaryObstacle a.2 b.2 l, b.2)]
  end.

Section NLOSv.
Variable log10 : double -> double.
Variable dB2fraction : double -> double.

Definition computeSimpleKnifeEdge (heightTx heightRx heightObs distTxRx distTxObs lambda : double) : double :=
  let distRxObs := dsub distTxRx distTxObs in
  let obsHeightTxRxLine := dadd (dmul (ddiv (dsub heightRx heightTx) distTxRx) distTxObs) heightTx in
  let h := dsub heightObs obsHeightTxRxLine in
  let r := d_sqrt (ddiv (dmul (dmul lambda distTxObs) distRxObs) distTxRx) in
  let v := dmul (d_sqrt (d_of_Z 2)) (ddiv h r) in
  if dltb (d_lit (-78) 100) v
  then dadd (d_lit 69 10) (dmul (d_of_Z 20)
         (log10 (dsub (dadd (d_sqrt (dadd (squared (dsub v (d_lit 1 10))) (d_of_Z 1))) v) (d_lit 1 10))))
  else d_zero.

Fixpoint pairs {A} (l : list A) : list (A * A) :=
  match l with
  | a :: (b :: _) as t => (a, b) :: pairs t
  | _ => []
  end.
Fixpoint main_attenuation (lambda : double) (mains : list DiffractionObstacle) (dists : list double) (acc : double) : double :=
  match mains, dists with
  | a :: ((o :: b :: _) as mains'), d0 :: ((d1 :: _) as dists') =>
      main_attenuation lambda mains' dists'
        (dadd acc (computeSimpleKnifeEdge (diff_h a) (diff_h b) (diff_h o) (dadd d0 d1) d0 lambda))
  | _, _ => acc
  end.
Definition secondary_attenuation (lambda : double)
    (secs : list (DiffractionObstacle * DiffractionObstacle * DiffractionObstacle)) : double :=
  foldl (fun acc '(tx, o, rx) =>
    dadd acc (computeSimpleKnifeEdge (diff_h tx) (diff_h rx) (diff_h o) (dsub (diff_d rx) (diff_d tx))
      (dsub (diff_d o) (diff_d tx)) lambda)) d_zero secs.
(** The correction factor of ITU-R P.526. *)
Definition correction (front back : DiffractionObstacle) (dists : list double) (first last : double) : double :=
  let C := foldl dmul (dsub (diff_d back) (diff_d front)) dists in
  let pairwiseDistProduct := foldl (fun acc '(a, b) => dmul acc (dadd a b)) (d_of_Z 1) (pairs dists) in
  ddiv C (dmul (dmul first last) pairwiseDistProduct).

(** With less than two main obstacles there are no distances to take the first and last of. *)
Definition computeMultipleKnifeEdge (obs : list DiffractionObstacle) (lambda : double) : res DiffractionPath :=
  assert_ "obs.size() > 2" (Nat.ltb 2 (length obs)) ;;
  let mainObs := main_obstacles obs in
  assert_ "mainObs.size() <= obs.size()" (Nat.leb (length mainObs) (length obs)) ;;
  let steps := pairs mainObs in
  let dists := (fun p : iterator * iterator => dsub (diff_d p.2.2) (diff_d p.1.2)) <$> steps in
  let d := foldl (fun acc (p : iterator * iterator) =>
             dadd acc (d_sqrt (dadd (squared (dsub (diff_d p.2.2) (diff_d p.1.2)))
                                    (squared (dsub (diff_h p.2.2) (diff_h p.1.2)))))) d_zero steps in
  let secs := concat ((fun p : iterator * iterator => secondary obs p.1 p.2) <$> steps) in
  match head mainObs, last mainObs, head dists, last dists with
  | Some front, Some back, Some d_first, Some d_last =>
      let attMainObs := main_attenuation lambda mainObs.*2 dists d_zero in
      let attSecObs := secondary_attenuation lambda secs in
      let C := correction front.2 back.2 dists d_first d_last in
      let att := ddiv (dB2fraction (dadd attMainObs attSecObs)) C in
      assert_ "path.attenuation >= 1.0" (dleb (d_of_Z 1) att) ;;
      Ok (mkPath att d)
  | _, _, _, _ => Fail (Undefined "no main obstacle")
  end.

(** ** Obstacles on the three ways *)
(** [std::list::sort] by the distance, which is stable. *)
Fixpoint insert_by_distance (o : DiffractionObstacle) (l : list DiffractionObstacle) : list DiffractionObstacle :=
  match l with
  | [] => [o]
  | x :: l' => if dltb (diff_d o) (diff_d x) then o :: l else x :: insert_by_distance o l'
  end.
Definition sort_by_distance (l : list DiffractionObstacle) : list DiffractionObstacle :=
  foldl (fun acc o => insert_by_distance o acc) [] l.

(** Where the perpendicular through a point meets the line, as a fraction of it. *)
Definition along (vx vy : double) (tx : Coord) (p : Position) : double :=
  ddiv (dsub (dadd (dsub (dmul (pos_x p) vx) (dmul vy (coord_y tx))) (dmul vy (pos_y p))) (dmul (coord_x tx) vx))
    (dadd (squared vx) (squared vy)).
Definition beyond (k : double) : bool := dltb k d_zero || dltb (d_of_Z 1) k.
Definition top_obstacle (tx rx : Coord) (v : Vehicle) : option DiffractionObstacle :=
  let vx := dsub (coord_x rx) (coord_x tx) in
  let vy := dsub (coord_y rx) (coord_y tx) in
  let k := along vx vy tx (getMidpoint v) in
  if beyond k then None else Some (mkDiff (dmul k (d_sqrt (dadd (squared vx) (squared vy)))) (getHeight v)).
Definition buildTopObstacles (vehicles : list Vehicle) (tx rx : Coord) : list DiffractionObstacle :=
  sort_by_distance (omap (top_obstacle tx rx) vehicles).

Record Intersection := mkIntersection { int_k : double; int_l : double }.
Definition intersection (vx vy : double) (tx : Coord) (p : Position) : res Intersection :=
  let k := along vx vy tx p in
  if negb (deqb vx d_zero)
  then Ok (mkIntersection k (ddiv (dsub (dadd (coord_y tx) (dmul k vy)) (pos_y p)) vx))
  else if negb (deqb vy d_zero)
  then Ok (mkIntersection k (ddiv (dsub (dadd (coord_x tx) (dmul k vx)) (pos_x p)) (dopp vy)))
  else Fail (RuntimeError "vx and vy are zero").
Definition farther_left (m current : Intersection) : Intersection := if dltb (int_l m) (int_l current) then current else m.
Definition farther_right (m current : Intersection) : Intersection := if dltb (int_l current) (int_l m) then current else m.
Definition outline_step (vx vy : double) (tx : Coord) (m : Intersection * Intersection) (p : Position) :
    res (Intersection * Intersection) :=
  current ← intersection vx vy tx p;
  let '(leftmost, rightmost) := m in
  Ok (if beyond (int_k current) then m
      else if dltb d_zero (int_l current) then (farther_left leftmost current, rightmost)
      else if dltb (int_l current) d_zero then (leftmost, farther_right rightmost current)
      else (farther_left leftmost current, farther_right rightmost current)).
Definition outline_extremes (vx vy : double) (tx : Coord) (o : list Position) : res (Intersection * Intersection) :=
  res_fold (outline_step vx vy tx) o (mkIntersection d_nan d_neg_inf, mkIntersection d_nan d_inf).

Record SideObstacles := mkSides { left : list DiffractionObstacle; right : list DiffractionObstacle }.
Definition buildSideObstacles (vehicles : list Vehicle) (tx rx : Coord) : res SideObstacles :=
  let vx := dsub (coord_x rx) (coord_x tx) in
  let vy := dsub (coord_y rx) (coord_y tx) in
  let vl := d_sqrt (dadd (squared vx) (squared vy)) in
  sides ← res_fold (fun s v =>
    m ← outline_extremes vx vy tx (getWorldOutline v);
    let '(leftmost, rightmost) := m : Intersection * Intersection in
    Ok (mkSides
      (left s ++ if dltb d_neg_inf (int_l leftmost)
                 then [mkDiff (dmul (int_k leftmost) vl) (dmul (int_l leftmost) vl)] else [])
      (right s ++ if dltb (int_l rightmost) d_inf
                  then [mkDiff (dmul (int_k rightmost) vl) (dmul (dopp (int_l rightmost)) vl)] else [])))
    vehicles (mkSides [] []);
  Ok (mkSides (sort_by_distance (left sides)) (sort_by_distance (right sides))).

(** ** Loss *)
Definition less_attenuated (a b : DiffractionPath) : DiffractionPath := if dltb (attenuation b) (attenuation a) then b else a.
Definition combineDiffractionLoss (a b c : DiffractionPath) : double :=
  ddiv (d_of_Z 1) (attenuation (less_attenuated (less_attenuated a b) c)).

Section Link.
Variable G : Geo.
Variable mVehicleIndex : VehicleIndex G.
Definition computeVehiclePathLoss (tx rx : Coord) (lambda : double) : res double :=
  let distTxRx := d_sqrt (dadd (squared (dsub (coord_x rx) (coord_x tx))) (squared (dsub (coord_y rx) (coord_y tx)))) in
  vehicles ← getObstructingVehicles G mVehicleIndex (ground tx) (ground rx);
  let obsTop := mkDiff d_zero (coord_z tx) :: buildTopObstacles vehicles tx rx ++ [mkDiff distTxRx (coord_z rx)] in
  obsSides ← buildSideObstacles vehicles tx rx;
  let side l := mkDiff d_zero d_zero :: l ++ [mkDiff distTxRx d_zero] in
  top ← computeMultipleKnifeEdge obsTop lambda;
  left ← computeMultipleKnifeEdge (side (left obsSides)) lambda;
  right ← computeMultipleKnifeEdge (side (right obsSides)) lambda;
  Ok (combineDiffractionLoss top left right).

(** [Coord::distance] is INET's. *)
Variable coord_distance : Coord -> Coord -> double.
Definition vehicles_computePathLoss (propagationSpeed carrierFrequency : double) (tx rx : Coord) : res double :=
  let waveLength := ddiv propagationSpeed carrierFrequency in
  let distance := coord_distance tx rx in
  loss ← (if negb (deqb distance d_zero)
          then
            attenuation ← computeVehiclePathLoss tx rx waveLength;
            Ok (dmul (ddiv (squared waveLength) (dmul (dmul (d_of_Z 16) (squared d_pi)) (squared distance))) attenuation)
          else Ok (d_of_Z 1));
  assert_ "loss >= 0.0 && loss <= 1.0" (dleb d_zero loss && dleb loss (d_of_Z 1)) ;;
  Ok loss.
End Link.
End NLOSv.

(** ** The chain of main obstacles *)
(** The main obstacle after the [i]-th is the first of those seen at the steepest angle;
    an angle that is not above minus infinity, which a zero distance gives, is passed over. *)
Definition next_main (obs : list DiffractionObstacle) (i j : nat) : Prop :=
  exists a b, obs !! i = Some a /\ obs !! j = Some b /\ (i < j)%nat /\ dltb d_neg_inf (slope a b) = true /\
    (forall k o, (i < k < j)%nat -> obs !! k = Some o ->
       dltb (slope a o) (slope a b) = true \/ dltb d_neg_inf (slope a o) = false) /\
    (forall k o, (j < k)%nat -> obs !! k = Some o -> dltb (slope a b) (slope a o) = false).
Definition no_main (obs : list DiffractionObstacle) (i : nat) : Prop :=
  forall a k o, obs !! i = Some a -> (i < k)%nat -> obs !! k = Some o -> dltb d_neg_inf (slope a o) = false.
Fixpoint chain (R : nat -> nat -> Prop) (i : nat) (l : list nat) : Prop :=
  match l with [] => True | j :: l => R i j /\ chain R j l end.

Lemma last_cons_default {A} (x d : A) (l : list A) : List.last (x :: l) d = List.last l x.
Proof. revert x d. induction l as [|y l IH]; intros x d; [done|]. change (List.last (x :: y :: l) d) with (List.last (y :: l) d). by rewrite !IH. Qed.

Lemma steepest_split b l : forall mi ma,
  (steepest b l mi ma = mi /\ Forall (fun x => dltb ma (slope b x.2) = false) l) \/
  (exists l1 x l2, l = l1 ++ x :: l2 /\ steepest b l mi ma = Some x /\ dltb ma (slope b x.2) = true /\
     Forall (fun y => dltb (slope b y.2) (slope b x.2) = true \/ dltb ma (slope b y.2) = false) l1 /\
     Forall (fun y => dltb (slope b x.2) (slope b y.2) = false) l2).
Proof.
  induction l as [|x l IH]; intros mi ma; cbn [steepest]; [by left|]. cbv zeta.
  destruct (dltb ma (slope b x.2)) eqn:Hx.
  - right. destruct (IH (Some x) (slope b x.2)) as [[-> Hl]|(l1 & y & l2 & -> & -> & Hy & H1 & H2)].
    + by exists [], x, l.
    + exists (x :: l1), y, l2. split_and!; try done; [by apply (dltb_trans _ (slope b x.2))|].
      constructor; [by left|]. eapply Forall_impl; [exact H1|]. intros z [Hz|Hz]; [by left|].
      destruct (d_is_nan (slope b z.2)) eqn:Hn.
      * right. apply not_true_iff_false. intros [_ H]%dltb_not_nan. congruence.
      * left. by apply (dltb_false_trans _ (slope b x.2)).
  - destruct (IH mi ma) as [[-> Hl]|(l1 & y & l2 & -> & -> & Hy & H1 & H2)]; [left; split; [done|by constructor]|].
    right. exists (x :: l1), y, l2. split_and!; try done. constructor; [by right|done].
Qed.

Lemma iterators_lookup obs k : iterators obs !! k = (fun o => (k, o)) <$> obs !! k.
Proof. by unfold iterators; rewrite list_lookup_imap. Qed.
Lemma iterators_in obs i it : it ∈ drop i (iterators obs) -> (i <= it.1)%nat /\ obs !! it.1 = Some it.2.
Proof.
  rewrite list_elem_of_lookup. intros [k Hk]. rewrite lookup_drop, iterators_lookup in Hk.
  destruct (obs !! (i + k)%nat) as [o|] eqn:Ho; [|done]. injection Hk as <-. split; [cbn; lia|done].
Qed.

Lemma findMainObstacle_spec obs i :
  match findMainObstacle (drop i (iterators obs)) with
  | Some c => obs !! c.1 = Some c.2 /\ next_main obs i c.1
  | None => no_main obs i
  end.
Proof.
  unfold findMainObstacle. destruct (obs !! i) as [a|] eqn:Ha; cycle 1.
  { rewrite drop_ge; [intros a k o Hi; congruence|]. unfold iterators. rewrite length_imap.
    by apply lookup_ge_None. }
  rewrite (drop_S _ (i, a)) by by rewrite iterators_lookup, Ha. cbn [snd].
  assert (Hin : forall k o, (i < k)%nat -> obs !! k = Some o -> drop (S i) (iterators obs) !! (k - S i)%nat = Some (k, o)).
  { intros k o Hk Ho. rewrite lookup_drop, iterators_lookup. replace (S i + (k - S i))%nat with k by lia. by rewrite Ho. }
  destruct (steepest_split a (drop (S i) (iterators obs)) None d_neg_inf) as [[-> Hl]|(l1 & x & l2 & Hl & -> & Hx & H1 & H2)].
  - intros a' k o Ha' Hk Ho. replace a' with a by congruence. rewrite Forall_forall in Hl.
    apply (Hl (k, o)), list_elem_of_lookup. by exists (k - S i)%nat; apply Hin.
  - assert (Hn : drop (S i) (iterators obs) !! length l1 = Some x) by (rewrite Hl; by apply list_lookup_middle).
    rewrite lookup_drop, iterators_lookup in Hn. destruct (obs !! (S i + length l1)%nat) as [b|] eqn:Hb; [|done].
    injection Hn as <-. cbn [fst snd] in *. split; [done|].
    exists a, b. split_and!; try done; try lia.
    + intros k o Hk Ho. pose proof (Hin k o ltac:(lia) Ho) as Hk'. rewrite Hl, lookup_app_l in Hk' by lia.
      rewrite Forall_forall in H1. apply (H1 (k, o)), list_elem_of_lookup. by exists (k - S i)%nat.
    + intros k o Hk Ho. pose proof (Hin k o ltac:(lia) Ho) as Hk'. rewrite Hl, lookup_app_r in Hk' by lia.
      rewrite Forall_forall in H2. apply (H2 (k, o)), list_elem_of_lookup. exists (k - S i - length l1 - 1)%nat.
      replace (k - S i - length l1)%nat with (S (k - S i - length l1 - 1)) in Hk' by lia. done.
Qed.

(** Enough fuel for the way from an obstacle to the end. *)
Lemma main_loop_spec obs fuel : forall i, (length obs <= fuel + i)%nat ->
  let l := main_loop fuel (iterators obs) i in
  chain (next_main obs) i l.*1 /\ no_main obs (List.last l.*1 i) /\ Forall (fun c => obs !! c.1 = Some c.2) l.
Proof.
  induction fuel as [|f IH]; intros i Hi; cbv zeta; cbn [main_loop].
  { split_and!; [done| |done]. intros a k o Ha. cbn in Ha. apply lookup_lt_Some in Ha. lia. }
  pose proof (findMainObstacle_spec obs i) as Hm. destruct (findMainObstacle _) as [c|].
  - destruct Hm as [Hc Hn]. assert (i < c.1)%nat by (destruct Hn; naive_solver).
    destruct (IH c.1) as (H1 & H2 & H3); [lia|]. cbn [fmap list_fmap chain]. split_and!; [done|done| |by constructor].
    by rewrite last_cons_default.
  - done.
Qed.

Lemma next_main_unique obs i j j' : next_main obs i j -> next_main obs i j' -> j = j'.
Proof.
  assert (Hlt : forall j j', next_main obs i j -> next_main obs i j' -> (j < j')%nat -> False).
  { intros j1 j2 (a & b & Ha & Hb & Hij & Hs & _ & Hafter) (a' & b' & Ha' & Hb' & _ & _ & Hbefore & _) Hlt.
    simplify_eq. specialize (Hafter j2 b' Hlt Hb'). destruct (Hbefore j1 b (conj Hij Hlt) Hb); congruence. }
  intros H H'. destruct (Nat.lt_trichotomy j j') as [?|[?|?]]; [|done|]; exfalso; eauto.
Qed.
Lemma next_main_not_no_main obs i j : next_main obs i j -> no_main obs i -> False.
Proof. intros (a & b & Ha & Hb & Hij & Hs & _) H. specialize (H a j b Ha Hij Hb). congruence. Qed.
Lemma chain_unique obs l : forall i l', chain (next_main obs) i l -> no_main obs (List.last l i) ->
  chain (next_main obs) i l' -> no_main obs (List.last l' i) -> l = l'.
Proof.
  induction l as [|j l IH]; intros i [|j' l'] H Hn H' Hn'; [done| | |];
    cbn [chain] in *; rewrite ?last_cons_default in *.
  - destruct H' as [H' _]. by destruct (next_main_not_no_main _ _ _ H' Hn).
  - destruct H as [H _]. by destruct (next_main_not_no_main _ _ _ H Hn').
  - destruct H as [H1 H2], H' as [H1' H2']. rewrite (next_main_unique _ _ _ _ H1 H1') in *.
    f_equal. by apply (IH j').
Qed.
Lemma chain_length obs l : forall i, (i < length obs)%nat -> chain (next_main obs) i l -> (i + length l < length obs)%nat.
Proof.
  induction l as [|j l IH]; intros i Hi H; cbn [chain length] in *; [lia|]. destruct H as [(a & b & _ & Hb & Hij & _) H].
  apply lookup_lt_Some in Hb. specialize (IH j Hb H). lia.
Qed.
Lemma chain_last_lt obs l : forall i, (i < length obs)%nat -> chain (next_main obs) i l -> (List.last l i < length obs)%nat.
Proof.
  induction l as [|j l IH]; intros i Hi H; [done|]. rewrite last_cons_default. destruct H as [(a & b & _ & Hb & _) H].
  apply IH; [by apply lookup_lt_Some in Hb|done].
Qed.
Lemma main_obstacles_cons tx obs :
  main_obstacles (tx :: obs) = (0%nat, tx) :: main_loop (length (tx :: obs)) (iterators (tx :: obs)) 0.
Proof. reflexivity. Qed.

(** Where every obstacle sees the receiver, the receiver is the last. *)
Lemma last_is_receiver front rx i : Forall (fun a => dltb d_neg_inf (slope a rx) = true) front ->
  (i < length (front ++ [rx]))%nat -> no_main (front ++ [rx]) i -> i = length front.
Proof.
  rewrite length_app. cbn [length]. intros Hf Hi Hn. destruct (decide (i < length front)%nat) as [Hlt|]; [|lia].
  destruct (lookup_lt_is_Some_2 front i Hlt) as [a Ha]. exfalso.
  specialize (Hn a (length front) rx). rewrite lookup_app_l in Hn by done.
  specialize (Hn Ha Hlt (list_lookup_middle _ _ _ _ eq_refl)).
  rewrite Forall_forall in Hf. rewrite (Hf a) in Hn; [done|]. apply list_elem_of_lookup. by exists i.
Qed.

Section Knife_edge.
Variable log10 : double -> double.
Variable dB2fraction : double -> double.

(** What is computed from at least two main obstacles. *)
Lemma knife_edge_result obs lambda : (2 < length obs)%nat -> (2 <= length (main_obstacles obs) <= length obs)%nat ->
  (exists path, computeMultipleKnifeEdge log10 dB2fraction obs lambda = Ok path) \/
  computeMultipleKnifeEdge log10 dB2fraction obs lambda = Fail (AssertFailed "path.attenuation >= 1.0").
Proof.
  intros Hl [Hm Hm']. unfold computeMultipleKnifeEdge.
  rewrite (proj2 (Nat.ltb_lt _ _)) by done. cbn [assert_ res_bind]. cbv zeta.
  rewrite (proj2 (Nat.leb_le _ _)) by done. cbn [assert_ res_bind].
  destruct (main_obstacles obs) as [|c0 [|c1 mains]]; cbn [length] in Hm; try lia. clear Hl Hm Hm'.
  cbn [pairs fmap list_fmap head]. rewrite !last_cons.
  destruct (last mains); destruct (last (_ <$> match mains with [] => [] | b :: _ => _ end));
    destruct (dleb _ _); cbn; eauto.
Qed.

(** [C25] The main obstacles of a path are exactly the chain that leads from the transmitter
    along the steepest views: it ends at the receiver when every obstacle sees it, the loop
    that follows it ends, the list is the only one with these properties, and the
    attenuation is computed without any access out of range; only the last assertion, that
    the path is not amplified, can fail. *)
Theorem main_obstacles_hull tx front rx lambda (obs := tx :: front ++ [rx]) :
  front <> [] -> Forall (fun a => dltb d_neg_inf (slope a rx) = true) (tx :: front) ->
  exists mains, (main_obstacles obs).*1 = 0%nat :: mains /\
    Forall (fun c => obs !! c.1 = Some c.2) (main_obstacles obs) /\
    chain (next_main obs) 0 mains /\ List.last mains 0%nat = S (length front) /\
    (forall mains', chain (next_main obs) 0 mains' -> no_main obs (List.last mains' 0%nat) -> mains' = mains) /\
    ((exists path, computeMultipleKnifeEdge log10 dB2fraction obs lambda = Ok path) \/
     computeMultipleKnifeEdge log10 dB2fraction obs lambda = Fail (AssertFailed "path.attenuation >= 1.0")).
Proof.
  intros Hne Hf. destruct (main_loop_spec obs (length obs) 0) as (Hc & Hn & Hl); [lia|].
  pose proof (main_obstacles_cons tx (front ++ [rx])) as Hm. fold obs in Hm.
  set (rest := main_loop (length obs) (iterators obs) 0) in *.
  assert (H0 : (0 < length obs)%nat) by (subst obs; cbn; lia).
  pose proof (last_is_receiver (tx :: front) rx _ Hf (chain_last_lt _ _ _ H0 Hc) Hn) as Hlast.
  exists rest.*1. rewrite Hm. split_and!; try done; [by constructor|by intros mains' ??; symmetry; apply (chain_unique obs _ 0)|].
  apply knife_edge_result; [subst obs; cbn; rewrite length_app; destruct front; cbn; [done|lia]|].
  rewrite Hm. cbn [length]. pose proof (chain_length obs _ _ H0 Hc) as Hlen. rewrite length_fmap in Hlen.
  split; [|lia]. destruct rest; [|cbn; lia]. cbn in Hlast. lia.
Qed.
End Knife_edge.

(** ** The sides of vehicles *)
Definition not_farther (a b : DiffractionObstacle) : Prop := dltb (diff_d b) (diff_d a) = false.
Lemma insert_by_distance_perm o l : insert_by_distance o l ≡ₚ o :: l.
Proof. induction l as [|x l IH]; cbn; [done|]. case_match; [done|]. rewrite IH. by constructor. Qed.
Lemma insert_by_distance_sorted o l : Sorted not_farther l -> Sorted not_farther (insert_by_distance o l).
Proof.
  induction l as [|x l IH]; intros Hl; cbn; [by repeat constructor|].
  destruct (dltb (diff_d o) (diff_d x)) eqn:Ho.
  - constructor; [done|]. constructor. unfold not_farther. apply dltb_dleb_antisym in Ho.
    apply not_true_iff_false. intros H%dltb_dleb. congruence.
  - inversion_clear Hl as [|?? Hs Hx]. constructor; [by apply IH|].
    destruct l as [|y l]; cbn; [by constructor|]. case_match; constructor; [done|by inversion Hx].
Qed.
Lemma sort_by_distance_spec l : sort_by_distance l ≡ₚ l /\ Sorted not_farther (sort_by_distance l).
Proof.
  unfold sort_by_distance. cut (forall acc, Sorted not_farther acc ->
    foldl (fun acc o => insert_by_distance o acc) acc l ≡ₚ l ++ acc /\
    Sorted not_farther (foldl (fun acc o => insert_by_distance o acc) acc l)).
  { intros H. destruct (H [] (Sorted_nil _)) as [H1 H2]. by rewrite (right_id_L [] app) in H1. }
  induction l as [|x l IH]; intros acc Hacc; cbn; [done|].
  destruct (IH _ (insert_by_distance_sorted x acc Hacc)) as [H1 H2]. split; [|done].
  rewrite H1, insert_by_distance_perm. by rewrite Permutation_middle.
Qed.

(** The best of some candidates, where there is one. *)
Definition best (better : double -> double -> bool) (init : Intersection) (cand : Intersection -> Prop) (m : Intersection) :
    Prop :=
  (forall i, cand i -> better (int_l m) (int_l i) = false) /\ (m = init \/ cand m).
Definition less (a b : double) : bool := dltb a b.
Definition greater (a b : double) : bool := dltb b a.

Lemma best_same better init cand cand' m : (forall i, cand' i <-> cand i) -> best better init cand m ->
  best better init cand' m.
Proof. intros H [H1 H2]. split; [by intros i Hi%H; apply H1|]. rewrite H. done. Qed.
Lemma best_more better init (cand cand' : Intersection -> Prop) m c :
  (forall x, better x x = false) -> (forall x y z, better x y = true -> better y z = true -> better x z = true) ->
  (forall i, cand' i <-> cand i \/ i = c) -> best better init cand m ->
  best better init cand' (if better (int_l m) (int_l c) then c else m).
Proof.
  intros Hirr Htr H [H1 H2]. destruct (better (int_l m) (int_l c)) eqn:Hb; split; rewrite ?H; auto.
  - intros i [Hi| ->]%H; [|done]. apply not_true_iff_false. intros Hi'.
    pose proof (H1 i Hi) as H3. by rewrite (Htr _ _ _ Hb Hi') in H3.
  - by intros i [Hi| ->]%H; [apply H1|].
  - destruct H2; auto.
Qed.

(** The points of an outline beside the segment, those not to its right and not to its left. *)
Definition beside (vx vy : double) (tx : Coord) (o : list Position) (i : Intersection) : Prop :=
  exists p, p ∈ o /\ intersection vx vy tx p = Ok i /\ beyond (int_k i) = false.
Definition on_left vx vy tx o i := beside vx vy tx o i /\ dltb (int_l i) d_zero = false.
Definition on_right vx vy tx o i := beside vx vy tx o i /\ dltb d_zero (int_l i) = false.
Definition extremes (vx vy : double) (tx : Coord) (o : list Position) (m : Intersection * Intersection) : Prop :=
  best less (mkIntersection d_nan d_neg_inf) (on_left vx vy tx o) m.1 /\
  best greater (mkIntersection d_nan d_inf) (on_right vx vy tx o) m.2.

Lemma beside_snoc vx vy tx o p i j : intersection vx vy tx p = Ok i ->
  beside vx vy tx (o ++ [p]) j <-> beside vx vy tx o j \/ (j = i /\ beyond (int_k i) = false).
Proof.
  intros Hi. unfold beside. split.
  - intros (q & [Hq|Hq%list_elem_of_singleton]%elem_of_app & Hj & Hb); [left; exists q; auto|]. subst q. right. rewrite Hi in Hj. by apply Ok_inj in Hj as <-.
  - intros [(q & Hq & Hj & Hb)|[-> Hb]]; [exists q|exists p]; rewrite elem_of_app, ?list_elem_of_singleton; auto.
Qed.

Lemma outline_step_spec vx vy tx o m p i : intersection vx vy tx p = Ok i -> extremes vx vy tx o m ->
  exists m', outline_step vx vy tx m p = Ok m' /\ extremes vx vy tx (o ++ [p]) m'.
Proof.
  intros Hi [Hl Hr]. destruct m as [l r]. unfold outline_step. rewrite Hi. cbn [res_bind mbind].
  eexists. split; [reflexivity|].
  pose proof (fun j => beside_snoc vx vy tx o p i j Hi) as Hb. cbn [fst snd] in *.
  assert (Hleft : dltb (int_l i) d_zero = false -> beyond (int_k i) = false ->
            best less (mkIntersection d_nan d_neg_inf) (on_left vx vy tx (o ++ [p])) (farther_left l i)).
  { intros H0 Hk. apply (best_more less _ (on_left vx vy tx o)); [intros x; apply dltb_irrefl|unfold less; eauto using dltb_trans| |done].
    intros j. unfold on_left. rewrite Hb. naive_solver. }
  assert (Hright : dltb d_zero (int_l i) = false -> beyond (int_k i) = false ->
            best greater (mkIntersection d_nan d_inf) (on_right vx vy tx (o ++ [p])) (farther_right r i)).
  { intros H0 Hk. apply (best_more greater _ (on_right vx vy tx o)); [intros x; apply dltb_irrefl|unfold greater; eauto using dltb_trans| |done].
    intros j. unfold on_right. rewrite Hb. naive_solver. }
  assert (Hsame : (beyond (int_k i) = true \/ dltb (int_l i) d_zero = true ->
              best less (mkIntersection d_nan d_neg_inf) (on_left vx vy tx (o ++ [p])) l) /\
            (beyond (int_k i) = true \/ dltb d_zero (int_l i) = true ->
              best greater (mkIntersection d_nan d_inf) (on_right vx vy tx (o ++ [p])) r)).
  { split; intros H; (eapply best_same; [|eassumption]); intros j; unfold on_left, on_right; rewrite Hb;
      destruct H; intuition congruence. }
  destruct Hsame as [Hsl Hsr].
  destruct (beyond (int_k i)) eqn:Hk; [|destruct (dltb d_zero (int_l i)) eqn:H1; [|destruct (dltb (int_l i) d_zero) eqn:H2]];
    split; cbn [fst snd]; auto.
  apply Hleft; [|done]. apply not_true_iff_false. intros H2. pose proof (dltb_trans _ _ _ H1 H2) as H3. by rewrite dltb_irrefl in H3.
Qed.

Lemma intersection_total vx vy tx p : deqb vx d_zero && deqb vy d_zero = false -> exists i, intersection vx vy tx p = Ok i.
Proof. unfold intersection. destruct (deqb vx d_zero), (deqb vy d_zero); cbn; eauto; done. Qed.

Lemma outline_extremes_spec vx vy tx o : deqb vx d_zero && deqb vy d_zero = false ->
  exists m, outline_extremes vx vy tx o = Ok m /\ extremes vx vy tx o m.
Proof.
  intros Hv. unfold outline_extremes. induction o as [|p o IH] using rev_ind.
  - eexists. split; [reflexivity|]. split; (split; [|by left]); intros i [(q & Hq & _) _]; by apply not_elem_of_nil in Hq.
  - destruct IH as (m & Hm & He). destruct (intersection_total vx vy tx p Hv) as [i Hi].
    destruct (outline_step_spec _ _ _ _ _ _ _ Hi He) as (m' & Hm' & He'). exists m'. split; [|done].
    rewrite res_fold_app, Hm. cbn [res_bind mbind res_fold]. by rewrite Hm'.
Qed.

(** What a vehicle adds to the sides. *)
Definition left_obstacle (vl : double) (m : Intersection * Intersection) : option DiffractionObstacle :=
  if dltb d_neg_inf (int_l m.1) then Some (mkDiff (dmul (int_k m.1) vl) (dmul (int_l m.1) vl)) else None.
Definition right_obstacle (vl : double) (m : Intersection * Intersection) : option DiffractionObstacle :=
  if dltb (int_l m.2) d_inf then Some (mkDiff (dmul (int_k m.2) vl) (dmul (dopp (int_l m.2)) vl)) else None.

(** Beside a link between different positions every vehicle stands, on either side, at
    the outmost point of its outline among those that are not beyond the ends of the link:
    no such point of the outline is farther out; a vehicle without one is left out, and the
    obstacles of each side are in the order of their distance. *)
Theorem side_obstacles_outmost vehicles tx rx
    (vx := dsub (coord_x rx) (coord_x tx)) (vy := dsub (coord_y rx) (coord_y tx))
    (vl := d_sqrt (dadd (squared vx) (squared vy))) :
  deqb vx d_zero && deqb vy d_zero = false ->
  exists s ms, buildSideObstacles vehicles tx rx = Ok s /\
    Forall2 (fun v m => extremes vx vy tx (getWorldOutline v) m) vehicles ms /\
    left s ≡ₚ omap (left_obstacle vl) ms /\ Sorted not_farther (left s) /\
    right s ≡ₚ omap (right_obstacle vl) ms /\ Sorted not_farther (right s).
Proof.
  intros Hv. unfold buildSideObstacles. fold vx vy vl.
  match goal with |- context [res_fold ?f _ _] => set (step := f) end.
  assert (H : exists ms, Forall2 (fun v m => extremes vx vy tx (getWorldOutline v) m) vehicles ms /\
    res_fold step vehicles (mkSides [] []) = Ok (mkSides (omap (left_obstacle vl) ms) (omap (right_obstacle vl) ms))).
  { induction vehicles as [|v vs IH] using rev_ind; [by exists []|].
    destruct IH as (ms & Hms & Hs). destruct (outline_extremes_spec vx vy tx (getWorldOutline v) Hv) as (m & Hm & He).
    exists (ms ++ [m]). split; [apply Forall2_app; [done|]; constructor; [done|constructor]|].
    rewrite res_fold_app, Hs. cbn [res_bind mbind res_fold]. unfold step. rewrite Hm. destruct m as [l r].
    cbn [res_bind mbind]. rewrite !omap_app. cbn. unfold left_obstacle, right_obstacle. cbn [fst snd].
    by destruct (dltb d_neg_inf _), (dltb _ d_inf). }
  destruct H as (ms & Hms & ->). cbn [res_bind mbind]. eexists _, ms. split; [reflexivity|]. cbn [left right].
  split_and!; try done; apply sort_by_distance_spec.
Qed.

(** ** Concrete paths *)
Definition ex_diff (d h : Z) : DiffractionObstacle := mkDiff (d_of_Z d) (d_of_Z h).
Definition ex_tx := ex_diff 0 2.
Definition ex_front := [ex_diff 20 3; ex_diff 50 5; ex_diff 80 3].
Definition ex_rx := ex_diff 100 2.
(** Of the decimal logarithm and of the conversion of decibels only some number is needed. *)
Definition ex_log10 (x : double) : double := dsub x (d_of_Z 1).
Definition ex_fraction (x : double) : double := dadd x (d_of_Z 1).

Lemma main_obstacles_hull_witness :
  (main_obstacles (ex_tx :: ex_front ++ [ex_rx])).*1 = [0; 2; 4]%nat /\
  chain (next_main (ex_tx :: ex_front ++ [ex_rx])) 0 [2; 4]%nat.
Proof.
  destruct (main_obstacles_hull ex_log10 ex_fraction ex_tx ex_front ex_rx (d_lit 5 100)) as (mains & H & _ & Hc & _).
  - discriminate.
  - repeat constructor; vm_compute; reflexivity.
  - replace mains with [2; 4]%nat in *; [by split|].
    assert (E : (main_obstacles (ex_tx :: ex_front ++ [ex_rx])).*1 = [0; 2; 4]%nat) by (vm_compute; reflexivity).
    rewrite E in H. congruence.
Defined.

(** The chain ends at an obstacle right above the receiver, and nothing is attenuated. *)
Example receiver_not_reached :
  let obs := [ex_diff 0 1; ex_diff 50 3; ex_diff 50 1] in
  (main_obstacles obs).*1 = [0; 1]%nat /\
  attenuation <$> (match computeMultipleKnifeEdge ex_log10 ex_fraction obs (d_lit 5 100) with Ok p => Some p | _ => None end)
    = Some (d_of_Z 1).
Proof. vm_compute. split; reflexivity. Qed.

(** A vehicle across the link whose middle is behind the transmitter: without an obstacle
    on top the path is refused. *)
Definition ex_point (x y : Z) : Position := mkPosition (d_of_Z x) (d_of_Z y).
Definition ex_beside_vehicle (x : Z) : Vehicle :=
  mkVehicle (mkBoundary (d_zero, d_zero) (d_zero, d_zero)) (d_of_Z 2) d_zero (ex_point x 1) (ex_point 0 0) []
    (ex_point x 1) [ex_point (x + 3) 2; ex_point (x + 3) 0; ex_point (x - 3) 0; ex_point (x - 3) 2].
Definition ex_coord (x y : Z) : Coord := mkCoord (d_of_Z x) (d_of_Z y) (d_of_Z 2).
Example no_obstacle_on_top :
  buildTopObstacles [ex_beside_vehicle (-2)] (ex_coord 0 1) (ex_coord 100 1) = [] /\
  forall log10 dB2fraction lambda,
    computeMultipleKnifeEdge log10 dB2fraction [ex_diff 0 2; ex_diff 100 2] lambda = Fail (AssertFailed "obs.size() > 2").
Proof. split; [vm_compute|]; reflexivity. Qed.

Lemma side_obstacles_outmost_witness : exists s,
  buildSideObstacles [ex_beside_vehicle 50; ex_beside_vehicle 20] (ex_coord 0 1) (ex_coord 100 1) = Ok s /\
  Sorted not_farther (left s) /\ Sorted not_farther (right s).
Proof.
  destruct (side_obstacles_outmost [ex_beside_vehicle 50; ex_beside_vehicle 20] (ex_coord 0 1) (ex_coord 100 1))
    as (s & ms & H & _ & _ & Hl & _ & Hr); [vm_compute; reflexivity|].
  exists s. split; [exact H|split; assumption].
Defined.
Example sides_of_two :
  buildSideObstacles [ex_beside_vehicle 50; ex_beside_vehicle 20] (ex_coord 0 1) (ex_coord 100 1) =
  Ok (mkSides [ex_diff 23 1; ex_diff 53 1] [ex_diff 23 1; ex_diff 53 1]).
Proof. vm_compute. reflexivity. Qed.
