(* ===== verification/Gemv2Foliage.v ===== *)
(** * Attenuation by foliage (GEMV2)

    The loss model for links through foliage ([inet/gemv2/NLOSf.cc]): the parts of the ray
    inside plants, their union, and the attenuation over its length.  The intersection of
    the ray with an outline, the length of a line, INET's free space loss and units and the
    power function are parameters. *)

From S2P Require Import Prelude OMap Float64 VehicleData Gemv2Index.

Abbreviation LineString := (list Position) (only parsing).

(** ** Union of intervals on the ray *)
(** A part of the ray by the squared distances of its ends from the start. *)
Record OrderedLineString := mkOrdered { line : LineString; indexStart : double; indexStop : double }.
Definition calculateIndex (ref pos : Position) : double :=
  dadd (squared (dsub (pos_x pos) (pos_x ref))) (squared (dsub (pos_y pos) (pos_y ref))).
Definition ordered_line (l : LineString) (idxStart idxStop : double) : res OrderedLineString :=
  assert_ "indexStart <= indexStop" (dleb idxStart idxStop) ;; Ok (mkOrdered l idxStart idxStop).
(** Lines that are not segments are erased. *)
Definition index_line (ref : Position) (l : LineString) : res (option OrderedLineString) :=
  match l with
  | [p; q] =>
      let index1 := calculateIndex ref p in
      let index2 := calculateIndex ref q in
      o ← (if dltb index1 index2 then ordered_line [p; q] index1 index2 else ordered_line [q; p] index2 index1);
      Ok (Some o)
  | _ => Ok None
  end.
(** [std::list::sort], which is stable. *)
Fixpoint insert_by_start (o : OrderedLineString) (l : list OrderedLineString) : list OrderedLineString :=
  match l with
  | [] => [o]
  | x :: l' => if dltb (indexStart o) (indexStart x) then o :: l else x :: insert_by_start o l'
  end.
Definition sort_by_start (l : list OrderedLineString) : list OrderedLineString :=
  foldl (fun acc o => insert_by_start o acc) [] l.

Definition interval_length (o : OrderedLineString) : double := dsub (d_sqrt (indexStop o)) (d_sqrt (indexStart o)).
(** [current->line->back() = it->line->back()]. *)
Definition replace_back (l l' : LineString) : LineString :=
  match last l' with Some p => removelast l ++ [p] | None => l end.
Definition extend (current it : OrderedLineString) : OrderedLineString :=
  mkOrdered (replace_back (line current) (line it)) (indexStart current) (indexStop it).
Fixpoint merge_loop (current : OrderedLineString) (l : list OrderedLineString) (lines : list LineString) (dist : double) :
    double * list LineString :=
  match l with
  | [] => (dadd dist (interval_length current), lines ++ [line current])
  | it :: l =>
      if dltb (indexStop current) (indexStart it)
      then merge_loop it l (lines ++ [line current]) (dadd dist (interval_length current))
      else if dltb (indexStop current) (indexStop it) then merge_loop (extend current it) l lines dist
      else merge_loop current l lines dist
  end.

Section NLOSf.
Variable line_length : LineString -> double.

(** The length and the lines that are left, which are drawn. *)
Definition mergeIntervals (lines : list LineString) (ref : Position) : res (double * list LineString) :=
  match lines with
  | [] => Ok (d_zero, [])
  | [l] => Ok (line_length l, lines)
  | _ =>
      ordered ← select (index_line ref) lines;
      match sort_by_start ordered with
      | [] => Fail (Undefined "current is the end")
      | current :: l => Ok (merge_loop current l [] d_zero)
      end
  end.

Variable G : Geo.
Variable mFoliageIndex : ObstacleIndex G.
(** [boost::geometry::intersection], which appends to the lines. *)
Variable intersection : Position * Position -> outline -> list LineString.
Definition computeDistanceThroughFoliage (tx rx : Coord) : res (double * list LineString) :=
  let start := ground tx in
  let finish := ground rx in
  plants ← getObstructingObstacles G mFoliageIndex start finish;
  let intersections := foldl (fun acc plant => acc ++ intersection (start, finish) (getOutline plant)) [] plants in
  mergeIntervals intersections start.

(** INET's units and free space loss with the module's [alpha] and [systemLoss]. *)
Variable pow : double -> double -> double.
Variable in_GHz : double -> double.
Variable dB2fraction : double -> double.
Variable computeFreeSpacePathLoss : double -> double -> double.
Variable coord_distance : Coord -> Coord -> double.
Definition foliage_computePathLoss (propagationSpeed carrierFrequency : double) (tx rx : Coord) : res double :=
  let waveLength := ddiv propagationSpeed carrierFrequency in
  let dist := coord_distance tx rx in
  let attenuationPerMeter_dB := dmul (d_lit 79 100) (pow (in_GHz carrierFrequency) (d_lit 61 100)) in
  foliage ← computeDistanceThroughFoliage tx rx;
  let foliageAttenuation_dB := dmul attenuationPerMeter_dB foliage.1 in
  Ok (ddiv (computeFreeSpacePathLoss waveLength dist) (dB2fraction foliageAttenuation_dB)).
End NLOSf.

(** ** The merged intervals *)
Definition in_interval (x : double) (o : OrderedLineString) : Prop :=
  dleb (indexStart o) x = true /\ dleb x (indexStop o) = true.
Definition well_ordered (ref : Position) (o : OrderedLineString) : Prop :=
  exists p q, line o = [p; q] /\ calculateIndex ref p = indexStart o /\ calculateIndex ref q = indexStop o /\
    dleb (indexStart o) (indexStop o) = true.
Definition starts_in_order (a b : OrderedLineString) : Prop := dltb (indexStart b) (indexStart a) = false.
Definition before (a b : OrderedLineString) : Prop := dltb (indexStop a) (indexStart b) = true.

Lemma extend_well_ordered ref a b : well_ordered ref a -> well_ordered ref b ->
  dltb (indexStop a) (indexStop b) = true -> well_ordered ref (extend a b).
Proof.
  intros (p & q & Ha & Hp & Hq & Hle) (p' & q' & Hb & Hp' & Hq' & _) Hlt. exists p, q'. unfold extend, replace_back.
  rewrite Ha, Hb. cbn. split_and!; try done. by apply dltb_dleb, (dle_lt_trans _ (indexStop a)).
Qed.

(** Overlapping intervals, the first of which starts first, cover the same as their union. *)
Lemma in_extend ref a b x : well_ordered ref a -> well_ordered ref b -> starts_in_order a b ->
  dltb (indexStop a) (indexStart b) = false -> dltb (indexStop a) (indexStop b) = true ->
  in_interval x (extend a b) <-> in_interval x a \/ in_interval x b.
Proof.
  unfold in_interval, starts_in_order. intros (_ & _ & _ & _ & _ & Ha) (_ & _ & _ & _ & _ & Hb) Hs Ho Hlt. cbn.
  destruct (dleb_not_nan _ _ Ha), (dleb_not_nan _ _ Hb). apply dltb_false in Hs, Ho; [|done..].
  split.
  - intros [Hx1 Hx2]. destruct (dleb_not_nan _ _ Hx1). destruct (dleb x (indexStop a)) eqn:Hx; [by left|right].
    split; [|done]. apply (dleb_trans _ (indexStop a)); [done|]. apply dltb_dleb. rewrite dltb_dleb_false by done. by rewrite Hx.
  - intros [[Hx1 Hx2]|[Hx1 Hx2]]; split; try done; [by apply (dleb_trans _ (indexStop a)), dltb_dleb|by apply (dleb_trans _ (indexStart b))].
Qed.
Lemma in_covered ref a b x : well_ordered ref a -> well_ordered ref b -> starts_in_order a b ->
  dltb (indexStop a) (indexStop b) = false -> in_interval x b -> in_interval x a.
Proof.
  unfold in_interval, starts_in_order. intros (_ & _ & _ & _ & _ & Ha) (_ & _ & _ & _ & _ & Hb) Hs Hlt [H1 H2].
  destruct (dleb_not_nan _ _ Ha), (dleb_not_nan _ _ Hb). apply dltb_false in Hs, Hlt; [|done..].
  split; [by apply (dleb_trans _ (indexStart b))|by apply (dleb_trans _ (indexStop b))].
Qed.

Lemma insert_by_start_perm o l : insert_by_start o l ≡ₚ o :: l.
Proof. induction l as [|x l IH]; cbn; [done|]. case_match; [done|]. rewrite IH. by constructor. Qed.
Lemma insert_by_start_sorted o l : StronglySorted starts_in_order l -> StronglySorted starts_in_order (insert_by_start o l).
Proof.
  induction 1 as [|x l Hl IH Hx]; cbn; [by repeat constructor|].
  destruct (dltb (indexStart o) (indexStart x)) eqn:Ho.
  - constructor; [by constructor|]. constructor.
    + apply not_true_iff_false. intros H. pose proof (dltb_trans _ _ _ H Ho) as H'. by rewrite dltb_irrefl in H'.
    + eapply Forall_impl; [exact Hx|]. intros y Hy. apply not_true_iff_false. intros H.
      unfold starts_in_order in Hy. by rewrite (dltb_trans _ _ _ H Ho) in Hy.
  - constructor; [done|]. rewrite insert_by_start_perm. by constructor.
Qed.
Lemma sort_by_start_spec l : sort_by_start l ≡ₚ l /\ StronglySorted starts_in_order (sort_by_start l).
Proof.
  unfold sort_by_start. cut (forall acc, StronglySorted starts_in_order acc ->
    foldl (fun acc o => insert_by_start o acc) acc l ≡ₚ l ++ acc /\
    StronglySorted starts_in_order (foldl (fun acc o => insert_by_start o acc) acc l)).
  { intros H. destruct (H [] (SSorted_nil _)) as [H1 H2]. by rewrite (right_id_L [] app) in H1. }
  induction l as [|x l IH]; intros acc Hacc; cbn; [done|].
  destruct (IH _ (insert_by_start_sorted x acc Hacc)) as [H1 H2]. split; [|done].
  rewrite H1, insert_by_start_perm. by rewrite Permutation_middle.
Qed.

(** The result of the loop by the intervals it leaves. *)
Definition total (dist : double) (ms : list OrderedLineString) : double :=
  foldl (fun acc m => dadd acc (interval_length m)) dist ms.
Lemma before_later ref a b m : well_ordered ref b -> well_ordered ref m -> before a b -> starts_in_order b m -> before a m.
Proof.
  unfold before, starts_in_order. intros (_ & _ & _ & _ & _ & Hb) (_ & _ & _ & _ & _ & Hm) H Hs.
  destruct (dleb_not_nan _ _ Hb), (dleb_not_nan _ _ Hm). apply (dlt_le_trans _ (indexStart b)); [done|]. by apply dltb_false.
Qed.
Lemma starts_refl a : starts_in_order a a.
Proof. apply dltb_irrefl. Qed.
Lemma starts_trans ref a b m : well_ordered ref a -> well_ordered ref b -> well_ordered ref m ->
  starts_in_order a b -> starts_in_order b m -> starts_in_order a m.
Proof.
  unfold starts_in_order. intros (_ & _ & _ & _ & _ & Ha) (_ & _ & _ & _ & _ & Hb) (_ & _ & _ & _ & _ & Hm) H1 H2.
  destruct (dleb_not_nan _ _ Ha), (dleb_not_nan _ _ Hb), (dleb_not_nan _ _ Hm). apply dltb_false in H1, H2; [|done..].
  apply not_true_iff_false. intros Hma%dltb_dleb_antisym. by rewrite (dleb_trans _ _ _ H1 H2) in Hma.
Qed.

Lemma merge_loop_spec ref l : forall current lines dist,
  Forall (well_ordered ref) (current :: l) -> StronglySorted starts_in_order (current :: l) ->
  exists ms, merge_loop current l lines dist = (total dist ms, lines ++ (line <$> ms)) /\
    Forall (well_ordered ref) ms /\ Forall (starts_in_order current) ms /\ StronglySorted before ms /\
    forall x, Exists (in_interval x) ms <-> Exists (in_interval x) (current :: l).
Proof.
  induction l as [|it l IH]; intros current lines dist Hw Hs; cbn [merge_loop].
  { exists [current]. split_and!; try done; [constructor; [apply starts_refl|constructor]|repeat constructor]. }
  inversion_clear Hw as [|?? Hc Hw']. inversion_clear Hw' as [|?? Hi Hl].
  inversion_clear Hs as [|?? Hs' Hcl]. inversion_clear Hcl as [|?? Hci Hcl'].
  destruct (dltb (indexStop current) (indexStart it)) eqn:Hd.
  - destruct (IH it (lines ++ [line current]) (dadd dist (interval_length current))) as (ms & -> & Hms & Hst & Hb & Hx);
      [by constructor|done|].
    exists (current :: ms). split_and!.
    + unfold total. cbn. by rewrite <- app_assoc.
    + by constructor.
    + constructor; [apply starts_refl|]. rewrite Forall_forall in *. intros m Hm. apply (starts_trans ref _ it); auto.
    + constructor; [done|]. rewrite Forall_forall in *. intros m Hm. apply (before_later ref _ it); auto.
    + intros x. rewrite !Exists_cons, Hx, Exists_cons. done.
  - inversion_clear Hs' as [|?? Hsl Hil]. destruct (dltb (indexStop current) (indexStop it)) eqn:Hd'.
    + destruct (IH (extend current it) lines dist) as (ms & -> & Hms & Hst & Hb & Hx);
        [constructor; [by apply extend_well_ordered|done]|by constructor|].
      exists ms. split_and!; try done. intros x. rewrite Hx, !Exists_cons, (in_extend ref current it x) by done. tauto.
    + destruct (IH current lines dist) as (ms & -> & Hms & Hst & Hb & Hx); [by constructor|by constructor|].
      exists ms. split_and!; try done. intros x. rewrite Hx, !Exists_cons.
      pose proof (in_covered ref current it x Hc Hi Hci Hd'). tauto.
Qed.

(** ** From lines to intervals *)
Definition segment (l : LineString) : Prop := length l = 2%nat.
#[export] Instance segment_dec l : Decision (segment l) := decide (length l = 2%nat).
(** A number between the squared distances of the ends of a segment. *)
Definition on_segment (ref : Position) (x : double) (l : LineString) : Prop :=
  exists p q, l = [p; q] /\
    ((dleb (calculateIndex ref p) x = true /\ dleb x (calculateIndex ref q) = true) \/
     (dleb (calculateIndex ref q) x = true /\ dleb x (calculateIndex ref p) = true)).
Definition measurable (ref : Position) (l : LineString) : Prop := Forall (fun p => d_is_nan (calculateIndex ref p) = false) l.

Lemma well_ordered_on_segment ref o x : well_ordered ref o -> on_segment ref x (line o) <-> in_interval x o.
Proof.
  unfold on_segment, in_interval. intros (p & q & Hl & Hp & Hq & Hle). rewrite Hl, <- Hp, <- Hq in *. split.
  - intros (p' & q' & [= <- <-] & [H|[H1 H2]]); [done|]. split.
    + apply (dleb_trans _ (calculateIndex ref q)); [exact Hle|exact H1].
    + apply (dleb_trans _ (calculateIndex ref p)); [exact H2|exact Hle].
  - intros H. exists p, q. auto.
Qed.

Lemma index_line_spec ref l : measurable ref l ->
  if decide (segment l)
  then exists o, index_line ref l = Ok (Some o) /\ well_ordered ref o /\ (forall x, on_segment ref x l <-> in_interval x o)
  else index_line ref l = Ok None.
Proof.
  intros Hm. destruct l as [|p [|q [|r l]]]; try reflexivity. cbn [index_line]. cbv zeta.
  inversion_clear Hm as [|?? Hp Hm']. inversion_clear Hm' as [|?? Hq _].
  rewrite (decide_True (P := segment [p; q])) by done.
  destruct (dltb (calculateIndex ref p) (calculateIndex ref q)) eqn:Hlt; unfold ordered_line.
  - rewrite (dltb_dleb _ _ Hlt). cbn. eexists. split; [reflexivity|].
    assert (Hw : well_ordered ref (mkOrdered [p; q] (calculateIndex ref p) (calculateIndex ref q)))
      by (exists p, q; split_and!; [done..|by apply dltb_dleb]).
    split; [done|]. intros x. by rewrite <- (well_ordered_on_segment ref _ x Hw).
  - apply dltb_false in Hlt; [|done..]. rewrite Hlt. cbn. eexists. split; [reflexivity|].
    assert (Hw : well_ordered ref (mkOrdered [q; p] (calculateIndex ref q) (calculateIndex ref p)))
      by (by exists q, p).
    split; [done|]. intros x. rewrite <- (well_ordered_on_segment ref _ x Hw). unfold on_segment. cbn. naive_solver.
Qed.

Lemma index_lines_spec ref lines : Forall (measurable ref) lines ->
  exists os, select (index_line ref) lines = Ok os /\ Forall (well_ordered ref) os /\
    length os = length (filter segment lines) /\
    forall x, Exists (on_segment ref x) (filter segment lines) <-> Exists (in_interval x) os.
Proof.
  induction 1 as [|l lines Hl _ (os & Hos & Hw & Hlen & Hx)]; cbn [select].
  { exists []. split_and!; try done. intros x. by rewrite !Exists_nil. }
  pose proof (index_line_spec ref l Hl) as Hi. rewrite filter_cons. destruct (decide (segment l)).
  - destruct Hi as (o & Ho & Hwo & Hox). rewrite Ho, Hos. cbn. exists (o :: os). split_and!; [done|by constructor|cbn; congruence|].
    intros x. by rewrite !Exists_cons, Hox, Hx.
  - rewrite Hi, Hos. cbn. by exists os.
Qed.

(** A line that is left: from a nearer to a farther point. *)
Definition forward (ref : Position) (l : LineString) : Prop :=
  exists p q, l = [p; q] /\ dleb (calculateIndex ref p) (calculateIndex ref q) = true.
Definition line_start (ref : Position) (l : LineString) : double := from_option (calculateIndex ref) d_nan (head l).
Definition line_stop (ref : Position) (l : LineString) : double := from_option (calculateIndex ref) d_nan (last l).

Lemma well_ordered_ends ref o : well_ordered ref o -> forward ref (line o) /\
  line_start ref (line o) = indexStart o /\ line_stop ref (line o) = indexStop o.
Proof.
  unfold line_start, line_stop. intros (p & q & -> & <- & <- & Hle). cbn. split_and!; [|done..]. by exists p, q.
Qed.

Definition gap (ref : Position) (a b : LineString) : Prop := dltb (line_stop ref a) (line_start ref b) = true.
Definition lines_total (ref : Position) (lines : list LineString) : double :=
  foldl (fun acc l => dadd acc (dsub (d_sqrt (line_stop ref l)) (d_sqrt (line_start ref l)))) d_zero lines.

Lemma total_lines ref ms : Forall (well_ordered ref) ms -> total d_zero ms = lines_total ref (line <$> ms).
Proof.
  unfold total, lines_total. generalize d_zero. intros d H. revert d. induction H as [|m ms Hm _ IH]; intros d; [done|].
  destruct (well_ordered_ends _ _ Hm) as (_ & Hst & Hsp). cbn. by rewrite Hst, Hsp, IH.
Qed.
Lemma before_lines ref ms : Forall (well_ordered ref) ms -> StronglySorted before ms -> StronglySorted (gap ref) (line <$> ms).
Proof.
  intros H. induction 1 as [|m ms Hs IH Hm]; [constructor|]. inversion_clear H as [|?? Hw Hws]. cbn. constructor; [by apply IH|].
  apply Forall_fmap. rewrite Forall_forall in *. intros m' Hin. unfold gap. cbn.
  destruct (well_ordered_ends _ _ Hw) as (_ & _ & ->), (well_ordered_ends _ _ (Hws m' Hin)) as (_ & -> & _). by apply Hm.
Qed.
Lemma covered_lines ref ms x : Forall (well_ordered ref) ms ->
  Exists (on_segment ref x) (line <$> ms) <-> Exists (in_interval x) ms.
Proof.
  induction 1 as [|m ms Hm _ IH]; cbn; [by rewrite !Exists_nil|].
  by rewrite !Exists_cons, IH, (well_ordered_on_segment ref m x Hm).
Qed.

(** [C26] Of two or more parts of the ray, some of which are segments, [mergeIntervals] leaves
    the union: lines that lead away from the start, one behind the other with a gap between,
    covering exactly the distances the segments covered; the result is the sum of the
    differences between the distances of their ends. *)
Theorem merge_is_union line_length ref lines : (2 <= length lines)%nat -> filter segment lines <> [] ->
  Forall (measurable ref) lines ->
  exists merged, mergeIntervals line_length lines ref =
      Ok (lines_total ref merged, merged) /\
    Forall (forward ref) merged /\ StronglySorted (gap ref) merged /\
    forall x, Exists (on_segment ref x) merged <-> Exists (on_segment ref x) (filter segment lines).
Proof.
  intros Hlen Hne Hm. destruct (index_lines_spec ref lines Hm) as (os & Hos & Hw & Hol & Hox).
  destruct (sort_by_start_spec os) as [Hp Hs].
  assert (Hmerge : mergeIntervals line_length lines ref =
    match sort_by_start os with [] => Fail (Undefined "current is the end") | c :: l => Ok (merge_loop c l [] d_zero) end).
  { destruct lines as [|l1 [|l2 lines]]; [cbn in Hlen; lia..|]. unfold mergeIntervals. by rewrite Hos. }
  rewrite Hmerge. clear Hmerge Hos Hlen Hm. setoid_rewrite Hox. rewrite <- Hp in Hw, Hol.
  assert (Hox' : forall x, Exists (in_interval x) os <-> Exists (in_interval x) (sort_by_start os))
    by (intros x; by rewrite Hp).
  setoid_rewrite Hox'. clear Hox Hox' Hp. destruct (sort_by_start os) as [|c l]; [by destruct (filter _ _)|].
  destruct (merge_loop_spec ref l c [] d_zero Hw Hs) as (ms & -> & Hms & _ & Hb & Hx). clear Hw Hs Hol Hne.
  exists (line <$> ms). split_and!.
  - by rewrite (total_lines ref ms Hms).
  - apply Forall_fmap. eapply Forall_impl; [exact Hms|]. intros m Hm. apply (well_ordered_ends _ _ Hm).
  - by apply before_lines.
  - intros x. by rewrite (covered_lines ref ms x Hms), Hx.
Qed.

(** ** Concrete lines *)
Definition ex_at (x : Z) : Position := mkPosition (d_of_Z x) d_zero.
(** A segment given backwards, one that overlaps it, one apart and one inside. *)
Definition ex_lines : list LineString := [[ex_at 9; ex_at 4]; [ex_at 20; ex_at 25]; [ex_at 6; ex_at 12]; [ex_at 21; ex_at 22]].
Definition ex_length (l : LineString) : double := d_of_Z (Z.of_nat (length l)).

Lemma merge_is_union_witness : exists merged,
  mergeIntervals ex_length ex_lines (ex_at 0) = Ok (d_of_Z 13, merged) /\
  forall x, Exists (on_segment (ex_at 0) x) merged <-> Exists (on_segment (ex_at 0) x) ex_lines.
Proof.
  destruct (merge_is_union ex_length (ex_at 0) ex_lines) as (merged & H & _ & _ & Hx).
  - cbn. lia.
  - discriminate.
  - unfold measurable. repeat constructor.
  - exists merged. split; [|exact Hx].
    assert (E : mergeIntervals ex_length ex_lines (ex_at 0) = Ok (d_of_Z 13, [[ex_at 4; ex_at 12]; [ex_at 20; ex_at 25]]))
      by (vm_compute; reflexivity).
    rewrite E in H |- *. apply Ok_inj in H. congruence.
Defined.

(** Of two lines that are not segments nothing is left to begin with. *)
Example no_segment :
  mergeIntervals ex_length [[ex_at 1; ex_at 2; ex_at 3]; [ex_at 5]] (ex_at 0) = Fail (Undefined "current is the end").
Proof. reflexivity. Qed.
(** One line is taken as it is. *)
Example one_line : mergeIntervals ex_length [[ex_at 5]] (ex_at 0) = Ok (d_of_Z 1, [[ex_at 5]]).
Proof. reflexivity. Qed.
