(* ===== verification/Gemv2Buildings.v ===== *)
(** * Loss behind buildings (GEMV2)

    The loss model for links that buildings obstruct ([inet/gemv2/NLOSb.cc]): rays reflected
    once by buildings and vehicles, rays diffracted at the corners of the obstructing
    buildings, and their combination.  Boost.Geometry's closing view, intersections and
    [within], the mathematical functions and INET's conversion of decibels are parameters. *)

From Stdlib Require Import Ascii.
From S2P Require Import Prelude OMap Float64 VehicleData Gemv2Index.

Abbreviation segment := (Position * Position)%type (only parsing).

Definition squaredLength (a b : Position) : double :=
  dadd (squared (dsub (pos_x a) (pos_x b))) (squared (dsub (pos_y a) (pos_y b))).
(** The mirror image of a point. *)
Definition reflectPoint (p : Position) (l : segment) : Position :=
  let dx := dsub (pos_x l.2) (pos_x l.1) in
  let dy := dsub (pos_y l.2) (pos_y l.1) in
  let a := ddiv (dsub (dmul dx dx) (dmul dy dy)) (dadd (dmul dx dx) (dmul dy dy)) in
  let b := ddiv (dmul (dmul (d_of_Z 2) dx) dy) (dadd (dmul dx dx) (dmul dy dy)) in
  let px := dsub (pos_x p) (pos_x l.1) in
  let py := dsub (pos_y p) (pos_y l.1) in
  mkPosition (dadd (dadd (dmul a px) (dmul b py)) (pos_x l.1)) (dadd (dsub (dmul b px) (dmul a py)) (pos_y l.1)).

(** Neighbours in a view of an outline. *)
Fixpoint walls (l : list Position) : list segment :=
  match l with
  | a :: (b :: _) as t => (a, b) :: walls t
  | _ => []
  end.

Record Attenuation := mkAttenuation { length_of : double; fraction : double }.
Definition Attenuation_create (len att : double) : res Attenuation :=
  assert_ "fraction > 1.0" (dltb (d_of_Z 1) att) ;; Ok (mkAttenuation len att).

Record NLOSb_module := mkNLOSb {
  maxRange : double; pathLossExponent : double; vehReflRelPerm : double; obsReflRelPerm : double; polarization : ascii
}.
Definition buildings_initialize (range exponent vehicles buildings : double) (polarization_str : string) : res NLOSb_module :=
  polarization ← (if String.eqb polarization_str "horizontal" then Ok "h"%char
                  else if String.eqb polarization_str "vertical" then Ok "v"%char
                  else Fail (RuntimeError "Invalid antenna polarization"));
  Ok (mkNLOSb range exponent vehicles buildings polarization).

Section NLOSb.
(** The mathematical library and INET's conversion of decibels. *)
Variable pow : double -> double -> double.
Variable cos : double -> double.
Variable sin : double -> double.
Variable acos : double -> double.
Variable log10 : double -> double.
Variable dB2fraction : double -> double.
(** Boost.Geometry: the outline with its first point repeated, the points two segments share,
    whether a line meets an outline, and whether a point is inside. *)
Variable closing_view : outline -> list Position.
Variable intersection : segment -> segment -> list Position.
Variable intersects : list Position -> outline -> bool.
Variable within : Position -> outline -> bool.

Variable G : Geo.
Variable mObstacleIndex : ObstacleIndex G.
Variable mVehicleIndex : VehicleIndex G.
Variable self : NLOSb_module.

Record Environment := mkEnvironment {
  env_tx : Position; env_rx : Position;
  txHeight : double; rxHeight : double;
  env_obstacles : list Obstacle; env_vehicles : list Vehicle;
  env_lambda : double
}.
Definition Environment_create (itx irx : Coord) (lambda : double) : res Environment :=
  obstacles ← obstaclesEllipse G mObstacleIndex (ground itx) (ground irx) (maxRange self);
  vehicles ← vehiclesEllipse G mVehicleIndex (ground itx) (ground irx) (maxRange self);
  Ok (mkEnvironment (ground itx) (ground irx) (coord_z itx) (coord_z irx) obstacles vehicles lambda).

(** ** Rays *)
Definition isRayObstructed (point : Position) (env : Environment) : bool :=
  let ls := [env_tx env; point; env_rx env] in
  existsb (fun o => intersects ls (getOutline o)) (env_obstacles env) ||
  existsb (fun v => cuts G ls (getWorldOutline v)) (env_vehicles env).
(** The point of a wall where the ray is reflected. *)
Definition wall_reflection (env : Environment) (wall : segment) : option Position :=
  let rx_m := reflectPoint (env_rx env) wall in
  if dltb (squaredLength (env_tx env) rx_m) (squaredLength (env_tx env) (env_rx env)) then None
  else match intersection wall (env_tx env, rx_m) with
       | [p] => if isRayObstructed p env then None else Some p
       | _ => None
       end.
Definition outline_reflections (env : Environment) (o : outline) : list Position :=
  if Nat.ltb (length o) 2 then [] else omap (wall_reflection env) (walls (closing_view o)).
Definition computeReflectionRaysFromBuildings (env : Environment) : list Position :=
  concat ((fun o => outline_reflections env (getOutline o)) <$> env_obstacles env).
(** Not at the vehicles of transmitter and receiver. *)
Definition vehicle_reflections (env : Environment) (v : Vehicle) : list Position :=
  if within (env_tx env) (getWorldOutline v) || within (env_rx env) (getWorldOutline v) then []
  else outline_reflections env (getWorldOutline v).
Definition computeReflectionRaysFromVehicles (env : Environment) : list Position :=
  concat (vehicle_reflections env <$> env_vehicles env).

Definition corner_visible (env : Environment) (minVehicleHeight : double) (corner : Position) : res (option Position) :=
  b ← obstacle_anyBlockage G mObstacleIndex (env_tx env) corner;
  if b : bool then Ok None else
  b ← obstacle_anyBlockage G mObstacleIndex corner (env_rx env);
  if b : bool then Ok None else
  b ← tall_anyBlockage G mVehicleIndex (env_tx env) corner minVehicleHeight;
  if b : bool then Ok None else
  b ← tall_anyBlockage G mVehicleIndex corner (env_rx env) minVehicleHeight;
  if b : bool then Ok None else Ok (Some corner).
Definition computeDiffractionRays (env : Environment) : res (list Position) :=
  let minVehicleHeight := d_min (txHeight env) (rxHeight env) in
  obstacles ← getObstructingObstacles G mObstacleIndex (env_tx env) (env_rx env);
  select (corner_visible env minVehicleHeight) (concat ((fun o => getOutline o) <$> obstacles)).

(** ** Attenuation *)
Definition computeFreeSpaceLoss (dist lambda : double) : double :=
  if dltb d_zero dist then ddiv (squared lambda) (squared (dmul (dmul (d_of_Z 4) d_pi) dist)) else d_of_Z 1.
Definition computeLogDistanceLoss (dist lambda : double) : double :=
  if dltb d_zero dist
  then ddiv (squared lambda) (dmul (squared (dmul (d_of_Z 4) d_pi)) (pow dist (pathLossExponent self)))
  else d_of_Z 1.
(** The cosine of the angle at [nadir], as it is computed. *)
Definition cos_between (nadir a b : Position) : double :=
  let ax := dsub (pos_x a) (pos_x nadir) in
  let ay := dsub (pos_y a) (pos_y nadir) in
  let bx := dsub (pos_x b) (pos_x nadir) in
  let b_y := dsub (pos_y b) (pos_y nadir) in
  ddiv (dadd (dmul ax bx) (dmul ay b_y)) (dmul (d_sqrt (dadd (squared ax) (squared ay))) (d_sqrt (dadd (squared bx) (squared b_y)))).
Definition computeAngleBetween (nadir a b : Position) : double :=
  let alen := d_sqrt (dadd (squared (dsub (pos_x a) (pos_x nadir))) (squared (dsub (pos_y a) (pos_y nadir)))) in
  let blen := d_sqrt (dadd (squared (dsub (pos_x b) (pos_x nadir))) (squared (dsub (pos_y b) (pos_y nadir)))) in
  if dltb d_zero blen && dltb d_zero alen then acos (cos_between nadir a b) else d_zero.
Definition computeReflectionCoefficient (theta permittivity : double) : res double :=
  let sqrt_term := d_sqrt (dsub permittivity (squared (cos theta))) in
  let sin_theta := sin theta in
  gamma ← (if Ascii.eqb (polarization self) "v"%char
           then Ok (ddiv (dsub sin_theta sqrt_term) (dadd sin_theta sqrt_term))
           else if Ascii.eqb (polarization self) "h"%char
           then Ok (ddiv (dadd (dmul (dopp permittivity) sin_theta) sqrt_term)
                      (dadd (dmul permittivity sin_theta) sqrt_term))
           else Fail (RuntimeError "Unknown antenna polarization"));
  assert_ "std::abs(gamma) <= 1.0" (dleb (dabs gamma) (d_of_Z 1)) ;;
  Ok gamma.
Definition knife_edge_fraction (h distTxObs distTxRx lambda : double) : double :=
  let distRxObs := dsub distTxRx distTxObs in
  let r := d_sqrt (ddiv (dmul (dmul lambda distTxObs) distRxObs) distTxRx) in
  let v := dmul (d_sqrt (d_of_Z 2)) (ddiv h r) in
  dB2fraction
    (if dltb (d_lit (-78) 100) v
     then dadd (d_lit 69 10) (dmul (d_of_Z 20)
            (log10 (dsub (dadd (d_sqrt (dadd (squared (dsub v (d_lit 1 10))) (d_of_Z 1))) v) (d_lit 1 10))))
     else d_zero).

(** The length of a path over a point. *)
Definition path_length (env : Environment) (p : Position) : double :=
  d_sqrt (dadd (squared (dadd (distance G (env_tx env) p) (distance G (env_rx env) p)))
               (squared (dsub (txHeight env) (rxHeight env)))).
Definition reflection_attenuation (permittivity : double) (env : Environment) (p : Position) : res (option Attenuation) :=
  let theta := ddiv (dsub d_pi (computeAngleBetween p (env_tx env) (env_rx env))) (d_of_Z 2) in
  gamma ← computeReflectionCoefficient theta permittivity;
  let dist := path_length env p in
  let loss := dmul (squared gamma) (computeFreeSpaceLoss dist (env_lambda env)) in
  a ← Attenuation_create dist (ddiv (d_of_Z 1) loss);
  Ok (Some a).
Definition computeReflectionAttenuation (points : list Position) (permittivity : double) (env : Environment) :
    res (list Attenuation) :=
  select (reflection_attenuation permittivity env) points.

Definition corner_k (vx vy vlen_squared : double) (tx c : Position) : double :=
  ddiv (dsub (dadd (dsub (dmul (pos_x c) vx) (dmul vy (pos_y tx))) (dmul vy (pos_y c))) (dmul (pos_x tx) vx)) vlen_squared.
Definition corner_l (vx vy vlen_squared : double) (tx c : Position) : double :=
  ddiv (dadd (dsub (dsub (dmul (pos_x c) vy) (dmul vy (pos_x tx))) (dmul vx (pos_y c))) (dmul (pos_y tx) vx)) vlen_squared.
Definition diffraction_attenuation (limit : double) (env : Environment) (corner : Position) : res (option Attenuation) :=
  let vx := dsub (pos_x (env_rx env)) (pos_x (env_tx env)) in
  let vy := dsub (pos_y (env_rx env)) (pos_y (env_tx env)) in
  let vlen_squared := dadd (squared vx) (squared vy) in
  let vlen := d_sqrt vlen_squared in
  let dist := path_length env corner in
  if dltb limit dist then Ok None
  else
    let k := corner_k vx vy vlen_squared (env_tx env) corner in
    if dltb k d_zero || dltb (d_of_Z 1) k then Ok None
    else
      let l := corner_l vx vy vlen_squared (env_tx env) corner in
      let attenuation := knife_edge_fraction (dmul (dabs l) vlen) (dmul (dabs k) vlen) vlen (env_lambda env) in
      a ← Attenuation_create dist (ddiv attenuation (computeFreeSpaceLoss vlen (env_lambda env)));
      Ok (Some a).
Definition computeDiffractionAttenuation (corners : list Position) (limit : double) (env : Environment) :
    res (list Attenuation) :=
  select (diffraction_attenuation limit env) corners.

(** [std::min_element], the first of the smallest. *)
Definition min_attenuation (a : Attenuation) (l : list Attenuation) : Attenuation :=
  foldl (fun m x => if dltb (fraction x) (fraction m) then x else m) a l.
Definition interference (refDist waveLength : double) (acc : double) (att : Attenuation) : double :=
  let phi := cos (ddiv (dmul (dmul (d_of_Z 2) d_pi) (dsub refDist (length_of att))) waveLength) in
  dadd acc (dmul (d_sqrt (ddiv (d_of_Z 1) (fraction att))) phi).
Definition combined_loss (atts : list Attenuation) (lambda : double) : double :=
  match atts with
  | [] => d_zero
  | [a] => ddiv (d_of_Z 1) (fraction a)
  | a :: l => squared (foldl (interference (length_of (min_attenuation a l)) lambda) d_zero atts)
  end.
Definition combineAttenuations (atts : list Attenuation) (lambda : double) : res double :=
  let loss := combined_loss atts lambda in
  assert_ "loss >= 0.0 && loss <= 1.0" (dleb d_zero loss && dleb loss (d_of_Z 1)) ;;
  Ok loss.

(** ** Path loss *)
Variable coord_distance : Coord -> Coord -> double.
Definition shorter (limit : double) (att : Attenuation) : double := if dltb (length_of att) limit then length_of att else limit.
Definition buildings_computePathLoss (itx irx : Coord) (waveLength : double) : res double :=
  env ← Environment_create itx irx waveLength;
  let reflBuildings := computeReflectionRaysFromBuildings env in
  attReflBuildings ← computeReflectionAttenuation reflBuildings (obsReflRelPerm self) env;
  let reflVehicles := computeReflectionRaysFromVehicles env in
  attReflVehicles ← computeReflectionAttenuation reflVehicles (vehReflRelPerm self) env;
  let limit := foldl shorter (foldl shorter (maxRange self) attReflBuildings) attReflVehicles in
  diffractions ← computeDiffractionRays env;
  attDiffractions ← computeDiffractionAttenuation diffractions limit env;
  let attenuations := attDiffractions ++ attReflBuildings ++ attReflVehicles in
  refldif ← combineAttenuations attenuations (env_lambda env);
  let logdist := computeLogDistanceLoss (coord_distance itx irx) (env_lambda env) in
  Ok (d_max refldif logdist).
End NLOSb.

(** ** Paths behind buildings *)
Lemma select_inv {A B} (f : A -> res (option B)) l r : select f l = Ok r ->
  forall y, y ∈ r -> exists x, x ∈ l /\ f x = Ok (Some y).
Proof.
  revert r. induction l as [|x l IH]; intros r; cbn [select].
  { intros H%Ok_inj y Hy. subst r. by apply not_elem_of_nil in Hy. }
  rewrite bind_Ok. intros (o & Hf & H). apply bind_Ok in H as (rs & Hs & H). apply Ok_inj in H as <-.
  intros y [Hy|Hy]%elem_of_app.
  - destruct o as [z|]; cbn in Hy; [apply list_elem_of_singleton in Hy as ->|by apply not_elem_of_nil in Hy].
    exists x. split; [by constructor|done].
  - destruct (IH rs Hs y Hy) as (x' & Hx & Hf'). exists x'. split; [by constructor|done].
Qed.
Lemma select_all {A B} (f : A -> res (option B)) l r : select f l = Ok r ->
  (forall x y, x ∈ l -> f x = Ok y -> is_Some y) -> length r = length l.
Proof.
  revert r. induction l as [|x l IH]; intros r; cbn [select]; [by intros <-%Ok_inj|].
  rewrite bind_Ok. intros (o & Hf & H) Hall. apply bind_Ok in H as (rs & Hs & H). apply Ok_inj in H as <-.
  destruct (Hall x o ltac:(by constructor) Hf) as [y ->]. cbn. f_equal. apply IH; [done|].
  intros z w Hz. apply Hall. by constructor.
Qed.

(** The limit is not above the range and the lengths it is taken from. *)
Lemma shorter_spec l : forall limit, let r := foldl shorter limit l in
  (r = limit \/ dltb r limit = true) /\ Forall (fun a => dltb (length_of a) r = false) l.
Proof.
  induction l as [|a l IH]; intros limit; cbn [foldl]; [by split; [left|constructor]|].
  destruct (IH (shorter limit a)) as [Hr Hl]. split.
  - unfold shorter in *. destruct (dltb (length_of a) limit) eqn:Ha; [|done]. right.
    destruct Hr as [->|Hr]; [done|by apply (dltb_trans _ (length_of a))].
  - constructor; [|done].
    assert (Ha : dltb (length_of a) (shorter limit a) = false)
      by (unfold shorter; destruct (dltb (length_of a) limit) eqn:Ha; [apply dltb_irrefl|done]).
    destruct Hr as [->|Hr]; [done|]. apply not_true_iff_false. intros H. by rewrite (dltb_trans _ _ _ H Hr) in Ha.
Qed.
Lemma below_trans a b c : (a = b \/ dltb a b = true) -> dltb c b = false -> dltb c a = false.
Proof.
  intros [->|H] Hc; [done|]. apply not_true_iff_false. intros H'. by rewrite (dltb_trans _ _ _ H' H) in Hc.
Qed.

Section Paths.
Variable pow : double -> double -> double.
Variable cos : double -> double.
Variable sin : double -> double.
Variable acos : double -> double.
Variable log10 : double -> double.
Variable dB2fraction : double -> double.
Variable closing_view : outline -> list Position.
Variable intersection : segment -> segment -> list Position.
Variable intersects : list Position -> outline -> bool.
Variable within : Position -> outline -> bool.
Context (G : Geo) `{!GeoLaws G}.
Variable mObstacleIndex : ObstacleIndex G.
Variable mVehicleIndex : VehicleIndex G.
Variable self : NLOSb_module.
Hypothesis Hobstacles : obstacle_inv G mObstacleIndex.
Hypothesis Hvehicles : vehicle_fresh G mVehicleIndex.

(** A corner from which both ends are seen. *)
Definition leg_free (h : double) (a b : Position) : bool :=
  negb (existsb (fun o => crosses G (a, b) (getOutline o)) (mObstacles G mObstacleIndex)) &&
  negb (existsb (fun v => dltb h (getHeight v) && cuts_line G (a, b) (getWorldOutline v)) (mVehicles G mVehicleIndex).*2).
Definition both_seen (env : Environment) (c : Position) : bool :=
  let h := d_min (txHeight env) (rxHeight env) in leg_free h (env_tx env) c && leg_free h c (env_rx env).
Definition corners_between (env : Environment) : list Position :=
  concat ((fun o => getOutline o) <$>
    List.filter (fun o => crosses G (env_tx env, env_rx env) (getOutline o)) (mObstacles G mObstacleIndex)).

Lemma corner_visible_spec env c :
  corner_visible G mObstacleIndex mVehicleIndex env (d_min (txHeight env) (rxHeight env)) c =
  Ok (if both_seen env c then Some c else None).
Proof.
  unfold corner_visible, both_seen, leg_free.
  rewrite !(obstacle_blockage G _ _ _ Hobstacles), !(tall_blockage G _ _ _ _ Hvehicles). cbn [mbind res_bind].
  by repeat match goal with |- context [existsb ?p ?l] => destruct (existsb p l) end.
Qed.
Lemma diffraction_corners env : exists l, computeDiffractionRays G mObstacleIndex mVehicleIndex env = Ok l /\
  l ≡ₚ List.filter (both_seen env) (corners_between env).
Proof.
  unfold computeDiffractionRays.
  destruct (obstructing_obstacles G mObstacleIndex (env_tx env) (env_rx env) Hobstacles) as (os & -> & Hos).
  cbn [mbind res_bind]. eexists. split.
  - apply (select_Ok _ (fun c => if both_seen env c then Some c else None)). intros c _. apply corner_visible_spec.
  - rewrite (omap_guard (both_seen env) id), list_fmap_id. unfold corners_between.
    apply filter_bool_perm. by rewrite Hos.
Qed.

Lemma concat_elem {A} (x : A) l : x ∈ concat l -> exists m, m ∈ l /\ x ∈ m.
Proof. intros (m & Hm & Hx)%list_elem_of_In%in_concat. exists m. by rewrite !list_elem_of_In. Qed.

(** The points that reflect: on a wall of a nearby building or vehicle, seen from both ends. *)
Definition reflects (env : Environment) (p : Position) : Prop :=
  exists o wall, (o ∈ getOutline <$> env_obstacles env \/ o ∈ getWorldOutline <$> env_vehicles env) /\
    wall ∈ walls (closing_view o) /\ intersection wall (env_tx env, reflectPoint (env_rx env) wall) = [p] /\
    isRayObstructed intersects G p env = false.
Lemma outline_reflects env o p :
  (o ∈ getOutline <$> env_obstacles env \/ o ∈ getWorldOutline <$> env_vehicles env) ->
  p ∈ outline_reflections closing_view intersection intersects G env o -> reflects env p.
Proof.
  intros Ho. unfold outline_reflections. case_match; [by intros ?%not_elem_of_nil|].
  intros (wall & Hw & Hp)%list_elem_of_omap. exists o, wall. unfold wall_reflection in Hp.
  case_match; [done|]. destruct (intersection _ _) as [|q [|]] eqn:Hi; [done| |done].
  destruct (isRayObstructed intersects G q env) eqn:Hr; [done|]. by injection Hp as ->.
Qed.
Lemma reflection_points env p :
  p ∈ computeReflectionRaysFromBuildings closing_view intersection intersects G env ++
      computeReflectionRaysFromVehicles closing_view intersection intersects within G env -> reflects env p.
Proof.
  unfold computeReflectionRaysFromBuildings, computeReflectionRaysFromVehicles, vehicle_reflections.
  intros [(l & (o & -> & Ho)%list_elem_of_fmap & Hp)%concat_elem|(l & (v & -> & Hv)%list_elem_of_fmap & Hp)%concat_elem]%elem_of_app.
  - apply (outline_reflects env (getOutline o)); [left|done]. apply list_elem_of_fmap. by exists o.
  - case_match; [by apply not_elem_of_nil in Hp|].
    apply (outline_reflects env (getWorldOutline v)); [right|done]. apply list_elem_of_fmap. by exists v.
Qed.

(** An attenuation of a path over one of the points. *)
Definition path_over (env : Environment) (points : list Position) (a : Attenuation) : Prop :=
  dltb (d_of_Z 1) (fraction a) = true /\ exists p, p ∈ points /\ length_of a = path_length G env p.
Lemma create_path env points p att a : p ∈ points -> Attenuation_create (path_length G env p) att = Ok a ->
  path_over env points a.
Proof.
  intros Hp. unfold Attenuation_create. rewrite bind_Ok. intros (u & Hu & H). apply Ok_inj in H as <-.
  unfold assert_ in Hu. destruct (dltb (d_of_Z 1) att) eqn:Ha; [|done]. split; [done|]. by exists p.
Qed.
Lemma reflection_paths perm env points r :
  computeReflectionAttenuation cos sin acos G self points perm env = Ok r ->
  Forall (path_over env points) r /\ length r = length points.
Proof.
  unfold computeReflectionAttenuation. intros H. split.
  - apply Forall_forall. intros a Ha. destruct (select_inv _ _ _ H a Ha) as (p & Hp & Hf). unfold reflection_attenuation in Hf.
    apply bind_Ok in Hf as (gamma & _ & Hf). apply bind_Ok in Hf as (a' & Ha' & Hf). apply Ok_inj in Hf as [= ->].
    by eapply create_path.
  - apply (select_all _ _ _ H). intros p o _ Hf. unfold reflection_attenuation in Hf.
    apply bind_Ok in Hf as (gamma & _ & Hf). apply bind_Ok in Hf as (a' & Ha' & Hf). apply Ok_inj in Hf as <-. by eexists.
Qed.
Lemma diffraction_paths corners limit env r :
  computeDiffractionAttenuation log10 dB2fraction G corners limit env = Ok r ->
  Forall (fun a => path_over env corners a /\ dltb limit (length_of a) = false) r.
Proof.
  intros H. apply Forall_forall. intros a Ha. destruct (select_inv _ _ _ H a Ha) as (p & Hp & Hf).
  unfold diffraction_attenuation in Hf. destruct (dltb limit (path_length G env p)) eqn:Hl; [done|].
  case_match; [done|]. apply bind_Ok in Hf as (a' & Ha' & Hf). apply Ok_inj in Hf as [= ->].
  destruct (create_path env corners p _ a Hp Ha') as [H1 (q & Hq & Hqa)]. split; [by split; [|exists q]|].
  unfold Attenuation_create in Ha'. apply bind_Ok in Ha' as (u & _ & Ha'). by apply Ok_inj in Ha' as <-.
Qed.

Variable coord_distance : Coord -> Coord -> double.
(** [C27] The loss behind buildings, when it is computed, combines attenuations of paths that
    are free: each reflected path goes over a point of a wall that is seen from both ends,
    with one attenuation per point, and each diffracted path over a corner of an obstructing
    building that neither a building nor a tall vehicle hides from an end; all attenuate.
    No diffracted path is longer than the range or than any reflected path.  The loss is the
    greater of the combination, which is between zero and one, and of the log-distance
    model. *)
Theorem paths_behind_buildings itx irx waveLength loss :
  buildings_computePathLoss pow cos sin acos log10 dB2fraction closing_view intersection intersects within G
    mObstacleIndex mVehicleIndex self coord_distance itx irx waveLength = Ok loss ->
  exists env points reflected corners diffracted limit combined,
    Environment_create G mObstacleIndex mVehicleIndex self itx irx waveLength = Ok env /\
    Forall (reflects env) points /\ Forall (path_over env points) reflected /\ length reflected = length points /\
    corners ≡ₚ List.filter (both_seen env) (corners_between env) /\ Forall (path_over env corners) diffracted /\
    dltb (maxRange self) limit = false /\ Forall (fun a => dltb (length_of a) limit = false) reflected /\
    Forall (fun a => dltb limit (length_of a) = false) diffracted /\
    combineAttenuations cos (diffracted ++ reflected) (env_lambda env) = Ok combined /\
    dleb d_zero combined = true /\ dleb combined (d_of_Z 1) = true /\
    loss = d_max combined (computeLogDistanceLoss pow self (coord_distance itx irx) (env_lambda env)).
Proof.
  unfold buildings_computePathLoss. rewrite bind_Ok. intros (env & Henv & H).
  apply bind_Ok in H as (rb & Hrb & H). apply bind_Ok in H as (rv & Hrv & H). cbv zeta in H.
  apply bind_Ok in H as (corners & Hc & H). apply bind_Ok in H as (diff & Hd & H).
  apply bind_Ok in H as (combined & Hcomb & H). apply Ok_inj in H as <-.
  set (pb := computeReflectionRaysFromBuildings closing_view intersection intersects G env) in *.
  set (pv := computeReflectionRaysFromVehicles closing_view intersection intersects within G env) in *.
  set (limit := foldl shorter (foldl shorter (maxRange self) rb) rv) in *.
  destruct (reflection_paths _ _ _ _ Hrb) as [Hb Hlb], (reflection_paths _ _ _ _ Hrv) as [Hv Hlv].
  destruct (shorter_spec rb (maxRange self)) as [H1 H2], (shorter_spec rv (foldl shorter (maxRange self) rb)) as [H3 H4].
  destruct (diffraction_corners env) as (l & Hl & Hperm). rewrite Hc in Hl. apply Ok_inj in Hl as <-.
  pose proof (diffraction_paths _ _ _ _ Hd) as Hdiff. apply Forall_and in Hdiff as [Hover Hlim].
  exists env, (pb ++ pv), (rb ++ rv), corners, diff, limit, combined.
  assert (Hcom : dleb d_zero combined && dleb combined (d_of_Z 1) = true).
  { unfold combineAttenuations in Hcomb. apply bind_Ok in Hcomb as (u & Hu & Hcomb). apply Ok_inj in Hcomb as <-.
    unfold assert_ in Hu. by destruct (dleb d_zero _ && dleb _ _). }
  apply andb_true_iff in Hcom as [Hc1 Hc2]. split_and!; try done.
  - apply Forall_forall. intros p. apply reflection_points.
  - apply Forall_app. split; [eapply Forall_impl; [exact Hb|]|eapply Forall_impl; [exact Hv|]];
      intros a [Ha (p & Hp & Hpl)]; (split; [done|]); exists p; rewrite elem_of_app; auto.
  - by rewrite !length_app, Hlb, Hlv.
  - apply (below_trans _ (foldl shorter (maxRange self) rb)); [done|].
    destruct H1 as [->|H1]; [apply dltb_irrefl|]. apply not_true_iff_false. intros H5.
    pose proof (dltb_trans _ _ _ H1 H5) as H6. by rewrite dltb_irrefl in H6.
  - apply Forall_app. split; [|done]. eapply Forall_impl; [exact H2|]. intros a Ha. cbn in Ha |- *.
    apply not_true_iff_false. intros H5. destruct H3 as [H3|H3]; fold limit in H3.
    + rewrite H3 in H5. congruence.
    + rewrite (dltb_trans _ _ _ H5 H3) in Ha. done.
Qed.

(** When a point on a wall is seen to meet the building, no building reflects. *)
Lemma walls_hide_themselves env :
  (forall o wall ray p, o ∈ env_obstacles env -> wall ∈ walls (closing_view (getOutline o)) -> intersection wall ray = [p] ->
     intersects [env_tx env; p; env_rx env] (getOutline o) = true) ->
  computeReflectionRaysFromBuildings closing_view intersection intersects G env = [].
Proof.
  intros H. unfold computeReflectionRaysFromBuildings.
  assert (Hnone : forall o, o ∈ env_obstacles env -> outline_reflections closing_view intersection intersects G env (getOutline o) = []).
  { intros o Ho. unfold outline_reflections. case_match; [done|].
    assert (Hw : forall w, w ∈ walls (closing_view (getOutline o)) -> wall_reflection intersection intersects G env w = None).
    { intros w Hw. unfold wall_reflection. destruct (dltb _ _); [done|].
      destruct (intersection w _) as [|p [|]] eqn:Hi; [done| |done]. unfold isRayObstructed.
      rewrite (proj2 (existsb_exists _ _)); [done|]. exists o. split; [by apply list_elem_of_In|]. by apply (H o w _ p Ho) in Hi. }
    induction (walls (closing_view (getOutline o))) as [|w ws IH]; [done|]. cbn. rewrite Hw by by constructor.
    apply IH. intros w' Hw'. apply Hw. by constructor. }
  clear H. revert Hnone. generalize (env_obstacles env). intros os Hnone. induction os as [|o os IH]; [done|]. cbn. rewrite Hnone by by constructor. cbn. apply IH.
  intros o' Ho'. apply Hnone. by constructor.
Qed.
End Paths.

(** ** A wall between two stations *)
(** A line crosses an outline when it meets the inside of its envelope, in the thin direction the line of it. *)
Definition ex_crosses (l : Position * Position) (o : outline) : bool :=
  let b := ex_envelope [l.1; l.2] in
  let c := ex_envelope o in
  dltb (pos_x b.1) (pos_x c.2) && dltb (pos_x c.1) (pos_x b.2) && dltb (pos_y b.1) (pos_y c.2) && dltb (pos_y c.1) (pos_y b.2).
Definition ex_wall_geo : Geo := {|
  distance := ex_distance;
  box := Position * Position;
  make_box := fun p q => (p, q);
  return_envelope := ex_envelope;
  box_meets_line := fun b l => ex_meets b (ex_envelope [l.1; l.2]);
  box_meets_box := ex_meets;
  query_line := fun K values l => List.filter (fun v => ex_meets v.1 (ex_envelope [l.1; l.2])) values;
  query_box := fun K values b => List.filter (fun v => ex_meets v.1 b) values;
  crosses := ex_crosses;
  cuts := fun l o => ex_meets (ex_envelope o) (ex_envelope l);
  correct := fun o => o;
  is_valid := fun o => Nat.ltb 2 (length o);
  return_centroid := fun o => match o with [] => mkPosition d_zero d_zero | p :: _ => p end;
  area := fun _ => d_of_Z 1;
  rotate := fun _ p => p;
  translate := fun x y p => mkPosition (dadd x (pos_x p)) (dadd y (pos_y p))
|}.
#[export] Instance ex_wall_laws : GeoLaws ex_wall_geo.
Proof.
  split; try done. intros l o. change (ex_crosses l o = true -> ex_meets (ex_envelope o) (ex_envelope [l.1; l.2]) = true).
  unfold ex_crosses, ex_meets.
  intros [[[H1 H2]%andb_true_iff H3]%andb_true_iff H4]%andb_true_iff.
  by rewrite (dltb_dleb _ _ H1), (dltb_dleb _ _ H2), (dltb_dleb _ _ H3), (dltb_dleb _ _ H4).
Qed.

Definition ex_wall : Obstacle := mkObstacle [ex_point 10 (-1); ex_point 10 1] (ex_point 10 0) (d_of_Z 1).
Definition ex_walls : ObstacleIndex ex_wall_geo := mkObstacleIndex ex_wall_geo [] [ex_wall] (obstacle_values ex_wall_geo [ex_wall]).
Definition ex_no_vehicles : VehicleIndex ex_wall_geo := vehicle_initialize ex_wall_geo d_zero.
Definition ex_nlosb : NLOSb_module := mkNLOSb (d_of_Z 100) (d_of_Z 2) (d_of_Z 6) (d_of_Z 4) "v"%char.
Definition ex_square_of (x _ : double) : double := dmul x x.
Definition ex_one (_ : double) : double := d_of_Z 1.
Definition ex_closed (o : outline) : list Position := o ++ take 1 o.
(** Segments meet nowhere, but at this point when one ends there. *)
Definition ex_shared (a b : segment) : list Position := [].
Definition ex_touch (l : list Position) (o : outline) : bool := ex_meets (ex_envelope o) (ex_envelope l).
Definition ex_inside (p : Position) (o : outline) : bool := false.
Definition ex_behind_wall : res double :=
  buildings_computePathLoss ex_square_of ex_one ex_one ex_one (fun _ => d_zero) (fun _ => d_of_Z 2) ex_closed ex_shared ex_touch
    ex_inside ex_wall_geo ex_walls ex_no_vehicles ex_nlosb ex_coord_distance (ex_coord 0 0) (ex_coord 20 0) (d_lit 1 20).

(** Both ends of the wall diffract. *)
Lemma behind_wall_ok : is_ok ex_behind_wall = true.
Proof. vm_compute. reflexivity. Qed.
Example both_ends_diffract :
  let env := mkEnvironment (ex_point 0 0) (ex_point 20 0) (d_of_Z 1) (d_of_Z 1) [ex_wall] [] (d_lit 1 20) in
  computeDiffractionRays ex_wall_geo ex_walls ex_no_vehicles env = Ok [ex_point 10 (-1); ex_point 10 1].
Proof. vm_compute. reflexivity. Qed.

Definition ex_bounded (r : res double) : Prop :=
  match r with
  | Ok loss => exists combined, dleb d_zero combined = true /\ dleb combined (d_of_Z 1) = true /\
      loss = d_max combined (computeLogDistanceLoss ex_square_of ex_nlosb (ex_coord_distance (ex_coord 0 0) (ex_coord 20 0)) (d_lit 1 20))
  | Fail _ => False
  end.
Lemma paths_behind_buildings_witness : ex_bounded ex_behind_wall.
Proof.
  pose proof (fun loss => paths_behind_buildings ex_square_of ex_one ex_one ex_one (fun _ => d_zero) (fun _ => d_of_Z 2) ex_closed
    ex_shared ex_touch ex_inside ex_wall_geo ex_walls ex_no_vehicles ex_nlosb eq_refl
    ltac:(split; [reflexivity|apply om_wf_nil|reflexivity|reflexivity]) ex_coord_distance (ex_coord 0 0) (ex_coord 20 0) (d_lit 1 20) loss) as H.
  generalize behind_wall_ok. revert H. fold ex_behind_wall. generalize ex_behind_wall. intros [loss|f] H Hok; [|discriminate Hok].
  destruct (H loss eq_refl) as (env & points & reflected & corners & diffracted & limit & combined & Henv & _ & _ & _ & _ & _ & _ & _ & _ & _ & H0 & H1 & Hloss).
  exists combined. split; [exact H0|split; [exact H1|]]. rewrite Hloss.
  replace (env_lambda env) with (d_lit 1 20); [reflexivity|]. clear - Henv. unfold Environment_create in Henv.
  apply bind_Ok in Henv as (os & _ & Henv). apply bind_Ok in Henv as (vs & _ & Henv). apply Ok_inj in Henv. rewrite <- Henv. reflexivity.
Defined.

(** ** Behaviours at the edges *)
(** The computed cosine of an angle can be greater than one: both ends in the same direction. *)
Example cosine_above_one : dltb (d_of_Z 1) (cos_between (ex_point 0 0) (ex_point 2 3) (ex_point 2 3)) = true.
Proof. vm_compute. reflexivity. Qed.
(** Without a number for the angle the coefficient is refused. *)
Example angle_not_a_number :
  computeReflectionCoefficient (fun x => x) (fun x => x) ex_nlosb d_nan (d_of_Z 4) = Fail (AssertFailed "std::abs(gamma) <= 1.0").
Proof. vm_compute. reflexivity. Qed.
