(* ===== verification/Inet.v ===== *)
(** * Coordinates and loss models of the radio framework

    What the framework uses of INET ([src/extern/inet/]): coordinates, Euler angles and
    rotations, decibels and the free space loss; and the loss models it adds: near and far
    models ([inet/DistanceSwitchPathLoss.cc]) and Nakagami fading with a dual slope
    ([inet/VanetNakagamiFading.cc]).  The functions of the mathematical library and the
    random numbers are parameters. *)

From S2P Require Import Prelude Float64 VehicleData Gemv2Index.

(** ** Coordinates *)
Definition coord_add (a b : Coord) : Coord :=
  mkCoord (dadd (coord_x a) (coord_x b)) (dadd (coord_y a) (coord_y b)) (dadd (coord_z a) (coord_z b)).
Definition coord_sub (a b : Coord) : Coord :=
  mkCoord (dsub (coord_x a) (coord_x b)) (dsub (coord_y a) (coord_y b)) (dsub (coord_z a) (coord_z b)).
Definition coord_scale (a : Coord) (f : double) : Coord := mkCoord (dmul (coord_x a) f) (dmul (coord_y a) f) (dmul (coord_z a) f).
Definition coord_length (a : Coord) : double :=
  d_sqrt (dadd (dadd (dmul (coord_x a) (coord_x a)) (dmul (coord_y a) (coord_y a))) (dmul (coord_z a) (coord_z a))).
Definition coord_distance (a b : Coord) : double := coord_length (coord_sub a b).
Definition coord_min (a b : Coord) : Coord :=
  let least x y := if dltb x y then x else y in
  mkCoord (least (coord_x a) (coord_x b)) (least (coord_y a) (coord_y b)) (least (coord_z a) (coord_z b)).
Definition coord_max (a b : Coord) : Coord :=
  let greatest x y := if dltb y x then x else y in
  mkCoord (greatest (coord_x a) (coord_x b)) (greatest (coord_y a) (coord_y b)) (greatest (coord_z a) (coord_z b)).

(** ** Rotations *)
Record EulerAngles := mkAngles { alpha : double; beta : double; gamma : double }.
Definition angles_add (a b : EulerAngles) : EulerAngles :=
  mkAngles (dadd (alpha a) (alpha b)) (dadd (beta a) (beta b)) (dadd (gamma a) (gamma b)).
Definition no_angles : EulerAngles := mkAngles d_zero d_zero d_zero.
Definition matrix : Type := (Coord * Coord * Coord)%type.
Definition matrixMultiplication (m : matrix) (v : Coord) : Coord :=
  let row (r : Coord) :=
    dadd (dadd (dmul (coord_x v) (coord_x r)) (dmul (coord_y v) (coord_y r))) (dmul (coord_z v) (coord_z r)) in
  mkCoord (row m.1.1) (row m.1.2) (row m.2).
Definition computeRotationMatrices (q0 q1 q2 q3 : double) : matrix :=
  let two x := dmul (d_of_Z 2) x in
  let one_less x := dsub (d_of_Z 1) (two x) in
  (mkCoord (one_less (dadd (dmul q2 q2) (dmul q3 q3))) (two (dsub (dmul q1 q2) (dmul q0 q3))) (two (dadd (dmul q0 q2) (dmul q1 q3))),
   mkCoord (two (dadd (dmul q1 q2) (dmul q0 q3))) (one_less (dadd (dmul q1 q1) (dmul q3 q3))) (two (dsub (dmul q2 q3) (dmul q0 q1))),
   mkCoord (two (dsub (dmul q1 q3) (dmul q0 q2))) (two (dadd (dmul q0 q1) (dmul q2 q3))) (one_less (dadd (dmul q1 q1) (dmul q2 q2)))).

Section Libm.
Variable cos : double -> double.
Variable sin : double -> double.
Variable log10 : double -> double.
Variable pow : double -> double -> double.

Definition Rotation (e : EulerAngles) : matrix :=
  let half x := ddiv x (d_of_Z 2) in
  let ca := cos (half (alpha e)) in let sa := sin (half (alpha e)) in
  let cb := cos (half (beta e)) in let sb := sin (half (beta e)) in
  let cg := cos (half (gamma e)) in let sg := sin (half (gamma e)) in
  let mul3 x y z := dmul (dmul x y) z in
  computeRotationMatrices
    (dadd (mul3 ca cb cg) (mul3 sa sb sg)) (dsub (mul3 sa cb cg) (mul3 ca sb sg))
    (dadd (mul3 ca sb cg) (mul3 sa cb sg)) (dsub (mul3 ca cb sg) (mul3 sa sb cg)).

Definition dB2fraction (dB : double) : double := pow (d_of_Z 10) (ddiv dB (d_of_Z 10)).
Definition computeFreeSpacePathLoss (waveLength distance alpha systemLoss : double) : double :=
  if deqb distance d_zero then d_of_Z 1
  else ddiv (dmul waveLength waveLength)
         (dmul (dmul (dmul (dmul (d_of_Z 16) d_pi) d_pi) systemLoss) (pow distance alpha)).

(** ** Near and far *)
Record DistanceSwitchPathLoss := mkSwitch {
  mThreshold : double;
  mModelNear : double -> double -> double -> res double; mModelFar : double -> double -> double -> res double;
  rangeOfNear : double -> double -> double -> double; rangeOfFar : double -> double -> double -> double
}.
(** Including the positions, which the models may use. *)
Definition switch_initialize (thresholdDistance : double) near far rangeNear rangeFar : res DistanceSwitchPathLoss :=
  if dleb thresholdDistance d_zero then Fail (RuntimeError "threshold distance has to be positive")
  else Ok (mkSwitch thresholdDistance near far rangeNear rangeFar).
Definition switch_computePathLoss (s : DistanceSwitchPathLoss) (propagation frequency distance : double) : res double :=
  if dltb distance (mThreshold s) then mModelNear s propagation frequency distance
  else mModelFar s propagation frequency distance.
Definition switch_computeRange (s : DistanceSwitchPathLoss) (propagation frequency loss : double) : double :=
  let rangeNear := rangeOfNear s propagation frequency loss in
  let rangeFar := rangeOfFar s propagation frequency loss in
  if dltb rangeNear rangeFar then rangeFar else rangeNear.

(** ** Nakagami fading *)
Record VanetNakagamiFading := mkFading {
  m_critical_distance : double;
  m_gamma1 : double; m_gamma2 : double;
  m_sigma1 : double; m_sigma2 : double;
  m_default_shape : double;
  m_shapes : list (double * double);  (** in the order of the distances *)
  fading_alpha : double; systemLoss : double
}.
(** An element of the configuration: its tag, its attributes and its children of the tag [shape]. *)
Record shape_tag := mkShape { shape_distance : option string; shape_value : option string }.
Record shapes_tag := mkShapes { tag_name : string; default_attr : option string; shape_tags : list shape_tag }.
Variable lexical_cast : string -> res double.

(** [std::map::operator[]] with an order of numbers. *)
Fixpoint set_shape (d v : double) (l : list (double * double)) : list (double * double) :=
  match l with
  | [] => [(d, v)]
  | (x, w) :: l' => if dltb d x then (d, v) :: l else if dltb x d then (x, w) :: set_shape d v l' else (x, v) :: l'
  end.
Definition parse_shape (l : list (double * double)) (t : shape_tag) : res (list (double * double)) :=
  match shape_distance t with
  | None => Fail (RuntimeError "XML Nakagami configuration contains <shape> tag without 'distance' attribute")
  | Some dist_attr =>
      match shape_value t with
      | None => Fail (RuntimeError "XML Nakagami configuration contains <shape> tag without 'value' attribute")
      | Some value_attr =>
          dist ← lexical_cast dist_attr;
          value ← lexical_cast value_attr;
          Ok (set_shape dist value l)
      end
  end.
Definition parseShapeFactors (shapes : option shapes_tag) : res (double * list (double * double)) :=
  match shapes with
  | None => Fail (RuntimeError "XML Nakagami shape factor configuration does not start with <shapes> tag")
  | Some t =>
      if String.eqb (tag_name t) "shapes" then
        match default_attr t with
        | None => Fail (RuntimeError "Missing mandatory 'default' attribute in root <shapes> tag")
        | Some default_value =>
            default_shape ← lexical_cast default_value;
            l ← res_fold parse_shape (shape_tags t) [];
            Ok (default_shape, l)
        end
      else Fail (RuntimeError "XML Nakagami shape factor configuration does not start with <shapes> tag")
  end.
(** The exponent and the system loss stay those of the base class's constructor, whose own
    initialisation is not called. *)
Definition fading_initialize (criticalDistance gamma1 gamma2 sigma1 sigma2 : double) (shapes : option shapes_tag) : res VanetNakagamiFading :=
  if dltb criticalDistance (d_of_Z 1) then Fail (RuntimeError "criticalDistance is expected to be greater than 1 meter")
  else
    x ← parseShapeFactors shapes;
    Ok (mkFading criticalDistance gamma1 gamma2 sigma1 sigma2 x.1 x.2 (d_of_Z 2) (d_of_Z 1)).

(** [std::map::lower_bound] *)
Fixpoint shape_from (dist : double) (l : list (double * double)) : option double :=
  match l with
  | [] => None
  | (x, v) :: l => if dltb x dist then shape_from dist l else Some v
  end.
Definition lookUpShapeFactor (s : VanetNakagamiFading) (dist : double) : double :=
  default (m_default_shape s) (shape_from dist (m_shapes s)).

(** Random numbers: [normal] and [gamma_d] with the number drawn so far. *)
Variable normal : nat -> double -> double -> double.
Variable gamma_d : nat -> double -> double -> double.
Definition slope_dB (gamma from to : double) : double := dmul (dmul (d_of_Z 10) gamma) (log10 (ddiv to from)).
(** The loss and the number of draws. *)
Definition computeDualSlopePathLoss (s : VanetNakagamiFading) (lambda dist : double) (drawn : nat) : double * nat :=
  let refDist := d_of_Z 1 in
  let refLoss := computeFreeSpacePathLoss lambda refDist (fading_alpha s) (systemLoss s) in
  let '(loss, drawn) :=
    if dltb dist refDist then (refLoss, drawn)
    else if dltb dist (m_critical_distance s)
    then (dadd (slope_dB (m_gamma1 s) refDist dist) (normal drawn d_zero (m_sigma1 s)), S drawn)
    else (dadd (dadd (slope_dB (m_gamma1 s) refDist (m_critical_distance s)) (slope_dB (m_gamma2 s) (m_critical_distance s) dist))
            (normal drawn d_zero (m_sigma2 s)), S drawn) in
  (ddiv refLoss (dB2fraction loss), drawn).
Definition fading_computePathLoss (s : VanetNakagamiFading) (propagationSpeed freq dist : double) (drawn : nat) : double * nat :=
  let shapeFactor := lookUpShapeFactor s dist in
  let '(omega, drawn) := computeDualSlopePathLoss s (ddiv propagationSpeed freq) dist drawn in
  (gamma_d drawn shapeFactor (ddiv omega shapeFactor), S drawn).
End Libm.

(** ** The shape factor of a distance *)
Definition closer (a b : double * double) : Prop := dltb a.1 b.1 = true.
Definition numbers (l : list (double * double)) : Prop := Forall (fun p => d_is_nan p.1 = false) l.
Lemma set_shape_keys d v l p : p ∈ set_shape d v l -> p.1 = d \/ p.1 ∈ l.*1.
Proof.
  induction l as [|[x w] l IH]; cbn; [intros ->%list_elem_of_singleton; by left|]. destruct (dltb d x).
  { intros [->|Hp]%elem_of_cons; [by left|]. right. change (p.1 ∈ ((x, w) :: l).*1). by apply list_elem_of_fmap_2. }
  destruct (dltb x d); (intros [->|Hp]%elem_of_cons; [right; constructor|]).
  - destruct (IH Hp); [by left|right; by constructor].
  - right. constructor. by apply list_elem_of_fmap_2.
Qed.
Lemma set_shape_sorted d v l : d_is_nan d = false -> numbers l -> StronglySorted closer l ->
  StronglySorted closer (set_shape d v l) /\ numbers (set_shape d v l).
Proof.
  unfold numbers. intros Hd Hl. induction 1 as [|[x w] l Hs IH Hx]; cbn; [by repeat constructor|].
  inversion_clear Hl as [|?? Hxn Hln]. cbn in Hxn. destruct (dltb d x) eqn:H1.
  { split; [|by repeat constructor]. constructor; [by constructor|]. constructor; [done|].
    eapply Forall_impl; [exact Hx|]. intros p Hp. by apply (dltb_trans _ x). }
  destruct (dltb x d) eqn:H2; (split; [|constructor; [done|]]).
  - constructor; [by apply IH|]. rewrite Forall_forall in *.
    intros p [Hp|([y u] & Hy & Hin)%list_elem_of_fmap]%set_shape_keys; unfold closer; cbn; [by rewrite Hp|].
    rewrite Hy. by apply (Hx (y, u)).
  - by apply IH.
  - by constructor.
  - done.
Qed.
(** The configured factor for a distance is that of the least configured distance not below
    it, or the default one beyond all. *)
Lemma parsed_shapes lexical_cast tags l0 l : (forall t d, lexical_cast t = Ok d -> d_is_nan d = false) ->
  numbers l0 -> StronglySorted closer l0 -> res_fold (parse_shape lexical_cast) tags l0 = Ok l ->
  StronglySorted closer l /\ numbers l.
Proof.
  intros Hlex Hn Hs. apply (res_fold_inv (fun l => StronglySorted closer l /\ numbers l)); [|done].
  intros t m m' _ [Hm Hmn]. unfold parse_shape. destruct (shape_distance t) as [ds|]; [|done]. destruct (shape_value t) as [vs|]; [|done].
  rewrite bind_Ok. intros (d & Hd & H). apply bind_Ok in H as (v & _ & H). apply Ok_inj in H as <-.
  apply set_shape_sorted; [by eapply Hlex|done..].
Qed.
Lemma shape_of_nearest l x : numbers l -> d_is_nan x = false -> StronglySorted closer l ->
  match shape_from x l with
  | Some v => exists d, (d, v) ∈ l /\ dleb x d = true /\ forall p, p ∈ l -> dleb x p.1 = true -> dleb d p.1 = true
  | None => forall p, p ∈ l -> dltb p.1 x = true
  end.
Proof.
  intros Hl Hx. induction 1 as [|[y w] l Hs IH Hy]; cbn; [by intros p ?%not_elem_of_nil|].
  inversion_clear Hl as [|?? Hyn Hln]. cbn in Hyn. specialize (IH Hln). destruct (dltb y x) eqn:H1.
  - destruct (shape_from x l) as [v|].
    + destruct IH as (d & Hd & Hle & Hleast). exists d. split_and!; [by constructor|done|].
      intros p [->|Hp]%elem_of_cons Hxp; [|by apply Hleast]. apply dltb_dleb_antisym in H1. cbn in Hxp. congruence.
    + intros p [->|Hp]%elem_of_cons; [done|by apply IH].
  - exists y. split_and!; [by constructor|by apply dltb_false|]. rewrite Forall_forall in Hy.
    intros p [->|Hp]%elem_of_cons _; [by apply dleb_refl|]. by apply dltb_dleb, (Hy p).
Qed.

Theorem fading_shape_of_nearest lexical_cast critical gamma1 gamma2 sigma1 sigma2 shapes s x :
  (forall t d, lexical_cast t = Ok d -> d_is_nan d = false) ->
  fading_initialize lexical_cast critical gamma1 gamma2 sigma1 sigma2 shapes = Ok s ->
  d_is_nan x = false ->
  (exists d, (d, lookUpShapeFactor s x) ∈ m_shapes s /\ dleb x d = true /\
     forall p, p ∈ m_shapes s -> dleb x p.1 = true -> dleb d p.1 = true) \/
  (lookUpShapeFactor s x = m_default_shape s /\ forall p, p ∈ m_shapes s -> dltb p.1 x = true).
Proof.
  intros Hlex Hinit Hx. unfold fading_initialize in Hinit. case_match; [done|].
  apply bind_Ok in Hinit as ([def l] & Hp & H'). apply Ok_inj in H' as <-. unfold lookUpShapeFactor. cbn.
  unfold parseShapeFactors in Hp. destruct shapes as [t|]; [|done]. case_match; [|done]. destruct (default_attr t) as [dv|]; [|done].
  apply bind_Ok in Hp as (d0 & _ & Hp). apply bind_Ok in Hp as (l' & Hl & Hp). apply Ok_inj in Hp as [= -> ->].
  apply parsed_shapes in Hl as [Hs Hn]; [|done|constructor|constructor].
  pose proof (shape_of_nearest l x Hn Hx Hs) as Hnear. destruct (shape_from x l) as [v|]; [left|right]; done.
Qed.

