(* ===== verification/Mobility.v ===== *)
(** * Mobility and position providers

    How a vehicle's movement reaches its node: the vehicle controller that reads the
    vehicle's cache ([traci/VehicleController.cc], [VehicleType.cc]), the base of the
    mobility modules ([traci/MobilityBase.cc]) with its two implementations
    ([inet/InetMobility.cc], [veins/VeinsMobility.cc]), the antenna on a vehicle
    ([inet/AntennaMobility.cc]) and the position providers of the networking layer
    ([networking/VehiclePositionProvider.cc], [StationaryPositionProvider.cc]).  Each
    mobility module implements an interface with laws; what the node manager does with it
    is proved against the interface. *)

From S2P Require Import Prelude OMap Float64 VehicleData TraciCache TraciNodes TraciScopes Gemv2Index Inet.

(** ** Vehicle controller *)
(** Values come from the vehicle's cache, which a read may fill. *)
Definition get_string (api : LiteAPI) (v : variable) (c : VariableCache) : res (string * VariableCache) :=
  x ← get api v c;
  match x with
  | (TraCIString s, c) => Ok (s, c)
  | _ => Fail (AssertFailed "ptr != nullptr")
  end.
Record VehicleController := mkController { controller_id : string; controller_boundary : Boundary; controller_type : string }.
Definition controller_create (api : LiteAPI) (net : res (list (double * double * double))) (c : VariableCache) :
    res VehicleController :=
  pv ← net;
  boundary ← boundary_of pv;
  type ← getString api CMD_GET_VEHICLE_VARIABLE (var_code VAR_TYPE) (m_id c);
  Ok (mkController (m_id c) boundary type).

Section Controller.
Variable api : LiteAPI.
(** [LiteAPI::convertGeo]: the answer of the simulator. *)
Variable convertGeo : double * double * double -> res GeoPosition.
Variable self : VehicleController.

Definition controller_getTypeId (c : VariableCache) : res (string * VariableCache) := get_string api VAR_TYPE c.
Definition controller_getVehicleClass (c : VariableCache) : res (string * VariableCache) := get_string api VAR_VEHICLECLASS c.
Definition controller_getPosition (c : VariableCache) : res (Position * VariableCache) :=
  x ← get_position api VAR_POSITION c;
  let '(pos, c) := x : double * double * double * VariableCache in
  Ok (position_cast (controller_boundary self) pos.1, c).
Definition controller_getGeoPosition (c : VariableCache) : res (GeoPosition * VariableCache) :=
  x ← get_position api VAR_POSITION c;
  let '(pos, c) := x : double * double * double * VariableCache in
  geo ← convertGeo pos;
  Ok (geo, c).
Definition controller_getHeading (c : VariableCache) : res (double * VariableCache) :=
  x ← get_double api VAR_ANGLE c;
  let '(angle, c) := x : double * VariableCache in
  Ok (angle_cast angle, c).
Definition controller_getSpeed (c : VariableCache) : res (double * VariableCache) := get_double api VAR_SPEED c.
Definition controller_getMaxSpeed (c : VariableCache) : res (double * VariableCache) := get_double api VAR_MAXSPEED c.
Definition controller_getLength (c : VariableCache) : res (double * VariableCache) := get_double api VAR_LENGTH c.
Definition controller_getWidth (c : VariableCache) : res (double * VariableCache) := get_double api VAR_WIDTH c.
(** Commands are the settings of the traffic simulator's interface. *)
Definition controller_setMaxSpeed (v : double) : setting := VehicleScope_setMaxSpeed (controller_id self) v.
Definition controller_setSpeed (v : double) : setting := VehicleScope_setSpeed (controller_id self) v.
Definition controller_setSpeedFactor (f : double) : setting := VehicleScope_setSpeedFactor (controller_id self) f.
Definition controller_changeTarget (edge : string) : setting := VehicleScope_changeTarget (controller_id self) edge.

(** The type of the vehicle is asked for each time. *)
Definition type_double (var : Z) : res double := getDouble api libsumo.CMD_GET_VEHICLETYPE_VARIABLE var (controller_type self).
Definition type_getVehicleClass : res string :=
  getString api libsumo.CMD_GET_VEHICLETYPE_VARIABLE libsumo.VAR_VEHICLECLASS (controller_type self).
Definition type_getMaxSpeed : res double := type_double libsumo.VAR_MAXSPEED.
Definition type_getMaxAcceleration : res double := type_double libsumo.VAR_ACCEL.
Definition type_getMaxDeceleration : res double := type_double libsumo.VAR_DECEL.
Definition type_getLength : res double := type_double libsumo.VAR_LENGTH.
Definition type_getWidth : res double := type_double libsumo.VAR_WIDTH.
Definition type_getHeight : res double := type_double libsumo.VAR_HEIGHT.
End Controller.

(** ** Mobility modules *)
(** What [MobilityBase] asks of a mobility module: to take a position, a heading in radians
    and a speed, at first and later; and to tell of every later one.  The stages of the
    module's own initialisation follow the first. *)
Class Mobility (S : Type) := {
  fresh : S;
  initialize : Position -> double -> double -> S -> res S;
  start : S -> S;
  update : Position -> double -> double -> S -> res S;
  moved_to : Position -> double -> double -> S -> Prop;
  told_changes : S -> nat
}.
Class MobilityLaws (S : Type) `{!Mobility S} : Prop := {
  initialize_moves : forall p a v s s', initialize p a v s = Ok s' -> moved_to p a v s' /\ told_changes s' = told_changes s;
  update_moves : forall p a v s s', update p a v s = Ok s' -> moved_to p a v s' /\ told_changes s' = (told_changes s + 1)%nat;
  start_keeps : forall p a v s, moved_to p a v s -> moved_to p a v (start s);
  initialize_total : forall p a v s, exists s', initialize p a v s = Ok s';
  update_total : forall p a v s, exists s', update p a v s = Ok s'
}.

Section Base.
Context {S : Type} `{!Mobility S}.
(** [initializeVehicle] and [updateVehicle]. *)
Definition base_initializeVehicle (mNetBoundary : Boundary) (pos : double * double * double) (angle speed : double) (s : S) : res S :=
  initialize (position_cast mNetBoundary pos.1) (angle_cast angle) speed s.
Definition base_updateVehicle (mNetBoundary : Boundary) (pos : double * double * double) (angle speed : double) (s : S) : res S :=
  update (position_cast mNetBoundary pos.1) (angle_cast angle) speed s.
End Base.

(** The signals' names: [MobilityBase::stateChangedSignal] and those of the frameworks. *)
Definition stateChangedSignal : string := "mobilityStateChanged".

Section Implementations.
Variable cos : double -> double.
Variable sin : double -> double.
Definition direction (heading : double) : Coord := mkCoord (cos heading) (dopp (sin heading)) d_zero.

(** *** INET *)
Record InetMobility := mkInet {
  inet_position : Coord; inet_speed : Coord; inet_orientation : EulerAngles; mAntennaHeight : double; inet_told : nat
}.
Definition inet_create : InetMobility :=
  mkInet (mkCoord d_zero d_zero d_zero) (mkCoord d_zero d_zero d_zero) no_angles d_zero 0.
(** The stages of the module: the height is read, and the state is told of. *)
Definition inet_initialize_local (height : double) (s : InetMobility) : InetMobility :=
  mkInet (inet_position s) (inet_speed s) (inet_orientation s) height (inet_told s).
Definition inet_initialize_environment (s : InetMobility) : InetMobility :=
  mkInet (inet_position s) (inet_speed s) (inet_orientation s) (mAntennaHeight s) (inet_told s + 1).
Definition inet_initialize (pos : Position) (heading speed : double) (s : InetMobility) : InetMobility :=
  mkInet (mkCoord (pos_x pos) (pos_y pos) (mAntennaHeight s)) (coord_scale (direction heading) speed)
    (mkAngles (dopp heading) (beta (inet_orientation s)) (gamma (inet_orientation s))) (mAntennaHeight s) (inet_told s).
(** The parameter of the module, and the name of INET's signal, which has to be the same. *)
Variable antennaHeight : double.
Variable inet_mobilityStateChanged : string.
Definition inet_update (pos : Position) (heading speed : double) (s : InetMobility) : res InetMobility :=
  let s := inet_initialize pos heading speed s in
  assert_ "IMobility::mobilityStateChangedSignal == stateChangedSignal" (String.eqb inet_mobilityStateChanged stateChangedSignal) ;;
  Ok (mkInet (inet_position s) (inet_speed s) (inet_orientation s) (mAntennaHeight s) (inet_told s + 1)).
Definition getConstraintAreaMax (mNetBoundary : Boundary) (z : double) : Coord :=
  mkCoord (upperRightPosition mNetBoundary).1 (upperRightPosition mNetBoundary).2 z.
Definition getConstraintAreaMin (mNetBoundary : Boundary) (z : double) : Coord :=
  mkCoord (lowerLeftPosition mNetBoundary).1 (lowerLeftPosition mNetBoundary).2 z.
Definition inet_moved (p : Position) (a v : double) (s : InetMobility) : Prop :=
  coord_x (inet_position s) = pos_x p /\ coord_y (inet_position s) = pos_y p /\
  inet_speed s = coord_scale (direction a) v /\ alpha (inet_orientation s) = dopp a.
#[export] Instance inet_mobility : Mobility InetMobility := {|
  fresh := inet_create;
  initialize p a v s := Ok (inet_initialize p a v s);
  start s := inet_initialize_environment (inet_initialize_local antennaHeight s);
  update := inet_update;
  moved_to := inet_moved;
  told_changes := inet_told
|}.

(** *** Veins *)
(** The [move] member of Veins' base class: start, speed and direction. *)
Record VeinsMobility := mkVeins {
  veins_position : Coord; veins_direction : Coord; veins_speed : double;
  move_start : Coord; move_direction : Coord; move_speed : double;
  updatePosition_calls : nat; veins_told : nat
}.
(** The base class starts at the position of its parameters, at rest. *)
Variable veins_start : Coord.
Definition veins_create : VeinsMobility :=
  let origin := mkCoord d_zero d_zero d_zero in mkVeins origin origin d_zero origin origin d_zero 0 0.
Definition veins_initialize_stage0 (s : VeinsMobility) : VeinsMobility :=
  mkVeins (veins_position s) (veins_direction s) (veins_speed s) veins_start (mkCoord d_zero d_zero d_zero) d_zero
    (updatePosition_calls s) (veins_told s).
Definition veins_initialize_stage1 (s : VeinsMobility) : VeinsMobility :=
  let pos := mkCoord (coord_x (veins_position s)) (coord_y (veins_position s)) (coord_z (move_start s)) in
  mkVeins pos (veins_direction s) (veins_speed s) pos (veins_direction s) (veins_speed s) (updatePosition_calls s) (veins_told s).
Definition veins_initialize (pos : Position) (heading speed : double) (s : VeinsMobility) : VeinsMobility :=
  let pos := mkCoord (pos_x pos) (pos_y pos) (coord_z (veins_position s)) in
  mkVeins pos (direction heading) speed pos (direction heading) speed (updatePosition_calls s) (veins_told s).
(** The name of Veins' signal, which must not be the same. *)
Variable veins_mobilityStateChanged : string.
Definition veins_update (pos : Position) (heading speed : double) (s : VeinsMobility) : res VeinsMobility :=
  let s := veins_initialize pos heading speed s in
  assert_ "BaseMobility::mobilityStateChangedSignal != stateChangedSignal"
    (negb (String.eqb veins_mobilityStateChanged stateChangedSignal)) ;;
  Ok (mkVeins (veins_position s) (veins_direction s) (veins_speed s) (move_start s) (move_direction s) (move_speed s)
    (updatePosition_calls s + 1) (veins_told s + 1)).
Definition veins_moved (p : Position) (a v : double) (s : VeinsMobility) : Prop :=
  coord_x (veins_position s) = pos_x p /\ coord_y (veins_position s) = pos_y p /\ move_start s = veins_position s /\
  veins_direction s = direction a /\ move_direction s = direction a /\ veins_speed s = v /\ move_speed s = v.
#[export] Instance veins_mobility : Mobility VeinsMobility := {|
  fresh := veins_create;
  initialize p a v s := Ok (veins_initialize p a v s);
  start s := veins_initialize_stage1 (veins_initialize_stage0 s);
  update := veins_update;
  moved_to := veins_moved;
  told_changes := veins_told
|}.

Lemma inet_laws : inet_mobilityStateChanged = stateChangedSignal -> MobilityLaws InetMobility.
Proof.
  intros Heq. split; cbn; unfold inet_update; rewrite ?Heq, ?String.eqb_refl; cbn; eauto.
  - by intros p a v s s' <-%Ok_inj.
  - by intros p a v s s' <-%Ok_inj.
Qed.
Lemma veins_laws : veins_mobilityStateChanged <> stateChangedSignal -> MobilityLaws VeinsMobility.
Proof.
  intros Hne%String.eqb_neq. split; cbn; unfold veins_update; rewrite ?Hne; cbn; eauto.
  - by intros p a v s s' <-%Ok_inj.
  - by intros p a v s s' <-%Ok_inj.
  - intros p a v s (Hx & Hy & _ & Hd & _ & Hv & _). by repeat split.
Qed.
End Implementations.

(** ** Antennas *)
Section Antenna.
Variable cos : double -> double.
Variable sin : double -> double.
(** The parent's state as [inet::IMobility] gives it. *)
Record ParentMobility := mkParent {
  parent_position : Coord; parent_speed : Coord; parent_angles : EulerAngles; parent_angular_speed : EulerAngles;
  parent_max : Coord; parent_min : Coord
}.
Record AntennaMobility := mkAntenna { mOffsetCoord : Coord; mOffsetAngles : EulerAngles; mOffsetRotation : matrix }.
Definition antenna_initialize (x y z a b c : double) : AntennaMobility :=
  mkAntenna (mkCoord x y z) (mkAngles a b c) (Rotation cos sin (mkAngles a b c)).
(** The angles about the x and z axes are exchanged for the rotation. *)
Definition antenna_getCurrentPosition (s : AntennaMobility) (p : ParentMobility) : Coord :=
  let angles := parent_angles p in
  coord_add (parent_position p)
    (matrixMultiplication (Rotation cos sin (mkAngles (gamma angles) (beta angles) (alpha angles))) (mOffsetCoord s)).
Definition antenna_getCurrentSpeed (s : AntennaMobility) (p : ParentMobility) : Coord :=
  matrixMultiplication (mOffsetRotation s) (parent_speed p).
Definition antenna_getCurrentAngularPosition (s : AntennaMobility) (p : ParentMobility) : EulerAngles :=
  angles_add (parent_angles p) (mOffsetAngles s).
Definition antenna_getCurrentAngularSpeed (p : ParentMobility) : res EulerAngles :=
  let speed := parent_angular_speed p in
  if negb (deqb (alpha speed) d_zero) || negb (deqb (beta speed) d_zero) || negb (deqb (gamma speed) d_zero)
  then Fail (RuntimeError "non-zero angular speed is not supported") else Ok no_angles.
Definition antenna_getConstraintAreaMax (s : AntennaMobility) (p : ParentMobility) : Coord :=
  coord_max (coord_add (parent_max p) (mOffsetCoord s)) (parent_max p).
Definition antenna_getConstraintAreaMin (s : AntennaMobility) (p : ParentMobility) : Coord :=
  coord_min (coord_add (parent_min p) (mOffsetCoord s)) (parent_min p).
End Antenna.

(** ** Position providers *)
(** vanetza's position fix; the course is in degrees clockwise from north, with its
    confidence, as is the speed in metres per second. *)
Record PositionFix := mkFix {
  fix_timestamp : Z;
  fix_position : GeoPosition;
  semi_minor : double; semi_major : double;
  course : double * double;
  fix_speed : double * double
}.
Definition degree_of (radian : double) : double := ddiv (dmul radian (d_of_Z 180)) d_pi.

Section Providers.
Variable api : LiteAPI.
Variable convertGeo : double * double * double -> res GeoPosition.
(** [Angle::degree]. *)
Variable to_degree : double -> double.

(** The fix that is stored and emitted, and the cache after the reads. *)
Definition vehicle_updatePosition (now : Z) (c : VariableCache) : res (PositionFix * VariableCache) :=
  x ← controller_getGeoPosition api convertGeo c;
  let '(geopos, c) := x : GeoPosition * VariableCache in
  y ← controller_getHeading api c;
  let '(heading, c) := y : double * VariableCache in
  z ← controller_getSpeed api c;
  let '(speed, c) := z : double * VariableCache in
  Ok (mkFix now geopos (d_of_Z 5) (d_of_Z 5) (to_degree heading, d_of_Z 3) (speed, d_of_Z 1), c).
(** A signal is for the provider when it is the state change and there is a controller. *)
Definition provider_receiveSignal (signal : string) (has_controller : bool) (now : Z) (c : VariableCache) (fix_ : PositionFix) :
    res (PositionFix * VariableCache) :=
  if String.eqb signal stateChangedSignal && has_controller then vehicle_updatePosition now c else Ok (fix_, c).

(** The module a stationary node's position comes from. *)
Inductive mobility_module := InetModule (position : Coord) | VeinsModule (position : Coord) | OtherModule.
Definition getInitialPosition (m : mobility_module) : res Position :=
  match m with
  | InetModule p | VeinsModule p => Ok (ground p)
  | OtherModule => Fail (RuntimeError "no suitable mobility module found")
  end.
(** The course is not assigned. *)
Definition initializePosition (net : res (list (double * double * double))) (now : Z) (pos : Position) (old : PositionFix) :
    res PositionFix :=
  pv ← net;
  boundary ← boundary_of pv;
  geopos ← convertGeo (position_cast_back boundary pos);
  Ok (mkFix now geopos (d_of_Z 1) (d_of_Z 1) (course old) (d_zero, d_zero)).
Definition stationary_traciInit (net : res (list (double * double * double))) (now : Z) (m : mobility_module) (old : PositionFix) :
    res PositionFix :=
  pos ← getInitialPosition m;
  initializePosition net now pos old.
End Providers.

(** ** Invariants of the node manager *)
Section Manager.
Context {M : Type} `{!ModuleMapper M} (has_sink : module_type -> bool).
Context (createModule : string -> module_type -> BasicNodeManager M -> node * BasicNodeManager M).
Context (P : BasicNodeManager M -> Prop).
Hypothesis P_subs : forall b s, P s -> P (with_subs b s).
Hypothesis P_add : forall api id s s', P s -> basic_addVehicle has_sink createModule api id s = Ok s' -> P s'.
Hypothesis P_remove : forall id s, P s -> P (basic_removeVehicle id s).

Lemma P_sim_ids api v s ids s' : @sim_ids M _ (basic_manager has_sink createModule) api v s = Ok (ids, s') -> P s -> P s'.
Proof.
  unfold sim_ids. rewrite bind_Ok. intros ([l c] & _ & H) Hs. apply Ok_inj in H. inversion H; subst. by apply P_subs.
Qed.
Lemma P_adds api now ids s s' : P s ->
  res_fold (fun s id => @addVehicle M _ (basic_manager has_sink createModule) api now id s) ids s = Ok s' -> P s'.
Proof. apply res_fold_inv. intros id t t' _ Ht H. cbn in H. by eapply P_add. Qed.
Lemma P_removes api now ids s s' : P s ->
  res_fold (fun s id => @removeVehicle M _ (basic_manager has_sink createModule) api now id s) ids s = Ok s' -> P s'.
Proof. apply res_fold_inv. intros id t t' _ Ht H. cbn in H. apply Ok_inj in H as <-. by apply P_remove. Qed.

Lemma traciInit_invariant order api now s s' :
  P s -> @traciInit M _ (basic_manager has_sink createModule) order api now s = Ok s' -> P s'.
Proof.
  intros Hs. unfold traciInit. rewrite bind_Ok. intros (b1 & _ & H). apply bind_Ok in H as (b2 & _ & H).
  eapply P_adds; [|exact H]. by apply P_subs.
Qed.

(** Until its last loop a step keeps the invariant; the loop updates each vehicle once. *)
Lemma traciStep_phases dbl api now s s' :
  P s -> @traciStep M _ (basic_manager has_sink createModule) dbl api now s = Ok s' ->
  exists s0 s1, P s0 /\ res_fold (fun s (v : string * option node) => basic_updateVehicle api v.1 v.2 s) (m_vehicles s0) s0 = Ok s1 /\
    s' = emit (UpdateNodeSignal (getNumberOfNodes s1)) s1.
Proof.
  intros Hs. unfold traciStep. rewrite bind_Ok. intros (s0 & H0 & H). apply sync_check_basic in H0 as (b & -> & _).
  apply (P_subs b) in Hs.
  apply bind_Ok in H as ([departed s1] & H1 & H). apply (P_sim_ids _ _ _ _ _ H1) in Hs.
  apply bind_Ok in H as (s2 & H2 & H). apply (P_adds _ _ _ _ _ Hs) in H2.
  apply bind_Ok in H as ([arrived s3] & H3 & H). apply (P_sim_ids _ _ _ _ _ H3) in H2.
  apply bind_Ok in H as (s4 & H4 & H). apply (P_removes _ _ _ _ _ H2) in H4.
  apply bind_Ok in H as (s5 & H5 & H).
  assert (P s5) as H5'.
  { destruct (m_destroy_vehicles_on_crash (basic s4)); [|apply Ok_inj in H5 as <-; done].
    apply bind_Ok in H5 as ([teleport s6] & H6 & H5). apply (P_sim_ids _ _ _ _ _ H6) in H4.
    by apply (P_removes _ _ _ _ _ H4) in H5. }
  apply bind_Ok in H as (s7 & H7 & H). apply Ok_inj in H as <-. by exists s5, s7.
Qed.

Hypothesis P_update : forall api id sink s s', P s -> om_find id (m_vehicles s) = Some sink ->
  basic_updateVehicle api id sink s = Ok s' -> P s' /\ m_vehicles s' = m_vehicles s.
Hypothesis P_emit : forall n s, P s -> P (emit (UpdateNodeSignal n) s).
Hypothesis P_wf : forall s, P s -> om_wf (m_vehicles s).

Lemma updates_invariant api l s s' : (forall v, v ∈ l -> om_find v.1 (m_vehicles s) = Some v.2) -> P s ->
  res_fold (fun s (v : string * option node) => basic_updateVehicle api v.1 v.2 s) l s = Ok s' ->
  P s' /\ m_vehicles s' = m_vehicles s.
Proof.
  intros Hl Hs. apply (res_fold_inv (fun t => P t /\ m_vehicles t = m_vehicles s)); [|done].
  intros v t t' Hv [Ht Heq] H. destruct (P_update api v.1 v.2 t t' Ht) as [Ht' Heq']; [|done|].
  - rewrite Heq. by apply Hl.
  - split; [done|congruence].
Qed.
Lemma traciStep_invariant dbl api now s s' :
  P s -> @traciStep M _ (basic_manager has_sink createModule) dbl api now s = Ok s' -> P s'.
Proof.
  intros Hs H. destruct (traciStep_phases dbl api now s s' Hs H) as (s0 & s1 & H0 & H1 & ->).
  apply P_emit. eapply updates_invariant; [|exact H0|exact H1]. intros [id sink] Hin. cbn. by apply om_wf_find; [apply P_wf|].
Qed.
Lemma managed_invariant s : (forall s, node_events s = [] -> m_vehicles s = [] -> P s) ->
  managed has_sink createModule s -> P s.
Proof.
  intros H0. induction 1 as [s He Hv|order api now s s' _ IH H|dbl api now s s' _ IH H|b s _ IH]; [by apply H0| | |by apply P_subs].
  - by eapply traciInit_invariant.
  - by eapply traciStep_invariant.
Qed.
End Manager.

(** ** Nodes follow their vehicles *)
Lemma get_hit api v c r : om_find (var_code v) (m_values c) = Some r -> has_type (VariableTrait v) r = true -> get api v c = Ok (r, c).
Proof. intros H Ht. unfold get, getPtr. rewrite H. cbn. by rewrite Ht. Qed.
Lemma get_position_stored api v c p c' : get_position api v c = Ok (p, c') ->
  om_find (var_code v) (m_values c') = Some (TraCIPosition p.1.1 p.1.2 p.2) /\ keeps_values c c'.
Proof.
  unfold get_position. rewrite bind_Ok. intros ([r c1] & Hg & H). destruct r; try done.
  apply Ok_inj in H. injection H as <- <-. by apply get_keeps in Hg.
Qed.
Lemma get_double_stored api v c d c' : get_double api v c = Ok (d, c') ->
  om_find (var_code v) (m_values c') = Some (TraCIDouble d) /\ keeps_values c c'.
Proof.
  unfold get_double. rewrite bind_Ok. intros ([r c1] & Hg & H). destruct r; try done.
  apply Ok_inj in H. injection H as <- <-. by apply get_keeps in Hg.
Qed.

(** The cache has these values: every reader gets them, without asking the simulator. *)
Record cached (pos : double * double * double) (angle speed : double) (c : VariableCache) : Prop := {
  cached_position : forall api, get_position api VAR_POSITION c = Ok (pos, c);
  cached_angle : forall api, get_double api VAR_ANGLE c = Ok (angle, c);
  cached_speed : forall api, get_double api VAR_SPEED c = Ok (speed, c)
}.
Lemma reads_cached api pos angle speed c c1 c2 c3 :
  get_position api VAR_POSITION c = Ok (pos, c1) -> get_double api VAR_ANGLE c1 = Ok (angle, c2) ->
  get_double api VAR_SPEED c2 = Ok (speed, c3) -> cached pos angle speed c3.
Proof.
  intros [Hp _]%get_position_stored [Ha K2]%get_double_stored [Hs K3]%get_double_stored. destruct pos as [[x y] z].
  split; intros api'; unfold get_position, get_double.
  - by rewrite (get_hit api' VAR_POSITION c3 (TraCIPosition x y z)) by eauto.
  - by rewrite (get_hit api' VAR_ANGLE c3 (TraCIDouble angle)) by eauto.
  - by rewrite (get_hit api' VAR_SPEED c3 (TraCIDouble speed)) by eauto.
Qed.

(** The fix and the controller agree with the cache. *)
Lemma fix_of_cached api convertGeo to_degree now pos angle speed c geo :
  cached pos angle speed c -> convertGeo pos = Ok geo ->
  vehicle_updatePosition api convertGeo to_degree now c =
    Ok (mkFix now geo (d_of_Z 5) (d_of_Z 5) (to_degree (angle_cast angle), d_of_Z 3) (speed, d_of_Z 1), c).
Proof.
  intros [Hp Ha Hs] Hgeo. unfold vehicle_updatePosition, controller_getGeoPosition, controller_getHeading, controller_getSpeed.
  rewrite Hp. cbn [mbind res_bind]. rewrite Hgeo. cbn [mbind res_bind]. rewrite Ha. cbn [mbind res_bind]. by rewrite Hs.
Qed.

Section Follow.
Context {S : Type} `{!Mobility S} `{!MobilityLaws S} (mNetBoundary : Boundary).

(** The mobility modules of the nodes by the vehicles' ids, as the node manager drives them. *)
Definition receive_sink (m : list (string * S)) (e : node_event) : res (list (string * S)) :=
  match e with
  | SinkInitialize id _ pos angle speed => s ← base_initializeVehicle mNetBoundary pos angle speed fresh; Ok (om_set id s m)
  | AddNodeSignal id _ => Ok (match om_find id m with Some s => om_set id (start s) m | None => m end)
  | SinkUpdate id _ pos angle speed =>
      match om_find id m with
      | Some s => s ← base_updateVehicle mNetBoundary pos angle speed s; Ok (om_set id s m)
      | None => Fail (Undefined "deleted sink")
      end
  | RemoveNodeSignal id _ => Ok (om_erase id m)
  | _ => Ok m
  end.
Definition receive_sinks (events : list node_event) : res (list (string * S)) := res_fold receive_sink events [].

(** All events so far are received, and every vehicle with a node has its mobility. *)
Definition driven {M} (s : BasicNodeManager M) (m : list (string * S)) : Prop :=
  receive_sinks (node_events s) = Ok m /\
  forall id n, om_find id (m_vehicles s) = Some (Some n) -> is_Some (om_find id m).
Definition drivable {M} (s : BasicNodeManager M) : Prop := om_wf (m_vehicles s) /\ exists m, driven s m.

Lemma receive_more events ev m m' : receive_sinks events = Ok m -> res_fold receive_sink ev m = Ok m' ->
  receive_sinks (events ++ ev) = Ok m'.
Proof. intros H H'. unfold receive_sinks in *. by rewrite res_fold_app, H. Qed.

Context {M : Type} `{!ModuleMapper M} (has_sink : module_type -> bool).
Context (createModule : string -> module_type -> BasicNodeManager M -> node * BasicNodeManager M).
Hypothesis Hcreate : create_ok createModule.

Lemma drivable_add api id s s' : drivable s -> basic_addVehicle has_sink createModule api id s = Ok s' -> drivable s'.
Proof.
  intros (Hwf & m & Hm & Hall). unfold basic_addVehicle. cbn [m_mapper emit]. destruct (mapper_vehicle (m_mapper s) id) as [[type|] mapper].
  - unfold addNodeModule. match goal with |- context [createModule id type ?t] => set (t0 := t) end.
    destruct (Hcreate id type t0) as [_ [i Hi]]. destruct (createModule id type t0) as [n t1]. cbn [snd] in Hi. subst t1.
    rewrite bind_Ok. intros (s1 & H1 & H). apply Ok_inj in H as <-. unfold init_node in H1.
    destruct (has_sink (node_type n)); [|done]. destruct (getVehicleCache id _) as [x bb].
    apply bind_Ok in H1 as (pos & _ & H1). apply bind_Ok in H1 as (angle & _ & H1). apply bind_Ok in H1 as (speed & _ & H1).
    apply Ok_inj in H1 as <-. destruct (initialize_total (position_cast mNetBoundary pos.1) (angle_cast angle) speed fresh) as [f Hf].
    split; [by apply om_wf_set|]. exists (om_set id (start f) (om_set id f m)). split.
    + cbn. rewrite <- !app_assoc. apply (receive_more _ _ m); [done|]. cbn. unfold base_initializeVehicle. rewrite Hf. cbn.
      by rewrite om_find_set_eq.
    + cbn. intros y k. rewrite !om_find_set. destruct (decide (y = id)); [by eexists|]. apply Hall.
  - intros H. apply Ok_inj in H as <-. split; [by apply om_wf_set|]. exists m. split.
    + cbn. by apply (receive_more _ _ m).
    + cbn. intros x k. rewrite om_find_set. destruct (decide (x = id)); [done|]. apply Hall.
Qed.
Lemma drivable_remove id (s : BasicNodeManager M) : drivable s -> drivable (basic_removeVehicle id s).
Proof.
  intros (Hwf & m & Hm & Hall). unfold basic_removeVehicle, removeNodeModule. cbn [m_nodes emit].
  split; [destruct (om_find id (m_nodes s)); by apply om_wf_erase|].
  destruct (om_find id (m_nodes s)) as [n|]; [exists (om_erase id m)|exists m]; (split; [cbn; rewrite <- ?app_assoc; by apply (receive_more _ _ m)|]);
    cbn [m_vehicles TraciNodes.with_vehicles emit with_nodes]; intros x k; rewrite !om_find_erase; destruct (decide (x = id)); [done|apply Hall|done|apply Hall].
Qed.

(** The mobility of a vehicle and its cache have the same values. *)
Definition follows (id : string) (s : BasicNodeManager M) (m : list (string * S)) : Prop :=
  exists f c pos angle speed, om_find id m = Some f /\ om_find id (m_vehicle_caches (m_subscriptions s)) = Some c /\
    moved_to (position_cast mNetBoundary pos.1) (angle_cast angle) speed f /\ cached pos angle speed c.

Lemma getVehicleCache_others id b c b' x : getVehicleCache id b = (c, b') -> x <> id ->
  om_find x (m_vehicle_caches b') = om_find x (m_vehicle_caches b).
Proof.
  unfold getVehicleCache. destruct (om_find id _); intros [= <- <-] Hx; [done|]. cbn. by apply om_find_set_ne.
Qed.
(** An update moves the vehicle's mobility to the values of its cache and leaves the others. *)
Lemma driven_update api id sink s s' m : driven s m -> om_find id (m_vehicles s) = Some sink ->
  basic_updateVehicle api id sink s = Ok s' ->
  m_vehicles s' = m_vehicles s /\ exists m', driven s' m' /\
    (is_Some sink -> follows id s' m') /\
    (forall x, x <> id -> om_find x m' = om_find x m /\
       om_find x (m_vehicle_caches (m_subscriptions s')) = om_find x (m_vehicle_caches (m_subscriptions s))).
Proof.
  intros [Hm Hall] Hid. unfold basic_updateVehicle. destruct (getVehicleCache id (m_subscriptions s)) as [c b] eqn:Hc.
  destruct sink as [n|].
  - rewrite bind_Ok. intros ([pos c1] & Hp & H). apply bind_Ok in H as ([angle c2] & Ha & H).
    apply bind_Ok in H as ([speed c3] & Hs & H). apply Ok_inj in H as <-. split; [done|].
    destruct (Hall id n Hid) as [f Hf].
    destruct (update_total (position_cast mNetBoundary pos.1) (angle_cast angle) speed f) as [f' Hu].
    exists (om_set id f' m). split_and!.
    + split.
      * cbn. rewrite <- app_assoc. apply (receive_more _ _ m); [done|]. cbn. rewrite Hf. unfold base_updateVehicle. by rewrite Hu.
      * cbn. intros x k Hx. rewrite om_find_set. destruct (decide (x = id)); [by eexists|]. by apply (Hall x k).
    + intros _. exists f', c3, pos, angle, speed. split_and!; [apply om_find_set_eq|cbn; apply om_find_set_eq| |].
      * by apply update_moves in Hu as [Hu _].
      * by eapply reads_cached.
    + intros x Hx. cbn. rewrite !om_find_set_ne by done. split; [done|]. by eapply getVehicleCache_others.
  - intros H. apply Ok_inj in H as <-. split; [done|]. exists m. split_and!.
    + split; [|done]. cbn. by apply (receive_more _ _ m).
    + by intros [? ?].
    + intros x Hx. split; [done|]. cbn. by eapply getVehicleCache_others.
Qed.

(** After the loop every vehicle that was updated follows. *)
Lemma driven_updates api l : forall s s' m, driven s m -> NoDup l.*1 ->
  (forall v, v ∈ l -> om_find v.1 (m_vehicles s) = Some v.2) ->
  res_fold (fun s (v : string * option node) => basic_updateVehicle api v.1 v.2 s) l s = Ok s' ->
  m_vehicles s' = m_vehicles s /\ exists m', driven s' m' /\
    (forall v, v ∈ l -> is_Some v.2 -> follows v.1 s' m') /\
    (forall x, x ∉ l.*1 -> om_find x m' = om_find x m /\
       om_find x (m_vehicle_caches (m_subscriptions s')) = om_find x (m_vehicle_caches (m_subscriptions s))).
Proof.
  induction l as [|[id sink] l IH]; intros s s' m Hm Hnd Hl H.
  { apply Ok_inj in H as <-. split; [done|]. exists m. split_and!; [done| |done]. by intros v ?%not_elem_of_nil. }
  cbn [res_fold] in H. apply bind_Ok in H as (s1 & H1 & H). cbn in Hnd. apply NoDup_cons in Hnd as [Hni Hnd].
  destruct (driven_update api id sink s s1 m Hm) as (Hv1 & m1 & Hm1 & Hf1 & Ho1); [by apply (Hl (id, sink)); left|done|].
  destruct (IH s1 s' m1 Hm1 Hnd) as (Hv2 & m2 & Hm2 & Hf2 & Ho2); [|done|].
  { intros v Hv. rewrite Hv1. apply Hl. by right. }
  split; [congruence|]. exists m2. split_and!; [done| |].
  - intros v [->|Hv]%elem_of_cons Hsome; [|by apply Hf2]. cbn in *. destruct (Ho2 id Hni) as [Hom Hoc].
    destruct (Hf1 Hsome) as (f & c & pos & angle & speed & Hf & Hc & Hrest). exists f, c, pos, angle, speed.
    split_and!; [congruence|congruence|apply Hrest|apply Hrest].
  - cbn. intros x [Hx Hxl]%not_elem_of_cons. destruct (Ho1 x Hx) as [E1 E2], (Ho2 x Hxl) as [E3 E4]. split; congruence.
Qed.

Lemma drivable_update api id sink (s s' : BasicNodeManager M) : drivable s -> om_find id (m_vehicles s) = Some sink ->
  basic_updateVehicle api id sink s = Ok s' -> drivable s' /\ m_vehicles s' = m_vehicles s.
Proof.
  intros (Hwf & m & Hm) Hid H. destruct (driven_update api id sink s s' m Hm Hid H) as (Hv & m' & Hm' & _).
  split; [|done]. split; [by rewrite Hv|by exists m'].
Qed.
Lemma drivable_emit n (s : BasicNodeManager M) : drivable s -> drivable (emit (UpdateNodeSignal n) s).
Proof. intros (Hwf & m & Hm & Hall). split; [done|]. exists m. split; [|done]. cbn. by apply (receive_more _ _ m). Qed.
Lemma managed_drivable s : managed has_sink createModule s -> drivable s.
Proof.
  apply managed_invariant; [done|apply drivable_add|apply drivable_remove|apply drivable_update|apply drivable_emit|by intros t [? _]|].
  intros t He Hv. split; [rewrite Hv; apply om_wf_nil|]. exists []. split; [by rewrite He|]. intros id n. by rewrite Hv.
Qed.

(** [C22] After every step of the node manager each vehicle with a node has its mobility
    module, never a deleted one, and the module has moved to the position, heading and speed
    that the vehicle's cache holds; readers of the cache find the same values: the vehicle
    controller gives the position of the module, and a position provider that is told of the
    change makes its fix of the position as the simulator converts it, of this heading and
    this speed. *)
Theorem mobility_follows_traffic dbl api now s s' : managed has_sink createModule s ->
  @traciStep M _ (basic_manager has_sink createModule) dbl api now s = Ok s' ->
  exists m, receive_sinks (node_events s') = Ok m /\
    forall id n, om_find id (m_vehicles s') = Some (Some n) ->
      exists f c pos angle speed, om_find id m = Some f /\ om_find id (m_vehicle_caches (m_subscriptions s')) = Some c /\
        moved_to (position_cast mNetBoundary pos.1) (angle_cast angle) speed f /\
        (forall api' ctl, controller_boundary ctl = mNetBoundary ->
           controller_getPosition api' ctl c = Ok (position_cast mNetBoundary pos.1, c)) /\
        (forall api' convertGeo to_degree time geo, convertGeo pos = Ok geo ->
           vehicle_updatePosition api' convertGeo to_degree time c =
             Ok (mkFix time geo (d_of_Z 5) (d_of_Z 5) (to_degree (angle_cast angle), d_of_Z 3) (speed, d_of_Z 1), c)).
Proof.
  intros Hs%managed_drivable H.
  destruct (traciStep_phases has_sink createModule drivable (fun _ _ Ht => Ht) drivable_add drivable_remove dbl api now s s' Hs H)
    as (s0 & s1 & (Hwf & m & Hm) & Hu & ->).
  destruct (driven_updates api (m_vehicles s0) s0 s1 m Hm) as (Hv & m' & [Hm' _] & Hf & _); [|by intros [id sink] Hin; apply om_wf_find|done|].
  { by apply om_wf_NoDup. }
  exists m'. split; [cbn; by apply (receive_more _ _ m')|]. intros id n Hid. cbn in Hid. rewrite Hv in Hid. apply om_wf_find in Hid; [|done].
  destruct (Hf (id, Some n) Hid) as (f & c & pos & angle & speed & Hff & Hc & Hmoved & Hcached); [by eexists|].
  exists f, c, pos, angle, speed. split_and!; [done|done|done| |].
  - intros api' ctl Hctl. unfold controller_getPosition. rewrite (cached_position _ _ _ _ Hcached), Hctl. done.
  - intros api' convertGeo to_degree time geo Hgeo. by apply (fix_of_cached _ _ _ _ pos).
Qed.
End Follow.

(** ** Concrete movements *)
Definition ex_cos (x : double) : double := if deqb x d_zero then d_of_Z 1 else d_zero.
Definition ex_sin (x : double) : double := x.
#[local] Instance ex_inet : Mobility InetMobility := inet_mobility ex_cos ex_sin (d_lit 15 10) stateChangedSignal.
#[local] Instance ex_inet_laws : MobilityLaws InetMobility := inet_laws ex_cos ex_sin (d_lit 15 10) stateChangedSignal eq_refl.
#[local] Instance ex_follow_mapper : ModuleMapper BasicModuleMapper := basic_mapper ex_uniform.
Definition ex_boundary : Boundary := mkBoundary (d_zero, d_zero) (d_of_Z 100, d_of_Z 80).
Definition ex_car_position : double * double * double := (d_of_Z 10, d_of_Z 20, d_zero).

Lemma mobility_follows_traffic_witness : exists m, receive_sinks ex_boundary (node_events ex_nodes2) = Ok m /\
  forall id n, om_find id (m_vehicles ex_nodes2) = Some (Some n) -> is_Some (om_find id m).
Proof.
  destruct (mobility_follows_traffic ex_boundary ex_has_sink basic_createModule basic_create_ok ex_dbl (ex_api 2 [] [] [] [])
    (SIMTIME_S 2) ex_nodes1 ex_nodes2 ex_nodes_managed Gemv2Index.ex_stepped) as (m & Hm & H).
  exists m. split; [exact Hm|]. intros id n Hid. destruct (H id n Hid) as (f & c & pos & angle & speed & Hf & _). rewrite Hf. by eexists.
Defined.
(** A car and a vehicle of Veins that drive east. *)
Example one_update :
  @receive_sinks InetMobility ex_inet ex_boundary
    [SinkInitialize "a" (mkNode "Car" "node" (Some 0)) ex_car_position (d_of_Z 90) (d_of_Z 3);
     AddNodeSignal "a" (mkNode "Car" "node" (Some 0));
     SinkUpdate "a" (mkNode "Car" "node" (Some 0)) ex_car_position (d_of_Z 90) (d_of_Z 4)] =
  Ok [("a"%string, mkInet (mkCoord (d_of_Z 10) (d_of_Z 60) (d_lit 15 10)) (mkCoord (d_of_Z 4) (dopp d_zero) d_zero)
        (mkAngles (dopp d_zero) d_zero d_zero) (d_lit 15 10) 2)].
Proof. vm_compute. reflexivity. Qed.

(** ** Behaviours at the edges *)
(** The first position is set before the antenna's height is read: until the next step the
    antenna is on the ground. *)
Example first_height_is_zero :
  let s := @start InetMobility ex_inet (inet_initialize ex_cos ex_sin (mkPosition d_zero d_zero) d_zero d_zero inet_create) in
  coord_z (inet_position s) = d_zero /\ mAntennaHeight s = d_lit 15 10 /\ inet_told s = 1%nat.
Proof. vm_compute. split_and!; reflexivity. Qed.
(** The course of a vehicle to the east: the angle from the x axis is taken for one from
    north, which the data provider converts. *)
Example course_to_the_east :
  course (mkFix 0 (mkGeoPosition d_zero d_zero) (d_of_Z 5) (d_of_Z 5) (degree_of (angle_cast (d_of_Z 90)), d_of_Z 3) (d_zero, d_of_Z 1)) =
    (d_zero, d_of_Z 3) /\
  convertMobilityAngle (angle_cast (d_of_Z 90)) = Ok half_pi.
Proof. vm_compute. split; reflexivity. Qed.
(** The constraint area is that of the traffic simulator's coordinates, positions are not. *)
Example position_outside_area :
  let b := mkBoundary (d_of_Z 1000, d_of_Z 1000) (d_of_Z 2000, d_of_Z 2000) in
  dltb (pos_x (position_cast b (d_of_Z 1500, d_of_Z 1500))) (coord_x (getConstraintAreaMin b d_zero)) = true.
Proof. vm_compute. reflexivity. Qed.
(** Below a metre the fading's reference loss, a fraction, is taken for decibels. *)
Example short_distance_fades log10 pow normal s lambda :
  let loss := computeFreeSpacePathLoss pow lambda (d_of_Z 1) (fading_alpha s) (systemLoss s) in
  computeDualSlopePathLoss log10 pow normal s lambda (d_lit 1 2) 0 = (ddiv loss (dB2fraction pow loss), 0%nat).
Proof. reflexivity. Qed.
