(* ===== verification/Launcher.v ===== *)
(** * Launching and connecting the traffic simulator

    The launchers of [traci/]: [PosixLauncher.cc] starts the simulator as a child process
    with a command made from a template, [ConnectLauncher.cc] names one that runs already;
    [traci/API.cc] connects to the endpoint, repeatedly when it has just been started; and
    [traci/Listener.cc], through which modules hear of the session.  Calls of the operating
    system are recorded in their order, their answers are inputs; the C++ library's
    replacement of regular expressions is written out for literal patterns. *)

From S2P Require Import Prelude Storage TraciNodes.
From stdpp Require Import pretty.
From Stdlib Require Import Ascii.
#[local] Open Scope Z_scope.

(** ** Endpoints *)
Record ServerEndpoint := mkEndpoint { hostname : string; endpoint_port : Z; retry : bool }.
Definition ConnectLauncher_initialize (hostname : string) (port : Z) : ServerEndpoint := mkEndpoint hostname port false.
Definition ConnectLauncher_launch (m_endpoint : ServerEndpoint) : ServerEndpoint := m_endpoint.

(** ** Connecting *)
(** What an attempt to connect ends with: [TraCIAPI::connect] passes a socket's exception on,
    anything else ends the connecting at once. *)
Inductive attempt := Connected | NotReachable | Broken (f : fault).
(** What is left: the outcome and the pauses in milliseconds, with the number of attempts. *)
Record connecting := mkConnecting { outcome : res unit; sleeps : list Z; attempts : nat }.

Section Connect.
(** Attempt by number, from zero. *)
Variable connect : nat -> attempt.
Definition max_tries (endpoint : ServerEndpoint) : Z := if retry endpoint then 10 else 0.
(** [fuel] bounds the loop; [None] when it is used up. *)
Fixpoint connect_loop (fuel : nat) (max_tries tries sleep : Z) (slept : list Z) (n : nat) : option connecting :=
  match fuel with
  | O => None
  | S fuel =>
      match connect n with
      | Connected => Some (mkConnecting (Ok tt) slept (S n))
      | Broken f => Some (mkConnecting (Fail f) slept (S n))
      | NotReachable =>
          let tries := u32 (tries + 1) in
          if tries <? max_tries then connect_loop fuel max_tries tries (sleep * 2) (slept ++ [sleep]) (S n)
          else Some (mkConnecting (Fail (SocketException "connect")) slept (S n))
      end
  end.
Definition API_connect (endpoint : ServerEndpoint) : option connecting :=
  connect_loop 10 (max_tries endpoint) 0 500 [] 0.

(** Pauses double. *)
Fixpoint doubling (sleep : Z) (n : nat) : list Z :=
  match n with O => [] | S n => sleep :: doubling (sleep * 2) n end.
Lemma doubling_snoc n : forall sleep, doubling sleep n ++ [sleep * 2 ^ Z.of_nat n] = doubling sleep (S n).
Proof.
  induction n as [|n IH]; intros sleep; [cbn [doubling app]; f_equal; change (Z.of_nat 0) with 0; lia|].
  cbn [doubling app]. f_equal. cbn [doubling] in IH. rewrite <- IH. do 2 f_equal. rewrite Nat2Z.inj_succ, Z.pow_succ_r by lia. lia.
Qed.
Lemma doubling_total n : forall sleep, foldr Z.add 0 (doubling sleep n) = sleep * (2 ^ Z.of_nat n - 1).
Proof.
  induction n as [|n IH]; intros sleep; [cbn; lia|]. cbn [doubling foldr]. rewrite IH, Nat2Z.inj_succ, Z.pow_succ_r by lia. lia.
Qed.

(** All attempts before [n] failed for the socket. *)
Definition refused_before (n : nat) : Prop := forall i, (i < n)%nat -> connect i = NotReachable.
Lemma connect_loop_ends fuel : forall max_tries n,
  (n < Nat.max 1 (Z.to_nat max_tries))%nat -> (Nat.max 1 (Z.to_nat max_tries) <= n + fuel)%nat -> max_tries <= 10 ->
  refused_before n ->
  exists c k, connect_loop fuel max_tries (Z.of_nat n) (500 * 2 ^ Z.of_nat n) (doubling 500 n) n = Some c /\
    (k < Nat.max 1 (Z.to_nat max_tries))%nat /\ refused_before k /\
    attempts c = S k /\ sleeps c = doubling 500 k /\
    match connect k with
    | Connected => outcome c = Ok tt
    | Broken f => outcome c = Fail f
    | NotReachable => outcome c = Fail (SocketException "connect") /\ S k = Nat.max 1 (Z.to_nat max_tries)
    end.
Proof.
  induction fuel as [|fuel IH]; intros m n Hn Hfuel Hm Hbefore; [lia|]. cbn [connect_loop]. destruct (connect n) eqn:Hc.
  - eexists _, n. split; [done|]. by rewrite Hc.
  - assert (Hu : u32 (Z.of_nat n + 1) = Z.of_nat (S n)) by (unfold u32; rewrite wrap_small; lia). rewrite Hu.
    destruct (Z.ltb_spec (Z.of_nat (S n)) m) as [Hlt|Hge].
    + rewrite doubling_snoc. replace (500 * 2 ^ Z.of_nat n * 2) with (500 * 2 ^ Z.of_nat (S n)) by (rewrite Nat2Z.inj_succ, Z.pow_succ_r; lia).
      apply IH; [lia|lia|done|]. intros i Hi. destruct (decide (i = n)) as [->|]; [done|]. apply Hbefore. lia.
    + eexists _, n. split; [done|]. rewrite Hc. repeat split; [lia|done|lia].
  - eexists _, n. split; [done|]. by rewrite Hc.
Qed.
End Connect.

(** ** The command of the simulator *)
(** [std::regex_replace] of a literal pattern: matches from left to right, which do not
    overlap, each replaced by the format, whose dollar signs have a meaning. *)
Abbreviation chars := (list ascii).
Fixpoint strip_prefix (p s : chars) : option chars :=
  match p, s with
  | [], _ => Some s
  | a :: p, b :: s => if Ascii.eqb a b then strip_prefix p s else None
  | _ :: _, [] => None
  end.
Definition is_digit (a : ascii) : bool := ("0" <=? a)%char && (a <=? "9")%char.
Definition digit_value (a : ascii) : nat := (nat_of_ascii a - nat_of_ascii "0")%nat.
(** [match_results::format]: the match is the only group. *)
Fixpoint format (matched before after fmt : chars) : chars :=
  match fmt with
  | [] => []
  | a :: fmt' =>
      if Ascii.eqb a "$" then
        match fmt' with
        | [] => [a]
        | b :: fmt2 =>
            if Ascii.eqb b "$" then "$"%char :: format matched before after fmt2
            else if Ascii.eqb b "&" then matched ++ format matched before after fmt2
            else if Ascii.eqb b "`" then before ++ format matched before after fmt2
            else if Ascii.eqb b "'" then after ++ format matched before after fmt2
            else if is_digit b then
              let group (n : nat) := if Nat.eqb n 0 then matched else [] in
              match fmt2 with
              | c :: fmt3 =>
                  if is_digit c then group (digit_value b * 10 + digit_value c)%nat ++ format matched before after fmt3
                  else group (digit_value b) ++ format matched before after fmt2
              | [] => group (digit_value b)
              end
            else "$"%char :: format matched before after fmt'
        end
      else a :: format matched before after fmt'
  end.
(** [before] is the text since the previous match; [fuel] is more than the length. *)
Fixpoint replace_from (fuel : nat) (pattern fmt before s : chars) : chars :=
  match fuel with
  | O => s
  | S fuel =>
      match strip_prefix pattern s with
      | Some rest => format pattern before rest fmt ++ replace_from fuel pattern fmt [] rest
      | None =>
          match s with
          | [] => []
          | a :: s => a :: replace_from fuel pattern fmt (before ++ [a]) s
          end
      end
  end.
Definition regex_replace (s pattern fmt : string) : string :=
  let s := String.list_ascii_of_string s in
  String.string_of_list_ascii (replace_from (S (length s)) (String.list_ascii_of_string pattern) (String.list_ascii_of_string fmt) [] s).

(** ** The simulator as a child process *)
Inductive syscall :=
| Socket | Bind | Getsockname | Close
| BlockSignal | UnblockSignal | Fork | Setpgid (pid pgid : Z) | IgnoreSigint | Execl (command : string) | Exit
| Kill (pid : Z) | Waitpid (pid : Z).
Record PosixLauncher := mkLauncher {
  m_executable : string; m_command : string; m_sumocfg : string; m_port : Z; m_seed : Z; m_pid : Z
}.
Definition posix_create (s : PosixLauncher) : PosixLauncher :=
  mkLauncher (m_executable s) (m_command s) (m_sumocfg s) (m_port s) (m_seed s) 0.
Definition posix_initialize (sumo command sumocfg : string) (port seed : Z) (s : PosixLauncher) : PosixLauncher :=
  mkLauncher sumo command sumocfg port seed (m_pid s).
Definition with_port (p : Z) (s : PosixLauncher) : PosixLauncher :=
  mkLauncher (m_executable s) (m_command s) (m_sumocfg s) p (m_seed s) (m_pid s).
Definition with_pid (p : Z) (s : PosixLauncher) : PosixLauncher :=
  mkLauncher (m_executable s) (m_command s) (m_sumocfg s) (m_port s) (m_seed s) p.

(** [run_number]: the variable of the configuration. *)
Definition command (run_number : string) (s : PosixLauncher) : string :=
  let command := m_command s in
  let command := regex_replace command "%SUMO%" (m_executable s) in
  let command := regex_replace command "%SUMOCFG%" (m_sumocfg s) in
  let command := regex_replace command "%PORT%" (pretty (m_port s)) in
  let command := regex_replace command "%SEED%" (pretty (m_seed s)) in
  regex_replace command "%RUN%" run_number.

(** What the system answers. *)
Record answers := mkAnswers {
  socket_fails : bool; bind_fails : bool; getsockname_fails : bool; free_port : Z;
  fork_result : Z; setpgid_fails : bool; setpgid_access : bool
}.
Definition lookupPort (a : answers) : res Z * list syscall :=
  if socket_fails a then (Fail (RuntimeError "socket() failed"), [Socket])
  else if bind_fails a then (Fail (RuntimeError "bind() failed"), [Socket; Bind])
  else if getsockname_fails a then (Fail (RuntimeError "getsockname() failed"), [Socket; Bind; Getsockname])
  else (Ok (free_port a), [Socket; Bind; Getsockname; Close]).

(** [launch] in the parent; the signals are unblocked on every way out, and the process keeps
    what was assigned before an exception. *)
Definition launch (a : answers) (s : PosixLauncher) : res ServerEndpoint * PosixLauncher * list syscall :=
  let '(port, calls) := if m_port s =? 0 then lookupPort a else (Ok (m_port s), []) in
  match port with
  | Fail f => (Fail f, s, calls)
  | Ok p =>
      let s := with_port p s in
      let endpoint := mkEndpoint "localhost" (m_port s) true in
      let calls := calls ++ [BlockSignal; Fork] in
      let s := with_pid (fork_result a) s in
      if m_pid s <? 0 then (Fail (RuntimeError "fork() failed"), s, calls ++ [UnblockSignal])
      else
        let calls := calls ++ [Setpgid (m_pid s) (m_pid s); UnblockSignal] in
        if setpgid_fails a && negb (setpgid_access a) then (Fail (RuntimeError "setpgid() failed"), s, calls)
        else (Ok endpoint, s, calls)
  end.
(** The calls of the child when [execl] does not return. *)
Definition launch_child (run_number : string) (s : PosixLauncher) : list syscall :=
  [IgnoreSigint; Setpgid 0 0; Execl (command run_number s)].
Definition kill (s : PosixLauncher) : PosixLauncher * list syscall :=
  let '(s, calls) := if m_pid s =? 0 then (s, []) else (with_pid 0 s, [Kill (m_pid s)]) in
  (s, calls ++ [Waitpid (m_pid s)]).
Definition posix_finish (s : PosixLauncher) : PosixLauncher * list syscall := kill s.
Definition posix_destroy (s : PosixLauncher) : list syscall := (kill s).2.

(** ** Listeners *)
Inductive session_signal := SignalInit | SignalStep | SignalClose | OtherSignal.
Inductive callback := TraciInit | TraciStep | TraciClose.
Definition listener_receiveSignal (signal : session_signal) : option callback :=
  match signal with
  | SignalStep => Some TraciStep
  | SignalInit => Some TraciInit
  | SignalClose => Some TraciClose
  | OtherSignal => None
  end.
(** The publishers that a listener is subscribed at, and the one it remembers. *)
Record Listener := mkListener { m_publisher : option nat; subscribed_at : list (nat * session_signal) }.
Definition listener_create : Listener := mkListener None [].
Definition the_signals (p : nat) : list (nat * session_signal) := [(p, SignalInit); (p, SignalStep); (p, SignalClose)].
#[export] Instance session_signal_eq_dec : EqDecision session_signal.
Proof. solve_decision. Defined.
Definition unsubscribeTraCI (s : Listener) : Listener :=
  match m_publisher s with
  | Some p => mkListener (m_publisher s) (filter (fun x => x ∉ the_signals p) (subscribed_at s))
  | None => s
  end.
Definition subscribeTraCI (publisher : option nat) (s : Listener) : res Listener :=
  match publisher with
  | None => Fail (AssertFailed "publisher")
  | Some p =>
      let s := unsubscribeTraCI s in
      Ok (mkListener (Some p) (subscribed_at s ++ the_signals p))
  end.

(** ** Connecting ends *)
(** Connecting ends whatever the attempts' outcomes: with the first attempt that connects,
    with the first failure that is not the socket's, or, when a single attempt fails without
    and ten attempts fail with [retry], with the socket's exception; attempts are
    [500 ms * 2^i] apart, at most 255.5 s in all. *)
Theorem connect_ends connect endpoint : exists c k, API_connect connect endpoint = Some c /\
  (k < if retry endpoint then 10 else 1)%nat /\ refused_before connect k /\
  attempts c = S k /\ sleeps c = doubling 500 k /\ foldr Z.add 0 (sleeps c) <= 255500 /\
  match connect k with
  | Connected => outcome c = Ok tt
  | Broken f => outcome c = Fail f
  | NotReachable => outcome c = Fail (SocketException "connect") /\ S k = if retry endpoint then 10%nat else 1%nat
  end.
Proof.
  assert (Hm : Nat.max 1 (Z.to_nat (max_tries endpoint)) = if retry endpoint then 10%nat else 1%nat) by (unfold max_tries; by destruct (retry endpoint)).
  destruct (connect_loop_ends connect 10 (max_tries endpoint) 0) as (c & k & Hc & Hk & Hb & Ha & Hs & Ho).
  - rewrite Hm. destruct (retry endpoint); lia.
  - rewrite Hm. destruct (retry endpoint); lia.
  - unfold max_tries. destruct (retry endpoint); lia.
  - intros i Hi. lia.
  - rewrite Hm in *. exists c, k. split_and!; [done..| |done]. rewrite Hs, doubling_total.
    assert (2 ^ Z.of_nat k <= 2 ^ 9) by (apply Z.pow_le_mono_r; destruct (retry endpoint); lia). lia.
Qed.
Example never_reachable : API_connect (fun _ => NotReachable) (mkEndpoint "localhost" 1234 true) =
  Some (mkConnecting (Fail (SocketException "connect")) [500; 1000; 2000; 4000; 8000; 16000; 32000; 64000; 128000] 10).
Proof. reflexivity. Qed.

(** ** Templates *)
Inductive placeholder := SUMO | SUMOCFG | PORT | SEED | RUN.
#[export] Instance placeholder_eq_dec : EqDecision placeholder.
Proof. solve_decision. Defined.
Definition placeholder_name (p : placeholder) : chars :=
  String.list_ascii_of_string match p with SUMO => "SUMO" | SUMOCFG => "SUMOCFG" | PORT => "PORT" | SEED => "SEED" | RUN => "RUN" end.
Inductive token := Text (t : chars) | Place (p : placeholder).
Definition mark : ascii := "%".
Definition pattern_of (p : placeholder) : chars := mark :: placeholder_name p ++ [mark].
Definition render_token (t : token) : chars := match t with Text t => t | Place p => pattern_of p end.
Definition render (l : list token) : chars := concat (render_token <$> l).
Definition put (p : placeholder) (v : chars) (t : token) : token :=
  match t with Place q => if decide (p = q) then Text v else t | _ => t end.

(** Text that cannot be taken for a placeholder: it has no per cent sign, and a character that no name has. *)
Definition upper (a : ascii) : bool := ("A" <=? a)%char && (a <=? "Z")%char.
Definition is_text (t : chars) : bool := forallb (fun a => negb (Ascii.eqb a mark)) t && existsb (fun a => negb (upper a)) t.
Definition is_value (t : chars) : bool := is_text t && forallb (fun a => negb (Ascii.eqb a "$")) t.
Definition well_formed (l : list token) : Prop := Forall (fun t => match t with Text t => is_text t = true | _ => True end) l.

Lemma strip_prefix_app p s : strip_prefix p (p ++ s) = Some s.
Proof. induction p as [|a p IH]; cbn; [done|]. by rewrite Ascii.eqb_refl. Qed.
Lemma name_upper p : Forall (fun a => upper a = true) (placeholder_name p).
Proof. destruct p; repeat constructor. Qed.
Lemma name_no_mark p : Forall (fun a => a <> mark) (placeholder_name p).
Proof. destruct p; repeat constructor; discriminate. Qed.
Lemma upper_not_mark a : upper a = true -> a <> mark.
Proof. by intros Ha ->. Qed.

(** A name and the sign after it are not the start of text. *)
Lemma name_not_text q t r : Forall (fun a => upper a = true) q -> is_text t = true -> strip_prefix (q ++ [mark]) (t ++ r) = None.
Proof.
  unfold is_text. revert q. induction t as [|a t IH]; intros q Hq Ht; [by rewrite andb_comm in Ht|].
  cbn [forallb existsb] in Ht. apply andb_true_iff in Ht as [[Ha Ht]%andb_true_iff He].
  assert (Hne : Ascii.eqb mark a = false) by (rewrite Ascii.eqb_sym; by destruct (Ascii.eqb a mark)).
  destruct q as [|b q]; cbn [app strip_prefix]; [by rewrite Hne|]. inversion_clear Hq as [|?? Hb Hq'].
  destruct (Ascii.eqb b a) eqn:E; [|done]. apply Ascii.eqb_eq in E as ->. rewrite Hb in He. cbn in He. apply IH; [done|]. by rewrite Ht, He.
Qed.
Lemma name_not_render q l : Forall (fun a => upper a = true) q -> well_formed l -> strip_prefix (q ++ [mark]) (render l) = None \/ q = [].
Proof.
  intros Hq. destruct 1 as [|[t|p] l Ht Hl]; [destruct q; [by right|by left]|left; by apply name_not_text|].
  destruct q as [|a q]; [by right|left]. cbn. inversion_clear Hq as [|?? Ha _]. apply upper_not_mark in Ha.
  destruct (Ascii.eqb_spec a mark); congruence.
Qed.
(** Patterns of other placeholders do not match. *)
Lemma pattern_other p q s : p <> q -> strip_prefix (pattern_of p) (pattern_of q ++ s) = None.
Proof. destruct p, q; intros H; try (by destruct H); reflexivity. Qed.
Lemma pattern_length p : length (pattern_of p) = S (length (placeholder_name p) + 1).
Proof. unfold pattern_of. cbn [length]. by rewrite length_app. Qed.
Lemma pattern_no_mark p a s : a <> mark -> strip_prefix (pattern_of p) (a :: s) = None.
Proof. intros Ha. unfold pattern_of. cbn [strip_prefix]. destruct (Ascii.eqb_spec mark a); [by subst|done]. Qed.

Lemma replace_skip p fmt t : Forall (fun a => a <> mark) t -> forall fuel before s, (length t <= fuel)%nat ->
  replace_from fuel (pattern_of p) fmt before (t ++ s) = t ++ replace_from (fuel - length t) (pattern_of p) fmt (before ++ t) s.
Proof.
  induction 1 as [|a t Ha Ht IH]; intros fuel before s Hf; [by rewrite Nat.sub_0_r, app_nil_r|].
  destruct fuel as [|fuel]; [cbn in Hf; lia|]. cbn [length] in Hf. cbn [replace_from app]. rewrite pattern_no_mark by done. cbn [app]. f_equal.
  rewrite IH by lia. by rewrite <- app_assoc.
Qed.
Lemma format_value m b a fmt : forallb (fun a => negb (Ascii.eqb a "$")) fmt = true -> format m b a fmt = fmt.
Proof.
  induction fmt as [|x fmt IH]; cbn [forallb]; [done|]. intros [Hx Hf]%andb_true_iff. cbn [format].
  destruct (Ascii.eqb x "$"); [done|]. by rewrite IH.
Qed.
Lemma text_no_mark t : is_text t = true -> Forall (fun a => a <> mark) t.
Proof.
  intros [Ht _]%andb_true_iff. rewrite forallb_forall in Ht. apply Forall_forall. intros a Ha.
  apply list_elem_of_In, Ht in Ha. intros ->. done.
Qed.

(** Replacing a placeholder's pattern puts the value in its place, and nowhere else. *)
Lemma replace_render p v l : is_value v = true -> well_formed l -> forall fuel before, (length (render l) < fuel)%nat ->
  replace_from fuel (pattern_of p) v before (render l) = render (put p v <$> l).
Proof.
  intros [Hv Hd]%andb_true_iff. induction 1 as [|[t|q] l Ht Hl IH]; intros fuel before Hf.
  - destruct fuel; [cbn in Hf; lia|]. done.
  - change (render (Text t :: l)) with (t ++ render l) in *. change (render (put p v <$> Text t :: l)) with (t ++ render (put p v <$> l)).
    rewrite length_app in Hf. rewrite replace_skip by (lia || (apply text_no_mark; done)). f_equal. apply IH. lia.
  - change (render (Place q :: l)) with (pattern_of q ++ render l) in *. rewrite length_app in Hf.
    change (render (put p v <$> Place q :: l)) with (render_token (put p v (Place q)) ++ render (put p v <$> l)).
    destruct fuel as [|fuel]; [lia|]. cbn [replace_from]. unfold put at 1. destruct (decide (p = q)) as [->|Hne].
    + rewrite strip_prefix_app, format_value by done. cbn [render_token]. f_equal. apply IH. rewrite pattern_length in Hf. lia.
    + rewrite pattern_other, pattern_length in * by done. cbn [render_token].
      change (pattern_of q) with (mark :: placeholder_name q ++ [mark]). cbn [app]. rewrite <- !app_assoc. f_equal.
      rewrite replace_skip by (apply name_no_mark || lia). f_equal. cbn [app].
      destruct (fuel - length (placeholder_name q))%nat as [|k] eqn:Ek; [lia|]. cbn [replace_from].
      change (strip_prefix (pattern_of p) (mark :: render l)) with (strip_prefix (placeholder_name p ++ [mark]) (render l)).
      destruct (name_not_render (placeholder_name p) l (name_upper p) Hl) as [->|Hp]; [|by destruct p].
      f_equal. apply IH. lia.
Qed.

(** Numbers are values. *)
Definition numeric (a : ascii) : bool := is_digit a || Ascii.eqb a "-".
Lemma pretty_char_numeric x : numeric (pretty_N_char x) = true.
Proof. unfold pretty_N_char. by repeat case_match. Qed.
Lemma pretty_go_numeric x : forall s, forallb numeric (String.list_ascii_of_string s) = true -> (x = 0%N -> s <> ""%string) ->
  forallb numeric (String.list_ascii_of_string (pretty_N_go x s)) = true /\ pretty_N_go x s <> ""%string.
Proof.
  induction (N.lt_wf_0 x) as [x _ IH]; intros s Hs Hne. destruct (decide (x = 0)%N) as [->|Hx]; [rewrite pretty_N_go_0; by split; [|apply Hne]|].
  rewrite pretty_N_go_step by lia. apply IH; [apply N.div_lt; lia| |done]. cbn. by rewrite pretty_char_numeric.
Qed.
Lemma pretty_numeric (z : Z) : forallb numeric (String.list_ascii_of_string (pretty z)) = true /\ pretty z <> ""%string.
Proof.
  destruct z as [|p|p]; [by split|..]; unfold pretty, pretty_Z, pretty, pretty_positive, pretty, pretty_N; (destruct (decide _) as [|_]; [done|]).
  - by apply pretty_go_numeric.
  - cbn. split; [|done]. by apply (pretty_go_numeric (Npos p) "").
Qed.
Lemma numeric_value t : forallb numeric t = true -> t <> [] -> is_value t = true.
Proof.
  assert (Hone : forall a, numeric a = true -> Ascii.eqb a mark = false /\ Ascii.eqb a "$" = false /\ upper a = false).
  { intros [[] [] [] [] [] [] [] []] Ha; try discriminate Ha; by repeat split. }
  intros Ht Hne. unfold is_value, is_text. destruct t as [|a t]; [done|]. cbn [forallb existsb] in *. apply andb_true_iff in Ht as [Ha Ht].
  destruct (Hone a Ha) as (-> & -> & ->). cbn [negb andb orb]. rewrite andb_true_r. apply andb_true_iff.
  rewrite !forallb_forall in *. split; intros x Hx; apply Ht in Hx; destruct (Hone x Hx) as (H1 & H2 & _); by rewrite ?H1, ?H2.
Qed.
Definition value_string (s : string) : Prop := is_value (String.list_ascii_of_string s) = true.
Lemma pretty_value (z : Z) : value_string (pretty z).
Proof. destruct (pretty_numeric z) as [H Hne]. apply numeric_value; [done|]. by destruct (pretty z). Qed.

Lemma put_well_formed p v l : is_value v = true -> well_formed l -> well_formed (put p v <$> l).
Proof.
  intros [Hv _]%andb_true_iff Hl. apply Forall_fmap. eapply Forall_impl; [exact Hl|]. intros [t|q] Ht; cbn; [done|]. by destruct (decide (p = q)).
Qed.
Definition template (l : list token) : string := String.string_of_list_ascii (render l).
Lemma regex_replace_template p v l : value_string v -> well_formed l ->
  regex_replace (template l) (String.string_of_list_ascii (pattern_of p)) v = template (put p (String.list_ascii_of_string v) <$> l).
Proof.
  intros Hv Hl. unfold regex_replace, template. rewrite !String.list_ascii_of_string_of_list_ascii. f_equal.
  apply replace_render; [done..|]. lia.
Qed.

(** What stands for the placeholders. *)
Definition value_of (run_number : string) (s : PosixLauncher) (p : placeholder) : string :=
  match p with
  | SUMO => m_executable s | SUMOCFG => m_sumocfg s | PORT => pretty (m_port s) | SEED => pretty (m_seed s) | RUN => run_number
  end.
Definition filled (run_number : string) (s : PosixLauncher) (t : token) : chars :=
  match t with Text t => t | Place p => String.list_ascii_of_string (value_of run_number s p) end.

(** The command has the executable, the configuration, the port, the seed and the run
    number in the places of the template, each everywhere, and is otherwise the template:
    for templates whose text, and for values that, cannot be taken for a placeholder, and
    values without dollar signs. *)
Theorem command_fills_template run_number s l : well_formed l -> m_command s = template l ->
  value_string (m_executable s) -> value_string (m_sumocfg s) -> value_string run_number ->
  command run_number s = String.string_of_list_ascii (concat (filled run_number s <$> l)).
Proof.
  intros Hl Hc Hexe Hcfg Hrun. unfold command. rewrite Hc.
  pose proof (pretty_value (m_port s)) as Hport. pose proof (pretty_value (m_seed s)) as Hseed.
  rewrite (regex_replace_template SUMO) by done.
  rewrite (regex_replace_template SUMOCFG) by repeat (done || apply put_well_formed).
  rewrite (regex_replace_template PORT) by repeat (done || apply put_well_formed).
  rewrite (regex_replace_template SEED) by repeat (done || apply put_well_formed).
  rewrite (regex_replace_template RUN) by repeat (done || apply put_well_formed).
  unfold template, render. rewrite <- !list_fmap_compose. do 2 f_equal. apply list_fmap_ext. by intros _ [t|[]] _.
Qed.

(** The template that is configured by default. *)
Definition ex_template : list token :=
  let text s := Text (String.list_ascii_of_string s) in
  [Place SUMO; text " --remote-port "; Place PORT; text " --seed "; Place SEED; text " --configuration-file "; Place SUMOCFG;
   text " --message-log sumo-"; Place RUN; text ".log --no-step-log --quit-on-end"]%string.
Definition ex_launcher : PosixLauncher :=
  posix_initialize "sumo" (template ex_template) "town.sumocfg" 0 23423 (posix_create (mkLauncher "" "" "" 0 0 0)).
Definition ex_started : PosixLauncher := with_port 4711 ex_launcher.
Definition ex_command : string :=
  "sumo --remote-port 4711 --seed 23423 --configuration-file town.sumocfg --message-log sumo-7.log --no-step-log --quit-on-end".
Lemma command_fills_template_witness : command "7" ex_started = ex_command.
Proof.
  rewrite (command_fills_template "7" ex_started ex_template); [vm_compute; reflexivity| |vm_compute; reflexivity..].
  repeat constructor.
Defined.

(** *** Behaviours at the edges *)
Definition ex_answers : answers := mkAnswers false false false 4711 815 false false.
(** Free ports are looked up once; the simulator is started in a process group of its own. *)
Example launched : launch ex_answers ex_launcher =
  (Ok (mkEndpoint "localhost" 4711 true), with_pid 815 ex_started,
   [Socket; Bind; Getsockname; Close; BlockSignal; Fork; Setpgid 815 815; UnblockSignal]).
Proof. reflexivity. Qed.
(** The process that is waited for is not the simulator: its identity is forgotten before. *)
Example killed : kill (with_pid 815 ex_started) = (with_pid 0 ex_started, [Kill 815; Waitpid 0]).
Proof. reflexivity. Qed.
(** When the process could not be forked, its pid is minus one, and the destructor interrupts every
    process that it may. *)
Example fork_failed :
  let a := mkAnswers false false false 4711 (-1) false false in
  (launch a ex_launcher).1.1 = Fail (RuntimeError "fork() failed") /\
  posix_destroy (launch a ex_launcher).1.2 = [Kill (-1); Waitpid 0].
Proof. split; reflexivity. Qed.
(** Dollar signs of values have a meaning, and values are searched for later placeholders. *)
Example dollar_lost : command "0" (mkLauncher "sumo" "%SUMO% %SUMOCFG%" "$HOME/$$.cfg" 1 2 0) = "sumo $HOME/$.cfg"%string.
Proof. vm_compute. reflexivity. Qed.
Example value_replaced : command "0" (mkLauncher "/opt/%PORT%" "%SUMO%" "" 1 2 0) = "/opt/1"%string.
Proof. vm_compute. reflexivity. Qed.
(** A listener that leaves remembers its publisher and is subscribed nowhere. *)
Example listener_leaves : m_publisher <$> (unsubscribeTraCI <$> subscribeTraCI (Some 1%nat) listener_create) = Ok (Some 1%nat) /\
  subscribed_at <$> (unsubscribeTraCI <$> subscribeTraCI (Some 1%nat) listener_create) = Ok [].
Proof. split; vm_compute; reflexivity. Qed.
