(* ===== verification/Facilities.v ===== *)
(** * Facilities

    The registry of objects by their type that every service of a middleware shares
    ([application/Facilities.h]).  Types are identities as [std::type_index] compares them,
    with references and qualifiers removed; objects are addresses. *)

From S2P Require Import Prelude OMap.

Section Facilities.
Context {type_index : Type} `{!EqDecision type_index} {object : Type}.

Record Facilities := mkFacilities { m_mutable_objects : list (type_index * object); m_const_objects : list (type_index * object) }.
Definition facilities_create : Facilities := mkFacilities [] [].

Fixpoint find (t : type_index) (l : list (type_index * object)) : option object :=
  match l with [] => None | (u, o) :: l => if decide (t = u) then Some o else find t l end.
(** [operator[]] and an assignment. *)
Definition put_object (t : type_index) (o : object) (l : list (type_index * object)) : list (type_index * object) :=
  (t, o) :: filter (fun x => x.1 <> t) l.

Definition get_mutable_ptr (t : type_index) (f : Facilities) : option object := find t (m_mutable_objects f).
Definition get_mutable (t : type_index) (f : Facilities) : res object :=
  match get_mutable_ptr t f with Some o => Ok o | None => Fail (RuntimeError "no valid object of type registered") end.
Definition get_const_ptr (t : type_index) (f : Facilities) : option object := find t (m_const_objects f).
Definition get_const (t : type_index) (f : Facilities) : res object :=
  match get_const_ptr t f with Some o => Ok o | None => Fail (RuntimeError "no valid object of type registered") end.
(** [None] is a null pointer. *)
Definition register_const (t : type_index) (o : option object) (f : Facilities) : res Facilities :=
  match o with
  | Some o => Ok (mkFacilities (m_mutable_objects f) (put_object t o (m_const_objects f)))
  | None => Fail (AssertFailed "object")
  end.
Definition register_mutable (t : type_index) (o : option object) (f : Facilities) : res Facilities :=
  match o with
  | Some p => register_const t o (mkFacilities (put_object t p (m_mutable_objects f)) (m_const_objects f))
  | None => Fail (AssertFailed "object")
  end.

(** Registrations in their order: the type, the object and whether it is mutable. *)
Definition register (f : Facilities) (r : type_index * object * bool) : res Facilities :=
  if r.2 then register_mutable r.1.1 (Some r.1.2) f else register_const r.1.1 (Some r.1.2) f.

Lemma find_put t u o l : find t (put_object u o l) = if decide (t = u) then Some o else find t l.
Proof.
  unfold put_object. cbn. destruct (decide (t = u)) as [|Hne]; [done|]. induction l as [|[v p] l IH]; [done|].
  rewrite filter_cons. cbn. destruct (decide (v = u)) as [->|Hv].
  { rewrite decide_False by naive_solver. by rewrite (decide_False (P := t = u)). }
  rewrite decide_True by done. cbn. by destruct (decide (t = v)).
Qed.
Lemma register_total f r : exists f', register f r = Ok f' /\
  (forall t, get_const_ptr t f' = if decide (t = r.1.1) then Some r.1.2 else get_const_ptr t f) /\
  (forall t, get_mutable_ptr t f' = if decide (r.2 = true /\ t = r.1.1) then Some r.1.2 else get_mutable_ptr t f).
Proof.
  destruct r as [[u o] [|]]; unfold register, register_mutable, register_const; cbn [fst snd]; (eexists; split; [done|]);
    (split; intros t; unfold get_const_ptr, get_mutable_ptr; cbn [m_mutable_objects m_const_objects]; rewrite ?find_put);
    repeat case_decide; first [done | naive_solver].
Qed.

(** The last of the registrations of a type that satisfies [p]. *)
Fixpoint last_of (p : type_index * object * bool -> bool) (t : type_index) (l : list (type_index * object * bool)) : option object :=
  match l with
  | [] => None
  | r :: l => match last_of p t l with Some o => Some o | None => if decide (r.1.1 = t) then if p r then Some r.1.2 else None else None end
  end.
(** After any registrations the object of a type is the last one registered, as mutable
    the last one registered as such; an object is always found as constant when one is found as mutable. *)
Theorem facilities_last_registered l : exists f, res_fold register l facilities_create = Ok f /\
  (forall t, get_const_ptr t f = last_of (fun _ => true) t l) /\ (forall t, get_mutable_ptr t f = last_of snd t l) /\
  (forall t, is_Some (get_mutable_ptr t f) -> is_Some (get_const_ptr t f)).
Proof.
  assert (H : forall f0, exists f, res_fold register l f0 = Ok f /\
    (forall t, get_const_ptr t f = match last_of (fun _ => true) t l with Some o => Some o | None => get_const_ptr t f0 end) /\
    (forall t, get_mutable_ptr t f = match last_of snd t l with Some o => Some o | None => get_mutable_ptr t f0 end)).
  { induction l as [|r l IH]; intros f0; [by exists f0|]. destruct (register_total f0 r) as (f1 & H1 & Hc & Hm).
    destruct (IH f1) as (f & Hf & Hc' & Hm'). exists f. cbn [res_fold last_of]. rewrite H1. cbn [mbind res_bind]. split_and!; [done|..].
    - intros t. rewrite Hc'. destruct (last_of _ t l); [done|]. rewrite Hc. repeat case_decide; congruence.
    - intros t. rewrite Hm'. destruct (last_of snd t l); [done|]. rewrite Hm. destruct r as [[u o] [|]]; cbn; repeat case_decide; naive_solver. }
  destruct (H facilities_create) as (f & Hf & Hc & Hm). exists f.
  assert (Hc' : forall t, get_const_ptr t f = last_of (fun _ => true) t l) by (intros t; rewrite Hc; by destruct (last_of _ t l)).
  assert (Hm' : forall t, get_mutable_ptr t f = last_of snd t l) by (intros t; rewrite Hm; by destruct (last_of _ t l)).
  split_and!; [done..|]. intros t. rewrite Hc', Hm'. clear. induction l as [|r l IH]; cbn; [done|].
  destruct (last_of snd t l) as [o|].
  - intros _. destruct IH as [o' ->]; by eexists.
  - destruct (last_of (fun _ => true) t l); [by eexists|]. case_decide; [|by intros [? ?]]. by eexists.
Qed.
End Facilities.
Arguments Facilities : clear implicits.
