(* ===== verification/Dcc.v ===== *)
(** * Decentralised congestion control

    The algorithms behind the DCC entities ([src/extern/vanetza/vanetza/dcc/]): the fully
    meshed and the gradual state machines that turn channel loads into transmission
    intervals, the budgets and rate controls that tell how long a transmission has to wait,
    and LIMERIC's duty cycle.  Durations and time points are microseconds, channel loads
    numbers in the unit interval. *)

From S2P Require Import Prelude Float64 Radio Networking.

Definition milliseconds (n : Z) : Z := n * 1000.
Definition seconds (n : Z) : Z := n * 1000000.

(** ** The fully meshed state machine *)
Inductive DccState := Relaxed | Active | Restrictive.
#[export] Instance DccState_eq_dec : EqDecision DccState.
Proof. solve_decision. Defined.

(** The substate is the active state's own, kept while other states are current; channel
    loads are the newest first. *)
Record FullyMeshedStateMachine := mkFullyMeshed {
  m_state : DccState; m_substate : nat; m_channel_loads : list double
}.
Definition N_samples_up : nat := 10.
Definition N_samples_down : nat := 50.
Definition NDL_minChannelLoad : double := d_lit 19 100.
Definition NDL_maxChannelLoad : double := d_lit 59 100.
Definition sc_substates : nat := 5.
Definition active_channel_loads : list double := [d_lit 27 100; d_lit 35 100; d_lit 43 100; d_lit 51 100; d_lit 59 100].

Definition fully_meshed_create : FullyMeshedStateMachine := mkFullyMeshed Relaxed 0 [].
(** [std::upper_bound]: the number of elements before the first one above the value. *)
Fixpoint upper_bound (v : double) (l : list double) : nat :=
  match l with [] => 0%nat | x :: l => if dltb v x then 0%nat else S (upper_bound v l) end.
Definition active_update (min_cl max_cl : double) : res nat :=
  assert_ "min_cl <= max_cl" (dleb min_cl max_cl) ;;
  let state_up := upper_bound min_cl active_channel_loads in
  let state_down := upper_bound max_cl active_channel_loads in
  Ok (Nat.min (sc_substates - 1) (Nat.max state_up state_down)).

Definition is_inf (x : double) : bool := match x with SpecFloat.S754_infinity _ => true | _ => false end.
Definition min_channel_load (s : FullyMeshedStateMachine) : double :=
  let min_cl := foldl (fun m x => if dltb x m then x else m) d_inf (take N_samples_up (m_channel_loads s)) in
  if is_inf min_cl then d_zero else min_cl.
Definition max_channel_load (s : FullyMeshedStateMachine) : double :=
  foldl (fun m x => if dltb m x then x else m) d_zero (take N_samples_down (m_channel_loads s)).

Definition to_active (s : FullyMeshedStateMachine) : res FullyMeshedStateMachine :=
  n ← active_update (min_channel_load s) (max_channel_load s);
  Ok (mkFullyMeshed Active n (m_channel_loads s)).
Definition to_state (st : DccState) (s : FullyMeshedStateMachine) : FullyMeshedStateMachine :=
  mkFullyMeshed st (m_substate s) (m_channel_loads s).
(** The buffer of the loads has the greater number of samples as its capacity. *)
Definition fully_meshed_update (cl : double) (s : FullyMeshedStateMachine) : res FullyMeshedStateMachine :=
  let s := mkFullyMeshed (m_state s) (m_substate s) (take (Nat.max N_samples_up N_samples_down) (cl :: m_channel_loads s)) in
  match m_state s with
  | Relaxed => if dleb NDL_minChannelLoad (min_channel_load s) then to_active s else Ok s
  | Restrictive => if dltb (max_channel_load s) NDL_maxChannelLoad then to_active s else Ok s
  | Active =>
      if dltb (max_channel_load s) NDL_minChannelLoad then Ok (to_state Relaxed s)
      else if dleb NDL_maxChannelLoad (min_channel_load s) then Ok (to_state Restrictive s)
      else to_active s
  end.
Definition active_intervals : list Z := milliseconds <$> [100; 180; 260; 340; 420].
Definition fully_meshed_interval (s : FullyMeshedStateMachine) : Z :=
  match m_state s with
  | Relaxed => milliseconds 60
  | Restrictive => milliseconds 460
  | Active => nth (Nat.min (length active_intervals - 1) (m_substate s)) active_intervals 0
  end.
Definition message_rate (s : FullyMeshedStateMachine) : double := ddiv (d_of_Z 1000000) (d_of_Z (fully_meshed_interval s)).
Definition state_name (s : FullyMeshedStateMachine) : res string :=
  match m_state s with
  | Relaxed => Ok "Relaxed"
  | Restrictive => Ok "Restrictive"
  | Active =>
      assert_ "m_substate < sc_substates" (Nat.ltb (m_substate s) sc_substates) ;;
      Ok (nth (m_substate s) ["Active 1"; "Active 2"; "Active 3"; "Active 4"; "Active 5"] "")
  end%string.

(** ** The gradual state machine *)
(** A state: the least load and the interval; the set is ordered by the loads. *)
Record GradualStateMachine := mkGradual { m_states : list (double * Z); m_current : nat }.
Definition gradual_create (states : list (double * Z)) : GradualStateMachine :=
  match states with [] => mkGradual [(d_zero, 0)] 0 | _ => mkGradual states 0 end.
Definition gradual_update (cbr : double) (s : GradualStateMachine) : GradualStateMachine :=
  match m_states s !! m_current s with
  | None => s
  | Some current =>
      if dltb cbr current.1 then
        match m_current s with O => s | S i => mkGradual (m_states s) i end
      else
        match m_states s !! S (m_current s) with
        | Some up => if negb (dltb cbr up.1) then mkGradual (m_states s) (S (m_current s)) else s
        | None => s
        end
  end.
Definition gradual_interval (s : GradualStateMachine) : Z := default 0 (snd <$> m_states s !! m_current s).
Definition etsiStates1ms : list (double * Z) :=
  [(d_lit 0 1, milliseconds 100); (d_lit 30 100, milliseconds 200); (d_lit 40 100, milliseconds 400);
   (d_lit 50 100, milliseconds 500); (d_lit 60 100, milliseconds 1000)].
Definition etsiStates500us : list (double * Z) :=
  [(d_lit 0 1, milliseconds 50); (d_lit 30 100, milliseconds 100); (d_lit 40 100, milliseconds 200);
   (d_lit 50 100, milliseconds 250); (d_lit 65 100, milliseconds 1000)].

(** The machine of a DCC entity, by the configuration's choice. *)
Inductive StateMachine := FullyMeshedMachine (m : FullyMeshedStateMachine) | GradualMachine (m : GradualStateMachine).
Definition make_StateMachine (kind : StateMachineKind) : StateMachine :=
  match kind with
  | FullyMeshed => FullyMeshedMachine fully_meshed_create
  | Gradual500us => GradualMachine (gradual_create etsiStates500us)
  | Gradual1ms => GradualMachine (gradual_create etsiStates1ms)
  end.
Definition machine_update (cl : double) (m : StateMachine) : res StateMachine :=
  match m with
  | FullyMeshedMachine m => FullyMeshedMachine <$> fully_meshed_update cl m
  | GradualMachine m => Ok (GradualMachine (gradual_update cl m))
  end.
Definition transmission_interval (m : StateMachine) : Z :=
  match m with FullyMeshedMachine m => fully_meshed_interval m | GradualMachine m => gradual_interval m end.

(** ** Budgets *)
(** [m_last_tx] *)
Abbreviation StateMachineBudget := (option Z).
Definition fsm_delay (tx_interval now : Z) (m_last_tx : StateMachineBudget) : Z :=
  match m_last_tx with
  | Some last_tx => if last_tx + tx_interval <? now then 0 else last_tx + tx_interval - now
  | None => 0
  end.
Definition fsm_notify (now : Z) (m_last_tx : StateMachineBudget) : StateMachineBudget := Some now.

(** The times of the messages are the oldest first. *)
Record BurstBudget := mkBurst { m_messages : list Z; m_burst_duration : Z; m_burst_period : Z }.
Definition N_Burst : nat := 20.
Definition burst_create : BurstBudget := mkBurst [] (seconds 1) (seconds 10).
Definition burst_delay (now : Z) (b : BurstBudget) : res (Z * BurstBudget) :=
  assert_ "m_burst_duration < m_burst_period" (m_burst_duration b <? m_burst_period b) ;;
  match m_messages b with
  | [] => Ok (0, b)
  | front :: _ =>
      if (now <? front + m_burst_duration b) && negb (Nat.eqb (length (m_messages b)) N_Burst) then Ok (0, b)
      else if front + m_burst_period b <? now then Ok (0, mkBurst [] (m_burst_duration b) (m_burst_period b))
      else Ok (front + m_burst_period b - now, b)
  end.
(** The circular buffer drops its oldest element when it is full. *)
Definition push_back {A} (capacity : nat) (x : A) (l : list A) : list A := drop (S (length l) - capacity) (l ++ [x]).
Definition burst_notify (now : Z) (b : BurstBudget) : BurstBudget :=
  mkBurst (push_back N_Burst now (m_messages b)) (m_burst_duration b) (m_burst_period b).

(** ** What the fully meshed machine advises *)
(** Numbers of the unit interval are compared like numbers. *)
Lemma unit_not_nan x : unit_interval x = true -> d_is_nan x = false.
Proof. intros [_ H]%andb_true_iff. by apply dleb_not_nan in H as [? _]. Qed.
Lemma unit_not_inf x : unit_interval x = true -> is_inf x = false /\ dltb x d_inf = true.
Proof.
  intros [H0 H1]%andb_true_iff. destruct x as [[]|[]| |[] m e]; try done.
Qed.

Definition least (m : double) (l : list double) : double := foldl (fun m x => if dltb x m then x else m) m l.
Definition greatest (m : double) (l : list double) : double := foldl (fun m x => if dltb m x then x else m) m l.
Lemma least_spec l : forall m, d_is_nan m = false -> Forall (fun x => d_is_nan x = false) l ->
  dleb (least m l) m = true /\ (forall x, x ∈ l -> dleb (least m l) x = true) /\ (least m l = m \/ least m l ∈ l).
Proof.
  induction l as [|y l IH]; intros m Hm Hl; cbn [least foldl]; [split_and!; [by apply dleb_refl|by intros x ?%not_elem_of_nil|by left]|].
  inversion_clear Hl as [|?? Hy Hl']. fold (least (if dltb y m then y else m) l). destruct (dltb y m) eqn:E.
  - destruct (IH y Hy Hl') as (H1 & H2 & H3). split_and!.
    + apply dltb_dleb in E. by apply (dleb_trans _ y).
    + by intros x [->|Hx]%elem_of_cons; [|apply H2].
    + right. destruct H3 as [->|H3]; [left|by right].
  - destruct (IH m Hm Hl') as (H1 & H2 & H3). split_and!; [done| |by destruct H3 as [->|]; [left|right; right]].
    intros x [->|Hx]%elem_of_cons; [|by apply H2]. apply dltb_false in E; [|done..]. by apply (dleb_trans _ m).
Qed.
Lemma greatest_spec l : forall m, d_is_nan m = false -> Forall (fun x => d_is_nan x = false) l ->
  dleb m (greatest m l) = true /\ (forall x, x ∈ l -> dleb x (greatest m l) = true) /\ (greatest m l = m \/ greatest m l ∈ l).
Proof.
  induction l as [|y l IH]; intros m Hm Hl; cbn [greatest foldl]; [split_and!; [by apply dleb_refl|by intros x ?%not_elem_of_nil|by left]|].
  inversion_clear Hl as [|?? Hy Hl']. fold (greatest (if dltb m y then y else m) l). destruct (dltb m y) eqn:E.
  - destruct (IH y Hy Hl') as (H1 & H2 & H3). split_and!.
    + apply dltb_dleb in E. by apply (dleb_trans _ y).
    + by intros x [->|Hx]%elem_of_cons; [|apply H2].
    + right. destruct H3 as [->|H3]; [left|by right].
  - destruct (IH m Hm Hl') as (H1 & H2 & H3). split_and!; [done| |by destruct H3 as [->|]; [left|right; right]].
    intros x [->|Hx]%elem_of_cons; [|by apply H2]. apply dltb_false in E; [|done..]. by apply (dleb_trans _ m).
Qed.

Definition ramp_up (t : double) (h : list double) : bool := forallb (dleb t) (take N_samples_up h).
Definition cool_down (t : double) (h : list double) : bool := forallb (fun x => dltb x t) (take N_samples_down h).
Definition reached (h : list double) (t : double) : bool := existsb (dleb t) (take N_samples_down h).
(** The substate counts the thresholds that one of the last fifty loads has reached. *)
Definition substate_of (h : list double) : nat := Nat.min 4 (length (List.filter (reached h) active_channel_loads)).
(** The state for a history of loads, the newest first. *)
Fixpoint advised (h : list double) : DccState :=
  match h with
  | [] => Relaxed
  | _ :: h' =>
      match advised h' with
      | Relaxed => if ramp_up NDL_minChannelLoad h then Active else Relaxed
      | Restrictive => if cool_down NDL_maxChannelLoad h then Active else Restrictive
      | Active =>
          if cool_down NDL_minChannelLoad h then Relaxed
          else if ramp_up NDL_maxChannelLoad h then Restrictive else Active
      end
  end.
Definition in_unit (h : list double) : Prop := Forall (fun x => unit_interval x = true) h.
Lemma in_unit_not_nan h n : in_unit h -> Forall (fun x => d_is_nan x = false) (take n h).
Proof. intros Hh. apply Forall_take. eapply Forall_impl; [exact Hh|]. apply unit_not_nan. Qed.

Lemma in_take {A} (x : A) n l : x ∈ take n l -> x ∈ l.
Proof. intros (i & Hi & _)%elem_of_take. by eapply list_elem_of_lookup_2. Qed.

Section Window.
Variable s : FullyMeshedStateMachine.
Variable h : list double.
Hypothesis Hunit : in_unit h.
Hypothesis Hloads : m_channel_loads s = take 50 h.
Hypothesis Hne : h <> [].

Lemma window_least : exists x, min_channel_load s = x /\ x ∈ take 10 h /\ forall y, y ∈ take 10 h -> dleb x y = true.
Proof.
  unfold min_channel_load. rewrite Hloads, take_take. change (N_samples_up `min` 50)%nat with 10%nat. fold (least d_inf (take 10 h)).
  destruct (least_spec (take 10 h) d_inf eq_refl (in_unit_not_nan h 10 Hunit)) as (_ & Hle & Hin).
  assert (Hin' : least d_inf (take 10 h) ∈ take 10 h).
  { destruct Hin as [E|]; [|done]. exfalso. destruct h as [|x l] eqn:Eh; [done|]. specialize (Hle x).
    rewrite E in Hle. inversion_clear Hunit as [|?? Hx _]. apply unit_not_inf in Hx as [_ Hx]. apply dltb_dleb_antisym in Hx.
    rewrite Hle in Hx; [done|constructor]. }
  exists (least d_inf (take 10 h)). split; [|done].
  assert (Hu : unit_interval (least d_inf (take 10 h)) = true).
  { unfold in_unit in Hunit. rewrite Forall_forall in Hunit. apply Hunit. by eapply in_take. }
  apply unit_not_inf in Hu as [-> _]. done.
Qed.
Lemma window_greatest : (forall y, y ∈ take 50 h -> dleb y (max_channel_load s) = true) /\
  (max_channel_load s = d_zero \/ max_channel_load s ∈ take 50 h) /\ dleb d_zero (max_channel_load s) = true.
Proof.
  unfold max_channel_load. rewrite Hloads, take_take. change (N_samples_down `min` 50)%nat with 50%nat. fold (greatest d_zero (take 50 h)).
  destruct (greatest_spec (take 50 h) d_zero eq_refl (in_unit_not_nan h 50 Hunit)) as (H1 & H2 & H3). done.
Qed.
Lemma ramp_up_least t : d_is_nan t = false -> dleb t (min_channel_load s) = ramp_up t h.
Proof.
  intros Ht. destruct window_least as (x & -> & Hx & Hle). apply eq_iff_eq_true. unfold ramp_up. rewrite forallb_forall. split.
  - intros Htx y Hy%list_elem_of_In. apply (dleb_trans _ x); [done|by apply Hle].
  - intros Hall. by apply Hall, list_elem_of_In.
Qed.
Lemma cool_down_greatest t : dltb d_zero t = true -> dltb (max_channel_load s) t = cool_down t h.
Proof.
  intros Ht. destruct window_greatest as (Hle & Hin & _). apply eq_iff_eq_true. unfold cool_down. rewrite forallb_forall. split.
  - intros Hmt y Hy%list_elem_of_In. eapply dle_lt_trans; [by apply Hle|done].
  - intros Hall. destruct Hin as [->|Hin]; [done|]. by apply Hall, list_elem_of_In.
Qed.
Lemma reached_greatest t : dltb d_zero t = true -> dleb t (max_channel_load s) = reached h t.
Proof.
  intros Ht. destruct window_greatest as (Hle & Hin & _). apply eq_iff_eq_true. unfold reached. rewrite existsb_exists. split.
  - intros Htm. destruct Hin as [E|Hin]; [apply dltb_dleb_antisym in Ht; congruence|]. exists (max_channel_load s).
    by rewrite <- list_elem_of_In.
  - intros (x & Hx%list_elem_of_In & Htx). eapply dleb_trans; [done|]. by apply Hle.
Qed.
Lemma window_ordered : dleb (min_channel_load s) (max_channel_load s) = true.
Proof.
  destruct window_least as (x & -> & Hx & _). apply window_greatest. assert (take 10 h ⊆ take 50 h) as Hsub; [|by apply Hsub].
  intros y Hy. replace (take 10 h) with (take 10 (take 50 h)) in Hy by (by rewrite take_take). by eapply in_take.
Qed.
End Window.

(** The thresholds of the substates are in their order. *)
Lemma thresholds_sorted : StronglySorted (fun a b => dltb a b = true) active_channel_loads.
Proof. repeat constructor. Qed.
Lemma upper_bound_filter v l : d_is_nan v = false -> Forall (fun x => d_is_nan x = false) l -> StronglySorted (fun a b => dltb a b = true) l ->
  upper_bound v l = length (List.filter (fun t => dleb t v) l).
Proof.
  intros Hv Hl. induction 1 as [|x l Hs IH Hx]; [done|]. inversion_clear Hl as [|?? Hxn Hln]. cbn [upper_bound List.filter].
  destruct (dltb v x) eqn:E.
  - rewrite (dltb_dleb_antisym _ _ E). clear IH Hs Hln. induction Hx as [|y l Hy Hl' IH]; [done|]. cbn [List.filter].
    by rewrite (dltb_dleb_antisym v y) by (by apply (dltb_trans _ x)).
  - rewrite (dltb_false _ _ Hv Hxn E). cbn [length]. f_equal. by apply IH.
Qed.
Lemma filter_le {A} (p q : A -> bool) l : (forall x, p x = true -> q x = true) -> (length (List.filter p l) <= length (List.filter q l))%nat.
Proof.
  intros H. induction l as [|x l IH]; [done|]. cbn [List.filter]. destruct (p x) eqn:E; [rewrite (H x E); cbn [length]; lia|].
  destruct (q x); cbn [length]; lia.
Qed.

Lemma window_active s h : in_unit h -> m_channel_loads s = take 50 h -> h <> [] ->
  active_update (min_channel_load s) (max_channel_load s) = Ok (substate_of h).
Proof.
  intros Hu Hl Hne. unfold active_update. pose proof (window_ordered s h Hu Hl Hne) as Hord. rewrite Hord. cbn [assert_ mbind res_bind].
  assert (Hnan : Forall (fun x => d_is_nan x = false) active_channel_loads) by (by repeat constructor).
  rewrite !upper_bound_filter by (apply thresholds_sorted || done || apply (dleb_not_nan _ _ Hord)).
  unfold substate_of. change (sc_substates - 1)%nat with 4%nat. f_equal. f_equal.
  assert (Hf : List.filter (fun t => dleb t (max_channel_load s)) active_channel_loads = List.filter (reached h) active_channel_loads).
  { apply List.filter_ext_in. intros t Ht. apply (reached_greatest s h Hu Hl). destruct Ht as [<-|[<-|[<-|[<-|[<-|[]]]]]]; vm_compute; done. }
  rewrite Hf, Nat.max_r; [done|]. rewrite <- Hf. apply filter_le. intros t Ht. by apply (dleb_trans _ (min_channel_load s)).
Qed.

(** One more load. *)
Definition well_advised (h : list double) (s : FullyMeshedStateMachine) : Prop :=
  m_state s = advised h /\ m_channel_loads s = take 50 h /\ (m_state s = Active -> m_substate s = substate_of h).
Lemma well_advised_update h cl s : in_unit (cl :: h) -> well_advised h s ->
  exists s', fully_meshed_update cl s = Ok s' /\ well_advised (cl :: h) s'.
Proof.
  intros Hu (Hst & Hl & Hsub). unfold fully_meshed_update.
  set (s1 := mkFullyMeshed (m_state s) (m_substate s) (take (Nat.max N_samples_up N_samples_down) (cl :: m_channel_loads s))).
  assert (Hl1 : m_channel_loads s1 = take 50 (cl :: h)).
  { cbn [s1 m_channel_loads]. rewrite Hl. change (Nat.max N_samples_up N_samples_down) with 50%nat. cbn [take]. f_equal. by rewrite take_take. }
  assert (Hne : cl :: h <> []) by done.
  assert (Hact : to_active s1 = Ok (mkFullyMeshed Active (substate_of (cl :: h)) (take 50 (cl :: h)))).
  { unfold to_active. rewrite (window_active s1 (cl :: h)) by done. cbn [mbind res_bind]. by rewrite Hl1. }
  change (m_state s1) with (m_state s). unfold well_advised. cbn [advised]. rewrite Hst.
  pose proof (ramp_up_least s1 (cl :: h) Hu Hl1 Hne) as Hup. pose proof (cool_down_greatest s1 (cl :: h) Hu Hl1) as Hdown.
  destruct (advised h).
  - rewrite (Hup NDL_minChannelLoad) by done. destruct (ramp_up _ _); [rewrite Hact|]; (eexists; split; [done|]); [by split_and!|].
    split_and!; [done..|]. cbn [s1 m_state]. by rewrite Hst.
  - rewrite (Hdown NDL_minChannelLoad) by done. destruct (cool_down _ _); [eexists; split; [done|]; by split_and!|].
    rewrite (Hup NDL_maxChannelLoad) by done. destruct (ramp_up _ _); [|rewrite Hact]; (eexists; split; [done|]); by split_and!.
  - rewrite (Hdown NDL_maxChannelLoad) by done. destruct (cool_down _ _); [rewrite Hact|]; (eexists; split; [done|]); [by split_and!|].
    split_and!; [done..|]. cbn [s1 m_state]. by rewrite Hst.
Qed.

Definition fully_meshed_run (loads : list double) : res FullyMeshedStateMachine :=
  res_fold (fun s cl => fully_meshed_update cl s) loads fully_meshed_create.
Lemma res_fold_snoc {A S} (f : S -> A -> res S) l x s : res_fold f (l ++ [x]) s = (t ← res_fold f l s; f t x).
Proof. rewrite res_fold_app. cbn. destruct (res_fold f l s); [|done]. cbn. by destruct (f _ _). Qed.

Lemma fully_meshed_run_advised h : in_unit h -> exists s, fully_meshed_run (rev h) = Ok s /\ well_advised h s.
Proof.
  intros Hu. unfold fully_meshed_run. induction h as [|cl h IH]; [by exists fully_meshed_create|]. inversion Hu as [|?? _ Hu']; subst.
  destruct (IH Hu') as (s & Hs & Hw). destruct (well_advised_update h cl s Hu Hw) as (s' & Hs' & Hw').
  exists s'. split; [|done]. cbn [rev]. by rewrite res_fold_snoc, Hs.
Qed.
(** The interval of the state. *)
Lemma well_advised_interval h s : well_advised h s ->
  fully_meshed_interval s = match advised h with
                            | Relaxed => milliseconds 60
                            | Active => milliseconds (100 + 80 * Z.of_nat (substate_of h))
                            | Restrictive => milliseconds 460
                            end /\ (substate_of h <= 4)%nat.
Proof.
  intros (Hst & _ & Hsub). assert (Hle : (substate_of h <= 4)%nat) by (unfold substate_of; lia). split; [|done].
  unfold fully_meshed_interval. rewrite <- Hst. destruct (m_state s); [done| |done]. rewrite (Hsub eq_refl).
  destruct (substate_of h) as [|[|[|[|[|n]]]]]; [reflexivity..|lia].
Qed.

(** After any loads of the unit interval (the newest first in [h]), without a fault, the
    fully meshed state machine is in the state of a reference machine over the whole history:
    relaxed until the last ten loads (a second) are all at least 0.19; restrictive once the
    last ten are all at least 0.59, until the last fifty (five seconds) are all below; relaxed
    again when the last fifty are all below 0.19; and otherwise active in the substate of as many
    thresholds as one of the last fifty loads has reached.  The interval it advises is that
    of the state, 60 ms, 100 to 420 ms, or 460 ms. *)
Theorem fully_meshed_advised h : in_unit h -> exists s, fully_meshed_run (rev h) = Ok s /\ m_state s = advised h /\
  fully_meshed_interval s = match advised h with
                            | Relaxed => milliseconds 60
                            | Active => milliseconds (100 + 80 * Z.of_nat (substate_of h))
                            | Restrictive => milliseconds 460
                            end /\ (substate_of h <= 4)%nat.
Proof.
  intros Hu. destruct (fully_meshed_run_advised h Hu) as (s & Hs & Hw). exists s.
  destruct (well_advised_interval h s Hw). by destruct Hw as [Hst _].
Qed.

Lemma in_unit_check h : forallb unit_interval h = true -> in_unit h.
Proof. intros H. apply Forall_forall. intros x Hx%list_elem_of_In. by eapply forallb_forall in H. Qed.

Definition ex_loads : list double := replicate 10 (d_lit 7 10) ++ replicate 3 (d_lit 30 100) ++ [d_lit 1 10].
Lemma fully_meshed_advised_witness : exists s, fully_meshed_run (rev ex_loads) = Ok s /\ m_state s = Restrictive.
Proof.
  destruct (fully_meshed_advised ex_loads) as (s & Hs & Hst & _); [apply in_unit_check; vm_compute; reflexivity|]. exists s. split; [exact Hs|].
  rewrite Hst. vm_compute. reflexivity.
Defined.
(** Ramping up is not deferred at the start, when there are less samples than a second's. *)
Example first_load_counts : m_state <$> fully_meshed_run [d_lit 60 100] = Ok Active /\ m_state <$> fully_meshed_run (replicate 2 (d_lit 60 100)) = Ok Restrictive.
Proof. vm_compute. split; reflexivity. Qed.
(** Within the active state a single load is enough to go up. *)
Example one_peak : m_substate <$> fully_meshed_run (replicate 20 (d_lit 20 100) ++ [d_lit 58 100]) = Ok 4%nat.
Proof. vm_compute. reflexivity. Qed.

(** ** What the gradual machine settles at *)
(** The state that a load belongs to: the last one whose least load it has. *)
Definition band (cl : double) (states : list (double * Z)) : nat := (upper_bound cl (fst <$> states) - 1)%nat.
Definition limits_ok (states : list (double * Z)) : Prop :=
  StronglySorted (fun a b => dltb a b = true) (fst <$> states) /\ Forall (fun x => d_is_nan x = false) (fst <$> states).
Lemma upper_bound_spec v l : d_is_nan v = false -> Forall (fun x => d_is_nan x = false) l -> StronglySorted (fun a b => dltb a b = true) l ->
  forall i x, l !! i = Some x -> dltb v x = negb (Nat.ltb i (upper_bound v l)).
Proof.
  intros Hv Hl. induction 1 as [|y l Hs IH Hy]; intros i x Hx; [done|]. inversion_clear Hl as [|?? Hyn Hln]. cbn [upper_bound]. destruct (dltb v y) eqn:E.
  - destruct i as [|i]; cbn in Hx; [by simplify_eq|]. rewrite Forall_forall in Hy. apply (dltb_trans _ y); [done|]. apply Hy. by eapply list_elem_of_lookup_2.
  - destruct i as [|i]; cbn in Hx; [by simplify_eq|]. by apply IH.
Qed.
Lemma upper_bound_le v l : (upper_bound v l <= length l)%nat.
Proof. induction l as [|x l IH]; cbn; [lia|]. destruct (dltb v x); lia. Qed.
(** One update is one step towards the load's state. *)
Lemma gradual_step cl states i : d_is_nan cl = false -> limits_ok states -> (i < length states)%nat ->
  (0 < upper_bound cl (fst <$> states))%nat ->
  gradual_update cl (mkGradual states i) =
    mkGradual states (if Nat.ltb i (band cl states) then S i else if Nat.ltb (band cl states) i then i - 1 else i)%nat.
Proof.
  intros Hcl [Hs Hn] Hi Hpos. pose proof (upper_bound_spec cl (fst <$> states) Hcl Hn Hs) as Hu. unfold band.
  pose proof (upper_bound_le cl (fst <$> states)) as Hle. rewrite length_fmap in Hle. set (n := upper_bound cl (fst <$> states)) in *.
  unfold gradual_update. cbn [m_states m_current]. destruct (states !! i) as [[x d]|] eqn:Ex; [|apply lookup_ge_None in Ex; lia]. cbn [fst].
  rewrite (Hu i x) by (by rewrite list_lookup_fmap, Ex). destruct (Nat.ltb_spec i n) as [Hin|Hin]; cbn [negb].
  - rewrite (proj2 (Nat.ltb_ge (n - 1) i)) by lia. destruct (states !! S i) as [[y e]|] eqn:Ey.
    + cbn [fst]. rewrite (Hu (S i) y) by (by rewrite list_lookup_fmap, Ey). rewrite negb_involutive.
      destruct (Nat.ltb_spec (S i) n), (Nat.ltb_spec i (n - 1)); try lia; done.
    + apply lookup_ge_None in Ey. by rewrite (proj2 (Nat.ltb_ge i (n - 1))) by lia.
  - rewrite (proj2 (Nat.ltb_ge i (n - 1))), (proj2 (Nat.ltb_lt (n - 1) i)) by lia. destruct i as [|i]; [lia|]. f_equal. lia.
Qed.
(** Under a constant load the gradual machine goes to the state of that load, one state with
    each update, in at most as many updates as there are states, and stays. *)
Theorem gradual_settles cl states i n : d_is_nan cl = false -> limits_ok states -> (i < length states)%nat ->
  (0 < upper_bound cl (fst <$> states))%nat -> (length states <= n)%nat ->
  Nat.iter n (gradual_update cl) (mkGradual states i) = mkGradual states (band cl states).
Proof.
  intros Hcl Hst Hi Hpos Hn.
  pose proof (upper_bound_le cl (fst <$> states)) as Hle. rewrite length_fmap in Hle.
  assert (Hb : (band cl states < length states)%nat) by (unfold band; lia).
  assert (H : forall k, exists j, Nat.iter k (gradual_update cl) (mkGradual states i) = mkGradual states j /\ (j < length states)%nat /\
    (j = band cl states \/ (j + k = i + 0 /\ band cl states < j) \/ (j = i + k /\ j < band cl states))%nat).
  { induction k as [|k (j & Hk & Hj & Hor)]; [exists i; split_and!; [done..|]; lia|]. rewrite Nat.iter_succ, Hk, gradual_step by done. eexists. split; [done|].
    destruct (Nat.ltb_spec j (band cl states)), (Nat.ltb_spec (band cl states) j); split; lia. }
  destruct (H n) as (j & -> & Hj & Hor). f_equal. lia.
Qed.

(** ** LIMERIC *)
Record LimericParameters := mkLimericParams {
  alpha : double; beta : double; delta_max : double; delta_min : double; g_plus_max : double; g_minus_max : double;
  cbr_target : double; cbr_interval : Z
}.
Definition limericDefaultParams : LimericParameters :=
  mkLimericParams (d_lit 16 1000) (d_lit 12 10000) (d_lit 3 100) (d_lit 6 10000) (d_lit 5 10000) (dopp (d_lit 25 100000))
    (d_lit 68 100) (milliseconds 100).
(** The last two loads, the older one first. *)
Record Limeric := mkLimeric { m_params : LimericParameters; limeric_load : double; m_duty_cycle : double; m_cbr : list double }.

Definition mean_of (l : list double) : double :=
  let accu := foldl dadd d_zero l in
  clamp (if Nat.ltb 1 (length l) then ddiv accu (d_of_Z (Z.of_nat (length l))) else accu).
Definition half (x : double) : double := clamp (dmul x (d_lit 1 2)).
Definition cbr_full (s : Limeric) : bool := Nat.eqb (length (m_cbr s)) 2.
Definition average_cbr (s : Limeric) : double :=
  if cbr_full s then clamp (dadd (half (mean_of (m_cbr s))) (half (limeric_load s))) else limeric_load s.
Definition update_cbr (cbr : double) (s : Limeric) : Limeric :=
  let l := push_back 2 cbr (m_cbr s) in
  mkLimeric (m_params s) (if cbr_full s then limeric_load s else mean_of l) (m_duty_cycle s) l.
Definition calculate_duty_cycle (s : Limeric) : double :=
  let p := m_params s in
  let cbr_delta := dsub (cbr_target p) (limeric_load s) in
  let delta_offset := if dltb d_zero cbr_delta then d_min (dmul (beta p) cbr_delta) (g_plus_max p)
                      else d_max (dmul (beta p) cbr_delta) (g_minus_max p) in
  let delta := clamp (dadd (dmul (dsub (d_of_Z 1) (alpha p)) (m_duty_cycle s)) delta_offset) in
  d_min (d_max delta (delta_min p)) (delta_max p).
(** The time point of the next calculation: a multiple of twice the interval. *)
Definition limeric_schedule (now : Z) (s : Limeric) : Z :=
  let scheduling_interval := 2 * cbr_interval (m_params s) in
  let tp := now + scheduling_interval in
  let scheduling_bias := Z.rem tp scheduling_interval in
  if cbr_interval (m_params s) <? scheduling_bias then tp + (scheduling_interval - scheduling_bias)
  else if 0 <? scheduling_bias then tp - scheduling_bias else tp.
(** The first calculation's time point comes with the algorithm. *)
Definition limeric_create (now : Z) (p : LimericParameters) : Limeric * Z :=
  let s := mkLimeric p d_zero (clamp (dmul (d_lit 1 2) (dadd (delta_max p) (delta_min p)))) [] in
  (s, limeric_schedule now s).
Definition calculate (now : Z) (s : Limeric) : Limeric * Z :=
  let s := mkLimeric (m_params s) (average_cbr s) (m_duty_cycle s) (m_cbr s) in
  let s := mkLimeric (m_params s) (limeric_load s) (calculate_duty_cycle s) (m_cbr s) in
  (s, limeric_schedule now s).

(** *** Staying in the limits *)
Lemma unit_finite x : unit_interval x = true -> d_finite x = true.
Proof. intros [H0 H1]%andb_true_iff. by destruct x as [[]|[]| |]. Qed.
Lemma clamp_unit x : d_is_nan x = false -> unit_interval (clamp x) = true.
Proof.
  intros Hx. unfold clamp, unit_interval. destruct (dltb (d_of_Z 1) x) eqn:E1; [done|]. destruct (dltb x (d_of_Z 0)) eqn:E0; [done|].
  by rewrite (dltb_false x (d_of_Z 0)), (dltb_false (d_of_Z 1) x).
Qed.
Lemma clamp_idem x : clamp (clamp x) = clamp x.
Proof.
  unfold clamp at 2 3. destruct (dltb (d_of_Z 1) x) eqn:E1; [done|]. destruct (dltb x (d_of_Z 0)) eqn:E0; [done|].
  unfold clamp. by rewrite E1, E0.
Qed.
Lemma unit_above x : unit_interval x = true -> d_above x.
Proof. intros H. by apply d_finite_above, unit_finite. Qed.
(** Products of such numbers, which may be zero of either sign. *)
Lemma product_above x y : unit_interval x = true -> unit_interval y = true -> d_above (dmul x y).
Proof.
  intros Hx Hy. destruct x as [s|[]| |[] m e], y as [s'|[]| |[] m' e']; try done; try by apply d_finite_above.
  apply d_pos_above; [by apply d_pos_mul|by apply dmul_number].
Qed.
Lemma sum_unit x y : unit_interval x = true -> unit_interval y = true -> unit_interval (clamp (dadd x y)) = true.
Proof. intros Hx Hy. apply clamp_unit, dadd_number; by apply unit_above. Qed.
Lemma half_unit x : unit_interval x = true -> unit_interval (half x) = true.
Proof. intros Hx. apply clamp_unit, dmul_number; [by apply unit_finite|done]. Qed.
(** A mean of two loads at most. *)
Lemma mean_unit l : in_unit l -> (length l <= 2)%nat -> unit_interval (mean_of l) = true.
Proof.
  intros Hl Hn. unfold mean_of. apply clamp_unit. destruct l as [|x [|y [|]]]; [done|..|cbn in Hn; lia].
  - cbn [foldl length Nat.ltb Nat.leb]. inversion_clear Hl as [|?? Hx _]. by apply dadd_number; [|apply unit_above].
  - inversion_clear Hl as [|?? Hx Hl']. inversion_clear Hl' as [|?? Hy _]. cbn [foldl length Nat.ltb Nat.leb].
    change (d_of_Z (Z.of_nat 2)) with (SpecFloat.S754_finite false (2 ^ 52) (-51)). apply ddiv_number, dadd_number; [|by apply unit_above].
    split; [by apply dadd_number; [|apply unit_above]|]. by destruct x as [[]|[]| |[]].
Qed.

(** Parameters that the algorithm is made for: the factors are positive, the limits ordered. *)
Record sound_parameters (p : LimericParameters) : Prop := {
  alpha_unit : unit_interval (alpha p) = true;
  complement_unit : unit_interval (dsub (d_of_Z 1) (alpha p)) = true;
  beta_positive : exists m e, beta p = SpecFloat.S754_finite false m e;
  limits_unit : unit_interval (delta_min p) = true /\ unit_interval (delta_max p) = true /\ dleb (delta_min p) (delta_max p) = true;
  offsets : d_finite (g_plus_max p) = true /\ d_finite (g_minus_max p) = true;
  target_unit : unit_interval (cbr_target p) = true;
  interval_positive : 0 < cbr_interval p
}.
Lemma default_sound : sound_parameters limericDefaultParams.
Proof. split; try done. by eexists _, _. Qed.

(** The duty cycle is at the limits or between them. *)
Definition permitted (p : LimericParameters) (x : double) : Prop := dleb (delta_min p) x = true /\ dleb x (delta_max p) = true.
Lemma limit_permitted p x : sound_parameters p -> d_is_nan x = false -> permitted p (d_min (d_max x (delta_min p)) (delta_max p)).
Proof.
  intros [_ _ _ (Hmin & Hmax & Hle) _ _ _] Hx. apply unit_not_nan in Hmin, Hmax. unfold permitted, d_min, d_max.
  destruct (dltb x (delta_min p)) eqn:E.
  - destruct (dltb (delta_max p) (delta_min p)) eqn:E'; [by apply dltb_dleb_antisym in E'; rewrite Hle in E'|].
    split; [by apply dleb_refl|done].
  - destruct (dltb (delta_max p) x) eqn:E'; [split; [done|by apply dleb_refl]|]. split; by apply dltb_false.
Qed.
Lemma offset_above p delta : sound_parameters p -> d_is_nan delta = false ->
  d_above (if dltb d_zero delta then d_min (dmul (beta p) delta) (g_plus_max p) else d_max (dmul (beta p) delta) (g_minus_max p)).
Proof.
  intros [_ _ (m & e & Hb) _ (Hp & Hm) _ _] Hd. rewrite Hb. pose proof (dmul_nonzero_number false m e delta Hd) as Hn.
  destruct (dltb d_zero delta) eqn:E.
  - unfold d_min. destruct (dltb (g_plus_max p) _); [by apply d_finite_above|]. apply d_pos_above; [|done]. apply d_pos_mul; [done|].
    by destruct delta as [[]|[]| |[]].
  - unfold d_max. destruct (dltb _ (g_minus_max p)) eqn:E'; [by apply d_finite_above|]. split; [done|]. intros Heq. rewrite Heq in E'.
    by destruct (g_minus_max p).
Qed.
Lemma duty_cycle_permitted s : sound_parameters (m_params s) -> unit_interval (limeric_load s) = true ->
  unit_interval (m_duty_cycle s) = true -> permitted (m_params s) (calculate_duty_cycle s).
Proof.
  intros Hp Hl Hd. pose proof Hp as [_ Hc _ _ _ Ht _]. unfold calculate_duty_cycle. apply limit_permitted; [done|]. apply unit_not_nan, clamp_unit, dadd_number.
  - by apply product_above.
  - apply offset_above; [done|]. apply dsub_number; [by apply unit_finite|by apply unit_not_nan].
Qed.

(** What reaches the algorithm: loads, and its own callbacks at the runtime's time. *)
Inductive limeric_event := UpdateCbr (cbr : double) | Calculate (now : Z).
(** The algorithm and the time points it has asked for, the newest first. *)
Definition limeric_step (s : Limeric * list Z) (e : limeric_event) : Limeric * list Z :=
  match e with
  | UpdateCbr cbr => (update_cbr cbr s.1, s.2)
  | Calculate now => let '(l, tp) := calculate now s.1 in (l, tp :: s.2)
  end.
(** [LimericDccEntity] sets the target only. *)
Definition with_target (target : double) (p : LimericParameters) : LimericParameters :=
  mkLimericParams (alpha p) (beta p) (delta_max p) (delta_min p) (g_plus_max p) (g_minus_max p) target (cbr_interval p).
Definition limeric_run (target : double) (now : Z) (events : list limeric_event) : Limeric * list Z :=
  let '(s, tp) := limeric_create now (with_target target limericDefaultParams) in
  foldl limeric_step (s, [tp]) events.

Lemma target_sound target : unit_interval target = true -> sound_parameters (with_target target limericDefaultParams).
Proof. intros Ht. pose proof default_sound as []. by split. Qed.
Record limeric_ok (target : double) (s : Limeric) : Prop := {
  ok_params : m_params s = with_target target limericDefaultParams;
  ok_load : unit_interval (limeric_load s) = true;
  ok_duty : permitted (m_params s) (m_duty_cycle s);
  ok_cbr : in_unit (m_cbr s);
  ok_count : (length (m_cbr s) <= 2)%nat
}.
Lemma permitted_unit p x : sound_parameters p -> permitted p x -> unit_interval x = true.
Proof.
  intros [_ _ _ (Hmin & Hmax & _) _ _ _] [H1 H2]. apply andb_true_iff in Hmin as [Hmin _], Hmax as [_ Hmax].
  apply andb_true_iff. split; [by apply (dleb_trans _ (delta_min p))|by apply (dleb_trans _ (delta_max p))].
Qed.
Lemma average_unit target s : limeric_ok target s -> unit_interval (average_cbr s) = true.
Proof.
  intros [_ Hl _ Hc Hn]. unfold average_cbr. destruct (cbr_full s); [|done]. apply sum_unit; apply half_unit; [by apply mean_unit|done].
Qed.
Lemma push_back_length {A} n (x : A) l : (0 < n)%nat -> (length l <= n)%nat -> (length (push_back n x l) <= n)%nat.
Proof. intros Hn Hl. unfold push_back. rewrite length_drop, length_app. cbn. lia. Qed.
Lemma update_cbr_ok target cbr s : unit_interval cbr = true -> limeric_ok target s -> limeric_ok target (update_cbr cbr s).
Proof.
  intros Hcbr [Hp Hl Hd Hc Hn]. unfold update_cbr.
  assert (Hc' : in_unit (push_back 2 cbr (m_cbr s))) by (apply Forall_drop, Forall_app; split; [done|by constructor]).
  assert (Hn' : (length (push_back 2 cbr (m_cbr s)) <= 2)%nat) by (apply push_back_length; lia).
  split; [done| |done..]. cbn [limeric_load]. destruct (cbr_full s); [done|by apply mean_unit].
Qed.
Lemma calculate_ok target now s : unit_interval target = true -> limeric_ok target s -> limeric_ok target (calculate now s).1.
Proof.
  intros Ht Hok. pose proof (average_unit target s Hok) as Ha. destruct Hok as [Hp Hl Hd Hc Hn]. unfold calculate.
  pose proof (target_sound target Ht) as Hsound. split; [done|done| |done..]. cbn [fst m_duty_cycle m_params].
  apply (duty_cycle_permitted (mkLimeric (m_params s) (average_cbr s) (m_duty_cycle s) (m_cbr s))); cbn [m_params limeric_load m_duty_cycle]; [by rewrite Hp|done|].
  apply (permitted_unit (m_params s)); [by rewrite Hp|done].
Qed.
(** The grid of the calculations. *)
Lemma schedule_grid now s : 0 <= now -> 0 < cbr_interval (m_params s) ->
  (2 * cbr_interval (m_params s) | limeric_schedule now s) /\
  now + cbr_interval (m_params s) <= limeric_schedule now s < now + 3 * cbr_interval (m_params s).
Proof.
  intros Hnow Hi. unfold limeric_schedule. set (d := cbr_interval (m_params s)) in *.
  pose proof (Z.rem_bound_pos (now + 2 * d) (2 * d) ltac:(lia) ltac:(lia)) as Hb. pose proof (Z.quot_rem' (now + 2 * d) (2 * d)) as Hq.
  set (q := Z.quot (now + 2 * d) (2 * d)) in *. set (r := Z.rem (now + 2 * d) (2 * d)) in *.
  destruct (Z.ltb_spec d r); [split; [exists (q + 1)|]; lia|]. destruct (Z.ltb_spec 0 r); (split; [exists q|]; lia).
Qed.

Lemma create_ok target now : limeric_ok target (limeric_create now (with_target target limericDefaultParams)).1.
Proof.
  split; unfold limeric_create; cbn [fst m_params limeric_load m_duty_cycle m_cbr]; [reflexivity..| |constructor|cbn; lia].
  split; vm_compute; reflexivity.
Qed.
Lemma limeric_run_ok target now events : unit_interval target = true ->
  (forall cbr, UpdateCbr cbr ∈ events -> unit_interval cbr = true) -> limeric_ok target (limeric_run target now events).1.
Proof.
  intros Ht. unfold limeric_run. pose proof (create_ok target now) as H0.
  destruct (limeric_create now (with_target target limericDefaultParams)) as [s0 tp]. cbn [fst] in H0.
  generalize (@cons Z tp []). revert s0 H0. induction events as [|[cbr|t] l IH]; intros s0 H0 tps Hl; [done|..]; cbn [foldl limeric_step fst snd].
  - apply IH; [|intros c Hc; apply Hl; by right]. apply update_cbr_ok; [apply Hl; by left|done].
  - pose proof (calculate_ok target t s0 Ht H0) as Hok. destruct (calculate t s0) as [s' tp']. apply IH; [done|]. intros c Hc. apply Hl. by right.
Qed.
(** [C31] In every history of channel loads and calculations LIMERIC permits a duty cycle
    between 0.06 % and 3 %, and its averaged load is in the unit interval; after a
    calculation it asks for the next one at a multiple of 200 ms, 100 to 300 ms ahead. *)
Theorem limeric_in_limits target now events : unit_interval target = true ->
  (forall cbr, UpdateCbr cbr ∈ events -> unit_interval cbr = true) ->
  let s := (limeric_run target now events).1 in
  dleb (d_lit 6 10000) (m_duty_cycle s) = true /\ dleb (m_duty_cycle s) (d_lit 3 100) = true /\
  unit_interval (average_cbr s) = true /\
  forall t, 0 <= t -> exists s' tp, calculate t s = (s', tp) /\ (milliseconds 200 | tp) /\
    t + milliseconds 100 <= tp < t + milliseconds 300.
Proof.
  intros Ht Hl s. pose proof (limeric_run_ok target now events Ht Hl) as Hok. fold s in Hok.
  pose proof (average_unit target s Hok) as Ha. destruct Hok as [Hp _ Hd _ _]. rewrite Hp in Hd. destruct Hd as [H1 H2].
  split_and!; [done..|]. intros t Ht'. eexists _, _. split; [unfold calculate; reflexivity|].
  match goal with |- context [limeric_schedule t ?x] => pose proof (schedule_grid t x Ht') as Hg end.
  cbn [m_params] in Hg. assert (Hi : cbr_interval (m_params s) = milliseconds 100) by (by rewrite Hp).
  rewrite Hi in Hg. apply Hg. done.
Qed.
Definition ex_limeric_events : list limeric_event :=
  [UpdateCbr (d_lit 1 2); Calculate (milliseconds 1400); UpdateCbr (d_lit 9 10); UpdateCbr (d_lit 95 100); Calculate (milliseconds 1600)].
Lemma limeric_in_limits_witness : dleb (m_duty_cycle (limeric_run (d_lit 68 100) (milliseconds 1150) ex_limeric_events).1) (d_lit 3 100) = true.
Proof.
  destruct (limeric_in_limits (d_lit 68 100) (milliseconds 1150) ex_limeric_events) as (_ & H & _); [reflexivity| |exact H].
  intros cbr Hc. unfold ex_limeric_events in Hc. repeat (apply elem_of_cons in Hc as [Hc|Hc]; [first [injection Hc as ->; vm_compute; reflexivity|discriminate Hc]|]).
  by apply not_elem_of_nil in Hc.
Defined.
(** Under a full channel the duty cycle shrinks. *)
Example duty_cycle_shrinks :
  let s := (limeric_run (d_lit 68 100) 0 [UpdateCbr (d_of_Z 1); UpdateCbr (d_of_Z 1); Calculate 200000]) .1 in
  dltb (m_duty_cycle s) (d_lit 153 10000) = true /\ (limeric_run (d_lit 68 100) (milliseconds 1150) []).2 = [milliseconds 1400].
Proof. vm_compute. split; reflexivity. Qed.

(** ** From the radio to the interval *)
(** The machine of the entity, which a fault would end. *)
Definition entity_update (cbr : double) (m : res StateMachine) : res StateMachine := m ← m; machine_update cbr m.

Lemma smooth_unit alpha last load : unit_interval alpha = true -> unit_interval (dsub (d_of_Z 1) alpha) = true ->
  unit_interval last = true -> unit_interval load = true -> unit_interval (smooth alpha last load) = true.
Proof. intros Ha Hc Hlast Hload. apply clamp_unit, dadd_number; by apply product_above. Qed.
Definition processor_ok (p : ProbeProcessor) : Prop :=
  match p with
  | Local => True
  | SmoothingLocal alpha last => unit_interval alpha = true /\ unit_interval (dsub (d_of_Z 1) alpha) = true /\ unit_interval last = true
  end.
Lemma processed_unit loads : forall p, processor_ok p -> in_unit loads -> in_unit (processed p loads).1.
Proof.
  induction loads as [|x l IH]; intros p Hp Hl; [by constructor|]. inversion_clear Hl as [|?? Hx Hl']. destruct p as [|alpha last]; cbn [processed fst].
  - constructor; [done|by apply IH].
  - destruct Hp as (Ha & Hc & Hlast). assert (Hs : unit_interval (smooth alpha last x) = true) by (by apply smooth_unit).
    constructor; [done|]. by apply IH.
Qed.
Lemma initialized_ok name p : initializeChannelProbeProcessor name = Ok p -> processor_ok p.
Proof.
  unfold initializeChannelProbeProcessor. destruct (String.eqb name "Local"); [by intros [= <-]|].
  destruct (String.eqb name "SmoothingLocal"); [|done]. by intros [= <-].
Qed.
Lemma entity_run loads : forall s, foldl (fun m x => entity_update x m) (Ok (FullyMeshedMachine s)) loads =
  FullyMeshedMachine <$> res_fold (fun s cl => fully_meshed_update cl s) loads s.
Proof.
  induction loads as [|x l IH]; intros s; [done|]. cbn [foldl res_fold]. cbn [entity_update mbind res_bind machine_update].
  destruct (fully_meshed_update x s) as [s'|f]; cbn [fmap res_fmap mbind res_bind]; [by rewrite IH|]. clear IH. by induction l.
Qed.

(** [C30] From the radio to the transmission interval: whatever the medium of a Veins radio does, the
    fully meshed machine of its station is updated without a fault with the processed loads
    in their order, and its state and interval are those of the reference machine for that
    history: 60 ms while the channel is relaxed, 460 ms while it is restrictive, and in
    the active state 100, 180, 260, 340 or 420 ms, as the substate counts the thresholds
    that one of the last fifty loads has reached. *)
Theorem radio_advises_interval name p events driver :
  buffer_ok (mChannelLoadMeasurements driver) -> initializeChannelProbeProcessor name = Ok p ->
  let loads := (processed p (emitted driver events)).1 in
  exists driver' d m, res_fold (station_step entity_update) events (driver, mkDcc p NoNetworkEntity (Ok (make_StateMachine FullyMeshed))) = Ok (driver', d) /\
    mStateMachine d = Ok (FullyMeshedMachine m) /\ m_state m = advised (rev loads) /\
    transmission_interval (FullyMeshedMachine m) =
      match advised (rev loads) with
      | Relaxed => milliseconds 60
      | Active => milliseconds (100 + 80 * Z.of_nat (substate_of (rev loads)))
      | Restrictive => milliseconds 460
      end /\
    (substate_of (rev loads) <= 4)%nat /\
    milliseconds 60 <= transmission_interval (FullyMeshedMachine m) <= milliseconds 460 /\
    (m_state m = Active -> transmission_interval (FullyMeshedMachine m) = milliseconds (100 + 80 * Z.of_nat (substate_of (rev loads)))).
Proof.
  intros Hb Hp loads. destruct (station_follows entity_update events driver (mkDcc p NoNetworkEntity (Ok (make_StateMachine FullyMeshed))) Hb)
    as (Hunit & driver' & Hrun).
  assert (Hu : in_unit (rev loads)) by (apply Forall_rev, processed_unit; [by eapply initialized_ok|done]).
  destruct (fully_meshed_run_advised (rev loads) Hu) as (m & Hm & Hw). rewrite rev_involutive in Hm.
  destruct (well_advised_interval _ _ Hw) as [Hint Hle]. destruct Hw as [Hst _]. rewrite <- Hst in Hint.
  exists driver', (dcc_after entity_update (mkDcc p NoNetworkEntity (Ok (make_StateMachine FullyMeshed))) (emitted driver events)), m.
  cbn [transmission_interval]. rewrite Hint. split_and!; [done| |done|by rewrite Hst|done|..].
  - unfold dcc_after. cbn [mCbrProcessor mNetworkEntity mStateMachine]. unfold loads in Hm. destruct (processed p (emitted driver events)) as [xs q].
    cbn [mStateMachine fst] in *. cbn [make_StateMachine]. rewrite entity_run. unfold fully_meshed_run in Hm. by rewrite Hm.
  - unfold milliseconds. destruct (m_state m); lia.
  - unfold milliseconds. destruct (m_state m); lia.
  - by intros ->.
Qed.
Lemma radio_advises_interval_witness : exists driver' d m,
  res_fold (station_step entity_update) ex_radio (ex_driver, mkDcc Local NoNetworkEntity (Ok (make_StateMachine FullyMeshed))) = Ok (driver', d) /\
  mStateMachine d = Ok (FullyMeshedMachine m).
Proof.
  destruct (radio_advises_interval "Local" Local ex_radio ex_driver eq_refl eq_refl) as (driver' & d & m & H1 & H2 & _).
  exists driver', d, m. split; [exact H1|exact H2].
Defined.
