(* ===== verification/FlowControl.v ===== *)
(** * Flow control

    The gatekeeper above the access layer ([src/extern/vanetza/vanetza/dcc/flow_control.cpp])
    that every DCC entity creates: packets that must not be sent yet wait in a queue per access
    category until the runtime calls back.  How long to wait is a rate control's answer; rate
    controls ([single_reactive_transmit_rate_control.cpp], [bursty_transmit_rate_control.cpp],
    [limeric_transmit_rate_control.cpp] and the one without any of
    [networking/NoRateControlDccEntity.cc]) are instances of an interface, whose laws are all
    that flow control's theorem uses. *)

From S2P Require Import Prelude Float64 Radio Networking Dcc.

(** ** Profiles and access categories *)
Inductive Profile := DP0 | DP1 | DP2 | DP3.
Inductive AccessCategory := BK | BE | VI | VO.
#[export] Instance Profile_eq_dec : EqDecision Profile.
Proof. solve_decision. Defined.
#[export] Instance AccessCategory_eq_dec : EqDecision AccessCategory.
Proof. solve_decision. Defined.
Definition map_profile_onto_ac (dp_id : Profile) : AccessCategory :=
  match dp_id with DP0 => VO | DP1 => VI | DP2 => BE | DP3 => BK end.
Definition ac_number (ac : AccessCategory) : nat := match ac with BK => 0 | BE => 1 | VI => 2 | VO => 3 end.

(** ** Transmissions and data rates *)
Record Transmission := mkTransmission { tx_profile : Profile; body_length : Z }.
Definition data_length (coded_bits_per_symbol psdu : Z) : res Z :=
  let body := u32 (16 + 6 + psdu * 8) in
  let padding := body mod coded_bits_per_symbol in
  let padding := if 0 <? padding then coded_bits_per_symbol - padding else padding in
  assert_ "(body + padding) % 8 == 0" (u32 (body + padding) mod 8 =? 0) ;;
  Ok (u32 (body + padding) / 8).
(** At 6 Mbps: 750000 bytes per second, 96 coded bits in a symbol. *)
Definition channel_occupancy (tx : Transmission) : res Z :=
  bytes ← data_length 96 (body_length tx + 2 + 34);
  let seconds_per_byte := ddiv (d_of_Z 1) (d_of_Z 750000) in
  us ← d_to_long (dmul (dmul (d_of_Z bytes) seconds_per_byte) (d_of_Z 1000000));
  Ok (32 + 8 + us).

(** ** Rate controls *)
(** [Clock::duration::max()] *)
Definition duration_max : Z := 2 ^ 63 - 1.
(** The delay may change the budget; [at_rest] is what holds between calls at a time. *)
Class TransmitRateControl (T : Type) := {
  delay : Z -> Transmission -> T -> res (Z * T);
  interval : Transmission -> T -> res Z;
  notify : Z -> Transmission -> T -> res T;
  at_rest : Z -> T -> Prop;
  longest : Z
}.
Class RateControlLaws (T : Type) `{!TransmitRateControl T} : Prop := {
  longest_delay : longest < duration_max;
  delay_answers : forall now tx t, at_rest now t -> exists d t', delay now tx t = Ok (d, t') /\ 0 <= d <= longest /\ at_rest now t';
  notify_answers : forall now tx t, at_rest now t -> exists t', notify now tx t = Ok t' /\ at_rest now t';
  rest_later : forall now now' t, at_rest now t -> now <= now' -> at_rest now' t
}.

(** *** One state machine for all *)
Record SingleReactiveTransmitRateControl := mkSingle { single_fsm : StateMachine; single_budget : StateMachineBudget }.
Definition budget_at_rest (now : Z) (b : StateMachineBudget) : Prop := match b with Some last => last <= now | None => True end.
#[export] Instance single_rate : TransmitRateControl SingleReactiveTransmitRateControl := {|
  delay now tx t := Ok (fsm_delay (transmission_interval (single_fsm t)) now (single_budget t), t);
  interval tx t := Ok (transmission_interval (single_fsm t));
  notify now tx t := Ok (mkSingle (single_fsm t) (fsm_notify now (single_budget t)));
  at_rest now t := budget_at_rest now (single_budget t) /\ 0 <= transmission_interval (single_fsm t) <= seconds 1;
  longest := seconds 1
|}.

(** *** Bursts of the highest profile *)
Record BurstyTransmitRateControl := mkBursty { bursty_bursts : BurstBudget; bursty_budget : StateMachineBudget; bursty_fsm : StateMachine }.
Definition bursty_delay (now : Z) (tx : Transmission) (t : BurstyTransmitRateControl) : res (Z * BurstyTransmitRateControl) :=
  match tx_profile tx with
  | DP0 =>
      x ← burst_delay now (bursty_bursts t);
      let '(d, b) := x : Z * BurstBudget in
      Ok (d, mkBursty b (bursty_budget t) (bursty_fsm t))
  | _ => Ok (fsm_delay (transmission_interval (bursty_fsm t)) now (bursty_budget t), t)
  end.
Definition bursty_interval (tx : Transmission) (t : BurstyTransmitRateControl) : res Z :=
  match tx_profile tx with
  | DP0 => Ok (m_burst_period (bursty_bursts t))
  | _ => Ok (transmission_interval (bursty_fsm t))
  end.
Definition bursty_notify (now : Z) (tx : Transmission) (t : BurstyTransmitRateControl) : res BurstyTransmitRateControl :=
  match tx_profile tx with
  | DP0 => Ok (mkBursty (burst_notify now (bursty_bursts t)) (bursty_budget t) (bursty_fsm t))
  | _ => Ok (mkBursty (bursty_bursts t) (fsm_notify now (bursty_budget t)) (bursty_fsm t))
  end.
Definition bursts_at_rest (now : Z) (b : BurstBudget) : Prop :=
  Forall (fun t => t <= now) (m_messages b) /\ m_burst_duration b = seconds 1 /\ m_burst_period b = seconds 10.
#[export] Instance bursty_rate : TransmitRateControl BurstyTransmitRateControl := {|
  delay := bursty_delay;
  interval := bursty_interval;
  notify := bursty_notify;
  at_rest now t := bursts_at_rest now (bursty_bursts t) /\ budget_at_rest now (bursty_budget t) /\
                   0 <= transmission_interval (bursty_fsm t) <= seconds 1;
  longest := seconds 10
|}.

(** *** No rate control *)
#[export] Instance noop_rate : TransmitRateControl unit := {|
  delay now tx t := Ok (0, t); interval tx t := Ok 0; notify now tx t := Ok t; at_rest now t := True; longest := 0
|}.

(** *** LIMERIC's budget *)
(** Members the constructor leaves without a value are [None]. *)
Record LimericBudget := mkBudget { m_interval : option Z; m_tx_start : Z; m_tx_on : option Z }.
Definition read {A} (x : option A) : res A := match x with Some a => Ok a | None => Fail (Undefined "indeterminate value") end.
Definition i64 (z : Z) : res Z := if (- 2 ^ 63 <=? z) && (z <? 2 ^ 63) then Ok z else Fail (Undefined "signed overflow").
Definition clamp_interval (x : Z) : Z := Z.min (Z.max x (milliseconds 25)) (seconds 1).
Definition limeric_budget_delay (now : Z) (b : LimericBudget) : res Z :=
  i ← read (m_interval b);
  t ← i64 (m_tx_start b + i);
  if t <=? now then Ok 0 else Ok (t - now).
Definition limeric_budget_notify (now tx_on : Z) (duty_cycle : double) (b : LimericBudget) : res LimericBudget :=
  i ← d_to_long (ddiv (d_of_Z tx_on) duty_cycle);
  Ok (mkBudget (Some (clamp_interval i)) now (Some tx_on)).
Definition limeric_budget_update (now : Z) (duty_cycle : double) (b : LimericBudget) : res LimericBudget :=
  i ← read (m_interval b);
  t ← i64 (m_tx_start b + i);
  d ← i64 (t - now);
  on ← read (m_tx_on b);
  x ← d_to_long (dmul (ddiv (d_of_Z on) duty_cycle) (ddiv (d_of_Z d) (d_of_Z i)));
  y ← i64 (x + now);
  z ← i64 (y - m_tx_start b);
  Ok (mkBudget (Some (clamp_interval z)) (m_tx_start b) (m_tx_on b)).
Definition limeric_budget_create (now : Z) (duty_cycle : double) : res LimericBudget :=
  limeric_budget_update now duty_cycle (mkBudget None (- 2 ^ 63) None).
(** The rate control with the algorithm it asks for the duty cycle. *)
Record LimericTransmitRateControl := mkLimericControl { limeric_budget : LimericBudget; limeric_algorithm : Limeric }.
Definition limeric_control_notify (now : Z) (tx : Transmission) (t : LimericTransmitRateControl) : res LimericTransmitRateControl :=
  on ← channel_occupancy tx;
  b ← limeric_budget_notify now on (m_duty_cycle (limeric_algorithm t)) (limeric_budget t);
  Ok (mkLimericControl b (limeric_algorithm t)).
(** [on_duty_cycle_change] *)
Definition limeric_control_update (now : Z) (t : LimericTransmitRateControl) : res LimericTransmitRateControl :=
  b ← limeric_budget_update now (m_duty_cycle (limeric_algorithm t)) (limeric_budget t);
  Ok (mkLimericControl b (limeric_algorithm t)).
Definition limeric_control_calculate (now : Z) (t : LimericTransmitRateControl) : res (LimericTransmitRateControl * Z) :=
  let '(l, tp) := calculate now (limeric_algorithm t) in
  t ← limeric_control_update now (mkLimericControl (limeric_budget t) l);
  Ok (t, tp).
#[export] Instance limeric_rate : TransmitRateControl LimericTransmitRateControl := {|
  delay now tx t := d ← limeric_budget_delay now (limeric_budget t); Ok (d, t);
  interval tx t := read (m_interval (limeric_budget t));
  notify := limeric_control_notify;
  at_rest now t := m_tx_start (limeric_budget t) <= now /\ exists i, m_interval (limeric_budget t) = Some i /\ milliseconds 25 <= i <= seconds 1;
  longest := seconds 1
|}.

(** *** Laws *)
Lemma fsm_delay_bounds i now b : budget_at_rest now b -> 0 <= i -> 0 <= fsm_delay i now b <= i.
Proof. unfold fsm_delay, budget_at_rest. destruct b; [|lia]. intros. destruct (Z.ltb_spec (z + i) now); lia. Qed.
#[export] Instance single_laws : RateControlLaws SingleReactiveTransmitRateControl.
Proof.
  split; [done|..]; cbn.
  - intros now tx t [Hb Hi]. eexists _, t. split; [done|]. pose proof (fsm_delay_bounds _ now _ Hb (proj1 Hi)). split; [lia|done].
  - intros now tx t [Hb Hi]. eexists. split; [done|]. split; [cbn; lia|done].
  - intros now now' t [Hb Hi] Hle. split; [|done]. destruct (single_budget t); cbn in *; [lia|done].
Qed.
Lemma burst_delay_answers now b : bursts_at_rest now b -> exists d b', burst_delay now b = Ok (d, b') /\ 0 <= d <= seconds 10 /\ bursts_at_rest now b'.
Proof.
  intros (Hm & Hd & Hp). assert (Hpos : 0 <= 0 <= seconds 10) by (unfold seconds; lia). unfold burst_delay. rewrite Hd, Hp.
  cbn [assert_ mbind res_bind]. change (seconds 1 <? seconds 10) with true. cbn [assert_ mbind res_bind].
  assert (Hrest : bursts_at_rest now b) by done. destruct (m_messages b) as [|front l]; [by eexists _, b|].
  inversion_clear Hm as [|?? Hf _]. destruct (_ && _); [by eexists _, b|]. destruct (Z.ltb_spec (front + seconds 10) now).
  - eexists _, _. split; [done|]. split; [done|]. split; [constructor|done].
  - eexists _, b. split; [done|]. split; [lia|done].
Qed.
#[export] Instance bursty_laws : RateControlLaws BurstyTransmitRateControl.
Proof.
  split; [done|..]; cbn.
  - intros now tx t (Hm & Hb & Hi). unfold bursty_delay. pose proof (fsm_delay_bounds _ now _ Hb (proj1 Hi)) as Hd.
    destruct (burst_delay_answers now (bursty_bursts t) Hm) as (d & b & -> & Hr & Hm'). unfold seconds in *.
    destruct (tx_profile tx); (eexists _, _; split; [done|]); (split; [lia|done]).
  - intros now tx t (Hm & Hb & Hi). unfold bursty_notify. assert (Hnow : budget_at_rest now (Some now)) by (cbn; lia).
    destruct (tx_profile tx); (eexists; split; [done|]); (split; [|by split]); [|done..].
    destruct Hm as (Hm & Hd). split; [|done]. cbn. unfold push_back. apply Forall_drop, Forall_app. split; [done|]. constructor; [lia|constructor].
  - intros now now' t (Hm & Hb & Hi) Hle. split; [|split; [|done]].
    + destruct Hm as (Hm & Hd). split; [|done]. eapply Forall_impl; [exact Hm|]. cbn. lia.
    + destruct (bursty_budget t); cbn in *; [lia|done].
Qed.
#[export] Instance noop_laws : RateControlLaws unit.
Proof. split; [done|..]; cbn; [|by eexists|done]. intros now tx t _. eexists 0, t. by split_and!. Qed.
(** LIMERIC's interval is clamped whenever it is set. *)
Lemma limeric_interval_clamped b b' now duty on :
  limeric_budget_notify now on duty b = Ok b' \/ limeric_budget_update now duty b = Ok b' ->
  exists i, m_interval b' = Some i /\ milliseconds 25 <= i <= seconds 1.
Proof.
  assert (Hc : forall z, milliseconds 25 <= clamp_interval z <= seconds 1) by (intros z; unfold clamp_interval, milliseconds, seconds; lia).
  intros [H|H]; unfold limeric_budget_notify, limeric_budget_update in H; repeat (apply bind_Ok in H as (? & _ & H));
    apply Ok_inj in H as <-; by eexists.
Qed.
(** The budget's constructor uses members that have no value yet. *)
Example limeric_budget_undefined now duty : limeric_budget_create now duty = Fail (Undefined "indeterminate value").
Proof. reflexivity. Qed.

(** ** The gatekeeper *)
Record DataRequest := mkDataRequest {
  ether_type : Z; request_source : list Z; request_destination : list Z; dcc_profile : Profile; lifetime : Z
}.
Record AccessRequest := mkAccess { source_addr : list Z; destination_addr : list Z; access_ether_type : Z; access_category : AccessCategory }.

Section FlowControl.
Context {T : Type} `{!TransmitRateControl T} {Packet : Type} (size : Packet -> Z).

Record PendingTransmission := mkPending { expiry : Z; request_of : DataRequest; packet : Packet }.
(** What leaves: a request to the access layer, and the two hooks; a dropped packet is named. *)
Inductive flow_out :=
| Access (r : AccessRequest) (p : Packet)
| TransmitHook (ac : AccessCategory)
| DropHook (ac : AccessCategory) (p : Packet).
(** [triggers]: the deadlines of the callbacks that the runtime has for this object, in the
    order they were scheduled in. *)
Record FlowControl := mkFlow {
  m_queues : AccessCategory -> list PendingTransmission;
  m_queue_length : nat;
  m_trc : T;
  triggers : list Z;
  outs : list flow_out
}.
Definition flow_create (queue_length : nat) (trc : T) : FlowControl := mkFlow (fun _ => []) queue_length trc [] [].
Definition with_queue (ac : AccessCategory) (q : list PendingTransmission) (s : FlowControl) : FlowControl :=
  mkFlow (fun x => if decide (x = ac) then q else m_queues s x) (m_queue_length s) (m_trc s) (triggers s) (outs s).
Definition with_trc (t : T) (s : FlowControl) : FlowControl := mkFlow (m_queues s) (m_queue_length s) t (triggers s) (outs s).
Definition with_triggers (l : list Z) (s : FlowControl) : FlowControl := mkFlow (m_queues s) (m_queue_length s) (m_trc s) l (outs s).
Definition emit_out (o : list flow_out) (s : FlowControl) : FlowControl :=
  mkFlow (m_queues s) (m_queue_length s) (m_trc s) (triggers s) (outs s ++ o).

(** The order of the map's keys. *)
Definition categories : list AccessCategory := [VO; VI; BE; BK].
Definition pending_tx (p : PendingTransmission) : Transmission := mkTransmission (dcc_profile (request_of p)) (size (packet p)).

(** [drop_expired]: the hook for each packet whose lifetime is over. *)
Definition expired (now : Z) (p : PendingTransmission) : bool := expiry p <? now.
Definition drop_expired_from (now : Z) (s : FlowControl) (ac : AccessCategory) : FlowControl :=
  let q := m_queues s ac in
  emit_out ((fun p => DropHook ac (packet p)) <$> List.filter (expired now) q)
    (with_queue ac (List.filter (fun p => negb (expired now p)) q) s).
Definition drop_expired (now : Z) (s : FlowControl) : FlowControl := foldl (drop_expired_from now) s categories.

Definition transmit (r : DataRequest) (p : Packet) (s : FlowControl) : FlowControl :=
  let ac := map_profile_onto_ac (dcc_profile r) in
  emit_out [Access (mkAccess (request_source r) (request_destination r) (ether_type r) ac) p; TransmitHook ac] s.

Definition flow_delay (now : Z) (tx : Transmission) (s : FlowControl) : res (Z * FlowControl) :=
  x ← delay now tx (m_trc s);
  let '(d, t) := x : Z * T in
  Ok (d, with_trc t s).
Definition flow_notify (now : Z) (tx : Transmission) (s : FlowControl) : res FlowControl :=
  t ← notify now tx (m_trc s);
  Ok (with_trc t s).

Definition is_nil {A} (l : list A) : bool := match l with [] => true | _ => false end.
(** Packets of an equal or a higher priority are before it. *)
Definition contention (ac : AccessCategory) (s : FlowControl) : bool :=
  existsb (fun x => Nat.leb (ac_number ac) (ac_number x) && negb (is_nil (m_queues s x))) categories.
Definition transmit_immediately (now : Z) (tx : Transmission) (s : FlowControl) : res (bool * FlowControl) :=
  if contention (map_profile_onto_ac (tx_profile tx)) s then Ok (false, s)
  else
    x ← flow_delay now tx s;
    let '(d, s) := x : Z * FlowControl in
    Ok (d =? 0, s).

(** [next_queue]: the first queue whose head has the least delay. *)
Definition next_queue_step (now : Z) (st : Z * option AccessCategory * FlowControl) (ac : AccessCategory) :
    res (Z * option AccessCategory * FlowControl) :=
  let '(min_delay, next, s) := st in
  match m_queues s ac with
  | [] => Ok st
  | p :: _ =>
      x ← flow_delay now (pending_tx p) s;
      let '(d, s) := x : Z * FlowControl in
      if d <? min_delay then Ok (d, Some ac, s) else Ok (min_delay, next, s)
  end.
Definition next_queue (now : Z) (s : FlowControl) : res (option AccessCategory * FlowControl) :=
  x ← res_fold (next_queue_step now) categories (duration_max, None, s);
  let '(_, next, s) := x : Z * option AccessCategory * FlowControl in
  Ok (next, s).
Definition dequeue (now : Z) (s : FlowControl) : res (option PendingTransmission * FlowControl) :=
  x ← next_queue now s;
  let '(next, s) := x : option AccessCategory * FlowControl in
  match next with
  | Some ac => match m_queues s ac with p :: q => Ok (Some p, with_queue ac q s) | [] => Ok (None, s) end
  | None => Ok (None, s)
  end.
Definition next_transmission (now : Z) (s : FlowControl) : res (option PendingTransmission * FlowControl) :=
  x ← next_queue now s;
  let '(next, s) := x : option AccessCategory * FlowControl in
  Ok (next ≫= (fun ac => head (m_queues s ac)), s).

Definition schedule_trigger (now : Z) (tx : Transmission) (s : FlowControl) : res FlowControl :=
  x ← flow_delay now tx s;
  let '(d, s) := x : Z * FlowControl in
  Ok (with_triggers (triggers s ++ [now + d]) s).
Definition schedule_next (now : Z) (cancel : bool) (s : FlowControl) : res FlowControl :=
  x ← next_transmission now s;
  let '(next, s) := x : option PendingTransmission * FlowControl in
  match next with
  | Some p => schedule_trigger now (pending_tx p) (if cancel then with_triggers [] s else s)
  | None => Ok s
  end.

(** The loop that makes room in a queue of limited length, zero for no limit. *)
Fixpoint make_room (limit : nat) (q : list PendingTransmission) : list PendingTransmission * list PendingTransmission :=
  match q with
  | p :: q' => if Nat.ltb 0 limit && Nat.leb limit (length q) then let '(dropped, rest) := make_room limit q' in (p :: dropped, rest) else ([], q)
  | [] => ([], [])
  end.
Definition flow_empty (s : FlowControl) : bool := forallb (fun ac => is_nil (m_queues s ac)) categories.
Definition enqueue (now : Z) (r : DataRequest) (p : Packet) (s : FlowControl) : res FlowControl :=
  let first_packet := flow_empty s in
  let ac := map_profile_onto_ac (dcc_profile r) in
  let pending := mkPending (now + lifetime r) r p in
  let '(dropped, rest) := make_room (m_queue_length s) (m_queues s ac) in
  let s := emit_out ((fun p => DropHook ac (packet p)) <$> dropped) (with_queue ac (rest ++ [pending]) s) in
  if first_packet then schedule_trigger now (pending_tx pending) s else Ok s.

Definition flow_request (now : Z) (r : DataRequest) (p : Packet) (s : FlowControl) : res FlowControl :=
  let s := drop_expired now s in
  let tx := mkTransmission (dcc_profile r) (size p) in
  x ← transmit_immediately now tx s;
  let '(at_once, s) := x : bool * FlowControl in
  if at_once then
    s ← flow_notify now tx s;
    Ok (transmit r p s)
  else enqueue now r p s.
Definition flow_trigger (now : Z) (s : FlowControl) : res FlowControl :=
  let s := drop_expired now s in
  x ← dequeue now s;
  let '(tx, s) := x : option PendingTransmission * FlowControl in
  s ← match tx with
      | Some p =>
          s ← flow_notify now (pending_tx p) s;
          Ok (transmit (request_of p) (packet p) s)
      | None => Ok s
      end;
  schedule_next now false s.
Definition flow_reschedule (now : Z) (s : FlowControl) : res FlowControl := schedule_next now true s.
End FlowControl.

(** ** Every packet is accounted for *)
Section Accounts.
Context {T : Type} `{!TransmitRateControl T} `{!RateControlLaws T} {Packet : Type} (size : Packet -> Z).
Implicit Type s : @FlowControl T Packet.
Implicit Type sub : list (AccessCategory * Packet).

(** The packets of a category that were submitted, given to the access layer, dropped, and are waiting. *)
Definition of_category (ac : AccessCategory) (sub : list (AccessCategory * Packet)) : list Packet :=
  omap (fun x => if decide (x.1 = ac) then Some x.2 else None) sub.
Definition sent (ac : AccessCategory) (l : list (@flow_out Packet)) : list Packet :=
  omap (fun o => match o with Access r p => if decide (access_category r = ac) then Some p else None | _ => None end) l.
Definition lost (ac : AccessCategory) (l : list (@flow_out Packet)) : list Packet :=
  omap (fun o => match o with DropHook x p => if decide (x = ac) then Some p else None | _ => None end) l.
Definition waiting (ac : AccessCategory) s : list Packet := packet <$> m_queues s ac.

(** Every submitted packet is given to the access layer, dropped or waiting, once; the ones of
    a category leave in the order they came in; the queue holds its category's packets only, and
    not more than its length allows. *)
Record accounted_for (ac : AccessCategory) s sub : Prop := {
  each_once : of_category ac sub ≡ₚ sent ac (outs s) ++ lost ac (outs s) ++ waiting ac s;
  in_order : sent ac (outs s) ++ waiting ac s `sublist_of` of_category ac sub;
  of_their_category : Forall (fun p => map_profile_onto_ac (dcc_profile (request_of p)) = ac) (m_queues s ac);
  within_length : (0 < m_queue_length s)%nat -> (length (m_queues s ac) <= m_queue_length s)%nat
}.
Definition accounted s sub : Prop := forall ac, accounted_for ac s sub.

Lemma of_category_app ac sub sub' : of_category ac (sub ++ sub') = of_category ac sub ++ of_category ac sub'.
Proof. apply omap_app. Qed.
Lemma sent_app ac l l' : sent ac (l ++ l') = sent ac l ++ sent ac l'.
Proof. apply omap_app. Qed.
Lemma lost_app ac l l' : lost ac (l ++ l') = lost ac l ++ lost ac l'.
Proof. apply omap_app. Qed.
Lemma sent_drops ac x (q : list PendingTransmission) : sent ac ((fun p => DropHook x (packet p)) <$> q) = [].
Proof. by induction q. Qed.
Lemma lost_drops ac x (q : list PendingTransmission) :
  lost ac ((fun p => DropHook x (packet p)) <$> q) = if decide (x = ac) then packet <$> q else [].
Proof. induction q as [|p q IH]; cbn; [by destruct (decide _)|]. unfold lost in IH. rewrite IH. by destruct (decide (x = ac)). Qed.
Lemma queue_same ac q s : m_queues (with_queue ac q s) ac = q.
Proof. cbn. by rewrite decide_True. Qed.
Lemma queue_other ac x q s : x <> ac -> m_queues (with_queue ac q s) x = m_queues s x.
Proof. intros. cbn. by rewrite decide_False. Qed.

Lemma filter_split {A} (f : A -> bool) l : l ≡ₚ List.filter f l ++ List.filter (fun x => negb (f x)) l.
Proof.
  induction l as [|x l IH]; [done|]. cbn. destruct (f x); cbn; [by rewrite <- IH|]. rewrite <- Permutation_middle. by rewrite <- IH.
Qed.
Lemma filter_sub {A} (f : A -> bool) l : List.filter f l `sublist_of` l.
Proof. induction l as [|x l IH]; [done|]. cbn. destruct (f x); by constructor. Qed.
Lemma sublist_forall {A} (P : A -> Prop) l k : l `sublist_of` k -> Forall P k -> Forall P l.
Proof. induction 1; intros Hk; [done|inversion Hk; constructor; auto|inversion Hk; auto]. Qed.
Lemma filter_length_le {A} (f : A -> bool) l : (length (List.filter f l) <= length l)%nat.
Proof. apply sublist_length, filter_sub. Qed.

(** A queue loses some packets, which are reported, and keeps the rest. *)
Lemma accounted_drop ac (dropped rest : list PendingTransmission) s sub :
  accounted s sub -> m_queues s ac ≡ₚ dropped ++ rest -> rest `sublist_of` m_queues s ac ->
  accounted (emit_out ((fun p => DropHook ac (packet p)) <$> dropped) (with_queue ac rest s)) sub.
Proof.
  intros Ha Hp Hs x. destruct (Ha x) as [H1 H2 H3 H4]. destruct (decide (x = ac)) as [->|Hne].
  - split; unfold waiting; cbn [m_queues emit_out with_queue outs m_queue_length]; rewrite ?decide_True by done.
    + rewrite H1. unfold waiting. rewrite sent_app, lost_app, sent_drops, lost_drops, decide_True, app_nil_r by done.
      apply Permutation_app_head. rewrite <- app_assoc. apply Permutation_app_head. by rewrite Hp, fmap_app.
    + rewrite sent_app, sent_drops, app_nil_r. etrans; [|exact H2]. apply sublist_app; [done|]. by apply fmap_sublist.
    + by eapply sublist_forall.
    + intros Hl. etrans; [by apply sublist_length|]. by apply H4.
  - split; unfold waiting; cbn [m_queues emit_out with_queue outs m_queue_length]; rewrite ?decide_False by done; try done;
      rewrite ?lost_app, sent_app, sent_drops, ?lost_drops, ?decide_False, ?app_nil_r by congruence; done.
Qed.

Lemma accounted_trc t s sub : accounted (with_trc t s) sub <-> accounted s sub.
Proof. split; intros H ac; destruct (H ac); by split. Qed.
Lemma accounted_triggers l s sub : accounted (with_triggers l s) sub <-> accounted s sub.
Proof. split; intros H ac; destruct (H ac); by split. Qed.
(** A hook that is told of no drop. *)
Lemma accounted_hook ac s sub : accounted s sub -> accounted (emit_out [TransmitHook ac] s) sub.
Proof. intros H x. destruct (H x) as [H1 H2 H3 H4]. split; unfold waiting in *; cbn [outs emit_out m_queues m_queue_length]; rewrite ?sent_app, ?lost_app, ?app_nil_r; done. Qed.

Lemma accounted_drop_expired now s sub : accounted s sub -> accounted (drop_expired now s) sub.
Proof.
  intros Ha. unfold drop_expired. generalize categories. intros l. revert s Ha. induction l as [|ac l IH]; intros s Ha; [done|].
  cbn [foldl]. apply IH. apply accounted_drop; [done|apply filter_split|apply filter_sub].
Qed.
Lemma drop_expired_same now s : m_trc (drop_expired now s) = m_trc s /\ triggers (drop_expired now s) = triggers s.
Proof. unfold drop_expired. generalize categories. intros l. revert s. induction l as [|ac l IH]; intros s; [done|]. cbn [foldl]. apply (IH (drop_expired_from now s ac)). Qed.

(** Packets that go out at once overtake none of their category. *)
Lemma accounted_at_once r p s sub : accounted s sub -> m_queues s (map_profile_onto_ac (dcc_profile r)) = [] ->
  accounted (transmit r p s) (sub ++ [(map_profile_onto_ac (dcc_profile r), p)]).
Proof.
  intros Ha Hq x. destruct (Ha x) as [H1 H2 H3 H4]. unfold transmit. split; unfold waiting in *; cbn [outs emit_out m_queues m_queue_length]; [..|done|done].
  - rewrite of_category_app, sent_app, lost_app. cbn. destruct (decide (map_profile_onto_ac (dcc_profile r) = x)) as [<-|]; [|by rewrite !app_nil_r].
    rewrite H1, Hq. cbn. rewrite !app_nil_r. solve_Permutation.
  - rewrite of_category_app, sent_app. cbn. destruct (decide (map_profile_onto_ac (dcc_profile r) = x)) as [<-|]; [|by rewrite !app_nil_r].
    rewrite Hq in *. cbn in *. rewrite !app_nil_r in *. by apply sublist_app.
Qed.
(** The head of a queue leaves it. *)
Lemma accounted_head ac p q s sub : accounted s sub -> m_queues s ac = p :: q ->
  accounted (transmit (request_of p) (packet p) (with_queue ac q s)) sub.
Proof.
  intros Ha Hq x. destruct (Ha x) as [H1 H2 H3 H4]. destruct (Ha ac) as [_ _ Hcat _]. rewrite Hq in Hcat. inversion_clear Hcat as [|?? Hac Hcat'].
  unfold transmit. rewrite Hac. destruct (decide (x = ac)) as [->|Hne]; split; unfold waiting in *; cbn [outs emit_out m_queues with_queue m_queue_length];
    rewrite ?decide_True, ?(decide_False (P := x = ac)) by done; rewrite ?sent_app, ?lost_app; cbn [sent lost omap list_omap access_category];
    rewrite ?decide_True, ?(decide_False (P := ac = x)) by congruence; rewrite ?app_nil_r; try done.
  - rewrite H1, Hq. cbn. solve_Permutation.
  - rewrite Hq in H2. by rewrite <- app_assoc.
  - rewrite Hq in H4. intros Hl. specialize (H4 Hl). cbn in H4. lia.
Qed.

Lemma make_room_spec limit (q : list (@PendingTransmission Packet)) : forall dropped rest, make_room limit q = (dropped, rest) ->
  q = dropped ++ rest /\ ((0 < limit)%nat -> (length rest < limit)%nat) /\ (limit = 0%nat -> dropped = []).
Proof.
  induction q as [|p q IH]; intros dropped rest; cbn [make_room]; [intros [= <- <-]; by split_and!|].
  destruct (Nat.ltb_spec 0 limit), (Nat.leb_spec limit (length (p :: q))); cbn [andb].
  - destruct (make_room limit q) as [d t] eqn:E. intros [= <- <-]. destruct (IH d t eq_refl) as (-> & Hr & Hz). split_and!; [done|done|lia].
  - intros [= <- <-]. split_and!; [done|done|lia].
  - intros [= <- <-]. split_and!; [done|lia|done].
  - intros [= <- <-]. split_and!; [done|lia|done].
Qed.
(** A packet joins its queue, where the oldest ones make room. *)
Lemma accounted_join expiry r p dropped rest s sub :
  let ac := map_profile_onto_ac (dcc_profile r) in
  accounted s sub -> make_room (m_queue_length s) (m_queues s ac) = (dropped, rest) ->
  accounted (emit_out ((fun p => DropHook ac (packet p)) <$> dropped) (with_queue ac (rest ++ [mkPending expiry r p]) s)) (sub ++ [(ac, p)]).
Proof.
  intros ac Ha Hroom. apply make_room_spec in Hroom as (Hq & Hlen & _). intros x. destruct (Ha x) as [H1 H2 H3 H4].
  destruct (decide (x = ac)) as [->|Hne]; split; unfold waiting in *; cbn [outs emit_out m_queues with_queue m_queue_length];
    rewrite ?decide_True, ?(decide_False (P := x = ac)) by done; rewrite ?of_category_app, ?sent_app, ?lost_app, ?sent_drops, ?lost_drops, ?app_nil_r;
    cbn [of_category omap list_omap fst snd]; rewrite ?decide_True, ?(decide_False (P := ac = x)) by congruence; rewrite ?app_nil_r; try done.
  - rewrite H1, Hq, !fmap_app. cbn. solve_Permutation.
  - rewrite Hq, fmap_app in H2. rewrite fmap_app, app_assoc. apply sublist_app; [|done]. etrans; [|exact H2].
    apply sublist_app; [done|]. by apply sublist_inserts_l.
  - apply Forall_app. split; [|by constructor]. rewrite Hq in H3. by apply Forall_app in H3 as [_ ?].
  - intros Hl. rewrite length_app. specialize (Hlen Hl). cbn. lia.
Qed.

(** *** Answers of the rate control *)
Lemma flow_delay_answers now tx s : at_rest now (m_trc s) -> exists d t, flow_delay now tx s = Ok (d, with_trc t s) /\ 0 <= d <= longest /\ at_rest now t.
Proof.
  intros Hr. unfold flow_delay. destruct (delay_answers now tx (m_trc s) Hr) as (d & t & -> & Hd & Ht). by exists d, t.
Qed.
Lemma is_nil_true {A} (l : list A) : is_nil l = true <-> l = [].
Proof. by destruct l. Qed.
Lemma next_queue_fold now l : forall m next s, at_rest now (m_trc s) -> (next = None -> m = duration_max) ->
  (forall ac, next = Some ac -> m_queues s ac <> []) ->
  exists m' next' t, res_fold (next_queue_step size now) l (m, next, s) = Ok (m', next', with_trc t s) /\ at_rest now t /\
    (next' = None -> next = None /\ forall ac, ac ∈ l -> m_queues s ac = []) /\ (forall ac, next' = Some ac -> m_queues s ac <> []).
Proof.
  induction l as [|ac l IH]; intros m next s Hr Hm Hn.
  { exists m, next, (m_trc s). split_and!; [by destruct s|done| |done]. intros ->. split; [done|]. by intros ac ?%not_elem_of_nil. }
  cbn [res_fold next_queue_step]. destruct (m_queues s ac) as [|p q] eqn:Hq.
  - cbn [mbind res_bind]. destruct (IH m next s Hr Hm Hn) as (m' & next' & t & -> & Ht & Hnone & Hsome). exists m', next', t.
    split_and!; [done|done| |done]. intros Hx. destruct (Hnone Hx) as [? Hl]. split; [done|]. intros x [->|Hx']%elem_of_cons; [done|by apply Hl].
  - destruct (flow_delay_answers now (pending_tx size p) s Hr) as (d & t & -> & Hd & Ht). cbn [mbind res_bind].
    pose proof longest_delay as Hlong. destruct (d <? m) eqn:E; cbn [mbind res_bind].
    + destruct (IH d (Some ac) (with_trc t s)) as (m' & next' & t' & -> & Ht' & Hnone & Hsome); [done|done| |].
      { intros x [= <-]. cbn. by rewrite Hq. }
      exists m', next', t'. split_and!; [done|done| |done]. intros Hx. by destruct (Hnone Hx).
    + destruct (IH m next (with_trc t s)) as (m' & next' & t' & -> & Ht' & Hnone & Hsome); [done|done|done|].
      exists m', next', t'. split_and!; [done|done| |done]. intros Hx. destruct (Hnone Hx) as [-> Hl]. specialize (Hm eq_refl). lia.
Qed.
Lemma next_queue_answers now s : at_rest now (m_trc s) ->
  exists next t, next_queue size now s = Ok (next, with_trc t s) /\ at_rest now t /\
    (next = None -> forall ac, m_queues s ac = []) /\ (forall ac, next = Some ac -> m_queues s ac <> []).
Proof.
  intros Hr. unfold next_queue. destruct (next_queue_fold now categories duration_max None s Hr) as (m & next & t & -> & Ht & Hnone & Hsome); [done..|].
  exists next, t. split_and!; [done|done| |done]. intros Hx ac. apply Hnone; [done|]. unfold categories. destruct ac; set_solver.
Qed.

(** A callback is due for the waiting packets. *)
Definition called_back now s : Prop := (exists ac, m_queues s ac <> []) -> exists d, d ∈ triggers s /\ d <= now + longest.
Record flow_ok now s sub : Prop := { flow_rest : at_rest now (m_trc s); flow_accounted : accounted s sub; flow_called : called_back now s }.

Lemma schedule_answers now tx s sub : at_rest now (m_trc s) -> accounted s sub ->
  exists s', schedule_trigger now tx s = Ok s' /\ flow_ok now s' sub.
Proof.
  intros Hr Ha. unfold schedule_trigger. destruct (flow_delay_answers now tx s Hr) as (d & t & -> & Hd & Ht). eexists. split; [done|].
  split; [done|by apply accounted_triggers, accounted_trc|]. intros _. exists (now + d). split; [cbn; set_solver|lia].
Qed.
Lemma schedule_next_answers now cancel s sub : at_rest now (m_trc s) -> accounted s sub ->
  exists s', schedule_next size now cancel s = Ok s' /\ flow_ok now s' sub.
Proof.
  intros Hr Ha. unfold schedule_next, next_transmission.
  destruct (next_queue_answers now s Hr) as (next & t & -> & Ht & Hnone & Hsome). cbn [mbind res_bind]. destruct next as [ac|].
  - specialize (Hsome ac eq_refl). cbn [option_bind mbind m_queues with_trc]. destruct (m_queues s ac) as [|p q] eqn:E; [done|]. cbn [head].
    apply schedule_answers; destruct cancel; [done..|apply accounted_triggers|]; by apply accounted_trc.
  - eexists. split; [done|]. split; [done|by apply accounted_trc|]. intros [ac Hac]. destruct Hac. by apply Hnone.
Qed.
Lemma contention_none ac s : contention ac s = false -> m_queues s ac = [].
Proof.
  intros H. apply is_nil_true. destruct (is_nil (m_queues s ac)) eqn:E; [done|]. exfalso. unfold contention in H.
  assert (existsb (fun x => Nat.leb (ac_number ac) (ac_number x) && negb (is_nil (m_queues s x))) categories = true); [|congruence].
  apply existsb_exists. exists ac. split; [destruct ac; cbn; auto|]. by rewrite E, Nat.leb_refl.
Qed.
Lemma flow_empty_false s : flow_empty s = false -> exists ac, m_queues s ac <> [].
Proof.
  intros H. apply not_true_iff_false in H. unfold flow_empty in H. cbn [forallb categories] in H. rewrite !andb_true_iff, !is_nil_true in H.
  destruct (m_queues s VO) eqn:E1; [|by exists VO; rewrite E1]. destruct (m_queues s VI) eqn:E2; [|by exists VI; rewrite E2].
  destruct (m_queues s BE) eqn:E3; [|by exists BE; rewrite E3]. destruct (m_queues s BK) eqn:E4; [|by exists BK; rewrite E4]. by destruct H.
Qed.
Lemma called_back_frame now s s' : called_back now s -> triggers s' = triggers s ->
  (forall ac, m_queues s' ac <> [] -> exists x, m_queues s x <> []) -> called_back now s'.
Proof. intros H Ht Hq [ac Hac]. rewrite Ht. apply H. by apply (Hq ac). Qed.
Lemma drop_expired_queues now s : forall ac, m_queues (drop_expired now s) ac <> [] -> m_queues s ac <> [].
Proof.
  unfold drop_expired. generalize categories. intros l. revert s. induction l as [|x l IH]; intros s ac; [done|]. cbn [foldl].
  intros H%IH. cbn [m_queues drop_expired_from emit_out with_queue] in H. destruct (decide (ac = x)) as [->|]; [|done].
  intros E. by rewrite E in H.
Qed.
Lemma flow_ok_drop now s sub : flow_ok now s sub -> flow_ok now (drop_expired now s) sub.
Proof.
  intros [Hr Ha Hc]. destruct (drop_expired_same now s) as [Ht Hg]. split; [by rewrite Ht|by apply accounted_drop_expired|].
  eapply called_back_frame; [exact Hc|done|]. intros ac Hac%drop_expired_queues. by exists ac.
Qed.

Lemma enqueue_answers now r p s sub : flow_ok now s sub ->
  exists s', enqueue size now r p s = Ok s' /\ flow_ok now s' (sub ++ [(map_profile_onto_ac (dcc_profile r), p)]).
Proof.
  intros [Hr Ha Hc]. unfold enqueue. destruct (make_room _ _) as [dropped rest] eqn:E.
  pose proof (accounted_join (now + lifetime r) r p dropped rest s sub Ha E) as Ha'. destruct (flow_empty s) eqn:Ee; [by apply schedule_answers|].
  eexists. split; [done|]. split; [done|done|]. eapply called_back_frame; [exact Hc|done|]. intros ac _. by apply flow_empty_false.
Qed.

(** *** Every operation succeeds *)
Lemma request_answers now r p s sub : flow_ok now s sub ->
  exists s', flow_request size now r p s = Ok s' /\ flow_ok now s' (sub ++ [(map_profile_onto_ac (dcc_profile r), p)]).
Proof.
  intros Hok%flow_ok_drop. unfold flow_request. set (s0 := drop_expired now s) in *. unfold transmit_immediately. cbn [tx_profile].
  destruct (contention _ s0) eqn:Ec; cbn [mbind res_bind]; [by apply enqueue_answers|]. destruct Hok as [Hr Ha Hc].
  destruct (flow_delay_answers now (mkTransmission (dcc_profile r) (size p)) s0 Hr) as (d & t & -> & Hd & Ht). cbn [mbind res_bind]. destruct (d =? 0).
  - unfold flow_notify. cbn [m_trc with_trc]. destruct (notify_answers now (mkTransmission (dcc_profile r) (size p)) t Ht) as (t' & -> & Ht').
    cbn [mbind res_bind]. eexists. split; [done|]. split; [done| |].
    + apply accounted_at_once; [by rewrite !accounted_trc|by apply contention_none].
    + eapply called_back_frame; [exact Hc|done|]. intros ac Hac. by exists ac.
  - apply enqueue_answers. split; [done|by apply accounted_trc|exact Hc].
Qed.
Lemma trigger_answers now s sub : at_rest now (m_trc s) -> accounted s sub ->
  exists s', flow_trigger size now s = Ok s' /\ flow_ok now s' sub.
Proof.
  intros Hr Ha. unfold flow_trigger. destruct (drop_expired_same now s) as [Htrc _]. pose proof (accounted_drop_expired now s sub Ha) as Ha0.
  set (s0 := drop_expired now s) in *. unfold dequeue.
  destruct (next_queue_answers now s0) as (next & t & -> & Ht & Hnone & Hsome); [by rewrite Htrc|]. cbn [mbind res_bind].
  assert (Hskip : exists s', schedule_next size now false (with_trc t s0) = Ok s' /\ flow_ok now s' sub)
    by (apply schedule_next_answers; [done|by apply accounted_trc]).
  destruct next as [ac|]; [|done]. cbn [m_queues with_trc]. destruct (m_queues s0 ac) as [|p q] eqn:Hq; [done|].
  cbn [mbind res_bind]. unfold flow_notify. cbn [m_trc with_trc with_queue].
  destruct (notify_answers now (pending_tx size p) t Ht) as (t' & -> & Ht'). cbn [mbind res_bind]. apply schedule_next_answers; [done|].
  apply (accounted_head ac p q (with_trc t' s0)); [by rewrite accounted_trc|done].
Qed.
Lemma reschedule_answers now s sub : at_rest now (m_trc s) -> accounted s sub ->
  exists s', flow_reschedule size now s = Ok s' /\ flow_ok now s' sub.
Proof. apply schedule_next_answers. Qed.

(** *** Histories *)
(** Time passes; packets are requested; a callback whose deadline is over runs; packets are
    rescheduled; and the rate control's state changes, as with a channel load. *)
Inductive flow_reach (queue_length : nat) : Z -> FlowControl -> list (AccessCategory * Packet) -> Prop :=
| reach_create now t : at_rest now t -> flow_reach queue_length now (flow_create queue_length t) []
| reach_time now now' s sub : flow_reach queue_length now s sub -> now <= now' -> flow_reach queue_length now' s sub
| reach_request now r p s s' sub : flow_reach queue_length now s sub -> flow_request size now r p s = Ok s' ->
    flow_reach queue_length now s' (sub ++ [(map_profile_onto_ac (dcc_profile r), p)])
| reach_trigger now before d after s s' sub : flow_reach queue_length now s sub -> triggers s = before ++ d :: after -> d <= now ->
    flow_trigger size now (with_triggers (before ++ after) s) = Ok s' -> flow_reach queue_length now s' sub
| reach_reschedule now s s' sub : flow_reach queue_length now s sub -> flow_reschedule size now s = Ok s' -> flow_reach queue_length now s' sub
| reach_rate now t s sub : flow_reach queue_length now s sub -> at_rest now t -> flow_reach queue_length now (with_trc t s) sub.

Lemma flow_reach_ok n now s sub : flow_reach n now s sub -> flow_ok now s sub.
Proof.
  induction 1 as [now t Ht|now now' s sub _ [Hr Ha Hc] Hle|now r p s s' sub _ IH H|now before d after s s' sub _ [Hr Ha _] Hd Hdn H|now s s' sub _ [Hr Ha _] H|now t s sub _ [Hr Ha Hc] Ht].
  - split; [done| |by intros [ac Hac]]. intros ac. split; [done|done|constructor|cbn; lia].
  - split; [by eapply rest_later|done|]. intros Hq. destruct (Hc Hq) as (d & Hd & Hdn). exists d. split; [done|lia].
  - destruct (request_answers now r p s sub IH) as (s2 & H2 & Hok). congruence.
  - destruct (trigger_answers now (with_triggers (before ++ after) s) sub) as (s2 & H2 & Hok); [done|by apply accounted_triggers|]. congruence.
  - destruct (reschedule_answers now s sub Hr Ha) as (s2 & H2 & Hok). congruence.
  - split; [done|by apply accounted_trc|done].
Qed.

(** [C32] In every history of flow control, with any rate control that keeps its laws: each packet
    that was requested has been given to the access layer, has been dropped with a call of the
    hook, or is waiting, exactly once; the packets of a category leave in the order they were
    requested in; no queue is longer than its limit; while a packet is waiting the runtime has
    a callback within the longest delay; and no operation can fail. *)
Theorem flow_control_accounts n now s sub : flow_reach n now s sub ->
  (forall ac, of_category ac sub ≡ₚ sent ac (outs s) ++ lost ac (outs s) ++ waiting ac s /\
     sent ac (outs s) ++ waiting ac s `sublist_of` of_category ac sub /\
     ((0 < m_queue_length s)%nat -> (length (waiting ac s) <= m_queue_length s)%nat) /\
     (waiting ac s <> [] -> exists d, d ∈ triggers s /\ d <= now + longest)) /\
  (forall r p, is_ok (flow_request size now r p s) = true) /\ is_ok (flow_trigger size now s) = true /\
  is_ok (flow_reschedule size now s) = true.
Proof.
  intros Hok%flow_reach_ok. split_and!.
  - intros ac. destruct Hok as [_ Ha Hc]. destruct (Ha ac) as [H1 H2 _ H4]. split_and!; [done..| |].
    + unfold waiting. by rewrite length_fmap.
    + intros Hw. apply Hc. exists ac. intros E. apply Hw. unfold waiting. by rewrite E.
  - intros r p. by destruct (request_answers now r p s sub Hok) as (? & -> & _).
  - destruct Hok as [Hr Ha _]. by destruct (trigger_answers now s sub Hr Ha) as (? & -> & _).
  - destruct Hok as [Hr Ha _]. by destruct (reschedule_answers now s sub Hr Ha) as (? & -> & _).
Qed.
End Accounts.

(** ** Concrete traffic *)
Definition ex_flow : @FlowControl SingleReactiveTransmitRateControl string :=
  flow_create 2 (mkSingle (FullyMeshedMachine fully_meshed_create) None).
Definition ex_size (p : string) : Z := 100.
Definition ex_data (profile : Profile) (lifetime : Z) : DataRequest := mkDataRequest 0x8947 [1] [2] profile lifetime.
(** The packet at time 0 goes out; three more with the same profile wait, and the first of them
    makes room for the last. *)
Definition ex_then (now : Z) (p : string) (s : @FlowControl SingleReactiveTransmitRateControl string) : FlowControl :=
  match flow_request ex_size now (ex_data DP2 1000000) p s with Ok s => s | Fail _ => ex_flow end.
Definition ex_flow4 : @FlowControl SingleReactiveTransmitRateControl string :=
  ex_then 30 "d" (ex_then 20 "c" (ex_then 10 "b" (ex_then 0 "a" ex_flow))).
Example ex_flow4_state : sent BE (outs ex_flow4) = ["a"%string] /\ lost BE (outs ex_flow4) = ["b"%string] /\
  waiting BE ex_flow4 = ["c"; "d"]%string /\ triggers ex_flow4 = [milliseconds 60].
Proof. vm_compute. split_and!; reflexivity. Qed.
Lemma ex_then_reach now now' p s sub : flow_reach ex_size 2 now s sub -> now <= now' ->
  is_ok (flow_request ex_size now' (ex_data DP2 1000000) p s) = true -> flow_reach ex_size 2 now' (ex_then now' p s) (sub ++ [(BE, p)]).
Proof.
  intros Hs Hle Hok. eapply (reach_request _ _ now' (ex_data DP2 1000000)); [by eapply reach_time|]. unfold ex_then.
  by destruct (flow_request _ _ _ _ _).
Qed.
Lemma ex_flow_reach : exists sub, flow_reach ex_size 2 30 ex_flow4 sub.
Proof.
  assert (Hr : at_rest (T := SingleReactiveTransmitRateControl) 0 (mkSingle (FullyMeshedMachine fully_meshed_create) None)).
  { split; [done|]. vm_compute. split; discriminate. }
  eexists. eapply (ex_then_reach 20); [|lia|vm_compute; reflexivity]. eapply (ex_then_reach 10); [|lia|vm_compute; reflexivity].
  eapply (ex_then_reach 0); [|lia|vm_compute; reflexivity]. eapply (ex_then_reach 0); [|lia|vm_compute; reflexivity].
  by apply reach_create.
Qed.
Lemma flow_control_accounts_witness : exists sub, sent BE (outs ex_flow4) ++ waiting BE ex_flow4 `sublist_of` of_category BE sub /\
  is_ok (flow_trigger ex_size 30 ex_flow4) = true.
Proof.
  destruct ex_flow_reach as [sub H]. exists sub. destruct (flow_control_accounts ex_size 2 30 ex_flow4 sub H) as (Hac & _ & Ht & _).
  split; [apply Hac|exact Ht].
Defined.

(** ** Behaviours at the edges *)
Definition ex_send (now : Z) (profile : Profile) (life : Z) (p : string) (s : @FlowControl SingleReactiveTransmitRateControl string) : FlowControl :=
  match flow_request ex_size now (ex_data profile life) p s with Ok s => s | Fail _ => ex_flow end.
Definition ex_fire (now : Z) (s : @FlowControl SingleReactiveTransmitRateControl string) : FlowControl :=
  match flow_trigger ex_size now s with Ok s => s | Fail _ => ex_flow end.
(** A callback sends the next packet without asking for the delay: when a packet of a higher
    priority has gone out at once at the same time, two leave together. *)
Example two_at_once :
  let s := ex_send (milliseconds 60) DP0 1000000 "c" (ex_send 10 DP3 1000000 "b" (ex_send 0 DP2 1000000 "a" ex_flow)) in
  sent VO (outs s) = ["c"%string] /\ sent BK (outs (ex_fire (milliseconds 60) s)) = ["b"%string] /\
  delay (milliseconds 60) (mkTransmission DP3 100) (m_trc s) = Ok (milliseconds 60, m_trc s).
Proof. vm_compute. split_and!; reflexivity. Qed.
(** The callback of a packet that has expired stays: the next first packet gets another one, and
    both send. *)
Example two_callbacks :
  let s := ex_send 20 DP2 1000000 "d" (ex_send 20 DP2 1000000 "c" (ex_send 10 DP2 5 "b" (ex_send 0 DP2 1000000 "a" ex_flow))) in
  lost BE (outs s) = ["b"%string] /\ triggers s = [milliseconds 60; milliseconds 60] /\
  sent BE (outs (ex_fire (milliseconds 60) (ex_fire (milliseconds 60) s))) = ["a"; "c"; "d"]%string.
Proof. vm_compute. split_and!; reflexivity. Qed.

(** Times at which a message asks for its delay and is sent when there is none. *)
Fixpoint burst_times (times : list Z) (b : BurstBudget) : res (list Z) :=
  match times with
  | [] => Ok []
  | t :: l =>
      x ← burst_delay t b;
      let '(d, b) := x : Z * BurstBudget in
      if d =? 0 then sent ← burst_times l (burst_notify t b); Ok (t :: sent) else burst_times l b
  end.
(** After a burst, messages that are sent exactly when the delay is over are forgotten by the
    first one that is sent later: 39 messages within 100 ms. *)
Example burst_exceeded :
  let first := (fun i => milliseconds (Z.of_nat i)) <$> seq 0 20 in
  let exact := (fun t => t + seconds 10) <$> take 19 first in
  let later := (fun i => seconds 10 + milliseconds 20 + Z.of_nat i) <$> seq 0 20 in
  length <$> burst_times (first ++ exact ++ later) burst_create = Ok 59%nat.
Proof. vm_compute. reflexivity. Qed.
