(* ===== verification/LocationTable.v ===== *)
(** * GeoNetworking: the location table

    What vanetza's GeoNetworking router knows of other stations
    ([src/extern/vanetza/vanetza/geonet/]): time stamps and sequence numbers that wrap
    around, the list of sequence numbers seen of a source ([duplicate_packet_list.cpp]), the
    channel loads carried by single-hop broadcasts ([dcc_mco_field.cpp], [dcc_field.cpp]), and
    the table of their senders ([location_table.cpp]) over a map whose entries expire
    ([soft_state_map.hpp]).  Objects that are referred to by handles of a heap keep them; the
    time that the runtime tells is an argument. *)

From S2P Require Import Prelude Float64 Timer Networking.

(** ** Time stamps: milliseconds modulo 2^32 *)
Abbreviation Timestamp := Z (only parsing).
Definition timestamp_max : Z := 2 ^ 32 - 1.
Definition timestamp_at (time : time_point) : Timestamp := u32 (Z.quot time 1000).
Definition is_greater (lhs rhs : Timestamp) : bool :=
  (rhs <? lhs) && (lhs - rhs <=? timestamp_max / 2) || (lhs <? rhs) && (timestamp_max / 2 <? rhs - lhs).
Definition ts_ltb (lhs rhs : Timestamp) : bool := negb (is_greater lhs rhs) && negb (lhs =? rhs).

(** ** Sequence numbers of sixteen bits *)
Abbreviation SequenceNumber := Z (only parsing).
Definition sn_max : Z := 2 ^ 16 - 1.
Definition sn_ltb (a b : SequenceNumber) : bool :=
  (a <? b) && (b - a <=? sn_max / 2) || (b <? a) && (sn_max / 2 <? a - b).
(** [operator++(int)]: the value before, and the number after. *)
Definition sn_postinc (a : SequenceNumber) : SequenceNumber * SequenceNumber := (a, u16 (a + 1)).

(** On the wire: [serialize] writes the number in network byte order; [deserialize] of an
    integer swaps it back, and the caller swaps it once more. *)
Definition swap16 (x : Z) : Z := (x mod 256) * 256 + x / 256.
Definition ntoh16 (big_endian_host : bool) (x : Z) : Z := if big_endian_host then x else swap16 x.
Definition sn_serialize (n : SequenceNumber) : list Z := [n / 256; n mod 256].
Definition read_u16 (big_endian_host : bool) (bytes : list Z) : option Z :=
  match bytes with
  | b0 :: b1 :: _ => Some (ntoh16 big_endian_host (if big_endian_host then b0 * 256 + b1 else b1 * 256 + b0))
  | _ => None
  end.
Definition sn_deserialize (big_endian_host : bool) (bytes : list Z) : option SequenceNumber :=
  ntoh16 big_endian_host <$> read_u16 big_endian_host bytes.

(** ** DuplicatePacketList: the last sequence numbers of one source *)
Record ListElement := mkListElement { element_sn : SequenceNumber; element_counter : Z }.
Record DuplicatePacketList := mkDpl { dpl_capacity : nat; m_elements : list ListElement }.
Definition dpl_create (elements : nat) : DuplicatePacketList := mkDpl elements [].

(** [boost::circular_buffer::push_back] gives up the first element when full. *)
Definition circular_push {A} (capacity : nat) (x : A) (l : list A) : list A :=
  match capacity with
  | O => l
  | _ => if Nat.leb capacity (length l) then drop 1 l ++ [x] else l ++ [x]
  end.
Definition has_sn (sn : SequenceNumber) (e : ListElement) : bool := element_sn e =? sn.
Fixpoint count_up (sn : SequenceNumber) (l : list ListElement) : list ListElement :=
  match l with
  | [] => []
  | e :: l => if has_sn sn e then mkListElement (element_sn e) (u32 (element_counter e + 1)) :: l else e :: count_up sn l
  end.
Definition dpl_check (sn : SequenceNumber) (d : DuplicatePacketList) : bool * DuplicatePacketList :=
  if existsb (has_sn sn) (m_elements d) then (true, mkDpl (dpl_capacity d) (count_up sn (m_elements d)))
  else (false, mkDpl (dpl_capacity d) (circular_push (dpl_capacity d) (mkListElement sn 1) (m_elements d))).
Definition dpl_counter (sn : SequenceNumber) (d : DuplicatePacketList) : Z :=
  match List.find (has_sn sn) (m_elements d) with Some e => element_counter e | None => 0 end.

(** ** The DCC field of single-hop broadcasts *)
Record DccMcoField := mkMco { m_cbr_l0_hop : Z; m_cbr_l1_hop : Z; m_output_power : Z }.
Definition mco_default : DccMcoField := mkMco 0 0 0.
(** Each member truncates what it is assigned to its width. *)
Definition mco_of_uint32 (field : Z) : DccMcoField :=
  mkMco (wrap 8 (Z.shiftr field 24)) (wrap 8 (Z.shiftr field 16)) (wrap 5 (Z.shiftr field 11)).
Definition mco_to_uint32 (f : DccMcoField) : Z :=
  let field := m_cbr_l0_hop f in
  let field := Z.lor (u32 (Z.shiftl field 8)) (m_cbr_l1_hop f) in
  let field := Z.lor (u32 (Z.shiftl field 5)) (m_output_power f) in
  u32 (Z.shiftl field 11).
(** The conversion of a number that [uint8_t] cannot represent is undefined. *)
Definition to_cbr (cbr : double) : res Z :=
  match d_to_long (d_floor (dmul cbr (d_of_Z 255))) with
  | Ok v => if (0 <=? v) && (v <=? 255) then Ok v else Fail (Undefined "conversion to uint8_t")
  | Fail _ => Fail (Undefined "conversion to uint8_t")
  end.
Definition of_cbr (raw : Z) : double := clamp (ddiv (d_of_Z raw) (d_of_Z 255)).
Definition set_local_cbr (cbr : double) (f : DccMcoField) : res DccMcoField :=
  (fun v => mkMco v (m_cbr_l1_hop f) (m_output_power f)) <$> to_cbr cbr.
Definition set_neighbour_cbr (cbr : double) (f : DccMcoField) : res DccMcoField :=
  (fun v => mkMco (m_cbr_l0_hop f) v (m_output_power f)) <$> to_cbr cbr.
Definition set_output_power (dbm : Z) (f : DccMcoField) : DccMcoField :=
  mkMco (m_cbr_l0_hop f) (m_cbr_l1_hop f) (wrap 5 (Z.min dbm 31)).
Definition local_cbr (f : DccMcoField) : double := of_cbr (m_cbr_l0_hop f).
Definition neighbour_cbr (f : DccMcoField) : double := of_cbr (m_cbr_l1_hop f).

Inductive DccField := Mco (f : DccMcoField) | Raw (field : Z).
Definition get_dcc_mco (field : DccField) : option DccMcoField :=
  match field with Mco f => Some f | Raw raw => Some (mco_of_uint32 raw) end.
Definition dcc_field_serialize (field : DccField) : Z :=
  match field with Mco f => mco_to_uint32 f | Raw raw => raw end.
Definition dcc_field_deserialize (raw : Z) : DccField := Raw raw.
(** [NullDccFieldGenerator]. *)
Definition null_dcc_field : DccField := Raw 0.

(** ** SoftStateMap: a map whose entries expire

    A value holds the handle of its expiry in the heap, which holds the key. *)
Section SoftStateMap.
Context {K V : Type} `{Countable K}.

Record SoftStateMap := mkSoft {
  m_lifetime : Z;
  m_creator : time_point -> V;
  m_heap : gmap nat (K * time_point);
  m_map : gmap K (nat * V);
  pushed : nat
}.
Definition soft_create (lifetime : Z) (creator : time_point -> V) : SoftStateMap := mkSoft lifetime creator ∅ ∅ 0.

Definition soft_is_expired (now : time_point) (expiry : time_point) : bool := expiry <? now.
(** The expiry a handle stands for; the handles of stored values are valid. *)
Definition expiry_of (s : SoftStateMap) (handle : nat) : time_point := default 0 (snd <$> m_heap s !! handle).
Definition get_value_ptr (now : time_point) (k : K) (s : SoftStateMap) : option V :=
  x ← m_map s !! k;
  if soft_is_expired now (expiry_of s x.1) then None else Some x.2.
Definition has_value (now : time_point) (k : K) (s : SoftStateMap) : bool := bool_decide (is_Some (get_value_ptr now k s)).
Definition refresh_handle (now : time_point) (handle : nat) (s : SoftStateMap) : SoftStateMap :=
  mkSoft (m_lifetime s) (m_creator s) (alter (fun x => (x.1, now + m_lifetime s)) handle (m_heap s)) (m_map s) (pushed s).
(** [get_data]: a missing value is created, an expired one becomes current again. *)
Definition get_data (now : time_point) (k : K) (s : SoftStateMap) : V * SoftStateMap :=
  match m_map s !! k with
  | Some (handle, v) => (v, if soft_is_expired now (expiry_of s handle) then refresh_handle now handle s else s)
  | None =>
      let v := m_creator s now in
      (v, mkSoft (m_lifetime s) (m_creator s) (<[pushed s := (k, now + m_lifetime s)]> (m_heap s))
            (<[k := (pushed s, v)]> (m_map s)) (S (pushed s)))
  end.
Definition refresh (now : time_point) (k : K) (s : SoftStateMap) : V * SoftStateMap :=
  match m_map s !! k with
  | Some (handle, v) => (v, refresh_handle now handle s)
  | None => get_data now k s
  end.
(** A change of a value through a reference to it. *)
Definition set_value (k : K) (v : V) (s : SoftStateMap) : SoftStateMap :=
  mkSoft (m_lifetime s) (m_creator s) (m_heap s) (alter (fun x => (x.1, v)) k (m_map s)) (pushed s).

(** The top of the heap: an entry that expires first. *)
Definition earlier (x : nat * (K * time_point)) (best : option (nat * (K * time_point))) : option (nat * (K * time_point)) :=
  match best with Some b => if x.2.2 <=? b.2.2 then Some x else Some b | None => Some x end.
Definition heap_top (s : SoftStateMap) : option (nat * (K * time_point)) := foldr earlier None (map_to_list (m_heap s)).
Fixpoint drop_loop (fuel : nat) (now : time_point) (s : SoftStateMap) : SoftStateMap :=
  match fuel with
  | O => s
  | S fuel =>
      match heap_top s with
      | Some (handle, (k, expiry)) =>
          if soft_is_expired now expiry
          then drop_loop fuel now (mkSoft (m_lifetime s) (m_creator s) (delete handle (m_heap s)) (delete k (m_map s)) (pushed s))
          else s
      | None => s
      end
  end.
(** Each turn takes an entry off the heap. *)
Definition soft_drop_expired (now : time_point) (s : SoftStateMap) : SoftStateMap := drop_loop (size (m_heap s)) now s.
(** [map]: the entries that have not expired. *)
Definition soft_live (now : time_point) (s : SoftStateMap) : list (K * V) :=
  omap (fun x => if soft_is_expired now (expiry_of s x.2.1) then None else Some (x.1, x.2.2)) (map_to_list (m_map s)).
End SoftStateMap.
Arguments SoftStateMap _ _ {_ _}.

(** ** Position vectors *)
Abbreviation MacAddress := (list Z) (only parsing).
Abbreviation Address := GnAddress (only parsing).
#[export] Instance GnAddress_eq_dec : EqDecision GnAddress.
Proof. solve_decision. Defined.
(** Latitude and longitude in tenths of a microdegree, speed in cm/s, heading in tenths of
    a degree. *)
Record LongPositionVector := mkLpv {
  gn_addr : Address;
  lpv_timestamp : Timestamp;
  lpv_latitude : Z;
  lpv_longitude : Z;
  position_accuracy_indicator : bool;
  lpv_speed : Z;
  lpv_heading : Z
}.
Definition lpv_default : LongPositionVector := mkLpv (mkGnAddress false 0 0 [0; 0; 0; 0; 0; 0]) 0 0 0 false 0 0.

(** ** LocationTableEntry *)
(** The media-dependent extension. *)
Record LocTEX_G5 := mkLocTex { local_update : Timestamp; source_update : Timestamp; dcc_mco : DccMcoField }.
Definition loctex_default : LocTEX_G5 := mkLocTex 0 0 mco_default.
(** [extensions] holds at most one object of each type; two types are used. *)
Record LocationTableEntry := mkEntry {
  m_is_neighbour : bool;
  m_has_position_vector : bool;
  m_position_vector : LongPositionVector;
  m_pdr : double;
  m_pdr_update : time_point;
  ext_dpl : option DuplicatePacketList;
  ext_loctex : option LocTEX_G5
}.
Definition entry_create (now : time_point) : LocationTableEntry := mkEntry false false lpv_default d_nan now None None.
Definition geonet_address (e : LocationTableEntry) : Address := gn_addr (m_position_vector e).
Definition link_layer_address (e : LocationTableEntry) : MacAddress := mid (geonet_address e).
Definition with_pdr (pdr : double) (at_ : time_point) (e : LocationTableEntry) : LocationTableEntry :=
  mkEntry (m_is_neighbour e) (m_has_position_vector e) (m_position_vector e) pdr at_ (ext_dpl e) (ext_loctex e).
(** [update_pdr]: packet data rate in bytes per second, an exponential average. *)
Definition update_pdr (now : time_point) (packet_size : Z) (beta : double) (e : LocationTableEntry) : LocationTableEntry :=
  if d_is_nan (m_pdr e) then with_pdr (d_of_Z 0) now e
  else if dltb (d_of_Z 0) beta && dltb beta (d_of_Z 1) then
    let time_period := ddiv (d_of_Z (now - m_pdr_update e)) (d_of_Z 1000000) in
    if dltb (d_of_Z 0) time_period then
      let instant_pdr := ddiv (d_of_Z packet_size) time_period in
      with_pdr (dadd (dmul (m_pdr e) beta) (dmul (dsub (d_of_Z 1) beta) instant_pdr)) now e
    else e
  else e.
Definition set_position_vector (pv : LongPositionVector) (e : LocationTableEntry) : LocationTableEntry :=
  mkEntry (m_is_neighbour e) true pv (m_pdr e) (m_pdr_update e) (ext_dpl e) (ext_loctex e).
Definition update_position_vector (pv : LongPositionVector) (e : LocationTableEntry) : bool * LocationTableEntry :=
  if m_has_position_vector e then
    if ts_ltb (lpv_timestamp (m_position_vector e)) (lpv_timestamp pv) then (true, set_position_vector pv e) else (false, e)
  else (true, set_position_vector pv e).
Definition set_neighbour (flag : bool) (e : LocationTableEntry) : LocationTableEntry :=
  mkEntry flag (m_has_position_vector e) (m_position_vector e) (m_pdr e) (m_pdr_update e) (ext_dpl e) (ext_loctex e).
Definition set_loctex (x : LocTEX_G5) (e : LocationTableEntry) : LocationTableEntry :=
  mkEntry (m_is_neighbour e) (m_has_position_vector e) (m_position_vector e) (m_pdr e) (m_pdr_update e) (ext_dpl e) (Some x).
Definition set_dpl (x : DuplicatePacketList) (e : LocationTableEntry) : LocationTableEntry :=
  mkEntry (m_is_neighbour e) (m_has_position_vector e) (m_position_vector e) (m_pdr e) (m_pdr_update e) (Some x) (ext_loctex e).

(** ** LocationTable *)
Abbreviation LocationTable := (SoftStateMap (list Z) LocationTableEntry) (only parsing).
(** The lifetime of the entries is a whole number of seconds of the MIB. *)
Definition table_create (itsGnLifetimeLocTE : Z) : LocationTable := soft_create (itsGnLifetimeLocTE * 1000000) entry_create.
Definition has_entry (now : time_point) (addr : Address) (t : LocationTable) : bool := has_value now (mid addr) t.
(** [update] returns a reference to the entry, given here by its key and its value. *)
Definition table_update (now : time_point) (lpv : LongPositionVector) (t : LocationTable) : LocationTableEntry * LocationTable :=
  let mac := mid (gn_addr lpv) in
  let renew (e : LocationTableEntry) (t : LocationTable) :=
    let '(_, e) := update_position_vector lpv e in (e, set_value mac e t) in
  match get_value_ptr now mac t with
  | Some e =>
      if m_has_position_vector e then
        let '(updated, e) := update_position_vector lpv e in
        let t := set_value mac e t in
        (e, if updated then (refresh now mac t).2 else t)
      else let '(e, t) := refresh now mac t in renew e t
  | None => let '(e, t) := refresh now mac t in renew e t
  end.
Definition get_or_create_entry (now : time_point) (addr : Address) (t : LocationTable) : LocationTableEntry * LocationTable :=
  get_data now (mid addr) t.
Definition get_entry (now : time_point) (mac : MacAddress) (t : LocationTable) : option LocationTableEntry := get_value_ptr now mac t.
Definition get_position (now : time_point) (mac : MacAddress) (t : LocationTable) : option LongPositionVector :=
  e ← get_value_ptr now mac t;
  if m_has_position_vector e then Some (m_position_vector e) else None.
Definition has_neighbours (now : time_point) (t : LocationTable) : bool := existsb (fun x => m_is_neighbour x.2) (soft_live now t).

(** The order in which the hash map is gone through is not specified. *)
Section Visits.
Variable order : list (list Z * LocationTableEntry) -> list (list Z * LocationTableEntry).
Definition table_visit (now : time_point) (t : LocationTable) : list (list Z * LocationTableEntry) := order (soft_live now t).
Definition table_filter (now : time_point) (p : MacAddress -> LocationTableEntry -> bool) (t : LocationTable) : list LocationTableEntry :=
  snd <$> List.filter (fun x => p x.1 x.2) (table_visit now t).
Definition neighbours (now : time_point) (t : LocationTable) : list LocationTableEntry :=
  table_filter now (fun _ e => m_is_neighbour e) t.
End Visits.

(** Duplicate packet detection of the router: an entry is created for a source that has none. *)
Definition detect_duplicate_packet (itsGnDPLLength : nat) (now : time_point) (addr_so : Address) (sn : SequenceNumber)
    (t : LocationTable) : bool * LocationTable :=
  let '(e, t) := get_or_create_entry now addr_so t in
  let '(is_duplicate, dpl) := dpl_check sn (default (dpl_create itsGnDPLLength) (ext_dpl e)) in
  (is_duplicate, set_value (mid addr_so) (set_dpl dpl e) t).

(** ** Expiring entries as a map with times *)
Section SoftStateProofs.
Context {K V : Type} `{Countable K}.
Implicit Types (s : SoftStateMap K V) (m : gmap K (V * time_point)).

(** Handles and keys belong together. *)
Record soft_wf s : Prop := {
  wf_map : forall k h v, m_map s !! k = Some (h, v) -> fst <$> m_heap s !! h = Some k;
  wf_heap : forall h k e, m_heap s !! h = Some (k, e) -> fst <$> m_map s !! k = Some h;
  wf_new : forall h, (pushed s <= h)%nat -> m_heap s !! h = None
}.
(** The map it stands for: values with their expiry. *)
Definition contents s : gmap K (V * time_point) := (fun x => (x.2, expiry_of s x.1)) <$> m_map s.
Definition current (now : time_point) (x : V * time_point) : option V := if x.2 <? now then None else Some x.1.

Lemma soft_create_wf lt (c : time_point -> V) : soft_wf (soft_create (K := K) lt c).
Proof. split; cbn; intros *; by rewrite ?lookup_empty. Qed.
Lemma contents_create lt (c : time_point -> V) : contents (soft_create (K := K) lt c) = ∅.
Proof. apply fmap_empty. Qed.
Lemma contents_at s k : contents s !! k = (fun x => (x.2, expiry_of s x.1)) <$> m_map s !! k.
Proof. apply lookup_fmap. Qed.
Lemma get_value_ptr_contents now k s : get_value_ptr now k s = contents s !! k ≫= current now.
Proof.
  unfold get_value_ptr. rewrite contents_at. destruct (m_map s !! k) as [[h v]|]; cbn; done.
Qed.
Lemma soft_handles s k1 k2 h v1 v2 : soft_wf s ->
  m_map s !! k1 = Some (h, v1) -> m_map s !! k2 = Some (h, v2) -> k1 = k2.
Proof. intros W H1%(wf_map s W) H2%(wf_map s W). by simplify_eq. Qed.

Lemma refresh_handle_spec now s k h v : soft_wf s -> m_map s !! k = Some (h, v) ->
  soft_wf (refresh_handle now h s) /\
  contents (refresh_handle now h s) = <[k := (v, now + m_lifetime s)]> (contents s).
Proof.
  intros W Hk. pose proof (wf_map s W _ _ _ Hk) as Hh. apply fmap_Some in Hh as ([k' e] & Hh & [= <-]). split.
  - split; cbn.
    + intros k' h' v' Hm. rewrite lookup_alter. case_decide as Hc; [|by eapply wf_map].
      subst h'. rewrite (soft_handles s _ _ _ _ _ W Hm Hk), Hh. done.
    + intros h' k' e' Hl. rewrite lookup_alter in Hl. case_decide; [|by eapply wf_heap].
      subst h'. rewrite Hh in Hl. injection Hl as <- <-. by rewrite Hk.
    + intros h' Hn. rewrite lookup_alter. case_decide; [subst h'|]; by rewrite (wf_new s W).
  - apply map_eq. intros k'. rewrite contents_at. cbn [m_map refresh_handle].
    destruct (decide (k = k')) as [<-|Hne].
    + rewrite lookup_insert_eq, Hk. cbn. unfold expiry_of. cbn. by rewrite lookup_alter_eq, Hh.
    + rewrite lookup_insert_ne, contents_at by done. destruct (m_map s !! k') as [[h' v']|] eqn:Hk'; [|done].
      cbn. unfold expiry_of. cbn. rewrite lookup_alter_ne; [done|]. intros <-. by apply Hne, (soft_handles s _ _ _ _ _ W Hk Hk').
Qed.
Lemma set_value_spec k v s : soft_wf s ->
  soft_wf (set_value k v s) /\ contents (set_value k v s) = alter (fun x => (v, x.2)) k (contents s).
Proof.
  intros W. split; [split; cbn|].
  - intros k' h v'. rewrite lookup_alter. case_decide; [|by apply wf_map].
    subst k'. intros ([h' v''] & Hk & [= -> _])%fmap_Some. by eapply wf_map.
  - intros h k' e Hh. rewrite lookup_alter. pose proof (wf_heap s W _ _ _ Hh) as Hk. case_decide; [|done].
    subst k'. by destruct (m_map s !! k) as [[h' v']|].
  - apply (wf_new s W).
  - apply map_eq. intros k'. rewrite contents_at. cbn. rewrite !lookup_alter.
    case_decide; [subst k'|]; rewrite contents_at; by destruct (m_map s !! k) as [[h' v']|].
Qed.
Definition spec_get (lt : Z) (c : time_point -> V) (now : time_point) (k : K) m : V * gmap K (V * time_point) :=
  match m !! k with
  | Some (v, e) => (v, if e <? now then <[k := (v, now + lt)]> m else m)
  | None => (c now, <[k := (c now, now + lt)]> m)
  end.
Lemma get_data_new now k s : soft_wf s -> m_map s !! k = None ->
  let s' := (get_data now k s).2 in
  soft_wf s' /\ contents s' = <[k := (m_creator s now, now + m_lifetime s)]> (contents s).
Proof.
  intros W Hk. unfold get_data. rewrite Hk. cbn [snd]. split; [split; cbn|].
  - intros k' h v. rewrite lookup_insert. case_decide; [intros [= <- <-]; subst k'; by rewrite lookup_insert_eq|].
    intros Hk'. pose proof (wf_map s W _ _ _ Hk') as Hh. rewrite lookup_insert_ne; [done|].
    intros <-. by rewrite (wf_new s W) in Hh.
  - intros h k' e. rewrite lookup_insert. case_decide; [intros [= <- <-]; subst h; by rewrite lookup_insert_eq|].
    intros Hh. pose proof (wf_heap s W _ _ _ Hh) as Hk'. rewrite lookup_insert_ne; [done|].
    intros <-. by rewrite Hk in Hk'.
  - intros h Hn. rewrite lookup_insert_ne by lia. apply (wf_new s W). lia.
  - apply map_eq. intros k'. rewrite contents_at. cbn [m_map]. rewrite !lookup_insert. case_decide; [subst k'|].
    + cbn. unfold expiry_of. cbn. by rewrite lookup_insert_eq.
    + rewrite contents_at. destruct (m_map s !! k') as [[h v]|] eqn:Hk'; [|done]. cbn. unfold expiry_of. cbn.
      rewrite lookup_insert_ne; [done|]. intros <-. pose proof (wf_map s W _ _ _ Hk') as Hh. by rewrite (wf_new s W) in Hh.
Qed.
Lemma get_data_spec now k s : soft_wf s ->
  soft_wf (get_data now k s).2 /\
  ((get_data now k s).1, contents (get_data now k s).2) = spec_get (m_lifetime s) (m_creator s) now k (contents s).
Proof.
  intros W. unfold spec_get. rewrite contents_at. destruct (m_map s !! k) as [[h v]|] eqn:Hk; cbn [fmap option_fmap option_map].
  - unfold get_data. rewrite Hk. cbn. unfold soft_is_expired.
    destruct (expiry_of s h <? now); [|done]. pose proof (refresh_handle_spec now s k h v W Hk) as [? ->]. done.
  - pose proof (get_data_new now k s W Hk) as [? Hc]. split; [done|]. rewrite Hc. unfold get_data. by rewrite Hk.
Qed.
Lemma refresh_spec now k s : soft_wf s ->
  let v := match contents s !! k with Some x => x.1 | None => m_creator s now end in
  (refresh now k s).1 = v /\ soft_wf (refresh now k s).2 /\
  contents (refresh now k s).2 = <[k := (v, now + m_lifetime s)]> (contents s).
Proof.
  intros W. unfold refresh. rewrite contents_at. destruct (m_map s !! k) as [[h v]|] eqn:Hk; cbn.
  - split; [done|]. by apply refresh_handle_spec.
  - pose proof (get_data_new now k s W Hk) as [? Hc]. split; [|done]. unfold get_data. by rewrite Hk.
Qed.

Lemma heap_top_spec s :
  match heap_top s with
  | Some (h, (k, e)) => m_heap s !! h = Some (k, e) /\ forall h' k' e', m_heap s !! h' = Some (k', e') -> e <= e'
  | None => m_heap s = ∅
  end.
Proof.
  unfold heap_top. assert (Hin : forall h k e, (h, (k, e)) ∈ map_to_list (m_heap s) <-> m_heap s !! h = Some (k, e)) by (intros; apply elem_of_map_to_list).
  assert (Hl : forall l : list (nat * (K * time_point)), match foldr earlier None l with
    | Some x => x ∈ l /\ forall y, y ∈ l -> x.2.2 <= y.2.2 | None => l = [] end).
  { induction l as [|x l IH]; [done|]. cbn. destruct (foldr earlier None l) as [b|]; cbn.
    - destruct IH as [Hb Hleast]. destruct (Z.leb_spec (x.2.2) (b.2.2)).
      + split; [left|]. intros y [->|Hy]%elem_of_cons; [lia|]. specialize (Hleast y Hy). lia.
      + split; [by right|]. intros y [->|Hy]%elem_of_cons; [lia|]. by apply Hleast.
    - rewrite IH. split; [left|]. intros y [->|Hy]%elem_of_cons; [lia|]. by apply not_elem_of_nil in Hy. }
  specialize (Hl (map_to_list (m_heap s))). destruct (foldr earlier None _) as [[h [k e]]|].
  - destruct Hl as [Hm Hleast]. split; [by apply Hin|]. intros h' k' e' Hh%Hin. exact (Hleast _ Hh).
  - by apply map_to_list_empty_iff.
Qed.
Definition without_entry (h : nat) (k : K) s : SoftStateMap K V :=
  mkSoft (m_lifetime s) (m_creator s) (delete h (m_heap s)) (delete k (m_map s)) (pushed s).
Lemma without_entry_spec h k e s : soft_wf s -> m_heap s !! h = Some (k, e) ->
  soft_wf (without_entry h k s) /\ contents (without_entry h k s) = delete k (contents s).
Proof.
  intros W Hh. pose proof (wf_heap s W _ _ _ Hh) as Hk. apply fmap_Some in Hk as ([h' v] & Hk & [= <-]).
  split; [split; cbn|].
  - intros k' h' v'. rewrite lookup_delete. case_decide; [done|]. intros Hk'. pose proof (wf_map s W _ _ _ Hk') as Hh'.
    rewrite lookup_delete_ne; [done|]. intros <-. rewrite Hh in Hh'. by injection Hh'.
  - intros h' k' e'. rewrite lookup_delete. case_decide; [done|]. intros Hh'. pose proof (wf_heap s W _ _ _ Hh') as Hk'.
    rewrite lookup_delete_ne; [done|]. intros <-. rewrite Hk in Hk'. by injection Hk'.
  - intros h' Hn. rewrite lookup_delete. case_decide; [done|]. by apply (wf_new s W).
  - apply map_eq. intros k'. rewrite contents_at. cbn. rewrite !lookup_delete. case_decide; [done|].
    rewrite contents_at. destruct (m_map s !! k') as [[h' v']|] eqn:Hk'; [|done]. cbn. unfold expiry_of. cbn.
    rewrite lookup_delete_ne; [done|]. intros <-. pose proof (soft_handles s _ _ _ _ _ W Hk Hk'). done.
Qed.
Lemma contents_heap k v e s : soft_wf s -> contents s !! k = Some (v, e) -> exists h, m_heap s !! h = Some (k, e).
Proof.
  intros W. rewrite contents_at. intros ([h v'] & Hk & [= -> ->])%fmap_Some.
  pose proof (wf_map s W _ _ _ Hk) as Hh. apply fmap_Some in Hh as ([k' e'] & Hh & [= ->]). exists h.
  unfold expiry_of. cbn. by rewrite Hh.
Qed.
Definition fresh (now : time_point) (x : K * (V * time_point)) : Prop := now <= x.2.2.
#[export] Instance fresh_dec now x : Decision (fresh now x) := decide (now <= x.2.2).
Lemma drop_loop_spec now n : forall s, soft_wf s -> (size (m_heap s) <= n)%nat ->
  soft_wf (drop_loop n now s) /\ contents (drop_loop n now s) = filter (fresh now) (contents s).
Proof.
  assert (Hend : forall s, soft_wf s -> (forall h k e, m_heap s !! h = Some (k, e) -> now <= e) ->
    filter (fresh now) (contents s) = contents s).
  { intros s W Hall. apply map_filter_id. intros k [v e] Hk. apply contents_heap in Hk as [h Hh]; [|done]. by apply Hall in Hh. }
  induction n as [|n IH]; intros s W Hn; cbn [drop_loop].
  - split; [done|]. rewrite Hend; [done..|]. intros h k e. rewrite (map_size_empty_inv (m_heap s)) by lia. by rewrite lookup_empty.
  - pose proof (heap_top_spec s) as Htop. destruct (heap_top s) as [[h [k e]]|].
    + destruct Htop as [Hh Hleast]. unfold soft_is_expired. destruct (Z.ltb_spec e now) as [He|He].
      * fold (without_entry h k s). pose proof (without_entry_spec h k e s W Hh) as [W' Hc].
        destruct (IH (without_entry h k s) W') as [W2 Hc2].
        { cbn. rewrite map_size_delete_Some by eauto. lia. }
        split; [done|]. rewrite Hc2, Hc. rewrite map_filter_delete. apply delete_id. rewrite map_lookup_filter_None. right.
        intros [v e'] Hk Hf. unfold fresh in Hf. cbn in Hf. rewrite contents_at in Hk. apply fmap_Some in Hk as ([h' v'] & Hk & [= -> ->]).
        pose proof (wf_heap s W _ _ _ Hh) as Hk'. rewrite Hk in Hk'. injection Hk' as ->. cbn in Hf.
        unfold expiry_of in Hf. rewrite Hh in Hf. cbn in Hf. lia.
      * split; [done|]. rewrite Hend; [done..|]. intros h' k' e' Hh'. pose proof (Hleast _ _ _ Hh'). lia.
    + split; [done|]. rewrite Hend; [done..|]. intros h k e. by rewrite Htop, lookup_empty.
Qed.
Lemma soft_drop_spec now s : soft_wf s ->
  soft_wf (soft_drop_expired now s) /\ contents (soft_drop_expired now s) = filter (fresh now) (contents s).
Proof. intros W. by apply drop_loop_spec. Qed.
Lemma drop_loop_frame now n : forall s, m_lifetime (drop_loop n now s) = m_lifetime s /\ m_creator (drop_loop n now s) = m_creator s.
Proof.
  induction n as [|n IH]; intros s; [done|]. cbn [drop_loop].
  destruct (heap_top s) as [[h [k e]]|]; [|done]. destruct (soft_is_expired now e); [|done]. apply (IH (without_entry h k s)).
Qed.
Lemma soft_live_elem now k v s : (k, v) ∈ soft_live now s <-> get_value_ptr now k s = Some v.
Proof.
  unfold soft_live, get_value_ptr. rewrite list_elem_of_omap. split.
  - intros ([k' [h v']] & Hin%elem_of_map_to_list & Hx). cbn in Hx. destruct (soft_is_expired now _) eqn:He; [done|].
    injection Hx as -> ->. rewrite Hin. cbn. by rewrite He.
  - destruct (m_map s !! k) as [[h v']|] eqn:Hk; cbn; [|done]. destruct (soft_is_expired now _) eqn:He; [done|].
    intros [= ->]. exists (k, (h, v)). split; [by apply elem_of_map_to_list|]. cbn. by rewrite He.
Qed.

(** A value is changed through the reference that was just obtained. *)
Lemma set_value_at k v s e : soft_wf s -> snd <$> contents s !! k = Some e ->
  soft_wf (set_value k v s) /\ contents (set_value k v s) = <[k := (v, e)]> (contents s).
Proof.
  intros W Hk. pose proof (set_value_spec k v s W) as [? ->]. split; [done|].
  apply fmap_Some in Hk as ([v' e'] & Hk & ->). apply map_eq. intros k'. rewrite lookup_alter, lookup_insert.
  case_decide; [subst k'; by rewrite Hk|done].
Qed.
End SoftStateProofs.

(** ** What the table holds of a station depends on what was heard of it alone *)
Record table_wf (lt : Z) (t : LocationTable) : Prop := {
  table_soft : soft_wf t;
  table_lifetime : m_lifetime t = lt;
  table_creator : m_creator t = entry_create
}.
Abbreviation entry_state := (option (LocationTableEntry * time_point)) (only parsing).
Definition renewed (lt : Z) (now : time_point) (lpv : LongPositionVector) (e : LocationTableEntry) : LocationTableEntry * time_point :=
  ((update_position_vector lpv e).2, now + lt).
(** An entry that has expired is still the one that is renewed; a position that is not newer
    renews nothing. *)
Definition entry_heard (lt : Z) (now : time_point) (lpv : LongPositionVector) (st : entry_state) : LocationTableEntry * time_point :=
  match st with
  | Some (e, expiry) =>
      if (now <=? expiry) && m_has_position_vector e && negb (update_position_vector lpv e).1 then (e, expiry)
      else renewed lt now lpv e
  | None => renewed lt now lpv (entry_create now)
  end.
Definition entry_duplicate (lt : Z) (length : nat) (now : time_point) (sn : SequenceNumber) (st : entry_state) :
    bool * (LocationTableEntry * time_point) :=
  let '(e, expiry) := match st with
    | Some (e, expiry) => (e, if expiry <? now then now + lt else expiry)
    | None => (entry_create now, now + lt) end in
  let '(is_duplicate, dpl) := dpl_check sn (default (dpl_create length) (ext_dpl e)) in
  (is_duplicate, (set_dpl dpl e, expiry)).

Lemma table_create_wf seconds : table_wf (seconds * 1000000) (table_create seconds).
Proof. split; [apply soft_create_wf|done|done]. Qed.
Lemma refresh_frame {K V} `{Countable K} now k (s : SoftStateMap K V) :
  m_lifetime (refresh now k s).2 = m_lifetime s /\ m_creator (refresh now k s).2 = m_creator s.
Proof. unfold refresh, get_data. destruct (m_map s !! k) as [[h v]|]; done. Qed.
Lemma get_data_frame {K V} `{Countable K} now k (s : SoftStateMap K V) :
  m_lifetime (get_data now k s).2 = m_lifetime s /\ m_creator (get_data now k s).2 = m_creator s.
Proof. unfold get_data. destruct (m_map s !! k) as [[h v]|]; cbn; [by destruct (soft_is_expired _ _)|done]. Qed.

Lemma renew_spec lt now lpv t : table_wf lt t ->
  let mac := mid (gn_addr lpv) in
  let e := match contents t !! mac with Some x => x.1 | None => entry_create now end in
  let '(e1, t1) := refresh now mac t in
  let '(_, e2) := update_position_vector lpv e1 in
  e2 = (update_position_vector lpv e).2 /\ table_wf lt (set_value mac e2 t1) /\
  contents (set_value mac e2 t1) = <[mac := renewed lt now lpv e]> (contents t).
Proof.
  intros [W Hlt Hc] mac e. pose proof (refresh_spec now mac t W) as (Hv & W1 & Hc1).
  pose proof (refresh_frame now mac t) as [Hl1 Hcr1]. destruct (refresh now mac t) as [e1 t1]. cbn in *.
  rewrite Hc in Hv, Hc1. fold e in Hv, Hc1. subst e1.
  destruct (set_value_at mac (update_position_vector lpv e).2 t1 (now + lt) W1) as [W2 Hc2].
  { by rewrite Hc1, lookup_insert_eq, <- Hlt. }
  unfold renewed. destruct (update_position_vector lpv e) as [b e2]. cbn in *. split; [done|]. split.
  - split; cbn; [done|congruence|congruence].
  - by rewrite Hc2, Hc1, insert_insert_eq.
Qed.
Lemma table_update_spec lt now lpv t : table_wf lt t ->
  let mac := mid (gn_addr lpv) in
  let x := entry_heard lt now lpv (contents t !! mac) in
  (table_update now lpv t).1 = x.1 /\ table_wf lt (table_update now lpv t).2 /\
  contents (table_update now lpv t).2 = <[mac := x]> (contents t).
Proof.
  intros W mac x. subst x. pose proof W as [W0 Hlt Hc]. pose proof (renew_spec lt now lpv t W) as Hr.
  cbv zeta in Hr. unfold table_update. fold mac. fold mac in Hr. rewrite get_value_ptr_contents.
  destruct (contents t !! mac) as [[e expiry]|] eqn:Hm; cbn [mbind option_bind current fst] in *.
  - unfold current. cbn [fst snd]. rewrite Z.ltb_antisym. unfold entry_heard. destruct (Z.leb_spec now expiry); cbn [negb andb].
    2: { destruct (refresh now mac t) as [e1 t1]. destruct (update_position_vector lpv e1) as [b e2].
         destruct Hr as (-> & ? & ?). done. }
    destruct (m_has_position_vector e) eqn:Hpv; cbn [andb].
    2: { destruct (refresh now mac t) as [e1 t1]. destruct (update_position_vector lpv e1) as [b e2].
         destruct Hr as (-> & ? & ?). done. }
    destruct (set_value_at mac (update_position_vector lpv e).2 t expiry W0) as [W1 Hc1]; [by rewrite Hm|].
    assert (Hnot : (update_position_vector lpv e).1 = false -> (update_position_vector lpv e).2 = e).
    { unfold update_position_vector. rewrite Hpv. by destruct (ts_ltb _ _). }
    unfold renewed. destruct (update_position_vector lpv e) as [[|] e2] eqn:Hu; cbn [fst snd negb] in *.
    + pose proof (refresh_spec now mac (set_value mac e2 t) W1) as (_ & W2 & Hc2).
      pose proof (refresh_frame now mac (set_value mac e2 t)) as [Hl2 Hcr2].
      split; [done|]. split; [split; [done|by rewrite Hl2|by rewrite Hcr2]|].
      rewrite Hc2, Hc1, lookup_insert_eq. cbn. by rewrite insert_insert_eq, Hlt.
    + rewrite Hnot in * by done. split; [done|]. split; [by split|]. by rewrite Hc1.
  - cbn [entry_heard]. destruct (refresh now mac t) as [e1 t1]. destruct (update_position_vector lpv e1) as [b e2].
    destruct Hr as (-> & ? & ?). done.
Qed.
Lemma detect_duplicate_packet_spec lt len now addr sn t : table_wf lt t ->
  let x := entry_duplicate lt len now sn (contents t !! mid addr) in
  (detect_duplicate_packet len now addr sn t).1 = x.1 /\ table_wf lt (detect_duplicate_packet len now addr sn t).2 /\
  contents (detect_duplicate_packet len now addr sn t).2 = <[mid addr := x.2]> (contents t).
Proof.
  intros [W Hlt Hc] x. subst x. unfold detect_duplicate_packet, get_or_create_entry.
  pose proof (get_data_spec now (mid addr) t W) as [W1 Hg]. pose proof (get_data_frame now (mid addr) t) as [Hl1 Hcr1].
  destruct (get_data now (mid addr) t) as [e t1]. cbn [fst snd] in *. unfold spec_get in Hg. rewrite Hlt, Hc in Hg.
  assert (exists y, entry_duplicate lt len now sn (contents t !! mid addr) = ((dpl_check sn (default (dpl_create len) (ext_dpl e))).1,
      (set_dpl (dpl_check sn (default (dpl_create len) (ext_dpl e))).2 e, y)) /\
    snd <$> contents t1 !! mid addr = Some y /\ forall v, <[mid addr := v]> (contents t1) = <[mid addr := v]> (contents t)) as (y & -> & Hy & Hi).
  { unfold entry_duplicate. destruct (contents t !! mid addr) as [[e0 y]|] eqn:Hm; injection Hg as -> ->.
    - exists (if y <? now then now + lt else y). destruct (dpl_check _ _). split; [done|].
      destruct (y <? now); [|by rewrite Hm]. rewrite lookup_insert_eq. split; [done|]. intros v. by rewrite insert_insert_eq.
    - exists (now + lt). destruct (dpl_check _ _). rewrite lookup_insert_eq. split; [done|]. split; [done|].
      intros v. by rewrite insert_insert_eq. }
  destruct (dpl_check sn _) as [d dpl]. cbn [fst snd]. destruct (set_value_at (mid addr) (set_dpl dpl e) t1 y W1 Hy) as [W2 Hc2].
  split; [done|]. split; [split; cbn; [done|congruence|congruence]|]. by rewrite Hc2, Hi.
Qed.
Lemma table_drop_spec lt now t : table_wf lt t ->
  table_wf lt (soft_drop_expired now t) /\ contents (soft_drop_expired now t) = filter (fresh now) (contents t).
Proof.
  intros [W Hlt Hc]. pose proof (soft_drop_spec now t W) as [W' ?]. split; [|done].
  pose proof (drop_loop_frame now (size (m_heap t)) t) as [? ?]. split; [done|by unfold soft_drop_expired; congruence..].
Qed.

(** ** Histories of the table *)
Inductive table_event :=
| Aged (now : time_point)
| Heard (now : time_point) (lpv : LongPositionVector)
| Numbered (now : time_point) (addr : Address) (sn : SequenceNumber).
Definition table_step (len : nat) (t : LocationTable) (e : table_event) : LocationTable :=
  match e with
  | Aged now => soft_drop_expired now t
  | Heard now lpv => (table_update now lpv t).2
  | Numbered now addr sn => (detect_duplicate_packet len now addr sn t).2
  end.
Definition entry_step (lt : Z) (len : nat) (mac : MacAddress) (st : entry_state) (e : table_event) : entry_state :=
  match e with
  | Aged now => x ← st; if x.2 <? now then None else Some x
  | Heard now lpv => if decide (mid (gn_addr lpv) = mac) then Some (entry_heard lt now lpv st) else st
  | Numbered now addr sn => if decide (mid addr = mac) then Some (entry_duplicate lt len now sn st).2 else st
  end.
Lemma table_step_spec lt len e t : table_wf lt t ->
  table_wf lt (table_step len t e) /\
  forall mac, contents (table_step len t e) !! mac = entry_step lt len mac (contents t !! mac) e.
Proof.
  intros W. destruct e as [now|now lpv|now addr sn]; cbn [table_step entry_step].
  - destruct (table_drop_spec lt now t W) as [? ->]. split; [done|]. intros mac. rewrite map_lookup_filter.
    destruct (contents t !! mac) as [[e x]|]; [|done]. cbn. unfold guard. destruct (Z.ltb_spec x now); case_decide as Hf; unfold fresh in Hf; cbn in *; done || lia.
  - destruct (table_update_spec lt now lpv t W) as (_ & ? & ->). split; [done|]. intros mac. rewrite lookup_insert.
    case_decide; [by subst|done].
  - destruct (detect_duplicate_packet_spec lt len now addr sn t W) as (_ & ? & ->). split; [done|]. intros mac. rewrite lookup_insert.
    case_decide; [by subst|done].
Qed.
(** [C34] Whatever order updates, duplicate checks and clean-ups come in, what the table holds of a
    station and until when is what was heard of that station made it. *)
Theorem table_knows_stations seconds len events mac now :
  let t := foldl (table_step len) (table_create seconds) events in
  table_wf (seconds * 1000000) t /\
  contents t !! mac = foldl (entry_step (seconds * 1000000) len mac) None events /\
  get_entry now mac t = foldl (entry_step (seconds * 1000000) len mac) None events ≫= current now.
Proof.
  cbv zeta. set (lt := seconds * 1000000).
  assert (H : table_wf lt (foldl (table_step len) (table_create seconds) events) /\
    contents (foldl (table_step len) (table_create seconds) events) !! mac = foldl (entry_step lt len mac) None events).
  { induction events as [|e events IH] using rev_ind; [split; [apply table_create_wf|cbn [foldl]; unfold table_create; by rewrite contents_create]|].
    rewrite !foldl_snoc. destruct IH as [W <-]. destruct (table_step_spec lt len e _ W) as [? Hc]. by rewrite Hc. }
  destruct H as [W H]. split; [done|]. split; [done|]. unfold get_entry. by rewrite get_value_ptr_contents, H.
Qed.

(** ** Duplicate packet lists *)
Definition numbers (d : DuplicatePacketList) : list SequenceNumber := element_sn <$> m_elements d.
Lemma has_sn_numbers sn d : existsb (has_sn sn) (m_elements d) = bool_decide (sn ∈ numbers d).
Proof.
  apply eq_true_iff_eq. rewrite bool_decide_eq_true, existsb_exists. unfold numbers. rewrite list_elem_of_fmap.
  split; intros (e & H1 & H2).
  - exists e. apply Z.eqb_eq in H2. split; [by symmetry|]. by apply list_elem_of_In.
  - exists e. split; [by apply list_elem_of_In|]. unfold has_sn. by apply Z.eqb_eq.
Qed.
Lemma count_up_numbers sn l : element_sn <$> count_up sn l = element_sn <$> l.
Proof. induction l as [|e l IH]; cbn; [done|]. destruct (has_sn sn e); cbn; by rewrite ?IH. Qed.
Lemma circular_push_fmap {A B} (f : A -> B) cap x l : f <$> circular_push cap x l = circular_push cap (f x) (f <$> l).
Proof.
  unfold circular_push. destruct cap; [done|]. rewrite length_fmap.
  destruct (Nat.leb _ _); rewrite fmap_app; [by rewrite fmap_drop|done].
Qed.
Lemma dpl_check_numbers sn d :
  (dpl_check sn d).1 = bool_decide (sn ∈ numbers d) /\ dpl_capacity (dpl_check sn d).2 = dpl_capacity d /\
  numbers (dpl_check sn d).2 = if decide (sn ∈ numbers d) then numbers d else circular_push (dpl_capacity d) sn (numbers d).
Proof.
  unfold dpl_check. rewrite has_sn_numbers. case_bool_decide as H; [rewrite decide_True by done|rewrite decide_False by done]; cbn.
  - split; [done|]. split; [done|]. unfold numbers. cbn. apply count_up_numbers.
  - split; [done|]. split; [done|]. unfold numbers. cbn. apply circular_push_fmap.
Qed.
Fixpoint dpl_run (d : DuplicatePacketList) (sns : list SequenceNumber) : list bool * DuplicatePacketList :=
  match sns with
  | [] => ([], d)
  | sn :: sns => let '(b, d) := dpl_check sn d in let '(bs, d) := dpl_run d sns in (b :: bs, d)
  end.
Definition news (answers : list bool) : nat := length (List.filter negb answers).
Lemma dpl_remembered sn sns : forall d before after,
  numbers d = before ++ sn :: after -> (length (numbers d) <= dpl_capacity d)%nat ->
  (length after + news (dpl_run d sns).1 < dpl_capacity d)%nat -> sn ∈ numbers (dpl_run d sns).2.
Proof.
  induction sns as [|x sns IH]; intros d before after Hd Hlen Hn; cbn [dpl_run fst snd] in *.
  - rewrite Hd. apply elem_of_app. right. left.
  - pose proof (dpl_check_numbers x d) as (Hb & Hcap & Hnum). destruct (dpl_check x d) as [b d']. cbn [fst snd] in *.
    specialize (IH d'). destruct (dpl_run d' sns) as [bs d'']. cbn [fst snd] in *.
    destruct (decide (x ∈ numbers d)) as [Hx|Hx].
    { rewrite bool_decide_eq_true_2 in Hb by done. subst b. cbn in Hn. eapply IH; [rewrite Hnum; exact Hd|rewrite Hnum, Hcap; exact Hlen|rewrite Hcap; exact Hn]. }
    rewrite bool_decide_eq_false_2 in Hb by done. subst b. unfold news in *. cbn in Hn.
    unfold circular_push in Hnum. destruct (dpl_capacity d) as [|cap] eqn:Hc; [lia|].
    destruct (Nat.leb_spec (S cap) (length (numbers d))) as [Hfull|Hroom].
    + destruct before as [|y before]; cbn in *.
      { rewrite Hd in Hfull. cbn in Hfull. lia. }
      apply (IH before (after ++ [x])).
      * by rewrite Hnum, Hd, skipn_cons, drop_0, <- app_assoc.
      * rewrite Hnum, Hd, Hcap, skipn_cons, drop_0. rewrite Hd in Hlen. cbn in *. rewrite !length_app in *. cbn in *. lia.
      * rewrite Hcap, length_app. cbn. lia.
    + apply (IH before (after ++ [x])).
      * rewrite Hnum, Hd. by rewrite <- app_assoc.
      * rewrite Hnum, Hcap, length_app. cbn. lia.
      * rewrite Hcap, length_app. cbn. lia.
Qed.
(** A number that was new is recognised until as many other new numbers have come as the list
    has room for. *)
Lemma duplicate_recognised sn sns d : (length (numbers d) <= dpl_capacity d)%nat ->
  (dpl_check sn d).1 = false ->
  let d' := (dpl_check sn d).2 in
  (news (dpl_run d' sns).1 < dpl_capacity d)%nat -> (dpl_check sn (dpl_run d' sns).2).1 = true.
Proof.
  intros Hlen Hnew d' Hn. pose proof (dpl_check_numbers sn d) as (Hb & Hcap & Hnum). fold d' in Hcap, Hnum.
  rewrite Hnew in Hb. symmetry in Hb. apply bool_decide_eq_false in Hb. rewrite decide_False in Hnum by done.
  destruct (dpl_check_numbers sn (dpl_run d' sns).2) as (-> & _ & _). apply bool_decide_eq_true.
  unfold circular_push in Hnum. destruct (dpl_capacity d) as [|cap] eqn:Hc; [lia|].
  destruct (Nat.leb_spec (S cap) (length (numbers d))) as [Hfull|Hroom].
  - apply (dpl_remembered sn sns d' (drop 1 (numbers d)) []); [done|rewrite Hnum, Hcap, length_app, length_drop; cbn; lia|by rewrite Hcap].
  - apply (dpl_remembered sn sns d' (numbers d) []); [done|rewrite Hnum, Hcap, length_app; cbn; lia|by rewrite Hcap].
Qed.

(** ** Numbers on the wire *)
Definition mco_ok (f : DccMcoField) : Prop :=
  0 <= m_cbr_l0_hop f < 2 ^ 8 /\ 0 <= m_cbr_l1_hop f < 2 ^ 8 /\ 0 <= m_output_power f < 2 ^ 5.
Lemma mco_number f : mco_ok f ->
  mco_to_uint32 f = m_cbr_l0_hop f * 2 ^ 24 + m_cbr_l1_hop f * 2 ^ 16 + m_output_power f * 2 ^ 11.
Proof.
  destruct f as [l0 l1 p]. intros ([? ?] & [? ?] & [? ?]). cbn [m_cbr_l0_hop m_cbr_l1_hop m_output_power] in *.
  unfold mco_to_uint32. cbv zeta. cbn [m_cbr_l0_hop m_cbr_l1_hop m_output_power]. rewrite !Z.shiftl_mul_pow2 by lia.
  rewrite (u32_small (l0 * 2 ^ 8)), lor_low by lia. rewrite (u32_small (_ * 2 ^ 5)), lor_low by lia. rewrite u32_small by lia. lia.
Qed.
Lemma mco_field_roundtrip f : mco_ok f ->
  get_dcc_mco (dcc_field_deserialize (dcc_field_serialize (Mco f))) = Some f.
Proof.
  intros Hf. pose proof Hf as ([? ?] & [? ?] & [? ?]). cbn. f_equal. rewrite mco_number by done. unfold mco_of_uint32, wrap.
  rewrite !Z.shiftr_div_pow2 by lia. destruct f as [l0 l1 p]; cbn [m_cbr_l0_hop m_cbr_l1_hop m_output_power] in *.
  f_equal; Z.to_euclidean_division_equations; lia.
Qed.
(** Every load of a received field is shared unchanged. *)
Lemma forall_below (n : Z) (P : Z -> bool) : forallb P (seqZ 0 n) = true -> forall k, 0 <= k < n -> P k = true.
Proof.
  rewrite forallb_forall. intros H k Hk. apply H, list_elem_of_In, elem_of_seqZ. lia.
Qed.
Lemma load_shared_again k : 0 <= k < 256 -> to_cbr (of_cbr k) = Ok k.
Proof.
  intros Hk. assert (H : forallb (fun k => bool_decide (to_cbr (of_cbr k) = Ok k)) (seqZ 0 256) = true) by (by vm_compute).
  by apply (forall_below _ _ H), bool_decide_eq_true in Hk.
Qed.
(** Where the least significant byte comes first a sequence number arrives with its bytes
    exchanged: the two stations of a hop number the same packet differently. *)
Lemma sequence_number_swapped host n : 0 <= n < 2 ^ 16 ->
  sn_deserialize host (sn_serialize n) = Some (if host then n else swap16 n).
Proof.
  intros Hn. unfold sn_deserialize, sn_serialize, read_u16, ntoh16, swap16. destruct host; cbn [fmap option_fmap option_map]; f_equal.
  - pose proof (Z.div_mod n 256). lia.
  - Z.to_euclidean_division_equations. lia.
Qed.
Example first_packet_renumbered : sn_deserialize false (sn_serialize 1) = Some 256.
Proof. reflexivity. Qed.

(** ** Runs *)
Definition ex_mac (n : Z) : MacAddress := [2; 0; 0; 0; 0; n].
Definition ex_lpv (n ts : Z) : LongPositionVector := mkLpv (mkGnAddress true 5 0 (ex_mac n)) ts 0 0 true 0 0.
Definition ex_sec (n : Z) : time_point := n * 1000000.
(** A position that is not newer does not keep its station in the table. *)
Example old_position_forgotten :
  let t := foldl (table_step 8) (table_create 20)
    [Heard (ex_sec 0) (ex_lpv 1 7000); Heard (ex_sec 15) (ex_lpv 1 7000); Heard (ex_sec 15) (ex_lpv 2 100); Aged (ex_sec 21)] in
  (has_value (ex_sec 21) (ex_mac 1) t, get_position (ex_sec 21) (ex_mac 2) t) = (false, Some (ex_lpv 2 100)).
Proof. by vm_compute. Qed.
(** The first copy counts as one. *)
Example duplicates_counted :
  let d := (dpl_run (dpl_create 2) [5; 5; 6; 7; 5]) in
  (d.1, dpl_counter 5 d.2, dpl_counter 6 d.2) = ([false; true; false; false; false], 1, 0).
Proof. by vm_compute. Qed.
(** A station that shares no loads counts as one without any. *)
Example no_field_no_load : local_cbr <$> get_dcc_mco null_dcc_field = Some (d_of_Z 0).
Proof. by vm_compute. Qed.
