(* ===== verification/ChannelSharing.v ===== *)
(** * Channel loads shared between stations

    The network entity of congestion control that a DCC entity may be configured with
    ([networking/DccEntityBase.cc], [TwoHopChannelLoad]): the local load is sent in the headers
    of single-hop broadcasts ([geonet/dcc_information_sharing.cpp]), the loads received are kept
    in the location table ([Router::process_extended] of [geonet/router.cpp]), and every 100 ms
    they are combined to the load the DCC algorithm is given ([geonet/cbr_aggregator.cpp]). *)

From S2P Require Import Prelude Float64 VehicleData Radio Timer Networking Dcc LocationTable.

(** ** CbrAggregator *)
Record CbrAggregatorUnit := mkUnit { unit_n : Z; unit_average : double; maximum_0 : double; maximum_1 : double }.
Definition unit_create : CbrAggregatorUnit := mkUnit 0 (d_of_Z 0) (d_of_Z 0) (d_of_Z 0).
(** [operator+=]; [>=] is derived from [<]. *)
Definition unit_add (u : CbrAggregatorUnit) (cbr : double) : CbrAggregatorUnit :=
  let n := u32 (unit_n u + 1) in
  let average := clamp (ddiv (dadd (dmul (unit_average u) (d_of_Z (unit_n u))) cbr) (d_of_Z n)) in
  if negb (dltb cbr (maximum_0 u)) then mkUnit n average cbr (maximum_0 u)
  else if dltb (maximum_1 u) cbr then mkUnit n average (maximum_0 u) cbr
  else mkUnit n average (maximum_0 u) (maximum_1 u).
Definition unit_result (target : double) (u : CbrAggregatorUnit) : double :=
  if dltb target (unit_average u) then maximum_0 u else maximum_1 u.

Record CbrAggregator := mkAggregator {
  m_local_cbr_0 : double;
  m_local_cbr_1 : double;
  m_one_hop_cbr : double;
  m_two_hop_cbr : double;
  m_global_cbr : double
}.
Definition aggregator_create : CbrAggregator := mkAggregator (d_of_Z 0) (d_of_Z 0) (d_of_Z 0) (d_of_Z 0) (d_of_Z 0).

(** The field of an entry that was updated since [lifetime]. *)
Definition shared_field (lifetime : Timestamp) (e : LocationTableEntry) : option DccMcoField :=
  x ← ext_loctex e;
  if ts_ltb (local_update x) lifetime then None else Some (dcc_mco x).
Definition aggregate (local : double) (entries : list (list Z * LocationTableEntry)) (lifetime : Timestamp) (target : double)
    (a : CbrAggregator) : CbrAggregator :=
  let fields := omap (fun x => shared_field lifetime x.2) entries in
  let one_hop := unit_result target (foldl unit_add unit_create (local_cbr <$> fields)) in
  let two_hop := unit_result target (foldl unit_add unit_create (neighbour_cbr <$> fields)) in
  let previous := m_local_cbr_0 a in
  mkAggregator local previous one_hop two_hop (d_max (d_max previous one_hop) two_hop).

(** ** DccInformationSharing *)
Record DccInformationSharing := mkSharing {
  m_cbr_target : double;
  m_cbr_local : double;
  m_aggregator : CbrAggregator;
  m_last_aggregation : Timestamp;
  next_trigger : time_point
}.
Definition m_trigger_interval : Z := 100 * 1000.
(** The delay of the first cycle: [duration::operator*=] takes a whole number. *)
Definition sharing_create (now : time_point) (target delay : double) : res DccInformationSharing :=
  factor ← d_to_long delay;
  Ok (mkSharing target (d_of_Z 0) aggregator_create (timestamp_at now) (now + m_trigger_interval * factor)).
Definition generate_dcc_field (d : DccInformationSharing) : res DccField :=
  f ← set_local_cbr (m_local_cbr_0 (m_aggregator d)) mco_default;
  f ← set_neighbour_cbr (m_one_hop_cbr (m_aggregator d)) f;
  Ok (Mco f).
Definition update_local_cbr (cbr : double) (d : DccInformationSharing) : DccInformationSharing :=
  mkSharing (m_cbr_target d) cbr (m_aggregator d) (m_last_aggregation d) (next_trigger d).

Section Sharing.
Variable order : list (list Z * LocationTableEntry) -> list (list Z * LocationTableEntry).

(** [trigger]: the hook is given the global load. *)
Definition sharing_trigger (now : time_point) (t : LocationTable) (d : DccInformationSharing) : double * DccInformationSharing :=
  let a := aggregate (m_cbr_local d) (table_visit order now t) (m_last_aggregation d) (m_cbr_target d) (m_aggregator d) in
  (m_global_cbr a, mkSharing (m_cbr_target d) (m_cbr_local d) a (timestamp_at now) (now + m_trigger_interval)).

(** ** What a single-hop broadcast leaves in the table *)
Definition shb_entry (now : time_point) (beta : double) (packet_size : Z) (its_g5 : bool) (lpv : LongPositionVector) (dcc : DccField)
    (e : LocationTableEntry) : LocationTableEntry :=
  let e := set_neighbour true (update_pdr now packet_size beta e) in
  match (if its_g5 then get_dcc_mco dcc else None) with
  | Some mco => set_loctex (mkLocTex (timestamp_at now) (lpv_timestamp lpv) mco) e
  | None => e
  end.
Definition shb_table (now : time_point) (beta : double) (packet_size : Z) (its_g5 : bool) (lpv : LongPositionVector) (dcc : DccField)
    (t : LocationTable) : res LocationTable :=
  let '(e, t) := table_update now lpv t in
  assert_ "source_entry.has_position_vector()" (m_has_position_vector e) ;;
  Ok (set_value (mid (gn_addr lpv)) (shb_entry now beta packet_size its_g5 lpv dcc e) t).

(** ** A station: its DCC entity, the network entity and the table

    [LocalLoad]: the processed load of the radio; [SingleHop]: a broadcast, before which the
    router cleans up its table; [Cycle]: the runtime calls back. *)
Section Station.
Context {M : Type} (machine_update : double -> M -> M) (beta : double).
Record sharing_station := mkSharingStation {
  st_machine : M;
  st_sharing : DccInformationSharing;
  st_table : LocationTable
}.
Inductive sharing_event :=
| LocalLoad (cbr : double)
| SingleHop (now : time_point) (packet_size : Z) (lpv : LongPositionVector) (dcc : DccField)
| Cycle (now : time_point).
Definition sharing_step (s : sharing_station) (e : sharing_event) : res sharing_station :=
  match e with
  | LocalLoad cbr => Ok (mkSharingStation (st_machine s) (update_local_cbr cbr (st_sharing s)) (st_table s))
  | SingleHop now size lpv dcc =>
      t ← shb_table now beta size true lpv dcc (soft_drop_expired now (st_table s));
      Ok (mkSharingStation (st_machine s) (st_sharing s) t)
  | Cycle now =>
      let '(cbr, d) := sharing_trigger now (st_table s) (st_sharing s) in
      Ok (mkSharingStation (machine_update cbr (st_machine s)) d (st_table s))
  end.
End Station.
End Sharing.

(** ** What the aggregator computes *)
(** Of the loads and two that are zero, the largest or the second largest. *)
Definition largest_two (l : list double) (m0 m1 : double) : Prop :=
  exists rest, l ++ [d_of_Z 0; d_of_Z 0] ≡ₚ m0 :: m1 :: rest /\ dleb m1 m0 = true /\ Forall (fun x => dleb x m1 = true) rest.
Definition unit_of (l : list double) : CbrAggregatorUnit := foldl unit_add unit_create l.
Lemma unit_of_snoc l x : unit_of (l ++ [x]) = unit_add (unit_of l) x.
Proof. unfold unit_of. by rewrite foldl_snoc. Qed.
Lemma unit_zero : unit_interval (d_of_Z 0) = true.
Proof. done. Qed.
Lemma largest_two_unit l m0 m1 : in_unit l -> largest_two l m0 m1 -> unit_interval m0 = true /\ unit_interval m1 = true.
Proof.
  intros Hl (rest & Hp & _). assert (H : in_unit (m0 :: m1 :: rest)).
  { unfold in_unit. rewrite <- Hp. apply Forall_app. split; [done|]. by repeat constructor. }
  apply Forall_cons in H as [? [? _]%Forall_cons]. done.
Qed.
Lemma dleb_dltb a b : unit_interval a = true -> unit_interval b = true -> dltb a b = false -> dleb b a = true.
Proof. intros Ha Hb. apply dltb_false; by apply unit_not_nan. Qed.
Lemma unit_of_largest l : in_unit l -> largest_two l (maximum_0 (unit_of l)) (maximum_1 (unit_of l)).
Proof.
  induction l as [|x l IH] using rev_ind; intros Hl; [by exists []|].
  apply Forall_app in Hl as [Hl Hx]. apply Forall_cons in Hx as [Hx _]. rewrite unit_of_snoc. specialize (IH Hl).
  pose proof (largest_two_unit _ _ _ Hl IH) as [H0 H1]. destruct IH as (rest & Hp & Hle & Hrest).
  assert (Hp' : (l ++ [x]) ++ [d_of_Z 0; d_of_Z 0] ≡ₚ x :: maximum_0 (unit_of l) :: maximum_1 (unit_of l) :: rest).
  { rewrite <- Hp, <- app_assoc. cbn. by rewrite <- Permutation_middle. }
  unfold unit_add. destruct (dltb x (maximum_0 (unit_of l))) eqn:Hx0; cbn [negb].
  - destruct (dltb (maximum_1 (unit_of l)) x) eqn:Hx1; cbn [maximum_0 maximum_1].
    + exists (maximum_1 (unit_of l) :: rest). split; [by rewrite Hp', Permutation_swap|]. split; [by apply dltb_dleb|].
      apply dltb_dleb in Hx1. constructor; [done|]. eapply Forall_impl; [exact Hrest|]. intros y Hy. exact (dleb_trans _ _ _ Hy Hx1).
    + exists (x :: rest). split; [rewrite Hp'; rewrite Permutation_swap; by apply Permutation_skip, Permutation_swap|].
      split; [done|]. constructor; [|done]. by apply dleb_dltb.
  - cbn [maximum_0 maximum_1]. exists (maximum_1 (unit_of l) :: rest). split; [done|]. split; [by apply dleb_dltb|].
    constructor; [done|]. eapply Forall_impl; [exact Hrest|]. intros y Hy. exact (dleb_trans _ _ _ Hy Hle).
Qed.
Lemma unit_result_of target l : in_unit l -> exists m0 m1, largest_two l m0 m1 /\
  unit_result target (unit_of l) = if dltb target (unit_average (unit_of l)) then m0 else m1.
Proof. intros Hl. eexists _, _. split; [by apply unit_of_largest|done]. Qed.
Lemma unit_result_unit target l : in_unit l -> unit_interval (unit_result target (unit_of l)) = true.
Proof.
  intros Hl. pose proof (largest_two_unit _ _ _ Hl (unit_of_largest l Hl)) as [? ?]. unfold unit_result.
  by destruct (dltb _ _).
Qed.
Lemma d_max_unit a b : unit_interval a = true -> unit_interval b = true ->
  unit_interval (d_max a b) = true /\ dleb a (d_max a b) = true /\ dleb b (d_max a b) = true.
Proof.
  intros Ha Hb. unfold d_max. destruct (dltb a b) eqn:Hab.
  - split; [done|]. split; [by apply dltb_dleb|]. by apply dleb_refl, unit_not_nan.
  - split; [done|]. split; [by apply dleb_refl, unit_not_nan|]. by apply dleb_dltb.
Qed.
Lemma of_cbr_unit k : 0 <= k < 256 -> unit_interval (of_cbr k) = true.
Proof. apply (forall_below 256 (fun k => unit_interval (of_cbr k))). by vm_compute. Qed.
Definition field_ok (dcc : DccField) : Prop := match dcc with Mco f => mco_ok f | Raw _ => True end.
Lemma get_dcc_mco_ok dcc f : field_ok dcc -> get_dcc_mco dcc = Some f -> mco_ok f.
Proof.
  destruct dcc; cbn; intros Hf [= <-]; [done|]. unfold mco_ok, mco_of_uint32. cbn.
  split_and!; apply wrap_range; lia.
Qed.
Lemma loads_unit fields : Forall mco_ok fields -> in_unit (local_cbr <$> fields) /\ in_unit (neighbour_cbr <$> fields).
Proof.
  intros H. unfold in_unit. rewrite !Forall_fmap. split; (eapply Forall_impl; [exact H|]); intros f (? & ? & _); by apply of_cbr_unit.
Qed.

(** ** Histories of a station *)
Lemma update_position_vector_has lpv e : m_has_position_vector (update_position_vector lpv e).2 = true.
Proof. unfold update_position_vector. destruct (m_has_position_vector e) eqn:H; [destruct (ts_ltb _ _)|]; done. Qed.
Lemma entry_heard_has lt now lpv st : m_has_position_vector (entry_heard lt now lpv st).1 = true.
Proof.
  unfold entry_heard, renewed. destruct st as [[e x]|]; [|apply update_position_vector_has].
  destruct (now <=? x) eqn:Hx; cbn [andb]; [|apply update_position_vector_has].
  destruct (m_has_position_vector e) eqn:He; cbn [andb]; [|apply update_position_vector_has].
  destruct (negb _); [done|apply update_position_vector_has].
Qed.
Lemma shb_table_spec lt now beta size g5 lpv dcc t : table_wf lt t ->
  let mac := mid (gn_addr lpv) in
  let x := entry_heard lt now lpv (contents t !! mac) in
  exists t', shb_table now beta size g5 lpv dcc t = Ok t' /\ table_wf lt t' /\
  contents t' = <[mac := (shb_entry now beta size g5 lpv dcc x.1, x.2)]> (contents t).
Proof.
  intros W mac x. destruct (table_update_spec lt now lpv t W) as (He & W1 & Hc). fold mac in He, Hc. fold x in He, Hc.
  unfold shb_table. destruct (table_update now lpv t) as [e t1]. cbn [fst snd] in *. subst e.
  rewrite (entry_heard_has lt now lpv (contents t !! mac) : m_has_position_vector x.1 = true). cbn [assert_ mbind res_bind].
  destruct W1 as [W1 Hl1 Hcr1].
  destruct (set_value_at mac (shb_entry now beta size g5 lpv dcc x.1) t1 x.2 W1) as [W2 Hc2]; [by rewrite Hc, lookup_insert_eq|].
  eexists. split; [done|]. fold mac. split; [by split|]. by rewrite Hc2, Hc, insert_insert_eq.
Qed.

Section Histories.
Variable order : list (list Z * LocationTableEntry) -> list (list Z * LocationTableEntry).
Hypothesis order_perm : forall l, order l ≡ₚ l.
Context {M : Type} (machine_update : double -> M -> M) (beta : double) (lt : Z).

(** What was heard of one station. *)
Definition aged (now : time_point) (st : entry_state) : entry_state := x ← st; if x.2 <? now then None else Some x.
Definition heard_step (mac : MacAddress) (st : entry_state) (e : sharing_event) : entry_state :=
  match e with
  | SingleHop now size lpv dcc =>
      let st := aged now st in
      if decide (mid (gn_addr lpv) = mac)
      then Some (shb_entry now beta size true lpv dcc (entry_heard lt now lpv st).1, (entry_heard lt now lpv st).2)
      else st
  | _ => st
  end.
Definition heard_of (mac : MacAddress) (events : list sharing_event) : entry_state := foldl (heard_step mac) None events.
(** The load of the radio now and at the last cycle, and the time of the last cycle. *)
Definition load_step (st : double * double * Timestamp) (e : sharing_event) : double * double * Timestamp :=
  match e with
  | LocalLoad cbr => (cbr, st.1.2, st.2)
  | Cycle now => (st.1.1, st.1.1, timestamp_at now)
  | _ => st
  end.
Definition loads_of (created : time_point) (events : list sharing_event) : double * double * Timestamp :=
  foldl load_step (d_of_Z 0, d_of_Z 0, timestamp_at created) events.
Definition event_ok (e : sharing_event) : Prop :=
  match e with
  | LocalLoad cbr => unit_interval cbr = true
  | SingleHop _ _ _ dcc => field_ok dcc
  | Cycle _ => True
  end.
Definition entry_field_ok (st : entry_state) : Prop := forall e y x, st = Some (e, y) -> ext_loctex e = Some x -> mco_ok (dcc_mco x).

Record station_inv (created : time_point) (target : double) (events : list sharing_event) (s : @sharing_station M) : Prop := {
  inv_table : table_wf lt (st_table s);
  inv_heard : forall mac, contents (st_table s) !! mac = heard_of mac events;
  inv_local : m_cbr_local (st_sharing s) = (loads_of created events).1.1;
  inv_previous : m_local_cbr_0 (m_aggregator (st_sharing s)) = (loads_of created events).1.2;
  inv_last : m_last_aggregation (st_sharing s) = (loads_of created events).2;
  inv_target : m_cbr_target (st_sharing s) = target;
  inv_unit : unit_interval (loads_of created events).1.1 = true /\ unit_interval (loads_of created events).1.2 = true;
  inv_fields : forall mac, entry_field_ok (heard_of mac events)
}.
Lemma shb_entry_loctex now size lpv dcc e x : field_ok dcc ->
  ext_loctex (shb_entry now beta size true lpv dcc e) = Some x -> mco_ok (dcc_mco x).
Proof.
  intros Hf. unfold shb_entry. destruct (get_dcc_mco dcc) as [f|] eqn:Hg; [|by destruct dcc].
  cbn. intros [= <-]. by apply (get_dcc_mco_ok dcc).
Qed.
Lemma heard_fields_ok e mac events : event_ok e -> entry_field_ok (heard_of mac events) -> entry_field_ok (heard_step mac (heard_of mac events) e).
Proof.
  intros He Hok. assert (Ha : forall now, entry_field_ok (aged now (heard_of mac events))).
  { intros now. unfold aged. destruct (heard_of mac events) as [[e' y]|]; [|done]. cbn. destruct (y <? now); [done|exact Hok]. }
  destruct e as [cbr|now size lpv dcc|now]; cbn [heard_step]; [exact Hok| |exact Hok].
  destruct (decide _); [|apply Ha]. intros e' y x [= <- _]. by apply shb_entry_loctex.
Qed.
Lemma station_step_inv created target events e s s' : event_ok e -> station_inv created target events s ->
  sharing_step order machine_update beta s e = Ok s' -> station_inv created target (events ++ [e]) s'.
Proof.
  intros He [W Hh Hl Hp Hla Ht [Hu1 Hu2] Hf]. destruct e as [cbr|now size lpv dcc|now]; cbn [sharing_step].
  - intros [= <-]. split; unfold heard_of, loads_of; rewrite ?foldl_snoc; cbn; try done.
    + intros mac. rewrite foldl_snoc. apply Hh.
    + intros mac. rewrite foldl_snoc. apply Hf.
  - destruct (table_drop_spec lt now (st_table s) W) as [W1 Hc1].
    destruct (shb_table_spec lt now beta size true lpv dcc _ W1) as (t' & Ht' & W2 & Hc2). rewrite Ht'. cbn [mbind res_bind].
    intros H. apply Ok_inj in H as <-. split; unfold loads_of; rewrite ?foldl_snoc; cbn [st_table st_sharing]; try done.
    + intros mac. unfold heard_of. rewrite foldl_snoc. fold (heard_of mac events). rewrite Hc2, Hc1. cbn [heard_step].
      assert (Ha : forall k, filter (fresh now) (contents (st_table s)) !! k = aged now (heard_of k events)).
      { intros k. rewrite map_lookup_filter, Hh. unfold aged. destruct (heard_of k events) as [[e y]|]; [|done]. cbn. unfold guard.
        destruct (Z.ltb_spec y now); case_decide as Hc; unfold fresh in Hc; cbn in Hc; done || lia. }
      rewrite lookup_insert, !Ha. case_decide as Hm; [by rewrite Hm|done].
    + intros mac. unfold heard_of. rewrite foldl_snoc. by apply heard_fields_ok.
  - unfold sharing_trigger. cbn [fst snd]. intros H. apply Ok_inj in H as <-.
    split; unfold loads_of; rewrite ?foldl_snoc; cbn; try done.
    + intros mac. unfold heard_of. rewrite foldl_snoc. apply Hh.
    + intros mac. unfold heard_of. rewrite foldl_snoc. apply Hf.
Qed.
End Histories.

(** The stations whose load counts in a cycle: heard since the last one and not forgotten. *)
Definition counts (beta : double) (lt : Z) (created now : time_point) (events : list sharing_event) (mac : MacAddress) (f : DccMcoField) : Prop :=
  exists e expiry, heard_of beta lt mac events = Some (e, expiry) /\ now <= expiry /\
    shared_field (loads_of created events).2 e = Some f.
Definition field_of (lifetime : Timestamp) (x : MacAddress * LocationTableEntry) : option (MacAddress * DccMcoField) :=
  f ← shared_field lifetime x.2; Some (x.1, f).
Lemma fields_of lifetime (entries : list (MacAddress * LocationTableEntry)) : omap (fun x => shared_field lifetime x.2) entries = snd <$> omap (field_of lifetime) entries.
Proof.
  induction entries as [|x l IH]; [done|]. cbn. unfold field_of at 1. destruct (shared_field lifetime x.2); cbn; by rewrite IH.
Qed.
Lemma omap_keys lifetime (entries : list (MacAddress * LocationTableEntry)) :
  NoDup entries.*1 -> NoDup (omap (field_of lifetime) entries).*1.
Proof.
  induction entries as [|x l IH]; [done|]. cbn [fmap list_fmap]. intros [Hx Hl]%NoDup_cons. cbn.
  unfold field_of at 1. destruct (shared_field lifetime x.2); cbn; [|by apply IH]. apply NoDup_cons. split; [|by apply IH].
  intros ([k f] & Hk & Hin)%list_elem_of_fmap. apply Hx. apply list_elem_of_omap in Hin as (y & Hy & Hf).
  unfold field_of in Hf. destruct (shared_field lifetime y.2); [|done]. injection Hf as <- <-. cbn in Hk. rewrite Hk. by apply list_elem_of_fmap_2.
Qed.
Lemma live_keys {K V} `{Countable K} now (s : SoftStateMap K V) : NoDup (soft_live now s).*1.
Proof.
  unfold soft_live. pose proof (NoDup_fst_map_to_list (m_map s)) as Hnd. induction (map_to_list (m_map s)) as [|x l IH]; [done|].
  cbn [fmap list_fmap] in Hnd. apply NoDup_cons in Hnd as [Hx Hl]. cbn. destruct (soft_is_expired now _); [by apply IH|].
  cbn. apply NoDup_cons. split; [|by apply IH]. intros ([k v] & Hk & Hin)%list_elem_of_fmap. apply Hx.
  apply list_elem_of_omap in Hin as (y & Hy & Hf). destruct (soft_is_expired now _); [done|]. injection Hf as <- <-.
  cbn in Hk. rewrite Hk. by apply list_elem_of_fmap_2.
Qed.

Lemma sharing_run_inv order {M} (machine_update : double -> M -> M) beta seconds target delay created m d events :
  sharing_create created target delay = Ok d -> Forall event_ok events ->
  exists s, res_fold (sharing_step order machine_update beta) events (mkSharingStation m d (table_create seconds)) = Ok s /\
    station_inv beta (seconds * 1000000) created target events s.
Proof.
  intros Hd. apply bind_Ok in Hd as (z & _ & Hd). apply Ok_inj in Hd as <-.
  induction events as [|e events IH] using rev_ind.
  - intros _. eexists. split; [done|]. by split.
  - intros [He Hl]%Forall_app. apply Forall_cons in Hl as [Hl _]. destruct (IH He) as (s & Hs & Hi).
    rewrite res_fold_app, Hs. cbn [mbind res_bind res_fold].
    assert (exists s', sharing_step order machine_update beta s e = Ok s') as [s' Hs'].
    { destruct e as [cbr|now size lpv dcc|now]; cbn [sharing_step]; [by eexists| |by eexists].
      destruct (table_drop_spec _ now (st_table s) (inv_table _ _ _ _ _ _ Hi)) as [W1 _].
      destruct (shb_table_spec _ now beta size true lpv dcc _ W1) as (t' & -> & _). by eexists. }
    exists s'. rewrite Hs'. split; [done|]. eapply station_step_inv; [exact Hl|exact Hi|exact Hs'].
Qed.

(** [C33] In every history of a station that shares loads each cycle gives the congestion control
    the largest of the load measured in the cycle before and of what the neighbours share:
    of the loads in the last header of each station heard since the last cycle, measured
    there and measured one hop further, the largest when their average exceeds the target
    and the second largest otherwise.  The next cycle follows after 100 ms. *)
Theorem shared_channel_load order {M} (machine_update : double -> M -> M) beta seconds target delay created (m : M) d events now :
  (forall l, order l ≡ₚ l) -> sharing_create created target delay = Ok d -> Forall event_ok events ->
  let measured := (loads_of created events).1.1 in let previous := (loads_of created events).1.2 in
  exists s s' loads one two,
    res_fold (sharing_step order machine_update beta) events (mkSharingStation m d (table_create seconds)) = Ok s /\
    sharing_step order machine_update beta s (Cycle now) = Ok s' /\
    NoDup loads.*1 /\ (forall mac f, (mac, f) ∈ loads <-> counts beta (seconds * 1000000) created now events mac f) /\
    (exists m0 m1, largest_two (local_cbr <$> loads.*2) m0 m1 /\
      one = if dltb target (unit_average (unit_of (local_cbr <$> loads.*2))) then m0 else m1) /\
    (exists m0 m1, largest_two (neighbour_cbr <$> loads.*2) m0 m1 /\
      two = if dltb target (unit_average (unit_of (neighbour_cbr <$> loads.*2))) then m0 else m1) /\
    st_machine s' = machine_update (d_max (d_max previous one) two) (st_machine s) /\
    unit_interval (d_max (d_max previous one) two) = true /\
    m_local_cbr_0 (m_aggregator (st_sharing s')) = measured /\
    next_trigger (st_sharing s') = now + m_trigger_interval.
Proof.
  intros Hperm Hd Hev measured previous. destruct (sharing_run_inv order machine_update beta seconds target delay created m d events Hd Hev) as (s & Hs & Hi).
  set (lifetime := (loads_of created events).2).
  set (loads := omap (field_of lifetime) (table_visit order now (st_table s))).
  assert (Hcount : forall mac f, (mac, f) ∈ loads <-> counts beta (seconds * 1000000) created now events mac f).
  { intros mac f. unfold loads, table_visit, counts. rewrite Hperm, list_elem_of_omap. setoid_rewrite <- (inv_heard _ _ _ _ _ _ Hi). fold lifetime. split.
    - intros ([k e] & Hin & Hf). apply soft_live_elem in Hin. rewrite get_value_ptr_contents in Hin. unfold field_of in Hf.
      destruct (shared_field lifetime _) eqn:Hx; [|done]. injection Hf as -> ->.
      destruct (contents (st_table s) !! mac) as [[e' y]|]; [|done]. unfold current in Hin. cbn in Hin.
      destruct (Z.ltb_spec y now); [done|]. injection Hin as ->. exists e, y. split; [done|]. split; [lia|done].
    - intros (e & y & He & Hy & Hf). exists (mac, e). split.
      + apply soft_live_elem. rewrite get_value_ptr_contents, He. unfold current. cbn. destruct (Z.ltb_spec y now); [lia|done].
      + unfold field_of. cbn. by rewrite Hf. }
  assert (Hok : Forall mco_ok loads.*2).
  { apply Forall_fmap, Forall_forall. intros [mac f] (e & y & He & _ & Hf)%Hcount. unfold shared_field in Hf.
    destruct (ext_loctex e) as [x|] eqn:Hx; [|done]. cbn in *. destruct (ts_ltb _ _); [done|]. injection Hf as <-.
    by eapply (inv_fields _ _ _ _ _ _ Hi). }
  apply loads_unit in Hok as [Hone Htwo].
  exists s. cbn [sharing_step]. unfold sharing_trigger. cbn [fst snd].
  eexists _, loads, (unit_result target (unit_of (local_cbr <$> loads.*2))), (unit_result target (unit_of (neighbour_cbr <$> loads.*2))).
  split; [done|]. split; [done|]. split; [unfold loads, table_visit; apply omap_keys; rewrite Hperm; apply live_keys|].
  split; [exact Hcount|]. split; [by apply unit_result_of|]. split; [by apply unit_result_of|].
  destruct (inv_unit _ _ _ _ _ _ Hi) as [Hu1 Hu2]. cbn [st_machine st_sharing m_aggregator next_trigger aggregate m_global_cbr m_local_cbr_0].
  rewrite (inv_previous _ _ _ _ _ _ Hi), (inv_last _ _ _ _ _ _ Hi), (inv_target _ _ _ _ _ _ Hi), (inv_local _ _ _ _ _ _ Hi), !fields_of.
  split; [done|]. split; [|done].
  pose proof (d_max_unit _ _ Hu2 (unit_result_unit target _ Hone)) as [H1 _]. by apply d_max_unit; [|apply unit_result_unit].
Qed.

(** ** Runs *)
Definition ex_events : list sharing_event :=
  [LocalLoad (d_lit 2 10); Cycle (ex_sec 10);
   SingleHop (ex_sec 10 + 20000) 100 (ex_lpv 1 10000) (Raw (mco_to_uint32 (mkMco 153 51 0)));
   SingleHop (ex_sec 10 + 40000) 100 (ex_lpv 2 10010) (Raw (mco_to_uint32 (mkMco 102 204 0)));
   LocalLoad (d_lit 3 10)].
Definition ex_station : res (@sharing_station (list double)) :=
  d ← sharing_create (ex_sec 9) (d_lit 5 10) (d_lit 7 10);
  res_fold (sharing_step id cons (d_lit 9 10)) ex_events (mkSharingStation [] d (table_create 20)).
Definition ex_sharing : DccInformationSharing := mkSharing (d_lit 5 10) (d_of_Z 0) aggregator_create (timestamp_at (ex_sec 9)) (ex_sec 9).
Lemma ex_events_ok : Forall event_ok ex_events.
Proof. by repeat constructor; vm_compute. Qed.
Lemma shared_channel_load_witness : exists s s', ex_station = Ok s /\
  sharing_step id cons (d_lit 9 10) s (Cycle (ex_sec 10 + 100000)) = Ok s' /\
  next_trigger (st_sharing s') = ex_sec 10 + 200000 /\
  m_local_cbr_0 (m_aggregator (st_sharing s')) = d_lit 3 10.
Proof.
  destruct (shared_channel_load id cons (d_lit 9 10) 20 (d_lit 5 10) (d_lit 7 10) (ex_sec 9) (@nil double) ex_sharing ex_events
    (ex_sec 10 + 100000)) as (s & s' & loads & one & two & Hs & Hs' & _ & _ & _ & _ & _ & _ & Hm & Hn); [done|by vm_compute|apply ex_events_ok|].
  exists s, s'. split; [exact Hs|]. split; [exact Hs'|]. split; [exact Hn|]. rewrite Hm. by vm_compute.
Defined.
(** Two neighbours share 0.6 and 0.4 measured, 0.2 and 0.8 heard of: their averages do not
    exceed the target, so that the second largest count, 0.4 and 0.2. *)
Example second_largest_used :
  (fun s => (st_machine <$> sharing_step id cons (d_lit 9 10) s (Cycle (ex_sec 10 + 100000)))) <$> ex_station =
  Ok (Ok [d_lit 2 5; d_of_Z 0]).
Proof. by vm_compute. Qed.
(** The random delay of the first cycle is lost in the conversion to whole numbers. *)
Example first_cycle_not_delayed now target : next_trigger <$> sharing_create now target (d_lit 7 10) = Ok now.
Proof.
  unfold sharing_create. replace (d_to_long (d_lit 7 10)) with (Ok 0) by (by vm_compute).
  cbn [fmap res_fmap mbind res_bind next_trigger]. f_equal. lia.
Qed.
