(* ===== verification/GeoBuffer.v ===== *)
(** * GeoNetworking: packets that wait

    Packets whose processing is pending ([src/extern/vanetza/vanetza/geonet/pending_packet.hpp])
    and the two buffers in which they wait: for a neighbour ([packet_buffer.cpp], with limited
    capacity) and for the end of a contention ([cbf_packet_buffer.cpp], with a timer each).
    What is buffered is an interface: its length and its lifetime, and its identifier. *)

From S2P Require Import Prelude Float64 Timer Networking Transfusion LocationTable.

(** ** Lifetimes of pending packets *)
Class Pending (P : Type) := {
  packet_length : P -> Z;
  packet_lifetime : P -> Z;
  set_lifetime : Z -> P -> P;
  identifier : P -> Address * SequenceNumber
}.
(** The lifetime is a field of the header: it changes neither the length nor the identifier.
    Packets are far shorter than memory. *)
Class PendingLaws (P : Type) `{!Pending P} : Prop := {
  length_set_lifetime : forall l p, packet_length (set_lifetime l p) = packet_length p;
  identifier_set_lifetime : forall l p, identifier (set_lifetime l p) = identifier p;
  length_range : forall p, 0 <= packet_length p < 2 ^ 62
}.
(** [clock_cast(lifetime.decode())]: whole microseconds. *)
Definition lifetime_us (raw : Z) : Z :=
  match d_to_long (dmul (lifetime_decode raw) (d_of_Z 1000000)) with Ok us => us | Fail _ => 0 end.

Section Lifetimes.
Context {P : Type} `{!Pending P}.
(** What [std::lround] returns for numbers out of range is not specified. *)
Variable unspecified : double -> Z.
Definition lround (x : double) : Z := match d_round_long x with Ok v => v | Fail _ => unspecified x end.
Definition encoded (us : Z) : Z :=
  let seconds := ddiv (d_of_Z us) (d_of_Z 1000000) in
  if dleb (d_of_Z 630) seconds then lifetime_set Hundred_Seconds (lround (ddiv seconds (d_of_Z 100)))
  else if dleb (d_of_Z 63) seconds then lifetime_set Ten_Seconds (lround (ddiv seconds (d_of_Z 10)))
  else if dleb (d_lit 315 100) seconds then lifetime_set One_Second (lround seconds)
  else lifetime_set Fifty_Milliseconds (lround (ddiv seconds (d_lit 5 100))).
Definition reduce_lifetime (queuing_time : Z) (p : P) : Z * P :=
  let us := lifetime_us (packet_lifetime p) in
  if queuing_time <=? 0 then (us, p)
  else if queuing_time <? us then (us - queuing_time, set_lifetime (encoded (us - queuing_time)) p)
  else (0, set_lifetime 0 p).

(** ** PacketBuffer: packets waiting for a neighbour *)
Record buffer_node := mkNode { expires_at : time_point; buffered_since : time_point; node_data : P }.
Record PacketBuffer := mkBuffer { m_nodes : list buffer_node; m_capacity : Z; m_stored : Z }.
Definition buffer_create (capacity : Z) : PacketBuffer := mkBuffer [] capacity 0.
Definition node_expired (now : time_point) (n : buffer_node) : bool := expires_at n <? now.
(** Sizes are unsigned 64-bit numbers. *)
Definition free (b : PacketBuffer) : Z := u64 (m_capacity b - m_stored b).
Definition drop_step (now : time_point) (st : list buffer_node * Z) (n : buffer_node) : list buffer_node * Z :=
  if node_expired now n then (st.1, u64 (st.2 - packet_length (node_data n))) else (st.1 ++ [n], st.2).
Definition buffer_drop_expired (now : time_point) (b : PacketBuffer) : PacketBuffer :=
  let '(nodes, stored) := foldl (drop_step now) ([], m_stored b) (m_nodes b) in mkBuffer nodes (m_capacity b) stored.
Fixpoint drop_bytes (bytes capacity : Z) (nodes : list buffer_node) (stored : Z) : PacketBuffer :=
  match nodes with
  | n :: nodes' =>
      if u64 (capacity - stored) <? bytes
      then drop_bytes bytes capacity nodes' (u64 (stored - packet_length (node_data n)))
      else mkBuffer nodes capacity stored
  | [] => mkBuffer [] capacity stored
  end.
Definition buffer_push (data : P) (now : time_point) (b : PacketBuffer) : bool * PacketBuffer :=
  let b := buffer_drop_expired now b in
  let length := packet_length data in
  let b := drop_bytes length (m_capacity b) (m_nodes b) (m_stored b) in
  if length <=? free b then
    let '(remaining, data) := reduce_lifetime 0 data in
    (true, mkBuffer (m_nodes b ++ [mkNode (now + remaining) now data]) (m_capacity b) (u64 (m_stored b + length)))
  else (false, b).
(** [flush]: the buffer is emptied first, then each packet that has not expired is processed,
    which may put it into the buffer again.  The packets to process, in their order. *)
Definition buffer_flush (now : time_point) (b : PacketBuffer) : list P * PacketBuffer :=
  (omap (fun n => if node_expired now n then None else Some (reduce_lifetime (now - buffered_since n) (node_data n)).2) (m_nodes b),
   mkBuffer [] (m_capacity b) 0).

(** ** CbfPacketBuffer: packets contending *)
Record CbfPacket := mkCbf { cbf_packet : P; cbf_sender : MacAddress; cbf_counter : Z }.
Record cbf_timer := mkTimer { timer_expiry : time_point; timer_start : time_point; timer_id : Address * SequenceNumber; timer_node : nat }.
(** The timers by expiry; each has an iterator into the list of packets, whose nodes are
    numbered.  [alarm]: when the runtime was asked to call back. *)
Record CbfPacketBuffer := mkCbfBuffer {
  m_packets : list (nat * CbfPacket);
  m_timers : list cbf_timer;
  m_capacity_bytes : Z;
  m_stored_bytes : Z;
  nodes_made : nat;
  alarm : option time_point
}.
Definition cbf_create (bytes : Z) : CbfPacketBuffer := mkCbfBuffer [] [] bytes 0 0 None.
Definition with_alarm (a : option time_point) (s : CbfPacketBuffer) : CbfPacketBuffer :=
  mkCbfBuffer (m_packets s) (m_timers s) (m_capacity_bytes s) (m_stored_bytes s) (nodes_made s) a.
(** [schedule_timer] cancels what was scheduled before. *)
Definition schedule_timer (s : CbfPacketBuffer) : res CbfPacketBuffer :=
  match m_timers s with
  | t :: _ => Ok (with_alarm (Some (timer_expiry t)) s)
  | [] => Fail (AssertFailed "!m_timers.empty()")
  end.
Definition find_timer (id : Address * SequenceNumber) (s : CbfPacketBuffer) : option cbf_timer :=
  List.find (fun t => bool_decide (timer_id t = id)) (m_timers s).
Definition packet_of (node : nat) (s : CbfPacketBuffer) : option CbfPacket :=
  snd <$> List.find (fun x => Nat.eqb x.1 node) (m_packets s).
Definition cbf_length (c : CbfPacket) : Z := packet_length (cbf_packet c).
(** Takes a timer and its packet out. *)
Definition erase (t : cbf_timer) (length : Z) (s : CbfPacketBuffer) : CbfPacketBuffer :=
  mkCbfBuffer (List.filter (fun x => negb (Nat.eqb x.1 (timer_node t))) (m_packets s))
    (List.filter (fun x => negb (Nat.eqb (timer_node x) (timer_node t))) (m_timers s))
    (m_capacity_bytes s) (u64 (m_stored_bytes s - length)) (nodes_made s) (alarm s).
Definition was_first (t : cbf_timer) (s : CbfPacketBuffer) : bool :=
  match m_timers s with x :: _ => Nat.eqb (timer_node x) (timer_node t) | [] => false end.
(** After the timer that was scheduled has been erased the next one is scheduled. *)
Definition reschedule_after (first : bool) (s : CbfPacketBuffer) : res CbfPacketBuffer :=
  match m_timers s with [] => Ok s | _ :: _ => if first then schedule_timer s else Ok s end.
Definition dangling {A} : res A := Fail (Undefined "iterator").
Definition sizes_agree (s : CbfPacketBuffer) : bool := Nat.eqb (length (m_packets s)) (length (m_timers s)).

Definition try_drop (id : Address * SequenceNumber) (s : CbfPacketBuffer) : res (bool * CbfPacketBuffer) :=
  match find_timer id s with
  | Some t =>
      match packet_of (timer_node t) s with
      | Some c =>
          s' ← reschedule_after (was_first t s) (erase t (cbf_length c) s);
          assert_ "m_packets.size() == m_timers.size()" (sizes_agree s') ;;
          Ok (true, s')
      | None => dangling
      end
  | None => assert_ "m_packets.size() == m_timers.size()" (sizes_agree s) ;; Ok (false, s)
  end.

(** Head drop: packets at the front are given up until the new one fits. *)
Fixpoint head_drop (capacity : Z) (packets : list (nat * CbfPacket)) (timers : list cbf_timer) (stored : Z) :
    list (nat * CbfPacket) * list cbf_timer * Z :=
  match packets with
  | x :: packets' =>
      if capacity <? stored
      then head_drop capacity packets'
             (List.filter (fun t => negb (bool_decide (timer_id t = identifier (cbf_packet x.2)))) timers)
             (u64 (stored - cbf_length x.2))
      else (packets, timers, stored)
  | [] => ([], timers, stored)
  end.
(** Equal keys of a multiset stay in the order of their insertion. *)
Fixpoint insert_timer (t : cbf_timer) (l : list cbf_timer) : list cbf_timer :=
  match l with
  | [] => [t]
  | x :: l' => if timer_expiry t <? timer_expiry x then t :: l else x :: insert_timer t l'
  end.
Definition cbf_enqueue (now : time_point) (packet : CbfPacket) (timeout : Z) (s : CbfPacketBuffer) : res CbfPacketBuffer :=
  if timeout <=? 0 then Ok s
  else
    let '(packets, timers, stored) :=
      head_drop (m_capacity_bytes s) (m_packets s) (m_timers s) (u64 (m_stored_bytes s + cbf_length packet)) in
    let id := identifier (cbf_packet packet) in
    let t := mkTimer (now + timeout) now id (nodes_made s) in
    if existsb (fun x => bool_decide (timer_id x = id)) timers
    then Fail (StdException "Illegal insertion of duplicate CBF packet")
    else
      let s := mkCbfBuffer (packets ++ [(nodes_made s, packet)]) (insert_timer t timers) (m_capacity_bytes s) stored
                 (S (nodes_made s)) (alarm s) in
      s ← (if was_first t s then schedule_timer s else Ok s);
      assert_ "m_packets.size() == m_timers.size()" (sizes_agree s) ;;
      Ok s.

(** [reduce_lifetime]: whether the packet remains valid, and the packet. *)
Definition cbf_reduce (now : time_point) (t : cbf_timer) (c : CbfPacket) : bool * CbfPacket :=
  let '(remaining, p) := reduce_lifetime (now - timer_start t) (cbf_packet c) in
  (0 <? remaining, mkCbf p (cbf_sender c) (cbf_counter c)).
Definition cbf_fetch (now : time_point) (id : Address * SequenceNumber) (s : CbfPacketBuffer) : res (option CbfPacket * CbfPacketBuffer) :=
  match find_timer id s with
  | Some t =>
      match packet_of (timer_node t) s with
      | Some c =>
          let '(valid, c) := cbf_reduce now t c in
          s' ← reschedule_after (was_first t s) (erase t (cbf_length c) s);
          Ok (if valid then Some c else None, s')
      | None => dangling
      end
  | None => Ok (None, s)
  end.
Definition cbf_find (id : Address * SequenceNumber) (s : CbfPacketBuffer) : option CbfPacket :=
  t ← find_timer id s; packet_of (timer_node t) s.

(** [flush]: every timer up to now, in their order; the packets that are still valid are
    handed over. *)
Definition flush_step (now : time_point) (st : list P * CbfPacketBuffer) (t : cbf_timer) : res (list P * CbfPacketBuffer) :=
  match packet_of (timer_node t) st.2 with
  | Some c =>
      let '(valid, c) := cbf_reduce now t c in
      Ok (if valid then st.1 ++ [cbf_packet c] else st.1, erase t (cbf_length c) st.2)
  | None => dangling
  end.
Definition due_timers (now : time_point) (s : CbfPacketBuffer) : list cbf_timer :=
  List.filter (fun t => timer_expiry t <=? now) (m_timers s).
Definition cbf_flush (now : time_point) (s : CbfPacketBuffer) : res (list P * CbfPacketBuffer) :=
  st ← res_fold (flush_step now) (due_timers now s) ([], s);
  s' ← reschedule_after true st.2;
  Ok (st.1, s').
End Lifetimes.

(** ** Invariants *)
Section Buffers.
Context {P : Type} `{!Pending P} `{!PendingLaws P}.
Variable unspecified : double -> Z.

Lemma reduce_lifetime_same q p : identifier (reduce_lifetime unspecified q p).2 = identifier p /\
  packet_length (reduce_lifetime unspecified q p).2 = packet_length p.
Proof.
  unfold reduce_lifetime. destruct (_ <=? 0); [done|]. destruct (_ <? _); cbn; by rewrite identifier_set_lifetime, length_set_lifetime.
Qed.

(** *** PacketBuffer *)
Definition node_lengths (l : list (@buffer_node P)) : Z := foldr (fun n acc => packet_length (node_data n) + acc) 0 l.
Lemma node_lengths_app l1 l2 : node_lengths (l1 ++ l2) = node_lengths l1 + node_lengths l2.
Proof. induction l1 as [|x l IH]; cbn; [done|]. unfold node_lengths in IH. rewrite IH. unfold node_lengths. lia. Qed.
Lemma node_lengths_nonneg l : 0 <= node_lengths l.
Proof. induction l as [|x l IH]; cbn; [lia|]. pose proof (length_range (node_data x)). unfold node_lengths in IH. lia. Qed.
Lemma node_lengths_filter p l : node_lengths (List.filter p l) <= node_lengths l.
Proof.
  induction l as [|n l IH]; cbn [List.filter]; [done|]. pose proof (length_range (node_data n)).
  destruct (p n); cbn [node_lengths foldr]; unfold node_lengths in *; lia.
Qed.
Definition buffer_ok (b : @PacketBuffer P) : Prop :=
  0 <= m_capacity b < 2 ^ 62 /\ m_stored b = node_lengths (m_nodes b) /\ m_stored b <= m_capacity b.
Lemma drop_step_spec now l : forall st, node_lengths st.1 <= st.2 - node_lengths l -> st.2 < 2 ^ 63 ->
  foldl (drop_step now) st l = (st.1 ++ List.filter (fun n => negb (node_expired now n)) l,
    st.2 - node_lengths l + node_lengths (List.filter (fun n => negb (node_expired now n)) l)).
Proof.
  induction l as [|n l IH]; intros [k stored] Hst Hb; cbn [foldl List.filter fst snd] in *.
  - rewrite app_nil_r. f_equal. cbn. lia.
  - pose proof (node_lengths_nonneg l). pose proof (node_lengths_nonneg k). pose proof (length_range (node_data n)) as [? ?].
    unfold drop_step at 2. cbn [node_lengths foldr] in Hst. fold (node_lengths l) in Hst.
    destruct (node_expired now n) eqn:He; cbn [negb fst snd].
    + unfold u64. rewrite wrap_small by lia. rewrite IH by (cbn [fst snd]; lia). cbn [fst snd]. f_equal.
      cbn [node_lengths foldr]. fold (node_lengths l). lia.
    + rewrite IH; cbn [fst snd]; [|rewrite node_lengths_app; cbn; lia|lia]. rewrite <- app_assoc. f_equal.
      cbn [node_lengths foldr]. fold (node_lengths l). fold (node_lengths (List.filter (fun n => negb (node_expired now n)) l)). lia.
Qed.
Lemma drop_bytes_spec bytes cap l : 0 <= bytes -> 0 <= cap < 2 ^ 62 -> node_lengths l <= cap ->
  exists k, drop_bytes bytes cap l (node_lengths l) = mkBuffer (drop k l) cap (node_lengths (drop k l)) /\
    (bytes <= cap -> node_lengths (drop k l) + bytes <= cap) /\
    (cap < bytes -> drop k l = []) /\
    (forall j, (j < k)%nat -> cap < node_lengths (drop j l) + bytes).
Proof.
  intros Hb Hc. induction l as [|n l IH]; intros Hl; cbn [drop_bytes].
  - exists 0%nat. split; [done|]. cbn. split; [lia|]. split; [done|]. intros j Hj. lia.
  - pose proof (node_lengths_nonneg l). pose proof (length_range (node_data n)) as [? ?].
    cbn [node_lengths foldr] in *. fold (node_lengths l) in *. unfold u64. rewrite (wrap_small 64 (cap - _)) by lia.
    destruct (Z.ltb_spec (cap - (packet_length (node_data n) + node_lengths l)) bytes) as [Hlt|Hge].
    + rewrite wrap_small by lia.
      replace (packet_length (node_data n) + node_lengths l - packet_length (node_data n)) with (node_lengths l) by lia.
      destruct IH as (k & -> & B1 & B2 & B3); [lia|]. exists (S k). cbn [drop]. split; [done|]. split; [done|]. split; [done|].
      intros [|j] Hj; [cbn [drop node_lengths foldr]; fold (node_lengths l); lia|]. apply B3. lia.
    + exists 0%nat. cbn [drop node_lengths foldr]. fold (node_lengths l). split; [done|]. split; [lia|]. split; [lia|]. intros j Hj. lia.
Qed.
(** A packet is buffered unless it is longer than the buffer; for it those that have expired
    go, and of the others, from the oldest on, no more than have to. *)
Lemma buffer_push_spec data now b : buffer_ok b ->
  let live := List.filter (fun n => negb (node_expired now n)) (m_nodes b) in
  let '(pushed, b') := buffer_push unspecified data now b in
  buffer_ok b' /\ pushed = (packet_length data <=? m_capacity b) /\
  exists k, m_nodes b' = drop k live ++
      (if pushed then [mkNode (now + lifetime_us (packet_lifetime data)) now data] else []) /\
    forall j, (j < k)%nat -> m_capacity b < node_lengths (drop j live) + packet_length data.
Proof.
  intros (Hc & Hs & Hle) live. unfold buffer_push, buffer_drop_expired. rewrite drop_step_spec by (cbn; lia).
  cbn [fst snd app]. fold live. rewrite Hs, Z.sub_diag, Z.add_0_l. cbn [m_capacity m_nodes m_stored].
  assert (Hl : node_lengths live <= m_capacity b).
  { pose proof (node_lengths_filter (fun n => negb (node_expired now n)) (m_nodes b)). unfold live. lia. }
  pose proof (length_range data) as [? ?].
  destruct (drop_bytes_spec (packet_length data) (m_capacity b) live) as (k & -> & B1 & B2 & B3); [lia|lia|done|].
  cbn [m_capacity m_nodes m_stored]. unfold free. cbn [m_capacity m_stored].
  pose proof (node_lengths_nonneg (drop k live)).
  assert (Hk : node_lengths (drop k live) <= m_capacity b).
  { destruct (Z.le_gt_cases (packet_length data) (m_capacity b)) as [Hd|Hd]; [pose proof (B1 Hd); lia|]. rewrite (B2 Hd). cbn. lia. }
  unfold u64. rewrite wrap_small by lia. cbn [reduce_lifetime]. unfold reduce_lifetime. cbn [Z.leb].
  replace (packet_length data <=? m_capacity b - node_lengths (drop k live)) with (packet_length data <=? m_capacity b).
  2: { destruct (Z.leb_spec (packet_length data) (m_capacity b)) as [Hd|Hd]; symmetry; [apply Z.leb_le; specialize (B1 Hd); lia|].
       apply Z.leb_gt. rewrite (B2 Hd). cbn. lia. }
  destruct (Z.leb_spec (packet_length data) (m_capacity b)) as [Hd|Hd].
  - split; [|split; [done|by exists k]]. specialize (B1 Hd). unfold buffer_ok. cbn [m_capacity m_nodes m_stored].
    rewrite wrap_small, node_lengths_app by lia. cbn. lia.
  - split; [|split; [done|exists k; by rewrite app_nil_r]]. unfold buffer_ok. cbn [m_capacity m_nodes m_stored]. lia.
Qed.

(** *** CbfPacketBuffer *)
Implicit Types s : @CbfPacketBuffer P.
Definition lengths (l : list (nat * @CbfPacket P)) : Z := foldr (fun x acc => cbf_length x.2 + acc) 0 l.
Lemma lengths_cons x l : lengths (x :: l) = cbf_length x.2 + lengths l.
Proof. done. Qed.
Lemma lengths_app l1 l2 : lengths (l1 ++ l2) = lengths l1 + lengths l2.
Proof. induction l1 as [|x l IH]; [done|]. rewrite <- app_comm_cons, !lengths_cons, IH. lia. Qed.
Lemma lengths_nonneg l : 0 <= lengths l.
Proof. induction l as [|x l IH]; [done|]. rewrite lengths_cons. pose proof (length_range (cbf_packet x.2)). unfold cbf_length. lia. Qed.
Definition not_node {A} (f : A -> nat) (n : nat) (x : A) : bool := negb (Nat.eqb (f x) n).
Lemma filter_not_node {A} (f : A -> nat) n l : n ∉ f <$> l -> List.filter (not_node f n) l = l.
Proof.
  induction l as [|x l IH]; [done|]. cbn [fmap list_fmap List.filter]. rewrite not_elem_of_cons. intros [Hx Hl].
  unfold not_node at 1. destruct (Nat.eqb_spec (f x) n); [congruence|]. cbn. by rewrite IH.
Qed.
(** Without the node of one element, that element is gone and nothing else. *)
Lemma filter_one_node {A} (f : A -> nat) x l : NoDup (f <$> l) -> x ∈ l -> l ≡ₚ x :: List.filter (not_node f (f x)) l.
Proof.
  induction l as [|y l IH]; [by intros _ ?%not_elem_of_nil|]. cbn [fmap list_fmap List.filter]. intros [Hy Hl]%NoDup_cons [->|Hx]%elem_of_cons.
  - unfold not_node at 1. rewrite Nat.eqb_refl. cbn. by rewrite filter_not_node.
  - unfold not_node at 1. destruct (Nat.eqb_spec (f y) (f x)) as [He|He]; cbn.
    + exfalso. apply Hy. rewrite He. by apply list_elem_of_fmap_2.
    + rewrite Permutation_swap, <- IH; done.
Qed.
Lemma filter_nodes {A} (f : A -> nat) n l : f <$> List.filter (not_node f n) l = List.filter (not_node id n) (f <$> l).
Proof.
  induction l as [|x l IH]; [done|]. rewrite fmap_cons. cbn [List.filter].
  change (not_node id n (f x)) with (not_node f n x). destruct (not_node f n x); [rewrite fmap_cons|]; by rewrite IH.
Qed.
Lemma filter_elem {A} (p : A -> bool) l x : x ∈ List.filter p l <-> x ∈ l /\ p x = true.
Proof. by rewrite !list_elem_of_In, filter_In. Qed.
Lemma filter_bool_nodup {A} (p : A -> bool) l : NoDup l -> NoDup (List.filter p l).
Proof.
  induction l as [|x l IH]; [done|]. intros [Hx Hl]%NoDup_cons. cbn. destruct (p x); [|by apply IH].
  apply NoDup_cons. split; [|by apply IH]. by intros [? _]%filter_elem.
Qed.
#[export] Instance filter_bool_proper {A} (p : A -> bool) : Proper ((≡ₚ) ==> (≡ₚ)) (List.filter p).
Proof.
  intros l1 l2 H. induction H as [|x l1 l2 _ IH|x y l|l1 l2 l3 _ IH1 _ IH2]; cbn; [done| | |by etrans].
  - destruct (p x); by rewrite IH.
  - destruct (p x), (p y); by try apply Permutation_swap.
Qed.

Definition by_expiry : list cbf_timer -> Prop := StronglySorted (fun a b => timer_expiry a <= timer_expiry b).
Record cbf_wf s : Prop := {
  cbf_capacity : 0 <= m_capacity_bytes s < 2 ^ 62;
  cbf_nodes : timer_node <$> m_timers s ≡ₚ fst <$> m_packets s;
  cbf_nodup : NoDup (fst <$> m_packets s);
  cbf_made : Forall (fun n => (n < nodes_made s)%nat) (fst <$> m_packets s);
  cbf_ids : NoDup (timer_id <$> m_timers s);
  cbf_refs : forall t, t ∈ m_timers s -> exists c, (timer_node t, c) ∈ m_packets s /\ identifier (cbf_packet c) = timer_id t;
  cbf_sorted : by_expiry (m_timers s);
  cbf_stored : m_stored_bytes s = lengths (m_packets s);
  cbf_bounded : m_stored_bytes s <= m_capacity_bytes s \/ (length (m_packets s) <= 1)%nat
}.
(** The runtime calls back before a packet is overdue. *)
Definition alarmed s : Prop := forall t, t ∈ m_timers s -> exists a, alarm s = Some a /\ a <= timer_expiry t.
Lemma cbf_timer_nodes s : cbf_wf s -> NoDup (timer_node <$> m_timers s).
Proof. intros W. rewrite (cbf_nodes s W). apply W. Qed.
Lemma cbf_sizes s : cbf_wf s -> sizes_agree s = true.
Proof. intros W. apply Nat.eqb_eq. by rewrite <- (length_fmap fst (m_packets s)), <- (cbf_nodes s W), length_fmap. Qed.
Lemma find_node n c l : NoDup (fst <$> l) -> (n, c) ∈ l -> List.find (fun x : nat * @CbfPacket P => Nat.eqb x.1 n) l = Some (n, c).
Proof.
  induction l as [|x l IH]; [by intros _ ?%not_elem_of_nil|]. cbn [fmap list_fmap]. intros [Hx Hl]%NoDup_cons [<-|Hc]%elem_of_cons; cbn.
  - by rewrite Nat.eqb_refl.
  - destruct (Nat.eqb_spec (x.1) n) as [He|He]; [|by apply IH]. exfalso. apply Hx. rewrite He. by apply (list_elem_of_fmap_2 fst _ (n, c)).
Qed.
Lemma packet_of_spec s t : cbf_wf s -> t ∈ m_timers s -> exists c, packet_of (timer_node t) s = Some c /\
  (timer_node t, c) ∈ m_packets s /\ identifier (cbf_packet c) = timer_id t.
Proof.
  intros W Ht. destruct (cbf_refs s W t Ht) as (c & Hc & Hid). exists c. split; [|done]. unfold packet_of. by rewrite (find_node _ c (m_packets s) (cbf_nodup s W) Hc).
Qed.
Lemma find_timer_spec id s : cbf_wf s ->
  match find_timer id s with Some t => t ∈ m_timers s /\ timer_id t = id | None => id ∉ timer_id <$> m_timers s end.
Proof.
  intros W. unfold find_timer. destruct (List.find _ (m_timers s)) as [t|] eqn:Hf.
  - apply find_some in Hf as [Ht Hid]. apply bool_decide_eq_true in Hid. by rewrite list_elem_of_In.
  - intros (t & -> & Ht)%list_elem_of_fmap. apply list_elem_of_In in Ht. pose proof (find_none _ _ Hf t Ht) as Hn. cbn in Hn.
    by rewrite bool_decide_eq_false in Hn.
Qed.
Lemma erase_wf s t c : cbf_wf s -> t ∈ m_timers s -> (timer_node t, c) ∈ m_packets s ->
  let s' := erase t (cbf_length c) s in
  cbf_wf s' /\ m_timers s ≡ₚ t :: m_timers s' /\ m_packets s ≡ₚ (timer_node t, c) :: m_packets s'.
Proof.
  intros W Ht Hc s'.
  assert (Hp : m_packets s ≡ₚ (timer_node t, c) :: m_packets s').
  { apply (filter_one_node fst (timer_node t, c)); [apply W|done]. }
  assert (Htm : m_timers s ≡ₚ t :: m_timers s').
  { apply (filter_one_node timer_node t); [by apply cbf_timer_nodes|done]. }
  assert (Hsub : forall x, x ∈ m_timers s' -> x ∈ m_timers s) by (by intros x [? _]%filter_elem).
  assert (Hlen : lengths (m_packets s) = cbf_length c + lengths (m_packets s')).
  { assert (Hperm : forall l1 l2, l1 ≡ₚ l2 -> lengths l1 = lengths l2).
    { intros l1 l2 H. induction H; rewrite ?lengths_cons; congruence || lia. }
    by rewrite (Hperm _ _ Hp), lengths_cons. }
  pose proof (lengths_nonneg (m_packets s')). pose proof (length_range (cbf_packet c) : 0 <= cbf_length c < 2 ^ 62).
  assert (Hst : m_stored_bytes s' = lengths (m_packets s')).
  { cbn [m_stored_bytes s' erase]. rewrite (cbf_stored s W), Hlen. unfold u64. rewrite wrap_small; [lia|].
    split; [lia|]. pose proof (cbf_capacity s W). destruct (cbf_bounded s W) as [Hb|Hb]; [rewrite (cbf_stored s W) in Hb; lia|].
    rewrite Hp in Hb. destruct (m_packets s') as [|y l] eqn:Hnil; [cbn [lengths foldr]; lia|cbn in Hb; lia]. }
  split; [|done]. split; try done.
  - apply W.
  - pose proof (cbf_nodes s W) as Hn. rewrite Htm, Hp in Hn. cbn in Hn. by apply Permutation_cons_inv in Hn.
  - pose proof (cbf_nodup s W) as Hn. rewrite Hp in Hn. by apply NoDup_cons in Hn as [_ ?].
  - pose proof (cbf_made s W) as Hn. rewrite Hp in Hn. by apply Forall_cons in Hn as [_ ?].
  - pose proof (cbf_ids s W) as Hn. rewrite Htm in Hn. by apply NoDup_cons in Hn as [_ ?].
  - intros x Hx. destruct (cbf_refs s W x (Hsub x Hx)) as (c' & Hc' & Hid). exists c'. split; [|done].
    apply filter_elem. split; [done|]. cbn. apply filter_elem in Hx as [_ Hx]. done.
  - pose proof (cbf_sorted s W) as Hs. cbn [m_timers s' erase]. clear -Hs. induction Hs as [|x l Hl IH Hx]; cbn; [constructor|].
    destruct (negb _); [|done]. constructor; [done|]. rewrite Forall_forall in *. intros y [Hy _]%filter_elem. by apply Hx.
  - rewrite Hst. pose proof (cbf_bounded s W) as [Hb|Hb]; [left|right].
    + rewrite (cbf_stored s W) in Hb. change (m_capacity_bytes s') with (m_capacity_bytes s). lia.
    + rewrite Hp in Hb. rewrite length_cons in Hb. lia.
Qed.
Lemma erase_alarmed s t n : alarmed s -> alarmed (erase t n s).
Proof. intros H x [Hx _]%filter_elem. by apply H. Qed.
Lemma with_alarm_wf a s : cbf_wf s -> cbf_wf (with_alarm a s).
Proof. intros []. by split. Qed.
Lemma reschedule_after_spec first s : cbf_wf s -> first = true \/ alarmed s ->
  exists a, reschedule_after first s = Ok (with_alarm a s) /\ alarmed (with_alarm a s).
Proof.
  intros W Hf. unfold reschedule_after, schedule_timer. pose proof (cbf_sorted s W) as Hs. unfold by_expiry in Hs.
  assert (Hsame : with_alarm (alarm s) s = s) by (by destruct s).
  destruct (m_timers s) as [|t l] eqn:Ht; [exists (alarm s); rewrite Hsame; split; [done|]; intros x; rewrite Ht; by intros ?%not_elem_of_nil|].
  destruct first.
  - exists (Some (timer_expiry t)). split; [done|]. intros x Hx. cbn in Hx. exists (timer_expiry t). split; [done|].
    rewrite Ht in Hx. apply elem_of_cons in Hx as [->|Hx]; [lia|]. apply StronglySorted_inv in Hs as [_ Hs]. rewrite Forall_forall in Hs. by apply Hs.
  - destruct Hf as [|Hf]; [done|]. exists (alarm s). by rewrite Hsame.
Qed.
Lemma timer_of_node s n c : cbf_wf s -> (n, c) ∈ m_packets s -> exists t, t ∈ m_timers s /\ timer_node t = n /\ timer_id t = identifier (cbf_packet c).
Proof.
  intros W Hc. assert (n ∈ timer_node <$> m_timers s) as (t & -> & Ht)%list_elem_of_fmap.
  { rewrite (cbf_nodes s W). by apply (list_elem_of_fmap_2 fst _ (n, c)). }
  exists t. split; [done|]. split; [done|]. destruct (cbf_refs s W t Ht) as (c' & Hc' & Hid). rewrite <- Hid.
  assert ((timer_node t, c') = (timer_node t, c)) as [= ->]; [|done].
  by apply (NoDup_fmap_inj_in fst (m_packets s)); [apply W|..].
Qed.
Lemma head_drop_spec len l : forall s, cbf_wf s -> m_packets s = l ->
  exists s', head_drop (m_capacity_bytes s) l (m_timers s) (u64 (m_stored_bytes s + len)) =
      (m_packets s', m_timers s', u64 (m_stored_bytes s' + len)) /\
    cbf_wf s' /\ alarm s' = alarm s /\ nodes_made s' = nodes_made s /\ m_capacity_bytes s' = m_capacity_bytes s /\
    (forall x, x ∈ m_packets s' -> x ∈ l) /\ (forall t, t ∈ m_timers s' -> t ∈ m_timers s) /\
    (m_packets s' = [] \/ u64 (m_stored_bytes s' + len) <= m_capacity_bytes s).
Proof.
  induction l as [|[n c] l IH]; intros s W Hl; cbn [head_drop].
  { exists s. rewrite Hl. by split_and!; try done; left. }
  destruct (Z.ltb_spec (m_capacity_bytes s) (u64 (m_stored_bytes s + len))) as [Hlt|Hle].
  2: { exists s. rewrite Hl. by split_and!; try done; right. }
  destruct (timer_of_node s n c W) as (t & Ht & Hn & Hid); [rewrite Hl; left|].
  destruct (erase_wf s t c W Ht) as (W1 & Htm & Hp); [rewrite Hn, Hl; left|].
  set (s1 := erase t (cbf_length c) s) in *.
  assert (Hp1 : m_packets s1 = l).
  { cbn. rewrite Hl, Hn. cbn [List.filter fst]. rewrite Nat.eqb_refl. cbn [negb].
    pose proof (cbf_nodup s W) as Hnd. rewrite Hl in Hnd. apply NoDup_cons in Hnd as [Hnd _]. by apply (filter_not_node fst). }
  assert (Ht1 : List.filter (fun u => negb (bool_decide (timer_id u = identifier (cbf_packet c)))) (m_timers s) = m_timers s1).
  { cbn. apply List.filter_ext_in. intros u Hu%list_elem_of_In. rewrite <- Hid. f_equal. case_bool_decide as Hx.
    - rewrite (NoDup_fmap_inj_in timer_id _ u t (cbf_ids s W) Hu Ht Hx). by rewrite Nat.eqb_refl.
    - destruct (Nat.eqb_spec (timer_node u) (timer_node t)) as [He|He]; [|done].
      by rewrite (NoDup_fmap_inj_in timer_node _ u t (cbf_timer_nodes s W) Hu Ht He) in Hx. }
  assert (Hs1 : u64 (u64 (m_stored_bytes s + len) - cbf_length c) = u64 (m_stored_bytes s1 + len)).
  { cbn. unfold u64, wrap. rewrite Zminus_mod_idemp_l, Zplus_mod_idemp_l. f_equal. lia. }
  cbn [snd]. rewrite Ht1, Hs1. destruct (IH s1 W1 Hp1) as (s' & Hh & W' & Ha & Hm & Hc & Hsub & Hts & Hend).
  change (m_capacity_bytes s1) with (m_capacity_bytes s) in *. exists s'. split; [done|]. split; [done|]. split; [done|]. split; [done|]. split; [done|].
  split; [intros x Hx; right; by apply Hsub|]. split; [|done]. intros u Hu%Hts. cbn in Hu. by apply filter_elem in Hu as [? _].
Qed.
Lemma insert_timer_perm t l : insert_timer t l ≡ₚ t :: l.
Proof. induction l as [|x l IH]; cbn; [done|]. destruct (_ <? _); [done|]. by rewrite IH, Permutation_swap. Qed.
Lemma insert_timer_sorted t l : by_expiry l -> by_expiry (insert_timer t l).
Proof.
  induction 1 as [|x l Hl IH Hx]; cbn; [repeat constructor|]. destruct (Z.ltb_spec (timer_expiry t) (timer_expiry x)) as [H|H].
  - constructor; [by constructor|]. constructor; [lia|]. eapply Forall_impl; [exact Hx|]. cbn. lia.
  - constructor; [done|]. rewrite insert_timer_perm. by constructor.
Qed.
(** The buffer with one more packet, which has a timer of its own. *)
Definition joined (now : time_point) (c : @CbfPacket P) (timeout : Z) s : @CbfPacketBuffer P :=
  mkCbfBuffer (m_packets s ++ [(nodes_made s, c)])
    (insert_timer (mkTimer (now + timeout) now (identifier (cbf_packet c)) (nodes_made s)) (m_timers s))
    (m_capacity_bytes s) (u64 (m_stored_bytes s + cbf_length c)) (S (nodes_made s)) (alarm s).
Lemma joined_stored now c timeout s : cbf_wf s -> m_stored_bytes (joined now c timeout s) = m_stored_bytes s + cbf_length c.
Proof.
  intros W. pose proof (length_range (cbf_packet c) : 0 <= cbf_length c < 2 ^ 62) as Hlc. pose proof (lengths_nonneg (m_packets s)) as Hl.
  cbn. unfold u64. apply wrap_small. rewrite (cbf_stored s W). split; [lia|].
  pose proof (cbf_capacity s W). destruct (cbf_bounded s W) as [Hb|Hb]; [rewrite (cbf_stored s W) in Hb; lia|].
  destruct (m_packets s) as [|x [|y l]] eqn:Hp; cbn [length] in Hb;
    [|rewrite lengths_cons; pose proof (length_range (cbf_packet x.2) : 0 <= cbf_length x.2 < 2 ^ 62)|lia]; cbn [lengths foldr]; lia.
Qed.
Lemma joined_wf now c timeout s : cbf_wf s -> identifier (cbf_packet c) ∉ timer_id <$> m_timers s ->
  m_packets s = [] \/ u64 (m_stored_bytes s + cbf_length c) <= m_capacity_bytes s -> cbf_wf (joined now c timeout s).
Proof.
  intros W Hid Hend. pose proof (joined_stored now c timeout s W) as Hst.
  assert (Hnew : nodes_made s ∉ fst <$> m_packets s).
  { intros Hin. pose proof (cbf_made s W) as Hmade. rewrite Forall_forall in Hmade. apply Hmade in Hin. lia. }
  split; cbn [m_capacity_bytes m_timers m_packets nodes_made joined].
  - apply W.
  - rewrite insert_timer_perm, fmap_app. cbn. by rewrite <- Permutation_cons_append, (cbf_nodes s W).
  - rewrite fmap_app. apply NoDup_app. split; [apply W|]. split; [|apply NoDup_singleton].
    intros n Hn ->%list_elem_of_singleton. done.
  - rewrite fmap_app. apply Forall_app. split; [|by repeat constructor]. eapply Forall_impl; [apply W|]. intros n Hn. cbn in Hn. lia.
  - rewrite insert_timer_perm. cbn. apply NoDup_cons. split; [done|apply W].
  - intros u. rewrite insert_timer_perm. intros [->|Hu]%elem_of_cons.
    + exists c. split; [|done]. apply elem_of_app. right. left.
    + destruct (cbf_refs s W u Hu) as (c' & ? & ?). exists c'. split; [|done]. apply elem_of_app. by left.
  - apply insert_timer_sorted, W.
  - rewrite Hst, (cbf_stored s W), lengths_app. cbn. lia.
  - rewrite Hst. destruct Hend as [He|He]; [right; by rewrite He|left].
    change (u64 (m_stored_bytes s + cbf_length c)) with (m_stored_bytes (joined now c timeout s)) in He. lia.
Qed.
Lemma enqueue_spec now c timeout s : cbf_wf s -> alarmed s -> 0 < timeout ->
  match cbf_enqueue now c timeout s with
  | Ok s' =>
      let t := mkTimer (now + timeout) now (identifier (cbf_packet c)) (nodes_made s) in
      cbf_wf s' /\ alarmed s' /\ nodes_made s' = S (nodes_made s) /\ m_capacity_bytes s' = m_capacity_bytes s /\ (nodes_made s, c) ∈ m_packets s' /\ t ∈ m_timers s' /\
      (forall x, x ∈ m_packets s' -> x = (nodes_made s, c) \/ x ∈ m_packets s) /\ (forall u, u ∈ m_timers s' -> u = t \/ u ∈ m_timers s)
  | Fail f => f = StdException "Illegal insertion of duplicate CBF packet" /\ identifier (cbf_packet c) ∈ timer_id <$> m_timers s
  end.
Proof.
  intros W Ha Ht. unfold cbf_enqueue. destruct (Z.leb_spec timeout 0); [lia|].
  destruct (head_drop_spec (cbf_length c) (m_packets s) s W eq_refl) as (s1 & -> & W1 & Hal & Hm & Hcap & Hsub & Hts & Hend).
  set (t := mkTimer (now + timeout) now (identifier (cbf_packet c)) (nodes_made s)).
  destruct (existsb _ (m_timers s1)) eqn:Hex.
  { split; [done|]. apply existsb_exists in Hex as (u & Hu & Hid). apply bool_decide_eq_true in Hid. rewrite <- Hid.
    apply list_elem_of_fmap_2, Hts. by apply list_elem_of_In. }
  assert (Hid : identifier (cbf_packet c) ∉ timer_id <$> m_timers s1).
  { intros (u & Hi & Hu)%list_elem_of_fmap. apply not_true_iff_false in Hex. apply Hex, existsb_exists. exists u.
    split; [by apply list_elem_of_In|]. by apply bool_decide_eq_true. }
  pose proof (joined_wf now c timeout s1 W1 Hid) as W2. rewrite Hcap in W2. specialize (W2 Hend). unfold joined in W2. rewrite Hal, Hm, Hcap in W2. fold t in W2.
  set (s2 := mkCbfBuffer _ _ _ _ _ _) in *.
  assert (Htimer : t ∈ m_timers s2) by (cbn; rewrite insert_timer_perm; left).
  assert (exists a, (if was_first t s2 then schedule_timer s2 else Ok s2) = Ok (with_alarm a s2) /\ alarmed (with_alarm a s2)) as (a & -> & Ha2).
  { assert (Hre : reschedule_after (was_first t s2) s2 = if was_first t s2 then schedule_timer s2 else Ok s2).
    { unfold reschedule_after. destruct (m_timers s2) eqn:Hn; [|done]. by apply not_elem_of_nil in Htimer. }
    rewrite <- Hre. apply reschedule_after_spec; [done|]. destruct (was_first t s2) eqn:Hf; [by left|right].
    intros u Hu. cbn [m_timers s2] in Hu. rewrite insert_timer_perm in Hu. change (alarm s2) with (alarm s).
    assert (Hold : forall v, v ∈ m_timers s1 -> exists a, alarm s = Some a /\ a <= timer_expiry v) by (intros v Hv; by apply Ha, Hts).
    apply elem_of_cons in Hu as [->|Hu]; [|by apply Hold].
    unfold was_first in Hf. cbn [m_timers s2] in Hf. destruct (m_timers s1) as [|v l] eqn:Hv; cbn [insert_timer] in Hf; [cbn in Hf; by rewrite Nat.eqb_refl in Hf|].
    destruct (Z.ltb_spec (timer_expiry t) (timer_expiry v)); [cbn in Hf; by rewrite Nat.eqb_refl in Hf|].
    destruct (Hold v) as (a & Haa & Hle); [left|]. exists a. split; [done|lia]. }
  cbn [mbind res_bind]. rewrite (cbf_sizes _ (with_alarm_wf a s2 W2)). cbn [assert_ mbind res_bind].
  split; [by apply with_alarm_wf|]. split; [done|]. split; [done|]. split; [done|]. cbn [m_packets m_timers with_alarm s2]. split; [apply elem_of_app; right; left|].
  split; [done|]. split.
  - intros x [Hx| ->%list_elem_of_singleton]%elem_of_app; [right; by apply Hsub|by left].
  - intros u. rewrite insert_timer_perm. intros [->|Hu]%elem_of_cons; [by left|right; by apply Hts].
Qed.
Lemma removal_spec s t c : cbf_wf s -> alarmed s -> t ∈ m_timers s -> (timer_node t, c) ∈ m_packets s ->
  exists a, let s' := with_alarm a (erase t (cbf_length c) s) in
    reschedule_after (was_first t s) (erase t (cbf_length c) s) = Ok s' /\ cbf_wf s' /\ alarmed s' /\
    m_timers s ≡ₚ t :: m_timers s' /\ m_packets s ≡ₚ (timer_node t, c) :: m_packets s'.
Proof.
  intros W Ha Ht Hc. destruct (erase_wf s t c W Ht Hc) as (W1 & Htm & Hp).
  destruct (reschedule_after_spec (was_first t s) _ W1) as (a & Hr & Ha'); [right; by apply erase_alarmed|].
  exists a. split; [done|]. split; [by apply with_alarm_wf|]. by split.
Qed.
(** Whether the packet of a timer is still valid when the timer ends. *)
Definition valid_at (now : time_point) s (t : cbf_timer) : bool :=
  match packet_of (timer_node t) s with Some c => (cbf_reduce unspecified now t c).1 | None => false end.
Lemma cbf_reduce_same now t c : identifier (cbf_packet (cbf_reduce unspecified now t c).2) = identifier (cbf_packet c) /\
  cbf_length (cbf_reduce unspecified now t c).2 = cbf_length c.
Proof.
  unfold cbf_reduce, cbf_length. pose proof (reduce_lifetime_same (now - timer_start t) (cbf_packet c)) as [? ?].
  by destruct (reduce_lifetime _ _ _).
Qed.
Lemma flush_fold_spec now l : forall out s, cbf_wf s -> NoDup (timer_node <$> l) -> (forall t, t ∈ l -> t ∈ m_timers s) ->
  exists out' s', res_fold (flush_step unspecified now) l (out, s) = Ok (out ++ out', s') /\ cbf_wf s' /\
    m_timers s ≡ₚ l ++ m_timers s' /\ (nodes_made s' = nodes_made s /\ m_capacity_bytes s' = m_capacity_bytes s) /\
    identifier <$> out' = timer_id <$> List.filter (valid_at now s) l.
Proof.
  induction l as [|t l IH]; intros out s W Hnd Hl; cbn [res_fold].
  { exists [], s. rewrite app_nil_r. by split_and!. }
  assert (Ht : t ∈ m_timers s) by (apply Hl; left). cbn in Hnd. apply NoDup_cons in Hnd as [Htl Hnd].
  destruct (packet_of_spec s t W Ht) as (c & Hpk & Hc & Hid). 
  pose proof (cbf_reduce_same now t c) as [Hri Hrl]. destruct (cbf_reduce unspecified now t c) as [valid c'] eqn:Hred. cbn [fst snd] in *.
  assert (flush_step unspecified now (out, s) t = Ok (if valid then out ++ [cbf_packet c'] else out, erase t (cbf_length c) s)) as ->.
  { unfold flush_step. cbn [fst snd]. by rewrite Hpk, Hred, Hrl. }
  destruct (erase_wf s t c W Ht Hc) as (W1 & Htm & Hp). set (s1 := erase t (cbf_length c) s) in *. cbn [mbind res_bind].
  assert (Hne : forall u, u ∈ l -> timer_node u <> timer_node t).
  { intros u Hu He. apply Htl. rewrite <- He. by apply list_elem_of_fmap_2. }
  assert (Hl1 : forall u, u ∈ l -> u ∈ m_timers s1).
  { intros u Hu. assert (Hin : u ∈ m_timers s) by (apply Hl; by right). rewrite Htm in Hin. apply elem_of_cons in Hin as [->|]; [|done].
    by destruct (Hne t Hu). }
  destruct (IH (if valid then out ++ [cbf_packet c'] else out) s1 W1 Hnd Hl1) as (out' & s' & Hf & W' & Htm' & Hm & Hout).
  assert (Hsame : List.filter (valid_at now s) l = List.filter (valid_at now s1) l).
  { apply List.filter_ext_in. intros u Hu%list_elem_of_In. unfold valid_at.
    destruct (packet_of_spec s1 u W1 (Hl1 u Hu)) as (cu & -> & Hcu & _).
    destruct (packet_of_spec s u W) as (cu' & -> & Hcu' & _); [apply Hl; by right|].
    assert ((timer_node u, cu') = (timer_node u, cu)) as [= ->]; [|done].
    apply (NoDup_fmap_inj_in fst (m_packets s)); [apply W|done| |done]. rewrite Hp. by right. }
  assert (Hv : valid_at now s t = valid) by (unfold valid_at; by rewrite Hpk, Hred).
  exists (if valid then cbf_packet c' :: out' else out'), s'. split; [rewrite Hf; destruct valid; by rewrite <- ?app_assoc|].
  split; [done|]. split; [by rewrite Htm, Htm'|]. split; [done|]. cbn [List.filter]. rewrite Hv, Hsame.
  destruct valid; cbn; [|done]. rewrite Hout. f_equal. by rewrite Hri.
Qed.
Lemma due_spec now s t : t ∈ due_timers now s <-> t ∈ m_timers s /\ timer_expiry t <= now.
Proof. unfold due_timers. by rewrite filter_elem, Z.leb_le. Qed.
Lemma filter_nodup_fmap {A B} (f : A -> B) (p : A -> bool) l : NoDup (f <$> l) -> NoDup (f <$> List.filter p l).
Proof.
  induction l as [|x l IH]; [done|]. cbn [fmap list_fmap List.filter]. intros [Hx Hl]%NoDup_cons. destruct (p x); [|by apply IH].
  apply NoDup_cons. split; [|by apply IH]. intros (y & Hy & [Hin _]%filter_elem)%list_elem_of_fmap. apply Hx. rewrite Hy. by apply list_elem_of_fmap_2.
Qed.
Lemma flush_spec now s : cbf_wf s ->
  exists sent s', cbf_flush unspecified now s = Ok (sent, s') /\ cbf_wf s' /\ alarmed s' /\ (nodes_made s' = nodes_made s /\ m_capacity_bytes s' = m_capacity_bytes s) /\
    m_timers s ≡ₚ due_timers now s ++ m_timers s' /\ (forall t, t ∈ m_timers s' -> now < timer_expiry t) /\
    identifier <$> sent = timer_id <$> List.filter (valid_at now s) (due_timers now s).
Proof.
  intros W. unfold cbf_flush. pose proof (cbf_timer_nodes s W) as Hnd.
  destruct (flush_fold_spec now (due_timers now s) [] s W) as (sent & s1 & -> & W1 & Htm & Hm & Hout).
  { by apply filter_nodup_fmap. } { by intros t [? _]%due_spec. }
  cbn [mbind res_bind fst snd app]. destruct (reschedule_after_spec true s1 W1) as (a & -> & Ha); [by left|]. cbn [mbind res_bind].
  exists sent, (with_alarm a s1). split; [done|]. split; [by apply with_alarm_wf|]. split; [done|]. split; [done|]. split; [done|]. split; [|done].
  intros t Ht. destruct (Z.lt_ge_cases now (timer_expiry t)) as [|Hle]; [done|]. exfalso. cbn in Ht.
  assert (Hd : t ∈ due_timers now s) by (apply due_spec; split; [rewrite Htm; apply elem_of_app; by right|done]).
  rewrite Htm, fmap_app in Hnd. apply NoDup_app in Hnd as (_ & Hdis & _). apply (Hdis (timer_node t)); by apply list_elem_of_fmap_2.
Qed.

(** ** Histories of the contention buffer

    The runtime calls back at the time it was asked for and lets nothing happen later before;
    what becomes of each packet is recorded under the node that held it. *)
Inductive cbf_event :=
| Enqueue (now : time_point) (packet : @CbfPacket P) (timeout : Z)
| TryDrop (now : time_point) (id : Address * SequenceNumber)
| Fetch (now : time_point) (id : Address * SequenceNumber)
| Callback (now : time_point).
Inductive fate := Transmitted | LifetimeOver | Overheard | FetchedBack | Evicted.
Record departure := mkDeparture { dep_node : nat; dep_id : Address * SequenceNumber; dep_time : time_point; dep_fate : fate }.
Record cbf_history := mkHistory {
  h_buffer : @CbfPacketBuffer P;
  h_clock : time_point;
  h_entered : list (nat * ((Address * SequenceNumber) * time_point));
  h_left : list departure;
  h_sent : list P
}.
Definition event_time (e : cbf_event) : time_point :=
  match e with Enqueue now _ _ | TryDrop now _ | Fetch now _ | Callback now => now end.
Definition legal (h : cbf_history) (e : cbf_event) : Prop :=
  h_clock h <= event_time e /\ (forall a, alarm (h_buffer h) = Some a -> event_time e <= a) /\
  match e with Callback now => alarm (h_buffer h) = Some now | _ => True end.
Definition gone (before after : list (nat * @CbfPacket P)) : list (nat * @CbfPacket P) :=
  List.filter (fun x => negb (existsb (Nat.eqb x.1) (fst <$> after))) before.
Definition departures (now : time_point) (f : fate) (before after : @CbfPacketBuffer P) : list departure :=
  (fun x => mkDeparture x.1 (identifier (cbf_packet x.2)) now f) <$> gone (m_packets before) (m_packets after).
Definition ended (now : time_point) (b : @CbfPacketBuffer P) (t : cbf_timer) : departure :=
  mkDeparture (timer_node t) (timer_id t) now (if valid_at now b t then Transmitted else LifetimeOver).
Definition cbf_step (h : cbf_history) (e : cbf_event) : res cbf_history :=
  let b := h_buffer h in
  match e with
  | Enqueue now c timeout =>
      b' ← cbf_enqueue now c timeout b;
      Ok (mkHistory b' now
            (if timeout <=? 0 then h_entered h else h_entered h ++ [(nodes_made b, (identifier (cbf_packet c), now + timeout))])
            (h_left h ++ departures now Evicted b b') (h_sent h))
  | TryDrop now id =>
      x ← try_drop id b;
      let '(_, b') := x : bool * _ in
      Ok (mkHistory b' now (h_entered h) (h_left h ++ departures now Overheard b b') (h_sent h))
  | Fetch now id =>
      x ← cbf_fetch unspecified now id b;
      let '(_, b') := x : option CbfPacket * _ in
      Ok (mkHistory b' now (h_entered h) (h_left h ++ departures now FetchedBack b b') (h_sent h))
  | Callback now =>
      let b := with_alarm None b in
      x ← cbf_flush unspecified now b;
      let '(sent, b') := x : list P * _ in
      Ok (mkHistory b' now (h_entered h) (h_left h ++ (ended now b <$> due_timers now b)) (h_sent h ++ sent))
  end.
Inductive cbf_reach (bytes : Z) : cbf_history -> Prop :=
| cbf_start now : cbf_reach bytes (mkHistory (cbf_create bytes) now [] [] [])
| cbf_event_step h e h' : cbf_reach bytes h -> legal h e -> cbf_step h e = Ok h' -> cbf_reach bytes h'.

Definition transmitted_ids (l : list departure) : list (Address * SequenceNumber) :=
  dep_id <$> List.filter (fun d => match dep_fate d with Transmitted => true | _ => false end) l.
Definition by_timer (f : fate) : Prop := match f with Transmitted | LifetimeOver => True | _ => False end.
Record history_ok (bytes : Z) (h : cbf_history) : Prop := {
  ok_capacity : m_capacity_bytes (h_buffer h) = bytes;
  ok_wf : cbf_wf (h_buffer h);
  ok_alarmed : alarmed (h_buffer h);
  ok_made : Forall (fun n => (n < nodes_made (h_buffer h))%nat) (fst <$> h_entered h);
  ok_once : NoDup (fst <$> h_entered h);
  ok_accounts : fst <$> h_entered h ≡ₚ (fst <$> m_packets (h_buffer h)) ++ (dep_node <$> h_left h);
  ok_waiting : forall t, t ∈ m_timers (h_buffer h) -> (timer_node t, (timer_id t, timer_expiry t)) ∈ h_entered h /\ h_clock h <= timer_expiry t;
  ok_on_time : forall d, d ∈ h_left h -> by_timer (dep_fate d) -> (dep_node d, (dep_id d, dep_time d)) ∈ h_entered h;
  ok_sent : identifier <$> h_sent h = transmitted_ids (h_left h)
}.
Lemma transmitted_app l1 l2 : transmitted_ids (l1 ++ l2) = transmitted_ids l1 ++ transmitted_ids l2.
Proof. unfold transmitted_ids. by rewrite List.filter_app, fmap_app. Qed.
Lemma not_transmitted now f b b' : ~ by_timer f -> transmitted_ids (departures now f b b') = [].
Proof.
  unfold transmitted_ids, departures. intros Hf. induction (gone _ _) as [|x l IH]; [done|]. cbn. destruct f; done || (by destruct Hf).
Qed.
Lemma ended_ids now b l : transmitted_ids (ended now b <$> l) = timer_id <$> List.filter (valid_at now b) l.
Proof.
  unfold transmitted_ids. induction l as [|t l IH]; [done|]. cbn. destruct (valid_at now b t); cbn; by rewrite IH.
Qed.
Lemma nodes_split (l l' : list nat) : NoDup l -> NoDup l' -> (forall x, x ∈ l' -> x ∈ l) ->
  l ≡ₚ List.filter (fun n => negb (existsb (Nat.eqb n) l')) l ++ l'.
Proof.
  intros Hl Hl' Hsub. assert (Hex : forall n, existsb (Nat.eqb n) l' = true <-> n ∈ l').
  { intros n. rewrite existsb_exists. split; [intros (x & Hx & ->%Nat.eqb_eq); by apply list_elem_of_In|].
    intros Hn. exists n. split; [by apply list_elem_of_In|by apply Nat.eqb_eq]. }
  apply NoDup_Permutation; [done| |].
  - apply NoDup_app. split; [by apply filter_bool_nodup|]. split; [|done]. intros x [_ Hx]%filter_elem Hin.
    apply Hex in Hin. by rewrite Hin in Hx.
  - intros x. rewrite elem_of_app, filter_elem. split; [|intros [[? _]|?]; auto]. intros Hx.
    destruct (existsb (Nat.eqb x) l') eqn:He; [right; by apply Hex|by left].
Qed.
Lemma gone_nodes (before after : list (nat * @CbfPacket P)) :
  fst <$> gone before after = List.filter (fun n => negb (existsb (Nat.eqb n) (fst <$> after))) (fst <$> before).
Proof.
  unfold gone. induction before as [|x l IH]; [done|]. rewrite fmap_cons. cbn [List.filter]. destruct (negb _); [rewrite fmap_cons|]; by rewrite IH.
Qed.
Lemma departures_nodes now f b b' : dep_node <$> departures now f b b' = fst <$> gone (m_packets b) (m_packets b').
Proof. unfold departures. rewrite <- list_fmap_compose. done. Qed.
Lemma departures_fate now f b b' d : d ∈ departures now f b b' -> dep_fate d = f.
Proof. unfold departures. by intros (x & -> & _)%list_elem_of_fmap. Qed.
(** Packets only leave. *)
Lemma account_removed (b b' : @CbfPacketBuffer P) now f : cbf_wf b -> cbf_wf b' ->
  (forall n, n ∈ fst <$> m_packets b' -> n ∈ fst <$> m_packets b) ->
  fst <$> m_packets b ≡ₚ (fst <$> m_packets b') ++ (dep_node <$> departures now f b b').
Proof.
  intros W W' Hsub. rewrite departures_nodes, gone_nodes. rewrite Permutation_app_comm. apply nodes_split; [apply W|apply W'|done].
Qed.
Lemma clock_before bytes h e : history_ok bytes h -> legal h e -> forall t, t ∈ m_timers (h_buffer h) -> event_time e <= timer_expiry t.
Proof. intros O (_ & Hle & _) t Ht. destruct (ok_alarmed bytes h O t Ht) as (a & Ha & Hat). specialize (Hle a Ha). lia. Qed.
(** An event after which some packets are left of those that were there. *)
Lemma removal_ok bytes h e b' f : history_ok bytes h -> legal h e -> ~ by_timer f -> cbf_wf b' -> alarmed b' ->
  nodes_made b' = nodes_made (h_buffer h) -> m_capacity_bytes b' = m_capacity_bytes (h_buffer h) ->
  (forall n, n ∈ fst <$> m_packets b' -> n ∈ fst <$> m_packets (h_buffer h)) -> (forall t, t ∈ m_timers b' -> t ∈ m_timers (h_buffer h)) ->
  history_ok bytes (mkHistory b' (event_time e) (h_entered h) (h_left h ++ departures (event_time e) f (h_buffer h) b') (h_sent h)).
Proof.
  intros O L Hf W' A' Hm Hcap Hp Ht. pose proof (clock_before bytes h e O L) as Hc. destruct O as [Cap W A M N Acc Wait On Sent].
  split; cbn [h_buffer h_clock h_entered h_left h_sent]; try done.
  - by rewrite Hcap.
  - by rewrite Hm.
  - rewrite Acc, fmap_app, (account_removed (h_buffer h) b' (event_time e) f W W' Hp), <- app_assoc. apply Permutation_app_head, Permutation_app_comm.
  - intros t Hin%Ht. split; [by apply Wait|by apply Hc].
  - intros d [Hd|Hd]%elem_of_app; [by apply On|]. apply departures_fate in Hd. by rewrite Hd.
  - by rewrite transmitted_app, not_transmitted, app_nil_r.
Qed.
Lemma nodes_of_perm (b b' : @CbfPacketBuffer P) n : m_packets b ≡ₚ n :: m_packets b' -> forall k, k ∈ fst <$> m_packets b' -> k ∈ fst <$> m_packets b.
Proof. intros Hp k. rewrite Hp. cbn. intros Hk. by right. Qed.
(** One packet more, and others may have been given up for it. *)
Lemma account_entered (b b' : @CbfPacketBuffer P) now c (expiry : time_point) (id : Address * SequenceNumber) (left : list departure) : cbf_wf b -> cbf_wf b' ->
  (nodes_made b, c) ∈ m_packets b' -> (forall x, x ∈ m_packets b' -> x = (nodes_made b, c) \/ x ∈ m_packets b) ->
  ((fst <$> m_packets b) ++ (dep_node <$> left)) ++ (fst <$> [(nodes_made b, (id, expiry))]) ≡ₚ
  (fst <$> m_packets b') ++ (dep_node <$> left) ++ (dep_node <$> departures now Evicted b b').
Proof.
  intros W W' Hin Hsub. rewrite departures_nodes, gone_nodes. set (n := nodes_made b) in *. cbn [fmap list_fmap fst].
  assert (Hn : n ∉ fst <$> m_packets b).
  { intros Hn. pose proof (cbf_made b W) as Hmade. rewrite Forall_forall in Hmade. apply Hmade in Hn. lia. }
  pose proof (nodes_split (n :: (fst <$> m_packets b)) (fst <$> m_packets b')) as Hs. cbn [List.filter] in Hs.
  replace (existsb (Nat.eqb n) (fst <$> m_packets b')) with true in Hs.
  2: { symmetry. apply existsb_exists. exists n. split; [|by apply Nat.eqb_eq]. apply list_elem_of_In. by apply (list_elem_of_fmap_2 fst (m_packets b') (n, c)). }
  cbn [negb] in Hs. rewrite <- Permutation_cons_append. rewrite app_comm_cons, Hs; [|by apply NoDup_cons; split; [done|apply W]|apply W'|].
  - rewrite (Permutation_app_comm (List.filter _ _)), <- app_assoc. apply Permutation_app_head, Permutation_app_comm.
  - intros k (x & -> & Hx)%list_elem_of_fmap. apply Hsub in Hx as [->|Hx]; [left|right]. by apply list_elem_of_fmap_2.
Qed.
Lemma cbf_step_ok bytes h e : history_ok bytes h -> legal h e ->
  match cbf_step h e with
  | Ok h' => history_ok bytes h' /\ h_clock h' = event_time e
  | Fail f => f = StdException "Illegal insertion of duplicate CBF packet" /\
      exists now c timeout, e = Enqueue now c timeout /\ identifier (cbf_packet c) ∈ timer_id <$> m_timers (h_buffer h)
  end.
Proof.
  intros O L. pose proof (clock_before bytes h e O L) as Hc. pose proof O as [Cap W A M N Acc Wait On Sent].
  destruct e as [now c timeout|now id|now id|now]; cbn [cbf_step event_time] in *.
  - destruct (Z.leb_spec timeout 0) as [Ht|Ht].
    { unfold cbf_enqueue. destruct (Z.leb_spec timeout 0); [|lia]. cbn [mbind res_bind].
      split; [|done]. by apply (removal_ok bytes h (Enqueue now c timeout) (h_buffer h) Evicted); try done; intros []. }
    pose proof (enqueue_spec now c timeout (h_buffer h) W A Ht) as He. destruct (cbf_enqueue now c timeout (h_buffer h)) as [b'|f]; cbn [mbind res_bind].
    2: { destruct He as [-> ?]. split; [done|]. by exists now, c, timeout. }
    destruct He as (W' & A' & Hm & Hcap & Hin & Htin & Hsub & Hts). split; [|done].
    assert (Hnew : nodes_made (h_buffer h) ∉ fst <$> h_entered h).
    { intros Hn. rewrite Forall_forall in M. apply M in Hn. lia. }
    split; cbn [h_buffer h_clock h_entered h_left h_sent]; try done.
    + by rewrite Hcap.
    + rewrite Hm, fmap_app. apply Forall_app. split; [eapply Forall_impl; [exact M|]; cbn; lia|]. repeat constructor.
    + rewrite fmap_app. apply NoDup_app. split; [done|]. split; [|apply NoDup_singleton]. by intros n Hn ->%list_elem_of_singleton.
    + rewrite !fmap_app, Acc. by apply account_entered with c.
    + intros t [->|Hin']%Hts; cbn; [split; [apply elem_of_app; right; left|lia]|].
      split; [apply elem_of_app; left; by apply Wait|by apply Hc].
    + intros d [Hd|Hd]%elem_of_app Hf; [apply elem_of_app; left; by apply On|]. apply departures_fate in Hd. by rewrite Hd in Hf.
    + by rewrite transmitted_app, not_transmitted, app_nil_r by (by intros []).
  - pose proof (find_timer_spec id (h_buffer h) W) as Hf. unfold try_drop. destruct (find_timer id (h_buffer h)) as [t|].
    + destruct Hf as [Ht _]. destruct (packet_of_spec _ t W Ht) as (c & -> & Hcin & _).
      destruct (removal_spec _ t c W A Ht Hcin) as (a & -> & W' & A' & Htm & Hp). cbn [mbind res_bind].
      rewrite (cbf_sizes _ W'). cbn [assert_ mbind res_bind]. split; [|done].
      apply (removal_ok bytes h (TryDrop now id)); try done; [by intros []|by eapply nodes_of_perm|].
      intros u Hu. rewrite Htm. by right.
    + rewrite (cbf_sizes _ W). cbn [assert_ mbind res_bind]. split; [|done]. apply (removal_ok bytes h (TryDrop now id)); try done. by intros [].
  - pose proof (find_timer_spec id (h_buffer h) W) as Hf. unfold cbf_fetch. destruct (find_timer id (h_buffer h)) as [t|].
    + destruct Hf as [Ht _]. destruct (packet_of_spec _ t W Ht) as (c & -> & Hcin & _).
      pose proof (cbf_reduce_same now t c) as [_ Hlen]. destruct (cbf_reduce unspecified now t c) as [valid c']. cbn [snd] in Hlen. rewrite Hlen.
      destruct (removal_spec _ t c W A Ht Hcin) as (a & -> & W' & A' & Htm & Hp). cbn [mbind res_bind]. split; [|done].
      apply (removal_ok bytes h (Fetch now id)); try done; [by intros []|by eapply nodes_of_perm|].
      intros u Hu. rewrite Htm. by right.
    + cbn [mbind res_bind]. split; [|done]. apply (removal_ok bytes h (Fetch now id)); try done. by intros [].
  - destruct (flush_spec now (with_alarm None (h_buffer h)) (with_alarm_wf None _ W)) as (sent & b' & -> & W' & A' & [Hm Hcap] & Htm & Hlater & Hids).
    cbn [mbind res_bind]. split; [|done]. set (b := with_alarm None (h_buffer h)) in *. change (m_timers (h_buffer h)) with (m_timers b) in *.
    split; cbn [h_buffer h_clock h_entered h_left h_sent]; try done.
    + by rewrite Hcap.
    + by rewrite Hm.
    + rewrite Acc, fmap_app. change (m_packets (h_buffer h)) with (m_packets b). rewrite <- (cbf_nodes b (with_alarm_wf None _ W)), Htm, fmap_app, (cbf_nodes b' W').
      rewrite <- list_fmap_compose. change (dep_node ∘ ended now b) with timer_node.
      rewrite (Permutation_app_comm (timer_node <$> _)), <- app_assoc. by rewrite (Permutation_app_comm (timer_node <$> _)).
    + intros t Ht. split; [apply Wait; rewrite Htm; apply elem_of_app; by right|]. specialize (Hlater t Ht). lia.
    + intros d [Hd|Hd]%elem_of_app; [by apply On|]. intros _. apply list_elem_of_fmap in Hd as (t & -> & Ht).
      apply due_spec in Ht as [Ht Hle]. cbn. pose proof (Hc t Ht). replace now with (timer_expiry t) by lia. by apply Wait.
    + by rewrite fmap_app, transmitted_app, Sent, ended_ids, Hids.
Qed.
Lemma cbf_reach_ok bytes h : 0 <= bytes < 2 ^ 62 -> cbf_reach bytes h -> history_ok bytes h.
Proof.
  intros Hb. induction 1 as [now|h e h' Hr IH L Hs].
  - split; cbn; try done; [|by intros t ?%not_elem_of_nil|constructor|by intros t ?%not_elem_of_nil|by intros t ?%not_elem_of_nil].
    split; cbn; try done; [constructor|constructor|by intros t ?%not_elem_of_nil|constructor|lia].
  - pose proof (cbf_step_ok bytes h e IH L) as Hok. rewrite Hs in Hok. apply Hok.
Qed.
(** What the events take out of the buffer: a packet overheard or fetched is the one asked for,
    and packets are given up only for one that does not fit. *)
Definition fate_fits (h : cbf_history) (e : cbf_event) (d : departure) : Prop :=
  match dep_fate d, e with
  | Overheard, TryDrop _ id | FetchedBack, Fetch _ id => dep_id d = id
  | Evicted, Enqueue _ c _ => m_capacity_bytes (h_buffer h) < lengths (m_packets (h_buffer h)) + cbf_length c
  | (Transmitted | LifetimeOver), Callback _ => True
  | _, _ => False
  end.
Definition asked_out (h' : cbf_history) (e : cbf_event) : Prop :=
  match e with TryDrop _ id | Fetch _ id => id ∉ timer_id <$> m_timers (h_buffer h') | _ => True end.
Lemma departed_one now f (b b' : @CbfPacketBuffer P) n c d : m_packets b ≡ₚ (n, c) :: m_packets b' -> NoDup (fst <$> m_packets b) ->
  d ∈ departures now f b b' -> d = mkDeparture n (identifier (cbf_packet c)) now f.
Proof.
  unfold departures, gone. intros Hp Hn (x & -> & [Hx Hg]%filter_elem)%list_elem_of_fmap. rewrite Hp in Hx, Hn.
  apply elem_of_cons in Hx as [->|Hx]; [done|]. exfalso. apply negb_true_iff, not_true_iff_false in Hg. apply Hg, existsb_exists.
  exists x.1. split; [|by apply Nat.eqb_eq]. apply list_elem_of_In. by apply list_elem_of_fmap_2.
Qed.
Lemma departed_none now f (b b' : @CbfPacketBuffer P) d : (forall x, x ∈ m_packets b -> x ∈ m_packets b') -> d ∉ departures now f b b'.
Proof.
  unfold departures, gone. intros Hs (x & -> & [Hx Hg]%filter_elem)%list_elem_of_fmap. apply negb_true_iff, not_true_iff_false in Hg.
  apply Hg, existsb_exists. exists x.1. split; [|by apply Nat.eqb_eq]. apply list_elem_of_In. by apply list_elem_of_fmap_2, Hs.
Qed.
(** Nothing is given up when the packet fits. *)
Lemma fitting_keeps now c timeout s s' : cbf_wf s -> cbf_enqueue now c timeout s = Ok s' ->
  lengths (m_packets s) + cbf_length c <= m_capacity_bytes s -> forall x, x ∈ m_packets s -> x ∈ m_packets s'.
Proof.
  intros W E Hfit x Hx. unfold cbf_enqueue in E. destruct (timeout <=? 0); [by apply Ok_inj in E as <-|].
  pose proof (joined_stored now c timeout s W) as Hst. cbn in Hst. rewrite Hst, (cbf_stored s W) in E.
  assert (head_drop (m_capacity_bytes s) (m_packets s) (m_timers s) (lengths (m_packets s) + cbf_length c) =
    (m_packets s, m_timers s, lengths (m_packets s) + cbf_length c)) as Hh.
  { destruct (m_packets s) as [|y l]; [done|]. cbn [head_drop]. by rewrite (proj2 (Z.ltb_ge _ _) Hfit). }
  rewrite Hh in E. destruct (existsb _ _); [done|]. set (s1 := mkCbfBuffer _ _ _ _ _ _) in E.
  assert (forall s2, schedule_timer s1 = Ok s2 -> m_packets s2 = m_packets s1) as Hsch.
  { intros s2. unfold schedule_timer. destruct (m_timers s1); [done|]. intros H. by apply Ok_inj in H as <-. }
  apply bind_Ok in E as (s2 & H2 & E). apply bind_Ok in E as ([] & _ & E). apply Ok_inj in E as <-.
  assert (m_packets s2 = m_packets s1) as -> by (destruct (was_first _ _); [by apply Hsch|by apply Ok_inj in H2 as <-]).
  cbn. apply elem_of_app. by left.
Qed.
Lemma asked_for now f bytes h t c b' id : history_ok bytes h -> timer_id t = id -> identifier (cbf_packet c) = timer_id t -> cbf_wf b' ->
  m_timers (h_buffer h) ≡ₚ t :: m_timers b' -> m_packets (h_buffer h) ≡ₚ (timer_node t, c) :: m_packets b' ->
  Forall (fun d => dep_id d = id /\ dep_fate d = f) (departures now f (h_buffer h) b') /\ id ∉ timer_id <$> m_timers b'.
Proof.
  intros O Ht Hc W' Htm Hp. split.
  - apply Forall_forall. intros d Hd. apply (departed_one _ _ _ _ _ _ _ Hp (cbf_nodup _ (ok_wf bytes h O))) in Hd as ->. cbn. split; congruence.
  - pose proof (cbf_ids _ (ok_wf bytes h O)) as Hn. rewrite Htm, fmap_cons, Ht in Hn. by apply NoDup_cons in Hn as [? _].
Qed.
Lemma step_fates bytes h e h' : history_ok bytes h -> legal h e -> cbf_step h e = Ok h' ->
  exists l, h_left h' = h_left h ++ l /\ Forall (fate_fits h e) l /\ asked_out h' e.
Proof.
  intros O L E. pose proof O as [Cap W A _ _ _ _ _ _].
  destruct e as [now c timeout|now id|now id|now]; cbn [cbf_step] in E; apply bind_Ok in E as (x & Hx & E).
  - apply Ok_inj in E as <-. eexists. split; [done|]. split; [|done]. apply Forall_forall. intros d Hd. unfold fate_fits.
    rewrite (departures_fate _ _ _ _ _ Hd). destruct (Z.lt_ge_cases (m_capacity_bytes (h_buffer h)) (lengths (m_packets (h_buffer h)) + cbf_length c));
      [done|]. exfalso. eapply departed_none; [|exact Hd]. by eapply fitting_keeps.
  - pose proof (find_timer_spec id (h_buffer h) W) as Hf. unfold try_drop in Hx. destruct (find_timer id (h_buffer h)) as [t|].
    + destruct Hf as [Ht Hid]. destruct (packet_of_spec _ t W Ht) as (c & Hpk & Hcin & Hci). rewrite Hpk in Hx.
      destruct (removal_spec _ t c W A Ht Hcin) as (a & Hr & W' & A' & Htm & Hp). rewrite Hr in Hx. cbn [mbind res_bind] in Hx.
      apply bind_Ok in Hx as ([] & _ & Hx). apply Ok_inj in Hx as <-. apply Ok_inj in E as <-. eexists. split; [done|].
      destruct (asked_for now Overheard bytes h t c _ id O Hid Hci W' Htm Hp) as [Hall Hout]. split; [|exact Hout].
      eapply Forall_impl; [exact Hall|]. intros d [Hd Hfd]. unfold fate_fits. by rewrite Hfd.
    + apply bind_Ok in Hx as ([] & _ & Hx). apply Ok_inj in Hx as <-. apply Ok_inj in E as <-. eexists. split; [done|]. split; [|exact Hf].
      apply Forall_forall. intros d Hd. by apply departed_none in Hd.
  - pose proof (find_timer_spec id (h_buffer h) W) as Hf. unfold cbf_fetch in Hx. destruct (find_timer id (h_buffer h)) as [t|].
    + destruct Hf as [Ht Hid]. destruct (packet_of_spec _ t W Ht) as (c & Hpk & Hcin & Hci). rewrite Hpk in Hx.
      pose proof (cbf_reduce_same now t c) as [_ Hlen]. destruct (cbf_reduce unspecified now t c) as [valid c']. cbn [snd] in Hlen. rewrite Hlen in Hx.
      destruct (removal_spec _ t c W A Ht Hcin) as (a & Hr & W' & A' & Htm & Hp). rewrite Hr in Hx. cbn [mbind res_bind] in Hx.
      apply Ok_inj in Hx as <-. apply Ok_inj in E as <-. eexists. split; [done|].
      destruct (asked_for now FetchedBack bytes h t c _ id O Hid Hci W' Htm Hp) as [Hall Hout]. split; [|exact Hout].
      eapply Forall_impl; [exact Hall|]. intros d [Hd Hfd]. unfold fate_fits. by rewrite Hfd.
    + apply Ok_inj in Hx as <-. apply Ok_inj in E as <-. eexists. split; [done|]. split; [|exact Hf].
      apply Forall_forall. intros d Hd. by apply departed_none in Hd.
  - destruct x as [sent b']. apply Ok_inj in E as <-. eexists. split; [done|]. split; [|done]. apply Forall_forall.
    intros d (t & -> & _)%list_elem_of_fmap. unfold fate_fits, ended. cbn. by destruct (valid_at _ _ _).
Qed.
(** [C35] In every history of the contention buffer each packet that entered it is waiting or has
    left exactly once; those whose timer ended left at the very end of it, and were handed
    over in that order unless their lifetime was over; none is ever overdue; the stored bytes
    are those of the packets waiting, within the capacity unless a single packet is longer;
    a packet that is dropped or fetched has the identifier asked for, which nothing in the
    buffer has afterwards, and packets are given up only for one that does not fit beside
    those stored; and nothing but a second packet of the same identifier is refused. *)
Theorem contention_ends_on_time bytes h : 0 <= bytes < 2 ^ 62 -> cbf_reach bytes h ->
  let b := h_buffer h in
  NoDup (fst <$> h_entered h) /\
  fst <$> h_entered h ≡ₚ (fst <$> m_packets b) ++ (dep_node <$> h_left h) /\
  (forall d, d ∈ h_left h -> by_timer (dep_fate d) -> (dep_node d, (dep_id d, dep_time d)) ∈ h_entered h) /\
  (forall t, t ∈ m_timers b -> (timer_node t, (timer_id t, timer_expiry t)) ∈ h_entered h /\ h_clock h <= timer_expiry t) /\
  identifier <$> h_sent h = transmitted_ids (h_left h) /\
  m_stored_bytes b = lengths (m_packets b) /\ (m_stored_bytes b <= bytes \/ (length (m_packets b) <= 1)%nat) /\
  (forall e f, legal h e -> cbf_step h e = Fail f -> f = StdException "Illegal insertion of duplicate CBF packet" /\
    exists now c timeout, e = Enqueue now c timeout /\ identifier (cbf_packet c) ∈ timer_id <$> m_timers b) /\
  (forall e h', legal h e -> cbf_step h e = Ok h' -> exists l, h_left h' = h_left h ++ l /\ Forall (fate_fits h e) l /\ asked_out h' e).
Proof.
  intros Hb Hr b. pose proof (cbf_reach_ok bytes h Hb Hr) as O.
  split; [apply O|]. split; [apply O|]. split; [apply O|]. split; [apply O|]. split; [apply O|]. split; [apply (ok_wf bytes h O)|].
  split; [rewrite <- (ok_capacity bytes h O); apply (ok_wf bytes h O)|]. split; [|intros e h'; by apply (step_fates bytes)].
  intros e f L Hs. pose proof (cbf_step_ok bytes h e O L) as H. by rewrite Hs in H.
Qed.
End Buffers.

(** ** What buffers hold

    Whatever holds of the packets that enter a buffer, and does not depend on the lifetime,
    holds of those inside and of those that leave. *)
Section Held.
Context {P : Type} `{!Pending P} (Q : P -> Prop) (unspecified : double -> Z).
Hypothesis Q_lifetime : forall q p, Q p -> Q (reduce_lifetime unspecified q p).2.
Definition buffer_holds (b : @PacketBuffer P) : Prop := Forall (fun n => Q (node_data n)) (m_nodes b).
Definition cbf_holds (b : @CbfPacketBuffer P) : Prop := Forall (fun x => Q (cbf_packet x.2)) (m_packets b).

Lemma drop_expired_holds now b : buffer_holds b -> buffer_holds (buffer_drop_expired now b).
Proof.
  unfold buffer_holds, buffer_drop_expired. destruct b as [nodes cap stored]. cbn [m_nodes m_stored m_capacity].
  assert (H : forall l st, Forall (fun n => Q (node_data n)) l -> Forall (fun n => Q (node_data n)) st.1 ->
    Forall (fun n => Q (node_data n)) (foldl (drop_step now) st l).1).
  { induction l as [|n l IH]; intros st Hl Hst; [done|]. apply Forall_cons in Hl as [Hn Hl]. cbn. apply IH; [done|].
    unfold drop_step. destruct (node_expired now n); [done|]. apply Forall_app. by split; [|apply Forall_singleton]. }
  intros Hb. specialize (H nodes ([], stored) Hb). destruct (foldl _ _ _) as [kept s]. apply H. constructor.
Qed.
Lemma drop_bytes_holds bytes cap nodes : forall stored, Forall (fun n => Q (node_data n)) nodes -> buffer_holds (drop_bytes bytes cap nodes stored).
Proof.
  induction nodes as [|n nodes IH]; intros stored Hn; [done|]. cbn. destruct (_ <? bytes); [|done].
  apply Forall_cons in Hn as [_ Hn]. by apply IH.
Qed.
Lemma push_holds data now b : Q data -> buffer_holds b -> buffer_holds (buffer_push unspecified data now b).2.
Proof.
  intros Hd Hb. unfold buffer_push. set (b' := drop_bytes _ _ _ _).
  assert (buffer_holds b') as Hb' by (apply drop_bytes_holds, drop_expired_holds, Hb). clearbody b'.
  destruct (_ <=? free b'); [|done]. pose proof (Q_lifetime 0 data Hd) as Hl. destruct (reduce_lifetime unspecified 0 data) as [rest data'].
  apply Forall_app. split; [done|]. by apply Forall_singleton.
Qed.
Lemma flush_holds now b : buffer_holds b -> Forall Q (buffer_flush unspecified now b).1 /\ buffer_holds (buffer_flush unspecified now b).2.
Proof.
  intros Hb. split; [|constructor]. cbn. apply Forall_forall. intros p (n & Hn & Hp)%list_elem_of_omap.
  unfold buffer_holds in Hb. rewrite Forall_forall in Hb. destruct (node_expired now n); [done|]. injection Hp as <-. by apply Q_lifetime, Hb.
Qed.

Lemma packet_of_holds n b c : cbf_holds b -> packet_of n b = Some c -> Q (cbf_packet c).
Proof.
  unfold packet_of. intros Hb E. apply fmap_Some in E as (x & E & ->). apply List.find_some in E as [E _].
  unfold cbf_holds in Hb. rewrite Forall_forall in Hb. by apply Hb, list_elem_of_In.
Qed.
Lemma erase_holds t n b : cbf_holds b -> cbf_holds (erase t n b).
Proof.
  unfold cbf_holds. intros Hb. rewrite Forall_forall in *. intros x Hx. apply Hb. cbn in Hx. rewrite list_elem_of_In in *.
  by apply List.filter_In in Hx as [? _].
Qed.
Lemma reschedule_packets first (b b' : @CbfPacketBuffer P) : reschedule_after first b = Ok b' -> m_packets b' = m_packets b.
Proof.
  unfold reschedule_after, schedule_timer. destruct (m_timers b); [by intros [= <-]|]. destruct first; by intros [= <-].
Qed.
Lemma try_drop_holds id b x : cbf_holds b -> try_drop id b = Ok x -> cbf_holds x.2.
Proof.
  intros Hb. unfold try_drop. destruct (find_timer id b) as [t|].
  - destruct (packet_of _ b) as [c|]; [|done]. intros E. apply bind_Ok in E as (b' & Hr & E). apply bind_Ok in E as ([] & _ & E).
    apply Ok_inj in E as <-. unfold cbf_holds. cbn. rewrite (reschedule_packets _ _ _ Hr). by apply erase_holds.
  - intros E. apply bind_Ok in E as ([] & _ & E). by apply Ok_inj in E as <-.
Qed.
Lemma cbf_reduce_holds now t c : Q (cbf_packet c) -> Q (cbf_packet (cbf_reduce unspecified now t c).2).
Proof. intros Hc. unfold cbf_reduce. pose proof (Q_lifetime (now - timer_start t) _ Hc). by destruct (reduce_lifetime _ _ _). Qed.
Lemma fetch_holds now id b x : cbf_holds b -> cbf_fetch unspecified now id b = Ok x ->
  cbf_holds x.2 /\ forall c, x.1 = Some c -> Q (cbf_packet c).
Proof.
  intros Hb. unfold cbf_fetch. destruct (find_timer id b) as [t|]; [|intros E; by apply Ok_inj in E as <-].
  destruct (packet_of _ b) as [c|] eqn:Hc; [|done]. pose proof (cbf_reduce_holds now t c (packet_of_holds _ _ _ Hb Hc)) as Hq.
  destruct (cbf_reduce unspecified now t c) as [valid c']. intros E. apply bind_Ok in E as (b' & Hr & E). apply Ok_inj in E as <-. cbn. split.
  - unfold cbf_holds. rewrite (reschedule_packets _ _ _ Hr). by apply erase_holds.
  - destruct valid; [|done]. by intros ? [= <-].
Qed.
Lemma head_drop_incl cap (packets : list (nat * @CbfPacket P)) : forall timers stored, (head_drop cap packets timers stored).1.1 ⊆ packets.
Proof.
  induction packets as [|x packets IH]; intros timers stored; [done|]. cbn. destruct (cap <? stored); [|done].
  intros y Hy. apply elem_of_cons; right; by eapply IH.
Qed.
Lemma enqueue_holds now c timeout b b' : Q (cbf_packet c) -> cbf_holds b -> cbf_enqueue now c timeout b = Ok b' -> cbf_holds b'.
Proof.
  intros Hc Hb. unfold cbf_enqueue. destruct (timeout <=? 0); [by intros [= <-]|].
  pose proof (head_drop_incl (m_capacity_bytes b) (m_packets b) (m_timers b) (u64 (m_stored_bytes b + cbf_length c))) as Hi.
  destruct (head_drop _ _ _ _) as [[packets timers] stored]. destruct (existsb _ timers); [done|].
  intros E. apply bind_Ok in E as (b1 & H1 & E). apply bind_Ok in E as ([] & _ & E). apply Ok_inj in E as <-.
  assert (m_packets b1 = packets ++ [(nodes_made b, c)]) as Hm.
  { destruct (was_first _ _); [|by apply Ok_inj in H1 as <-]. unfold schedule_timer in H1. destruct (m_timers _); [done|]. by apply Ok_inj in H1 as <-. }
  unfold cbf_holds. rewrite Hm. apply Forall_app. split; [|by apply Forall_singleton].
  unfold cbf_holds in Hb. rewrite Forall_forall in *. intros x Hx. by apply Hb, Hi.
Qed.
Lemma cbf_flush_holds now b x : cbf_holds b -> cbf_flush unspecified now b = Ok x -> Forall Q x.1 /\ cbf_holds x.2.
Proof.
  intros Hb. unfold cbf_flush. intros E. apply bind_Ok in E as (st & Hf & E). apply bind_Ok in E as (b' & Hr & E). apply Ok_inj in E as <-. cbn.
  unfold cbf_holds. rewrite (reschedule_packets _ _ _ Hr). fold (cbf_holds st.2). clear Hr b'.
  assert (H : Forall Q (@nil P, b).1 /\ cbf_holds (@nil P, b).2) by done. revert H Hf. clear Hb.
  generalize (@nil P, b) as st0. induction (due_timers now b) as [|t l IH]; intros st0 Hs Hf; cbn in Hf; [by apply Ok_inj in Hf as <-|].
  apply bind_Ok in Hf as (st1 & H1 & Hf). eapply IH; [|exact Hf]. unfold flush_step in H1. destruct Hs as [Hs Hb].
  destruct (packet_of _ st0.2) as [c|] eqn:Hc; [|done]. pose proof (cbf_reduce_holds now t c (packet_of_holds _ _ _ Hb Hc)) as Hq.
  destruct (cbf_reduce unspecified now t c) as [valid c']. apply Ok_inj in H1 as <-. cbn. split; [|by apply erase_holds].
  destruct valid; [|done]. apply Forall_app. by split; [|apply Forall_singleton].
Qed.
End Held.

(** The lifetime of every header is a number of microseconds. *)
Lemma lifetime_us_defined raw : 0 <= raw < 256 ->
  d_to_long (dmul (lifetime_decode raw) (d_of_Z 1000000)) = Ok (lifetime_us raw) /\ 0 <= lifetime_us raw.
Proof.
  intros Hr.
  assert (H : forallb (fun raw => bool_decide (d_to_long (dmul (lifetime_decode raw) (d_of_Z 1000000)) = Ok (lifetime_us raw)) && (0 <=? lifetime_us raw)) (seqZ 0 256) = true) by (by vm_compute).
  apply (forall_below _ _ H), andb_true_iff in Hr as [H1 H2]. clear H. apply bool_decide_eq_true in H1. apply Z.leb_le in H2. exact (conj H1 H2).
Qed.

(** ** Runs *)
Record ex_packet := mkExPacket { ex_length : nat; ex_lifetime : Z; ex_id : Address * SequenceNumber }.
#[export] Instance ex_pending : Pending ex_packet := {|
  packet_length p := Z.min (Z.of_nat (ex_length p)) 1500;
  packet_lifetime := ex_lifetime;
  set_lifetime l p := mkExPacket (ex_length p) l (ex_id p);
  identifier := ex_id
|}.
#[export] Instance ex_pending_laws : PendingLaws ex_packet.
Proof. split; intros; cbn; [done|done|lia]. Qed.
Definition ex_addr (n : Z) : Address := mkGnAddress true 5 0 (ex_mac n).
(** A packet that lives for a number of seconds below 63. *)
Definition ex_cbf (n sn : Z) (seconds : Z) : @CbfPacket ex_packet :=
  mkCbf (mkExPacket 200 (lifetime_set One_Second seconds) (ex_addr n, sn)) (ex_mac 9) 1.
Definition ex_unspecified (_ : double) : Z := 0.
Definition ex_ms (n : Z) : time_point := n * 1000.
Definition ex_history : list (@cbf_event ex_packet) :=
  [Enqueue (ex_ms 0) (ex_cbf 1 7 60) (ex_ms 50); Enqueue (ex_ms 5) (ex_cbf 2 3 60) (ex_ms 20);
   Callback (ex_ms 25); Enqueue (ex_ms 30) (ex_cbf 3 1 60) (ex_ms 40); TryDrop (ex_ms 40) (ex_addr 1, 7); Callback (ex_ms 70)].
Definition ex_start : @cbf_history ex_packet := mkHistory (cbf_create 1000) 0 [] [] [].
Definition ex_final : res (@cbf_history ex_packet) := res_fold (cbf_step ex_unspecified) ex_history ex_start.
Definition legalb (h : @cbf_history ex_packet) (e : @cbf_event ex_packet) : bool :=
  (h_clock h <=? event_time e) && (match alarm (h_buffer h) with Some a => event_time e <=? a | None => true end) &&
  match e with Callback now => bool_decide (alarm (h_buffer h) = Some now) | _ => true end.
Lemma legalb_legal h e : legalb h e = true -> legal h e.
Proof.
  unfold legalb, legal. rewrite !andb_true_iff. intros [[H1%Z.leb_le H2] H3]. split; [done|]. split.
  - intros a Ha. rewrite Ha in H2. by apply Z.leb_le.
  - destruct e; try done. by apply bool_decide_eq_true in H3.
Qed.
(** A run of events that are all legal. *)
Fixpoint ex_run_legal (events : list (@cbf_event ex_packet)) (h : @cbf_history ex_packet) : option (@cbf_history ex_packet) :=
  match events with
  | [] => Some h
  | e :: events => if legalb h e then match cbf_step ex_unspecified h e with Ok h => ex_run_legal events h | Fail _ => None end else None
  end.
Lemma ex_run_reach bytes events : forall h h', cbf_reach ex_unspecified bytes h -> ex_run_legal events h = Some h' -> cbf_reach ex_unspecified bytes h'.
Proof.
  induction events as [|e events IH]; intros h h' Hr; cbn; [by intros [= <-]|].
  destruct (legalb h e) eqn:L; [|done]. destruct (cbf_step ex_unspecified h e) as [h1|] eqn:Hs; [|done].
  apply IH. eapply cbf_event_step; [exact Hr|by apply legalb_legal|exact Hs].
Qed.
Definition ex_reached : @cbf_history ex_packet := match ex_run_legal ex_history ex_start with Some h => h | None => ex_start end.
Lemma ex_reached_ok : cbf_reach ex_unspecified 1000 ex_reached.
Proof. apply (ex_run_reach 1000 ex_history ex_start); [apply cbf_start|by vm_compute]. Qed.
Lemma contention_ends_on_time_witness :
  (0 <= 1000 < 2 ^ 62 /\ cbf_reach ex_unspecified 1000 ex_reached) /\
  identifier <$> h_sent ex_reached = transmitted_ids (h_left ex_reached) /\ m_stored_bytes (h_buffer ex_reached) = 0.
Proof.
  assert (Hb : 0 <= 1000 < 2 ^ 62) by lia.
  destruct (contention_ends_on_time ex_unspecified 1000 ex_reached Hb ex_reached_ok) as (_ & _ & _ & _ & H & Hst & _).
  split; [split; [exact Hb|exact ex_reached_ok]|]. split; [exact H|]. rewrite Hst. by vm_compute.
Defined.
(** Sent at 25 ms and 70 ms; the one heard again in between is not. *)
Example contention_run : (fun d => (dep_id d).2 :: [dep_time d]) <$> h_left ex_reached = [[3; 25000]; [7; 40000]; [1; 70000]] /\
  identifier <$> h_sent ex_reached = [(ex_addr 2, 3); (ex_addr 3, 1)].
Proof. split; by vm_compute. Qed.
(** A packet without a time to wait is lost. *)
Example no_contention_no_packet : cbf_enqueue 0 (ex_cbf 1 7 60) 0 (cbf_create 1000) = Ok (cbf_create 1000).
Proof. reflexivity. Qed.
(** Lifetimes in headers are coarse: that of a minute is not reduced by a short wait. *)
Example minute_not_reduced : (reduce_lifetime ex_unspecified (ex_ms 400) (cbf_packet (ex_cbf 1 7 60))).2 = cbf_packet (ex_cbf 1 7 60).
Proof. by vm_compute. Qed.
