(* ===== verification/GeoHeaders.v ===== *)
(** * GeoNetworking: headers, areas and requests

    What GeoNetworking packets are made of ([src/extern/vanetza/vanetza/geonet/]): the headers
    ([basic_header.cpp], [common_header.cpp], [gbc_header.cpp], [gbc_gac_header.cpp],
    [shb_header.cpp], [beacon_header.cpp]) and the units of data that combine them
    ([extended_pdu.hpp], [pdu.cpp]); the destination areas and the test whether a position is
    inside ([areas.cpp]); the constants of the protocol ([mib.cpp]); and the requests with their
    validation ([data_request.cpp], [data_confirm.cpp]).  Geodesy (GeographicLib), the
    mathematical library and the conversions of Boost.Units are parameters. *)

From S2P Require Import Prelude Float64 Timer Networking Transfusion LocationTable FlowControl GeoBuffer.

(** ** Geography *)
Record GeodeticPosition := mkPosition { latitude : double; longitude : double }.
(** [area_size], [local_cartesian] and [distance] in metres, angles in radians, positions in
    degrees; [to_] and [of_] convert to and from the fields of headers. *)
Class Geography := {
  local_cartesian : GeodeticPosition -> GeodeticPosition -> double * double;
  geodesic_inverse : GeodeticPosition -> GeodeticPosition -> double;
  g_cos : double -> double;
  g_sin : double -> double;
  g_acos : double -> double;
  radians_of_degrees : double -> double;
  to_geo_angle : double -> Z;
  of_geo_angle : Z -> double;
  to_angle : double -> Z;
  of_angle : Z -> double;
  to_speed : double -> Z;
  to_heading : double -> Z
}.

Section Areas.
Context `{!Geography}.
Definition area_position (a : Area) : GeodeticPosition := mkPosition (area_latitude a) (area_longitude a).
Definition square_over (x r : double) : double := dmul (ddiv x r) (ddiv x r).
Definition not_zero (what : string) (x : double) : res unit := assert_ what (negb (deqb x (d_of_Z 0))).
Definition geometric_function (s : Shape) (p : double * double) : res double :=
  match s with
  | Circle r =>
      not_zero "c.r.value() != 0.0" r ;;
      Ok (dsub (dsub (d_of_Z 1) (square_over p.1 r)) (square_over p.2 r))
  | Rectangle a b =>
      not_zero "r.a.value() != 0.0" a ;;
      not_zero "r.b.value() != 0.0" b ;;
      Ok (d_min (dsub (d_of_Z 1) (square_over p.1 a)) (dsub (d_of_Z 1) (square_over p.2 b)))
  | Ellipse a b =>
      not_zero "e.a.value() != 0.0" a ;;
      not_zero "e.b.value() != 0.0" b ;;
      Ok (dsub (dsub (d_of_Z 1) (square_over p.1 a)) (square_over p.2 b))
  end.
(** The point is moved to the shape's centre and turned to its long side. *)
Definition canonicalize (point shape : double * double) (azimuth : double) : double * double :=
  let moved := (dsub point.1 shape.1, dsub point.2 shape.2) in
  let zenith := dsub (radians_of_degrees (d_of_Z 90)) azimuth in
  (dadd (dmul (g_cos zenith) moved.1) (dmul (g_sin zenith) moved.2),
   dadd (dmul (dopp (g_sin zenith)) moved.1) (dmul (g_cos zenith) moved.2)).
Definition outside_shape (s : Shape) (p : double * double) : res bool :=
  v ← geometric_function s p; Ok (dltb v (d_of_Z 0)).
Definition inside_or_at_border (a : Area) (p : GeodeticPosition) : res bool :=
  let canonical := canonicalize (d_of_Z 0, d_of_Z 0) (local_cartesian (area_position a) p) (area_angle a) in
  outside ← outside_shape (area_shape a) canonical;
  Ok (negb outside).
(** Square metres. *)
Definition area_size (a : Area) : double :=
  match area_shape a with
  | Circle r => dmul (dmul d_pi r) r
  | Rectangle a b => dmul (dmul (d_of_Z 4) a) b
  | Ellipse a b => dmul (dmul d_pi a) b
  end.
Definition distance (lhs rhs : GeodeticPosition) : res double :=
  let distance_m := geodesic_inverse lhs rhs in
  assert_ "distance_m >= 0.0" (dleb (d_of_Z 0) distance_m) ;;
  Ok distance_m.
(** [LongPositionVector::position] *)
Definition lpv_position (v : LongPositionVector) : GeodeticPosition :=
  mkPosition (of_geo_angle (lpv_latitude v)) (of_geo_angle (lpv_longitude v)).
End Areas.

(** ** Constants of the protocol *)
Inductive UnicastForwarding := Unicast_Unspecified | Greedy | Unicast_CBF.
Inductive BroadcastForwarding := Broadcast_Unspecified | SIMPLE | Broadcast_CBF | Advanced.
Inductive AddrConfMethod := Auto | Managed | Anonymous.
Inductive InterfaceType := Interface_Unspecified | Interface_ITS_G5.
Inductive SecurityDecapHandling := Strict | Non_Strict.
(** The members the router reads; durations in seconds, lengths in metres. *)
Record MIB := mkMIB {
  mib_base : ManagementInformationBase;
  itsGnLocalAddrConfMethod : AddrConfMethod;
  itsGnProtocolVersion : Z;
  itsGnIfType : InterfaceType;
  itsGnPaiInterval : double;
  itsGnMaxSduSize : Z;
  itsGnLifetimeLocTE : Z;
  itsGnSnDecapResultHandling : SecurityDecapHandling;
  itsGnBeaconServiceRetransmitTimer : double;
  itsGnBeaconServiceMaxJitter : double;
  itsGnDPLLength : nat;
  itsGnMaxPacketLifetime : Z;
  itsGnMaxPacketDataRate : Z;
  itsGnMaxPacketDataRateEmaBeta : double;
  itsGnMaxGeoAreaSize : double;
  itsGnMinPacketRepetitionInterval : double;
  itsGnNonAreaForwardingAlgorithm : UnicastForwarding;
  itsGnAreaForwardingAlgorithm : BroadcastForwarding;
  itsGnCbfMinTime : double;
  itsGnCbfMaxTime : double;
  itsGnDefaultMaxCommunicationRange : double;
  itsGnBroadcastCBFDefSectorAngle : double;
  itsGnUcForwardingPacketBufferSize : Z;
  itsGnBcForwardingPacketBufferSize : Z;
  itsGnCbfPacketBufferSize : Z;
  vanetzaCbfMaxCounter : Z
}.

(** ** Requests *)
Inductive UpperProtocol := Upper_Unknown | Upper_BTP_A | Upper_BTP_B | Upper_IPv6.
(** [repetition]: interval and maximum in seconds. *)
Record GnDataRequest := mkGnDataRequest {
  upper_protocol : UpperProtocol;
  req_profile : InterfaceType;
  req_its_aid : Z;
  req_lifetime : Z;
  repetition : option (double * double);
  req_hop_limit : Z;
  req_traffic_class : Z
}.
Definition with_repetition (x : option (double * double)) (r : GnDataRequest) : GnDataRequest :=
  mkGnDataRequest (upper_protocol r) (req_profile r) (req_its_aid r) (req_lifetime r) x (req_hop_limit r) (req_traffic_class r).
Definition decrement_by_one (x : double * double) : double * double :=
  let '(interval, maximum) := x in
  if dltb (d_of_Z 0) maximum && dltb (d_of_Z 0) interval && dltb interval maximum then (interval, dsub maximum interval)
  else (interval, d_of_Z 0).
Definition has_further_repetition (x : double * double) : bool :=
  let '(interval, maximum) := x in
  dltb (d_of_Z 0) maximum && dltb (d_of_Z 0) interval && dleb interval maximum.
(** [clock_cast] of a duration in seconds: whole microseconds. *)
Definition clock_cast (seconds : double) : res Z := d_to_long (dmul seconds (d_of_Z 1000000)).

Inductive ResultCode :=
| Accepted | Rejected_Max_SDU_Size | Rejected_Max_Lifetime | Rejected_Min_Repetition_Interval
| Rejected_Max_Geo_Area_Size | Rejected_Unspecified.
#[export] Instance ResultCode_eq_dec : EqDecision ResultCode.
Proof. solve_decision. Defined.
Definition accepted (c : ResultCode) : bool := bool_decide (c = Accepted).
(** [operator^=]: an error replaces what was there. *)
Definition confirm (lhs rhs : ResultCode) : ResultCode := if accepted rhs then lhs else rhs.
Definition validate_data_request (mib : MIB) (r : GnDataRequest) : ResultCode :=
  if dltb (lifetime_decode (itsGnMaxPacketLifetime mib)) (lifetime_decode (req_lifetime r)) then Rejected_Max_Lifetime
  else match repetition r with
       | Some (interval, _) =>
           if dltb interval (itsGnMinPacketRepetitionInterval mib) then Rejected_Min_Repetition_Interval else Accepted
       | None => Accepted
       end.
Definition validate_area_request (mib : MIB) (r : GnDataRequest) (destination : Area) : ResultCode :=
  if dltb (itsGnMaxGeoAreaSize mib) (area_size destination) then Rejected_Max_Geo_Area_Size else validate_data_request mib r.
Definition validate_payload {D} (size : D -> Z) (mib : MIB) (payload : option D) : ResultCode :=
  match payload with
  | None => Rejected_Unspecified
  | Some d => if itsGnMaxSduSize mib <? size d then Rejected_Max_SDU_Size else Accepted
  end.

(** ** Headers *)
Inductive NextHeaderBasic := Basic_Any | Basic_Common | Basic_Secured | Basic_Other (raw : Z).
Inductive NextHeaderCommon := Common_Any | Common_BTP_A | Common_BTP_B | Common_IPv6 | Common_Other (raw : Z).
(** Of the types that exist the router makes and understands these. *)
Inductive HeaderType :=
| HT_Any | HT_Beacon | GeoBroadcast_Circle | GeoBroadcast_Rect | GeoBroadcast_Elip | TSB_Single_Hop | HT_Other (raw : Z).
Record BasicHeader := mkBasic {
  version : Z; basic_next : NextHeaderBasic; basic_reserved : Z; basic_lifetime : Z; hop_limit : Z
}.
Record CommonHeader := mkCommon {
  common_next : NextHeaderCommon; common_reserved1 : Z; header_type : HeaderType; common_class : Z; flags : Z; common_payload : Z;
  maximum_hop_limit : Z; common_reserved2 : Z
}.
Record ShbHeader := mkShb { shb_source : LongPositionVector; shb_dcc : DccField }.
Record BeaconHeader := mkBeacon { beacon_source : LongPositionVector }.
Record GeoBroadcastHeader := mkGbc {
  gbc_sequence : SequenceNumber;
  gbc_reserved1 : Z;
  gbc_source : LongPositionVector;
  geo_area_pos_latitude : Z;
  geo_area_pos_longitude : Z;
  distance_a : Z;
  distance_b : Z;
  gbc_angle : Z;
  gbc_reserved2 : Z
}.
Inductive HeaderVariant := ShbVariant (h : ShbHeader) | GbcVariant (h : GeoBroadcastHeader) | BeaconVariant (h : BeaconHeader).
(** The types of extended headers, with [extended_variant] and [length_bytes]. *)
Class ExtendedHeader (H : Type) := {
  extended_variant : H -> HeaderVariant;
  length_bytes : Z;
  source_of : H -> LongPositionVector;
  with_source : LongPositionVector -> H -> H
}.
#[export] Instance shb_extended : ExtendedHeader ShbHeader := {|
  extended_variant := ShbVariant; length_bytes := 4 + 24; source_of := shb_source; with_source v h := mkShb v (shb_dcc h)
|}.
#[export] Instance beacon_extended : ExtendedHeader BeaconHeader := {|
  extended_variant := BeaconVariant; length_bytes := 24; source_of := beacon_source; with_source v _ := mkBeacon v
|}.
#[export] Instance gbc_extended : ExtendedHeader GeoBroadcastHeader := {|
  extended_variant := GbcVariant; length_bytes := 20 + 24; source_of := gbc_source;
  with_source v h := mkGbc (gbc_sequence h) (gbc_reserved1 h) v (geo_area_pos_latitude h) (geo_area_pos_longitude h)
                       (distance_a h) (distance_b h) (gbc_angle h) (gbc_reserved2 h)
|}.
Definition variant_length (h : HeaderVariant) : Z :=
  match h with
  | ShbVariant _ => length_bytes (H := ShbHeader)
  | GbcVariant _ => length_bytes (H := GeoBroadcastHeader)
  | BeaconVariant _ => length_bytes (H := BeaconHeader)
  end.

Definition basic_of_mib (mib : MIB) : BasicHeader :=
  mkBasic (wrap 4 (itsGnProtocolVersion mib)) Basic_Any 0 (itsGnDefaultPacketLifetime (mib_base mib))
    (wrap 8 (itsGnDefaultHopLimit (mib_base mib))).
Definition basic_of_request (mib : MIB) (r : GnDataRequest) : BasicHeader :=
  mkBasic (wrap 4 (itsGnProtocolVersion mib)) (if itsGnSecurity (mib_base mib) then Basic_Secured else Basic_Common) 0
    (req_lifetime r) (wrap 8 (req_hop_limit r)).
Definition with_hop_limit (n : Z) (h : BasicHeader) : BasicHeader := mkBasic (version h) (basic_next h) (basic_reserved h) (basic_lifetime h) n.
Definition with_basic_lifetime (l : Z) (h : BasicHeader) : BasicHeader := mkBasic (version h) (basic_next h) (basic_reserved h) l (hop_limit h).
Definition with_basic_next (x : NextHeaderBasic) (h : BasicHeader) : BasicHeader := mkBasic (version h) x (basic_reserved h) (basic_lifetime h) (hop_limit h).
Definition mobile_flags (mib : MIB) : Z := if itsGnIsMobile (mib_base mib) then 0x80 else 0x00.
Definition common_of_mib (mib : MIB) : CommonHeader :=
  mkCommon Common_Any 0 HT_Any (itsGnDefaultTrafficClass (mib_base mib)) (mobile_flags mib) 0
    (wrap 8 (itsGnDefaultHopLimit (mib_base mib))) 0.
Definition common_of_request (mib : MIB) (r : GnDataRequest) : res CommonHeader :=
  next ← match upper_protocol r with
         | Upper_BTP_A => Ok Common_BTP_A
         | Upper_BTP_B => Ok Common_BTP_B
         | Upper_IPv6 => Ok Common_IPv6
         | Upper_Unknown => Fail (StdException "Unhandled upper protocol")
         end;
  Ok (mkCommon next 0 HT_Any (req_traffic_class r) (mobile_flags mib) 0 (wrap 8 (req_hop_limit r)) 0).
Definition with_type (t : HeaderType) (h : CommonHeader) : CommonHeader :=
  mkCommon (common_next h) (common_reserved1 h) t (common_class h) (flags h) (common_payload h) (maximum_hop_limit h) (common_reserved2 h).
(** [payload] is a number of sixteen bits. *)
Definition with_payload (n : Z) (h : CommonHeader) : CommonHeader :=
  mkCommon (common_next h) (common_reserved1 h) (header_type h) (common_class h) (flags h) (wrap 16 n) (maximum_hop_limit h) (common_reserved2 h).
Definition with_maximum_hop_limit (n : Z) (h : CommonHeader) : CommonHeader :=
  mkCommon (common_next h) (common_reserved1 h) (header_type h) (common_class h) (flags h) (common_payload h) n (common_reserved2 h).

(** ** Destinations in headers *)
Section Destinations.
Context `{!Geography}.
Definition gbc_header_type (a : Area) : HeaderType :=
  match area_shape a with Circle _ => GeoBroadcast_Circle | Rectangle _ _ => GeoBroadcast_Rect | Ellipse _ _ => GeoBroadcast_Elip end.
(** A length as a number of sixteen bits: the fraction is cut off. *)
Definition to_distance (x : double) : res Z :=
  match d_to_long x with
  | Ok v => if (0 <=? v) && (v <? 2 ^ 16) then Ok v else Fail (Undefined "conversion to uint16_t")
  | Fail _ => Fail (Undefined "conversion to uint16_t")
  end.
Definition set_destination (area : Area) (h : GeoBroadcastHeader) : res GeoBroadcastHeader :=
  let '(a, b) := match area_shape area with Circle r => (r, r) | Rectangle a b => (a, b) | Ellipse a b => (a, b) end in
  a ← to_distance a;
  b ← to_distance b;
  Ok (mkGbc (gbc_sequence h) (gbc_reserved1 h) (gbc_source h) (to_geo_angle (area_latitude area)) (to_geo_angle (area_longitude area))
        a b (to_angle (area_angle area)) (gbc_reserved2 h)).
Definition get_destination (t : HeaderType) (h : GeoBroadcastHeader) : res Area :=
  let a := d_of_Z (distance_a h) in
  let b := d_of_Z (distance_b h) in
  shape ← match t with
          | GeoBroadcast_Circle => Ok (Circle a)
          | GeoBroadcast_Rect => Ok (Rectangle a b)
          | GeoBroadcast_Elip => Ok (Ellipse a b)
          | _ => Fail (StdException "Invalid GBC header type")
          end;
  Ok (mkArea shape (of_geo_angle (geo_area_pos_latitude h)) (of_geo_angle (geo_area_pos_longitude h)) (of_angle (gbc_angle h))).
(** [GbcGacHeader::position] *)
Definition gbc_position (h : GeoBroadcastHeader) : GeodeticPosition :=
  mkPosition (of_geo_angle (geo_area_pos_latitude h)) (of_geo_angle (geo_area_pos_longitude h)).
End Destinations.

(** ** Units of data

    [Sec]: secured messages, of the security services. *)
Section Pdus.
Context {Sec : Type} (sec_size : Sec -> Z).
Record Pdu {H : Type} := mkPdu { pdu_basic : BasicHeader; pdu_common : CommonHeader; pdu_extended : H; pdu_secured : option Sec }.
Definition pdu_length {H} `{!ExtendedHeader H} (p : @Pdu H) : Z :=
  4 + match pdu_secured p with Some s => sec_size s | None => 8 + length_bytes (H := H) end.
Definition pdu_variant {H} `{!ExtendedHeader H} (p : @Pdu H) : @Pdu HeaderVariant :=
  mkPdu HeaderVariant (pdu_basic p) (pdu_common p) (extended_variant (pdu_extended p)) (pdu_secured p).
Definition variant_pdu_length (p : @Pdu HeaderVariant) : Z :=
  4 + match pdu_secured p with Some s => sec_size s | None => 8 + variant_length (pdu_extended p) end.
Definition pdu_with_basic {H} (b : BasicHeader) (p : @Pdu H) : @Pdu H := mkPdu H b (pdu_common p) (pdu_extended p) (pdu_secured p).
Definition pdu_with_source {H} `{!ExtendedHeader H} (v : LongPositionVector) (p : @Pdu H) : @Pdu H :=
  mkPdu H (pdu_basic p) (pdu_common p) (with_source v (pdu_extended p)) (pdu_secured p).
Definition pdu_with_secured {H} (s : option Sec) (p : @Pdu H) : @Pdu H := mkPdu H (pdu_basic p) (pdu_common p) (pdu_extended p) s.
End Pdus.
Arguments Pdu _ _ : clear implicits.
Arguments mkPdu {Sec H}.

(** ** Destinations survive the header up to its resolution *)
Section Resolution.
Context `{!Geography}.
Definition metres (x : double) : double := match to_distance x with Ok v => d_of_Z v | Fail _ => x end.
(** The area that the other stations understand. *)
Definition resolved (a : Area) : Area :=
  mkArea (match area_shape a with
          | Circle r => Circle (metres r)
          | Rectangle a b => Rectangle (metres a) (metres b)
          | Ellipse a b => Ellipse (metres a) (metres b)
          end)
    (of_geo_angle (to_geo_angle (area_latitude a))) (of_geo_angle (to_geo_angle (area_longitude a))) (of_angle (to_angle (area_angle a))).
Lemma destination_resolved a h h' : set_destination a h = Ok h' -> get_destination (gbc_header_type a) h' = Ok (resolved a).
Proof.
  unfold set_destination. intros E. destruct a as [[r|x y|x y] lat lon angle]; cbn [area_shape] in E;
  apply bind_Ok in E as (va & Ha & E); apply bind_Ok in E as (vb & Hb & E); apply Ok_inj in E as <-;
  unfold resolved, metres; cbn [area_shape area_latitude area_longitude area_angle gbc_header_type get_destination distance_a distance_b];
  unfold get_destination; cbn; by rewrite ?Ha, ?Hb.
Qed.
Lemma destination_of_source t v h : get_destination t (with_source v h) = get_destination t h.
Proof. done. Qed.
End Resolution.
