(* ===== verification/GeoRouter.v ===== *)
(** * GeoNetworking: the router

    vanetza's GeoNetworking router ([src/extern/vanetza/vanetza/geonet/router.cpp]) with what it
    is made of: packets that wait with the action to take next ([pending_packet.hpp]), the
    decision for a next hop ([next_hop.cpp]), the repetition of requests ([repeater.cpp]) and
    what a received packet is read from ([indication_context.cpp], [variant_pdu.cpp]).  The
    closures that wait in buffers are data here, run by [run_action].  Security services, the
    generator of random numbers and the parser's reading of bytes are parameters. *)

From S2P Require Import Prelude Float64 Timer Networking Transfusion LocationTable FlowControl GeoBuffer ChannelSharing GeoHeaders.

(** ** What is around the router *)
Inductive DecapReport :=
| Success | False_Signature | Invalid_Certificate | Revoked_Certificate | Inconsistant_Chain | Invalid_Timestamp
| Duplicate_Message | Invalid_Mobility_Data | Unsigned_Message | Signer_Certificate_Not_Found
| Unsupported_Signer_Identifier_Type | Incompatible_Protocol | Unencrypted_Message | Decryption_Error.
#[export] Instance DecapReport_eq_dec : EqDecision DecapReport.
Proof. solve_decision. Defined.
(** The payload of a secured message, as the context for it reads it.  [plain_parsed]: the
    bytes the parser reads when the payload is a [CohesivePacket]. *)
Record Plaintext {D : Type} := mkPlaintext {
  plain_common : option CommonHeader; plain_extended : HeaderType -> option HeaderVariant; plain_payload : D;
  plain_parsed : option Z
}.
Record DecapConfirm {D : Type} := mkDecap {
  decap_report : DecapReport; decap_its_aid : Z; decap_permissions : list Z; plaintext_payload : @Plaintext D
}.
Arguments Plaintext : clear implicits.
Arguments mkPlaintext {D}.
Arguments DecapConfirm : clear implicits.
Arguments mkDecap {D}.

(** Sizes of secured messages and payloads in bytes; the security entity's answers at a time;
    numbers of the router's generator, by their turn.  [indeterminate]: the two reserved members
    of a new GeoBroadcast header, which nothing sets.  [after_zeros]: data behind as many zeros. *)
Class Surroundings (Sec D : Type) := {
  sec_size : Sec -> Z;
  payload_size : D -> Z;
  no_payload : D;
  encapsulate : time_point -> Z -> CommonHeader -> HeaderVariant -> D -> Sec;
  decapsulate : time_point -> Sec -> DecapConfirm D;
  uniform : nat -> double;
  random_octet : nat -> Z;
  lround_unspecified : double -> Z;
  visit_order : list (list Z * LocationTableEntry) -> list (list Z * LocationTableEntry);
  dcc_field : time_point -> DccField;
  indeterminate : SequenceNumber -> Z * Z;
  after_zeros : D -> D
}.
(** The transport interfaces that are set, and whether there is a security entity. *)
Record RouterConfig := mkConfig { mib : MIB; transport_ifcs : UpperProtocol -> bool; security_entity : bool }.
Definition cBroadcastMacAddress : MacAddress := [0xff; 0xff; 0xff; 0xff; 0xff; 0xff].
Record LinkLayer := mkLinkLayer { ll_sender : MacAddress; ll_destination : MacAddress }.

(** ** Packets that wait *)
Record ControlInfo := mkControl { ctrl_profile : InterfaceType; ctrl_aid : Z }.
Section Waiting.
Context {Sec D : Type} `{!Surroundings Sec D}.
(** How a packet is sent at last: by the source, by a forwarder, or not at all. *)
Inductive transmission := SourceTransmit (c : ControlInfo) | ForwardTransmit | NoTransmit.
(** [forwarding] with the link layer it was received with; greedy forwarding once more; or
    [transmission] to an address. *)
Inductive gbc_action := Forwarding (t : transmission) (ll : option LinkLayer) | GreedyAgain (t : transmission) | SendTo (t : transmission) (mac : MacAddress).
Record GbcPending := mkGbcPending { gp_pdu : Pdu Sec GeoBroadcastHeader; gp_payload : D; gp_action : gbc_action }.
(** [PendingPacketForwarding]: what is missing is the address. *)
Record ForwardingPacket := mkForwarding { fp_pdu : Pdu Sec GeoBroadcastHeader; fp_payload : D; fp_transmit : transmission }.
Definition pending (p : ForwardingPacket) (a : transmission -> gbc_action) : GbcPending :=
  mkGbcPending (fp_pdu p) (fp_payload p) (a (fp_transmit p)).
Inductive NextHop := Valid (p : ForwardingPacket) (mac : MacAddress) | Discarded | Buffered.
Inductive waiting := WaitingShb (pdu : Pdu Sec ShbHeader) (payload : D) (ctrl : ControlInfo) | WaitingGbc (p : GbcPending).

Definition pdu_with_lifetime {H} (l : Z) (p : Pdu Sec H) : Pdu Sec H := pdu_with_basic (with_basic_lifetime l (pdu_basic p)) p.
#[export] Instance gbc_pending : Pending GbcPending := {|
  packet_length p := pdu_length sec_size (gp_pdu p) + payload_size (gp_payload p);
  packet_lifetime p := basic_lifetime (pdu_basic (gp_pdu p));
  set_lifetime l p := mkGbcPending (pdu_with_lifetime l (gp_pdu p)) (gp_payload p) (gp_action p);
  identifier p := (gn_addr (gbc_source (pdu_extended (gp_pdu p))), gbc_sequence (pdu_extended (gp_pdu p)))
|}.
(** The buffer for forwarding does not use identifiers. *)
#[export] Instance waiting_pending : Pending waiting := {|
  packet_length w := match w with
                     | WaitingShb pdu payload _ => pdu_length sec_size pdu + payload_size payload
                     | WaitingGbc p => packet_length p
                     end;
  packet_lifetime w := match w with WaitingShb pdu _ _ => basic_lifetime (pdu_basic pdu) | WaitingGbc p => packet_lifetime p end;
  set_lifetime l w := match w with
                      | WaitingShb pdu payload ctrl => WaitingShb (pdu_with_lifetime l pdu) payload ctrl
                      | WaitingGbc p => WaitingGbc (set_lifetime l p)
                      end;
  identifier w := match w with
                  | WaitingShb pdu _ _ => (gn_addr (shb_source (pdu_extended pdu)), 0)
                  | WaitingGbc p => identifier p
                  end
|}.
End Waiting.
Arguments GbcPending : clear implicits.
Arguments ForwardingPacket : clear implicits.
Arguments NextHop : clear implicits.
Arguments waiting : clear implicits.

(** ** State *)
Inductive PacketDropReason :=
| Parse_Basic_Header | Parse_Common_Header | Parse_Secured_Header | Parse_Extended_Header | ITS_Protocol_Version
| Decap_Unsuccessful_Non_Strict | Decap_Unsuccessful_Strict | Drop_Hop_Limit | Payload_Size | Security_Entity_Missing.
Inductive ForwardingStopReason := Stop_Hop_Limit | Source_PDR | Sender_PDR.
Record DataIndication := mkIndication {
  ind_upper_protocol : UpperProtocol;
  ind_transport_type : TransportType;
  ind_destination : option Area;
  ind_source_position : LongPositionVector;
  ind_security_report : DecapReport;
  ind_its_aid : option Z;
  ind_permissions : option (list Z);
  ind_traffic_class : Z;
  remaining_packet_lifetime : Z;
  remaining_hop_limit : Z
}.
(** What leaves the router, in order: to the access layer, to a transport interface - noted
    with the router's own position vector - and to the two hooks. *)
Inductive router_out {Sec D : Type} :=
| PassedDown (r : DataRequest) (pdu : Pdu Sec HeaderVariant) (payload : D)
| PassedUp (here : LongPositionVector) (ind : DataIndication) (payload : D)
| PacketDropped (why : PacketDropReason)
| ForwardingStopped (why : ForwardingStopReason).
Arguments router_out : clear implicits.
Record Repetition {D : Type} := mkRepetition {
  rep_due : time_point; rep_request : GnDataRequest; rep_destination : option Area; rep_payload : D
}.
Arguments Repetition : clear implicits.
Arguments mkRepetition {D}.
Record Router {Sec D : Type} := mkGeoRouter {
  m_location_table : LocationTable;
  m_bc_forward_buffer : @PacketBuffer (waiting Sec D);
  m_uc_forward_buffer : @PacketBuffer (waiting Sec D);
  m_cbf_buffer : @CbfPacketBuffer (GbcPending Sec D);
  m_local_position_vector : LongPositionVector;
  m_local_sequence_number : SequenceNumber;
  m_repetitions : list (Repetition D);
  m_draws : nat;
  beacon_at : time_point;
  m_log : list (router_out Sec D)
}.
Arguments Router : clear implicits.

Section Updates.
Context {Sec D : Type}.
Implicit Type r : Router Sec D.
Definition with_table t r : Router Sec D :=
  mkGeoRouter _ _ t (m_bc_forward_buffer r) (m_uc_forward_buffer r) (m_cbf_buffer r) (m_local_position_vector r)
    (m_local_sequence_number r) (m_repetitions r) (m_draws r) (beacon_at r) (m_log r).
Definition with_bc b r : Router Sec D :=
  mkGeoRouter _ _ (m_location_table r) b (m_uc_forward_buffer r) (m_cbf_buffer r) (m_local_position_vector r)
    (m_local_sequence_number r) (m_repetitions r) (m_draws r) (beacon_at r) (m_log r).
Definition with_uc b r : Router Sec D :=
  mkGeoRouter _ _ (m_location_table r) (m_bc_forward_buffer r) b (m_cbf_buffer r) (m_local_position_vector r)
    (m_local_sequence_number r) (m_repetitions r) (m_draws r) (beacon_at r) (m_log r).
Definition with_cbf b r : Router Sec D :=
  mkGeoRouter _ _ (m_location_table r) (m_bc_forward_buffer r) (m_uc_forward_buffer r) b (m_local_position_vector r)
    (m_local_sequence_number r) (m_repetitions r) (m_draws r) (beacon_at r) (m_log r).
Definition with_position v r : Router Sec D :=
  mkGeoRouter _ _ (m_location_table r) (m_bc_forward_buffer r) (m_uc_forward_buffer r) (m_cbf_buffer r) v
    (m_local_sequence_number r) (m_repetitions r) (m_draws r) (beacon_at r) (m_log r).
Definition with_sequence n r : Router Sec D :=
  mkGeoRouter _ _ (m_location_table r) (m_bc_forward_buffer r) (m_uc_forward_buffer r) (m_cbf_buffer r)
    (m_local_position_vector r) n (m_repetitions r) (m_draws r) (beacon_at r) (m_log r).
Definition with_repetitions l r : Router Sec D :=
  mkGeoRouter _ _ (m_location_table r) (m_bc_forward_buffer r) (m_uc_forward_buffer r) (m_cbf_buffer r)
    (m_local_position_vector r) (m_local_sequence_number r) l (m_draws r) (beacon_at r) (m_log r).
Definition with_draws n r : Router Sec D :=
  mkGeoRouter _ _ (m_location_table r) (m_bc_forward_buffer r) (m_uc_forward_buffer r) (m_cbf_buffer r)
    (m_local_position_vector r) (m_local_sequence_number r) (m_repetitions r) n (beacon_at r) (m_log r).
Definition with_beacon t r : Router Sec D :=
  mkGeoRouter _ _ (m_location_table r) (m_bc_forward_buffer r) (m_uc_forward_buffer r) (m_cbf_buffer r)
    (m_local_position_vector r) (m_local_sequence_number r) (m_repetitions r) (m_draws r) t (m_log r).
Definition emit o r : Router Sec D :=
  mkGeoRouter _ _ (m_location_table r) (m_bc_forward_buffer r) (m_uc_forward_buffer r) (m_cbf_buffer r)
    (m_local_position_vector r) (m_local_sequence_number r) (m_repetitions r) (m_draws r) (beacon_at r) (m_log r ++ [o]).
End Updates.

Section Operations.
Context {Sec D : Type} `{!Surroundings Sec D} `{!Geography} (cfg : RouterConfig).
Abbreviation secure := (itsGnSecurity (mib_base (mib cfg))).
Implicit Types (r : Router Sec D) (f : ForwardingPacket Sec D).

(** ** Beacon timer

    [beacon_at]: the one callback that is scheduled with the router as its scope. *)
Definition reset_beacon_timer_at (now next_beacon : Z) r : Router Sec D := with_beacon (now + next_beacon) r.
Definition reset_beacon_timer (now : time_point) r : res (Router Sec D) :=
  let jitter := uniform (m_draws r) in
  next ← clock_cast (dadd (itsGnBeaconServiceRetransmitTimer (mib cfg)) (dmul jitter (itsGnBeaconServiceMaxJitter (mib cfg))));
  Ok (reset_beacon_timer_at now next (with_draws (S (m_draws r)) r)).
(** The constructor. *)
Definition router_create (now : time_point) : res (Router Sec D) :=
  let r := mkGeoRouter _ _ (table_create (itsGnLifetimeLocTE (mib cfg)))
             (buffer_create (u32 (itsGnBcForwardingPacketBufferSize (mib cfg) * 1024)))
             (buffer_create (u32 (itsGnUcForwardingPacketBufferSize (mib cfg) * 1024)))
             (cbf_create (u32 (itsGnCbfPacketBufferSize (mib cfg) * 1024)))
             lpv_default 0 [] 0%nat 0 [] in
  if vanetzaDeferInitialBeacon (mib_base (mib cfg)) then
    next ← clock_cast (dmul (uniform (m_draws r)) (itsGnBeaconServiceRetransmitTimer (mib cfg)));
    Ok (reset_beacon_timer_at now next (with_draws (S (m_draws r)) r))
  else Ok (reset_beacon_timer_at now 0 r).

(** ** Position and address *)
Record PositionFix := mkFix { fix_latitude : double; fix_longitude : double; fix_speed : double; fix_course : double; semi_major : double }.
Definition update_position (now : time_point) (fix_ : PositionFix) r : Router Sec D :=
  let mobile := itsGnIsMobile (mib_base (mib cfg)) in
  with_position
    (mkLpv (gn_addr (m_local_position_vector r)) (timestamp_at now) (to_geo_angle (fix_latitude fix_)) (to_geo_angle (fix_longitude fix_))
       (dltb (dmul (semi_major fix_) (d_of_Z 2)) (itsGnPaiInterval (mib cfg)))
       (if mobile then to_speed (fix_speed fix_) else 0) (if mobile then to_heading (fix_course fix_) else 0)) r.
Definition set_address (addr : Address) r : Router Sec D :=
  let v := m_local_position_vector r in
  with_position (mkLpv addr (lpv_timestamp v) (lpv_latitude v) (lpv_longitude v) (position_accuracy_indicator v) (lpv_speed v) (lpv_heading v)) r.
(** A random address when somebody else uses the own one. *)
Definition detect_duplicate_address (source : Address) (sender : MacAddress) r : Router Sec D :=
  match itsGnLocalAddrConfMethod (mib cfg) with
  | Auto =>
      let local := gn_addr (m_local_position_vector r) in
      if bool_decide (source = local) || bool_decide (sender = mid local) then
        let mac := (fun i => wrap 8 (random_octet (m_draws r + i))) <$> seq 0 6 in
        with_draws (m_draws r + 6)
          (set_address (mkGnAddress (is_manually_configured local) (station_type local) (country_code local) mac) r)
      else r
  | _ => r
  end.
Definition local_position r : GeodeticPosition := lpv_position (m_local_position_vector r).

(** ** To the access layer *)
Definition geonet_ether_type : Z := 0x8947.
Definition map_tc_onto_profile (tc : Z) : Profile :=
  match tc_id tc with 0 => DP0 | 1 => DP1 | 2 => DP2 | _ => DP3 end.
(** [std::chrono::seconds] of a number that is no whole one cuts the fraction off. *)
Definition request_lifetime (raw : Z) : Z := match d_to_long (lifetime_decode raw) with Ok s => s * 1000000 | Fail _ => 0 end.
Definition is_secured (n : NextHeaderBasic) : bool := match n with Basic_Secured => true | _ => false end.
(** Nothing is left of what it might do. *)
Definition execute_media_procedures (com_profile : InterfaceType) : res unit := Ok tt.
Definition pass_down_request (request : DataRequest) (pdu : Pdu Sec HeaderVariant) (payload : D) r : res (Router Sec D) :=
  match pdu_secured pdu with
  | Some _ =>
      if negb (is_secured (basic_next (pdu_basic pdu))) then
        Fail (StdException "PDU with secured message but Secured not set in basic header")
      else if 0 <? payload_size payload then Fail (StdException "PDU with secured message and illegal upper layer payload")
      else Ok (emit (PassedDown request pdu payload) r)
  | None =>
      if is_secured (basic_next (pdu_basic pdu)) then
        Fail (StdException "PDU without secured message but Secured set in basic header")
      else Ok (emit (PassedDown request pdu payload) r)
  end.
Definition pass_down {H} `{!ExtendedHeader H} (addr : MacAddress) (pdu : Pdu Sec H) (payload : D) r : res (Router Sec D) :=
  let request := mkDataRequest geonet_ether_type (mid (gn_addr (m_local_position_vector r))) addr
                   (map_tc_onto_profile (common_class (pdu_common pdu))) (request_lifetime (basic_lifetime (pdu_basic pdu))) in
  pass_down_request request (pdu_variant pdu) payload r.
Definition encap_packet {H} `{!ExtendedHeader H} (now : time_point) (its_aid : Z) (pdu : Pdu Sec H) (payload : D) : res (Pdu Sec H * D) :=
  if security_entity cfg then
    let s := encapsulate now its_aid (pdu_common pdu) (extended_variant (pdu_extended pdu)) payload in
    assert_ "size(*packet) == 0" (payload_size (no_payload (Sec := Sec) (D := D)) =? 0) ;;
    assert_ "pdu.basic().next_header == NextHeaderBasic::Secured" (is_secured (basic_next (pdu_basic pdu))) ;;
    Ok (pdu_with_secured (Some s) pdu, no_payload)
  else Fail (StdException "security entity unavailable").
(** The [transmit] closures of the source's operations: the source's position vector is
    brought up to date first. *)
Definition source_transmit {H} `{!ExtendedHeader H} (now : time_point) (ctrl : ControlInfo) (pdu : Pdu Sec H) (payload : D)
    (mac : MacAddress) r : res (Router Sec D) :=
  let pdu := pdu_with_source (m_local_position_vector r) pdu in
  x ← (if secure then encap_packet now (ctrl_aid ctrl) pdu payload else Ok (pdu, payload));
  execute_media_procedures (ctrl_profile ctrl) ;;
  pass_down mac x.1 x.2 r.
Definition shb_transmit (now : time_point) (ctrl : ControlInfo) (pdu : Pdu Sec ShbHeader) (payload : D) r : res (Router Sec D) :=
  r ← source_transmit now ctrl pdu payload cBroadcastMacAddress r;
  reset_beacon_timer now r.
Definition gbc_source_transmit (now : time_point) (ctrl : ControlInfo) (pdu : Pdu Sec GeoBroadcastHeader) (payload : D)
    (mac : MacAddress) r : res (Router Sec D) :=
  (if secure then assert_ "pdu->basic().next_header == NextHeaderBasic::Secured" (is_secured (basic_next (pdu_basic pdu))) else Ok tt) ;;
  source_transmit now ctrl pdu payload mac r.
(** The one of a forwarder. *)
Definition forward_transmit (pdu : Pdu Sec GeoBroadcastHeader) (payload : D) (mac : MacAddress) r : res (Router Sec D) :=
  execute_media_procedures (itsGnIfType (mib cfg)) ;;
  let request := mkDataRequest geonet_ether_type (mid (gn_addr (m_local_position_vector r))) mac DP3
                   (request_lifetime (basic_lifetime (pdu_basic pdu))) in
  pass_down_request request (pdu_variant pdu) payload r.
Definition run_transmission (now : time_point) (f : ForwardingPacket Sec D) (mac : MacAddress) r : res (Router Sec D) :=
  match fp_transmit f with
  | SourceTransmit ctrl => gbc_source_transmit now ctrl (fp_pdu f) (fp_payload f) mac r
  | ForwardTransmit => forward_transmit (fp_pdu f) (fp_payload f) mac r
  | NoTransmit => Ok r
  end.
(** [NextHop::process] *)
Definition process_next_hop (now : time_point) (nh : NextHop Sec D) r : res (Router Sec D) :=
  match nh with Valid f mac => run_transmission now f mac r | _ => Ok r end.

(** ** Forwarding algorithms *)
Definition scf_of (pdu : Pdu Sec GeoBroadcastHeader) : bool := store_carry_forward (common_class (pdu_common pdu)).
Definition push_bc (now : time_point) (w : waiting Sec D) r : Router Sec D := with_bc (buffer_push lround_unspecified w now (m_bc_forward_buffer r)).2 r.
Definition nearer (dest : GeodeticPosition) (best : MacAddress * double) (e : LocationTableEntry) : res (MacAddress * double) :=
  dist ← distance dest (lpv_position (m_position_vector e));
  Ok (if dltb dist best.2 then (link_layer_address e, dist) else best).
Definition greedy_forwarding (now : time_point) (f : ForwardingPacket Sec D) r : res (NextHop Sec D * Router Sec D) :=
  let dest := gbc_position (pdu_extended (fp_pdu f)) in
  own ← distance dest (local_position r);
  mfr ← res_fold (nearer dest) (neighbours (visit_order (Sec := Sec) (D := D)) now (m_location_table r)) ([0; 0; 0; 0; 0; 0], own);
  if dltb mfr.2 own then Ok (Valid f mfr.1, r)
  else if scf_of (fp_pdu f) then Ok (Buffered, push_bc now (WaitingGbc (pending f GreedyAgain)) r)
  else Ok (Valid f cBroadcastMacAddress, r).

(** A packet in the contention buffer is broadcast when its time is over. *)
Definition contending (f : ForwardingPacket Sec D) (sender : MacAddress) : @CbfPacket (GbcPending Sec D) :=
  mkCbf (pending f (fun t => SendTo t cBroadcastMacAddress)) sender 1.
Definition timeout_cbf_progress (prog : double) : double :=
  let m := mib cfg in
  if dleb prog (itsGnDefaultMaxCommunicationRange m)
  then dadd (itsGnCbfMaxTime m) (dmul (ddiv (dsub (itsGnCbfMinTime m) (itsGnCbfMaxTime m)) (itsGnDefaultMaxCommunicationRange m)) prog)
  else itsGnCbfMinTime m.
(** The sender's position, if it is accurate. *)
Definition accurate_position (now : time_point) (mac : MacAddress) r : option LongPositionVector :=
  v ← get_position now mac (m_location_table r);
  if position_accuracy_indicator v then Some v else None.
Definition timeout_cbf (now : time_point) (sender : MacAddress) r : res double :=
  match accurate_position now sender r with
  | Some v => dist ← distance (lpv_position v) (local_position r); Ok (timeout_cbf_progress dist)
  | None => Ok (itsGnCbfMaxTime (mib cfg))
  end.
Definition enqueue_cbf (now : time_point) (c : @CbfPacket (GbcPending Sec D)) (timeout : double) r : res (Router Sec D) :=
  us ← clock_cast timeout;
  b ← cbf_enqueue now c us (m_cbf_buffer r);
  Ok (with_cbf b r).
Definition packet_id (f : ForwardingPacket Sec D) : Address * SequenceNumber :=
  (gn_addr (gbc_source (pdu_extended (fp_pdu f))), gbc_sequence (pdu_extended (fp_pdu f))).
Definition drop_cbf (f : ForwardingPacket Sec D) r : res (bool * Router Sec D) :=
  x ← try_drop (packet_id f) (m_cbf_buffer r);
  Ok (x.1, with_cbf x.2 r).

Definition non_area_contention_based_forwarding (now : time_point) (f : ForwardingPacket Sec D) (sender : option MacAddress) r :
    res (NextHop Sec D * Router Sec D) :=
  match sender with
  | None => Ok (Valid f cBroadcastMacAddress, r)
  | Some mac =>
      x ← drop_cbf f r;
      let '(dropped, r) := x : bool * Router Sec D in
      if dropped then Ok (Discarded, r)
      else
        destination ← get_destination (header_type (pdu_common (fp_pdu f))) (pdu_extended (fp_pdu f));
        match accurate_position now mac r with
        | Some v =>
            dist_sender ← distance (area_position destination) (lpv_position v);
            dist_local ← distance (area_position destination) (local_position r);
            if dltb dist_local dist_sender then
              r ← enqueue_cbf now (contending f mac) (timeout_cbf_progress (dsub dist_sender dist_local)) r;
              Ok (Buffered, r)
            else Ok (Discarded, r)
        | None => r ← enqueue_cbf now (contending f mac) (itsGnCbfMaxTime (mib cfg)) r; Ok (Buffered, r)
        end
  end.
Definition area_contention_based_forwarding (now : time_point) (f : ForwardingPacket Sec D) (sender : option MacAddress) r :
    res (NextHop Sec D * Router Sec D) :=
  match sender with
  | None => Ok (Valid f cBroadcastMacAddress, r)
  | Some mac =>
      x ← drop_cbf f r;
      let '(dropped, r) := x : bool * Router Sec D in
      if dropped then Ok (Discarded, r)
      else
        timeout ← timeout_cbf now mac r;
        r ← enqueue_cbf now (contending f mac) timeout r;
        Ok (Buffered, r)
  end.
Definition outside_sectorial_contention_area (now : time_point) (sender forwarder : MacAddress) r : res bool :=
  match get_position now sender (m_location_table r), get_position now forwarder (m_location_table r) with
  | Some s, Some w =>
      dist_r ← distance (lpv_position s) (local_position r);
      dist_f ← distance (lpv_position w) (lpv_position s);
      dist_rf ← distance (lpv_position w) (local_position r);
      let zero := d_of_Z 0 in
      let angle_fsr :=
        if dltb zero dist_r && dltb zero dist_f then
          g_acos (ddiv (dsub (dsub (dmul dist_rf dist_rf) (dmul dist_r dist_r)) (dmul dist_f dist_f))
                    (dmul (dmul (d_of_Z (-2)) dist_r) dist_f))
        else zero in
      Ok (negb (dltb dist_r dist_f && dltb dist_f (itsGnDefaultMaxCommunicationRange (mib cfg)) &&
                dltb angle_fsr (itsGnBroadcastCBFDefSectorAngle (mib cfg))))
  | _, _ => Ok true
  end.
Definition count_up_cbf (c : @CbfPacket (GbcPending Sec D)) : @CbfPacket (GbcPending Sec D) :=
  mkCbf (cbf_packet c) (cbf_sender c) (u32 (cbf_counter c + 1)).
Definition is_broadcast (nh : NextHop Sec D) : bool :=
  match nh with Valid _ mac => bool_decide (mac = cBroadcastMacAddress) | _ => false end.
Definition area_advanced_forwarding (now : time_point) (f : ForwardingPacket Sec D) (ll : option LinkLayer) r :
    res (NextHop Sec D * Router Sec D) :=
  match ll with
  | None => Ok (Valid f cBroadcastMacAddress, r)
  | Some ll =>
      _ ← get_destination (header_type (pdu_common (fp_pdu f))) (pdu_extended (fp_pdu f));
      x ← cbf_fetch lround_unspecified now (packet_id f) (m_cbf_buffer r);
      let '(cbf, b) := x : option (@CbfPacket (GbcPending Sec D)) * @CbfPacketBuffer (GbcPending Sec D) in
      let r := with_cbf b r in
      match cbf with
      | Some c =>
          if vanetzaCbfMaxCounter (mib cfg) <=? cbf_counter c then
            x ← drop_cbf f r; Ok (Discarded, x.2)
          else
            outside ← outside_sectorial_contention_area now (cbf_sender c) (ll_sender ll) r;
            if negb outside then x ← drop_cbf f r; Ok (Discarded, x.2)
            else
              timeout ← timeout_cbf now (ll_sender ll) r;
              r ← enqueue_cbf now (count_up_cbf c) timeout r;
              Ok (Buffered, r)
      | None =>
          if bool_decide (ll_destination ll = mid (gn_addr (m_local_position_vector r))) then
            x ← greedy_forwarding now f r;
            let '(nh, r) := x : NextHop Sec D * Router Sec D in
            let kept := if is_broadcast nh then mkForwarding (fp_pdu f) (fp_payload f) NoTransmit else f in
            r ← enqueue_cbf now (contending kept (ll_sender ll)) (itsGnCbfMaxTime (mib cfg)) r;
            Ok (nh, r)
          else
            timeout ← timeout_cbf now (ll_sender ll) r;
            r ← enqueue_cbf now (contending f (ll_sender ll)) timeout r;
            Ok (Buffered, r)
      end
  end.
Definition forwarding_algorithm_selection (now : time_point) (f : ForwardingPacket Sec D) (ll : option LinkLayer) r :
    res (NextHop Sec D * Router Sec D) :=
  destination ← get_destination (header_type (pdu_common (fp_pdu f))) (pdu_extended (fp_pdu f));
  inside ← inside_or_at_border destination (local_position r);
  if inside : bool then
    match itsGnAreaForwardingAlgorithm (mib cfg) with
    | Broadcast_Unspecified | SIMPLE => Ok (Valid f cBroadcastMacAddress, r)
    | Broadcast_CBF => area_contention_based_forwarding now f (ll_sender <$> ll) r
    | Advanced => area_advanced_forwarding now f ll r
    end
  else
    (** packets of a sender inside the area are not meant for forwarding outside *)
    from_inside ← match ll ≫= (fun ll => accurate_position now (ll_sender ll) r) with
                  | Some v => inside_or_at_border destination (lpv_position v)
                  | None => Ok false
                  end;
    if from_inside : bool then Ok (Discarded, r)
    else match itsGnNonAreaForwardingAlgorithm (mib cfg) with
         | Unicast_Unspecified | Greedy => greedy_forwarding now f r
         | Unicast_CBF => non_area_contention_based_forwarding now f (ll_sender <$> ll) r
         end.

(** ** Pending packets are processed *)
Definition run_action (now : time_point) (p : GbcPending Sec D) r : res (Router Sec D) :=
  let f := mkForwarding (gp_pdu p) (gp_payload p) in
  match gp_action p with
  | Forwarding t ll => x ← forwarding_algorithm_selection now (f t) ll r; process_next_hop now x.1 x.2
  | GreedyAgain t => x ← greedy_forwarding now (f t) r; process_next_hop now x.1 x.2
  | SendTo t mac => run_transmission now (f t) mac r
  end.
Definition run_waiting (now : time_point) r (w : waiting Sec D) : res (Router Sec D) :=
  match w with
  | WaitingShb pdu payload ctrl => shb_transmit now ctrl pdu payload r
  | WaitingGbc p => run_action now p r
  end.
Definition flush_broadcast_forwarding_buffer (now : time_point) r : res (Router Sec D) :=
  let '(packets, b) := buffer_flush lround_unspecified now (m_bc_forward_buffer r) in
  res_fold (run_waiting now) packets (with_bc b r).
(** Nothing ever enters this buffer. *)
Definition flush_unicast_forwarding_buffer (now : time_point) r : res (Router Sec D) :=
  let '(packets, b) := buffer_flush lround_unspecified now (m_uc_forward_buffer r) in
  res_fold (run_waiting now) packets (with_uc b r).
(** The buffer's callback; the packets handed over do not touch the buffer. *)
Definition cbf_timer_expired (now : time_point) r : res (Router Sec D) :=
  x ← cbf_flush lround_unspecified now (m_cbf_buffer r);
  let '(packets, b) := x : list (GbcPending Sec D) * @CbfPacketBuffer (GbcPending Sec D) in
  res_fold (fun r p => run_action now p r) packets (with_cbf b r).

(** ** Requests *)
Definition add_repetition (now : time_point) (request : GnDataRequest) (destination : option Area) (payload : D) r : res (Router Sec D) :=
  match repetition request with
  | Some x =>
      if has_further_repetition x then
        interval ← clock_cast x.1;
        Ok (with_repetitions (mkRepetition (now + interval) request destination payload :: m_repetitions r) r)
      else Ok r
  | None => Ok r
  end.
(** The unit of data is built from the base of the request: the hop limit is that of the
    request, as the headers' constructors for single-hop broadcasts are not chosen. *)
Definition create_shb_pdu (now : time_point) (request : GnDataRequest) r : res (Pdu Sec ShbHeader) :=
  common ← common_of_request (mib cfg) request;
  Ok (mkPdu (basic_of_request (mib cfg) request) (with_type TSB_Single_Hop common)
        (mkShb (m_local_position_vector r) (dcc_field (Sec := Sec) (D := D) now)) None).
Definition request_shb (now : time_point) (request : GnDataRequest) (payload : option D) r : res (ResultCode * Router Sec D) :=
  let result := confirm (confirm Accepted (validate_data_request (mib cfg) request)) (validate_payload payload_size (mib cfg) payload) in
  match payload with
  | Some data =>
      if accepted result then
        r ← add_repetition now request None data r;
        pdu ← create_shb_pdu now request r;
        let pdu := mkPdu (pdu_basic pdu) (with_payload (payload_size data) (pdu_common pdu)) (pdu_extended pdu) (pdu_secured pdu) in
        let ctrl := mkControl (req_profile request) (req_its_aid request) in
        r ← (if store_carry_forward (req_traffic_class request) && negb (has_neighbours now (m_location_table r))
             then Ok (push_bc now (WaitingShb pdu data ctrl) r)
             else shb_transmit now ctrl pdu data r);
        Ok (result, r)
      else Ok (result, r)
  | None => Ok (result, r)
  end.
(** [gbc_common], [gbc_fields]: what the header of a request does not take from the router. *)
Definition gbc_common (request : GnDataRequest) (destination : Area) (data : D) : res CommonHeader :=
  common ← common_of_request (mib cfg) request;
  Ok (with_payload (payload_size data) (with_type (gbc_header_type destination) common)).
Definition gbc_fields (reserved : Z * Z) (destination : Area) (sn : SequenceNumber) (source : LongPositionVector) : res GeoBroadcastHeader :=
  set_destination destination (mkGbc sn reserved.1 source 0 0 0 0 0 reserved.2).
Definition create_gbc_pdu (request : GnDataRequest) (destination : Area) (data : D) r : res (Pdu Sec GeoBroadcastHeader * Router Sec D) :=
  common ← gbc_common request destination data;
  let '(sn, next) := sn_postinc (m_local_sequence_number r) in
  extended ← gbc_fields (indeterminate (Sec := Sec) (D := D) sn) destination sn (m_local_position_vector r);
  Ok (mkPdu (basic_of_request (mib cfg) request) common extended None, with_sequence next r).
Definition request_gbc (now : time_point) (request : GnDataRequest) (destination : Area) (payload : option D) r : res (ResultCode * Router Sec D) :=
  let result := confirm (confirm Accepted (validate_area_request (mib cfg) request destination)) (validate_payload payload_size (mib cfg) payload) in
  match payload with
  | Some data =>
      if accepted result then
        r ← add_repetition now request (Some destination) data r;
        x ← create_gbc_pdu request destination data r;
        let '(pdu, r) := x : Pdu Sec GeoBroadcastHeader * Router Sec D in
        let p := mkGbcPending pdu data (Forwarding (SourceTransmit (mkControl (req_profile request) (req_its_aid request))) None) in
        r ← (if store_carry_forward (req_traffic_class request) && negb (has_neighbours now (m_location_table r))
             then Ok (push_bc now (WaitingGbc p) r)
             else run_action now p r);
        Ok (result, r)
      else Ok (result, r)
  | None => Ok (result, r)
  end.
(** [Repeater::trigger] for one of the repetitions: the request is executed again.  It is
    taken out of the list first; nothing reads the list in between. *)
Definition repetition_due (now : time_point) (i : nat) r : res (Router Sec D) :=
  match m_repetitions r !! i with
  | Some rep =>
      match repetition (rep_request rep) with
      | Some x =>
          let '(interval, maximum) := decrement_by_one x in
          let maximum := dsub maximum (ddiv (d_of_Z (now - rep_due rep)) (d_of_Z 1000000)) in
          let further := if has_further_repetition (interval, maximum) then Some (interval, maximum) else None in
          let request := with_repetition further (rep_request rep) in
          let r := with_repetitions (delete i (m_repetitions r)) r in
          x ← match rep_destination rep with
              | Some area => request_gbc now request area (Some (rep_payload rep)) r
              | None => request_shb now request (Some (rep_payload rep)) r
              end;
          Ok x.2
      | None => Fail (AssertFailed "request.repetition")
      end
  | None => Ok r
  end.

(** ** Beacons *)
Definition GN_MGMT : Z := 141.
Definition create_beacon_pdu r : Pdu Sec BeaconHeader :=
  mkPdu (with_hop_limit 1 (basic_of_mib (mib cfg))) (with_maximum_hop_limit 1 (with_type HT_Beacon (common_of_mib (mib cfg))))
    (mkBeacon (m_local_position_vector r)) None.
Definition on_beacon_timer_expired (now : time_point) r : res (Router Sec D) :=
  let pdu := create_beacon_pdu r in
  x ← (if secure then encap_packet now GN_MGMT (pdu_with_basic (with_basic_next Basic_Secured (pdu_basic pdu)) pdu) no_payload
       else Ok (pdu_with_basic (with_basic_next Basic_Common (pdu_basic pdu)) pdu, no_payload));
  execute_media_procedures (itsGnIfType (mib cfg)) ;;
  r ← pass_down cBroadcastMacAddress x.1 x.2 r;
  reset_beacon_timer now r.

(** ** Indications *)
(** What a packet is read from: the unit of data of a sender in the same simulation, or what
    the parser reads from bytes. *)
Inductive IndicationContext :=
| ContextCast (pdu : Pdu Sec HeaderVariant) (payload : D)
| ContextDeserialize (basic : option BasicHeader) (common : option CommonHeader) (secured : option Sec)
    (extended : HeaderType -> option HeaderVariant) (payload : D) (parsed_bytes : Z).
Definition parse_basic (c : IndicationContext) : option BasicHeader :=
  match c with ContextCast pdu _ => Some (pdu_basic pdu) | ContextDeserialize basic _ _ _ _ _ => basic end.
Definition parse_secured (c : IndicationContext) : option Sec :=
  match c with ContextCast pdu _ => pdu_secured pdu | ContextDeserialize _ _ secured _ _ _ => secured end.
(** The context from the common header on: of the packet, or of a secured message in it, with
    what the indication holds so far. *)
Record CommonContext := mkCommonContext {
  cc_common : option CommonHeader;
  cc_extended : HeaderType -> option HeaderVariant;
  cc_payload : D;
  cc_network_size : Z;
  cc_secured : option Sec;
  cc_report : DecapReport;
  cc_its_aid : option Z;
  cc_permissions : option (list Z)
}.
Definition network_size (c : IndicationContext) : Z :=
  match c with ContextCast pdu _ => variant_pdu_length sec_size pdu | ContextDeserialize _ _ _ _ _ n => n end.
Definition unsecured_context (c : IndicationContext) : CommonContext :=
  match c with
  | ContextCast pdu payload =>
      mkCommonContext (Some (pdu_common pdu)) (fun _ => Some (pdu_extended pdu)) payload (network_size c) (pdu_secured pdu)
        Unsigned_Message None None
  | ContextDeserialize _ common _ extended payload _ =>
      mkCommonContext common extended payload (network_size c) None Unsigned_Message None None
  end.
(** A plaintext of chunks is merged into the packet; into one of bytes, which the source takes for
    improbable, behind a buffer of zeros of its size, and without a network layer. *)
Definition merged_payload (c : IndicationContext) (plain : Plaintext D) : D :=
  match plain_parsed plain, c with
  | None, ContextDeserialize _ _ _ _ _ _ => after_zeros (Sec := Sec) (plain_payload plain)
  | _, _ => plain_payload plain
  end.
Definition merged_size (c : IndicationContext) (plain : Plaintext D) : Z :=
  match plain_parsed plain, c with
  | Some parsed, _ => parsed
  | None, ContextDeserialize _ _ _ _ _ _ => 0
  | None, ContextCast _ _ => network_size c
  end.
Definition secured_context (c : IndicationContext) (s : Sec) (d : DecapConfirm D) : CommonContext :=
  let plain := plaintext_payload d in
  mkCommonContext (plain_common plain) (plain_extended plain) (merged_payload c plain) (merged_size c plain)
    (Some s) (decap_report d) (Some (decap_its_aid d)) (Some (decap_permissions d)).

Definition drop_packet (why : PacketDropReason) r : Router Sec D := emit (PacketDropped why) r.
Definition stop_forwarding (why : ForwardingStopReason) r : Router Sec D := emit (ForwardingStopped why) r.
Definition pass_up (ind : DataIndication) (payload : D) r : Router Sec D :=
  if transport_ifcs cfg (ind_upper_protocol ind) then emit (PassedUp (m_local_position_vector r) ind payload) r else r.

Definition interface_is_g5 : bool := match itsGnIfType (mib cfg) with Interface_ITS_G5 => true | _ => false end.
Definition process_shb (now : time_point) (shb : ShbHeader) (packet_size : Z) (ll : LinkLayer) r : res (bool * Router Sec D) :=
  let r := detect_duplicate_address (gn_addr (shb_source shb)) (ll_sender ll) r in
  t ← shb_table now (itsGnMaxPacketDataRateEmaBeta (mib cfg)) packet_size interface_is_g5 (shb_source shb) (shb_dcc shb) (m_location_table r);
  Ok (true, with_table t r).
Definition process_beacon (now : time_point) (beacon : BeaconHeader) (packet_size : Z) (ll : LinkLayer) r : bool * Router Sec D :=
  let source := beacon_source beacon in
  let r := detect_duplicate_address (gn_addr source) (ll_sender ll) r in
  let '(e, t) := table_update now source (m_location_table r) in
  let e := set_neighbour true (update_pdr now packet_size (itsGnMaxPacketDataRateEmaBeta (mib cfg)) e) in
  (false, with_table (set_value (mid (gn_addr source)) e t) r).

(** Duplicates are looked for unless contention takes care of them. *)
Definition looks_for_duplicates (within_destination : bool) : bool :=
  if within_destination then
    match itsGnAreaForwardingAlgorithm (mib cfg) with Broadcast_Unspecified | SIMPLE => true | _ => false end
  else match itsGnNonAreaForwardingAlgorithm (mib cfg) with Unicast_Unspecified | Greedy => true | _ => false end.
(** Packets of a source, or from a sender, that sends too much are not forwarded. *)
Definition stops_forwarding (now : time_point) (hops : Z) (source_entry : LocationTableEntry) (sender : MacAddress) r : option ForwardingStopReason :=
  let limit := dmul (d_of_Z (itsGnMaxPacketDataRate (mib cfg))) (d_of_Z 1000) in
  if hops <=? 1 then Some Stop_Hop_Limit
  else if itsGnMaxPacketDataRate (mib cfg) <? 2 ^ 32 - 1 then
    if dltb limit (m_pdr source_entry) then Some Source_PDR
    else match get_entry now sender (m_location_table r) with
         | Some e => if dltb limit (m_pdr e) then Some Sender_PDR else None
         | None => None
         end
  else None.
(** [create_forwarding_duplicate], and one hop less. *)
Definition forwarding_duplicate (pdu : Pdu Sec GeoBroadcastHeader) (payload : D) : Pdu Sec GeoBroadcastHeader * D :=
  (pdu_with_basic (with_hop_limit (hop_limit (pdu_basic pdu) - 1) (pdu_basic pdu)) pdu,
   match pdu_secured pdu with Some _ => no_payload | None => payload end).
Definition forward_gbc (now : time_point) (pdu : Pdu Sec GeoBroadcastHeader) (payload : D) (ll : LinkLayer) r : res (Router Sec D) :=
  let '(dup, payload) := forwarding_duplicate pdu payload in
  let p := mkGbcPending dup payload (Forwarding ForwardTransmit (Some ll)) in
  if scf_of pdu && negb (has_neighbours now (m_location_table r)) then Ok (push_bc now (WaitingGbc p) r) else run_action now p r.
Definition process_gbc (now : time_point) (pdu : Pdu Sec GeoBroadcastHeader) (payload : D) (packet_size : Z) (ll : LinkLayer) r :
    res (bool * Router Sec D) :=
  let gbc := pdu_extended pdu in
  let source_addr := gn_addr (gbc_source gbc) in
  dest_area ← get_destination (header_type (pdu_common pdu)) gbc;
  let locte_exists := has_entry now source_addr (m_location_table r) in
  within ← inside_or_at_border dest_area (local_position r);
  let '(duplicate, t) :=
    if looks_for_duplicates within
    then detect_duplicate_packet (itsGnDPLLength (mib cfg)) now source_addr (gbc_sequence gbc) (m_location_table r)
    else (false, m_location_table r) in
  let r := with_table t r in
  if duplicate : bool then Ok (false, r)
  else
    let r := detect_duplicate_address source_addr (ll_sender ll) r in
    let '(e, t) := table_update now (gbc_source gbc) (m_location_table r) in
    let e := update_pdr now packet_size (itsGnMaxPacketDataRateEmaBeta (mib cfg)) e in
    let e := if locte_exists then e else set_neighbour false e in
    let r := with_table (set_value (mid source_addr) e t) r in
    r ← flush_unicast_forwarding_buffer now r;
    match stops_forwarding now (hop_limit (pdu_basic pdu)) e (ll_sender ll) r with
    | Some why => Ok (within, stop_forwarding why r)
    | None => r ← forward_gbc now pdu payload ll r; Ok (within, r)
    end.

Definition upper_of (n : NextHeaderCommon) : UpperProtocol :=
  match n with Common_BTP_A => Upper_BTP_A | Common_BTP_B => Upper_BTP_B | Common_IPv6 => Upper_IPv6 | _ => Upper_Unknown end.
Definition indicate_extended (now : time_point) (basic : BasicHeader) (common : CommonHeader) (c : CommonContext) (ll : LinkLayer) r : res (Router Sec D) :=
  match cc_extended c (header_type common) with
  | None => Ok (drop_packet Parse_Extended_Header r)
  | Some extended =>
      let payload := cc_payload c in
      if negb (common_payload common =? payload_size payload) then Ok (drop_packet Payload_Size r)
      else
        let packet_size := cc_network_size c + payload_size payload in
        let indication t destination source :=
          mkIndication (upper_of (common_next common)) t destination source (cc_report c) (cc_its_aid c) (cc_permissions c)
            (common_class common) (basic_lifetime basic) (hop_limit basic) in
        match extended with
        | ShbVariant shb =>
            x ← process_shb now shb packet_size ll r;
            Ok (if x.1 : bool then pass_up (indication SHB None (shb_source shb)) payload x.2 else x.2)
        | GbcVariant gbc =>
            destination ← get_destination (header_type common) gbc;
            x ← process_gbc now (mkPdu basic common gbc (cc_secured c)) payload packet_size ll r;
            Ok (if x.1 : bool then pass_up (indication GBC (Some destination) (gbc_source gbc)) payload x.2 else x.2)
        | BeaconVariant beacon => Ok (process_beacon now beacon packet_size ll r).2
        end
  end.
Definition indicate_common (now : time_point) (basic : BasicHeader) (c : CommonContext) (ll : LinkLayer) r : res (Router Sec D) :=
  match cc_common c with
  | None => Ok (drop_packet Parse_Common_Header r)
  | Some common =>
      if maximum_hop_limit common <? hop_limit basic then Ok (drop_packet Drop_Hop_Limit r)
      else
        let r := with_table (soft_drop_expired now (m_location_table r)) r in
        r ← flush_broadcast_forwarding_buffer now r;
        indicate_extended now basic common c ll r
  end.
(** Reports that do not stop a packet when they are not handled strictly. *)
Definition tolerable (x : DecapReport) : bool :=
  match x with
  | False_Signature | Invalid_Certificate | Revoked_Certificate | Inconsistant_Chain | Invalid_Timestamp | Invalid_Mobility_Data
  | Unsigned_Message | Signer_Certificate_Not_Found | Unsupported_Signer_Identifier_Type | Unencrypted_Message => true
  | _ => false
  end.
Definition non_strict : bool := match itsGnSnDecapResultHandling (mib cfg) with Non_Strict => true | Strict => false end.
Definition indicate_secured (now : time_point) (basic : BasicHeader) (c : IndicationContext) (ll : LinkLayer) r : res (Router Sec D) :=
  match parse_secured c with
  | None => Ok (drop_packet Parse_Secured_Header r)
  | Some s =>
      if security_entity cfg then
        let d := decapsulate now s in
        if bool_decide (decap_report d = Success) then indicate_common now basic (secured_context c s d) ll r
        else if non_strict then
          if tolerable (decap_report d) then indicate_common now basic (secured_context c s d) ll r
          else Ok (drop_packet Decap_Unsuccessful_Non_Strict r)
        else Ok (drop_packet Decap_Unsuccessful_Strict r)
      else Ok (drop_packet Security_Entity_Missing r)
  end.
Definition indicate (now : time_point) (c : IndicationContext) (ll : LinkLayer) r : res (Router Sec D) :=
  match parse_basic c with
  | None => Ok (drop_packet Parse_Basic_Header r)
  | Some basic =>
      if negb (version basic =? itsGnProtocolVersion (mib cfg)) then Ok (drop_packet ITS_Protocol_Version r)
      else match basic_next basic with
           | Basic_Secured => indicate_secured now basic c ll r
           | Basic_Common =>
               if negb secure || non_strict then indicate_common now basic (unsecured_context c) ll r
               else Ok (drop_packet Decap_Unsuccessful_Strict r)
           | _ => Ok r
           end
  end.

(** ** Everything that can happen to a router *)
Inductive router_event :=
| PositionUpdate (now : time_point) (fix_ : PositionFix)
| AddressSet (addr : Address)
| ShbRequest (now : time_point) (request : GnDataRequest) (payload : option D)
| GbcRequest (now : time_point) (request : GnDataRequest) (destination : Area) (payload : option D)
| RepetitionTimer (now : time_point) (i : nat)
| BeaconTimer (now : time_point)
| CbfTimer (now : time_point)
| Reception (now : time_point) (c : IndicationContext) (ll : LinkLayer).
Definition router_step r (e : router_event) : res (Router Sec D) :=
  match e with
  | PositionUpdate now fix_ => Ok (update_position now fix_ r)
  | AddressSet addr => Ok (set_address addr r)
  | ShbRequest now request payload => snd <$> request_shb now request payload r
  | GbcRequest now request destination payload => snd <$> request_gbc now request destination payload r
  | RepetitionTimer now i => repetition_due now i r
  | BeaconTimer now => on_beacon_timer_expired now r
  | CbfTimer now => cbf_timer_expired now r
  | Reception now c ll => indicate now c ll r
  end.
End Operations.
