(* ===== verification/GeoNetwork.v ===== *)
(** * GeoNetworking: broadcasts in a network of routers

    Routers as GeoRouter models them on a common medium: whatever a router has passed down can be
    received by any station, at any time, any number of times or never.  The packets that wait
    in buffers, contend or are in the air stem from requests of stations, and reach the services
    of stations inside their destination. *)

From S2P Require Import Prelude Float64 Timer Networking Transfusion LocationTable FlowControl GeoBuffer ChannelSharing GeoHeaders GeoRouter.

(** ** The network *)
Section Network.
Context {Sec D : Type} (around : nat -> Surroundings Sec D) {geo : Geography} (cfgs : nat -> RouterConfig).

(** The GeoBroadcasts requested: where, and of what; and what was received: where, from whom,
    and the packet. *)
Record history := mkHistory {
  requested : list (nat * GnDataRequest * Area * D);
  received : list (nat * nat * Pdu Sec HeaderVariant * D)
}.
Record network := mkNetwork { net_routers : list (Router Sec D); net_past : history }.
(** [Deliver i j k]: station [i] receives the [k]-th packet in the log of [j]. *)
Inductive net_event := At (i : nat) (e : @router_event Sec D) | Deliver (now : time_point) (i j k : nat).
Definition noting_request (i : nat) (e : @router_event Sec D) (past : history) : history :=
  match e with
  | GbcRequest _ request destination (Some data) =>
      mkHistory ((i, request, destination, data) :: requested past) (received past)
  | _ => past
  end.
Definition noting_reception (i j : nat) (pdu : Pdu Sec HeaderVariant) (payload : D) (past : history) : history :=
  mkHistory (requested past) ((i, j, pdu, payload) :: received past).
(** What happens at a station, and what is noted of it. *)
Definition step_at (i : nat) (e : @router_event Sec D) (note : history -> history) (n : network) : res network :=
  match net_routers n !! i with
  | Some r =>
      r' ← @router_step Sec D (around i) _ (cfgs i) r e;
      Ok (mkNetwork (<[i := r']> (net_routers n)) (note (net_past n)))
  | None => Ok n
  end.
Definition net_step (n : network) (e : net_event) : res network :=
  match e with
  | At i e => step_at i e (noting_request i e) n
  | Deliver now i j k =>
      match net_routers n !! j ≫= fun r => m_log r !! k with
      | Some (PassedDown request pdu payload) =>
          step_at i (Reception now (ContextCast pdu payload) (mkLinkLayer (request_source request) (request_destination request)))
            (noting_reception i j pdu payload) n
      | _ => Ok n
      end
  end.
(** What the network does not receive from itself does not come by [At]. *)
Definition own_event (e : net_event) : Prop := match e with At _ (Reception _ _ _) => False | _ => True end.
Definition starting (routers : list (Router Sec D)) : Prop :=
  forall i r, routers !! i = Some r -> exists now, @router_create Sec D (around i) (cfgs i) now = Ok r.

(** ** What packets stem from *)
Implicit Types (past : history) (g : GeoBroadcastHeader).
(** The header but for the position of the source. *)
Definition same_header g g' : Prop := with_source lpv_default g = with_source lpv_default g'.
(** A secured message holds the headers and the data, otherwise the data follow. *)
Definition carried (pdu : Pdu Sec HeaderVariant) (payload data : D) : Prop :=
  match pdu_secured pdu with
  | None => payload = data
  | Some s => exists i now aid, s = @encapsulate _ _ (around i) now aid (pdu_common pdu) (pdu_extended pdu) data
  end.
(** The way of a broadcast of [data]: the stations that have sent it, the latest first.  The last
    is the one it was requested at; each other one has received the packet from the one behind it,
    and sends it with the same headers and one hop less. *)
Inductive stems past : list nat -> Z -> CommonHeader -> GeoBroadcastHeader -> D -> Prop :=
| stems_requested j request area reserved sn source hops common g g0 data :
    (j, request, area, data) ∈ requested past ->
    @gbc_common Sec D (around j) (cfgs j) request area data = Ok common ->
    gbc_fields reserved area sn source = Ok g0 -> same_header g g0 ->
    hops = wrap 8 (req_hop_limit request) ->
    stems past [j] hops common g data
| stems_forwarded i j route pdu payload hops g g' data :
    stems past (j :: route) (hop_limit (pdu_basic pdu)) (pdu_common pdu) g data ->
    (i, j, pdu, payload) ∈ received past ->
    pdu_extended pdu = GbcVariant g -> carried pdu payload data -> same_header g' g ->
    1 < hop_limit (pdu_basic pdu) -> hops = hop_limit (pdu_basic pdu) - 1 ->
    stems past (i :: j :: route) hops (pdu_common pdu) g' data.
(** What station [i] may send. *)
Definition genuine past (i : nat) (pdu : Pdu Sec HeaderVariant) (payload : D) : Prop :=
  exists data, carried pdu payload data /\
    forall g, pdu_extended pdu = GbcVariant g -> exists route, stems past (i :: route) (hop_limit (pdu_basic pdu)) (pdu_common pdu) g data.
(** The request at the end of a way, and the hops behind the packet. *)
Definition traced past (route : list nat) (common : CommonHeader) g (data : D) (hops_left : Z) (request : GnDataRequest) (area : Area) : Prop :=
  exists j, last route = Some j /\ (j, request, area, data) ∈ requested past /\
    get_destination (header_type common) g = Ok (resolved area) /\
    hops_left + (Z.of_nat (length route) - 1) = wrap 8 (req_hop_limit request) /\
    (1 < Z.of_nat (length route) -> 1 <= hops_left).
(** The packet station [i] has received from [j] with this header and data. *)
Definition heard past (i : nat) (basic : BasicHeader) (common : CommonHeader) g (data : D) (j : nat) (route : list nat) : Prop :=
  exists pdu payload, (i, j, pdu, payload) ∈ received past /\ pdu_basic pdu = basic /\ pdu_common pdu = common /\
    pdu_extended pdu = GbcVariant g /\ carried pdu payload data /\ stems past (j :: route) (hop_limit basic) common g data.
Definition consistent (pdu : Pdu Sec HeaderVariant) : Prop :=
  is_secured (basic_next (pdu_basic pdu)) = bool_decide (is_Some (pdu_secured pdu)).
(** What station [i] passes up is the data of a packet it has received, which a request began
    and which is inside its destination. *)
Definition delivered past (i : nat) (here : LongPositionVector) (ind : DataIndication) (payload : D) : Prop :=
  exists basic common g j route request area,
    heard past i basic common g payload j route /\ traced past (j :: route) common g payload (hop_limit basic) request area /\
    ind_destination ind = Some (resolved area) /\ inside_or_at_border (resolved area) (lpv_position here) = Ok true /\
    remaining_hop_limit ind = hop_limit basic.
Definition out_ok past (i : nat) (o : router_out Sec D) : Prop :=
  match o with
  | PassedDown _ pdu payload => genuine past i pdu payload /\ consistent pdu
  | PassedUp here ind payload => ind_transport_type ind = GBC -> delivered past i here ind payload
  | _ => True
  end.

(** ** What routers hold *)
Definition packet_ok past (i : nat) (pdu : Pdu Sec GeoBroadcastHeader) (payload : D) (t : transmission) : Prop :=
  genuine past i (pdu_variant pdu) payload /\ forall c, t = SourceTransmit c -> pdu_secured pdu = None.
Definition forwarding_ok past i (f : ForwardingPacket Sec D) : Prop := packet_ok past i (fp_pdu f) (fp_payload f) (fp_transmit f).
Definition action_transmission (a : gbc_action) : transmission :=
  match a with Forwarding t _ => t | GreedyAgain t => t | SendTo t _ => t end.
Definition pending_ok past i (p : GbcPending Sec D) : Prop := packet_ok past i (gp_pdu p) (gp_payload p) (action_transmission (gp_action p)).
Definition waiting_ok past i (w : waiting Sec D) : Prop :=
  match w with WaitingShb pdu _ _ => pdu_secured pdu = None | WaitingGbc p => pending_ok past i p end.
Definition next_hop_ok past i (nh : NextHop Sec D) : Prop := match nh with Valid f _ => forwarding_ok past i f | _ => True end.
Definition repetition_ok past (i : nat) (x : Repetition D) : Prop :=
  forall area, rep_destination x = Some area -> exists rest, (i, with_repetition rest (rep_request x), area, rep_payload x) ∈ requested past.
Record router_ok past (i : nat) (r : Router Sec D) : Prop := {
  ok_bc : Forall (fun n => waiting_ok past i (node_data n)) (m_nodes (m_bc_forward_buffer r));
  ok_uc : Forall (fun n => waiting_ok past i (node_data n)) (m_nodes (m_uc_forward_buffer r));
  ok_cbf : Forall (fun x => pending_ok past i (cbf_packet x.2)) (m_packets (m_cbf_buffer r));
  ok_repetitions : Forall (repetition_ok past i) (m_repetitions r);
  ok_log : Forall (out_ok past i) (m_log r)
}.
Definition keeps past i (r r' : Router Sec D) : Prop :=
  router_ok past i r -> router_ok past i r' /\ local_position r' = local_position r.
#[export] Instance keeps_preorder past i : PreOrder (keeps past i).
Proof.
  split; [by intros r ?|]. intros r1 r2 r3 H1 H2 Hr. destruct (H1 Hr) as [Hr2 <-]. by apply H2.
Qed.
Lemma res_fold_keeps past i {A} (f : Router Sec D -> A -> res (Router Sec D)) (P : A -> Prop) l :
  (forall r x r', P x -> f r x = Ok r' -> keeps past i r r') -> forall r r', Forall P l -> res_fold f l r = Ok r' -> keeps past i r r'.
Proof.
  intros Hf. induction l as [|x l IH]; intros r r' HP Hr; cbn in Hr; [apply Ok_inj in Hr as <-; reflexivity|].
  apply Forall_cons in HP as [Hx HP]. apply bind_Ok in Hr as (r1 & H1 & Hr). transitivity r1; eauto.
Qed.

(** ** Lifetimes, and what happens later, do not matter *)
Definition later past past' : Prop := requested past ⊆ requested past' /\ received past ⊆ received past'.
Lemma stems_mono past past' route hops common g data : later past past' ->
  stems past route hops common g data -> stems past' route hops common g data.
Proof.
  intros [H1 H2]. induction 1; [eapply stems_requested|eapply stems_forwarded]; eauto.
Qed.
Lemma genuine_mono past past' i pdu payload : later past past' -> genuine past i pdu payload -> genuine past' i pdu payload.
Proof.
  intros Hs (data & Hc & Hg). exists data. split; [done|]. intros g E. destruct (Hg g E) as [route H]. exists route. by eapply stems_mono.
Qed.
Lemma packet_mono past past' i pdu payload t : later past past' -> packet_ok past i pdu payload t -> packet_ok past' i pdu payload t.
Proof. intros Hs [Hg Ht]. split; [by eapply genuine_mono|done]. Qed.
Lemma waiting_mono past past' i w : later past past' -> waiting_ok past i w -> waiting_ok past' i w.
Proof. destruct w; [done|]. apply packet_mono. Qed.
Lemma delivered_mono past past' i here ind data : later past past' -> delivered past i here ind data -> delivered past' i here ind data.
Proof.
  intros Hl (basic & common & g & j & route & rq & area & (pdu & payload & Hin & E1 & E2 & E3 & Hc & Hs) & (k & Hk & Hr & H) & H').
  exists basic, common, g, j, route, rq, area. split; [|split; [|done]].
  - exists pdu, payload. split; [by apply Hl|]. repeat (split; [done|]). by eapply stems_mono.
  - exists k. split; [done|]. split; [by apply Hl|done].
Qed.
Lemma out_mono past past' i o : later past past' -> out_ok past i o -> out_ok past' i o.
Proof.
  destruct o as [rq pdu payload|here ind payload| |]; cbn; try done.
  - intros Hs [? ?]. split; [by eapply genuine_mono|done].
  - intros Hs Ho E. by eapply delivered_mono; [|apply Ho].
Qed.
Lemma router_mono past past' i r : later past past' -> router_ok past i r -> router_ok past' i r.
Proof.
  intros Hs [H1 H2 H3 H4 H5]. split.
  - eapply Forall_impl; [exact H1|]. intros n. by apply waiting_mono.
  - eapply Forall_impl; [exact H2|]. intros n. by apply waiting_mono.
  - eapply Forall_impl; [exact H3|]. intros n. by apply packet_mono.
  - eapply Forall_impl; [exact H4|]. intros x Hx area E. destruct (Hx area E) as [rest Hin]. exists rest. by apply Hs.
  - eapply Forall_impl; [exact H5|]. intros o. by apply out_mono.
Qed.
Lemma merged_cast `{!Surroundings Sec D} (pdu : Pdu Sec HeaderVariant) payload (p : Plaintext D) :
  merged_payload (ContextCast pdu payload) p = plain_payload p.
Proof. unfold merged_payload. by destruct (plain_parsed p). Qed.
Lemma pending_lifetime past i q u (p : GbcPending Sec D) `{!Surroundings Sec D} :
  pending_ok past i p -> pending_ok past i (reduce_lifetime u q p).2.
Proof. unfold reduce_lifetime. destruct (q <=? 0); [done|]. by destruct (q <? _). Qed.
Lemma waiting_lifetime past i q u (w : waiting Sec D) `{!Surroundings Sec D} :
  waiting_ok past i w -> waiting_ok past i (reduce_lifetime u q w).2.
Proof. unfold reduce_lifetime. destruct (q <=? 0); [done|]. destruct (q <? _); by destruct w. Qed.

(** ** What a way tells *)
Lemma stems_source past route hops common g v data : stems past route hops common g data ->
  stems past route hops common (with_source v g) data.
Proof.
  destruct 1 as [j rq area u sn src hops common g g0 data Hin Hc Hg Hh Hl|i j route pdu payload hops g g' data Hs Hin Hx Hc Hh H1 Hl].
  - by eapply stems_requested.
  - by eapply stems_forwarded.
Qed.
Lemma stems_traced past route hops common g data : stems past route hops common g data ->
  exists request area, traced past route common g data hops request area.
Proof.
  assert (forall t g g', same_header g g' -> get_destination t g = get_destination t g') as Hdest.
  { intros t g1 g2 H. by rewrite <- (destination_of_source _ lpv_default g1), H, destination_of_source. }
  induction 1 as [j rq area u sn src hops common g g0 data Hin Hc Hg Hh Hl|i j route pdu payload hops g g' data Hs IH Hin Hx Hc Hh H1 Hl].
  - exists rq, area, j. split; [done|]. split; [done|]. split; [|cbn [length]; lia].
    apply bind_Ok in Hc as (c0 & _ & Hc). apply Ok_inj in Hc as <-. cbn [header_type with_payload with_type].
    rewrite (Hdest _ _ _ Hh). by eapply destination_resolved.
  - destruct IH as (rq & area & k & Hk & Hr & Hd & Hhops & Hle). exists rq, area, k. split; [done|]. split; [done|].
    split; [by rewrite (Hdest _ _ _ Hh)|]. cbn [length] in *. lia.
Qed.
End Network.

(** ** One station: every operation keeps the invariant *)
Section Station.
Context {Sec D : Type} (around : nat -> Surroundings Sec D) {geo : Geography} (cfgs : nat -> RouterConfig).
Context {S : Surroundings Sec D} (cfg : RouterConfig) (i : nat) (HS : S = around i) (Hcfg : cfg = cfgs i).
Context (past : @history Sec D).
Implicit Types (r : Router Sec D) (f : ForwardingPacket Sec D).
Abbreviation keeps := (keeps around cfgs past i).
Abbreviation genuine := (genuine around cfgs past).
Abbreviation stems := (stems around cfgs past).

Lemma keeps_emit o r : out_ok around cfgs past i o -> keeps r (emit o r).
Proof. intros Ho []. split; [|done]. split; try done. cbn. apply Forall_app. by split; [|apply Forall_singleton]. Qed.
Lemma pass_down_spec request pdu payload r r' : pass_down_request request pdu payload r = Ok r' ->
  consistent pdu /\ r' = emit (PassedDown request pdu payload) r.
Proof.
  intros E. unfold pass_down_request in E.
  unfold consistent. destruct (pdu_secured pdu); [destruct (is_secured _) eqn:Hs; [|done]; cbn in E; destruct (0 <? _); [done|]|
    destruct (is_secured _) eqn:Hs; [done|]]; apply Ok_inj in E; by split.
Qed.
Lemma pass_down_keeps request pdu payload r r' : pass_down_request request pdu payload r = Ok r' -> genuine i pdu payload -> keeps r r'.
Proof. intros [Hc ->]%pass_down_spec Hg. by apply keeps_emit. Qed.
(** What the source's operations pass down: the data, or a message that secures them. *)
Lemma plain_genuine {H} `{!ExtendedHeader H} (pdu : Pdu Sec H) payload : pdu_secured pdu = None ->
  (forall g, extended_variant (pdu_extended pdu) = GbcVariant g -> exists route, stems (i :: route) (hop_limit (pdu_basic pdu)) (pdu_common pdu) g payload) ->
  genuine i (pdu_variant pdu) payload.
Proof. intros Hs Hg. exists payload. split; [|exact Hg]. unfold carried. cbn. by rewrite Hs. Qed.
Lemma encap_genuine {H} `{!ExtendedHeader H} now aid (pdu : Pdu Sec H) payload x : encap_packet cfg now aid pdu payload = Ok x ->
  (forall g, extended_variant (pdu_extended pdu) = GbcVariant g -> exists route, stems (i :: route) (hop_limit (pdu_basic pdu)) (pdu_common pdu) g payload) ->
  genuine i (pdu_variant x.1) x.2.
Proof.
  unfold encap_packet. destruct (security_entity cfg); [|done]. intros E Hg. apply bind_Ok in E as ([] & _ & E). apply bind_Ok in E as ([] & _ & E).
  apply Ok_inj in E as <-. exists payload. split; [|exact Hg]. exists i, now, aid. by rewrite <- HS.
Qed.
(** What the header says of the data does not depend on the source's position. *)
Lemma source_transmit_keeps {H} `{!ExtendedHeader H} now ctrl (pdu : Pdu Sec H) payload mac r r' :
  source_transmit cfg now ctrl pdu payload mac r = Ok r' -> pdu_secured pdu = None ->
  (forall v g, extended_variant (with_source v (pdu_extended pdu)) = GbcVariant g ->
     exists route, stems (i :: route) (hop_limit (pdu_basic pdu)) (pdu_common pdu) g payload) -> keeps r r'.
Proof.
  intros E Hsec Hg. unfold source_transmit in E. apply bind_Ok in E as (x & Hx & E). apply bind_Ok in E as ([] & _ & E).
  apply pass_down_keeps in E; [exact E|]. clear E.
  destruct (itsGnSecurity _); [|apply Ok_inj in Hx as <-; apply plain_genuine; [done|]; intros g; apply Hg].
  eapply encap_genuine; [exact Hx|]. intros g. apply Hg.
Qed.
Lemma beacon_timer_keeps now r r' : reset_beacon_timer (Sec := Sec) (D := D) cfg now r = Ok r' -> keeps r r'.
Proof. unfold reset_beacon_timer. intros E. apply bind_Ok in E as (next & _ & E). apply Ok_inj in E as <-. intros []. by repeat split. Qed.
Lemma shb_transmit_keeps now ctrl pdu payload r r' : shb_transmit cfg now ctrl pdu payload r = Ok r' -> pdu_secured pdu = None -> keeps r r'.
Proof.
  intros E Hs. apply bind_Ok in E as (r1 & H1 & E). transitivity r1; [|by eapply beacon_timer_keeps].
  eapply (source_transmit_keeps (H := ShbHeader)); [exact H1|done|]. intros v g [=].
Qed.
Lemma transmission_keeps now f mac r r' : run_transmission cfg now f mac r = Ok r' -> forwarding_ok around cfgs past i f -> keeps r r'.
Proof.
  intros E [Hg Ht]. unfold run_transmission in E. destruct (fp_transmit f) as [ctrl| |]; [| |apply Ok_inj in E as <-; reflexivity].
  - specialize (Ht ctrl eq_refl). unfold gbc_source_transmit in E. apply bind_Ok in E as ([] & _ & E).
    eapply source_transmit_keeps; [exact E|done|]. intros v g [= <-]. destruct Hg as (data & Hc & Hg).
    unfold carried in Hc. cbn in Hc. rewrite Ht in Hc. subst data. destruct (Hg _ eq_refl) as [route H]. exists route. by apply stems_source.
  - apply bind_Ok in E as ([] & _ & E). by eapply pass_down_keeps.
Qed.
Lemma next_hop_keeps now nh r r' : process_next_hop cfg now nh r = Ok r' -> next_hop_ok around cfgs past i nh -> keeps r r'.
Proof. destruct nh; cbn; intros E Hf; [by eapply transmission_keeps|by apply Ok_inj in E as <-|by apply Ok_inj in E as <-]. Qed.

(** ** Buffers *)
Lemma push_bc_keeps now w r : waiting_ok around cfgs past i w -> keeps r (push_bc now w r).
Proof.
  intros Hw []. split; [|done]. split; try done. cbn. eapply (push_holds (waiting_ok around cfgs past i)); [|done|done].
  intros. by apply waiting_lifetime.
Qed.
Lemma with_cbf_keeps b r : (router_ok around cfgs past i r -> cbf_holds (pending_ok around cfgs past i) b) -> keeps r (with_cbf b r).
Proof. intros Hb Hr. specialize (Hb Hr). destruct Hr. by repeat split. Qed.
Lemma drop_cbf_keeps f r x : drop_cbf f r = Ok x -> keeps r x.2.
Proof.
  unfold drop_cbf. intros E. apply bind_Ok in E as (y & Hy & E). apply Ok_inj in E as <-. apply with_cbf_keeps. intros Hr.
  eapply try_drop_holds; [|exact Hy]. apply (ok_cbf _ _ _ _ _ Hr).
Qed.
Lemma enqueue_cbf_keeps now c timeout r r' : enqueue_cbf now c timeout r = Ok r' ->
  (router_ok around cfgs past i r -> pending_ok around cfgs past i (cbf_packet c)) -> keeps r r'.
Proof.
  unfold enqueue_cbf. intros E Hc. apply bind_Ok in E as (us & _ & E). apply bind_Ok in E as (b & Hb & E). apply Ok_inj in E as <-.
  apply with_cbf_keeps. intros Hr. eapply enqueue_holds; [by apply Hc| |exact Hb]. apply (ok_cbf _ _ _ _ _ Hr).
Qed.

(** ** Forwarding algorithms *)
Definition decides r (x : NextHop Sec D * Router Sec D) : Prop :=
  keeps r x.2 /\ (router_ok around cfgs past i r -> next_hop_ok around cfgs past i x.1).
Lemma decides_after r r' x : keeps r r' -> decides r' x -> decides r x.
Proof. intros H [H1 H2]. split; [by transitivity r'|]. intros Hr. by apply H2, H. Qed.
Lemma decides_now r nh : next_hop_ok around cfgs past i nh -> decides r (nh, r).
Proof. by split. Qed.
Lemma decides_keep r r' nh : keeps r r' -> next_hop_ok around cfgs past i nh -> decides r (nh, r').
Proof. by split. Qed.
Lemma decides_given r x : (router_ok around cfgs past i r -> decides r x) -> decides r x.
Proof. intros H. split; intros Hr; by apply H. Qed.
Hint Resolve decides_now decides_keep : core.
Lemma greedy_keeps now f r x : greedy_forwarding now f r = Ok x -> forwarding_ok around cfgs past i f -> decides r x.
Proof.
  unfold greedy_forwarding. intros E Hf. apply bind_Ok in E as (own & _ & E). apply bind_Ok in E as (mfr & _ & E).
  destruct (dltb _ own); [|destruct (scf_of _)]; apply Ok_inj in E as <-; auto. apply decides_keep; [by apply push_bc_keeps|done].
Qed.
Lemma buffered_keeps now f mac timeout r r' : enqueue_cbf now (contending f mac) timeout r = Ok r' -> forwarding_ok around cfgs past i f ->
  decides r (Buffered, r').
Proof. intros E Hf. apply decides_keep; [by eapply enqueue_cbf_keeps|done]. Qed.
Lemma non_area_keeps now f sender r x : non_area_contention_based_forwarding cfg now f sender r = Ok x -> forwarding_ok around cfgs past i f -> decides r x.
Proof.
  unfold non_area_contention_based_forwarding. intros E Hf. destruct sender as [mac|]; [|apply Ok_inj in E as <-; auto].
  apply bind_Ok in E as ([dropped r1] & H1 & E). apply drop_cbf_keeps in H1. apply (decides_after _ _ _ H1). cbn [snd].
  destruct dropped; [apply Ok_inj in E as <-; by auto|].
  apply bind_Ok in E as (destination & _ & E). destruct (accurate_position now mac r1) as [v|].
  - apply bind_Ok in E as (ds & _ & E). apply bind_Ok in E as (dl & _ & E). destruct (dltb dl ds); [|apply Ok_inj in E as <-; by auto].
    apply bind_Ok in E as (r2 & H2 & E). apply Ok_inj in E as <-. by eapply buffered_keeps.
  - apply bind_Ok in E as (r2 & H2 & E). apply Ok_inj in E as <-. by eapply buffered_keeps.
Qed.
Lemma area_keeps now f sender r x : area_contention_based_forwarding cfg now f sender r = Ok x -> forwarding_ok around cfgs past i f -> decides r x.
Proof.
  unfold area_contention_based_forwarding. intros E Hf. destruct sender as [mac|]; [|apply Ok_inj in E as <-; auto].
  apply bind_Ok in E as ([dropped r1] & H1 & E). apply drop_cbf_keeps in H1. apply (decides_after _ _ _ H1). cbn [snd].
  destruct dropped; [apply Ok_inj in E as <-; by auto|].
  apply bind_Ok in E as (timeout & _ & E). apply bind_Ok in E as (r2 & H2 & E). apply Ok_inj in E as <-. by eapply buffered_keeps.
Qed.
(** The packet fetched from the buffer goes back into it. *)
Lemma fetch_keeps now id r x : cbf_fetch lround_unspecified now id (m_cbf_buffer r) = Ok x -> router_ok around cfgs past i r ->
  router_ok around cfgs past i (with_cbf x.2 r) /\ forall c, x.1 = Some c -> pending_ok around cfgs past i (cbf_packet c).
Proof.
  intros Hf Hr.
  pose proof (fetch_holds (pending_ok around cfgs past i) lround_unspecified (fun q p => pending_lifetime around cfgs past i q _ p) now id _ _
    (ok_cbf _ _ _ _ _ Hr) Hf) as [Hb Hc]. split; [|done]. by apply with_cbf_keeps.
Qed.
Lemma dropped_keeps f r y x : drop_cbf f r = Ok y -> Ok (Discarded, y.2) = Ok x -> decides r x.
Proof. intros Hy E. apply Ok_inj in E as <-. apply decides_keep; [by eapply drop_cbf_keeps|done]. Qed.
Lemma advanced_keeps now f ll r x : area_advanced_forwarding cfg now f ll r = Ok x -> forwarding_ok around cfgs past i f -> decides r x.
Proof.
  unfold area_advanced_forwarding. intros E Hf. destruct ll as [ll|]; [|apply Ok_inj in E as <-; auto].
  apply bind_Ok in E as (area & _ & E). apply bind_Ok in E as ([c b] & Hfetch & E). apply decides_given. intros Hr.
  apply (decides_after _ (with_cbf b r)); [intros _; split; [|done]; by apply (fetch_keeps _ _ _ _ Hfetch)|].
  apply (fetch_keeps _ _ _ _ Hfetch) in Hr as [_ Hc]. cbn [fst] in Hc. destruct c as [c|]; [specialize (Hc c eq_refl)|clear Hc].
  - destruct (_ <=? _); [apply bind_Ok in E as (y & Hy & E); by eapply dropped_keeps|].
    apply bind_Ok in E as (outside & _ & E). destruct (negb outside); [apply bind_Ok in E as (y & Hy & E); by eapply dropped_keeps|].
    apply bind_Ok in E as (timeout & _ & E). apply bind_Ok in E as (r2 & H2 & E). apply Ok_inj in E as <-.
    apply decides_keep; [by eapply enqueue_cbf_keeps|done].
  - destruct (bool_decide _).
    + apply bind_Ok in E as ([nh r2] & H2 & E). apply greedy_keeps in H2 as [H2 Hnh]; [|done]. apply bind_Ok in E as (r3 & H3 & E).
      apply Ok_inj in E as <-. split; [|done]. etransitivity; [exact H2|]. eapply enqueue_cbf_keeps; [exact H3|].
      intros _. destruct (is_broadcast nh); [|done]. destruct Hf as [Hg _]. by split.
    + apply bind_Ok in E as (timeout & _ & E). apply bind_Ok in E as (r2 & H2 & E). apply Ok_inj in E as <-. by eapply buffered_keeps.
Qed.
Lemma selection_keeps now f ll r x : forwarding_algorithm_selection cfg now f ll r = Ok x -> forwarding_ok around cfgs past i f -> decides r x.
Proof.
  unfold forwarding_algorithm_selection. intros E Hf. apply bind_Ok in E as (destination & _ & E). apply bind_Ok in E as (inside & _ & E). destruct inside.
  - destruct (itsGnAreaForwardingAlgorithm _); [apply Ok_inj in E as <-; by auto|apply Ok_inj in E as <-; by auto|by eapply area_keeps|by eapply advanced_keeps].
  - apply bind_Ok in E as (from_inside & _ & E). destruct from_inside; [apply Ok_inj in E as <-; by auto|].
    destruct (itsGnNonAreaForwardingAlgorithm _); [by eapply greedy_keeps|by eapply greedy_keeps|by eapply non_area_keeps].
Qed.

(** ** Pending packets *)
Lemma decided_keeps now r x r' : decides r x -> process_next_hop cfg now x.1 x.2 = Ok r' -> keeps r r'.
Proof.
  intros [Hx Hnh] E Hr. destruct (Hx Hr) as [Hr1 <-]. by apply (next_hop_keeps now _ _ _ E (Hnh Hr)).
Qed.
Lemma action_keeps now p r r' : run_action cfg now p r = Ok r' -> pending_ok around cfgs past i p -> keeps r r'.
Proof.
  unfold run_action, pending_ok. intros E Hp. destruct (gp_action p) as [t ll|t|t mac]; cbn in Hp.
  - apply bind_Ok in E as (x & Hx & E). eapply decided_keeps; [|exact E]. by eapply selection_keeps.
  - apply bind_Ok in E as (x & Hx & E). eapply decided_keeps; [|exact E]. by eapply greedy_keeps.
  - by eapply transmission_keeps.
Qed.
Lemma waiting_keeps now r w r' : waiting_ok around cfgs past i w -> run_waiting cfg now r w = Ok r' -> keeps r r'.
Proof. destruct w as [pdu payload ctrl|p]; cbn; intros Hw E; [by eapply shb_transmit_keeps|by eapply action_keeps]. Qed.
Lemma flush_keeps now b (update : @PacketBuffer (waiting Sec D) -> Router Sec D -> Router Sec D) r r' :
  (let '(packets, b) := buffer_flush lround_unspecified now b in res_fold (run_waiting cfg now) packets (update b r)) = Ok r' ->
  (router_ok around cfgs past i r -> buffer_holds (waiting_ok around cfgs past i) b) ->
  (forall b, buffer_holds (waiting_ok around cfgs past i) b -> keeps r (update b r)) -> keeps r r'.
Proof.
  intros E Hb Hu Hr.
  pose proof (flush_holds (waiting_ok around cfgs past i) lround_unspecified (fun q w => waiting_lifetime around cfgs past i q _ w) now b (Hb Hr)) as [Hp Hb'].
  destruct (buffer_flush _ now b) as [packets b']. destruct (Hu _ Hb' Hr) as [Hr1 <-].
  eapply (res_fold_keeps around cfgs past i (run_waiting cfg now)); [intros; by eapply waiting_keeps|exact Hp|exact E|done].
Qed.
Lemma flush_broadcast_keeps now r r' : flush_broadcast_forwarding_buffer cfg now r = Ok r' -> keeps r r'.
Proof.
  intros E. eapply (flush_keeps now _ with_bc); [exact E|apply ok_bc|]. intros b Hb []. by repeat split.
Qed.
Lemma flush_unicast_keeps now r r' : flush_unicast_forwarding_buffer cfg now r = Ok r' -> keeps r r'.
Proof.
  intros E. eapply (flush_keeps now _ with_uc); [exact E|apply ok_uc|]. intros b Hb []. by repeat split.
Qed.
Lemma cbf_timer_keeps now r r' : cbf_timer_expired cfg now r = Ok r' -> keeps r r'.
Proof.
  unfold cbf_timer_expired. intros E Hr. apply bind_Ok in E as ([packets b] & Hf & E).
  pose proof (cbf_flush_holds (pending_ok around cfgs past i) lround_unspecified (fun q p => pending_lifetime around cfgs past i q _ p) now _ _
    (ok_cbf _ _ _ _ _ Hr) Hf) as [Hp Hb].
  destruct (with_cbf_keeps b r (fun _ => Hb) Hr) as [Hr1 <-].
  eapply (res_fold_keeps around cfgs past i (fun r p => run_action cfg now p r)); [intros; by eapply action_keeps|exact Hp|exact E|done].
Qed.

(** ** Requests *)
Lemma repetition_keeps now request destination data r r' : add_repetition now request destination data r = Ok r' ->
  (forall area, destination = Some area -> exists rest, (i, with_repetition rest request, area, data) ∈ requested past) -> keeps r r'.
Proof.
  unfold add_repetition. intros E Hin. destruct (repetition request) as [x|]; [|apply Ok_inj in E as <-; reflexivity].
  destruct (has_further_repetition x); [|apply Ok_inj in E as <-; reflexivity]. apply bind_Ok in E as (us & _ & E). apply Ok_inj in E as <-.
  intros []. split; [|done]. split; try done. cbn. by apply Forall_cons.
Qed.
Lemma request_shb_keeps now request payload r x : request_shb cfg now request payload r = Ok x -> keeps r x.2.
Proof.
  unfold request_shb. intros E. destruct payload as [data|]; [|apply Ok_inj in E as <-; reflexivity].
  destruct (accepted _); [|apply Ok_inj in E as <-; reflexivity].
  apply bind_Ok in E as (r1 & H1 & E). apply repetition_keeps in H1; [|done]. apply bind_Ok in E as (pdu & Hp & E).
  apply bind_Ok in E as (r2 & H2 & E). apply Ok_inj in E as <-. transitivity r1; [exact H1|]. cbn [snd].
  apply bind_Ok in Hp as (common & _ & Hp). apply Ok_inj in Hp as <-.
  destruct (_ && _); [apply Ok_inj in H2 as <-; by apply push_bc_keeps|by eapply shb_transmit_keeps].
Qed.
Lemma create_gbc_keeps request area data r x : create_gbc_pdu cfg request area data r = Ok x ->
  (exists rest, (i, with_repetition rest request, area, data) ∈ requested past) ->
  keeps r x.2 /\ forall t, packet_ok around cfgs past i x.1 data t.
Proof.
  intros E [rest Hin]. apply bind_Ok in E as (common & Hc & E). cbn in E. apply bind_Ok in E as (g & Hg & E). apply Ok_inj in E as <-.
  split; [intros []; by repeat split|]. intros t. split; [|done]. apply plain_genuine; [done|]. intros g' [= <-]. exists [].
  rewrite HS, Hcfg in Hc. eapply stems_requested; [exact Hin|exact Hc|exact Hg|done|done].
Qed.
Lemma request_gbc_keeps now request area payload r x : request_gbc cfg now request area payload r = Ok x ->
  (forall data, payload = Some data -> exists rest, (i, with_repetition rest request, area, data) ∈ requested past) -> keeps r x.2.
Proof.
  unfold request_gbc. intros E Hin. destruct payload as [data|]; [specialize (Hin data eq_refl)|apply Ok_inj in E as <-; reflexivity].
  destruct (accepted _); [|apply Ok_inj in E as <-; reflexivity].
  apply bind_Ok in E as (r1 & H1 & E). apply repetition_keeps in H1; [|by intros ? [= <-]]. apply bind_Ok in E as ([pdu r2] & H2 & E).
  apply create_gbc_keeps in H2 as [H2 Hp]; [|done]. apply bind_Ok in E as (r3 & H3 & E). apply Ok_inj in E as <-. cbn [snd].
  transitivity r1; [exact H1|]. transitivity r2; [exact H2|].
  destruct (_ && _); [apply Ok_inj in H3 as <-; apply push_bc_keeps; apply Hp|eapply action_keeps; [exact H3|apply Hp]].
Qed.
Lemma repetition_due_keeps now k r r' : repetition_due cfg now k r = Ok r' -> keeps r r'.
Proof.
  unfold repetition_due. intros E Hr. destruct (m_repetitions r !! k) as [rep|] eqn:Hk; [|by apply Ok_inj in E as <-].
  pose proof (Forall_lookup_1 _ _ _ _ (ok_repetitions _ _ _ _ _ Hr) Hk) as Hrep. destruct (repetition (rep_request rep)) as [x|]; [|done].
  destruct (decrement_by_one x) as [interval maximum]. apply bind_Ok in E as (y & Hy & E). apply Ok_inj in E as <-.
  revert Hr. apply (transitivity (y := with_repetitions (delete k (m_repetitions r)) r) (R := keeps)).
  - intros []. split; [|done]. split; try done. cbn. by apply Forall_delete.
  - destruct (rep_destination rep) as [area|] eqn:Ha; [|by eapply request_shb_keeps].
    eapply request_gbc_keeps; [exact Hy|]. intros data [= <-]. apply (Hrep area Ha).
Qed.
Lemma beacon_keeps now r r' : on_beacon_timer_expired cfg now r = Ok r' -> keeps r r'.
Proof.
  unfold on_beacon_timer_expired. intros E. apply bind_Ok in E as (x & Hx & E). apply bind_Ok in E as ([] & _ & E).
  apply bind_Ok in E as (r1 & H1 & E). transitivity r1; [|by eapply beacon_timer_keeps]. eapply pass_down_keeps; [exact H1|].
  destruct (itsGnSecurity _); [eapply encap_genuine; [exact Hx|]; intros g [=]|].
  apply Ok_inj in Hx as <-. apply plain_genuine; [done|]. intros g [=].
Qed.

(** ** Receptions *)
Lemma with_table_keeps t r : keeps r (with_table t r).
Proof. intros []. by repeat split. Qed.
Lemma duplicate_address_keeps source sender r : keeps r (detect_duplicate_address cfg source sender r).
Proof.
  unfold detect_duplicate_address. destruct (itsGnLocalAddrConfMethod _); [|reflexivity|reflexivity].
  destruct (_ || _); [|reflexivity]. intros []. by repeat split.
Qed.
Lemma shb_keeps now shb size ll r x : process_shb cfg now shb size ll r = Ok x -> keeps r x.2.
Proof.
  unfold process_shb. intros E. apply bind_Ok in E as (t & _ & E). apply Ok_inj in E as <-.
  etransitivity; [apply duplicate_address_keeps|apply with_table_keeps].
Qed.
Lemma process_beacon_keeps now b size ll r : keeps r (process_beacon cfg now b size ll r).2.
Proof.
  unfold process_beacon. set (r1 := detect_duplicate_address _ _ _ r). destruct (table_update _ _ _) as [e t].
  etransitivity; [apply duplicate_address_keeps|apply with_table_keeps].
Qed.
(** A packet that is received and has a hop left is sent with one hop less. *)
Abbreviation heard := (heard around cfgs past i).
Lemma forwarded_ok pdu payload data j route : carried around (pdu_variant pdu) payload data ->
  heard (pdu_basic pdu) (pdu_common pdu) (pdu_extended pdu) data j route -> 1 < hop_limit (pdu_basic pdu) ->
  packet_ok around cfgs past i (forwarding_duplicate pdu payload).1 (forwarding_duplicate pdu payload).2 ForwardTransmit.
Proof.
  intros Hc (pdu' & payload' & Hin & Hb & Hcm & Hx & Hc' & Hs) Hlimit. split; [|done]. exists data. split.
  - unfold carried, forwarding_duplicate in *. cbn in *. by destruct (pdu_secured pdu).
  - intros g [= <-]. exists (j :: route). cbn. rewrite <- Hb in *. rewrite <- Hcm in *. by eapply stems_forwarded.
Qed.
Lemma forward_keeps now pdu payload ll r r' data j route : forward_gbc cfg now pdu payload ll r = Ok r' -> carried around (pdu_variant pdu) payload data ->
  heard (pdu_basic pdu) (pdu_common pdu) (pdu_extended pdu) data j route -> 1 < hop_limit (pdu_basic pdu) -> keeps r r'.
Proof.
  intros E Hc Hs Hlimit. pose proof (forwarded_ok pdu payload data j route Hc Hs Hlimit) as Hp. unfold forward_gbc in E.
  destruct (forwarding_duplicate pdu payload) as [dup payload']. cbn [fst snd] in Hp.
  destruct (_ && _); [apply Ok_inj in E as <-; by apply push_bc_keeps|by eapply action_keeps].
Qed.
Lemma stops_none now hops e sender r : stops_forwarding cfg now hops e sender r = None -> 1 < hops.
Proof. unfold stops_forwarding. destruct (Z.leb_spec hops 1); [done|lia]. Qed.
Lemma process_gbc_keeps now pdu payload size ll r x data j route : process_gbc cfg now pdu payload size ll r = Ok x ->
  carried around (pdu_variant pdu) payload data -> heard (pdu_basic pdu) (pdu_common pdu) (pdu_extended pdu) data j route ->
  keeps r x.2 /\ (x.1 = true -> exists area, get_destination (header_type (pdu_common pdu)) (pdu_extended pdu) = Ok area /\
    inside_or_at_border area (local_position r) = Ok true).
Proof.
  intros E Hc Hs. unfold process_gbc in E. apply bind_Ok in E as (area & Ha & E). apply bind_Ok in E as (within & Hw & E).
  destruct (if looks_for_duplicates _ _ then _ else _) as [duplicate t].
  destruct duplicate; [apply Ok_inj in E as <-; split; [apply with_table_keeps|done]|].
  set (r1 := detect_duplicate_address _ _ _ _) in E. assert (keeps r r1) as H1 by (etransitivity; [apply with_table_keeps|apply duplicate_address_keeps]).
  clearbody r1. destruct (table_update _ _ _) as [e t']. set (e' := if has_entry _ _ _ then _ else _) in E. clearbody e'.
  apply bind_Ok in E as (r2 & H2 & E). apply flush_unicast_keeps in H2.
  assert (keeps r r2) as H3 by (etransitivity; [exact H1|]; etransitivity; [apply with_table_keeps|exact H2]).
  split; [|intros Ht; exists area; split; [done|]; destruct (stops_forwarding _ _ _ _ _ _); [apply Ok_inj in E as <-|
    apply bind_Ok in E as (r3 & _ & E); apply Ok_inj in E as <-]; cbn in Ht; by subst within].
  transitivity r2; [done|]. destruct (stops_forwarding _ _ _ _ _ _) eqn:Hstop.
  - apply Ok_inj in E as <-. by apply keeps_emit.
  - apply bind_Ok in E as (r3 & H4 & E). apply Ok_inj in E as <-. apply stops_none in Hstop. by eapply forward_keeps.
Qed.

(** What the contexts of genuine packets hold. *)
Definition context_ok (basic : BasicHeader) (c : CommonContext) : Prop :=
  forall common g, cc_common c = Some common -> cc_extended c (header_type common) = Some (GbcVariant g) ->
    carried around (mkPdu basic common (GbcVariant g) (cc_secured c)) (cc_payload c) (cc_payload c) /\
    exists j route, heard basic common g (cc_payload c) j route.
Lemma extended_keeps now basic common c ll r r' : indicate_extended cfg now basic common c ll r = Ok r' -> cc_common c = Some common ->
  context_ok basic c -> keeps r r'.
Proof.
  unfold indicate_extended. intros E Hcommon Hc. destruct (cc_extended c (header_type common)) as [[shb|g|b]|] eqn:Hx.
  1,2,3: destruct (negb _); [apply Ok_inj in E as <-; by apply keeps_emit|].
  - apply bind_Ok in E as ([up r1] & H1 & E). apply shb_keeps in H1. apply Ok_inj in E as <-. destruct up; [|exact H1].
    transitivity r1; [exact H1|]. unfold pass_up. destruct (transport_ifcs _ _); [|reflexivity]. by apply keeps_emit.
  - destruct (Hc common g Hcommon Hx) as (Hcar & j & route & Hs). apply bind_Ok in E as (destination & Hd & E). apply bind_Ok in E as ([up r1] & H1 & E).
    eapply process_gbc_keeps in H1 as [H1 Hup]; [|exact Hcar|exact Hs]. apply Ok_inj in E as <-. destruct up; [|exact H1].
    destruct (Hup eq_refl) as (area' & Ha & Hin). cbn in Ha. pose proof Hs as (pdu' & payload' & _ & _ & _ & _ & _ & Hst).
    destruct (stems_traced _ _ _ _ _ _ _ _ Hst) as (rq & area & Htr). pose proof Htr as (k & _ & _ & Har & _).
    rewrite Har in Ha, Hd. apply Ok_inj in Ha as <-. apply Ok_inj in Hd as <-. intros Hr. destruct (H1 Hr) as [Hr1 Hpos]. cbn [snd fst] in *.
    unfold pass_up. destruct (transport_ifcs _ _); [|done]. rewrite <- Hpos. apply keeps_emit; [|done]. intros _.
    exists basic, common, g, j, route, rq, area. split; [done|]. split; [done|]. split; [done|]. split; [|done].
    rewrite <- Hin. unfold local_position in Hpos |- *. by rewrite Hpos.
  - apply Ok_inj in E as <-. apply process_beacon_keeps.
  - apply Ok_inj in E as <-. by apply keeps_emit.
Qed.
Lemma common_keeps now basic c ll r r' : indicate_common cfg now basic c ll r = Ok r' -> context_ok basic c -> keeps r r'.
Proof.
  unfold indicate_common. intros E Hc. destruct (cc_common c) as [common|] eqn:Hcommon; [|apply Ok_inj in E as <-; by apply keeps_emit].
  destruct (_ <? _); [apply Ok_inj in E as <-; by apply keeps_emit|]. apply bind_Ok in E as (r1 & H1 & E). apply flush_broadcast_keeps in H1.
  etransitivity; [apply with_table_keeps|]. etransitivity; [exact H1|]. by eapply extended_keeps.
Qed.

(** Whatever a station's security entity makes of a message, its plaintext is what the sender's
    secured. *)
Hypothesis sealed : forall j now now' aid common h data,
  let p := plaintext_payload (@decapsulate _ _ S now (@encapsulate _ _ (around j) now' aid common h data)) in
  (forall common', plain_common p = Some common' -> common' = common) /\ (forall t h', plain_extended p t = Some h' -> h' = h) /\
  plain_payload p = data.
Lemma reception_keeps now pdu payload ll r r' j : indicate cfg now (ContextCast pdu payload) ll r = Ok r' ->
  (i, j, pdu, payload) ∈ received past -> genuine j pdu payload -> consistent pdu -> keeps r r'.
Proof.
  unfold indicate, indicate_secured. cbn [parse_basic parse_secured]. intros E Hrec (data & Hcar & Hg) Hs. unfold consistent in Hs.
  destruct (negb _); [apply Ok_inj in E as <-; by apply keeps_emit|]. destruct (basic_next (pdu_basic pdu)); cbn in Hs; [by apply Ok_inj in E as <-| | |by apply Ok_inj in E as <-].
  - destruct (_ || _); [|apply Ok_inj in E as <-; by apply keeps_emit]. eapply common_keeps; [exact E|].
    symmetry in Hs. apply bool_decide_eq_false in Hs. rewrite <- eq_None_not_Some in Hs. pose proof Hcar as Hcar'.
    unfold carried in Hcar. rewrite Hs in Hcar. subst data.
    intros common g [= <-] [= Hx]. destruct (Hg g Hx) as [route H]. cbn. split; [by unfold carried; cbn; rewrite Hs|].
    exists j, route, pdu, payload. by repeat (split; [done|]).
  - destruct (pdu_secured pdu) as [s|] eqn:Hsec; [|done]. destruct (security_entity cfg); [|apply Ok_inj in E as <-; by apply keeps_emit].
    assert (context_ok (pdu_basic pdu) (secured_context (ContextCast pdu payload) s (decapsulate now s))) as Hc.
    { pose proof Hcar as Hcar'. unfold carried in Hcar. rewrite Hsec in Hcar. destruct Hcar as (k & now' & aid & ->).
      destruct (sealed k now now' aid (pdu_common pdu) (pdu_extended pdu) data) as (H1 & H2 & H3).
      intros common g Hcommon Hx. cbn in Hcommon, Hx. apply H1 in Hcommon as ->. apply H2 in Hx. cbn [cc_payload secured_context].
      rewrite merged_cast, H3.
      destruct (Hg g (eq_sym Hx)) as [route H]. split; [exists k, now', aid; cbn; by rewrite Hx|].
      exists j, route, pdu, payload. by repeat (split; [done|]). }
    destruct (bool_decide _); [by eapply common_keeps|]. destruct (non_strict cfg); [|apply Ok_inj in E as <-; by apply keeps_emit].
    destruct (tolerable _); [by eapply common_keeps|apply Ok_inj in E as <-; by apply keeps_emit].
Qed.
(** What the events of the network bring. *)
Definition event_ok (e : @router_event Sec D) : Prop :=
  match e with
  | GbcRequest _ request destination (Some data) => (i, request, destination, data) ∈ requested past
  | Reception _ (ContextCast pdu payload) _ =>
      exists j, (i, j, pdu, payload) ∈ received past /\ genuine j pdu payload /\ consistent pdu
  | Reception _ _ _ => False
  | _ => True
  end.
Lemma router_step_ok r e r' : router_step cfg r e = Ok r' -> event_ok e -> router_ok around cfgs past i r -> router_ok around cfgs past i r'.
Proof.
  intros E He Hr. destruct e as [now fix_|addr|now rq payload|now rq area payload|now k|now|now|now c ll]; cbn in E, He.
  - apply Ok_inj in E as <-. by destruct Hr.
  - apply Ok_inj in E as <-. by destruct Hr.
  - destruct (request_shb _ _ _ _ _) eqn:Hq; [|done]. apply Ok_inj in E as <-. by apply request_shb_keeps in Hq as [? _].
  - destruct (request_gbc _ _ _ _ _ _) eqn:Hq; [|done]. apply Ok_inj in E as <-. eapply request_gbc_keeps in Hq; [by destruct (Hq Hr)|].
    intros data ->. exists (repetition rq). by destruct rq.
  - by apply repetition_due_keeps in E as [? _].
  - by apply beacon_keeps in E as [? _].
  - by apply cbf_timer_keeps in E as [? _].
  - destruct c as [pdu payload|]; [|done]. destruct He as (j & ? & ? & ?). by eapply reception_keeps in E as [? _].
Qed.
End Station.

(** ** The whole network *)
Section Runs.
Context {Sec D : Type} (around : nat -> Surroundings Sec D) {geo : Geography} (cfgs : nat -> RouterConfig).
Hypothesis sealed : forall i j now now' aid common h data,
  let p := plaintext_payload (@decapsulate _ _ (around i) now (@encapsulate _ _ (around j) now' aid common h data)) in
  (forall common', plain_common p = Some common' -> common' = common) /\ (forall t h', plain_extended p t = Some h' -> h' = h) /\
  plain_payload p = data.
Definition network_ok (n : @network Sec D) : Prop :=
  forall i r, net_routers n !! i = Some r -> router_ok around cfgs (net_past n) i r.
Lemma created_ok i now r past : @router_create Sec D (around i) (cfgs i) now = Ok r -> router_ok around cfgs past i r.
Proof.
  unfold router_create. intros E. destruct (vanetzaDeferInitialBeacon _).
  - apply bind_Ok in E as (next & _ & E). apply Ok_inj in E as <-. split; constructor.
  - apply Ok_inj in E as <-. split; constructor.
Qed.
Lemma step_at_ok i e note n n' : step_at around cfgs i e note n = Ok n' -> network_ok n ->
  later (net_past n) (note (net_past n)) -> event_ok around cfgs i (note (net_past n)) e -> network_ok n'.
Proof.
  unfold step_at. intros E Hn Hl He. destruct (net_routers n !! i) as [r|] eqn:Hi; [|by apply Ok_inj in E as <-].
  apply bind_Ok in E as (r' & Hr & E). apply Ok_inj in E as <-. intros k rk Hk. cbn in Hk |- *.
  apply list_lookup_insert_Some in Hk as [(<- & <- & _)|[_ Hk]].
  - eapply router_step_ok; [done|done| |exact Hr|exact He|eapply router_mono; [exact Hl|by apply Hn]].
    intros j now now'. apply (sealed i j now now').
  - eapply router_mono; [exact Hl|by apply Hn].
Qed.
Lemma net_step_ok n e n' : own_event e -> net_step around cfgs n e = Ok n' -> network_ok n -> network_ok n'.
Proof.
  intros Ho E Hn. destruct e as [i e|now i j k]; cbn in E.
  - eapply step_at_ok; [exact E|done|..]; destruct e as [| | |now rq area [data|]| | | |]; try done.
    + split; [by apply list_subseteq_cons|done].
    + apply list_elem_of_here.
  - destruct (net_routers n !! j ≫= _) as [[request pdu payload| | |]|] eqn:Hl; try by apply Ok_inj in E as <-.
    assert (later (net_past n) (noting_reception i j pdu payload (net_past n))) as Hlater
      by (split; [done|by apply list_subseteq_cons]).
    eapply step_at_ok; [exact E|done|exact Hlater|]. apply bind_Some in Hl as (rj & Hj & Hk).
    pose proof (Forall_lookup_1 _ _ _ _ (ok_log _ _ _ _ _ (Hn j rj Hj)) Hk) as Ho'. eapply out_mono in Ho' as [Hg Hc]; [|exact Hlater].
    exists j. split; [apply list_elem_of_here|by split].
Qed.
Lemma net_run_ok events : forall n n', Forall own_event events -> res_fold (net_step around cfgs) events n = Ok n' -> network_ok n -> network_ok n'.
Proof.
  induction events as [|e events IH]; intros n n' Ho E Hn; cbn in E; [by apply Ok_inj in E as <-|].
  apply Forall_cons in Ho as [He Ho]. apply bind_Ok in E as (n1 & H1 & E). eapply IH; [exact Ho|exact E|]. by eapply net_step_ok.
Qed.
(** [C36] In every run of a network, with any configuration of its routers and whatever is received
    when, how often and by whom: each GeoBroadcast that a router passes down has come to it along a
    way of stations.  The first of them is where it was requested, each other one has received the
    packet from its predecessor and sent it with one hop less, and all with the headers and the data of
    the request; so its hop limit is that of the request less the number of routers that have
    forwarded it, and forwarding never takes it below one.  The data of a GeoBroadcast passed up
    are those of a packet the station has received, with its hop limit, on such a way, and
    the destination of the request at its beginning, as the header has it, contains the receiving
    station's position. *)
Theorem geobroadcast_in_network routers events n : starting around cfgs routers -> Forall own_event events ->
  res_fold (net_step around cfgs) events (mkNetwork routers (mkHistory [] [])) = Ok n ->
  forall i r, net_routers n !! i = Some r ->
    (forall request pdu payload g, PassedDown request pdu payload ∈ m_log r -> pdu_extended pdu = GbcVariant g ->
       exists data route request area, carried around pdu payload data /\
         stems around cfgs (net_past n) (i :: route) (hop_limit (pdu_basic pdu)) (pdu_common pdu) g data /\
         traced (net_past n) (i :: route) (pdu_common pdu) g data (hop_limit (pdu_basic pdu)) request area) /\
    (forall here ind data, PassedUp here ind data ∈ m_log r -> ind_transport_type ind = GBC ->
       delivered around cfgs (net_past n) i here ind data).
Proof.
  intros Hs Ho E i r Hr. assert (network_ok n) as Hn.
  { eapply net_run_ok; [exact Ho|exact E|]. intros j r0 Hj. destruct (Hs j r0 Hj) as [now Hc]. by eapply created_ok. }
  pose proof (ok_log _ _ _ _ _ (Hn i r Hr)) as Hl. rewrite Forall_forall in Hl. split.
  - intros request pdu payload g Hin Hg. destruct (Hl _ Hin) as [(data & Hc & Hx) _]. destruct (Hx g Hg) as [route H].
    destruct (stems_traced _ _ _ _ _ _ _ _ H) as (rq & area & Ht). by exists data, route, rq, area.
  - intros here ind data Hin. exact (Hl _ Hin).
Qed.
End Runs.

(** ** A run: three stations in a row, the destination around the last *)
#[export] Instance ex_geography : Geography := {|
  local_cartesian o p := (dsub (longitude p) (longitude o), dsub (latitude p) (latitude o));
  geodesic_inverse a b := dadd (dabs (dsub (longitude a) (longitude b))) (dabs (dsub (latitude a) (latitude b)));
  g_cos _ := d_of_Z 1; g_sin _ := d_of_Z 0; g_acos x := x; radians_of_degrees x := x;
  to_geo_angle x := match d_to_long x with Ok v => v | Fail _ => 0 end; of_geo_angle := d_of_Z;
  to_angle x := match d_to_long x with Ok v => v | Fail _ => 0 end; of_angle := d_of_Z; to_speed _ := 0; to_heading _ := 0
|}.
Abbreviation ex_sec_message := (CommonHeader * HeaderVariant * list Z)%type.
#[export] Instance ex_around : Surroundings ex_sec_message (list Z) := {|
  sec_size s := 100; payload_size d := Z.of_nat (length d); no_payload := [];
  encapsulate now aid common h data := (common, h, data);
  decapsulate now s := mkDecap Success 0 [] (mkPlaintext (Some s.1.1) (fun _ => Some s.1.2) s.2 None);
  uniform n := d_of_Z 0; random_octet n := 0; lround_unspecified x := 0; visit_order l := l; dcc_field now := null_dcc_field;
  indeterminate _ := (0, 0); after_zeros d := repeat 0 (length d) ++ d
|}.
Definition ex_mib : MIB :=
  mkMIB (mkMib 3 (lifetime_set Ten_Seconds 6) 10 true true false) Managed 1 Interface_ITS_G5 (d_of_Z 80) 1398 20 Strict (d_of_Z 3) (d_lit 3 4) 8
    (lifetime_set Hundred_Seconds 6) 100 (d_lit 9 10) (d_of_Z 10000000) (d_lit 1 10) Greedy Broadcast_CBF (d_lit 1 1000) (d_lit 100 1000)
    (d_of_Z 1000) (d_lit 1 2) 256 1024 256 3.
Definition ex_config (_ : nat) : RouterConfig := mkConfig ex_mib (fun _ => true) true.
Definition ex_routers : list (Router ex_sec_message (list Z)) :=
  match router_create (ex_config 0) 0 with Ok r => [r; r; r] | Fail _ => [] end.
Definition ex_fix (x : Z) : PositionFix := mkFix (d_of_Z 0) (d_of_Z x) (d_of_Z 0) (d_of_Z 0) (d_of_Z 1).
Definition ex_request : GnDataRequest := mkGnDataRequest Upper_BTP_B Interface_ITS_G5 37 (lifetime_set Ten_Seconds 6) None 10 0.
Definition ex_area : Area := mkArea (Circle (d_of_Z 50)) (d_of_Z 0) (d_of_Z 200) (d_of_Z 90).
Definition ex_net_events : list (@net_event ex_sec_message (list Z)) :=
  [At 0 (AddressSet (mkGnAddress true 5 0 (ex_mac 1))); At 1 (AddressSet (mkGnAddress true 5 0 (ex_mac 2)));
   At 2 (AddressSet (mkGnAddress true 5 0 (ex_mac 3)));
   At 0 (PositionUpdate 1000 (ex_fix 0)); At 1 (PositionUpdate 1000 (ex_fix 100)); At 2 (PositionUpdate 1000 (ex_fix 200));
   At 1 (BeaconTimer 2000); At 2 (BeaconTimer 2000); Deliver 3000 0 1 0; Deliver 3000 1 2 0;
   At 0 (GbcRequest 4000 ex_request ex_area (Some [1; 2; 3]));
   Deliver 5000 1 0 0; Deliver 6000 2 1 1; At 2 (CbfTimer 106000)].
Abbreviation ex_network := (res_fold (net_step (fun _ => ex_around) ex_config) ex_net_events (mkNetwork ex_routers (mkHistory [] []))).
Definition ex_summary (o : router_out ex_sec_message (list Z)) : list Z :=
  match o with
  | PassedDown rq pdu payload => 1 :: hop_limit (pdu_basic pdu) :: drop 5 (request_destination rq)
  | PassedUp _ ind payload => 2 :: remaining_hop_limit ind :: payload
  | PacketDropped _ => [3]
  | ForwardingStopped _ => [4]
  end.
Example multi_hop_run :
  (fun n => (fun r => ex_summary <$> m_log r) <$> net_routers n) <$> ex_network =
  Ok [[[1; 10; 2]]; [[1; 1; 255]; [1; 9; 3]]; [[1; 1; 255]; [2; 9; 1; 2; 3]; [1; 8; 255]]].
Proof. by vm_compute. Qed.
Definition ex_final : @network ex_sec_message (list Z) := match ex_network with Ok n => n | Fail _ => mkNetwork [] (mkHistory [] []) end.
Lemma ex_sealed : forall (i j : nat) now now' aid common h data,
  let p := plaintext_payload (@decapsulate _ _ ex_around now (@encapsulate _ _ ex_around now' aid common h data)) in
  (forall common', plain_common p = Some common' -> common' = common) /\ (forall t h', plain_extended p t = Some h' -> h' = h) /\
  plain_payload p = data.
Proof. intros i j now now' aid common h data. cbn. split; [by intros ? [= <-]|]. split; [by intros _ ? [= <-]|done]. Qed.
Lemma ex_starting : starting (fun _ => ex_around) ex_config ex_routers.
Proof.
  intros i r Hi. exists 0. unfold ex_routers in Hi. unfold ex_config in *. destruct (router_create _ 0) as [r0|f] eqn:E; [|done].
  by destruct i as [|[|[|i]]]; cbn in Hi; simplify_eq.
Qed.
(** What the last station has passed up. *)
Definition ex_up : option (Router ex_sec_message (list Z) * LongPositionVector * DataIndication) :=
  match net_routers ex_final !! 2%nat with
  | Some r => match m_log r !! 1%nat with Some (PassedUp here ind [1; 2; 3]) => Some (r, here, ind) | _ => None end
  | None => None
  end.
Lemma ex_up_spec r here ind : ex_up = Some (r, here, ind) ->
  net_routers ex_final !! 2%nat = Some r /\ PassedUp here ind [1; 2; 3] ∈ m_log r.
Proof.
  unfold ex_up. destruct (net_routers ex_final !! 2%nat) as [r0|]; [|done]. destruct (m_log r0 !! 1%nat) as [o|] eqn:Hl; [|done].
  intros E. split; [by repeat case_match; simplify_eq|]. apply list_elem_of_lookup_2 with 1%nat. by repeat case_match; simplify_eq.
Qed.
Lemma ex_passed : (fun x => ind_transport_type x.2) <$> ex_up = Some GBC.
Proof. by vm_compute. Qed.
Lemma ex_runs : ex_network = Ok ex_final.
Proof. unfold ex_final. assert (is_ok ex_network = true) as H by (by vm_compute). by destruct ex_network. Qed.
Lemma geobroadcast_in_network_witness : exists r here ind, ex_network = Ok ex_final /\ net_routers ex_final !! 2%nat = Some r /\
  PassedUp here ind [1; 2; 3] ∈ m_log r /\ delivered (fun _ => ex_around) ex_config (net_past ex_final) 2 here ind [1; 2; 3].
Proof.
  assert (Forall own_event ex_net_events) as Ho by (by repeat constructor).
  pose proof (geobroadcast_in_network (fun _ => ex_around) ex_config ex_sealed ex_routers ex_net_events ex_final ex_starting Ho ex_runs 2%nat) as H.
  pose proof ex_passed as Hp. destruct ex_up as [[[r here] ind]|] eqn:Hu; [|done]. injection Hp as Hg.
  destruct (ex_up_spec _ _ _ Hu) as [Hr Hl]. destruct (H r Hr) as [_ Hup]. exists r, here, ind. split; [exact ex_runs|]. split; [exact Hr|].
  split; [exact Hl|]. exact (Hup _ _ _ Hl Hg).
Defined.

(** A single-hop broadcast carries the hop limit of the request. *)
Example single_hop_of_ten :
  (fun x => ex_summary <$> m_log x.2) <$> (match ex_routers with r :: _ => request_shb (ex_config 0) 0 ex_request (Some [7]) r | [] => Fail (Undefined "") end) =
  Ok [[1; 10; 255]].
Proof. by vm_compute. Qed.
(** An area of less than a metre is accepted, but is none in the header. *)
Example small_area_fails :
  match ex_routers with
  | r :: _ => request_gbc (ex_config 0) 0 ex_request (mkArea (Circle (d_lit 1 2)) (d_of_Z 0) (d_of_Z 0) (d_of_Z 90)) (Some [7]) r
  | [] => Fail (Undefined "")
  end = Fail (AssertFailed "c.r.value() != 0.0").
Proof. by vm_compute. Qed.
(** A lifetime below a second is none for the access layer. *)
Example short_lifetime : (request_lifetime (lifetime_set Fifty_Milliseconds 10), request_lifetime (lifetime_set One_Second 4)) = (0, 4000000).
Proof. by vm_compute. Qed.

