(* ===== verification/Btp.v ===== *)
(** * BTP: from external software to external software

    The basic transport protocol above the GeoNetworking router
    ([src/extern/vanetza/vanetza/btp/header.cpp], [data_indication.cpp], [port_dispatcher.cpp]) and,
    with it, the whole way of a message of Transfusion: a request in [TransfusionService.cc],
    [Router::request], the sender's GeoNetworking router, the receiver's, the dispatcher's
    hooks and the bytes written to the other software. *)

From S2P Require Import Prelude Float64 Timer Networking Transfusion LocationTable FlowControl GeoBuffer ChannelSharing GeoHeaders GeoRouter GeoNetwork.

(** ** Headers *)
(** [HeaderA]: destination and source port; [HeaderB]: destination port and its information. *)
Record HeaderA := mkHeaderA { a_destination_port : Z; a_source_port : Z }.
Record HeaderB := mkHeaderB { b_destination_port : Z; b_destination_port_info : Z }.
(** [uint16be_t] as it lies in memory. *)
Definition uint16be (v : Z) : list Z := [u16 v / 256; u16 v mod 256].
Definition serialize_header_b (h : HeaderB) : list Z := uint16be (b_destination_port h) ++ uint16be (b_destination_port_info h).
Definition serialize_header_a (h : HeaderA) : list Z := uint16be (a_destination_port h) ++ uint16be (a_source_port h).
(** Two numbers of 16 bits from the front of the transport layer; [InputArchive::Exception]. *)
Definition deserialize_ports (bytes : list Z) : res (Z * Z) :=
  match bytes with
  | a :: b :: c :: d :: _ => Ok (256 * a + b, 256 * c + d)
  | _ => Fail (StdException "incomplete read")
  end.

(** ** Packets above the network layer *)
(** [ChunkPacket]: a buffer for each layer.  [CohesivePacket]: bytes, with the boundary between
    transport and application once it is set. *)
Inductive UpPayload := ChunkPayload (transport application : list Z) | CohesivePayload (bytes : list Z) (boundary : option nat).
Definition transport_layer (p : UpPayload) : list Z :=
  match p with
  | ChunkPayload transport _ => transport
  | CohesivePayload bytes boundary => match boundary with Some n => take n bytes | None => bytes end
  end.
Definition application_layer (p : UpPayload) : list Z :=
  match p with
  | ChunkPayload _ application => application
  | CohesivePayload bytes boundary => match boundary with Some n => drop n bytes | None => [] end
  end.
Definition up_size (p : UpPayload) : Z :=
  match p with
  | ChunkPayload transport application => Z.of_nat (length transport + length application)
  | CohesivePayload bytes _ => Z.of_nat (length bytes)
  end.
Definition set_transport_boundary (n : nat) (p : UpPayload) : UpPayload :=
  match p with CohesivePayload bytes _ => CohesivePayload bytes (Some n) | ChunkPayload _ _ => p end.
Definition parse_btp_a (p : UpPayload) : res (HeaderA * UpPayload) :=
  x ← deserialize_ports (transport_layer p); Ok (mkHeaderA x.1 x.2, set_transport_boundary 4 p).
Definition parse_btp_b (p : UpPayload) : res (HeaderB * UpPayload) :=
  x ← deserialize_ports (transport_layer p); Ok (mkHeaderB x.1 x.2, set_transport_boundary 4 p).

(** ** Indications *)
(** [btp::DataIndication] *)
Record BtpIndication := mkBtpInd {
  bind_source_port : option Z;
  bind_destination_port : Z;
  bind_port_info : option Z;
  bind_destination : option Area;
  bind_its_aid : option Z;
  bind_permissions : option (list Z);
  bind_source_position : LongPositionVector;
  bind_traffic_class : Z;
  bind_remaining_lifetime : option Z
}.
(** The remaining lifetime is an option here and always there ([indicate_basic]). *)
Definition indication_of_a (ind : DataIndication) (h : HeaderA) : BtpIndication :=
  mkBtpInd (Some (a_source_port h)) (a_destination_port h) None (ind_destination ind) (ind_its_aid ind) (ind_permissions ind)
    (ind_source_position ind) (ind_traffic_class ind) (Some (remaining_packet_lifetime ind)).
Definition indication_of_b (ind : DataIndication) (h : HeaderB) : BtpIndication :=
  mkBtpInd None (b_destination_port h) (Some (b_destination_port_info h)) (ind_destination ind) (ind_its_aid ind)
    (ind_permissions ind) (ind_source_position ind) (ind_traffic_class ind) (Some (remaining_packet_lifetime ind)).
Definition parse_btp_header (ind : DataIndication) (p : UpPayload) : res (option BtpIndication * UpPayload) :=
  match ind_upper_protocol ind with
  | Upper_BTP_A => x ← parse_btp_a p; Ok (Some (indication_of_a ind x.1), x.2)
  | Upper_BTP_B => x ← parse_btp_b p; Ok (Some (indication_of_b ind x.1), x.2)
  | _ => Ok (None, p)
  end.

(** ** The dispatcher *)
(** Handlers and hooks by number; a port may be present without a handler. *)
Record PortDispatcher := mkDispatcher {
  m_interactive_handlers : gmap Z (option nat);
  m_non_interactive_handlers : gmap Z (option nat);
  m_promiscuous_hooks : list nat
}.
Definition add_promiscuous_hook (hook : option nat) (d : PortDispatcher) : PortDispatcher :=
  match hook with
  | Some h => mkDispatcher (m_interactive_handlers d) (m_non_interactive_handlers d) (m_promiscuous_hooks d ++ [h])
  | None => d
  end.
Definition set_interactive_handler (port : Z) (handler : option nat) (d : PortDispatcher) : PortDispatcher :=
  mkDispatcher (<[port := handler]> (m_interactive_handlers d)) (m_non_interactive_handlers d) (m_promiscuous_hooks d).
Definition set_non_interactive_handler (port : Z) (handler : option nat) (d : PortDispatcher) : PortDispatcher :=
  mkDispatcher (m_interactive_handlers d) (<[port := handler]> (m_non_interactive_handlers d)) (m_promiscuous_hooks d).
Inductive dispatch_out :=
| Tapped (hook : nat) (ind : BtpIndication) (p : UpPayload)
| Handled (handler : nat) (ind : BtpIndication) (p : UpPayload)
| Undispatched (ind : option BtpIndication).
(** Looking a port up enters it without a handler when it is missing. *)
Definition dispatcher_indicate (ind : DataIndication) (p : UpPayload) (d : PortDispatcher) :
    res (PortDispatcher * list dispatch_out) :=
  x ← parse_btp_header ind p;
  let '(btp_ind, p) := x : option BtpIndication * UpPayload in
  match btp_ind with
  | Some b =>
      let port := bind_destination_port b in
      let '(handler, d) :=
        match bind_source_port b with
        | Some _ =>
            let h := default None (m_interactive_handlers d !! port) in (h, set_interactive_handler port h d)
        | None =>
            let h := default None (m_non_interactive_handlers d !! port) in (h, set_non_interactive_handler port h d)
        end in
      Ok (d, ((fun h => Tapped h b p) <$> m_promiscuous_hooks d) ++
             [match handler with Some h => Handled h b p | None => Undispatched (Some b) end])
  | None => Ok (d, [Undispatched None])
  end.
(** What [tapPacket] reads of an indication. *)
Definition tapped_members (b : BtpIndication) : btp_indication :=
  mkBtpIndication (bind_destination_port b) (bind_traffic_class b) (bind_remaining_lifetime b).

(** ** [Router::request] upon a GeoNetworking router *)
Section Sending.
Context {Sec : Type} {surroundings : Surroundings Sec UpPayload} {geo : Geography} (cfg : RouterConfig).
Definition interface_of (profile : Z) : InterfaceType := if profile =? ITS_G5 then Interface_ITS_G5 else Interface_Unspecified.
Definition gn_data_request (p : gn_request) : GnDataRequest :=
  mkGnDataRequest Upper_BTP_B (interface_of (gn_profile p)) (gn_its_aid p) (gn_lifetime p)
    (gn_repetition p) (gn_hop_limit p) (gn_traffic_class p).
Definition gn_execute (now : time_point) (gn : geonet_request Area) (packet : UpPayload) (r : Router Sec UpPayload) :
    res (ResultCode * Router Sec UpPayload) :=
  match gn with
  | ShbDataRequest p => request_shb cfg now (gn_data_request p) (Some packet) r
  | GbcDataRequest p area => request_gbc cfg now (gn_data_request p) area (Some packet) r
  end.
(** The header goes into the packet; the confirmation is looked at in the end. *)
Definition btp_send (now : time_point) (request : btp_request Area) (application : list Z) (r : Router Sec UpPayload) :
    res (Router Sec UpPayload) :=
  x ← router_request (fun _ => false) (mib_base (mib cfg)) request application;
  let '(gn, header, application) := x : geonet_request Area * (Z * Z) * list Z in
  y ← gn_execute now gn (ChunkPayload (serialize_header_b (mkHeaderB header.1 header.2)) application) r;
  if accepted y.1 then Ok y.2 else Fail (RuntimeError "GN-Data.request rejected").
(** [TransfusionService::processMessage], the request made. *)
Definition transfusion_send (from_microdegree from_degree : double -> double) (its_aid : Z) (now : time_point)
    (msg : TransfusionMsg) (r : Router Sec UpPayload) : res (Router Sec UpPayload) :=
  out ← processMessage from_microdegree from_degree its_aid msg;
  match out with
  | Some (request, payload) => btp_send now request payload r
  | None => Ok r
  end.
End Sending.

(** ** What operations add to the log *)
Section Logs.
Context {Sec D : Type} {surroundings : Surroundings Sec D} {geo : Geography} (cfg : RouterConfig).
Implicit Types (r : Router Sec D) (f : ForwardingPacket Sec D).
Definition adds (P : router_out Sec D -> Prop) r r' : Prop := exists l, m_log r' = m_log r ++ l /\ Forall P l.
#[export] Instance adds_preorder P : PreOrder (adds P).
Proof.
  split; [intros r; exists []; by rewrite app_nil_r|]. intros r1 r2 r3 (l1 & E1 & H1) (l2 & E2 & H2). exists (l1 ++ l2).
  split; [by rewrite E2, E1, app_assoc|by apply Forall_app].
Qed.
Lemma adds_impl (P Q : router_out Sec D -> Prop) r r' : (forall o, P o -> Q o) -> adds P r r' -> adds Q r r'.
Proof. intros H (l & E & Hl). exists l. split; [done|]. by eapply Forall_impl. Qed.
Lemma adds_emit (P : router_out Sec D -> Prop) o r : P o -> adds P r (emit o r).
Proof. intros H. exists [o]. split; [done|]. by apply Forall_singleton. Qed.
Lemma adds_same (P : router_out Sec D -> Prop) r r' : m_log r' = m_log r -> adds P r r'.
Proof. intros E. exists []. by rewrite E, app_nil_r. Qed.
Lemma adds_new (P : router_out Sec D -> Prop) r r' l : adds P r r' -> m_log r' = m_log r ++ l -> Forall P l.
Proof. intros (l' & E & H) E'. rewrite E in E'. by apply app_inv_head in E' as ->. Qed.

(** A decision sends the packet given or none, and notes nothing. *)
Definition decided f r (x : NextHop Sec D * Router Sec D) : Prop :=
  m_log x.2 = m_log r /\ forall f' mac, x.1 = Valid f' mac -> f' = f.
Lemma decided_now f r mac : decided f r (Valid f mac, r).
Proof. split; [done|]. by intros ? ? [= <-]. Qed.
Lemma decided_none f r r' (nh : NextHop Sec D) : m_log r' = m_log r -> (forall f' mac, nh <> Valid f' mac) -> decided f r (nh, r').
Proof. intros E H. split; [done|]. intros f' mac E'. by destruct (H f' mac). Qed.
#[local] Hint Resolve decided_now decided_none : core.
Lemma enqueue_log now c timeout r r' : enqueue_cbf now c timeout r = Ok r' -> m_log r' = m_log r.
Proof. unfold enqueue_cbf. intros E. apply bind_Ok in E as (us & _ & E). apply bind_Ok in E as (b & _ & E). by apply Ok_inj in E as <-. Qed.
Lemma drop_log f r x : drop_cbf f r = Ok x -> m_log x.2 = m_log r.
Proof. unfold drop_cbf. intros E. apply bind_Ok in E as (y & _ & E). by apply Ok_inj in E as <-. Qed.
Lemma greedy_log now f r x : greedy_forwarding now f r = Ok x -> decided f r x.
Proof.
  unfold greedy_forwarding. intros E. apply bind_Ok in E as (own & _ & E). apply bind_Ok in E as (mfr & _ & E).
  destruct (dltb _ own); [|destruct (scf_of _)]; apply Ok_inj in E as <-; first [by apply decided_now|by apply decided_none].
Qed.
Lemma non_area_log now f sender r x : non_area_contention_based_forwarding cfg now f sender r = Ok x -> decided f r x.
Proof.
  unfold non_area_contention_based_forwarding. intros E. destruct sender as [mac|]; [|apply Ok_inj in E as <-; auto].
  apply bind_Ok in E as ([dropped r1] & H1 & E). apply drop_log in H1. cbn in H1.
  destruct dropped; [apply Ok_inj in E as <-; by apply decided_none|].
  apply bind_Ok in E as (destination & _ & E). destruct (accurate_position now mac r1) as [v|].
  - apply bind_Ok in E as (ds & _ & E). apply bind_Ok in E as (dl & _ & E).
    destruct (dltb dl ds); [apply bind_Ok in E as (r2 & H2 & E); apply enqueue_log in H2; rewrite <- H2 in H1|];
      apply Ok_inj in E as <-; by apply decided_none.
  - apply bind_Ok in E as (r2 & H2 & E). apply enqueue_log in H2. rewrite <- H2 in H1. apply Ok_inj in E as <-. by apply decided_none.
Qed.
Lemma area_log now f sender r x : area_contention_based_forwarding cfg now f sender r = Ok x -> decided f r x.
Proof.
  unfold area_contention_based_forwarding. intros E. destruct sender as [mac|]; [|apply Ok_inj in E as <-; auto].
  apply bind_Ok in E as ([dropped r1] & H1 & E). apply drop_log in H1. cbn in H1.
  destruct dropped; [apply Ok_inj in E as <-; by apply decided_none|].
  apply bind_Ok in E as (timeout & _ & E). apply bind_Ok in E as (r2 & H2 & E). apply enqueue_log in H2. rewrite <- H2 in H1.
  apply Ok_inj in E as <-. by apply decided_none.
Qed.
Lemma advanced_log now f ll r x : area_advanced_forwarding cfg now f ll r = Ok x -> decided f r x.
Proof.
  unfold area_advanced_forwarding. intros E. destruct ll as [ll|]; [|apply Ok_inj in E as <-; auto].
  apply bind_Ok in E as (area & _ & E). apply bind_Ok in E as ([c b] & _ & E). destruct c as [c|].
  - destruct (_ <=? _); [apply bind_Ok in E as (y & Hy & E); apply drop_log in Hy; apply Ok_inj in E as <-; by apply decided_none|].
    apply bind_Ok in E as (outside & _ & E).
    destruct (negb outside); [apply bind_Ok in E as (y & Hy & E); apply drop_log in Hy; apply Ok_inj in E as <-; by apply decided_none|].
    apply bind_Ok in E as (timeout & _ & E). apply bind_Ok in E as (r2 & H2 & E). apply enqueue_log in H2. apply Ok_inj in E as <-.
    by apply decided_none.
  - destruct (bool_decide _).
    + apply bind_Ok in E as ([nh r2] & H2 & E). apply greedy_log in H2 as [H2 Hnh]. apply bind_Ok in E as (r3 & H3 & E).
      apply enqueue_log in H3. apply Ok_inj in E as <-. split; [cbn in *; congruence|done].
    + apply bind_Ok in E as (timeout & _ & E). apply bind_Ok in E as (r2 & H2 & E). apply enqueue_log in H2. apply Ok_inj in E as <-.
      by apply decided_none.
Qed.
Lemma selection_log now f ll r x : forwarding_algorithm_selection cfg now f ll r = Ok x -> decided f r x.
Proof.
  unfold forwarding_algorithm_selection. intros E. apply bind_Ok in E as (destination & _ & E). apply bind_Ok in E as (inside & _ & E).
  destruct inside.
  - destruct (itsGnAreaForwardingAlgorithm _); [apply Ok_inj in E as <-; by auto|apply Ok_inj in E as <-; by auto|by eapply area_log|by eapply advanced_log].
  - apply bind_Ok in E as (from_inside & _ & E). destruct from_inside; [apply Ok_inj in E as <-; by apply decided_none|].
    destruct (itsGnNonAreaForwardingAlgorithm _); [by eapply greedy_log|by eapply greedy_log|by eapply non_area_log].
Qed.
(** What a pending packet adds is what its transmission adds. *)
Lemma action_log (P : router_out Sec D -> Prop) now p r r' : run_action cfg now p r = Ok r' ->
  (forall t mac r r', action_transmission (gp_action p) = t ->
     run_transmission cfg now (mkForwarding (gp_pdu p) (gp_payload p) t) mac r = Ok r' -> adds P r r') -> adds P r r'.
Proof.
  intros E HP.
  assert (forall f x, decided f r x -> process_next_hop cfg now x.1 x.2 = Ok r' ->
    (forall mac r r', run_transmission cfg now f mac r = Ok r' -> adds P r r') -> adds P r r') as Hd.
  { intros f [[f' mac| |] r1] [Hl Hf] Hp Hrun; cbn in *; [|apply Ok_inj in Hp as <-; by apply adds_same..].
    rewrite (Hf f' mac eq_refl) in Hp. etransitivity; [by apply adds_same|]. by eapply Hrun. }
  unfold run_action in E. destruct (gp_action p) as [t ll|t|t mac] eqn:Ha; cbn in HP.
  - apply bind_Ok in E as (x & Hx & E). eapply Hd; [by eapply selection_log|exact E|]. intros mac r1 r2. by apply HP.
  - apply bind_Ok in E as (x & Hx & E). eapply Hd; [by eapply greedy_log|exact E|]. intros mac r1 r2. by apply HP.
  - by eapply HP.
Qed.
End Logs.

(** ** A packet on its way from one router to another *)
Section Way.
Context {Sec D : Type} (around : nat -> Surroundings Sec D) {geo : Geography}.

(** A packet passed down for a request with this class and lifetime carries the data. *)
Definition carries (t : TransportType) (lifetime tc : Z) (data : D) (o : router_out Sec D) : Prop :=
  match o with
  | PassedDown _ pdu payload =>
      consistent pdu /\ carried around pdu payload data /\
      (basic_next (pdu_basic pdu) = Basic_Secured \/ basic_next (pdu_basic pdu) = Basic_Common) /\
      basic_lifetime (pdu_basic pdu) = lifetime /\ common_next (pdu_common pdu) = Common_BTP_B /\
      common_class (pdu_common pdu) = tc /\
      match pdu_extended pdu with ShbVariant _ => t = SHB | GbcVariant _ => t = GBC | BeaconVariant _ => False end
  | _ => False
  end.

Section Sender.
Context {S : Surroundings Sec D} (cfg : RouterConfig) (i : nat) (HS : S = around i).
Implicit Types (r : Router Sec D) (request : GnDataRequest).

Lemma source_transmit_adds {H} `{!ExtendedHeader H} t now ctrl (pdu : Pdu Sec H) data mac r r' lifetime tc :
  source_transmit cfg now ctrl pdu data mac r = Ok r' -> pdu_secured pdu = None ->
  (basic_next (pdu_basic pdu) = Basic_Secured \/ basic_next (pdu_basic pdu) = Basic_Common) ->
  basic_lifetime (pdu_basic pdu) = lifetime -> common_next (pdu_common pdu) = Common_BTP_B -> common_class (pdu_common pdu) = tc ->
  (forall v, match extended_variant (with_source v (pdu_extended pdu)) with
             | ShbVariant _ => t = SHB | GbcVariant _ => t = GBC | BeaconVariant _ => False end) ->
  exists o, m_log r' = m_log r ++ [o] /\ carries t lifetime tc data o.
Proof.
  intros E Hsec Hn Hl Hb Hc Hx. unfold source_transmit in E. apply bind_Ok in E as (x & Hp & E). apply bind_Ok in E as ([] & _ & E).
  apply pass_down_spec in E as [Hcon ->]. eexists. split; [done|]. split; [exact Hcon|].
  destruct (itsGnSecurity _).
  - unfold encap_packet in Hp. destruct (security_entity cfg); [|done]. apply bind_Ok in Hp as ([] & _ & Hp).
    apply bind_Ok in Hp as ([] & _ & Hp). apply Ok_inj in Hp as <-. cbn. split; [|split_and!; [done..|apply Hx]].
    exists i, now, (ctrl_aid ctrl). by rewrite <- HS.
  - apply Ok_inj in Hp as <-. cbn. split; [by unfold carried; cbn; rewrite Hsec|split_and!; [done..|apply Hx]].
Qed.
Lemma request_basic request : basic_next (basic_of_request (mib cfg) request) = Basic_Secured \/
  basic_next (basic_of_request (mib cfg) request) = Basic_Common.
Proof. cbn. destruct (itsGnSecurity _); auto. Qed.
Lemma request_common request common : common_of_request (mib cfg) request = Ok common -> upper_protocol request = Upper_BTP_B ->
  common_next common = Common_BTP_B /\ common_class common = req_traffic_class request.
Proof. unfold common_of_request. intros E Hu. rewrite Hu in E. cbn in E. by apply Ok_inj in E as <-. Qed.
Lemma add_repetition_log now request area data r r' : add_repetition now request area data r = Ok r' -> m_log r' = m_log r /\
  m_location_table r' = m_location_table r.
Proof.
  unfold add_repetition. destruct (repetition request) as [x|]; [|by intros E; apply Ok_inj in E as <-].
  destruct (has_further_repetition x); [|by intros E; apply Ok_inj in E as <-]. intros E. apply bind_Ok in E as (us & _ & E).
  by apply Ok_inj in E as <-.
Qed.
(** A single-hop broadcast is sent at once unless it waits for neighbours. *)
Lemma request_shb_adds now request data r x : request_shb cfg now request (Some data) r = Ok x -> accepted x.1 = true ->
  upper_protocol request = Upper_BTP_B ->
  exists l, m_log x.2 = m_log r ++ l /\ Forall (carries SHB (req_lifetime request) (req_traffic_class request) data) l /\
    (store_carry_forward (req_traffic_class request) && negb (has_neighbours now (m_location_table r)) = false -> length l = 1%nat).
Proof.
  unfold request_shb. intros E Ha Hu. set (result := confirm (confirm _ _) _) in E.
  destruct (accepted result) eqn:Hr; [|apply Ok_inj in E as <-; change (accepted result = true) in Ha; congruence].
  apply bind_Ok in E as (r1 & H1 & E). apply add_repetition_log in H1 as [Hl Ht]. apply bind_Ok in E as (pdu & Hp & E).
  apply bind_Ok in Hp as (common & Hc & Hp). apply Ok_inj in Hp as <-. apply bind_Ok in E as (r2 & H2 & E). apply Ok_inj in E as <-.
  rewrite Ht in H2. cbn [snd]. destruct (_ && _); [apply Ok_inj in H2 as <-; exists []; by rewrite app_nil_r|].
  apply bind_Ok in H2 as (r3 & H3 & H2). apply request_common in Hc as [Hn Hcl]; [|done].
  apply (source_transmit_adds SHB now _ _ data _ _ _ (req_lifetime request) (req_traffic_class request)) in H3 as (o & Ho & Hcar);
    [|done|apply request_basic|done|done|done|done].
  unfold reset_beacon_timer in H2. apply bind_Ok in H2 as (next & _ & H2). apply Ok_inj in H2 as <-. cbn [m_log reset_beacon_timer_at].
  exists [o]. cbn. rewrite Ho, Hl. split; [done|]. split; [by apply Forall_singleton|done].
Qed.
(** An area broadcast is sent at most once now. *)
Lemma request_gbc_adds now request area data r x : request_gbc cfg now request area (Some data) r = Ok x ->
  upper_protocol request = Upper_BTP_B ->
  adds (carries GBC (req_lifetime request) (req_traffic_class request) data) r x.2.
Proof.
  unfold request_gbc. intros E Hu. destruct (accepted _); [|apply Ok_inj in E as <-; reflexivity].
  apply bind_Ok in E as (r1 & H1 & E). apply add_repetition_log in H1 as [Hl Ht]. apply bind_Ok in E as ([pdu r2] & Hp & E).
  apply bind_Ok in Hp as (common & Hc & Hp). cbn in Hp. apply bind_Ok in Hp as (g & _ & Hp). apply Ok_inj in Hp. injection Hp as <- <-.
  apply bind_Ok in Hc as (c0 & Hc & Hc'). apply Ok_inj in Hc' as <-. apply request_common in Hc as [Hn Hcl]; [|done].
  apply bind_Ok in E as (r3 & H3 & E). apply Ok_inj in E as <-. cbn [snd].
  etransitivity; [by apply adds_same, Hl|]. etransitivity; [|etransitivity; [|reflexivity]].
  - by apply (adds_same _ _ (with_sequence (sn_postinc (m_local_sequence_number r1)).2 r1)).
  - destruct (_ && _); [apply Ok_inj in H3 as <-; by apply adds_same|]. eapply action_log; [exact H3|].
    intros t mac r4 r5 <- Ht5. cbn in Ht5. unfold gbc_source_transmit in Ht5. apply bind_Ok in Ht5 as ([] & _ & Ht5).
    eapply (source_transmit_adds GBC) in Ht5 as (o & Ho & Hcar); [|done|apply request_basic|done|exact Hn|exact Hcl|done].
    exists [o]. split; [exact Ho|by apply Forall_singleton].
Qed.
End Sender.

(** What a station notes when it hears a packet: what is passed up are the data, with what the
    headers say; and a packet is passed up or dropped where it must be. *)
Definition heard_ok (pdu : Pdu Sec HeaderVariant) (data : D) (o : router_out Sec D) : Prop :=
  match o with
  | PassedUp _ ind data' =>
      data' = data /\ ind_upper_protocol ind = upper_of (common_next (pdu_common pdu)) /\
      ind_traffic_class ind = common_class (pdu_common pdu) /\ remaining_packet_lifetime ind = basic_lifetime (pdu_basic pdu)
  | _ => True
  end.
Definition answer (o : router_out Sec D) : Prop := match o with PassedUp _ _ _ | PacketDropped _ => True | _ => False end.
Definition not_up (o : router_out Sec D) : Prop := match o with PassedUp _ _ _ => False | _ => True end.
Definition hears (pdu : Pdu Sec HeaderVariant) (data : D) (must : Prop) (r r' : Router Sec D) : Prop :=
  exists l, m_log r' = m_log r ++ l /\ Forall (heard_ok pdu data) l /\ (must -> Exists answer l).
Lemma hears_after pdu data must r1 r2 r3 : adds not_up r1 r2 -> hears pdu data must r2 r3 -> hears pdu data must r1 r3.
Proof.
  intros (l1 & E1 & H1) (l2 & E2 & H2 & H3). exists (l1 ++ l2). split; [by rewrite E2, E1, app_assoc|].
  split; [apply Forall_app; split; [|done]; eapply Forall_impl; [exact H1|]; by intros []|].
  intros Hm. apply Exists_app. right. by apply H3.
Qed.
Lemma hears_emit pdu data must o r : heard_ok pdu data o -> answer o -> hears pdu data must r (emit o r).
Proof. intros Ho Ha. exists [o]. split; [done|]. split; [by apply Forall_singleton|]. intros _. by apply Exists_cons_hd. Qed.
Lemma hears_quiet pdu data (must : Prop) r r' : adds not_up r r' -> ~ must -> hears pdu data must r r'.
Proof.
  intros (l & E & H) Hm. exists l. split; [done|]. split; [|done]. eapply Forall_impl; [exact H|]. by intros [].
Qed.

Section Receiver.
Context {S : Surroundings Sec D} (cfg : RouterConfig).
Implicit Types (r : Router Sec D).
Abbreviation quiet := (adds not_up).

Lemma transmission_quiet now f mac r r' : run_transmission cfg now f mac r = Ok r' -> quiet r r'.
Proof.
  assert (forall dr pdu payload r r', pass_down_request dr pdu payload r = Ok r' -> quiet r r') as Hp
    by (intros dr pdu payload r1 r2 [_ ->]%pass_down_spec; by apply adds_emit).
  unfold run_transmission. destruct (fp_transmit f) as [ctrl| |]; intros E; [| |apply Ok_inj in E as <-; reflexivity].
  - unfold gbc_source_transmit in E. apply bind_Ok in E as ([] & _ & E). unfold source_transmit in E.
    apply bind_Ok in E as (x & _ & E). apply bind_Ok in E as ([] & _ & E). by eapply Hp.
  - unfold forward_transmit in E. apply bind_Ok in E as ([] & _ & E). by eapply Hp.
Qed.
Lemma action_quiet now p r r' : run_action cfg now p r = Ok r' -> quiet r r'.
Proof. intros E. eapply action_log; [exact E|]. intros t mac r1 r2 _. apply transmission_quiet. Qed.
Lemma waiting_quiet now r w r' : run_waiting cfg now r w = Ok r' -> quiet r r'.
Proof.
  destruct w as [pdu payload ctrl|p]; cbn; [|apply action_quiet]. unfold shb_transmit. intros E. apply bind_Ok in E as (r1 & H1 & E).
  unfold source_transmit in H1. apply bind_Ok in H1 as (x & _ & H1). apply bind_Ok in H1 as ([] & _ & H1).
  apply pass_down_spec in H1 as [_ ->]. unfold reset_beacon_timer in E. apply bind_Ok in E as (next & _ & E). apply Ok_inj in E as <-.
  eexists. split; [cbn; reflexivity|]. by apply Forall_singleton.
Qed.
Lemma flushed_quiet now l r r' : res_fold (run_waiting cfg now) l r = Ok r' -> quiet r r'.
Proof.
  revert r. induction l as [|w l IH]; intros r E; cbn in E; [apply Ok_inj in E as <-; reflexivity|].
  apply bind_Ok in E as (r1 & H1 & E). etransitivity; [by eapply waiting_quiet|by apply IH].
Qed.
Lemma flush_broadcast_quiet now r r' : flush_broadcast_forwarding_buffer cfg now r = Ok r' -> quiet r r'.
Proof.
  unfold flush_broadcast_forwarding_buffer. destruct (buffer_flush _ _ _) as [l b]. intros E%flushed_quiet.
  etransitivity; [|exact E]. by apply adds_same.
Qed.
Lemma flush_unicast_quiet now r r' : flush_unicast_forwarding_buffer cfg now r = Ok r' -> quiet r r'.
Proof.
  unfold flush_unicast_forwarding_buffer. destruct (buffer_flush _ _ _) as [l b]. intros E%flushed_quiet.
  etransitivity; [|exact E]. by apply adds_same.
Qed.
Lemma duplicate_address_log source sender r : m_log (detect_duplicate_address cfg source sender r) = m_log r.
Proof.
  unfold detect_duplicate_address. destruct (itsGnLocalAddrConfMethod _); [|done|done]. by destruct (_ || _).
Qed.
Lemma process_shb_quiet now shb size ll r x : process_shb cfg now shb size ll r = Ok x -> quiet r x.2 /\ x.1 = true.
Proof.
  unfold process_shb. intros E. apply bind_Ok in E as (t & _ & E). apply Ok_inj in E as <-. split; [|done].
  apply adds_same. cbn. apply duplicate_address_log.
Qed.
Lemma process_beacon_quiet now b size ll r : quiet r (process_beacon cfg now b size ll r).2.
Proof.
  unfold process_beacon. destruct (table_update _ _ _) as [e t]. apply adds_same. cbn. apply duplicate_address_log.
Qed.
Lemma process_gbc_quiet now pdu payload size ll r x : process_gbc cfg now pdu payload size ll r = Ok x -> quiet r x.2.
Proof.
  unfold process_gbc. intros E. apply bind_Ok in E as (area & _ & E). apply bind_Ok in E as (within & _ & E).
  destruct (if looks_for_duplicates _ _ then _ else _) as [duplicate t].
  destruct duplicate; [apply Ok_inj in E as <-; by apply adds_same|].
  set (r1 := detect_duplicate_address _ _ _ _) in E. assert (m_log r1 = m_log r) as H1 by (unfold r1; by rewrite duplicate_address_log).
  clearbody r1. destruct (table_update _ _ _) as [e t']. set (e' := if has_entry _ _ _ then _ else _) in E. clearbody e'.
  apply bind_Ok in E as (r2 & H2 & E). apply flush_unicast_quiet in H2.
  transitivity r1; [by apply adds_same|]. etransitivity; [|etransitivity; [exact H2|]]; [by apply adds_same|].
  destruct (stops_forwarding _ _ _ _ _ _); [apply Ok_inj in E as <-; by apply adds_emit|].
  apply bind_Ok in E as (r3 & H3 & E). apply Ok_inj in E as <-. unfold forward_gbc in H3.
  destruct (forwarding_duplicate _ _). destruct (_ && _); [apply Ok_inj in H3 as <-; by apply adds_same|by eapply action_quiet].
Qed.

(** What is read from a packet with these headers and data. *)
Definition reads_as (pdu : Pdu Sec HeaderVariant) (data : D) (c : @CommonContext Sec D) : Prop :=
  (forall common, cc_common c = Some common -> common = pdu_common pdu) /\
  (forall t h, cc_extended c t = Some h -> h = pdu_extended pdu) /\ cc_payload c = data.
(** A single-hop broadcast is for every station that has the transport. *)
Definition for_everybody (pdu : Pdu Sec HeaderVariant) : Prop :=
  (exists shb, pdu_extended pdu = ShbVariant shb) /\ transport_ifcs cfg (upper_of (common_next (pdu_common pdu))) = true.
Abbreviation hears_it pdu data := (hears pdu data (for_everybody pdu)).
Lemma drop_hears pdu data why r : hears_it pdu data r (drop_packet why r).
Proof. by apply hears_emit. Qed.
Lemma pass_up_hears pdu data here_kind destination source r common (c : @CommonContext Sec D) : common = pdu_common pdu -> cc_payload c = data ->
  hears_it pdu data r (pass_up cfg (mkIndication (upper_of (common_next common)) here_kind destination source (cc_report c) (cc_its_aid c)
    (cc_permissions c) (common_class common) (basic_lifetime (pdu_basic pdu)) (hop_limit (pdu_basic pdu))) (cc_payload c) r).
Proof.
  intros -> <-. unfold pass_up. cbn [GeoRouter.ind_upper_protocol]. destruct (transport_ifcs cfg _) eqn:Ht; [by apply hears_emit|].
  apply hears_quiet; [reflexivity|]. intros [_ Hm]. congruence.
Qed.
Lemma extended_hears now pdu data common c ll r r' : indicate_extended cfg now (pdu_basic pdu) common c ll r = Ok r' ->
  cc_common c = Some common -> reads_as pdu data c -> hears_it pdu data r r'.
Proof.
  unfold indicate_extended. intros E Hc (Hcommon & Hx & Hp). apply Hcommon in Hc.
  destruct (cc_extended c (header_type common)) as [h|] eqn:Hh; [|apply Ok_inj in E as <-; apply drop_hears]. apply Hx in Hh.
  destruct (negb _); [apply Ok_inj in E as <-; apply drop_hears|]. destruct h as [shb|g|b].
  - apply bind_Ok in E as ([up r1] & H1 & E). apply process_shb_quiet in H1 as [H1 Hup]. cbn in H1, Hup. subst up. apply Ok_inj in E as <-.
    eapply hears_after; [exact H1|]. by apply pass_up_hears.
  - apply bind_Ok in E as (destination & _ & E). apply bind_Ok in E as ([up r1] & H1 & E). apply process_gbc_quiet in H1. cbn in H1.
    apply Ok_inj in E as <-. eapply hears_after; [exact H1|]. destruct up; [by apply pass_up_hears|].
    apply hears_quiet; [reflexivity|]. intros [[shb Hs] _]. congruence.
  - apply Ok_inj in E as <-. apply hears_quiet; [apply process_beacon_quiet|]. intros [[shb Hs] _]. congruence.
Qed.
Lemma common_hears now pdu data c ll r r' : indicate_common cfg now (pdu_basic pdu) c ll r = Ok r' -> reads_as pdu data c -> hears_it pdu data r r'.
Proof.
  unfold indicate_common. intros E Hc. destruct (cc_common c) as [common|] eqn:Hcommon; [|apply Ok_inj in E as <-; apply drop_hears].
  destruct (_ <? _); [apply Ok_inj in E as <-; apply drop_hears|]. apply bind_Ok in E as (r1 & H1 & E). apply flush_broadcast_quiet in H1.
  eapply hears_after; [|by eapply extended_hears]. etransitivity; [|exact H1]. by apply adds_same.
Qed.
Hypothesis sealed : forall k now now' aid common h data,
  let p := plaintext_payload (@decapsulate _ _ S now (@encapsulate _ _ (around k) now' aid common h data)) in
  (forall common', plain_common p = Some common' -> common' = common) /\ (forall t h', plain_extended p t = Some h' -> h' = h) /\
  plain_payload p = data.
Lemma reception_hears t lifetime tc data dr pdu payload now ll r r' : carries t lifetime tc data (PassedDown dr pdu payload) ->
  indicate cfg now (ContextCast pdu payload) ll r = Ok r' -> hears_it pdu data r r'.
Proof.
  intros (Hcon & Hcar & Hn & _) E. unfold indicate, indicate_secured in E. cbn [parse_basic parse_secured] in E. unfold consistent in Hcon.
  destruct (negb _); [apply Ok_inj in E as <-; apply drop_hears|]. destruct Hn as [Hn|Hn]; rewrite Hn in E, Hcon; cbn in Hcon.
  - destruct (pdu_secured pdu) as [s|] eqn:Hsec; [|done]. unfold carried in Hcar. rewrite Hsec in Hcar. destruct Hcar as (k & now' & aid & ->).
    destruct (security_entity cfg); [|apply Ok_inj in E as <-; apply drop_hears].
    destruct (sealed k now now' aid (pdu_common pdu) (pdu_extended pdu) data) as (H1 & H2 & H3). set (s := encapsulate _ _ _ _ _) in *.
    assert (reads_as pdu data (secured_context (ContextCast pdu payload) s (decapsulate now s))) as Hr.
    { split; [exact H1|]. split; [exact H2|]. cbn [cc_payload secured_context]. by rewrite merged_cast. }
    clear Hcon. destruct (bool_decide _); [eapply common_hears; [exact E|exact Hr]|]. destruct (non_strict cfg); [|apply Ok_inj in E as <-; apply drop_hears].
    destruct (tolerable _); [eapply common_hears; [exact E|exact Hr]|apply Ok_inj in E as <-; apply drop_hears].
  - symmetry in Hcon. apply bool_decide_eq_false in Hcon. rewrite <- eq_None_not_Some in Hcon. unfold carried in Hcar. rewrite Hcon in Hcar.
    subst payload. destruct (_ || _); [|apply Ok_inj in E as <-; apply drop_hears]. eapply common_hears; [exact E|].
    split; [by intros common [= <-]|]. split; [by intros t' h [= <-]|done].
Qed.
End Receiver.
End Way.

(** ** Headers are read as they were written *)
Lemma uint16be_value v : 256 * (u16 v / 256) + u16 v mod 256 = u16 v.
Proof. pose proof (Z.div_mod (u16 v) 256). lia. Qed.
Lemma header_b_roundtrip p q application : parse_btp_b (ChunkPayload (serialize_header_b (mkHeaderB p q)) application) =
  Ok (mkHeaderB (u16 p) (u16 q), ChunkPayload (serialize_header_b (mkHeaderB p q)) application).
Proof. unfold parse_btp_b. cbn. by rewrite !uint16be_value. Qed.
(** Every hook taps a BTP-B packet. *)
Lemma dispatcher_taps ind p q application d hook : ind_upper_protocol ind = Upper_BTP_B -> hook ∈ m_promiscuous_hooks d ->
  let packet := ChunkPayload (serialize_header_b (mkHeaderB p q)) application in
  exists d' out, dispatcher_indicate ind packet d = Ok (d', out) /\
    Tapped hook (indication_of_b ind (mkHeaderB (u16 p) (u16 q))) packet ∈ out.
Proof.
  intros Hu Hh packet. unfold dispatcher_indicate, parse_btp_header, packet. rewrite Hu, header_b_roundtrip. cbn [mbind res_bind fst snd bind_source_port indication_of_b].
  eexists _, _. split; [reflexivity|]. apply elem_of_app. left. apply list_elem_of_fmap. by exists hook.
Qed.

(** ** External software to external software *)
Section RoundTrip.
Context {Sec : Type} (around : nat -> Surroundings Sec UpPayload) {geo : Geography} (cfgs : nat -> RouterConfig).
Hypothesis sealed : forall i j now now' aid common h data,
  let p := plaintext_payload (@decapsulate _ _ (around i) now (@encapsulate _ _ (around j) now' aid common h data)) in
  (forall common', plain_common p = Some common' -> common' = common) /\ (forall t h', plain_extended p t = Some h' -> h' = h) /\
  plain_payload p = data.
Variable from_microdegree from_degree : double -> double.
Variable ReadVarint32 : list Z -> option (Z * nat).
Variable WriteVarint32 : Z -> list Z.
Variable ParseFromCodedStream : list Z -> option TransfusionMsg * nat.
Variable SerializeToCodedStream : TransfusionMsg -> list Z.
Hypothesis varint_law : forall n rest, 0 <= n < 2 ^ 32 ->
  ReadVarint32 (WriteVarint32 n ++ rest) = Some (n, length (WriteVarint32 n)).
Hypothesis parse_law : forall msg,
  ParseFromCodedStream (SerializeToCodedStream msg) = (Some msg, length (SerializeToCodedStream msg)).

(** What the other external software gets: without transport type, and always with a lifetime. *)
Definition returned (default_seconds : Z) (msg : TransfusionMsg) : TransfusionMsg :=
  mkTransfusion (tm_destination_port msg) (tm_payload msg) (tm_store_carry_forward msg) (tm_channel_offload msg)
    (tm_dcc_profile msg) (Some (default default_seconds (tm_maximum_lifetime msg))) TRANSPORT_TYPE_NOT_SET.
(** The message can be carried, and seconds are what its lifetime means without one. *)
Definition carriable (cfg : RouterConfig) (seconds : Z) (msg : TransfusionMsg) : Prop :=
  0 <= tm_destination_port msg < 2 ^ 16 /\ 0 <= tm_dcc_profile msg < 64 /\ tm_transport msg <> TRANSPORT_TYPE_NOT_SET /\
  match tm_maximum_lifetime msg with Some s => representable s = true | None => True end /\
  d_to_long (lifetime_decode (itsGnDefaultPacketLifetime (mib_base (mib cfg)))) = Ok seconds /\ 0 <= seconds < 2 ^ 32 /\
  sendable SerializeToCodedStream (returned seconds msg).

(** The class and lifetime in the request of a message. *)
Definition class_of (msg : TransfusionMsg) : Z :=
  set_store_carry_forward (tm_store_carry_forward msg)
    (set_channel_offload (tm_channel_offload msg) (set_tc_id (tm_dcc_profile msg) 0)).
Definition packet_of (msg : TransfusionMsg) : UpPayload :=
  ChunkPayload (serialize_header_b (mkHeaderB (u16 (tm_destination_port msg)) 0)) (tm_payload msg).
Definition kind_of (msg : TransfusionMsg) : TransportType := match tm_transport msg with kGbc _ => GBC | _ => SHB end.

Lemma send_adds i aid now msg r r' seconds : carriable (cfgs i) seconds msg ->
  @transfusion_send _ (around i) _ (cfgs i) from_microdegree from_degree aid now msg r = Ok r' ->
  exists lifetime l, d_to_long (lifetime_decode lifetime) = Ok (default seconds (tm_maximum_lifetime msg)) /\
    0 <= default seconds (tm_maximum_lifetime msg) < 2 ^ 32 /\
    m_log r' = m_log r ++ l /\ Forall (carries around (kind_of msg) lifetime (class_of msg) (packet_of msg)) l /\
    (tm_transport msg = kShb -> tm_store_carry_forward msg && negb (has_neighbours now (m_location_table r)) = false ->
      length l = 1%nat).
Proof.
  intros (_ & Hid & Ht & Hlife & Hdef & Hsec & _) E. unfold transfusion_send in E. apply bind_Ok in E as (out & Hp & E).
  assert (exists raw, match tm_maximum_lifetime msg with
      | Some s => Some <$> lifetime_encode (d_of_Z s) | None => Ok None end = Ok raw /\
    let lifetime := default (itsGnDefaultPacketLifetime (mib_base (mib (cfgs i)))) raw in
    d_to_long (lifetime_decode lifetime) = Ok (default seconds (tm_maximum_lifetime msg)) /\
    0 <= default seconds (tm_maximum_lifetime msg) < 2 ^ 32) as (raw & Hraw & Hback).
  { destruct (tm_maximum_lifetime msg) as [s|]; [|by exists None].
    destruct (lifetime_roundtrip s Hlife) as (raw & He & Hd & Hr). exists (Some raw). by rewrite He. }
  destruct (traffic_class_roundtrip (tm_store_carry_forward msg) (tm_channel_offload msg) _ Hid) as (Hscf & _).
  unfold processMessage in Hp. exists (default (itsGnDefaultPacketLifetime (mib_base (mib (cfgs i)))) raw).
  destruct (tm_transport msg) as [|area|] eqn:Htr; [..|done]; rewrite Hraw in Hp; cbn [mbind res_bind] in Hp; apply Ok_inj in Hp as <-;
    unfold btp_send, router_request in E; cbn [transport_type btp_destination mbind res_bind gn_execute fst snd] in E; apply bind_Ok in E as (x & Hx & E);
    destruct (accepted x.1) eqn:Ha; [|done|..|done]; apply Ok_inj in E as <-; unfold kind_of; rewrite Htr.
  - apply (request_shb_adds around (cfgs i) i eq_refl) in Hx as (l & Hl & Hall & Hone); [|done|done].
    exists l. split; [apply Hback|]. split; [apply Hback|]. split; [exact Hl|]. split; [exact Hall|]. intros _ Hn. apply Hone.
    cbn [req_traffic_class gn_data_request gn_traffic_class copy_request_parameters traffic_class]. by rewrite Hscf.
  - apply (request_gbc_adds around (cfgs i) i eq_refl) in Hx as (l & Hl & Hall); [|done]. exists l.
    split; [apply Hback|]. split; [apply Hback|]. split; [exact Hl|]. by split.
Qed.
Lemma heard_returns i msg seconds lifetime dr pdu payload here ind data dispatcher hook :
  carriable (cfgs i) seconds msg -> d_to_long (lifetime_decode lifetime) = Ok (default seconds (tm_maximum_lifetime msg)) ->
  0 <= default seconds (tm_maximum_lifetime msg) < 2 ^ 32 ->
  carries around (kind_of msg) lifetime (class_of msg) (packet_of msg) (PassedDown dr pdu payload) ->
  heard_ok pdu (packet_of msg) (PassedUp here ind data) -> hook ∈ m_promiscuous_hooks dispatcher ->
  exists dispatcher' out b p bytes n k,
    dispatcher_indicate ind data dispatcher = Ok (dispatcher', out) /\ Tapped hook b p ∈ out /\
    tapPacket WriteVarint32 SerializeToCodedStream (tapped_members b) (application_layer p) = Ok bytes /\
    ReadVarint32 bytes = Some (n, k) /\
    (ParseFromCodedStream (take (Z.to_nat n) (drop k bytes))).1 = Some (returned seconds msg).
Proof.
  intros (Hport & Hid & _ & _ & _ & _ & Hs) Hd Hr (_ & _ & _ & Hl & Hn & Hc & _) (-> & Hu & Htc & Hlt) Hh.
  rewrite Hn in Hu. cbn in Hu.
  destruct (dispatcher_taps ind (u16 (tm_destination_port msg)) 0 (tm_payload msg) dispatcher hook Hu Hh) as (d' & out & Hi & Ht).
  assert (u16 (tm_destination_port msg) = tm_destination_port msg) as Hp by (apply wrap_small; lia).
  destruct (traffic_class_roundtrip (tm_store_carry_forward msg) (tm_channel_offload msg) _ Hid) as (H1 & H2 & H3 & _).
  eexists d', out, _, _, _, _, _. split; [exact Hi|]. split; [exact Ht|]. split.
  - unfold tapPacket, tap_message. cbn [bi_remaining_lifetime bi_traffic_class bi_destination_port tapped_members indication_of_b
      bind_remaining_lifetime bind_traffic_class bind_destination_port b_destination_port application_layer].
    rewrite Hlt, Hl, Hd, Htc, Hc, !Hp. cbn [fmap res_fmap mbind res_bind]. rewrite (u32_small _ Hr). unfold class_of. rewrite H1, H2, H3.
    reflexivity.
  - fold (returned seconds msg). unfold Transfusion.frame. split; [apply varint_law; unfold sendable in Hs; lia|].
    rewrite drop_app_length, Nat2Z.id, take_ge by done. by rewrite parse_law.
Qed.

End RoundTrip.

(** ** A message without lifetime, from one station to another *)
Abbreviation ex_sec := (CommonHeader * HeaderVariant * UpPayload)%type.
#[export] Instance ex_above (_ : nat) : Surroundings ex_sec UpPayload := {|
  sec_size s := 100; payload_size := up_size; no_payload := ChunkPayload [] [];
  encapsulate now aid common h data := (common, h, data);
  decapsulate now s := mkDecap Success 0 [] (mkPlaintext (Some s.1.1) (fun _ => Some s.1.2) s.2 None);
  uniform n := d_of_Z 0; random_octet n := 0; lround_unspecified x := 0; visit_order l := l; dcc_field now := null_dcc_field;
  indeterminate _ := (0, 0); after_zeros d := d
|}.
Lemma ex_above_sealed : forall (i j : nat) now now' aid common h data,
  let p := plaintext_payload (@decapsulate _ _ (ex_above i) now (@encapsulate _ _ (ex_above j) now' aid common h data)) in
  (forall common', plain_common p = Some common' -> common' = common) /\ (forall t h', plain_extended p t = Some h' -> h' = h) /\
  plain_payload p = data.
Proof. intros i j now now' aid common h data. cbn. split; [by intros ? [= <-]|]. split; [by intros _ ? [= <-]|done]. Qed.
Definition ex_station (k : Z) : Router ex_sec UpPayload :=
  match @router_create _ _ (ex_above 0) (ex_config 0) 0 with
  | Ok r => set_address (mkGnAddress true 5 0 (ex_mac k)) r
  | Fail _ => mkGeoRouter _ _ (table_create 0) (buffer_create 0) (buffer_create 0) (cbf_create 0) lpv_default 0 [] 0%nat 0 []
  end.
Definition ex_plain_msg : TransfusionMsg := mkTransfusion 2001 [1; 2; 3] false true 2 None kShb.
Abbreviation ex_sending :=
  (@transfusion_send _ (ex_above 0) _ (ex_config 0) ex_unit ex_unit 36 1000 ex_plain_msg (ex_station 1)).
Definition ex_sender : Router ex_sec UpPayload := match ex_sending with Ok r => r | Fail _ => ex_station 1 end.
Lemma ex_sends : ex_sending = Ok ex_sender.
Proof. unfold ex_sender. assert (is_ok ex_sending = true) as H by (by vm_compute). by destruct ex_sending. Qed.
Definition ex_on_air : Pdu ex_sec HeaderVariant * UpPayload :=
  match m_log ex_sender with
  | [PassedDown _ pdu payload] => (pdu, payload)
  | _ => (mkPdu (basic_of_mib ex_mib) (common_of_mib ex_mib) (ShbVariant (mkShb lpv_default null_dcc_field)) None, ChunkPayload [] [])
  end.
Abbreviation ex_hearing :=
  (@indicate _ _ (ex_above 1) _ (ex_config 1) 5000 (ContextCast ex_on_air.1 ex_on_air.2) (mkLinkLayer (ex_mac 1) cBroadcastMacAddress) (ex_station 2)).
Definition ex_receiver : Router ex_sec UpPayload := match ex_hearing with Ok r => r | Fail _ => ex_station 2 end.
Lemma ex_hears : ex_hearing = Ok ex_receiver.
Proof. unfold ex_receiver. assert (is_ok ex_hearing = true) as H by (by vm_compute). by destruct ex_hearing. Qed.
Definition ex_dispatcher : PortDispatcher := add_promiscuous_hook (Some 7%nat) (mkDispatcher ∅ ∅ []).
Lemma ex_carriable : carriable ex_serialize (ex_config 0) 60 ex_plain_msg.
Proof. unfold carriable, sendable. split_and!; first [cbn; lia|done|by vm_compute]. Qed.
Lemma ex_sent_one : exists dr, m_log ex_sender = m_log (ex_station 1) ++ [PassedDown dr ex_on_air.1 ex_on_air.2].
Proof. eexists. vm_compute. reflexivity. Qed.

